(* ===== verification/_CoqProject ===== *)
-Q . S2P
Prelude.v
Memory.v
CString.v
KernLibc.v
Bytes.v
Vfs.v
BlockDev.v
FatVolume.v
FatChain.v
FatFile.v
FatName.v
FatSpec.v
FatDir.v
FatExamples.v
Slab.v
Paging.v
AddressSpace.v
AddressSpaceSpec.v
AddressSpaceExamples.v
Malloc.v
HeapProviders.v
KernelInit.v
Font.v
Arrays.v
Display.v
Idt.v
Hardware.v
BitFields.v
Apic.v
ApicSpec.v
Tty.v
TtySpec.v
TtyInput.v
Ps2.v
Ps2Spec.v
WideTables.v
Ctype.v
Wchar.v
WcharSpec.v
Qsort.v
Strtol.v
Trb.v
TrbSpec.v
Pci.v
PciSpec.v
PciMsix.v
Virtio.v
VirtioSpec.v
UserMemory.v
Elf.v
ElfSpec.v
ElfLoad.v
Pipes.v
PipesSpec.v
UsbDescriptors.v
UsbDescriptorsSpec.v
Xhci.v
XhciWorld.v
XhciKeyboard.v
XhciKeyboardSpec.v
XhciEvents.v
XhciDevices.v
XhciInit.v
XhciMemory.v
UsbStick.v
XhciMsdSpec.v
XhciBlockSpec.v
Syscalls.v
Unistd.v
Stdio.v
UnistdSpec.v
SyscallHandlers.v
SyscallSpec.v
StdioSpec.v
LibcExamples.v
LibcHeap.v
Path.v
PathSpec.v
VfsTree.v
