(* ===== verification/Prelude.v ===== *)
(** * stuos: a verification library for the kernel and its C library

    stuos is a small 64-bit operating system: a kernel (C with a few Rust files and assembly) under src/stuos, its C library
    under src/custom_libc, a heap allocator both link (src/custom_malloc) and the headers of the system call interface
    (src/abi/uapi).  This development models the C code as executable functions and proves what they do.

    ** How code becomes definitions

    A C function is a function with its name.  It returns an [outcome] (below): [Ok], [Halt] for a failed assert, [abort] or
    the macro HCF, [Undef] for what C gives no meaning to (an access out of bounds, a null or dangling pointer), [OutOfFuel]
    for a loop that was cut.  Globals and the objects behind pointers are explicit state.  Unsigned integers are in [Z] and
    reduced where the code reduces them ([u8] to [u64]); structures are records, or named byte fields of a [layout]
    (Hardware.v) where the hardware reads them; bit-fields are in BitFields.v.  A loop over a counter is [c_for] or
    [c_foreach], an open-ended one [c_while] or [io_while] with fuel.  A theorem on a function with fuel states how much is
    enough and that the function then returns.  [wp H o Q] says that [o] is [Ok] with a result that satisfies [Q], or [Halt]
    and [H] holds; [wp_*] lemmas are its rules and most proofs are chains of them.

    Code outside the C files is an interface: a class of operations with the laws the C code relies on.  Each has an instance
    in memory for which the theorems are applied, in the Examples files or at the end of the component's last file.
    - [ByteMemory] (Memory.v): byte loads and stores, for the code on strings.
    - [PortIO], [Mmio], [IoApicDevice], [KeyboardController] (Hardware.v, Apic.v, Ps2.v): instructions and devices.
    - [ConfigSpace], [DeviceRegisters] (Pci.v), [DmaDevice], [VirtioDisk] (Virtio.v, VirtioSpec.v): PCI functions and a legacy
      virtio disk.
    - [UsbController] (XhciWorld.v), [UsbStick] (UsbStick.v): a controller that runs while the driver waits, and one that
      serves a bulk-only SCSI disk.
    - [HeapProvider] (Malloc.v), [PageSyscall] (HeapProviders.v): what gives pages to the heap.
    - [BlockDriver] (BlockDev.v), [FileDevice] (FatVolume.v): what a disk driver promises to the partitions, and a partition
      to the filesystem.  The first is discharged by the virtio driver and by the USB mass storage driver, the second by the
      partitions.
    - [Kernel], [Clock] (Syscalls.v, UnistdSpec.v): what a program's system calls return and do; the descriptor calls are
      discharged by the kernel's handlers (SyscallHandlers.v).
    - [CHeap] (Syscalls.v): malloc and free for the C library, discharged by custom_malloc over a provider that does not halt
      ([NeverHalts], LibcHeap.v).

    ** The parts and their files

    Foundations: Prelude (outcomes, integers, loops), Memory, Bytes (little-endian fields), Arrays, Hardware, BitFields.

    Memory, in the order of the calls.  Slab is physical_slab_allocation.c: a flag per page; no page is handed out twice.
    Paging, AddressSpace and AddressSpaceSpec are memory.c: four-level page tables in physical memory seen through the direct
    map. [tree] relates the words in memory to a finite map of tables; mapping a page changes one translation, cloning an
    address space copies every page and shares none, removing one frees exactly its pages and tables.  KernelInit is
    memory_init, the descriptor tables and the kernel half.  Malloc is custom_malloc (library.c, linked_list_item.c): the heap
    as a list of items, with the invariant that blocks in use are disjoint; HeapProviders discharges its page interface for
    the kernel (kern_libc.c) and for programs (init.c).  UserMemory, Elf, ElfSpec, ElfLoad are elf.c: a loaded program has its
    segments, zeros, stack and arguments where it expects them.

    Storage.  Vfs has the records of fs.h.  BlockDev is fs_dev.c: disks, the partition table, reads and writes of bytes as
    whole blocks.  FatVolume, FatFile, FatName, FatChain, FatSpec and FatDir are fs_fat.c: the table and the chains of
    clusters, files, directories and names; a write is read back, names and records round-trip, a listing is the records of
    the directory, and a file that is created is listed.  Virtio, VirtioSpec are virtio_driver.c.

    Devices.  Idt is idt.c.  Apic, ApicSpec are apic.c: ACPI tables, the I/O and local interrupt controllers, the timer. Ps2,
    Ps2Spec are ps2_driver.c: bytes of scan code set 2 refine whole key events.  Font and Display are the console; Tty,
    TtySpec, TtyInput are tty.c: the pixels refine a page of text, the input buffer a queue of lines.  Pci, PciSpec, PciMsix
    are pci.c. Trb, TrbSpec are xhci_trb.c: both kinds of ring refine queues.  UsbDescriptors(Spec), Xhci, XhciWorld,
    XhciEvents, XhciInit, XhciDevices, XhciKeyboard(Spec) are xhci_driver.c, xhci_keyboard.c and xhci_msd.c: registers,
    commands, events that wake the function that waits, descriptors, reports of a keyboard, and bulk-only transfers;
    XhciMemory, XhciMsdSpec and XhciBlockSpec verify the last against a disk.

    Open files.  Pipes, PipesSpec are pipes_and_files.c.  Path, PathSpec are fs.c: the directory at the root, mounts, and
    [vfs_get], which resolves a path to a node.  fs.c is between two states of the tree: some of the types it names have moved
    to fs2.rs; its functions are modelled as they are written.  What no file declares is an argument ([path_segment_len], the
    enumeration [StepPathResult], the mounts).  A directory entry whose name is not UTF-8 makes the kernel panic.  VfsTree puts paths, FAT16 and the disks together: the kernel's
    start up to the mounted root, and opening and reading a file by its path.  SyscallHandlers has the system calls on
    descriptors: the table of open files of a process, which shares them with the processes it was forked from and forks,
    duplication, reads, writes and seeks.

    C library.  CString is string.c, strings.c; KernLibc is kern_libc.c, which has its own copies; Ctype, WideTables, Wchar,
    WcharSpec are ctype.c, wctype.c, wchar.c and their tables; Qsort and Strtol are qsort.c and strtol.c.  Syscalls is the
    interface between a program and the kernel; Unistd is unistd.c with the smaller files that only make system calls, Stdio
    is stdio.c and dirent.c.  UnistdSpec, StdioSpec have what they promise over any kernel, SyscallSpec what a program sees
    when they run on the handlers: a stream over a descriptor over a file of a disk.  LibcHeap has calloc and strdup on the
    verified heap.

    ** What the theorems show

    Functional: each operation's result on every path ([instantiate_ELF_spec], [clone_virtual_addressing_spec],
    [map_page_spec], [malloc_spec], [write_file_spec], [strtol_spec], [qsort_stable_sort], ...).  Refinement: a driver
    implements its abstract machine (terminal, keyboard, rings, virtio initialisation; [open_then_read] across fs.c, fs_fat.c
    and the disk).  Equivalence: a relative path and the absolute one name the same node; a parser and a reference parser
    agree.  Typing: the views of a TRB agree on its type and its cycle bit.  Liveness: sleep returns once the clock has passed
    the delay.  Round trips: what is written to a disk, a file or a record is read back; UTF-8, names and numbers.  Safety:
    blocks and pages in use are disjoint.  Termination: the loops end, with the fuel stated in the theorem; the walks over
    tables the firmware or a device wrote end when the table is well formed, and where a malformed one makes the code run for
    ever there is a theorem that no fuel is enough.  Errors: where the code does not do what it means to, the theorem states
    what it does and an instance shows it.

    ** Not modelled, and why

    The Rust files (scheduling, processes, fs2.rs) and the assembly are not C; what the C code needs of them is an argument,
    but for the handlers of the descriptor calls and the comparison and lookup of nodes, which are short enough to translate.
    printf.c (two copies) and limine.h are third-party, the openlibm headers are another library's; what the C library prints
    with printf (perror, assert) is left out.  strto.c (text to floating point) needs the floating-point rounding of the
    compiler.  debugging.c, cpuid.c and va_list.c only call other parts, assembly or the compiler's runtime, and of main.c
    only the mounting of the root at its end is modelled ([mount_root]).  Of syscall_handlers.c the current directory
    and stat (VfsTree) are modelled; execve starts a task of the Rust scheduler and is not.  ports/ holds tests and the build of other programs.
    Concurrency: the kernel has one processor and interrupts are modelled at the places where the code waits for them.  The
    tables of errno.h, stdint.h and the like are used as numbers. *)
From stdpp Require Export base gmap list strings numbers fin_maps.
From Stdlib Require Export ZArith Lia.
#[global] Open Scope Z_scope.
#[global] Arguments Z.eqb : simpl never.
#[global] Arguments Z.ltb : simpl never.
#[global] Arguments Z.leb : simpl never.
#[global] Arguments Z.of_nat : simpl never.
#[global] Arguments Z.to_nat : simpl never.

(** ** Outcomes of a C computation

    [Ok a] is a normal return.  [Halt] is the macro [HCF] (debugging.h), a failed
    [assert] or [abort]: the machine stops there.  [Undef] is an access
    the C language gives no meaning to (out of range, dangling or null pointer).
    [OutOfFuel] is an artefact of the model: a loop had more iterations than
    the fuel it was given; theorems show it is never the outcome. *)
Inductive outcome (A : Type) : Type :=
  | Ok (a : A)
  | Halt
  | Undef
  | OutOfFuel.
Arguments Ok {A} a.
Arguments Halt {A}.
Arguments Undef {A}.
Arguments OutOfFuel {A}.

#[export] Instance outcome_ret : MRet outcome := fun A a => Ok a.
#[export] Instance outcome_bind : MBind outcome := fun A B f o =>
  match o with Ok a => f a | Halt => Halt | Undef => Undef | OutOfFuel => OutOfFuel end.

(** [assert(value)] of debugging.h, and the guard [if(b) HCF]. *)
Definition c_assert (b : bool) : outcome unit := if b then Ok () else Halt.
Definition hcf_if (b : bool) : outcome unit := if b then Halt else Ok ().

(** An access that is undefined when the value is missing. *)
Definition or_undef {A} (o : option A) : outcome A :=
  match o with Some a => Ok a | None => Undef end.

(** ** Machine integers: a [w]-bit unsigned value is a [Z] reduced modulo [2^w] *)
Definition wrap (w z : Z) : Z := z `mod` 2 ^ w.
Abbreviation u8 := (wrap 8).
Abbreviation u16 := (wrap 16).
Abbreviation u32 := (wrap 32).
Abbreviation u64 := (wrap 64).
(** two's complement reading of a [w]-bit value *)
Definition signed (w z : Z) : Z := (z + 2 ^ (w - 1)) `mod` 2 ^ w - 2 ^ (w - 1).
Abbreviation s8 := (signed 8).
Abbreviation s32 := (signed 32).
Abbreviation s64 := (signed 64).

Lemma wrap_small w z : 0 ≤ z < 2 ^ w → wrap w z = z.
Proof. intros. by apply Z.mod_small. Qed.

Lemma wrap_range w z : 0 ≤ w → 0 ≤ wrap w z < 2 ^ w.
Proof. intros. apply Z.mod_pos_bound. lia. Qed.

Lemma wrap_wrap w z : 0 ≤ w → wrap w (wrap w z) = wrap w z.
Proof. intros. apply wrap_small. by apply wrap_range. Qed.

Lemma signed_small w z : 0 < w → - 2 ^ (w - 1) ≤ z < 2 ^ (w - 1) → signed w z = z.
Proof.
  intros Hw Hz. unfold signed.
  assert (2 ^ w = 2 * 2 ^ (w - 1)) as E.
  { rewrite <- Z.pow_succ_r by lia. f_equal. lia. }
  rewrite Z.mod_small; lia.
Qed.

(** uapi/page_size.h *)
Definition PAGE_SIZE : Z := 4096.
Definition PAGE_MASK : Z := PAGE_SIZE - 1.

Lemma land_page_mask z : Z.land z PAGE_MASK = z `mod` PAGE_SIZE.
Proof. change PAGE_MASK with (Z.ones 12). by rewrite Z.land_ones by lia. Qed.

(** ** Automation *)
Create HintDb stuos.
Create Rewrite HintDb stuos.
#[export] Hint Resolve wrap_range : stuos.
#[export] Hint Rewrite @length_insert @length_app @length_take @length_drop
  @length_replicate : stuos.

(** Split the hypotheses that say a monadic computation returned. *)
Lemma bind_Ok {A B} (o : outcome A) (f : A → outcome B) b :
  o ≫= f = Ok b → ∃ a, o = Ok a ∧ f a = Ok b.
Proof. destruct o; simpl; intros; simplify_eq. eauto. Qed.

Lemma Ok_bind {A B} (a : A) (f : A → outcome B) : Ok a ≫= f = f a.
Proof. done. Qed.

Lemma c_assert_Ok b u : c_assert b = Ok u → b = true.
Proof. by destruct b. Qed.

Lemma hcf_if_Ok b u : hcf_if b = Ok u → b = false.
Proof. by destruct b. Qed.

Lemma or_undef_Ok {A} (o : option A) a : or_undef o = Ok a → o = Some a.
Proof. destruct o; simpl; congruence. Qed.

Ltac outcome_inv :=
  repeat match goal with
  | H : _ ≫= _ = Ok _ |- _ =>
      let a := fresh "v" in let E := fresh "E" in
      apply bind_Ok in H; destruct H as (a & E & H)
  | H : c_assert _ = Ok _ |- _ => apply c_assert_Ok in H
  | H : hcf_if _ = Ok _ |- _ => apply hcf_if_Ok in H
  | H : or_undef _ = Ok _ |- _ => apply or_undef_Ok in H
  | H : mret _ = Ok _ |- _ => unfold mret, outcome_ret in H
  | H : Ok _ = Ok _ |- _ => injection H as H; subst
  | H : Halt = Ok _ |- _ => discriminate H
  | H : Undef = Ok _ |- _ => discriminate H
  | H : OutOfFuel = Ok _ |- _ => discriminate H
  | p : (_ * _)%type |- _ => destruct p
  end.

(** Turn the boolean comparisons of [Z] into propositions. *)
Ltac zbool :=
  repeat match goal with
  | H : (_ && _)%bool = true |- _ => apply andb_true_iff in H; destruct H
  | H : (_ || _)%bool = false |- _ => apply orb_false_iff in H; destruct H
  | H : negb _ = true |- _ => apply negb_true_iff in H
  | H : negb _ = false |- _ => apply negb_false_iff in H
  | H : (_ =? _) = true |- _ => apply Z.eqb_eq in H
  | H : (_ =? _) = false |- _ => apply Z.eqb_neq in H
  | H : (_ <? _) = true |- _ => apply Z.ltb_lt in H
  | H : (_ <? _) = false |- _ => apply Z.ltb_ge in H
  | H : (_ <=? _) = true |- _ => apply Z.leb_le in H
  | H : (_ <=? _) = false |- _ => apply Z.leb_gt in H
  end.

(** Case analysis on the condition of the first [if] on booleans in the goal. *)
Ltac case_if :=
  match goal with
  | |- context [if ?b then _ else _] =>
      match type of b with bool => destruct b eqn:? end
  end; zbool.

(** ** Total weakest preconditions

    [wp H o Q]: the computation [o] returns a value satisfying [Q], or stops in
    [Halt] when [H] holds; it is never undefined and never out of fuel.  With
    [H := False] this is total correctness. *)
Definition wp {A} (H : Prop) (o : outcome A) (Q : A → Prop) : Prop :=
  match o with Ok a => Q a | Halt => H | Undef => False | OutOfFuel => False end.

Section wp.
Context {A B : Type}.
Implicit Types (o : outcome A) (H : Prop).

Lemma wp_ret H (a : A) (Q : A → Prop) : Q a → wp H (Ok a) Q.
Proof. done. Qed.

Lemma wp_bind H o (f : A → outcome B) Q :
  wp H o (λ a, wp H (f a) Q) → wp H (o ≫= f) Q.
Proof. by destruct o. Qed.

Lemma wp_mono H o (P Q : A → Prop) : wp H o P → (∀ a, P a → Q a) → wp H o Q.
Proof. destruct o; simpl; auto. Qed.

Lemma wp_mono_halt H H' o (P Q : A → Prop) :
  wp H o P → (H → H') → (∀ a, P a → Q a) → wp H' o Q.
Proof. destruct o; simpl; auto. Qed.

Lemma wp_Ok H o Q a : wp H o Q → o = Ok a → Q a.
Proof. by intros ? ->. Qed.

Lemma wp_total o Q : wp False o Q ↔ ∃ a, o = Ok a ∧ Q a.
Proof.
  destruct o; simpl; split; [eauto|by intros (? & [= ->] & ?)|done|by intros (? & ? & _)
    |done|by intros (? & ? & _)|done|by intros (? & ? & _)].
Qed.

Lemma wp_total_1 o Q : wp False o Q → ∃ a, o = Ok a ∧ Q a.
Proof. apply wp_total. Qed.

Lemma wp_assert H b (Q : () → Prop) : b = true → Q () → wp H (c_assert b) Q.
Proof. by intros ->. Qed.

Lemma wp_hcf_if H b (Q : () → Prop) : b = false → Q () → wp H (hcf_if b) Q.
Proof. by intros ->. Qed.
End wp.

(** ** Loops

    [for_loop fuel i n body s] is [for(; i < n; i++) body] threading the state
    [s]; the body leaves the loop (a [return] or [break]) with [inr].  [c_for]
    gives it exactly the [n - i] iterations it can make. *)
Fixpoint for_loop {S R} (fuel : nat) (i n : Z) (body : Z → S → outcome (S + R)) (s : S)
    : outcome (S + R) :=
  if i <? n then
    match fuel with
    | O => OutOfFuel
    | Datatypes.S k =>
        r ← body i s;
        match r with
        | inl s' => for_loop k (i + 1) n body s'
        | inr r => Ok (inr r)
        end
    end
  else Ok (inl s).

Definition c_for {S R} (i n : Z) (body : Z → S → outcome (S + R)) (s : S) : outcome (S + R) :=
  for_loop (Z.to_nat (n - i)) i n body s.

(** [c_while fuel body s]: [while(1) body], left with [inr]. *)
Fixpoint c_while {S R} (fuel : nat) (body : S → outcome (S + R)) (s : S) : outcome R :=
  match fuel with
  | O => OutOfFuel
  | Datatypes.S k =>
      r ← body s;
      match r with inl s' => c_while k body s' | inr r => Ok r end
  end.

Lemma wp_for {S R} H (P : Z → S → Prop) (Q : R → Prop) i n
    (body : Z → S → outcome (S + R)) s :
  i ≤ n →
  P i s →
  (∀ j s, i ≤ j < n → P j s →
     wp H (body j s) (λ r, match r with inl s' => P (j + 1) s' | inr r => Q r end)) →
  wp H (c_for i n body s) (λ r, match r with inl s' => P n s' | inr r => Q r end).
Proof.
  intros Hin HP Hbody. unfold c_for.
  remember (Z.to_nat (n - i)) as fuel eqn:Ef.
  revert i s Hin HP Hbody Ef. induction fuel as [|k IH]; intros i s Hin HP Hbody Ef; simpl.
  - replace (i <? n) with false by lia. simpl. by replace n with i by lia.
  - replace (i <? n) with true by lia. apply wp_bind.
    eapply wp_mono; [apply Hbody; [lia|done]|].
    intros [s'|r] Hr; [|done].
    apply IH; [lia|done| |lia]. intros j s0 Hj. apply Hbody. lia.
Qed.

(** The iterations left are bounded by any [n] such that [P n s]. *)
Lemma wp_while_rel {S R} H (P : nat → S → Prop) (Q : R → Prop)
    (body : S → outcome (S + R)) fuel n s :
  P n s →
  (n < fuel)%nat →
  (∀ n s, P n s →
     wp H (body s) (λ r, match r with inl s' => ∃ n', (n' < n)%nat ∧ P n' s' | inr r => Q r end)) →
  wp H (c_while fuel body s) Q.
Proof.
  intros HP Hn Hbody. revert n s HP Hn.
  induction fuel as [|k IH]; intros n s HP Hn; [lia|].
  cbn [c_while]. apply wp_bind. eapply wp_mono; [by apply (Hbody n)|].
  intros [s'|r] Hr; [|done]. destruct Hr as (n' & Hlt & HP'). apply (IH n'); [done|lia].
Qed.

Lemma wp_while {S R} H (m : S → nat) (P : S → Prop) (Q : R → Prop)
    (body : S → outcome (S + R)) fuel s :
  P s →
  (m s < fuel)%nat →
  (∀ s, P s →
     wp H (body s) (λ r, match r with inl s' => P s' ∧ (m s' < m s)%nat | inr r => Q r end)) →
  wp H (c_while fuel body s) Q.
Proof.
  intros HP Hm Hbody. apply (wp_while_rel H (λ n s, P s ∧ n = m s) Q body fuel (m s)); [done..|].
  intros n s' [HP' ->]. eapply wp_mono; [by apply Hbody|].
  intros [s2|r] Hr; [|done]. destruct Hr. eauto.
Qed.

(** Partial correctness of a loop: what holds if it returns. *)
Lemma c_while_Ok {S R} (P : S → Prop) (Q : R → Prop) (body : S → outcome (S + R)) fuel s r :
  (∀ s r, P s → body s = Ok r → match r with inl s' => P s' | inr r => Q r end) →
  P s → c_while fuel body s = Ok r → Q r.
Proof.
  intros Hbody. revert s. induction fuel as [|k IH]; intros s HP; [done|].
  cbn [c_while]. intros (o & E & H)%bind_Ok. specialize (Hbody _ _ HP E).
  destruct o as [s'|r']; simpl in *; [by apply (IH s')|by simplify_eq].
Qed.

(** A counted loop the body never leaves early. *)
Definition c_foreach {S} (i n : Z) (body : Z → S → outcome S) (s : S) : outcome S :=
  r ← c_for (R := Empty_set) i n (λ j s, s' ← body j s; Ok (inl s')) s;
  match r with inl s => Ok s | inr v => Empty_set_rect (λ _, outcome S) v end.

Lemma wp_foreach {S} H (P : Z → S → Prop) i n (body : Z → S → outcome S) s :
  i ≤ n →
  P i s →
  (∀ j s, i ≤ j < n → P j s → wp H (body j s) (P (j + 1))) →
  wp H (c_foreach i n body s) (P n).
Proof.
  intros Hin HP Hbody. apply wp_bind.
  eapply wp_mono; [apply (wp_for H P (λ _, False)); [done|done|]|].
  - intros j s' Hj HPj. apply wp_bind. eapply wp_mono; [by apply Hbody|]. by intros.
  - by intros [s'|[]].
Qed.

Lemma c_foreach_Ok {S} (P : S → Prop) i n (body : Z → S → outcome S) s s' :
  (∀ j s s', P s → body j s = Ok s' → P s') → P s → c_foreach i n body s = Ok s' → P s'.
Proof.
  intros Hbody HP (r & E & Hr)%bind_Ok. destruct r as [s2|[]]. simplify_eq.
  unfold c_for in E. remember (Z.to_nat (n - i)) as fuel eqn:Ef. clear Ef. revert i s HP E.
  induction fuel as [|k IH]; intros i s HP E; simpl in E; destruct (i <? n); try done; simplify_eq; try done.
  outcome_inv. eapply IH; [|done]. by eapply Hbody.
Qed.

(** ** Arrays: C array accesses, undefined out of range *)
Definition arr_get {A} (l : list A) (i : Z) : outcome A :=
  if 0 <=? i then or_undef (l !! Z.to_nat i) else Undef.

Definition arr_set {A} (l : list A) (i : Z) (x : A) : outcome (list A) :=
  if (0 <=? i) && (i <? Z.of_nat (length l)) then Ok (<[Z.to_nat i := x]> l) else Undef.

Lemma arr_get_lookup {A} (l : list A) i x :
  0 ≤ i → l !! Z.to_nat i = Some x → arr_get l i = Ok x.
Proof. intros Hi E. unfold arr_get. replace (0 <=? i) with true by lia. by rewrite E. Qed.

Lemma arr_get_in_range {A} (l : list A) i :
  0 ≤ i < Z.of_nat (length l) → ∃ x, l !! Z.to_nat i = Some x ∧ arr_get l i = Ok x.
Proof.
  intros Hi. destruct (lookup_lt_is_Some_2 l (Z.to_nat i)) as [x E]; [lia|].
  exists x. split; [done|]. apply arr_get_lookup; [lia|done].
Qed.

Lemma arr_set_in_range {A} (l : list A) i x :
  0 ≤ i < Z.of_nat (length l) → arr_set l i x = Ok (<[Z.to_nat i := x]> l).
Proof.
  intros Hi. unfold arr_set. by replace ((0 <=? i) && (i <? Z.of_nat (length l))) with true by lia.
Qed.

(** Linear arithmetic with division and remainder by constants. *)
Ltac dlia := unfold PAGE_SIZE in *; Z.to_euclidean_division_equations; lia.

(** The same case analysis on a hypothesis. *)
Ltac case_if_in H :=
  match type of H with
  | context [if ?b then _ else _] =>
      match type of b with bool => destruct b eqn:? end
  end; zbool.

Lemma filter_ne_id {A} `{!EqDecision A} (x : A) (l : list A) : x ∉ l → filter (λ y, y ≠ x) l = l.
Proof.
  induction l as [|y l IH]; [done|]. intros [Hne Hin]%not_elem_of_cons.
  rewrite filter_cons_True by done. by rewrite IH.
Qed.

(** Removing one element of a list without duplicates loses at most one. *)
Lemma length_remove_one {A} `{!EqDecision A} (x : A) (l : list A) :
  NoDup l → (length l ≤ S (length (filter (λ y, y ≠ x) l)))%nat.
Proof.
  induction 1 as [|y l Hy Hnd IH]; simpl; [lia|]. destruct (decide (y = x)) as [->|Hyx].
  - rewrite filter_cons_False by tauto. by rewrite filter_ne_id.
  - rewrite filter_cons_True by done. simpl. lia.
Qed.

(** ** Computations on a state

    [io W A]: code that reads and changes a state [W] (a device, a table, a
    heap) and returns an [A] or stops. *)
Definition io (W A : Type) : Type := W → outcome (A * W).

#[export] Instance io_ret W : MRet (io W) := fun A a w => Ok (a, w).
#[export] Instance io_bind W : MBind (io W) := fun A B f m w =>
  m w ≫= λ p : A * W, f p.1 p.2.

Definition lift {W A} (o : outcome A) : io W A := λ w, a ← o; Ok (a, w).

(** [for(; i < n; i++)] and [while(1)] whose bodies act on the state; left with [inr]. *)
Definition io_for {W S R} (i n : Z) (body : Z → S → io W (S + R)) (s : S) : io W (S + R) := λ w,
  r ← c_for i n (λ j '(s, w), '(r, w) ← body j s w;
        match r with inl s => Ok (inl (s, w)) | inr r => Ok (inr (r, w)) end) (s, w);
  match r with inl (s, w) => Ok (inl s, w) | inr (r, w) => Ok (inr r, w) end.

Definition io_while {W S R} (fuel : nat) (body : S → io W (S + R)) (s : S) : io W R := λ w,
  c_while fuel (λ '(s, w), '(r, w) ← body s w;
    match r with inl s => Ok (inl (s, w)) | inr r => Ok (inr (r, w)) end) (s, w).

Section io.
Context {W : Type}.

Lemma wp_io_bind {A B} H (m : io W A) (f : A → io W B) w Q :
  wp H (m w) (λ '(a, w'), wp H (f a w') Q) → wp H ((m ≫= f) w) Q.
Proof. unfold mbind at 1, io_bind. intros ?. apply wp_bind. eapply wp_mono; [done|]. by intros []. Qed.

Lemma wp_io_ret {A} H (a : A) (w : W) (Q : A * W → Prop) : Q (a, w) → wp H ((mret a : io W A) w) Q.
Proof. done. Qed.

Lemma wp_lift {A} H (o : outcome A) w (Q : A * W → Prop) :
  wp H o (λ a, Q (a, w)) → wp H (lift o w) Q.
Proof. intros ?. apply wp_bind. by eapply wp_mono. Qed.

Lemma wp_io_for {S R} H (P : Z → S → W → Prop) (Q : R → W → Prop) i n (body : Z → S → io W (S + R)) s w :
  i ≤ n → P i s w →
  (∀ j s w, i ≤ j < n → P j s w →
     wp H (body j s w) (λ '(r, w'), match r with inl s' => P (j + 1) s' w' | inr r => Q r w' end)) →
  wp H (io_for i n body s w) (λ '(r, w'), match r with inl s' => P n s' w' | inr r => Q r w' end).
Proof.
  intros Hi HP Hbody. apply wp_bind.
  eapply wp_mono; [apply (wp_for H (λ j '(s, w), P j s w) (λ '(r, w), Q r w)); [done|done|]|].
  - intros j [s' w'] Hj HP'. apply wp_bind. eapply wp_mono; [by apply Hbody|]. by intros [[|] ?].
  - by intros [[]|[]].
Qed.

Lemma wp_io_while {S R} H (m : S → nat) (P : S → W → Prop) (Q : R → W → Prop)
    (body : S → io W (S + R)) fuel s w :
  P s w → (m s < fuel)%nat →
  (∀ s w, P s w →
     wp H (body s w) (λ '(r, w'), match r with inl s' => P s' w' ∧ (m s' < m s)%nat | inr r => Q r w' end)) →
  wp H (io_while fuel body s w) (λ '(r, w'), Q r w').
Proof.
  intros HP Hm Hbody.
  apply (wp_while H (λ '(s, _), m s) (λ '(s, w), P s w) (λ '(r, w), Q r w)); [done|done|].
  intros [s' w'] HP'. apply wp_bind. eapply wp_mono; [by apply Hbody|]. by intros [[|] ?].
Qed.

(** One turn of a loop. *)
Lemma wp_io_turn {S R} H (body : S → io W (S + R)) fuel s w (Q : R * W → Prop) :
  wp H (body s w) (λ '(r, w'), match r with inl s' => wp H (io_while fuel body s' w') Q | inr r => Q (r, w') end) →
  wp H (io_while (Datatypes.S fuel) body s w) Q.
Proof.
  intros Hs. unfold io_while. cbn [c_while]. apply wp_bind, wp_bind. eapply wp_mono; [exact Hs|]. by intros [[s'|r] w'].
Qed.

(** A loop that keeps an invariant under which its body never leaves it does not return. *)
Lemma io_while_never {S R} (P : S → W → Prop) (body : S → io W (S + R)) fuel s w x :
  (∀ s w r w', P s w → body s w = Ok (r, w') → ∃ s', r = inl s' ∧ P s' w') →
  P s w → io_while fuel body s w ≠ Ok x.
Proof.
  intros Hbody HP E. unfold io_while in E.
  apply (c_while_Ok (λ '(s, w), P s w) (λ _, False)) in E; [done| |done].
  intros [s' w'] o HP' (p & E1 & E2)%bind_Ok. destruct p as [r w2].
  destruct (Hbody _ _ _ _ HP' E1) as (s2 & -> & HP2). by injection E2 as <-.
Qed.
End io.

Lemma io_bind_Ok {W A B} (m : io W A) (f : A → io W B) w a w' : m w = Ok (a, w') → (m ≫= f) w = f a w'.
Proof. intros E. unfold mbind, io_bind. by rewrite E. Qed.

Lemma io_ret_eq {W A} (a : A) (w : W) : (mret a : io W A) w = Ok (a, w).
Proof. done. Qed.

Lemma lift_bind {W A B} (o : outcome A) (f : A → io W B) w : (lift o ≫= f) w = (a ← o; f a w).
Proof. by destruct o. Qed.

Lemma assert_bind {W A} b (f : () → io W A) w : b = true → (lift (c_assert b) ≫= f) w = f () w.
Proof. by intros ->. Qed.

(** A loop whose turns go down a well-founded relation is left, with any fuel that is large enough. *)
Lemma io_while_ends {W S R} (D : S * W → S * W → Prop) (P : S → W → Prop) (Q : R → W → Prop) (body : S → io W (S + R)) :
  well_founded D →
  (∀ s w, P s w → (∃ s' w', body s w = Ok (inl s', w') ∧ P s' w' ∧ D (s', w') (s, w)) ∨ ∃ r w', body s w = Ok (inr r, w') ∧ Q r w') →
  ∀ s w, P s w → ∃ n r w', Q r w' ∧ ∀ fuel, (n ≤ fuel)%nat → io_while fuel body s w = Ok (r, w').
Proof.
  intros HD Hbody s w. remember (s, w) as x eqn:Ex. revert s w Ex. induction (HD x) as [x _ IH]. intros s w -> HP.
  destruct (Hbody s w HP) as [(s' & w' & E & HP' & Hd)|(r & w' & E & HQ)].
  - destruct (IH (s', w') Hd s' w' eq_refl HP') as (n & r & w2 & HQ & Hf). exists (Datatypes.S n), r, w2. split; [done|].
    intros [|fuel] Hfuel; [lia|]. unfold io_while. cbn [c_while]. rewrite E. cbn [mbind outcome_bind]. apply Hf. lia.
  - exists 1%nat, r, w'. split; [done|]. intros [|fuel] Hfuel; [lia|]. unfold io_while. cbn [c_while]. by rewrite E.
Qed.

(** The result of signed [int] arithmetic: undefined when it overflows. *)
Definition c_int (z : Z) : outcome Z :=
  if (- 2 ^ 31 <=? z) && (z <? 2 ^ 31) then Ok z else Undef.

Lemma c_int_ok z : - 2 ^ 31 ≤ z < 2 ^ 31 → c_int z = Ok z.
Proof. intros H. unfold c_int. by replace ((- 2 ^ 31 <=? z) && (z <? 2 ^ 31)) with true by lia. Qed.
