(* ===== verification/Memory.v ===== *)
(** * Byte-addressed memory

    The interface the C library's code is verified against: loads and stores of
    single bytes at integer addresses, undefined outside the mapped addresses.
    Pointers are unbounded integers (pointer arithmetic that leaves the address
    space has no meaning in C), bytes are the integers 0..255. *)
From S2P Require Import Prelude.

Class ByteMemory (M : Type) := {
  mload : M → Z → option Z;
  mstore : M → Z → Z → option M;
  mstore_mapped m a v : is_Some (mload m a) ↔ is_Some (mstore m a v);
  mload_mstore m a v m' b :
    mstore m a v = Some m' → mload m' b = if decide (a = b) then Some v else mload m b;
}.
#[global] Hint Mode ByteMemory + : typeclass_instances.

(** A finite map from addresses to bytes is a memory whose mapped addresses are its keys. *)
#[export, refine] Instance gmap_memory : ByteMemory (gmap Z Z) := {
  mload m a := m !! a;
  mstore m a v := match m !! a with Some _ => Some (<[a := v]> m) | None => None end;
}.
Proof.
  - intros m a v. by destruct (m !! a); split; intros []; eauto.
  - intros m a v m' b. destruct (m !! a); intros; simplify_eq. by rewrite lookup_insert.
Defined.

Section memory.
Context {M : Type} `{!ByteMemory M}.
Implicit Types (m : M) (a p q : Z) (l : list Z).

Definition load m a : outcome Z := or_undef (mload m a).
Definition store m a v : outcome M := or_undef (mstore m a v).

(** [m] and [m'] hold the same bytes outside [p, p+n) *)
Definition same_except m m' p n : Prop := ∀ a, ¬ (p ≤ a < p + n) → mload m' a = mload m a.

Definition mapped m p n : Prop := ∀ a, p ≤ a < p + n → is_Some (mload m a).

(** [l] is stored at address [p] *)
Definition bytes_at m p l : Prop := ∀ i v, l !! i = Some v → mload m (p + Z.of_nat i) = Some v.

(** a NUL-terminated string with characters [s] is stored at [p] *)
Definition cstring m p (s : list Z) : Prop :=
  bytes_at m p (s ++ [0]) ∧ Forall (λ c, 0 < c < 256) s.

Lemma load_Some m a v : mload m a = Some v → load m a = Ok v.
Proof. unfold load. by intros ->. Qed.

Lemma wp_store H m a v (Q : M → Prop) :
  is_Some (mload m a) →
  (∀ m', (∀ b, mload m' b = if decide (a = b) then Some v else mload m b) → Q m') →
  wp H (store m a v) Q.
Proof.
  intros Ha HQ. unfold store. apply (mstore_mapped _ _ v) in Ha as [m' Hm']. rewrite Hm'. simpl.
  apply HQ. intros b. by apply mload_mstore.
Qed.

Lemma store_Ok m a v m' :
  store m a v = Ok m' →
  is_Some (mload m a) ∧ ∀ b, mload m' b = if decide (a = b) then Some v else mload m b.
Proof.
  intros E%or_undef_Ok. split; [apply (mstore_mapped _ _ v); eauto|].
  intros b. by apply mload_mstore.
Qed.

Lemma load_Ok m a v : load m a = Ok v → mload m a = Some v.
Proof. apply or_undef_Ok. Qed.

Lemma bytes_at_lookup m p l i v : bytes_at m p l → 0 ≤ i → l !! Z.to_nat i = Some v → mload m (p + i) = Some v.
Proof. intros H Hi E. specialize (H _ _ E). by rewrite Z2Nat.id in H. Qed.

Lemma bytes_at_cons m p x l : bytes_at m p (x :: l) ↔ mload m p = Some x ∧ bytes_at m (p + 1) l.
Proof.
  split.
  - intros H. split.
    + specialize (H 0%nat x eq_refl). by rewrite Z.add_0_r in H.
    + intros i v E. specialize (H (S i) v E). rewrite <-H. f_equal. lia.
  - intros [H0 H] [|i] v E; simpl in E.
    + simplify_eq. by rewrite Z.add_0_r.
    + rewrite <-(H i v E). f_equal. lia.
Qed.

Lemma bytes_at_app m p l k :
  bytes_at m p (l ++ k) ↔ bytes_at m p l ∧ bytes_at m (p + Z.of_nat (length l)) k.
Proof.
  revert p. induction l as [|x l IH]; intros p; simpl.
  - rewrite Z.add_0_r. split; [|by intros []]. intros. split; [by intros ? ?|done].
  - rewrite !bytes_at_cons, IH.
    replace (p + 1 + Z.of_nat (length l)) with (p + Z.of_nat (S (length l))) by lia.
    tauto.
Qed.

Lemma bytes_at_mapped m p l : bytes_at m p l → mapped m p (Z.of_nat (length l)).
Proof.
  intros H a Ha. destruct (lookup_lt_is_Some_2 l (Z.to_nat (a - p))) as [v E]; [lia|].
  exists v. rewrite <-(bytes_at_lookup _ _ _ (a - p) _ H ltac:(lia) E). f_equal. lia.
Qed.

Lemma bytes_at_same m m' p n q l :
  same_except m m' p n → bytes_at m q l →
  (q + Z.of_nat (length l) ≤ p ∨ p + n ≤ q) → bytes_at m' q l.
Proof.
  intros Hs Hl Hd i v E. pose proof (lookup_lt_Some _ _ _ E).
  rewrite Hs by lia. by apply Hl.
Qed.

Lemma cstring_char m p s i c :
  cstring m p s → s !! i = Some c → mload m (p + Z.of_nat i) = Some c ∧ 0 < c < 256.
Proof.
  intros [Hb Hf] E. split; [|by eapply Forall_lookup_1 in Hf].
  apply Hb. by rewrite lookup_app_l by (by eapply lookup_lt_Some).
Qed.

Lemma cstring_end m p s : cstring m p s → mload m (p + Z.of_nat (length s)) = Some 0.
Proof. intros [Hb _]. apply Hb. by rewrite list_lookup_middle. Qed.

(** The character at offset [i ≤ length s]: the terminator is 0. *)
Lemma cstring_load m p s i :
  cstring m p s → 0 ≤ i ≤ Z.of_nat (length s) →
  mload m (p + i) = Some (default 0 (s !! Z.to_nat i)).
Proof.
  intros Hc Hi. destruct (decide (i = Z.of_nat (length s))) as [->|].
  - rewrite (cstring_end _ _ _ Hc), Nat2Z.id. by rewrite lookup_ge_None_2.
  - destruct (lookup_lt_is_Some_2 s (Z.to_nat i)) as [c E]; [lia|].
    rewrite E. simpl. rewrite <-(proj1 (cstring_char _ _ _ _ _ Hc E)). f_equal. lia.
Qed.

Lemma cstring_cons m p c s : cstring m p (c :: s) ↔ mload m p = Some c ∧ 0 < c < 256 ∧ cstring m (p + 1) s.
Proof.
  unfold cstring. simpl. rewrite bytes_at_cons, Forall_cons. naive_solver.
Qed.

Lemma cstring_nil m p : cstring m p [] ↔ mload m p = Some 0.
Proof.
  unfold cstring. simpl. rewrite bytes_at_cons. split; [naive_solver|].
  intros. split_and!; [done|by intros ? ?|constructor].
Qed.

Lemma same_except_refl m p n : same_except m m p n.
Proof. by intros ? ?. Qed.

Lemma same_except_trans m1 m2 m3 p n :
  same_except m1 m2 p n → same_except m2 m3 p n → same_except m1 m3 p n.
Proof. intros H1 H2 a Ha. by rewrite H2, H1. Qed.
End memory.

(** ** Decidable versions, to evaluate the predicates on concrete memories *)
Section decide.
Context {M : Type} `{!ByteMemory M}.
Implicit Types (m : M).

Fixpoint bytes_atb m (p : Z) (l : list Z) : bool :=
  match l with
  | [] => true
  | x :: l => bool_decide (mload m p = Some x) && bytes_atb m (p + 1) l
  end.

Lemma bytes_atb_true m p l : bytes_atb m p l = true → bytes_at m p l.
Proof.
  revert p. induction l as [|x l IH]; intros p; simpl; [by intros _ ? ?|].
  intros [H1%bool_decide_eq_true H2]%andb_true_iff. apply bytes_at_cons. auto.
Qed.

Definition cstringb m p (s : list Z) : bool :=
  bytes_atb m p (s ++ [0]) && forallb (λ c, (0 <? c) && (c <? 256)) s.

Lemma cstringb_true m p s : cstringb m p s = true → cstring m p s.
Proof.
  intros [H1 H2]%andb_true_iff. split; [by apply bytes_atb_true|].
  rewrite forallb_forall in H2. apply Forall_forall. intros c Hc.
  apply list_elem_of_In, H2, andb_true_iff in Hc as []. zbool. lia.
Qed.

Lemma mapped_bytes m p l n : Z.of_nat (length l) = n → bytes_atb m p l = true → mapped m p n.
Proof. intros <- H. by apply bytes_at_mapped, bytes_atb_true. Qed.
End decide.

(** The memory that holds the blocks [(p, l)] of a list. *)
Definition mem_of (blocks : list (Z * list Z)) : gmap Z Z :=
  foldr (λ '(p, l) m, foldr (λ '(i, x) m, <[p + i := x]> m) m (zip (seqZ 0 (Z.of_nat (length l))) l))
    ∅ blocks.
