(* ===== verification/CString.v ===== *)
(** * The memory and string functions of custom_libc/string.c and strings.c

    Every function is a program over an abstract byte memory; loops that run to
    a terminator take fuel (the number of iterations allowed), and the theorems
    show the fuel that is enough.  A [char] read for a comparison is signed, as
    on x86-64. *)
From S2P Require Import Prelude Memory.

Section cstring.
Context {M : Type} `{!ByteMemory M}.
Implicit Types (m : M).

Definition load_char m a : outcome Z := c ← load m a; Ok (s8 c).

(** ** Blocks of memory *)
Definition memcpy (dest src n : Z) m : outcome (Z * M) :=
  m ← c_foreach 0 n (λ i m, v ← load m (src + i); store m (dest + i) v) m;
  Ok (dest, m).

Definition mempcpy (dest src n : Z) m : outcome (Z * M) :=
  m ← c_foreach 0 n (λ i m, v ← load m (src + i); store m (dest + i) v) m;
  Ok (dest + n, m).

Definition memset (s c n : Z) m : outcome (Z * M) :=
  m ← c_foreach 0 n (λ i m, store m (s + i) (u8 c)) m;
  Ok (s, m).

Definition memmove (dest src n : Z) m : outcome (Z * M) :=
  if dest <? src then
    m ← c_foreach 0 n (λ i m, v ← load m (src + i); store m (dest + i) v) m;
    Ok (dest, m)
  else if src <? dest then
    (* for(size_t i = n; i > 0; i--), with [i = n - k] *)
    m ← c_foreach 0 n (λ k m,
          let i := n - k in v ← load m (src + (i - 1)); store m (dest + (i - 1)) v) m;
    Ok (dest, m)
  else Ok (dest, m).

Definition memcmp (s1 s2 n : Z) m : outcome Z :=
  r ← c_for 0 n (λ i _,
        a ← load m (s1 + i); b ← load m (s2 + i);
        if negb (a =? b) then Ok (inr (if a <? b then -1 else 1)) else Ok (inl ())) ();
  match r with inl _ => Ok 0 | inr r => Ok r end.

(** ** Strings *)
Definition strlen (fuel : nat) (str : Z) m : outcome Z :=
  c_while fuel (λ '(str, result),
    c ← load_char m str;
    Ok (if c =? 0 then inr result else inl (str + 1, result + 1))) (str, 0).

Definition strcmp (fuel : nat) (str1 str2 : Z) m : outcome Z :=
  i ← c_while fuel (λ i,
        a ← load_char m (str1 + i); b ← load_char m (str2 + i);
        if a =? b then
          if (a =? 0) || (b =? 0) then Ok (inr i) else Ok (inl (i + 1))
        else Ok (inr i)) 0;
  a ← load_char m (str1 + i); b ← load_char m (str2 + i);
  if (a =? 0) && (b =? 0) then Ok 0 else Ok (a - b).

Definition strcoll := strcmp.

Definition strncmp (s1 s2 n : Z) m : outcome Z :=
  r ← c_for 0 n (λ i _,
        a ← load_char m (s1 + i); b ← load_char m (s2 + i);
        if negb (a =? b) then Ok (inr (a - b))
        else if a =? 0 then Ok (inr 0) else Ok (inl ())) ();
  match r with inl _ => Ok 0 | inr r => Ok r end.

(** The loop that copies up to and including the NUL; it returns the final [dest]. *)
Definition copy_to_nul (fuel : nat) (dest src : Z) m : outcome (Z * M) :=
  c_while fuel (λ '(dest, src, m),
    c ← load m src;
    m ← store m dest c;
    Ok (if c =? 0 then inr (dest + 1, m) else inl (dest + 1, src + 1, m))) (dest, src, m).

Definition stpcpy (fuel : nat) (dest src : Z) m : outcome (Z * M) :=
  '(d, m) ← copy_to_nul fuel dest src m; Ok (d - 1, m).

Definition strcpy (fuel : nat) (dest src : Z) m : outcome (Z * M) :=
  '(_, m) ← copy_to_nul fuel dest src m; Ok (dest, m).

(** [while(n-- > 0) *dest++ = 0;] *)
Definition fill_nul (fuel : nat) (dest n : Z) m : outcome (Z * M) :=
  c_while fuel (λ '(dest, n, m),
    if 0 <? n then m ← store m dest 0; Ok (inl (dest + 1, u64 (n - 1), m))
    else Ok (inr (dest, m))) (dest, n, m).

(** The test [n-- > 0] decrements [n] also when it fails. *)
Definition stpncpy (fuel : nat) (dest src n : Z) m : outcome (Z * M) :=
  '(dest, n, m) ← c_while fuel (λ '(dest, src, n, m),
     let n' := u64 (n - 1) in
     if 0 <? n then
       c ← load m src;
       m ← store m dest c;
       Ok (if c =? 0 then inr (dest + 1, n', m) else inl (dest + 1, src + 1, n', m))
     else Ok (inr (dest, n', m))) (dest, src, n, m);
  fill_nul fuel dest n m.

Definition strncpy (fuel : nat) (dest src n : Z) m : outcome (Z * M) :=
  '(i, m) ← c_while fuel (λ '(i, m),
     if i <? n then
       c ← load m (src + i);
       if c =? 0 then Ok (inr (i, m))
       else m ← store m (dest + i) c; Ok (inl (i + 1, m))
     else Ok (inr (i, m))) (0, m);
  m ← c_while fuel (λ '(i, m),
     if i <? n then m ← store m (dest + i) 0; Ok (inl (i + 1, m)) else Ok (inr m)) (i, m);
  Ok (dest, m).

(** A null result is 0. *)
Definition NULL : Z := 0.

Definition strchr (fuel : nat) (s c : Z) m : outcome Z :=
  c_while fuel (λ s,
    ch ← load_char m s;
    Ok (if ch =? c then inr s else if ch =? 0 then inr NULL else inl (s + 1))) s.

Definition strchrnul (fuel : nat) (s c : Z) m : outcome Z :=
  c_while fuel (λ s,
    ch ← load_char m s;
    Ok (if ch =? c then inr s else if ch =? 0 then inr s else inl (s + 1))) s.

Definition strspn (fuel : nat) (s accept : Z) m : outcome Z :=
  c_while fuel (λ '(s, result),
    ch ← load_char m s;
    r ← strchr fuel accept ch m;
    Ok (if r =? NULL then inr result else inl (s + 1, result + 1))) (s, 0).

Definition strcspn (fuel : nat) (s reject : Z) m : outcome Z :=
  c_while fuel (λ '(s, result),
    ch ← load_char m s;
    r ← strchr fuel reject ch m;
    Ok (if negb (r =? NULL) then inr result else inl (s + 1, result + 1))) (s, 0).

Definition skip_delimiters (fuel : nat) (p delimiters : Z) m : outcome Z :=
  c_while fuel (λ p,
    ch ← load_char m p;
    if ch =? 0 then Ok (inr NULL)
    else
      r ← strchr fuel delimiters ch m;
      Ok (if r =? NULL then inr p else inl (p + 1))) p.

(** [strtok_next] is the static variable of the function. *)
Definition strtok (fuel : nat) (str delimiters strtok_next : Z) m : outcome (Z * Z * M) :=
  let strtok_next := if negb (str =? NULL) then str else strtok_next in
  stop ← (if strtok_next =? NULL then Ok true
          else ch ← load_char m strtok_next; Ok (ch =? 0));
  if (stop : bool) then Ok (NULL, strtok_next, m)
  else
    start ← skip_delimiters fuel strtok_next delimiters m;
    if start =? NULL then Ok (NULL, NULL, m)
    else
      end_ ← c_while fuel (λ p,
              ch ← load_char m p;
              if ch =? 0 then Ok (inr p)
              else
                r ← strchr fuel delimiters ch m;
                Ok (if r =? NULL then inl (p + 1) else inr p)) start;
      ch ← load_char m end_;
      if ch =? 0 then Ok (start, NULL, m)
      else m ← store m end_ 0; Ok (start, end_ + 1, m).

Definition strpbrk (fuel : nat) (s accept : Z) m : outcome Z :=
  c_while fuel (λ s,
    ch ← load_char m s;
    if ch =? 0 then Ok (inr NULL)
    else
      found ← c_while fuel (λ i,
                a ← load_char m (accept + i);
                Ok (if a =? 0 then inr false else if ch =? a then inr true else inl (i + 1))) 0;
      Ok (if (found : bool) then inr s else inl (s + 1))) s.

Definition strstr (fuel : nat) (haystack needle : Z) m : outcome Z :=
  needle_size ← strlen fuel needle m;
  c_while fuel (λ haystack,
    ch ← load_char m haystack;
    if ch =? 0 then Ok (inr NULL)
    else
      r ← strncmp needle haystack needle_size m;
      Ok (if r =? 0 then inr haystack else inl (haystack + 1))) haystack.
End cstring.

(** ** Blocks of memory: specifications *)
Section blocks.
Context {M : Type} `{!ByteMemory M}.
Implicit Types (m : M).

(** [m'] is [m] with the [n] bytes at [src] copied, all at once, to [dest]. *)
Definition copied m m' (dest src n : Z) : Prop :=
  ∀ a, mload m' a = if decide (dest ≤ a < dest + n) then mload m (a - dest + src) else mload m a.

Lemma copied_bytes m m' dest src l :
  copied m m' dest src (Z.of_nat (length l)) → bytes_at m src l →
  bytes_at m' dest l ∧ same_except m m' dest (Z.of_nat (length l)).
Proof.
  intros Hc Hl. split.
  - intros i v E. pose proof (lookup_lt_Some _ _ _ E).
    rewrite Hc, decide_True by lia. rewrite <-(Hl i v E). f_equal. lia.
  - intros a Ha. by rewrite Hc, decide_False.
Qed.

Lemma mapped_same m m' p n q k :
  (∀ a, q ≤ a < q + k → is_Some (mload m a) → is_Some (mload m' a)) → p = q → n = k →
  mapped m p n → mapped m' p n.
Proof. intros H -> -> Hm a Ha. apply H; [done|]. by apply Hm. Qed.

Lemma copy_up m dest src n :
  0 ≤ n → mapped m src n → mapped m dest n → (dest ≤ src ∨ src + n ≤ dest) →
  wp False (c_foreach 0 n (λ i m, v ← load m (src + i); store m (dest + i) v) m)
    (λ m', copied m m' dest src n).
Proof.
  intros Hn Hsrc Hdest Hd.
  apply (wp_foreach False (λ i m', copied m m' dest src i)); [done| |].
  - intros a. by rewrite decide_False by lia.
  - intros i m' Hi Hc. destruct (Hsrc (src + i)) as [v Hv]; [lia|].
    assert (mload m' (src + i) = Some v) as Hv' by (rewrite Hc, decide_False; [done|lia]).
    rewrite (load_Some _ _ _ Hv'). simpl. apply wp_store.
    { rewrite Hc, decide_False by lia. apply Hdest. lia. }
    intros m2 Hm2 a. rewrite Hm2, Hc. repeat case_decide; try lia; try done.
    subst. rewrite <-Hv. f_equal. lia.
Qed.

Lemma copy_down m dest src n :
  0 ≤ n → mapped m src n → mapped m dest n → src < dest →
  wp False (c_foreach 0 n (λ k m,
    let i := n - k in v ← load m (src + (i - 1)); store m (dest + (i - 1)) v) m)
    (λ m', copied m m' dest src n).
Proof.
  intros Hn Hsrc Hdest Hd.
  eapply wp_mono; [apply (wp_foreach False (λ k m', ∀ a, mload m' a =
    if decide (dest + (n - k) ≤ a < dest + n) then mload m (a - dest + src) else mload m a));
    [done| |]|].
  - intros a. by rewrite decide_False by lia.
  - intros k m' Hk Hc. destruct (Hsrc (src + (n - k - 1))) as [v Hv]; [lia|].
    assert (mload m' (src + (n - k - 1)) = Some v) as Hv' by (rewrite Hc, decide_False; [done|lia]).
    simpl. rewrite (load_Some _ _ _ Hv'). simpl. apply wp_store.
    { rewrite Hc, decide_False by lia. apply Hdest. lia. }
    intros m2 Hm2 a. rewrite Hm2, Hc. repeat case_decide; try lia; try done.
    subst. rewrite <-Hv. f_equal. lia.
  - simpl. intros m' Hc a. rewrite Hc. by replace (dest + (n - n)) with dest by lia.
Qed.

Lemma memcpy_spec m dest src n :
  0 ≤ n → mapped m src n → mapped m dest n → dest + n ≤ src ∨ src + n ≤ dest →
  wp False (memcpy dest src n m) (λ '(r, m'), r = dest ∧ copied m m' dest src n).
Proof.
  intros Hn Hs Hd Hdis. apply wp_bind.
  eapply wp_mono; [apply copy_up; [done..|lia]|]. by intros m' ?.
Qed.

(** memcpy touches the memory through stores only. *)
Lemma memcpy_rel (R : M → M → Prop) `{!PreOrder R} m dest src n r m' :
  (∀ m a v m', mstore m a v = Some m' → R m m') → memcpy dest src n m = Ok (r, m') → R m m'.
Proof.
  intros HR (m1 & E & E')%bind_Ok. simplify_eq.
  eapply (c_foreach_Ok (R m)) in E; [done| |done].
  intros j m1 m2 H1 E2. outcome_inv. apply or_undef_Ok, HR in E2. by etrans.
Qed.

Lemma mempcpy_spec m dest src n :
  0 ≤ n → mapped m src n → mapped m dest n → dest + n ≤ src ∨ src + n ≤ dest →
  wp False (mempcpy dest src n m) (λ '(r, m'), r = dest + n ∧ copied m m' dest src n).
Proof.
  intros Hn Hs Hd Hdis. apply wp_bind.
  eapply wp_mono; [apply copy_up; [done..|lia]|]. by intros m' ?.
Qed.

(** memmove copies the source block as it was before the call, whether or not the blocks overlap, returns the destination and changes nothing else. *)
Theorem memmove_spec m dest src n :
  0 ≤ n → mapped m src n → mapped m dest n →
  wp False (memmove dest src n m) (λ '(r, m'), r = dest ∧ copied m m' dest src n).
Proof.
  intros Hn Hs Hd. unfold memmove. repeat case_if.
  - apply wp_bind. eapply wp_mono; [apply copy_up; [done..|lia]|]. by intros m' ?.
  - apply wp_bind. eapply wp_mono; [apply copy_down; [done..|lia]|]. by intros m' ?.
  - assert (dest = src) as -> by lia. split; [done|]. intros a. case_decide; [|done].
    f_equal. lia.
Qed.

Lemma memset_spec m s c n :
  0 ≤ n → mapped m s n →
  wp False (memset s c n m) (λ '(r, m'), r = s ∧
    ∀ a, mload m' a = if decide (s ≤ a < s + n) then Some (u8 c) else mload m a).
Proof.
  intros Hn Hs. apply wp_bind. eapply wp_mono; [apply (wp_foreach False (λ i m', ∀ a,
    mload m' a = if decide (s ≤ a < s + i) then Some (u8 c) else mload m a)); [done| |]|].
  - intros a. by rewrite decide_False by lia.
  - intros i m' Hi Hm. apply wp_store.
    { rewrite Hm, decide_False by lia. apply Hs. lia. }
    intros m2 Hm2 a. rewrite Hm2, Hm. by repeat case_decide; try lia.
  - by intros m' ?.
Qed.

(** The reference order on blocks: the first difference decides. *)
Fixpoint memcmp_ref (l1 l2 : list Z) : Z :=
  match l1, l2 with
  | a :: l1, b :: l2 => if a =? b then memcmp_ref l1 l2 else if a <? b then -1 else 1
  | _, _ => 0
  end.

Lemma memcmp_ref_0 l1 l2 : length l1 = length l2 → memcmp_ref l1 l2 = 0 ↔ l1 = l2.
Proof.
  revert l2. induction l1 as [|a l1 IH]; intros [|b l2] Hl; simplify_eq/=; [done|].
  case_if; [subst; rewrite (IH l2 Hl); naive_solver|]. case_if; naive_solver.
Qed.

Lemma memcmp_ref_drop l1 l2 i a b :
  take i l1 = take i l2 → l1 !! i = Some a → l2 !! i = Some b →
  memcmp_ref l1 l2 = memcmp_ref (a :: drop (S i) l1) (b :: drop (S i) l2).
Proof.
  revert l1 l2. induction i as [|i IH]; intros [|x l1] [|y l2] Ht E1 E2; simplify_eq/=; [done|].
  rewrite Z.eqb_refl. by rewrite (IH l1 l2).
Qed.

Lemma memcmp_spec m s1 s2 l1 l2 :
  length l1 = length l2 → bytes_at m s1 l1 → bytes_at m s2 l2 →
  memcmp s1 s2 (Z.of_nat (length l1)) m = Ok (memcmp_ref l1 l2).
Proof.
  intros Hl H1 H2.
  match goal with |- ?o = _ => assert (wp False o (λ r, r = memcmp_ref l1 l2)) as H end.
  2: { by apply wp_total in H as (? & -> & ->). }
  apply wp_bind. eapply wp_mono; [apply (wp_for False
    (λ i _, take (Z.to_nat i) l1 = take (Z.to_nat i) l2) (λ r, r = memcmp_ref l1 l2)); [lia|done|]|].
  - intros i [] Hi Ht.
    destruct (lookup_lt_is_Some_2 l1 (Z.to_nat i)) as [a Ea]; [lia|].
    destruct (lookup_lt_is_Some_2 l2 (Z.to_nat i)) as [b Eb]; [lia|].
    rewrite (load_Some m (s1 + i) a), (load_Some m (s2 + i) b) by (eapply bytes_at_lookup; [done|lia|done]).
    pose proof (memcmp_ref_drop _ _ _ _ _ Ht Ea Eb) as Er. simpl in Er. simpl.
    destruct (a =? b) eqn:Eab; simpl; [|by rewrite Er; case_if].
    apply Z.eqb_eq in Eab. subst. replace (Z.to_nat (i + 1)) with (S (Z.to_nat i)) by lia.
    by rewrite (take_S_r _ _ b), (take_S_r _ _ b), Ht.
  - intros [[]|r]; [|done]. rewrite Nat2Z.id. simpl. intros Ht. symmetry.
    apply memcmp_ref_0; [done|]. by rewrite (take_ge l1), (take_ge l2) in Ht by lia.
Qed.
End blocks.

(** ** Strings: specifications *)

(** [chr s i]: the character at offset [i] of a stored string; the terminator is 0. *)
Definition chr (s : list Z) (i : Z) : Z := default 0 (s !! Z.to_nat i).

Lemma s8_inj a b : 0 ≤ a < 256 → 0 ≤ b < 256 → s8 a = s8 b → a = b.
Proof. unfold signed. dlia. Qed.

Lemma s8_eqb a b : 0 ≤ a < 256 → 0 ≤ b < 256 → (s8 a =? s8 b) = (a =? b).
Proof.
  intros Ha Hb. destruct (a =? b) eqn:E; zbool; [subst; apply Z.eqb_refl|].
  apply Z.eqb_neq. intros ?. by apply E, s8_inj.
Qed.

Lemma s8_eqb_0 a : 0 ≤ a < 256 → (s8 a =? 0) = (a =? 0).
Proof. intros. by apply (s8_eqb a 0). Qed.

Lemma drop_chr s i : 0 ≤ i < Z.of_nat (length s) → drop (Z.to_nat i) s = chr s i :: drop (Z.to_nat (i + 1)) s.
Proof.
  intros Hi. destruct (lookup_lt_is_Some_2 s (Z.to_nat i)) as [c E]; [lia|].
  unfold chr. rewrite E. simpl. rewrite (drop_S _ _ _ E). do 2 f_equal. lia.
Qed.

Lemma drop_all_chr s i : Z.of_nat (length s) ≤ i → drop (Z.to_nat i) s = [] ∧ chr s i = 0.
Proof.
  intros Hi. split; [apply drop_ge; lia|]. unfold chr. by rewrite lookup_ge_None_2 by lia.
Qed.

Section strings.
Context {M : Type} `{!ByteMemory M}.
Implicit Types (m : M) (s : list Z).

Lemma cstring_chr m p s i : cstring m p s → 0 ≤ i → 0 ≤ chr s i < 256 ∧ (chr s i = 0 ↔ Z.of_nat (length s) ≤ i).
Proof.
  intros Hc Hi. destruct (decide (i < Z.of_nat (length s))).
  - destruct (lookup_lt_is_Some_2 s (Z.to_nat i)) as [c E]; [lia|].
    pose proof (cstring_char _ _ _ _ _ Hc E). unfold chr. rewrite E. simpl. lia.
  - rewrite (proj2 (drop_all_chr s i ltac:(lia))). lia.
Qed.

Lemma load_char_Some m a v : mload m a = Some v → load_char m a = Ok (s8 v).
Proof. intros E. unfold load_char. by rewrite (load_Some _ _ _ E). Qed.

Lemma load_char_chr m p s i :
  cstring m p s → 0 ≤ i ≤ Z.of_nat (length s) → load_char m (p + i) = Ok (s8 (chr s i)).
Proof.
  intros Hc Hi. apply load_char_Some. by apply cstring_load.
Qed.

Lemma strlen_spec m p s fuel :
  cstring m p s → (length s < fuel)%nat → strlen fuel p m = Ok (Z.of_nat (length s)).
Proof.
  intros Hc Hf.
  assert (wp False (strlen fuel p m) (λ r, r = Z.of_nat (length s))) as H.
  2: { by apply wp_total in H as (? & -> & ->). }
  apply (wp_while False (λ '(_, r), Z.to_nat (Z.of_nat (length s) - r))
    (λ '(q, r), q = p + r ∧ 0 ≤ r ≤ Z.of_nat (length s))); [lia..|].
  intros [q r] [-> Hr]. rewrite (load_char_chr _ _ s) by done. simpl.
  destruct (cstring_chr m p s r Hc ltac:(lia)) as [H1 H2].
  rewrite s8_eqb_0 by lia. case_if; [lia|]. lia.
Qed.

Fixpoint strcmp_ref (s1 s2 : list Z) : Z :=
  match s1, s2 with
  | a :: s1, b :: s2 => if a =? b then strcmp_ref s1 s2 else s8 a - s8 b
  | a :: _, [] => s8 a
  | [], b :: _ => - s8 b
  | [], [] => 0
  end.

Lemma strcmp_ref_drop s1 s2 i :
  0 ≤ i < Z.of_nat (length s1) → i < Z.of_nat (length s2) → chr s1 i = chr s2 i →
  strcmp_ref (drop (Z.to_nat i) s1) (drop (Z.to_nat i) s2) =
  strcmp_ref (drop (Z.to_nat (i + 1)) s1) (drop (Z.to_nat (i + 1)) s2).
Proof. intros. rewrite (drop_chr s1 i), (drop_chr s2 i) by lia. simpl. case_if; [done|lia]. Qed.

Lemma strcmp_ref_differ s1 s2 i :
  0 ≤ i → i ≤ Z.of_nat (length s1) → i ≤ Z.of_nat (length s2) → chr s1 i ≠ chr s2 i →
  strcmp_ref (drop (Z.to_nat i) s1) (drop (Z.to_nat i) s2) = s8 (chr s1 i) - s8 (chr s2 i).
Proof.
  intros Hi H1 H2 Hne.
  destruct (decide (i < Z.of_nat (length s1))), (decide (i < Z.of_nat (length s2))).
  - rewrite (drop_chr s1 i), (drop_chr s2 i) by lia. simpl. case_if; [lia|done].
  - destruct (drop_all_chr s2 i) as [-> ->]; [lia|]. rewrite drop_chr by lia. simpl.
    change (s8 0) with 0. lia.
  - destruct (drop_all_chr s1 i) as [-> ->]; [lia|]. rewrite drop_chr by lia. simpl.
    change (s8 0) with 0. lia.
  - destruct (drop_all_chr s1 i) as [_ ?], (drop_all_chr s2 i) as [_ ?]; lia.
Qed.

Lemma strcmp_ref_0 s1 s2 :
  Forall (λ c, 0 < c < 256) s1 → Forall (λ c, 0 < c < 256) s2 → strcmp_ref s1 s2 = 0 ↔ s1 = s2.
Proof.
  intros H1. revert s2.
  induction H1 as [|a s1 Ha H1 IH]; intros s2; destruct 1 as [|b s2 Hb H2]; simpl; [done|..].
  - split; [|done]. unfold signed. dlia.
  - split; [|done]. unfold signed. dlia.
  - case_if; [subst; rewrite IH by done; naive_solver|].
    split; [|naive_solver]. intros ?. exfalso. apply Heqb0, s8_inj; lia.
Qed.

(** strcmp on two NUL-terminated strings terminates and returns the difference of the first characters that differ, read as signed char, with the end of a string read as 0; so it returns 0 exactly on equal strings. *)
Theorem strcmp_spec m p q s1 s2 fuel :
  cstring m p s1 → cstring m q s2 → (length s1 < fuel)%nat →
  strcmp fuel p q m = Ok (strcmp_ref s1 s2) ∧ (strcmp_ref s1 s2 = 0 ↔ s1 = s2).
Proof.
  intros Hp Hq Hf. split; [|apply strcmp_ref_0; [apply Hp|apply Hq]].
  match goal with |- ?o = _ => assert (wp False o (λ r, r = strcmp_ref s1 s2)) as H end.
  2: { by apply wp_total in H as (? & -> & ->). }
  apply wp_bind.
  set (inv i := 0 ≤ i ≤ Z.of_nat (length s1) ∧ i ≤ Z.of_nat (length s2) ∧
    strcmp_ref (drop (Z.to_nat i) s1) (drop (Z.to_nat i) s2) = strcmp_ref s1 s2).
  eapply wp_mono; [apply (wp_while False (λ i, Z.to_nat (Z.of_nat (length s1) - i)) inv
    (λ i, inv i ∧ (chr s1 i = chr s2 i → chr s1 i = 0))); [split_and!; (done || lia)|lia|]|].
  - intros i (Hi1 & Hi2 & Hr). rewrite (load_char_chr m p s1 i), (load_char_chr m q s2 i) by (done || lia).
    destruct (cstring_chr m p s1 i Hp ltac:(lia)) as [A1 A2].
    destruct (cstring_chr m q s2 i Hq ltac:(lia)) as [B1 B2]. simpl.
    rewrite s8_eqb, !s8_eqb_0 by lia. case_if; [|by split].
    case_if; [split; [done|]; intros _; apply orb_true_iff in Heqb0 as [?|?]; zbool; lia|].
    rewrite (strcmp_ref_drop s1 s2 i) in Hr by lia. split; [split_and!; (done || lia)|lia].
  - intros i [(Hi1 & Hi2 & Hr) Hend]. simpl.
    rewrite (load_char_chr m p s1 i), (load_char_chr m q s2 i) by (done || lia).
    destruct (cstring_chr m p s1 i Hp ltac:(lia)) as [A1 A2].
    destruct (cstring_chr m q s2 i Hq ltac:(lia)) as [B1 B2]. simpl.
    rewrite !s8_eqb_0, <-Hr by lia.
    destruct (decide (chr s1 i = chr s2 i)) as [E|E].
    + specialize (Hend E). rewrite <-E, Hend. simpl.
      rewrite (proj1 (drop_all_chr s1 i ltac:(lia))), (proj1 (drop_all_chr s2 i ltac:(lia))). done.
    + rewrite (strcmp_ref_differ s1 s2 i) by (done || lia). case_if; [lia|done].
Qed.

Lemma chr_take n s i : 0 ≤ i < n → chr (take (Z.to_nat n) s) i = chr s i.
Proof. intros Hi. unfold chr. by rewrite lookup_take_lt by lia. Qed.

(** strncmp compares the first [n] characters. *)
Lemma strncmp_spec m p q s1 s2 n :
  cstring m p s1 → cstring m q s2 → 0 ≤ n →
  strncmp p q n m = Ok (strcmp_ref (take (Z.to_nat n) s1) (take (Z.to_nat n) s2)).
Proof.
  intros Hp Hq Hn. set (u1 := take (Z.to_nat n) s1). set (u2 := take (Z.to_nat n) s2).
  match goal with |- ?o = _ => assert (wp False o (λ r, r = strcmp_ref u1 u2)) as H end.
  2: { by apply wp_total in H as (? & -> & ->). }
  assert (length u1 = Nat.min (Z.to_nat n) (length s1)) as L1 by apply length_take.
  assert (length u2 = Nat.min (Z.to_nat n) (length s2)) as L2 by apply length_take.
  apply wp_bind. eapply wp_mono; [apply (wp_for False (λ i _,
      0 ≤ i ≤ Z.of_nat (length s1) ∧ i ≤ Z.of_nat (length s2) ∧
      strcmp_ref (drop (Z.to_nat i) u1) (drop (Z.to_nat i) u2) = strcmp_ref u1 u2)
    (λ r, r = strcmp_ref u1 u2)); [done|split_and!; (done || lia)|]|].
  - intros i [] Hi (Hi1 & Hi2 & Hr).
    rewrite (load_char_chr m p s1 i), (load_char_chr m q s2 i) by (done || lia).
    destruct (cstring_chr m p s1 i Hp ltac:(lia)) as [A1 A2].
    destruct (cstring_chr m q s2 i Hq ltac:(lia)) as [B1 B2]. simpl.
    assert (chr u1 i = chr s1 i) as E1 by (apply chr_take; lia).
    assert (chr u2 i = chr s2 i) as E2 by (apply chr_take; lia).
    rewrite s8_eqb, s8_eqb_0 by lia. case_if; simpl; [|case_if].
    + rewrite <-Hr, (strcmp_ref_differ u1 u2 i) by lia. by rewrite E1, E2.
    + rewrite <-Hr. rewrite (proj1 (drop_all_chr u1 i ltac:(lia))).
      by rewrite (proj1 (drop_all_chr u2 i ltac:(lia))).
    + rewrite <-Hr, (strcmp_ref_drop u1 u2 i) by lia. split_and!; (done || lia).
  - intros [[]|r]; [|done]. intros (_ & _ & <-).
    by rewrite (proj1 (drop_all_chr u1 n ltac:(lia))), (proj1 (drop_all_chr u2 n ltac:(lia))).
Qed.

(** The copy of a string with its terminator, to a place it does not overlap. *)
Lemma copy_to_nul_spec m dest src s fuel :
  let n := Z.of_nat (length s) + 1 in
  cstring m src s → mapped m dest n → (dest + n ≤ src ∨ src + n ≤ dest) → (length s < fuel)%nat →
  wp False (copy_to_nul fuel dest src m) (λ '(d, m'), d = dest + n ∧ copied m m' dest src n).
Proof.
  intros n Hs Hd Hdis Hf.
  apply (wp_while False (λ '(d, _, _), Z.to_nat (dest + n - 1 - d)) (λ '(d, p, m'),
    ∃ i, 0 ≤ i ≤ Z.of_nat (length s) ∧ d = dest + i ∧ p = src + i ∧ copied m m' dest src i)).
  - exists 0. split_and!; try lia. intros a. by rewrite decide_False by lia.
  - lia.
  - intros [[d p] m'] (i & Hi & -> & -> & Hc).
    assert (mload m' (src + i) = Some (chr s i)) as Hv.
    { rewrite Hc, decide_False by lia. by apply cstring_load. }
    rewrite (load_Some _ _ _ Hv). simpl. apply wp_bind, wp_store.
    { rewrite Hc, decide_False by lia. apply Hd. lia. }
    intros m2 Hm2. destruct (cstring_chr m src s i Hs ltac:(lia)) as [C1 C2].
    assert (copied m m2 dest src (i + 1)) as Hc2.
    { intros a. rewrite Hm2, Hc. repeat case_decide; try lia; try done. subst.
      replace (dest + i - dest + src) with (src + i) by lia. symmetry. by apply cstring_load. }
    simpl. case_if.
    + split; [lia|]. replace n with (i + 1) by lia. done.
    + split; [|lia]. exists (i + 1). split_and!; (done || lia).
Qed.

Lemma copied_cstring m m' dest src s :
  copied m m' dest src (Z.of_nat (length s) + 1) → cstring m src s →
  cstring m' dest s ∧ same_except m m' dest (Z.of_nat (length s) + 1).
Proof.
  intros Hc [Hb Hf]. replace (Z.of_nat (length s) + 1) with (Z.of_nat (length (s ++ [0]))) in *
    by (rewrite length_app; simpl; lia).
  destruct (copied_bytes _ _ _ _ _ Hc Hb). by split; [split|].
Qed.

(** strcpy copies a string with its terminator to a disjoint block, returns the destination and changes no other byte. *)
Theorem strcpy_spec m dest src s fuel :
  let n := Z.of_nat (length s) + 1 in
  cstring m src s → mapped m dest n → (dest + n ≤ src ∨ src + n ≤ dest) → (length s < fuel)%nat →
  wp False (strcpy fuel dest src m) (λ '(r, m'), r = dest ∧ cstring m' dest s ∧ same_except m m' dest n).
Proof.
  intros n Hs Hd Hdis Hf. apply wp_bind. eapply wp_mono; [by apply copy_to_nul_spec|].
  intros [d m'] [-> Hc]. split; [done|]. by eapply copied_cstring.
Qed.

Lemma stpcpy_spec m dest src s fuel :
  let n := Z.of_nat (length s) + 1 in
  cstring m src s → mapped m dest n → (dest + n ≤ src ∨ src + n ≤ dest) → (length s < fuel)%nat →
  wp False (stpcpy fuel dest src m) (λ '(r, m'),
    r = dest + Z.of_nat (length s) ∧ cstring m' dest s ∧ same_except m m' dest n).
Proof.
  intros n Hs Hd Hdis Hf. apply wp_bind. eapply wp_mono; [by apply copy_to_nul_spec|].
  intros [d m'] [-> Hc]. split; [lia|]. by eapply copied_cstring.
Qed.

(** ** Searching *)
Fixpoint index_of (P : Z → bool) (s : list Z) : option Z :=
  match s with
  | [] => None
  | c :: s => if P c then Some 0 else Z.succ <$> index_of P s
  end.

Definition at_index (p : Z) (o : option Z) : Z := match o with Some i => p + i | None => NULL end.

Lemma strchr_spec m p s c fuel :
  cstring m p s → (length s < fuel)%nat →
  strchr fuel p c m = Ok (at_index p (index_of (λ x, s8 x =? c) (s ++ [0]))).
Proof.
  unfold strchr. revert p fuel. induction s as [|x s IH]; intros p [|fuel] Hs Hf; simpl in Hf; try lia.
  - apply cstring_nil in Hs. simpl. rewrite (load_char_Some _ _ _ Hs). simpl.
    case_if; simpl; [|done]. f_equal. lia.
  - apply cstring_cons in Hs as (Hx & Hr & Hs). simpl.
    rewrite (load_char_Some _ _ _ Hx). simpl. rewrite s8_eqb_0 by lia. case_if; simpl; [f_equal; lia|].
    replace (x =? 0) with false by lia. rewrite IH by (done || lia). f_equal.
    destruct (index_of _ (s ++ [0])); simpl; [lia|done].
Qed.

Definition in_set (c : Z) (s : list Z) : bool := existsb (Z.eqb c) s.

Lemma index_of_is_Some P s : is_Some (index_of P s) ↔ existsb P s = true.
Proof.
  induction s as [|c s IH]; simpl; [split; [by intros []|done]|].
  destruct (P c); simpl; [split; eauto|]. rewrite <-IH, fmap_is_Some. done.
Qed.

Lemma index_of_nonneg P s i : index_of P s = Some i → 0 ≤ i.
Proof.
  revert i. induction s as [|c s IH]; intros i; simpl; [done|].
  destruct (P c); [intros; simplify_eq; done|].
  destruct (index_of P s) as [k|]; simpl; intros; simplify_eq. specialize (IH k eq_refl). lia.
Qed.

Lemma strchr_in_set m p s c fuel :
  cstring m p s → 0 < p → (length s < fuel)%nat → 0 ≤ c < 256 →
  ∃ r, strchr fuel p (s8 c) m = Ok r ∧ (r =? NULL) = negb (in_set c (s ++ [0])).
Proof.
  intros Hs Hp Hf Hc. eexists. split; [by apply strchr_spec|].
  assert (existsb (λ x, s8 x =? s8 c) (s ++ [0]) = in_set c (s ++ [0])) as E.
  { unfold in_set. destruct Hs as [_ Hs]. rewrite !existsb_app. f_equal.
    - induction Hs; simpl in *; [done|]. by rewrite IHHs, s8_eqb, Z.eqb_sym by lia.
    - cbn [existsb]. by rewrite (s8_eqb 0 c), Z.eqb_sym by lia. }
  destruct (index_of _ (s ++ [0])) as [i|] eqn:Ei; simpl; unfold NULL.
  - assert (in_set c (s ++ [0]) = true) as -> by (rewrite <-E; apply index_of_is_Some; eauto).
    apply index_of_nonneg in Ei. simpl. lia.
  - destruct (in_set c (s ++ [0])) eqn:E2; [|done].
    apply index_of_is_Some in E as [? ?]. congruence.
Qed.

(** Both loops below walk to the first character whose test holds. *)
Lemma strcspn_spec m p q s reject fuel :
  cstring m p s → cstring m q reject → 0 < q →
  (length s < fuel)%nat → (length reject < fuel)%nat →
  strcspn fuel p q m = Ok (default 0 (index_of (λ c, in_set c (reject ++ [0])) (s ++ [0]))).
Proof.
  intros Hs Hr Hq Hf Hf'.
  assert (∀ k r p s, cstring m p s → (length s < k)%nat →
    c_while k (λ '(s, result),
      ch ← load_char m s; r ← strchr fuel q ch m;
      Ok (if negb (r =? NULL) then inr result else inl (s + 1, result + 1))) (p, r)
    = Ok (r + default 0 (index_of (λ c, in_set c (reject ++ [0])) (s ++ [0])))) as Hgen.
  2: { unfold strcspn. by rewrite (Hgen fuel 0 p s). }
  clear Hs Hf p s. induction k as [|k IH]; intros r p s Hs Hf; [lia|].
  destruct s as [|c s].
  - apply cstring_nil in Hs. simpl. rewrite (load_char_Some _ _ _ Hs). simpl.
    destruct (strchr_in_set m q reject 0 fuel Hr Hq Hf' ltac:(lia)) as (w & Ew & Hw). rewrite Ew. simpl. rewrite Hw. simpl.
    destruct (in_set 0 (reject ++ [0])) eqn:E; simpl; [f_equal; lia|].
    unfold in_set in E. rewrite existsb_app in E. simpl in E. by rewrite orb_true_r in E.
  - apply cstring_cons in Hs as (Hc & Hc' & Hs). simpl. rewrite (load_char_Some _ _ _ Hc). simpl.
    destruct (strchr_in_set m q reject c fuel Hr Hq Hf' ltac:(lia)) as (w & Ew & Hw). rewrite Ew. simpl. rewrite Hw. simpl.
    destruct (in_set c (reject ++ [0])); simpl; [f_equal; lia|].
    simpl in Hf. rewrite (IH _ _ s) by (done || lia). f_equal.
    assert (is_Some (index_of (λ c, in_set c (reject ++ [0])) (s ++ [0]))) as [i ->].
    { apply index_of_is_Some. rewrite existsb_app. simpl. unfold in_set at 2.
      rewrite existsb_app. simpl. by rewrite !orb_true_r. }
    simpl. lia.
Qed.

(** Once past the terminator strspn can only count further. *)
Lemma strspn_loop_ge m q fuel k p r r' :
  c_while k (λ '(s, result),
    ch ← load_char m s; r ← strchr fuel q ch m;
    Ok (if r =? NULL then inr result else inl (s + 1, result + 1))) (p, r) = Ok r' → r ≤ r'.
Proof.
  revert p r. induction k as [|k IH]; intros p r; [done|]. cbn [c_while]. intros H.
  outcome_inv. destruct (_ =? NULL); outcome_inv; [lia|].
  apply IH in H. lia.
Qed.

(** strspn returns the length of the longest prefix of characters of [accept], but only when some character of the string is outside [accept]: the terminator itself is found by strchr, so on a string made of accepted characters only the scan runs past the end of the string, and any value it returns is larger than its length. *)
Theorem strspn_spec m p q s accept fuel :
  cstring m p s → cstring m q accept → 0 < q →
  (length s < fuel)%nat → (length accept < fuel)%nat →
  match index_of (λ c, negb (in_set c (accept ++ [0]))) s with
  | Some i => strspn fuel p q m = Ok i
  | None => ∀ r, strspn fuel p q m = Ok r → Z.of_nat (length s) < r
  end.
Proof.
  intros Hs Ha Hq Hf Hf'.
  assert (∀ k r p s, cstring m p s → (length s < k)%nat →
    match index_of (λ c, negb (in_set c (accept ++ [0]))) s with
    | Some i => c_while k (λ '(s, result),
      ch ← load_char m s; r ← strchr fuel q ch m;
      Ok (if r =? NULL then inr result else inl (s + 1, result + 1))) (p, r) = Ok (r + i)
    | None => ∀ r', c_while k (λ '(s, result),
      ch ← load_char m s; r ← strchr fuel q ch m;
      Ok (if r =? NULL then inr result else inl (s + 1, result + 1))) (p, r) = Ok r' →
      r + Z.of_nat (length s) < r'
    end) as Hgen.
  2: { specialize (Hgen fuel 0 p s Hs Hf). unfold strspn. destruct (index_of _ s); [done|].
       intros r Hr. specialize (Hgen r Hr). lia. }
  clear Hs Hf p s. induction k as [|k IH]; intros r p s Hs Hf; [lia|].
  destruct s as [|c s].
  - apply cstring_nil in Hs. cbn [index_of c_while]. intros r'. rewrite (load_char_Some _ _ _ Hs).
    destruct (strchr_in_set m q accept 0 fuel Ha Hq Hf' ltac:(lia)) as (w & Ew & Hw).
    cbn [mbind outcome_bind]. rewrite Ew. cbn [mbind outcome_bind]. rewrite Hw.
    unfold in_set. rewrite existsb_app. cbn [existsb]. rewrite !orb_true_r. simpl.
    intros Hr%strspn_loop_ge. lia.
  - apply cstring_cons in Hs as (Hc & Hc' & Hs). simpl. rewrite (load_char_Some _ _ _ Hc). simpl.
    destruct (strchr_in_set m q accept c fuel Ha Hq Hf' ltac:(lia)) as (w & Ew & Hw). rewrite Ew. simpl. rewrite Hw. simpl.
    destruct (in_set c (accept ++ [0])); simpl; [|f_equal; lia].
    simpl in Hf. specialize (IH (r + 1) (p + 1) s Hs ltac:(lia)).
    destruct (index_of _ s); simpl; [rewrite IH; f_equal; lia|].
    intros r' Hr'. specialize (IH r' Hr'). lia.
Qed.

Fixpoint find_sub (needle s : list Z) : option Z :=
  match s with
  | [] => None
  | _ :: s' => if bool_decide (take (length needle) s = needle) then Some 0
               else Z.succ <$> find_sub needle s'
  end.

(** strstr returns a pointer to the first place, before the terminator of the haystack, where the needle occurs, and NULL when there is none (so an empty haystack never matches, not even an empty needle). *)
Theorem strstr_spec m p q haystack needle fuel :
  cstring m p haystack → cstring m q needle →
  (length haystack < fuel)%nat → (length needle < fuel)%nat →
  strstr fuel p q m = Ok (at_index p (find_sub needle haystack)).
Proof.
  intros Hs Hn Hf Hf'. unfold strstr. rewrite (strlen_spec _ _ needle) by done. simpl. clear Hf'.
  revert p haystack Hs Hf. induction fuel as [|k IH]; intros p s Hs Hf; [lia|].
  destruct s as [|c s].
  - apply cstring_nil in Hs. simpl. by rewrite (load_char_Some _ _ _ Hs).
  - pose proof Hs as Hs'. apply cstring_cons in Hs' as (Hc & Hc' & Hs'). simpl.
    rewrite (load_char_Some _ _ _ Hc). simpl. rewrite s8_eqb_0 by lia.
    replace (c =? 0) with false by lia.
    rewrite (strncmp_spec m q p needle (c :: s)) by (done || lia). rewrite Nat2Z.id, firstn_all.
    assert (strcmp_ref needle (take (length needle) (c :: s)) = 0 ↔
      take (length needle) (c :: s) = needle) as E.
    { rewrite strcmp_ref_0; [done|apply Hn|apply Forall_take, Hs]. }
    cbn [mbind outcome_bind]. case_bool_decide.
    + rewrite (proj2 E) by done. simpl. f_equal. lia.
    + case_if; [tauto|]. simpl in Hf. rewrite IH with (haystack := s) by (done || lia).
      f_equal. destruct (find_sub needle s); simpl; [lia|done].
Qed.

Lemma in_set_app_0 c s : c ≠ 0 → in_set c (s ++ [0]) = in_set c s.
Proof.
  intros Hc. unfold in_set. rewrite existsb_app. simpl.
  replace (c =? 0) with false by lia. by rewrite !orb_false_r.
Qed.

(** The two walks of strtok: over delimiters, then over the token. *)
Lemma skip_delimiters_spec m p q pre rest delims fuel fuel' :
  cstring m p (pre ++ rest) → cstring m q delims → 0 < q →
  (length (pre ++ rest) < fuel)%nat → (length delims < fuel')%nat →
  Forall (λ c, in_set c delims = true) pre →
  match rest with [] => True | c :: _ => in_set c delims = false end →
  c_while fuel (λ p,
    ch ← load_char m p;
    if ch =? 0 then Ok (inr NULL)
    else r ← strchr fuel' q ch m; Ok (if r =? NULL then inr p else inl (p + 1))) p
  = Ok (match rest with [] => NULL | _ => p + Z.of_nat (length pre) end).
Proof.
  intros Hs Hd Hq Hf Hf' Hpre Hrest. revert p fuel Hs Hf.
  induction Hpre as [|c pre Hc Hpre IH]; intros p [|k] Hs Hf; try lia; simpl in Hs, Hf |- *.
  - destruct rest as [|c rest].
    + apply cstring_nil in Hs. by rewrite (load_char_Some _ _ _ Hs).
    + apply cstring_cons in Hs as (Hl & Hr & _). rewrite (load_char_Some _ _ _ Hl). simpl.
      rewrite s8_eqb_0 by lia. replace (c =? 0) with false by lia.
      destruct (strchr_in_set m q delims c fuel' Hd Hq Hf' ltac:(lia)) as (w & Ew & Hw).
      rewrite Ew. simpl. rewrite Hw, in_set_app_0, Hrest by lia. simpl. f_equal. lia.
  - apply cstring_cons in Hs as (Hl & Hr & Hs). rewrite (load_char_Some _ _ _ Hl). simpl.
    rewrite s8_eqb_0 by lia. replace (c =? 0) with false by lia.
    destruct (strchr_in_set m q delims c fuel' Hd Hq Hf' ltac:(lia)) as (w & Ew & Hw).
    rewrite Ew. simpl. rewrite Hw, in_set_app_0, Hc by lia. simpl.
    rewrite IH by (done || lia). f_equal. destruct rest; [done|]. lia.
Qed.

Lemma token_end_spec m p q tok rest delims fuel fuel' :
  cstring m p (tok ++ rest) → cstring m q delims → 0 < q →
  (length (tok ++ rest) < fuel)%nat → (length delims < fuel')%nat →
  Forall (λ c, in_set c delims = false) tok →
  match rest with [] => True | c :: _ => in_set c delims = true end →
  c_while fuel (λ p,
    ch ← load_char m p;
    if ch =? 0 then Ok (inr p)
    else r ← strchr fuel' q ch m; Ok (if r =? NULL then inl (p + 1) else inr p)) p
  = Ok (p + Z.of_nat (length tok)).
Proof.
  intros Hs Hd Hq Hf Hf' Htok Hrest. revert p fuel Hs Hf.
  induction Htok as [|c tok Hc Htok IH]; intros p [|k] Hs Hf; try lia; simpl in Hs, Hf |- *.
  - destruct rest as [|c rest].
    + apply cstring_nil in Hs. rewrite (load_char_Some _ _ _ Hs). simpl. f_equal. lia.
    + apply cstring_cons in Hs as (Hl & Hr & _). rewrite (load_char_Some _ _ _ Hl). simpl.
      rewrite s8_eqb_0 by lia. replace (c =? 0) with false by lia.
      destruct (strchr_in_set m q delims c fuel' Hd Hq Hf' ltac:(lia)) as (w & Ew & Hw).
      rewrite Ew. simpl. rewrite Hw, in_set_app_0, Hrest by lia. simpl. f_equal. lia.
  - apply cstring_cons in Hs as (Hl & Hr & Hs). rewrite (load_char_Some _ _ _ Hl). simpl.
    rewrite s8_eqb_0 by lia. replace (c =? 0) with false by lia.
    destruct (strchr_in_set m q delims c fuel' Hd Hq Hf' ltac:(lia)) as (w & Ew & Hw).
    rewrite Ew. simpl. rewrite Hw, in_set_app_0, Hc by lia. simpl.
    rewrite IH by (done || lia). f_equal. lia.
Qed.

Lemma cstring_app m p s1 s2 : cstring m p (s1 ++ s2) → cstring m (p + Z.of_nat (length s1)) s2.
Proof.
  intros [Hb Hf]. rewrite <-app_assoc, bytes_at_app in Hb. destruct Hb as [_ Hb]. apply Forall_app in Hf as [_ Hf].
  by split.
Qed.

(** one call of strtok on text made of delimiters, a token and the rest: it returns the start of the token, ends the token with a NUL in place of the delimiter that follows it, remembers the place after that delimiter for the next call, and changes no other byte; at the end of the text it remembers NULL. *)
Theorem strtok_spec m p q pre tok rest delims str next fuel :
  (str = p ∧ p ≠ NULL ∨ str = NULL ∧ next = p) → 0 < p → 0 < q →
  cstring m p (pre ++ tok ++ rest) → cstring m q delims →
  (length (pre ++ tok ++ rest) < fuel)%nat → (length delims < fuel)%nat →
  Forall (λ c, in_set c delims = true) pre → Forall (λ c, in_set c delims = false) tok → tok ≠ [] →
  match rest with [] => True | c :: _ => in_set c delims = true end →
  let start := p + Z.of_nat (length pre) in
  let end_ := start + Z.of_nat (length tok) in
  wp False (strtok fuel str q next m) (λ '(r, next', m'), r = start ∧
    match rest with
    | [] => next' = NULL ∧ m' = m
    | _ :: rest' => next' = end_ + 1 ∧ cstring m' start tok ∧ cstring m' (end_ + 1) rest' ∧
        same_except m m' end_ 1
    end).
Proof.
  intros Hstr Hp Hq Hs Hd Hf Hf' Hpre Htok Hne Hrest start end_.
  assert ((if negb (str =? NULL) then str else next) = p) as Hn.
  { unfold NULL in *. destruct Hstr as [[-> ?]|[-> ->]]; simpl; [|done].
    by replace (p =? 0) with false by lia. }
  assert (match tok ++ rest with [] => True | c :: _ => in_set c delims = false end) as Htr.
  { destruct Htok; [done|]. done. }
  assert (cstring m start (tok ++ rest)) as Hts by by apply cstring_app.
  unfold strtok. rewrite Hn. replace (p =? NULL) with false by (unfold NULL; lia).
  assert (load_char m p = Ok (s8 (chr (pre ++ tok ++ rest) 0))) as ->.
  { rewrite <-(load_char_chr m p (pre ++ tok ++ rest)) by (done || lia). f_equal. lia. }
  destruct (cstring_chr m p (pre ++ tok ++ rest) 0 Hs ltac:(lia)) as [C1 C2].
  cbn [mbind outcome_bind]. rewrite s8_eqb_0 by lia.
  assert (0 < length tok)%nat as Hl by (destruct tok; simpl; [done|lia]).
  rewrite !length_app in C2. replace (chr _ 0 =? 0) with false by lia.
  unfold skip_delimiters. rewrite (skip_delimiters_spec m p q pre (tok ++ rest) delims) by done.
  destruct (tok ++ rest) as [|x xs] eqn:Ext; [by destruct tok|]. rewrite <-Ext in *. fold start.
  cbn [mbind outcome_bind]. replace (start =? NULL) with false by (unfold NULL, start; lia).
  rewrite (token_end_spec m start q tok rest delims) by (done || (rewrite !length_app in *; lia)).
  fold end_. pose proof (cstring_app _ _ _ _ Hts) as Hrs. fold end_ in Hrs.
  cbn [mbind outcome_bind]. destruct rest as [|c rest].
  - apply cstring_nil in Hrs. by rewrite (load_char_Some _ _ _ Hrs).
  - pose proof Hrs as Hrs'. apply cstring_cons in Hrs' as (Hc & Hc' & Hrs').
    rewrite (load_char_Some _ _ _ Hc). cbn [mbind outcome_bind]. rewrite s8_eqb_0 by lia.
    replace (c =? 0) with false by lia. apply wp_bind, wp_store; [eauto|].
    intros m2 Hm2. split_and!; [done..| | |].
    + destruct Hts as [Hb Hfa]. rewrite <-app_assoc in Hb. apply bytes_at_app in Hb as [Hb _].
      split; [|by apply Forall_app in Hfa as [? _]]. apply bytes_at_app. split.
      * intros i v E. pose proof (lookup_lt_Some _ _ _ E). rewrite Hm2, decide_False by lia. by apply Hb.
      * intros [|i] v E; simplify_eq/=. rewrite Hm2, decide_True by lia. done.
    + destruct Hrs' as [Hb Hfa]. split; [|done].
      intros i v E. rewrite Hm2, decide_False by lia. by apply Hb.
    + intros a Ha. rewrite Hm2, decide_False by lia. done.
Qed.

(** when the source has no NUL among its first [n] characters, stpncpy never returns: the test [n-- > 0] that ends the copy has wrapped [n] to 2^64-1, and the padding loop then writes NULs until it reaches an unmapped address. *)
Theorem stpncpy_overruns m dest src n l a fuel :
  0 < n < 2 ^ 64 → Z.of_nat (length l) = n → bytes_at m src l → Forall (λ c, c ≠ 0) l →
  (dest + n ≤ src ∨ src + n ≤ dest) →
  dest + n ≤ a < dest + n + (2 ^ 64 - 1) → mload m a = None →
  ∀ r, stpncpy fuel dest src n m ≠ Ok r.
Proof.
  intros Hn Hl Hb Hnz Hdis Ha Hunm r E. unfold stpncpy in E.
  apply bind_Ok in E as ([[d k] m1] & E1 & E2).
  assert (d = dest + n ∧ k = 2 ^ 64 - 1 ∧ mload m1 a = None) as (-> & -> & Hun1).
  { eapply (c_while_Ok (λ '(d, s, k, m'), ∃ i, 0 ≤ i ≤ n ∧ d = dest + i ∧ s = src + i ∧
      k = n - i ∧ copied m m' dest src i)
      (λ '(d, k, m'), d = dest + n ∧ k = 2 ^ 64 - 1 ∧ mload m' a = None)) in E1; [done| |].
    - clear E1. intros [[[d' s'] k'] m'] o (i & Hi & -> & -> & -> & Hc) E. case_if_in E.
      + outcome_inv. apply load_Ok in E0. apply store_Ok in E1 as [_ Hst].
        destruct (lookup_lt_is_Some_2 l (Z.to_nat i)) as [x Ex]; [lia|].
        pose proof (bytes_at_lookup m src l i x Hb ltac:(lia) Ex) as Hx.
        rewrite Hc, decide_False, Hx in E0 by lia. injection E0 as <-.
        eapply Forall_lookup_1 in Hnz; [|exact Ex]. simpl in Hnz.
        replace (x =? 0) with false by lia. exists (i + 1). split_and!; try lia.
        { rewrite wrap_small; lia. }
        intros b. rewrite Hst, Hc. repeat case_decide; try lia; try done. subst.
        rewrite <-Hx. f_equal. lia.
      + outcome_inv. assert (i = Z.of_nat (length l)) as -> by lia. split_and!; [done| |].
        * rewrite Z.sub_diag. done.
        * rewrite Hc, decide_False; [done|lia].
    - exists 0. split_and!; try lia. intros b. by rewrite decide_False by lia. }
  clear E1. eapply (c_while_Ok (λ '(d, k, m'), d + k = dest + n + (2 ^ 64 - 1) ∧
    dest + n ≤ d ≤ a ∧ mload m' a = None) (λ _, False)) in E2; [done| |split_and!; (done || lia)].
  clear E2. intros [[d k] m'] o (Hd & Hda & Hun) E. case_if_in E; [|lia].
  outcome_inv. apply store_Ok in E0 as [Hmap Hst].
  assert (d ≠ a) by (intros ->; rewrite Hun in Hmap; by destruct Hmap).
  split_and!; try lia.
  - rewrite wrap_small; lia.
  - rewrite Hst, decide_False by done. done.
Qed.
End strings.

(** ** Witnesses: three strings in one memory *)
Module CStringExamples.
(** "ab,cd" at 100, "," at 200, "cd" at 300, eight writable bytes at 400 *)
Definition mem_ex : gmap Z Z :=
  mem_of [(100, [97; 98; 44; 99; 100; 0]); (200, [44; 0]); (300, [99; 100; 0]); (400, replicate 8 7)].

Lemma text_ex : cstring mem_ex 100 [97; 98; 44; 99; 100].
Proof. apply cstringb_true. vm_compute. reflexivity. Qed.

Lemma comma_ex : cstring mem_ex 200 [44].
Proof. apply cstringb_true. vm_compute. reflexivity. Qed.

Lemma cd_ex : cstring mem_ex 300 [99; 100].
Proof. apply cstringb_true. vm_compute. reflexivity. Qed.

Lemma room_ex : mapped mem_ex 400 8.
Proof. by apply (mapped_bytes _ _ (replicate 8 7)); vm_compute. Qed.

(** the source [100,105) and the destination [101,106) overlap *)
Lemma memmove_spec_witness : ∃ m', memmove 101 100 5 mem_ex = Ok (101, m') ∧ copied mem_ex m' 101 100 5.
Proof.
  destruct (wp_total_1 _ _ (memmove_spec mem_ex 101 100 5 ltac:(done)
    ltac:(by apply (mapped_bytes _ _ [97; 98; 44; 99; 100]); vm_compute)
    ltac:(by apply (mapped_bytes _ _ [98; 44; 99; 100; 0]); vm_compute))) as ([r m'] & E & -> & Hc).
  exists m'. split; [exact E|exact Hc].
Defined.

Lemma strcmp_spec_witness : strcmp 9 200 300 mem_ex = Ok (44 - 99).
Proof. exact (proj1 (strcmp_spec mem_ex 200 300 [44] [99; 100] 9 comma_ex cd_ex ltac:(simpl; lia))). Defined.

Lemma strcpy_spec_witness : ∃ m', strcpy 9 400 300 mem_ex = Ok (400, m') ∧ cstring m' 400 [99; 100].
Proof.
  destruct (wp_total_1 _ _ (strcpy_spec mem_ex 400 300 [99; 100] 9 cd_ex
    ltac:(by apply (mapped_bytes _ _ (replicate 3 7)); vm_compute)
    ltac:(simpl; lia) ltac:(simpl; lia))) as ([r m'] & E & -> & Hc & _).
  exists m'. split; [exact E|exact Hc].
Defined.

(** "cd" against "," stops at once; against itself the scan leaves the string *)
Lemma strspn_spec_witness :
  strspn 9 300 200 mem_ex = Ok 0 ∧ ∀ r, strspn 9 300 300 mem_ex = Ok r → 2 < r.
Proof.
  split.
  - exact (strspn_spec mem_ex 300 200 [99; 100] [44] 9 cd_ex comma_ex ltac:(done)
      ltac:(simpl; lia) ltac:(simpl; lia)).
  - exact (strspn_spec mem_ex 300 300 [99; 100] [99; 100] 9 cd_ex cd_ex ltac:(done)
      ltac:(simpl; lia) ltac:(simpl; lia)).
Defined.

Lemma strstr_spec_witness : strstr 9 100 300 mem_ex = Ok 103.
Proof.
  exact (strstr_spec mem_ex 100 300 [97; 98; 44; 99; 100] [99; 100] 9 text_ex cd_ex
    ltac:(simpl; lia) ltac:(simpl; lia)).
Defined.

Lemma strtok_spec_witness :
  ∃ m', strtok 9 100 200 0 mem_ex = Ok (100, 103, m') ∧ cstring m' 100 [97; 98] ∧ cstring m' 103 [99; 100].
Proof.
  destruct (wp_total_1 _ _ (strtok_spec mem_ex 100 200 [] [97; 98] [44; 99; 100] [44] 100 0 9
    ltac:(by left) ltac:(done) ltac:(done) text_ex comma_ex ltac:(simpl; lia) ltac:(simpl; lia)
    ltac:(by constructor) ltac:(by repeat constructor) ltac:(done) ltac:(done)))
    as ([[r nx] m'] & E & -> & -> & Htok & Hrest & _).
  exists m'. split; [exact E|]. split; [exact Htok|exact Hrest].
Defined.

Lemma stpncpy_overruns_witness :
  stpncpy 9 400 300 2 mem_ex = Undef ∧ ∀ r, stpncpy 9 400 300 2 mem_ex ≠ Ok r.
Proof.
  split; [vm_compute; reflexivity|].
  apply (stpncpy_overruns mem_ex 400 300 2 [99; 100] 408 9); [done|done| |by repeat constructor|by right|done|].
  - apply bytes_atb_true. vm_compute. reflexivity.
  - vm_compute. reflexivity.
Defined.
End CStringExamples.
