(* ===== verification/KernLibc.v ===== *)
(** * The kernel's own C library: stuos/src/kern_libc.c

    Its string and memory functions are those of custom_libc/string.c, written again. *)
From S2P Require Import Prelude Memory CString.

Section kern_libc.
Context {M : Type} `{!ByteMemory M}.

Definition kern_strcmp (fuel : nat) (str1 str2 : Z) (m : M) : outcome Z := strcmp fuel str1 str2 m.
Definition kern_strcpy (fuel : nat) (dest src : Z) (m : M) : outcome (Z * M) := strcpy fuel dest src m.
Definition kern_memcpy (dest src n : Z) (m : M) : outcome (Z * M) := memcpy dest src n m.
Definition kern_memset (s c n : Z) (m : M) : outcome (Z * M) := memset s c n m.
Definition volatile_memset (s c n : Z) (m : M) : outcome (Z * M) := memset s c n m.
Definition kern_memmove (dest src n : Z) (m : M) : outcome (Z * M) := memmove dest src n m.
Definition kern_memcmp (s1 s2 n : Z) (m : M) : outcome Z := memcmp s1 s2 n m.
Definition kern_strlen (fuel : nat) (str : Z) (m : M) : outcome Z := strlen fuel str m.
Definition kern_strncmp (s1 s2 n : Z) (m : M) : outcome Z := strncmp s1 s2 n m.
Definition bcmp (a b n : Z) (m : M) : outcome Z := kern_memcmp a b n m.
End kern_libc.

Definition toupper (c : Z) : Z := if (97 <=? c) && (c <=? 122) then c + (65 - 97) else c.

Definition kern_tolower (c : Z) : Z := let uc := u8 c in if (65 <=? uc) && (uc <=? 90) then uc + 32 else c.
