(* ===== verification/Bytes.v ===== *)
(** * Little-endian fields of packed structures

    A packed structure read from a disk, a file or a device is a list of bytes;
    a field is the little-endian value of some of them. *)
From S2P Require Import Prelude.

(** the little-endian value of a list of bytes *)
Fixpoint le_val (l : list Z) : Z :=
  match l with [] => 0 | x :: l => x + 256 * le_val l end.

(** the [n] low bytes of [v], lowest first *)
Fixpoint le_bytes (n : nat) (v : Z) : list Z :=
  match n with O => [] | S n => v `mod` 256 :: le_bytes n (v `div` 256) end.

(** the [n]-byte field at offset [off] *)
Definition field (l : list Z) (off n : nat) : Z := le_val (take n (drop off l)).

Definition is_byte (x : Z) : Prop := 0 ≤ x < 256.

Lemma le_bytes_length n v : length (le_bytes n v) = n.
Proof. revert v. induction n; intros v; simpl; auto. Qed.

Lemma le_bytes_byte n v : Forall is_byte (le_bytes n v).
Proof.
  revert v. induction n as [|n IH]; intros v; simpl; constructor; [|done].
  apply Z.mod_pos_bound. lia.
Qed.

Lemma le_val_bytes n v : le_val (le_bytes n v) = v `mod` 256 ^ Z.of_nat n.
Proof.
  revert v. induction n as [|n IH]; intros v; simpl.
  - by rewrite Z.mod_1_r.
  - rewrite IH, Nat2Z.inj_succ, Z.pow_succ_r, Z.rem_mul_r by lia. lia.
Qed.

Lemma le_val_range l : Forall is_byte l → 0 ≤ le_val l < 256 ^ Z.of_nat (length l).
Proof.
  induction 1 as [|x l Hx Hl IH]; simpl; [lia|].
  rewrite Nat2Z.inj_succ, Z.pow_succ_r by lia. unfold is_byte in Hx. lia.
Qed.

Lemma le_bytes_val l : Forall is_byte l → le_bytes (length l) (le_val l) = l.
Proof.
  induction 1 as [|x l Hx Hl IH]; simpl; [done|]. unfold is_byte in Hx.
  f_equal; [dlia|]. replace ((x + 256 * le_val l) `div` 256) with (le_val l) by dlia. done.
Qed.

Lemma field_app_l l k off n : (off + n ≤ length l)%nat → field (l ++ k) off n = field l off n.
Proof.
  intros H. unfold field. rewrite drop_app_le by lia. rewrite take_app_le; [done|].
  rewrite length_drop. lia.
Qed.

Lemma field_app_r l k off n : off = length l → field (l ++ k) off n = field k 0 n.
Proof. intros ->. unfold field. by rewrite drop_app_length. Qed.

(** Two elements of a lookup of bytes as a 16-bit value. *)
Lemma le_val_2 x y : le_val [x; y] = x + 256 * y.
Proof. simpl. lia. Qed.

(** ** Images: the content of a device as a function from addresses to bytes *)
(** The image after [input] has been stored at [off, off+k). *)
Definition overwrite (f : Z → Z) (off k : Z) (input : list Z) (a : Z) : Z :=
  if decide (off ≤ a < off + k) then default 0 (input !! Z.to_nat (a - off)) else f a.

Lemma overwrite_in f off k input a x :
  off ≤ a < off + k → input !! Z.to_nat (a - off) = Some x → overwrite f off k input a = x.
Proof. intros H E. unfold overwrite. rewrite decide_True by done. by rewrite E. Qed.

Lemma overwrite_out f off k input a : ¬ (off ≤ a < off + k) → overwrite f off k input a = f a.
Proof. intros H. unfold overwrite. by rewrite decide_False. Qed.

Lemma seqZ_snoc m n : 0 ≤ n → seqZ m (n + 1) = seqZ m n ++ [m + n].
Proof. intros Hn. rewrite seqZ_app by lia. done. Qed.


(** ** Bit fields *)
Lemma testbit_above a n i : 0 ≤ a < 2 ^ n → n ≤ i → Z.testbit a i = false.
Proof.
  intros Ha Hi. destruct (decide (0 ≤ n)) as [Hn|Hn].
  2: { rewrite Z.pow_neg_r in Ha by lia. lia. }
  destruct (decide (a = 0)) as [->|]; [apply Z.bits_0|].
  apply Z.bits_above_log2; [lia|]. assert (Z.log2 a < n); [|lia]. apply Z.log2_lt_pow2; lia.
Qed.

Lemma land_shiftl_0 a b n : 0 ≤ a < 2 ^ n → 0 ≤ n → Z.land a (Z.shiftl b n) = 0.
Proof.
  intros Ha Hn. apply Z.bits_inj'. intros i Hi. rewrite Z.land_spec, Z.bits_0, Z.shiftl_spec by lia.
  destruct (decide (i < n)).
  - rewrite (Z.testbit_neg_r b) by lia. apply andb_false_r.
  - by rewrite (testbit_above a n) by lia.
Qed.

(** joining a low field of [n] bits with what lies above it *)
Lemma lor_shiftl a b n : 0 ≤ a < 2 ^ n → 0 ≤ n → Z.lor a (Z.shiftl b n) = a + b * 2 ^ n.
Proof.
  intros Ha Hn. rewrite <-Z.shiftl_mul_pow2 by done.
  rewrite Z.add_nocarry_lxor by (by apply land_shiftl_0).
  symmetry. apply Z.lxor_lor. by apply land_shiftl_0.
Qed.

Lemma land_ones_mod a n k : 0 ≤ n → k = 2 ^ n - 1 → Z.land a k = a `mod` 2 ^ n.
Proof. intros Hn ->. rewrite <-Z.land_ones by done. f_equal. rewrite Z.ones_equiv. lia. Qed.

(** ** Runs of consecutive addresses *)
Lemma fmap_seqZ_shift {A} (h h' : Z → A) a b n :
  (∀ k, 0 ≤ k < n → h (a + k) = h' (b + k)) → h <$> seqZ a n = h' <$> seqZ b n.
Proof.
  intros H. apply list_eq. intros i. rewrite !list_lookup_fmap. destruct (decide (Z.of_nat i < n)).
  - rewrite !lookup_seqZ_lt by lia. simpl. f_equal. apply H. lia.
  - by rewrite !lookup_seqZ_ge by lia.
Qed.

Lemma fmap_seqZ_list (h : Z → Z) n l :
  Z.of_nat (length l) = n → (∀ k, 0 ≤ k < n → Some (h k) = l !! Z.to_nat k) → h <$> seqZ 0 n = l.
Proof.
  intros Hl H. apply list_eq. intros i. rewrite list_lookup_fmap. destruct (decide (Z.of_nat i < n)).
  - rewrite lookup_seqZ_lt by lia. simpl. rewrite H by lia. f_equal. lia.
  - rewrite lookup_seqZ_ge by lia. symmetry. apply lookup_ge_None. lia.
Qed.

(** ** Bit-fields

    [bits lo w z] is the [w]-bit field of [z] at bit [lo]; [pack] lays fields out
    from bit 0 upwards, the way the compiler lays out the structs of bit-fields. *)
Definition bits (lo w z : Z) : Z := (z `div` 2 ^ lo) `mod` 2 ^ w.

Fixpoint pack (l : list (Z * Z)) : Z :=
  match l with
  | [] => 0
  | (w, v) :: l => v `mod` 2 ^ w + 2 ^ w * pack l
  end.

Definition flag (lo z : Z) : bool := bits lo 1 z =? 1.

Lemma bits_pack_hd w v l : 0 ≤ w → bits 0 w (pack ((w, v) :: l)) = v `mod` 2 ^ w.
Proof.
  intros Hw. unfold bits. simpl. rewrite Z.div_1_r, Z.mul_comm, Z_mod_plus_full. apply Z.mod_mod. lia.
Qed.

Lemma bits_pack_tl lo w w' v l :
  0 ≤ w ≤ lo → bits lo w' (pack ((w, v) :: l)) = bits (lo - w) w' (pack l).
Proof.
  intros Hw. unfold bits. simpl. f_equal.
  replace (2 ^ lo) with (2 ^ w * 2 ^ (lo - w)) by (rewrite <-Z.pow_add_r by lia; f_equal; lia).
  rewrite <-Z.div_div by lia. f_equal.
  rewrite (Z.mul_comm (2 ^ w)), Z.div_add by lia.
  by rewrite Z.div_small by (apply Z.mod_pos_bound; lia).
Qed.

Lemma pack_range l : Forall (λ p, 0 ≤ p.1) l → 0 ≤ pack l < 2 ^ foldr (λ p n, p.1 + n) 0 l.
Proof.
  induction 1 as [|[w v] l Hw Hl IH]; simpl in *; [done|].
  assert (0 ≤ foldr (λ p n, p.1 + n) 0 l) by (clear -Hl; induction Hl; simpl in *; lia).
  rewrite Z.pow_add_r by lia. pose proof (Z.mod_pos_bound v (2 ^ w) ltac:(lia)). nia.
Qed.

Lemma bits_range lo w z : 0 ≤ w → 0 ≤ bits lo w z < 2 ^ w.
Proof. intros. apply Z.mod_pos_bound. lia. Qed.

Lemma b2z_mod b : Z.b2z b `mod` 2 ^ 1 = Z.b2z b.
Proof. by destruct b. Qed.

Lemma b2z_eqb b : (Z.b2z b =? 1) = b.
Proof. by destruct b. Qed.

#[global] Arguments pack : simpl never.

(** Reads a field of a packed value. *)
Ltac bitfield :=
  unfold flag; repeat (rewrite bits_pack_tl by lia; cbn [Z.sub Z.add Z.opp Z.pos_sub Z.pred_double Z.succ_double Z.double Pos.pred_double Pos.sub Pos.sub_mask Pos.double_mask Pos.succ_double_mask Pos.double_pred_mask]);
  rewrite bits_pack_hd by lia; rewrite ?b2z_mod, ?b2z_eqb.
