(* ===== verification/Vfs.v ===== *)
(** * The nodes of the filesystem: stuos/src/fs.h, abi/uapi/stat.h and dirent.h

    A [VNode] is an identity and a table of operations; the tables the kernel
    builds are an enumeration, one constructor per initialiser in the source.
    [FileDevice] is the contract of the two operations the FAT driver calls on
    the node it is mounted on. *)
From S2P Require Import Prelude.

Record VNodeData := VNodeId { inode : Z; mount_id : Z }.

#[export] Instance VNodeData_eq_dec : EqDecision VNodeData.
Proof. solve_decision. Defined.

(** the operation tables: fs_dev.c (a partition, the /dev root), fs_fat.c (a node, the root of a volume) and fs.c (the root, a directory) *)
Inductive vnode_ops := BlockdevOps | DevRootOps | FatOps | FatRootOps | TmpRootOps | TmpDirOps | NoOps.

Record VNode := MkVNode { id : VNodeData; ops : vnode_ops }.

Record dirent := Dirent { d_ino : Z; d_name : list Z }.

(** a C string in an array: the characters up to the terminator *)
Fixpoint until_nul (l : list Z) : list Z :=
  match l with [] => [] | c :: l => if c =? 0 then [] else c :: until_nul l end.

(** octal 0170000, 0040000, 0060000, 0100000 *)
Definition S_IFMT : Z := 0xF000.
Definition S_IFDIR : Z := 0x4000.
Definition S_IFBLK : Z := 0x6000.
Definition S_IFREG : Z := 0x8000.
Definition S_ISDIR (m : Z) : bool := Z.land m S_IFMT =? S_IFDIR.
Definition S_ISREG (m : Z) : bool := Z.land m S_IFMT =? S_IFREG.
Definition S_ISBLK (m : Z) : bool := Z.land m S_IFMT =? S_IFBLK.

Record stat := Stat { st_ino : Z; st_mode : Z; st_uid : Z; st_gid : Z; st_size : Z }.

(** ** The contract of a byte-addressed file

    [fread id offset n] and [fwrite id offset bytes] are the calls
    [block_device.read_file] and [write_file]; [fbyte w id a] is the byte at
    offset [a] of the file, [fsize w id] the number of bytes it has.  A read
    changes no byte of the file, a write changes exactly the bytes it covers. *)
Class FileDevice (W : Type) := {
  fread : VNodeData → Z → Z → W → outcome (list Z * W);
  fwrite : VNodeData → Z → list Z → W → outcome W;
  fbyte : W → VNodeData → Z → Z;
  fsize : W → VNodeData → Z;
  fok : W → VNodeData → Prop;
  fread_law w id off n :
    fok w id → 0 ≤ off → 0 < n → off + n ≤ fsize w id →
    wp False (fread id off n w) (λ '(l, w'), l = fbyte w id <$> seqZ off n ∧ fok w' id ∧
      fsize w' id = fsize w id ∧ ∀ a, 0 ≤ a < fsize w id → fbyte w' id a = fbyte w id a);
  fwrite_law w id off l :
    fok w id → 0 ≤ off → l ≠ [] → Forall (λ x, 0 ≤ x < 256) l →
    off + Z.of_nat (length l) ≤ fsize w id →
    wp False (fwrite id off l w) (λ w', fok w' id ∧ fsize w' id = fsize w id ∧
      ∀ a, 0 ≤ a < fsize w id → fbyte w' id a =
        if decide (off ≤ a < off + Z.of_nat (length l)) then default 0 (l !! Z.to_nat (a - off)) else fbyte w id a);
  fbyte_range w id a : fok w id → 0 ≤ a < fsize w id → 0 ≤ fbyte w id a < 256;
}.
#[global] Hint Mode FileDevice + : typeclass_instances.
