(* ===== verification/BlockDev.v ===== *)
(** * Block devices and partitions: stuos/src/fs_dev.c

    A driver registers functions that read and write sectors of 512 bytes
    ([BlockDriver]); this component finds the partitions of the disk, names
    them, and offers each one as a file of bytes through a one-sector cache. *)
From S2P Require Import Prelude Bytes Vfs.

Definition BLOCK_DEVICE_READ_SIZE : Z := 512.
Definition DEV_ROOT_DIR_INODE_NUM : Z := 2 ^ 64 - 1.
Definition MAX_BLOCK_DEVICES : Z := 26.
Definition MAX_PARTITIONS : Z := 9.

(** ** The driver's contract (fs_dev.h): the two functions a driver is registered
    with read and write one sector; [sector d s] is the content of sector [s]. *)
Class BlockDriver (D : Type) := {
  block_read : Z → D → outcome (list Z * D);
  block_write : Z → list Z → D → outcome D;
  sector : D → Z → list Z;
  num_sectors : D → Z;
  sector_bytes d s : length (sector d s) = 512%nat ∧ Forall is_byte (sector d s);
  block_read_law d s : 0 ≤ s < num_sectors d →
    wp False (block_read s d) (λ '(l, d'), l = sector d s ∧ sector d' = sector d ∧ num_sectors d' = num_sectors d);
  block_write_law d s l : 0 ≤ s < num_sectors d → length l = 512%nat → Forall is_byte l →
    wp False (block_write s l d) (λ d', num_sectors d' = num_sectors d ∧
      ∀ s', sector d' s' = if decide (s = s') then l else sector d s');
}.
#[global] Hint Mode BlockDriver + : typeclass_instances.

Record SectorCache := MkCache { data : list Z; sector_number : Z; is_valid : bool }.

Record BlockDevicePartition := Partition { byte_offset : Z; byte_length : Z }.

Section blockdev.
Context {D : Type} `{!BlockDriver D}.

(** [driver_private] with the two function pointers is the driver [d]. *)
Record BlockDevice := MkDevice {
  driver : D;
  cache : SectorCache;
  num_partitions : Z;
  partitions : list BlockDevicePartition
}.

(** [block_devices] holds the entries below [next_free_block_device] *)
Record dev_state := DevState { next_free_block_device : Z; block_devices : list BlockDevice }.

(** the packed MBR: entry [i] of the partition table starts at byte 446 + 16 i *)
Definition mbr_signature (mbr : list Z) : Z := field mbr 510 2.
Definition lba_partition_start (mbr : list Z) (i : Z) : Z := field mbr (446 + 16 * Z.to_nat i + 8) 4.
Definition partition_sector_count (mbr : list Z) (i : Z) : Z := field mbr (446 + 16 * Z.to_nat i + 12) 4.

(** the loop over the four entries of the table, on [result.num_partitions] and [result.partitions] *)
Definition read_mbr_partitions (mbr : list Z) (parts : Z * list BlockDevicePartition)
    : outcome (Z * list BlockDevicePartition) :=
  r ← c_for 0 4 (λ i '(n, ps),
    _ ← hcf_if (MAX_PARTITIONS <=? n);
    if partition_sector_count mbr i =? 0 then Ok (inr (n, ps))
    else
      ps' ← arr_set ps n (Partition (u32 (lba_partition_start mbr i * BLOCK_DEVICE_READ_SIZE))
                                    (u32 (partition_sector_count mbr i * BLOCK_DEVICE_READ_SIZE)));
      Ok (inl (u8 (n + 1), ps'))) parts;
  match r with inl p => Ok p | inr p => Ok p end.

(** [cache_data] is the block [malloc] returned for the cache, with whatever it held *)
Definition fs_dev_add_block_device (d : D) (cache_data : list Z) (st : dev_state) : outcome dev_state :=
  _ ← hcf_if (next_free_block_device st =? MAX_BLOCK_DEVICES);
  '(mbr, d) ← block_read 0 d;
  let parts := (1, replicate (Z.to_nat MAX_PARTITIONS) (Partition 0 0)) in
  '(n, ps) ← (if mbr_signature mbr =? 0xAA55 then read_mbr_partitions mbr parts else Ok parts);
  Ok (DevState (next_free_block_device st + 1)
        (block_devices st ++ [MkDevice d (MkCache cache_data 0 false) n ps])).

(** returns the index of the device in [block_devices] and the partition *)
Definition get_block_device (inode_num : VNodeData) (st : dev_state) : outcome (Z * BlockDevicePartition) :=
  _ ← hcf_if (negb (mount_id inode_num =? 0));
  _ ← hcf_if (inode inode_num =? DEV_ROOT_DIR_INODE_NUM);
  let dev_num := u16 (Z.land (Z.shiftr (inode inode_num) 16) 0xFFFF) in
  _ ← hcf_if (next_free_block_device st <=? dev_num);
  blk ← arr_get (block_devices st) dev_num;
  let part_num := u16 (Z.land (inode inode_num) 0xFFFF) in
  _ ← hcf_if (num_partitions blk <=? part_num);
  part ← arr_get (partitions blk) part_num;
  Ok (dev_num, part).

Definition set_device (dev_num : Z) (blk : BlockDevice) (st : dev_state) : outcome dev_state :=
  bs ← arr_set (block_devices st) dev_num blk;
  Ok (DevState (next_free_block_device st) bs).

Definition first_sector_number (offset : Z) : Z := offset `div` BLOCK_DEVICE_READ_SIZE.
Definition last_sector_number (offset num_bytes : Z) : Z :=
  u64 (u64 (offset + num_bytes) - 1) `div` BLOCK_DEVICE_READ_SIZE.

(** [while(offset_in_sector < BLOCK_DEVICE_READ_SIZE && bytes_written < num_bytes)
      data[offset_in_sector++] = input_buf[bytes_written++]] *)
Definition fill_sector (input_buf : list Z) (num_bytes : Z) (s : list Z * Z * Z) : outcome (list Z * Z * Z) :=
  c_while (S (Z.to_nat BLOCK_DEVICE_READ_SIZE)) (λ '(sec, offset_in_sector, bytes_written),
    if (offset_in_sector <? BLOCK_DEVICE_READ_SIZE) && (bytes_written <? num_bytes) then
      b ← arr_get input_buf bytes_written;
      sec' ← arr_set sec offset_in_sector b;
      Ok (inl (sec', offset_in_sector + 1, bytes_written + 1))
    else Ok (inr (sec, offset_in_sector, bytes_written))) s.

Definition write_sector (input_buf : list Z) (num_bytes sec : Z) (s : BlockDevice * Z * Z)
    : outcome (BlockDevice * Z * Z) :=
  let '(dev, offset_in_sector, bytes_written) := s in
  '(content, d) ← block_read sec (driver dev);
  '(content, _, bytes_written) ← fill_sector input_buf num_bytes (content, offset_in_sector, bytes_written);
  d ← block_write sec content d;
  Ok (MkDevice d (MkCache (data (cache dev)) (sector_number (cache dev)) false)
        (num_partitions dev) (partitions dev), 0, bytes_written).

Definition blockdev_write_file (inode_num : VNodeData) (offset : Z) (input_buf : list Z) (num_bytes : Z)
    (st : dev_state) : outcome (Z * dev_state) :=
  '(dev_num, part) ← get_block_device inode_num st;
  dev ← arr_get (block_devices st) dev_num;
  let offset := u64 (offset + byte_offset part) in
  '(dev, _, _) ← c_foreach (first_sector_number offset) (last_sector_number offset num_bytes + 1)
    (write_sector input_buf num_bytes) (dev, offset `mod` BLOCK_DEVICE_READ_SIZE, 0);
  st ← set_device dev_num dev st;
  Ok (num_bytes, st).

(** [while(...) output_buf[bytes_read++] = cache.data[offset_in_sector++]]: the output so far is a list *)
Definition drain_sector (sec : list Z) (num_bytes : Z) (s : list Z * Z) : outcome (list Z * Z) :=
  c_while (S (Z.to_nat BLOCK_DEVICE_READ_SIZE)) (λ '(output_buf, offset_in_sector),
    if (offset_in_sector <? BLOCK_DEVICE_READ_SIZE) && (Z.of_nat (length output_buf) <? num_bytes) then
      b ← arr_get sec offset_in_sector;
      Ok (inl (output_buf ++ [b], offset_in_sector + 1))
    else Ok (inr (output_buf, offset_in_sector))) s.

Definition read_sector (num_bytes sec : Z) (s : BlockDevice * Z * list Z) : outcome (BlockDevice * Z * list Z) :=
  let '(dev, offset_in_sector, output_buf) := s in
  dev ← (if negb (sector_number (cache dev) =? sec) || negb (is_valid (cache dev)) then
           '(content, d) ← block_read sec (driver dev);
           Ok (MkDevice d (MkCache content sec true) (num_partitions dev) (partitions dev))
         else Ok dev);
  '(output_buf, _) ← drain_sector (data (cache dev)) num_bytes (output_buf, offset_in_sector);
  Ok (dev, 0, output_buf).

(** returns the bytes stored in [output_buf] with the return value *)
Definition blockdev_read_file (inode_num : VNodeData) (offset num_bytes : Z) (st : dev_state)
    : outcome (list Z * Z * dev_state) :=
  '(dev_num, part) ← get_block_device inode_num st;
  dev ← arr_get (block_devices st) dev_num;
  let offset := u64 (offset + byte_offset part) in
  '(dev, _, output_buf) ← c_foreach (first_sector_number offset) (last_sector_number offset num_bytes + 1)
    (read_sector num_bytes) (dev, offset `mod` BLOCK_DEVICE_READ_SIZE, []);
  st ← set_device dev_num dev st;
  Ok (output_buf, num_bytes, st).

Definition blockdev_stat (inode_num : VNodeData) (st : dev_state) : outcome stat :=
  _ ← hcf_if (negb (mount_id inode_num =? 0));
  _ ← hcf_if (inode inode_num =? DEV_ROOT_DIR_INODE_NUM);
  '(_, part) ← get_block_device inode_num st;
  Ok (Stat (inode inode_num) S_IFBLK 0 0 (byte_length part)).

(** not written yet *)
Definition devroot_stat (inode_num : VNodeData) : outcome stat := Halt.

(** "blk", the letter of the device and, for a partition, "p" and its digit; zero bytes after them *)
Definition blk_name (dev_num partition_num : Z) : list Z :=
  [98; 108; 107; u8 (65 + dev_num);
   (if partition_num =? 0 then 0 else 112); (if partition_num =? 0 then 0 else u8 (48 + partition_num)); 0].

Definition blk_dirent (dev_num partition_num : Z) : dirent * VNode :=
  let ino := Z.lor (Z.shiftl dev_num 16) partition_num in
  (Dirent ino (blk_name dev_num partition_num), MkVNode (VNodeId ino 0) BlockdevOps).

(** the entries stored in [dirent_buf] and [vnode_buf], and the return value *)
Definition devroot_read_dirents (inode_num : VNodeData) (dirent_index dirent_count : Z) (st : dev_state)
    : outcome (list (dirent * VNode) * Z) :=
  _ ← hcf_if (negb (inode inode_num =? DEV_ROOT_DIR_INODE_NUM) || negb (mount_id inode_num =? 0));
  r ← c_for 0 (next_free_block_device st) (λ dev_num s,
    blk ← arr_get (block_devices st) dev_num;
    c_for 0 (num_partitions blk) (λ partition_num '(dirent_index, bufs),
      if negb (dirent_index =? 0) then Ok (inl (dirent_index - 1, bufs))
      else if Z.of_nat (length bufs) =? dirent_count then Ok (inr (bufs, dirent_count))
      else Ok (inl (dirent_index, bufs ++ [blk_dirent dev_num partition_num]))) s) (dirent_index, []);
  match r with
  | inl (_, bufs) => Ok (bufs, Z.of_nat (length bufs))
  | inr res => Ok res
  end.
End blockdev.
Arguments BlockDevice D : clear implicits.
Arguments dev_state D : clear implicits.

(** ** Reading and writing the bytes of a disk *)
Section bytes.
Context {D : Type} `{!BlockDriver D}.
Implicit Types (d : D) (dev : BlockDevice D).

Definition disk_byte d (a : Z) : Z :=
  default 0 (sector d (a `div` BLOCK_DEVICE_READ_SIZE) !! Z.to_nat (a `mod` BLOCK_DEVICE_READ_SIZE)).

Definition disk_size d : Z := num_sectors d * BLOCK_DEVICE_READ_SIZE.

(** a valid cache holds the sector it is labelled with *)
Record dev_ok dev : Prop := {
  dev_cache : is_valid (cache dev) = true → data (cache dev) = sector (driver dev) (sector_number (cache dev));
  dev_size : disk_size (driver dev) < 2 ^ 64;
}.

Lemma sector_lookup d s i :
  0 ≤ i < 512 → sector d s !! Z.to_nat i = Some (disk_byte d (512 * s + i)).
Proof.
  intros Hi. unfold disk_byte, BLOCK_DEVICE_READ_SIZE.
  replace ((512 * s + i) `div` 512) with s by dlia. replace ((512 * s + i) `mod` 512) with i by dlia.
  destruct (lookup_lt_is_Some_2 (sector d s) (Z.to_nat i)) as [x E]; [|by rewrite E].
  rewrite (proj1 (sector_bytes d s)). lia.
Qed.

Lemma disk_byte_range d a : 0 ≤ disk_byte d a < 256.
Proof.
  pose proof (sector_lookup d (a `div` 512) (a `mod` 512) ltac:(dlia)) as E.
  replace (512 * (a `div` 512) + a `mod` 512) with a in E by dlia.
  exact (Forall_lookup_1 _ _ _ _ (proj2 (sector_bytes d _)) E).
Qed.

(** [f] gives the bytes of the disk; [base] is the address of the sector, [off] that of the request. *)
Lemma drain_sector_spec (f : Z → Z) base off n sec o k :
  (∀ i, 0 ≤ i < 512 → sec !! Z.to_nat i = Some (f (base + i))) →
  0 ≤ o ≤ 512 → 0 ≤ k ≤ n → off + k = base + o →
  wp False (drain_sector sec n (f <$> seqZ off k, o))
    (λ r, r.1 = f <$> seqZ off ((base + 512 - off) `min` n)).
Proof.
  intros Hsec Ho Hk Hbase. unfold drain_sector, BLOCK_DEVICE_READ_SIZE.
  apply (wp_while False (λ s, Z.to_nat (512 - s.2)) (λ s, ∃ j, 0 ≤ j ∧ o + j ≤ 512 ∧ k + j ≤ n ∧
    s = (f <$> seqZ off (k + j), o + j))).
  - exists 0. rewrite !Z.add_0_r. split_and!; (done || lia).
  - simpl. lia.
  - intros s (j & Hj & Hj1 & Hj2 & ->). rewrite length_fmap, length_seqZ. case_if.
    + apply wp_bind. rewrite (arr_get_lookup sec (o + j) _ ltac:(lia) (Hsec (o + j) ltac:(lia))). simpl.
      split; [|lia]. exists (j + 1). split_and!; try lia.
      rewrite !Z.add_assoc, seqZ_snoc, fmap_app by lia. simpl.
      f_equal. f_equal. f_equal. f_equal. lia.
    + simpl. f_equal. f_equal. apply andb_false_iff in Heqb as [?|?]; zbool; lia.
Qed.

Definition blk_frame dev dev' : Prop :=
  num_partitions dev' = num_partitions dev ∧ partitions dev' = partitions dev ∧
  num_sectors (driver dev') = num_sectors (driver dev).

(** How many bytes of the request lie before the sector [j]. *)
Definition done_before (off n j : Z) : Z := 0 `max` ((j * 512 - off) `min` n).

Lemma read_sector_spec n sec off dev o :
  dev_ok dev → 0 ≤ sec < num_sectors (driver dev) → 0 ≤ n → 0 ≤ off →
  off < (sec + 1) * 512 → sec * 512 < off + n → o = 0 `max` (off - sec * 512) →
  wp False (read_sector n sec (dev, o, disk_byte (driver dev) <$> seqZ off (done_before off n sec)))
    (λ '(dev', o', out), dev_ok dev' ∧ blk_frame dev dev' ∧ sector (driver dev') = sector (driver dev) ∧
      o' = 0 ∧ out = disk_byte (driver dev) <$> seqZ off (done_before off n (sec + 1))).
Proof.
  intros Hok Hsec Hn Ho Hoff Hend ->. unfold read_sector.
  apply wp_bind.
  apply (wp_mono _ _ (λ dev', dev_ok dev' ∧ blk_frame dev dev' ∧ sector (driver dev') = sector (driver dev) ∧
    data (cache dev') = sector (driver dev) sec)).
  { case_if.
    - apply wp_bind. eapply wp_mono; [by apply block_read_law|]. intros [content d'] (-> & Hs & Hc). simpl.
      split_and!; [|by split_and!|done|done]. split; simpl; [by rewrite Hs|].
      unfold disk_size. rewrite Hc. apply Hok.
    - simpl. split_and!; [done|by split_and!|done|].
      rewrite (dev_cache _ Hok) by done. congruence. }
  intros dev' (Hok' & Hf & Hs & Hdata). apply wp_bind. rewrite Hdata.
  eapply wp_mono; [apply (drain_sector_spec (disk_byte (driver dev)) (512 * sec) off n); [|unfold done_before; lia..]|].
  - intros i Hi. by apply sector_lookup.
  - intros [out o2]. simpl. intros ->. split_and!; try done. f_equal. f_equal. unfold done_before. lia.
Qed.

Lemma sector_range off n : 0 ≤ off → 0 < n → off + n < 2 ^ 64 →
  first_sector_number off = off `div` 512 ∧ last_sector_number off n = (off + n - 1) `div` 512.
Proof.
  intros. unfold first_sector_number, last_sector_number, BLOCK_DEVICE_READ_SIZE.
  split; [done|]. rewrite (wrap_small 64 (off + n)) by lia. rewrite wrap_small by lia. done.
Qed.

Lemma read_sectors_spec dev off n :
  dev_ok dev → 0 ≤ off → 0 < n → off + n ≤ disk_size (driver dev) →
  wp False (c_foreach (first_sector_number off) (last_sector_number off n + 1) (read_sector n) (dev, off `mod` 512, []))
    (λ '(dev', _, out), dev_ok dev' ∧ blk_frame dev dev' ∧ sector (driver dev') = sector (driver dev) ∧
      out = disk_byte (driver dev) <$> seqZ off n).
Proof.
  intros Hok Ho Hn Hsz. pose proof (dev_size _ Hok). unfold disk_size, BLOCK_DEVICE_READ_SIZE in *.
  destruct (sector_range off n) as [-> ->]; [lia..|].
  set (lo := off `div` 512). set (hi := (off + n - 1) `div` 512).
  assert (lo * 512 ≤ off < (lo + 1) * 512 ∧ hi * 512 < off + n ≤ (hi + 1) * 512 ∧ lo ≤ hi) as (Hlo & Hhi & Hle)
    by (subst lo hi; dlia).
  eapply wp_mono; [apply (wp_foreach False (λ j s, ∃ dev' o, s = (dev', o, disk_byte (driver dev) <$> seqZ off (done_before off n j)) ∧
     o = 0 `max` (off - j * 512) ∧ dev_ok dev' ∧ blk_frame dev dev' ∧ sector (driver dev') = sector (driver dev)));
     [lia| |]|].
  - exists dev, (off `mod` 512). split_and!; try done; [|subst lo; dlia].
    unfold done_before. rewrite Z.max_l by lia. done.
  - intros j s Hj (dev' & o & -> & Eo & Hok' & Hf & Hs).
    assert (disk_byte (driver dev) = disk_byte (driver dev')) as E by (unfold disk_byte; by rewrite Hs).
    rewrite E. eapply wp_mono; [apply (read_sector_spec n j off dev'); try done; try lia|].
    + destruct Hf as (_ & _ & ->). lia.
    + intros [[dev2 o2] out] (Hok2 & Hf2 & Hs2 & -> & ->). exists dev2, 0. split_and!; try done; [lia|..].
      * destruct Hf as (? & ? & ?), Hf2 as (? & ? & ?). split_and!; congruence.
      * congruence.
  - intros s (dev' & o & -> & _ & Hok' & Hf & Hs). split_and!; try done. f_equal. f_equal. unfold done_before. lia.
Qed.

Lemma fill_sector_spec (f : Z → Z) base off input n sec o k :
  Z.of_nat (length input) = n → Forall is_byte input →
  length sec = 512%nat → Forall is_byte sec →
  (∀ i, 0 ≤ i < 512 → sec !! Z.to_nat i = Some (overwrite f off k input (base + i))) →
  0 ≤ o ≤ 512 → 0 ≤ k ≤ n → off + k = base + o →
  wp False (fill_sector input n (sec, o, k))
    (λ '(sec', _, k'), k' = (base + 512 - off) `min` n ∧ length sec' = 512%nat ∧ Forall is_byte sec' ∧
      ∀ i, 0 ≤ i < 512 → sec' !! Z.to_nat i = Some (overwrite f off k' input (base + i))).
Proof.
  intros Hn Hib Hl Hb Hsec Ho Hk Hbase. unfold fill_sector, BLOCK_DEVICE_READ_SIZE.
  apply (wp_while False (λ s, Z.to_nat (512 - s.1.2)) (λ '(sec', o', k'), o' - o = k' - k ∧ k ≤ k' ≤ n ∧
    o' ≤ 512 ∧ length sec' = 512%nat ∧ Forall is_byte sec' ∧
    ∀ i, 0 ≤ i < 512 → sec' !! Z.to_nat i = Some (overwrite f off k' input (base + i)))).
  - split_and!; (done || lia).
  - simpl. lia.
  - intros [[sec' o'] k'] (E & Hk' & Ho' & Hl' & Hb' & Hs'). case_if.
    + apply wp_bind. destruct (arr_get_in_range input k') as (b & Eb & ->); [lia|]. simpl.
      rewrite arr_set_in_range by lia. simpl. split; [|lia]. split_and!; try lia.
      * by rewrite length_insert.
      * apply Forall_insert; [done|]. exact (Forall_lookup_1 _ _ _ _ Hib Eb).
      * intros i Hi. destruct (decide (i = o')) as [->|Hne].
        -- rewrite list_lookup_insert_eq by lia. unfold overwrite. rewrite decide_True by lia.
           replace (base + o' - off) with k' by lia. by rewrite Eb.
        -- rewrite list_lookup_insert_ne, Hs' by lia. f_equal. unfold overwrite.
           repeat case_decide; (done || lia).
    + simpl. split_and!; try done. apply andb_false_iff in Heqb as [?|?]; zbool; lia.
Qed.

Lemma write_sector_spec input n sec off dev o (f : Z → Z) :
  dev_ok dev → 0 ≤ sec < num_sectors (driver dev) → 0 ≤ off →
  Z.of_nat (length input) = n → Forall is_byte input →
  off < (sec + 1) * 512 → sec * 512 < off + n → o = 0 `max` (off - sec * 512) →
  (∀ a, disk_byte (driver dev) a = overwrite f off (done_before off n sec) input a) →
  wp False (write_sector input n sec (dev, o, done_before off n sec))
    (λ '(dev', o', k), dev_ok dev' ∧ blk_frame dev dev' ∧ o' = 0 ∧ k = done_before off n (sec + 1) ∧
      ∀ a, disk_byte (driver dev') a = overwrite f off k input a).
Proof.
  intros Hok Hsec Hoff Hn Hib Hlo Hhi -> Hf. unfold write_sector.
  apply wp_bind. eapply wp_mono; [by apply block_read_law|]. intros [content d'] (-> & Hs & Hc).
  apply wp_bind. eapply wp_mono; [apply (fill_sector_spec f (512 * sec) off)|];
    [done|done|apply sector_bytes|apply (sector_bytes (driver dev) sec)| |unfold done_before; lia..|].
  { intros i Hi. by rewrite sector_lookup, Hf. }
  intros [[sec' o2] k] (-> & Hl & Hb & Hsec'). apply wp_bind.
  eapply wp_mono; [apply block_write_law; [by rewrite Hc|done|done]|]. intros d2 [Hc2 Hs2]. simpl.
  split_and!; [split; simpl; [done|]|split_and!; simpl; congruence|done|unfold done_before; lia|].
  { unfold disk_size. rewrite Hc2, Hc. apply Hok. }
  intros a. unfold disk_byte at 1, BLOCK_DEVICE_READ_SIZE. rewrite Hs2. case_decide as Ha.
  - rewrite Hsec' by dlia. simpl. f_equal; dlia.
  - rewrite Hs. fold (disk_byte (driver dev) a). change 512 with BLOCK_DEVICE_READ_SIZE.
    fold (disk_byte (driver dev) a). rewrite Hf. unfold overwrite, done_before.
    assert (¬ (sec * 512 ≤ a < (sec + 1) * 512)) by dlia. unfold BLOCK_DEVICE_READ_SIZE.
    repeat case_decide; (done || lia).
Qed.

Lemma write_sectors_spec dev off input n :
  dev_ok dev → 0 ≤ off → 0 < n → Z.of_nat (length input) = n → Forall is_byte input →
  off + n ≤ disk_size (driver dev) →
  wp False (c_foreach (first_sector_number off) (last_sector_number off n + 1) (write_sector input n) (dev, off `mod` 512, 0))
    (λ '(dev', _, _), dev_ok dev' ∧ blk_frame dev dev' ∧
      ∀ a, disk_byte (driver dev') a = overwrite (disk_byte (driver dev)) off n input a).
Proof.
  intros Hok Ho Hn Hlen Hib Hsz. pose proof (dev_size _ Hok). unfold disk_size, BLOCK_DEVICE_READ_SIZE in *.
  destruct (sector_range off n) as [-> ->]; [lia..|].
  set (lo := off `div` 512). set (hi := (off + n - 1) `div` 512).
  assert (lo * 512 ≤ off < (lo + 1) * 512 ∧ hi * 512 < off + n ≤ (hi + 1) * 512 ∧ lo ≤ hi) as (Hlo & Hhi & Hle)
    by (subst lo hi; dlia).
  eapply wp_mono; [apply (wp_foreach False (λ j s, ∃ dev' o, s = (dev', o, done_before off n j) ∧
     o = 0 `max` (off - j * 512) ∧ dev_ok dev' ∧ blk_frame dev dev' ∧
     ∀ a, disk_byte (driver dev') a = overwrite (disk_byte (driver dev)) off (done_before off n j) input a));
     [lia| |]|].
  - exists dev, (off `mod` 512). split_and!; try done.
    + f_equal. unfold done_before. lia.
    + subst lo; dlia.
    + intros a. unfold overwrite, done_before. rewrite decide_False by lia. done.
  - intros j s Hj (dev' & o & -> & Eo & Hok' & Hf & Hs).
    eapply wp_mono; [apply (write_sector_spec input n j off dev' o (disk_byte (driver dev))); try done; try lia|].
    + destruct Hf as (_ & _ & ->). lia.
    + intros [[dev2 o2] k] (Hok2 & Hf2 & -> & -> & Hs2). exists dev2, 0. split_and!; try done; [lia|].
      destruct Hf as (? & ? & ?), Hf2 as (? & ? & ?). split_and!; congruence.
  - intros s (dev' & o & -> & _ & Hok' & Hf & Hs). split_and!; try done.
    assert (done_before off n (hi + 1) = n) as E by (unfold done_before; lia). by rewrite E in Hs.
Qed.
End bytes.

(** ** The operations on a state with several devices *)
Section files.
Context {D : Type} `{!BlockDriver D}.
Implicit Types (st : dev_state D).

Definition devs_ok st : Prop := Forall dev_ok (block_devices st).

(** [id] names partition [part] of the device [dev], the entry [i] of [block_devices]. *)
Definition names st (id : VNodeData) (i : Z) (dev : BlockDevice D) (part : BlockDevicePartition) : Prop :=
  get_block_device id st = Ok (i, part) ∧ 0 ≤ i ∧ block_devices st !! Z.to_nat i = Some dev ∧
  0 ≤ byte_offset part.

Lemma names_ok st id i dev part : devs_ok st → names st id i dev part → dev_ok dev.
Proof. intros Hok (_ & _ & E & _). by eapply Forall_lookup_1 in E. Qed.

Definition table_of (dev : BlockDevice D) := (num_partitions dev, partitions dev).

(** Looking up a device reads only the partition tables. *)
Lemma get_block_device_frame st st' id :
  next_free_block_device st' = next_free_block_device st →
  table_of <$> block_devices st' = table_of <$> block_devices st →
  get_block_device id st' = get_block_device id st.
Proof.
  intros En Et. unfold get_block_device. rewrite En.
  set (k := u16 (Z.land (Z.shiftr (inode id) 16) 0xFFFF)). clearbody k.
  assert (match arr_get (block_devices st') k, arr_get (block_devices st) k with
    | Ok b', Ok b => table_of b' = table_of b | Undef, Undef => True | _, _ => False end) as H.
  { unfold arr_get. case_if; [|done].
    apply (f_equal (λ l, l !! Z.to_nat k)) in Et. rewrite !list_lookup_fmap in Et.
    destruct (block_devices st' !! _), (block_devices st !! _); simpl in *; congruence || done. }
  destruct (arr_get (block_devices st') k), (arr_get (block_devices st) k); try done.
  destruct a, a0; unfold table_of in H; simpl in H. injection H as -> ->. done.
Qed.

Lemma set_device_frame st i dev dev' :
  0 ≤ i → block_devices st !! Z.to_nat i = Some dev → table_of dev' = table_of dev →
  set_device i dev' st = Ok (DevState (next_free_block_device st) (<[Z.to_nat i := dev']> (block_devices st))) ∧
  ∀ id, get_block_device id (DevState (next_free_block_device st) (<[Z.to_nat i := dev']> (block_devices st))) =
        get_block_device id st.
Proof.
  intros Hi E Ht. pose proof (lookup_lt_Some _ _ _ E). split.
  - unfold set_device. by rewrite arr_set_in_range by lia.
  - intros id. apply get_block_device_frame; [done|]. simpl. rewrite list_fmap_insert, Ht.
    apply list_insert_id. by rewrite list_lookup_fmap, E.
Qed.

Lemma blk_frame_table (dev dev' : BlockDevice D) : blk_frame dev dev' → table_of dev' = table_of dev.
Proof. intros (H1 & H2 & _). unfold table_of. congruence. Qed.

(** What an operation on the device named by [id] leaves in place. *)
Definition only_device (i : Z) st st' : Prop :=
  next_free_block_device st' = next_free_block_device st ∧
  (∀ id, get_block_device id st' = get_block_device id st) ∧
  ∀ j, j ≠ Z.to_nat i → block_devices st' !! j = block_devices st !! j.

(** Reading [num_bytes] bytes at an offset of a partition returns exactly those bytes of the disk, shifted by the start of the partition, whatever the sector cache held; no byte of any device changes and every cache stays coherent. *)
Lemma blockdev_read_file_spec st id i dev part offset num_bytes :
  devs_ok st → names st id i dev part →
  0 ≤ offset → 0 < num_bytes → byte_offset part + offset + num_bytes ≤ disk_size (driver dev) →
  wp False (blockdev_read_file id offset num_bytes st) (λ '(output_buf, r, st'),
    output_buf = disk_byte (driver dev) <$> seqZ (byte_offset part + offset) num_bytes ∧ r = num_bytes ∧
    devs_ok st' ∧ only_device i st st' ∧
    ∃ dev', names st' id i dev' part ∧ sector (driver dev') = sector (driver dev) ∧
      num_sectors (driver dev') = num_sectors (driver dev)).
Proof.
  intros Hok Hnm Ho Hn Hsz. pose proof (names_ok _ _ _ _ _ Hok Hnm) as Hd. pose proof (dev_size _ Hd).
  destruct Hnm as (Eg & Hi & Ed & Hp). unfold blockdev_read_file. rewrite Eg. simpl.
  rewrite (arr_get_lookup _ _ _ Hi Ed). simpl. rewrite wrap_small, (Z.add_comm offset) by lia.
  apply wp_bind. eapply wp_mono; [apply read_sectors_spec; (done || lia)|].
  intros [[dev' o'] out] (Hd' & Hf & Hs & ->).
  destruct (set_device_frame st i dev dev' Hi Ed (blk_frame_table _ _ Hf)) as [-> Hg].
  simpl. split_and!; try done.
  - by apply Forall_insert.
  - split_and!; [done|done|]. intros j Hj. simpl. by rewrite list_lookup_insert_ne.
  - exists dev'. split; [|split; [done|apply Hf]]. split; [by rewrite Hg|]. split_and!; [done| |done]. simpl.
    apply list_lookup_insert_eq. by eapply lookup_lt_Some.
Qed.

(** Writing bytes at an offset of a partition changes exactly those bytes of that disk, shifted by the start of the partition, and nothing else of any device; the cache is invalidated, so that later reads see the new bytes. *)
Lemma blockdev_write_file_spec st id i dev part offset input :
  devs_ok st → names st id i dev part →
  0 ≤ offset → input ≠ [] → Forall is_byte input →
  byte_offset part + offset + Z.of_nat (length input) ≤ disk_size (driver dev) →
  wp False (blockdev_write_file id offset input (Z.of_nat (length input)) st) (λ '(r, st'),
    r = Z.of_nat (length input) ∧ devs_ok st' ∧ only_device i st st' ∧
    ∃ dev', names st' id i dev' part ∧ num_sectors (driver dev') = num_sectors (driver dev) ∧
      ∀ a, disk_byte (driver dev') a =
        overwrite (disk_byte (driver dev)) (byte_offset part + offset) (Z.of_nat (length input)) input a).
Proof.
  intros Hok Hnm Ho Hne Hb Hsz. pose proof (names_ok _ _ _ _ _ Hok Hnm) as Hd. pose proof (dev_size _ Hd).
  assert (0 < length input)%nat by (destruct input; simpl; [done|lia]).
  destruct Hnm as (Eg & Hi & Ed & Hp). unfold blockdev_write_file. rewrite Eg. simpl.
  rewrite (arr_get_lookup _ _ _ Hi Ed). simpl. rewrite wrap_small, (Z.add_comm offset) by lia.
  apply wp_bind. eapply wp_mono; [apply write_sectors_spec; (done || lia)|].
  intros [[dev' o'] k] (Hd' & Hf & Hs).
  destruct (set_device_frame st i dev dev' Hi Ed (blk_frame_table _ _ Hf)) as [-> Hg].
  simpl. split_and!; try done.
  - by apply Forall_insert.
  - split_and!; [done|done|]. intros j Hj. simpl. by rewrite list_lookup_insert_ne.
  - exists dev'. split; [|split; [apply Hf|done]]. split; [by rewrite Hg|]. split_and!; [done| |done]. simpl.
    apply list_lookup_insert_eq. by eapply lookup_lt_Some.
Qed.
End files.

(** ** The partition table *)
Ltac mbr_eval :=
  lazy -[wrap lba_partition_start partition_sector_count Z.eqb];
  repeat match goal with H : (_ =? _) = _ |- _ => rewrite !H; clear H end; reflexivity.

Section mbr.
Context {D : Type} `{!BlockDriver D}.
Implicit Types (st : dev_state D).

(** the entries of the table before the first empty one *)
Fixpoint used_entries (mbr : list Z) (l : list Z) : list Z :=
  match l with
  | [] => []
  | i :: l => if partition_sector_count mbr i =? 0 then [] else i :: used_entries mbr l
  end.

Definition mbr_partition (mbr : list Z) (i : Z) : BlockDevicePartition :=
  Partition (u32 (lba_partition_start mbr i * 512)) (u32 (partition_sector_count mbr i * 512)).

Definition mbr_partitions (mbr : list Z) : list BlockDevicePartition :=
  if mbr_signature mbr =? 0xAA55 then mbr_partition mbr <$> used_entries mbr [0; 1; 2; 3] else [].

Lemma read_mbr_partitions_spec mbr :
  read_mbr_partitions mbr (1, replicate 9 (Partition 0 0)) =
    let ps := mbr_partition mbr <$> used_entries mbr [0; 1; 2; 3] in
    Ok (1 + Z.of_nat (length ps), Partition 0 0 :: ps ++ replicate (8 - length ps) (Partition 0 0)).
Proof.
  unfold read_mbr_partitions, c_for, mbr_partition. change (Z.to_nat (4 - 0)) with 4%nat.
  unfold used_entries.
  destruct (partition_sector_count mbr 0 =? 0) eqn:E0; [mbr_eval|].
  destruct (partition_sector_count mbr 1 =? 0) eqn:E1; [mbr_eval|].
  destruct (partition_sector_count mbr 2 =? 0) eqn:E2; [mbr_eval|].
  destruct (partition_sector_count mbr 3 =? 0) eqn:E3; mbr_eval.
Qed.

Lemma add_block_device_wp d cache_data st :
  next_free_block_device st = Z.of_nat (length (block_devices st)) → next_free_block_device st < MAX_BLOCK_DEVICES →
  0 < num_sectors d → disk_size d < 2 ^ 64 →
  let ps := mbr_partitions (sector d 0) in
  wp False (fs_dev_add_block_device d cache_data st) (λ st', ∃ dev,
    block_devices st' = block_devices st ++ [dev] ∧
    next_free_block_device st' = Z.of_nat (length (block_devices st')) ∧
    sector (driver dev) = sector d ∧ num_sectors (driver dev) = num_sectors d ∧ dev_ok dev ∧
    num_partitions dev = 1 + Z.of_nat (length ps) ∧ ∃ z, partitions dev = Partition 0 0 :: ps ++ z).
Proof.
  intros Hn Hlt Hs Hsz ps. unfold fs_dev_add_block_device, hcf_if.
  replace (next_free_block_device st =? MAX_BLOCK_DEVICES) with false by lia. simpl.
  apply wp_bind. eapply wp_mono; [apply block_read_law; lia|]. intros [mbr d'] (-> & Hd & Hc).
  change (Z.to_nat MAX_PARTITIONS) with 9%nat.
  apply wp_bind. apply (wp_mono _ _ (λ '(n, l), n = 1 + Z.of_nat (length ps) ∧ ∃ z, l = Partition 0 0 :: ps ++ z)).
  { unfold ps, mbr_partitions. case_if.
    - rewrite read_mbr_partitions_spec. simpl. eauto.
    - simpl. split; [done|]. by exists (replicate 8 (Partition 0 0)). }
  intros [n l] [-> [z ->]]. simpl. eexists. split; [done|]. split_and!; simpl; try done; [| |by exists z].
  - rewrite length_app. simpl. lia.
  - split; simpl; [done|]. unfold disk_size. by rewrite Hc.
Qed.

(** adding a block device registers it under the next number with an invalid cache; partition 0 is the whole disk, and, when sector 0 carries the boot signature, the following ones are the entries of its partition table up to the first empty one. The start of a partition is computed in 32 bits, so it is the address of its first sector only when that sector lies in the first 4 GiB. *)
Theorem fs_dev_add_block_device_spec d cache_data st :
  next_free_block_device st = Z.of_nat (length (block_devices st)) → next_free_block_device st < MAX_BLOCK_DEVICES →
  0 < num_sectors d → disk_size d < 2 ^ 64 →
  let ps := mbr_partitions (sector d 0) in
  wp False (fs_dev_add_block_device d cache_data st) (λ st', ∃ dev,
    block_devices st' = block_devices st ++ [dev] ∧
    next_free_block_device st' = Z.of_nat (length (block_devices st')) ∧
    sector (driver dev) = sector d ∧ dev_ok dev ∧ num_partitions dev = 1 + Z.of_nat (length ps) ∧
    partitions dev !! 0%nat = Some (Partition 0 0) ∧
    (∀ k p, ps !! k = Some p → partitions dev !! S k = Some p) ∧
    ∀ i, 0 ≤ lba_partition_start (sector d 0) i →
      (byte_offset (mbr_partition (sector d 0) i) = lba_partition_start (sector d 0) i * 512 ↔
       lba_partition_start (sector d 0) i * 512 < 2 ^ 32)).
Proof.
  intros Hn Hlt Hs Hsz ps. eapply wp_mono; [by apply add_block_device_wp|].
  intros st' (dev & Hb & Hnx & Hsec & _ & Hok & Hnp & z & Hz). exists dev. rewrite Hz. split_and!; try done.
  - intros k p E. by apply lookup_app_l_Some.
  - intros i Hi. split; intros H.
    + rewrite <-H. apply wrap_range. lia.
    + apply wrap_small. lia.
Qed.
End mbr.

(** ** Listing /dev *)
Section dirents.
Context {D : Type} `{!BlockDriver D}.
Implicit Types (st : dev_state D).

Definition device_dirents (dev_num : Z) (dev : BlockDevice D) : list (dirent * VNode) :=
  blk_dirent dev_num <$> seqZ 0 (num_partitions dev).

(** every entry of /dev, from device [n] on *)
Fixpoint all_dirents (n : Z) (l : list (BlockDevice D)) : list (dirent * VNode) :=
  match l with [] => [] | dev :: l => device_dirents n dev ++ all_dirents (n + 1) l end.

Definition page {A} (index count : Z) (l : list A) : list A := take (Z.to_nat count) (drop (Z.to_nat index) l).

(** the state of the scan after the entries [pre] *)
Definition scan_at {A} (index count : Z) (pre : list A) (s : Z * list A) : Prop :=
  s = (0 `max` (index - Z.of_nat (length pre)), page index count pre).

Lemma scan_at_step {A} index count (pre : list A) x i bufs :
  0 ≤ index → 0 ≤ count → scan_at index count pre (i, bufs) →
  if negb (i =? 0) then scan_at index count (pre ++ [x]) (i - 1, bufs)
  else if Z.of_nat (length bufs) =? count then ∀ l, page index count (pre ++ l) = bufs
  else scan_at index count (pre ++ [x]) (i, bufs ++ [x]).
Proof.
  intros Hi Hc [= -> ->]. unfold scan_at, page. rewrite length_app. simpl. repeat case_if.
  - rewrite !drop_ge by (rewrite ?length_app; simpl; lia). rewrite !take_nil. f_equal. lia.
  - intros l. rewrite length_take, length_drop in *. rewrite drop_app_le by lia.
    rewrite take_app_le; [done|]. rewrite length_drop. lia.
  - rewrite length_take, length_drop in *. rewrite drop_app_le by lia.
    rewrite !(take_ge (drop _ pre)) by (rewrite length_drop; lia).
    rewrite take_ge; [f_equal; lia|]. rewrite length_app, length_drop. simpl. lia.
Qed.

(** listing /dev from an index returns exactly that page of the list of all devices and partitions, in order, and the number of entries in it; so pages of any size put together give the whole list. *)
Theorem devroot_read_dirents_spec st index count :
  next_free_block_device st = Z.of_nat (length (block_devices st)) →
  Forall (λ dev, 0 ≤ num_partitions dev) (block_devices st) → 0 ≤ index → 0 ≤ count →
  devroot_read_dirents (VNodeId DEV_ROOT_DIR_INODE_NUM 0) index count st =
    let bufs := page index count (all_dirents 0 (block_devices st)) in Ok (bufs, Z.of_nat (length bufs)).
Proof.
  intros Hn Hparts Hi Hc. set (all := all_dirents 0 (block_devices st)). unfold devroot_read_dirents. simpl.
  match goal with |- ?o = _ => assert (wp False o (λ r, r = (page index count all, Z.of_nat (length (page index count all))))) as H end.
  2: { apply wp_total in H as (? & -> & ->). done. }
  apply wp_bind. rewrite Hn.
  eapply wp_mono; [apply (wp_for False
    (λ j s, ∃ pre, all = pre ++ all_dirents j (drop (Z.to_nat j) (block_devices st)) ∧ scan_at index count pre s)
    (λ r, r = (page index count all, Z.of_nat (length (page index count all)))))|]; [lia| | |].
  - exists []. split; [done|]. unfold scan_at, page. rewrite drop_nil, take_nil. simpl. f_equal. lia.
  - intros dev_num s Hj (pre & Hall & Hs).
    destruct (arr_get_in_range (block_devices st) dev_num) as (blk & Eblk & ->); [lia|]. simpl.
    eapply Forall_lookup_1 in Hparts; [|exact Eblk].
    rewrite (drop_S _ _ _ Eblk) in Hall. simpl in Hall. unfold device_dirents in Hall.
    replace (S (Z.to_nat dev_num)) with (Z.to_nat (dev_num + 1)) in Hall by lia.
    eapply wp_mono; [apply (wp_for False
      (λ p s, scan_at index count (pre ++ (blk_dirent dev_num <$> seqZ 0 p)) s)
      (λ r, r = (page index count all, Z.of_nat (length (page index count all)))))|]; [lia| | |].
    + by rewrite app_nil_r.
    + intros p [i bufs] Hp Hat. pose proof (scan_at_step _ _ _ (blk_dirent dev_num p) _ _ Hi Hc Hat) as Hstep.
      repeat case_if; simpl.
      * rewrite seqZ_snoc, fmap_app, app_assoc by lia. done.
      * specialize (Hstep ((blk_dirent dev_num <$> seqZ p (num_partitions blk - p)) ++
          all_dirents (dev_num + 1) (drop (Z.to_nat (dev_num + 1)) (block_devices st)))).
        assert (page index count all = bufs) as ->; [|by rewrite Heqb0]. rewrite <-Hstep, Hall. f_equal.
        rewrite <-!app_assoc. f_equal. rewrite app_assoc, <-fmap_app. f_equal. f_equal.
        replace (num_partitions blk) with (p + (num_partitions blk - p)) at 1 by lia. by rewrite seqZ_app by lia.
      * rewrite seqZ_snoc, fmap_app, app_assoc by lia. done.
    + intros [s'|r]; [|done]. intros Hat. eexists. split; [|exact Hat]. by rewrite Hall, app_assoc.
  - intros [[i bufs]|r]; simpl; [|by intros ->]. intros (pre & Hall & [= -> ->]).
    rewrite drop_ge in Hall by lia. simpl in Hall. rewrite app_nil_r in Hall. by subst pre.
Qed.
End dirents.

(** ** A partition is a byte-addressed file *)
Section file_device.
Context {D : Type} `{!BlockDriver D}.
Implicit Types (st : dev_state D).

Definition partition_of st (id : VNodeData) : option (BlockDevice D * BlockDevicePartition) :=
  match get_block_device id st with
  | Ok (i, part) => dev ← block_devices st !! Z.to_nat i; Some (dev, part)
  | _ => None
  end.

Definition partition_byte st id (a : Z) : Z :=
  match partition_of st id with
  | Some (dev, part) => disk_byte (driver dev) (byte_offset part + a)
  | None => 0
  end.

Definition partition_size st id : Z :=
  match partition_of st id with
  | Some (dev, part) => disk_size (driver dev) - byte_offset part
  | None => 0
  end.

Lemma names_partition st id i dev part : names st id i dev part → partition_of st id = Some (dev, part).
Proof. intros (E & _ & E2 & _). unfold partition_of. rewrite E. simpl. by rewrite E2. Qed.

#[global, refine] Instance blockdev_file : FileDevice (dev_state D) := {
  fread id off n st := '(buf, _, st) ← blockdev_read_file id off n st; Ok (buf, st);
  fwrite id off l st := '(_, st) ← blockdev_write_file id off l (Z.of_nat (length l)) st; Ok st;
  fbyte := partition_byte;
  fsize := partition_size;
  fok st id := devs_ok st ∧ ∃ i dev part, names st id i dev part;
}.
Proof.
  - intros st id off n [Hok (i & dev & part & Hn)] Ho Hpos. unfold partition_size.
    rewrite (names_partition _ _ _ _ _ Hn). intros Hsz. apply wp_bind.
    eapply wp_mono; [eapply blockdev_read_file_spec; try done; lia|].
    intros [[buf r] st'] (-> & -> & Hok' & Hst & dev' & Hn' & Hs & Hc). simpl.
    unfold partition_byte. rewrite (names_partition _ _ _ _ _ Hn), (names_partition _ _ _ _ _ Hn').
    split_and!; [|done|eauto|unfold disk_size; by rewrite Hc|intros; unfold disk_byte; by rewrite Hs].
    apply list_eq. intros k. rewrite !list_lookup_fmap. destruct (decide (Z.of_nat k < n)).
    + rewrite !lookup_seqZ_lt by lia. simpl. f_equal. f_equal. lia.
    + rewrite !lookup_seqZ_ge by lia. done.
  - intros st id off l [Hok (i & dev & part & Hn)] Ho Hne Hb. unfold partition_size.
    rewrite (names_partition _ _ _ _ _ Hn). intros Hsz. apply wp_bind.
    eapply wp_mono; [eapply blockdev_write_file_spec; try done; lia|].
    intros [r st'] (_ & Hok' & Hst & dev' & Hn' & Hc & Hs). simpl.
    unfold partition_byte. rewrite (names_partition _ _ _ _ _ Hn), (names_partition _ _ _ _ _ Hn').
    split_and!; [done|eauto|unfold disk_size; by rewrite Hc|]. intros a Ha.
    rewrite Hs. unfold overwrite. destruct (decide (off ≤ a < off + Z.of_nat (length l))).
    + rewrite decide_True by lia. do 3 f_equal. lia.
    + by rewrite decide_False by lia.
  - intros st id a [_ (i & dev & part & Hn)] _. unfold partition_byte.
    rewrite (names_partition _ _ _ _ _ Hn). apply disk_byte_range.
Defined.
End file_device.

(** ** Witnesses: a disk held in memory *)
Module BlockDevExamples.
Definition good_sector (l : list Z) : Prop := length l = 512%nat ∧ Forall is_byte l.
#[export] Instance good_sector_dec l : Decision (good_sector l).
Proof. unfold good_sector, is_byte. apply _. Defined.

(** any other content reads as zeros *)
Definition as_sector (o : option (list Z)) : list Z :=
  match o with Some l => if decide (good_sector l) then l else replicate 512 0 | None => replicate 512 0 end.

Lemma as_sector_good o : good_sector (as_sector o).
Proof.
  assert (good_sector (replicate 512 0)) by (split; [done|by apply Forall_replicate]).
  unfold as_sector. destruct o; [case_decide|]; done.
Qed.

#[export, refine] Instance ram_driver : BlockDriver (gmap Z (list Z)) := {
  block_read s d := if (0 <=? s) && (s <? 512) then Ok (as_sector (d !! s), d) else Halt;
  block_write s l d := if (0 <=? s) && (s <? 512) then Ok (<[s := l]> d) else Halt;
  sector d s := as_sector (d !! s);
  num_sectors d := 512;
}.
Proof.
  - intros d s. apply as_sector_good.
  - intros d s Hs. by replace ((0 <=? s) && (s <? 512)) with true by lia.
  - intros d s l Hs Hl Hb. replace ((0 <=? s) && (s <? 512)) with true by lia. simpl. split; [done|].
    intros s'. case_decide as E; [subst|by rewrite lookup_insert_ne].
    rewrite lookup_insert_eq. unfold as_sector. by rewrite decide_True.
Defined.

(** sector 0 with a partition table of one entry: 3 sectors from sector 2 on *)
Definition mbr_ex : list Z :=
  replicate 446 0 ++ [0; 0; 0; 0; 6; 0; 0; 0; 2; 0; 0; 0; 3; 0; 0; 0] ++ replicate 48 0 ++ [0x55; 0xAA].
Definition disk_ex : gmap Z (list Z) := {[0 := mbr_ex]}.
Definition empty_ex : dev_state (gmap Z (list Z)) := DevState 0 [].
(** the state after the disk has been added *)
Definition dev_ex : BlockDevice (gmap Z (list Z)) :=
  MkDevice disk_ex (MkCache [] 0 false) 2 (Partition 0 0 :: Partition 1024 1536 :: replicate 7 (Partition 0 0)).
Definition st_ex : dev_state (gmap Z (list Z)) := DevState 1 [dev_ex].
(** partition 1 of device 0 *)
Definition part_ex : VNodeData := VNodeId 1 0.

Example add_ex : fs_dev_add_block_device disk_ex [] empty_ex = Ok st_ex.
Proof. vm_compute. reflexivity. Qed.

Lemma dev_ex_ok : dev_ok dev_ex.
Proof. by split. Qed.

Lemma st_ex_ok : devs_ok st_ex.
Proof. constructor; [exact dev_ex_ok|constructor]. Qed.

Lemma st_ex_names : names st_ex part_ex 0 dev_ex (Partition 1024 1536).
Proof. split_and!; [vm_compute; reflexivity|done..]. Qed.

Lemma fs_dev_add_block_device_spec_witness :
  ∃ st' dev, fs_dev_add_block_device disk_ex [] empty_ex = Ok st' ∧ block_devices st' = [dev] ∧ num_partitions dev = 2.
Proof.
  destruct (wp_total_1 _ _ (fs_dev_add_block_device_spec disk_ex [] empty_ex
    ltac:(done) ltac:(done) ltac:(done) ltac:(done))) as (st' & E & dev & Hb & _ & _ & _ & Hn & _).
  exists st', dev. split; [exact E|]. split; [exact Hb|]. rewrite Hn. vm_compute. reflexivity.
Defined.

Lemma devroot_read_dirents_spec_witness :
  devroot_read_dirents (VNodeId DEV_ROOT_DIR_INODE_NUM 0) 1 5 st_ex = Ok ([blk_dirent 0 1], 1).
Proof.
  exact (devroot_read_dirents_spec st_ex 1 5 ltac:(done) ltac:(by repeat constructor) ltac:(done) ltac:(done)).
Defined.
End BlockDevExamples.
