(* ===== verification/FatVolume.v ===== *)
(** * The FAT16 volume: stuos/src/fs_fat.c, the allocation table and cluster chains

    The functions act on the device the volume is mounted on through the
    contract [FileDevice]; nothing else of it is used. *)
From S2P Require Import Prelude Bytes Vfs.

Record Fat16Volume := MkVolume {
  block_device : VNode;
  fats_start_sector : Z;
  number_of_fats : Z;
  number_of_sectors_per_fat : Z;
  bytes_per_sector : Z;
  sectors_per_cluster : Z;
  number_of_sectors_root_directory : Z
}.

Definition SIZEOF_DIRECTORY_ENTRY : Z := 32.

Definition is_invalid_cluster_num (n : Z) : bool := (n <? 2) || (0xFFF7 <=? n).
Definition is_free_cluster_num (n : Z) : bool := n <? 2.
Definition is_end_of_ll_num (n : Z) : bool := 0xFFF8 <=? n.

(** [vol->bytes_per_sector * vol->sectors_per_cluster] *)
Definition bytes_per_cluster (vol : Fat16Volume) : Z := bytes_per_sector vol * sectors_per_cluster vol.

Definition calculate_data_section_start (vol : Fat16Volume) : outcome Z :=
  let sector := u16 (fats_start_sector vol + number_of_fats vol * number_of_sectors_per_fat vol
                     + number_of_sectors_root_directory vol) in
  c_int (sector * bytes_per_sector vol).

(** [vol->fats_start_sector*vol->bytes_per_sector + 2*cluster_number] *)
Definition fat_entry_address (vol : Fat16Volume) (cluster_number : Z) : outcome Z :=
  start ← c_int (fats_start_sector vol * bytes_per_sector vol);
  c_int (start + 2 * cluster_number).

(** [(vol->fats_start_sector + vol->number_of_sectors_per_fat*vol->number_of_fats) * vol->bytes_per_sector] *)
Definition root_dir_start_byte (vol : Fat16Volume) : outcome Z :=
  c_int ((fats_start_sector vol + number_of_sectors_per_fat vol * number_of_fats vol) * bytes_per_sector vol).

Section volume.
Context {W : Type} `{!FileDevice W}.

(** [vol->block_device.read_file(vol->block_device.id, offset, buf, n)] and [write_file] *)
Definition dev_read (vol : Fat16Volume) (offset n : Z) : io W (list Z) :=
  fread (id (block_device vol)) offset n.
Definition dev_write (vol : Fat16Volume) (offset : Z) (input_buf : list Z) : io W () := λ w,
  w ← fwrite (id (block_device vol)) offset input_buf w; Ok ((), w).

Definition read_fat (vol : Fat16Volume) (cluster_number : Z) : io W Z :=
  _ ← lift (hcf_if (is_invalid_cluster_num cluster_number));
  a ← lift (fat_entry_address vol cluster_number);
  fat_data ← dev_read vol a 2;
  mret (le_val fat_data).

Definition write_fat (vol : Fat16Volume) (cluster_number value : Z) : io W () :=
  _ ← lift (hcf_if (is_invalid_cluster_num cluster_number));
  a ← lift (fat_entry_address vol cluster_number);
  dev_write vol a (le_bytes 2 value).

Definition find_free_cluster_number (vol : Fat16Volume) : io W Z :=
  fat_size ← lift (c_int (number_of_sectors_per_fat vol * bytes_per_sector vol));
  let num_clusters := u16 (fat_size `div` 2) in
  r ← io_for 2 num_clusters (λ i (_ : ()),
        entry ← read_fat vol i;
        mret (if is_free_cluster_num entry then inr i else inl ())) ();
  match r with inl _ => lift Halt | inr i => mret i end.

(** the checks and the address shared by [read_from_root_dir] and [write_to_root_dir] *)
Definition root_dir_address (vol : Fat16Volume) (requested_offset num_bytes : Z) : outcome Z :=
  _ ← hcf_if (negb (requested_offset `mod` SIZEOF_DIRECTORY_ENTRY =? 0));
  _ ← hcf_if (negb (num_bytes `mod` SIZEOF_DIRECTORY_ENTRY =? 0));
  start ← root_dir_start_byte vol;
  size ← c_int (number_of_sectors_root_directory vol * bytes_per_sector vol);
  _ ← hcf_if (u64 size <=? u64 (requested_offset + num_bytes));
  mret (u64 (start + requested_offset)).

Definition write_to_root_dir (vol : Fat16Volume) (requested_offset : Z) (input_buf : list Z) : io W () :=
  a ← lift (root_dir_address vol requested_offset (Z.of_nat (length input_buf)));
  dev_write vol a input_buf.

Definition read_from_root_dir (vol : Fat16Volume) (requested_offset num_bytes : Z) : io W (list Z) :=
  a ← lift (root_dir_address vol requested_offset num_bytes);
  dev_read vol a num_bytes.

(** The address and the number of bytes of the [i]-th cluster of a chain that
    the request covers, once [i] has reached the first one. *)
Definition cluster_chunk (vol : Fat16Volume) (i cluster_number requested_offset num_bytes : Z) : outcome (Z * Z) :=
  let bpc := bytes_per_cluster vol in
  let required_cluster_number := requested_offset `div` bpc in
  let required_offset_in_first_cluster := requested_offset `mod` bpc in
  start ← calculate_data_section_start vol;
  let src_addr := u64 (start + bpc * (cluster_number - 2)) in
  let '(src_addr, available) :=
    if i =? required_cluster_number
    then (u64 (src_addr + required_offset_in_first_cluster), bpc - required_offset_in_first_cluster)
    else (src_addr, bpc) in
  Ok (src_addr, if available <? num_bytes then available else num_bytes).

(** enough iterations: each one skips a cluster or moves at least one byte *)
Definition chain_fuel (vol : Fat16Volume) (requested_offset num_bytes : Z) : nat :=
  S (Z.to_nat (requested_offset `div` bytes_per_cluster vol + num_bytes)).

(** [next_cluster_number] of the loop of write_to_cluster_chain: follow the table, growing the chain at its end *)
Definition next_or_allocate (vol : Fat16Volume) (cluster_number : Z) : io W Z :=
  next_cluster_number ← read_fat vol cluster_number;
  if is_end_of_ll_num next_cluster_number then
    next_cluster_number ← find_free_cluster_number vol;
    _ ← write_fat vol next_cluster_number 0xFFF8;
    _ ← write_fat vol cluster_number next_cluster_number;
    mret next_cluster_number
  else mret next_cluster_number.

(** one turn of the loop of write_to_cluster_chain, on [i], [cluster_number] and what is left of [input_buf] *)
Definition write_chain_step (vol : Fat16Volume) (requested_offset : Z) (s : Z * Z * list Z)
    : io W (Z * Z * list Z + ()) :=
  let '(i, cluster_number, input_buf) := s in
  if Z.of_nat (length input_buf) =? 0 then mret (inr ())
  else
    input_buf ←
      (if requested_offset `div` bytes_per_cluster vol <=? i then
         '(src_addr, n) ← lift (cluster_chunk vol i cluster_number requested_offset (Z.of_nat (length input_buf)));
         _ ← dev_write vol src_addr (take (Z.to_nat n) input_buf);
         mret (drop (Z.to_nat n) input_buf)
       else mret input_buf);
    next ← next_or_allocate vol cluster_number;
    mret (inl (i + 1, next, input_buf)).

Definition write_to_cluster_chain (vol : Fat16Volume) (cluster_number requested_offset : Z) (input_buf : list Z)
    : io W () :=
  _ ← lift (if bytes_per_cluster vol =? 0 then Undef else Ok ());
  _ ← lift (hcf_if (is_invalid_cluster_num cluster_number));
  io_while (chain_fuel vol requested_offset (Z.of_nat (length input_buf)))
    (write_chain_step vol requested_offset) (0, cluster_number, input_buf).

(** one turn of the loop of read_from_cluster_chain, on [i], [cluster_number], the bytes stored and [num_bytes] *)
Definition read_chain_step (vol : Fat16Volume) (requested_offset : Z) (s : Z * Z * list Z * Z)
    : io W (Z * Z * list Z * Z + list Z) :=
  let '(i, cluster_number, output_buf, num_bytes) := s in
  if num_bytes =? 0 then mret (inr output_buf)
  else
    '(output_buf, num_bytes) ←
      (if requested_offset `div` bytes_per_cluster vol <=? i then
         '(src_addr, n) ← lift (cluster_chunk vol i cluster_number requested_offset num_bytes);
         chunk ← dev_read vol src_addr n;
         mret (output_buf ++ chunk, num_bytes - n)
       else mret (output_buf, num_bytes));
    next ← read_fat vol cluster_number;
    mret (inl (i + 1, next, output_buf, num_bytes)).

(** the bytes stored in [output_buf] *)
Definition read_from_cluster_chain (vol : Fat16Volume) (cluster_number requested_offset num_bytes : Z)
    : io W (list Z) :=
  _ ← lift (if bytes_per_cluster vol =? 0 then Undef else Ok ());
  if num_bytes =? 0 then mret []
  else
    _ ← lift (hcf_if (is_invalid_cluster_num cluster_number));
    io_while (chain_fuel vol requested_offset num_bytes) (read_chain_step vol requested_offset)
      (0, cluster_number, [], num_bytes).
End volume.
