(* ===== verification/FatChain.v ===== *)
(** * The cluster chains of a FAT16 volume: what the functions of FatVolume.v do

    The content of the device is an image, a function from addresses to bytes;
    [dev_is w f] says that the device holds the image [f].  A file is a list of
    clusters linked by the table, and the byte [k] of the file is at [pos l k]. *)
From S2P Require Import Prelude Bytes Vfs FatVolume.

Section chain.
Context {W : Type} `{!FileDevice W} (vol : Fat16Volume) (size : Z).
Implicit Types (w : W) (f : Z → Z) (l : list Z) (c : Z).

Definition fat_start : Z := fats_start_sector vol * bytes_per_sector vol.
Definition nclusters : Z := (number_of_sectors_per_fat vol * bytes_per_sector vol) `div` 2.
Definition root_start : Z :=
  (fats_start_sector vol + number_of_sectors_per_fat vol * number_of_fats vol) * bytes_per_sector vol.
Definition root_size : Z := number_of_sectors_root_directory vol * bytes_per_sector vol.
Definition data_start : Z := root_start + root_size.

(** A volume whose regions fit the device and the widths the driver computes with. *)
Record layout_ok : Prop := {
  lay_bps : 0 < bytes_per_sector vol;
  lay_spc : 0 < sectors_per_cluster vol;
  lay_fss : 0 ≤ fats_start_sector vol;
  lay_spf : 0 ≤ number_of_sectors_per_fat vol;
  lay_nf : 1 ≤ number_of_fats vol;
  lay_nr : 0 ≤ number_of_sectors_root_directory vol;
  lay_sector : fats_start_sector vol + number_of_fats vol * number_of_sectors_per_fat vol
                + number_of_sectors_root_directory vol < 2 ^ 16;
  lay_clusters : 2 ≤ nclusters < 2 ^ 16;
  lay_data : data_start < 2 ^ 31;
  lay_size : data_start + bytes_per_cluster vol * (nclusters - 2) ≤ size;
  lay_top : size < 2 ^ 63;
}.
Context (Hlay : layout_ok).

Definition dev_is w f : Prop :=
  fok w (id (block_device vol)) ∧ fsize w (id (block_device vol)) = size ∧
  ∀ a, 0 ≤ a < size → fbyte w (id (block_device vol)) a = f a.

(** an allocatable cluster *)
Definition valid c : Prop := 2 ≤ c < nclusters ∧ c < 0xFFF7.

Definition fat f c : Z := f (fat_start + 2 * c) + 256 * f (fat_start + 2 * c + 1).
Definition set_fat f c (v : Z) : Z → Z := overwrite f (fat_start + 2 * c) 2 (le_bytes 2 v).

Definition bpc : Z := bytes_per_cluster vol.
Definition cluster_addr c : Z := data_start + bpc * (c - 2).

(** the clusters [l] are linked in this order, and the last one ends the chain *)
Fixpoint chain f l : Prop :=
  match l with
  | [] => False
  | c :: l' => valid c ∧ match l' with [] => 0xFFF8 ≤ fat f c | c' :: _ => fat f c = c' ∧ chain f l' end
  end.

Definition pos l (k : Z) : Z := cluster_addr (default 0 (l !! Z.to_nat (k `div` bpc))) + k `mod` bpc.

Lemma bpc_pos : 0 < bpc.
Proof. unfold bpc, bytes_per_cluster. pose proof (lay_bps Hlay). pose proof (lay_spc Hlay). nia. Qed.

Lemma fat_region : 0 ≤ fat_start ∧ fat_start + 2 * nclusters ≤ root_start ∧ root_start ≤ data_start.
Proof.
  destruct Hlay. unfold data_start, fat_start, root_start, nclusters, root_size in *.
  set (p := number_of_sectors_per_fat vol * bytes_per_sector vol) in *.
  assert (2 * (p `div` 2) ≤ p) by (Z.to_euclidean_division_equations; lia).
  assert (p * 1 ≤ p * number_of_fats vol) by (apply Z.mul_le_mono_nonneg_l; nia).
  split; [nia|]. split; [|nia].
  replace (number_of_sectors_per_fat vol * number_of_fats vol) with (number_of_fats vol * number_of_sectors_per_fat vol) by lia.
  rewrite Z.mul_add_distr_r. replace (number_of_fats vol * number_of_sectors_per_fat vol * bytes_per_sector vol)
    with (p * number_of_fats vol) by (unfold p; ring). lia.
Qed.

Lemma data_start_nonneg : 0 ≤ data_start.
Proof.
  pose proof fat_region. destruct Hlay. assert (0 ≤ nclusters); [|lia]. apply Z.div_pos; [nia|lia].
Qed.

Lemma cluster_addr_range c :
  valid c → data_start ≤ cluster_addr c ∧ cluster_addr c + bpc ≤ size.
Proof.
  intros [Hc _]. pose proof bpc_pos. pose proof (lay_size Hlay). unfold cluster_addr. fold bpc in *. nia.
Qed.

Lemma cluster_addr_disjoint c c' r r' :
  c ≠ c' → 0 ≤ r < bpc → 0 ≤ r' < bpc → cluster_addr c + r ≠ cluster_addr c' + r'.
Proof. intros Hne Hr Hr'. unfold cluster_addr. nia. Qed.

(** *** Device accesses on images *)
Lemma dev_is_ext w f g : dev_is w f → (∀ a, 0 ≤ a < size → f a = g a) → dev_is w g.
Proof. intros (? & ? & H) Hfg. split_and!; [done..|]. intros a Ha. by rewrite H, Hfg. Qed.

Lemma dev_read_spec w f off n :
  dev_is w f → 0 ≤ off → 0 < n → off + n ≤ size →
  wp False (dev_read vol off n w) (λ '(l, w'), l = f <$> seqZ off n ∧ dev_is w' f).
Proof.
  intros (Hok & Hs & Hf) Ho Hn Hsz. unfold dev_read.
  eapply wp_mono; [apply fread_law; (done || lia)|]. intros [l w'] (-> & Hok' & Hs' & Hf'). split.
  - apply list_eq. intros k. rewrite !list_lookup_fmap. destruct (decide (Z.of_nat k < n)).
    + rewrite !lookup_seqZ_lt by lia. simpl. rewrite Hf by lia. done.
    + rewrite !lookup_seqZ_ge by lia. done.
  - split_and!; [done|by rewrite Hs'|]. intros a Ha. rewrite Hf', Hf by lia. done.
Qed.

Lemma dev_write_spec w f off l :
  dev_is w f → 0 ≤ off → l ≠ [] → Forall is_byte l → off + Z.of_nat (length l) ≤ size →
  wp False (dev_write vol off l w) (λ '(_, w'), dev_is w' (overwrite f off (Z.of_nat (length l)) l)).
Proof.
  intros (Hok & Hs & Hf) Ho Hne Hb Hsz. unfold dev_write. apply wp_bind.
  eapply wp_mono; [apply fwrite_law; (done || lia)|]. intros w' (Hok' & Hs' & Hf').
  simpl. split_and!; [done|by rewrite Hs'|]. intros a Ha. rewrite Hf' by lia. unfold overwrite.
  case_decide; [done|]. apply Hf. lia.
Qed.

Lemma fat_address_spec H c (Q : Z → Prop) :
  valid c → Q (fat_start + 2 * c) → wp H (fat_entry_address vol c) Q.
Proof.
  intros [Hc _] HQ. pose proof fat_region. destruct Hlay.
  unfold fat_entry_address. fold fat_start.
  rewrite c_int_ok by lia. simpl. by rewrite c_int_ok by lia.
Qed.

Lemma valid_not_invalid c : valid c → is_invalid_cluster_num c = false.
Proof. unfold valid, is_invalid_cluster_num. lia. Qed.

Lemma fat_entry_in_size c : valid c → 0 ≤ fat_start + 2 * c ∧ fat_start + 2 * c + 2 ≤ data_start ∧ data_start ≤ size.
Proof. intros Hc. pose proof fat_region. pose proof (cluster_addr_range _ Hc). pose proof bpc_pos. destruct Hc. lia. Qed.

Lemma read_fat_spec w f c :
  dev_is w f → valid c → wp False (read_fat vol c w) (λ '(r, w'), r = fat f c ∧ dev_is w' f).
Proof.
  intros Hw Hc. pose proof (fat_entry_in_size _ Hc). unfold read_fat. rewrite valid_not_invalid by done.
  apply wp_io_bind, wp_lift. simpl. apply wp_io_bind, wp_lift, fat_address_spec; [done|].
  apply wp_io_bind. eapply wp_mono; [apply dev_read_spec; (done || lia)|]. intros [l w'] [-> Hw']. simpl.
  split; [|done]. change (seqZ (fat_start + 2 * c) 2) with [0 + (fat_start + 2 * c); 1 + (fat_start + 2 * c)].
  simpl. unfold fat. rewrite Z.add_0_l, (Z.add_comm 1). lia.
Qed.

Lemma write_fat_spec w f c v :
  dev_is w f → valid c → wp False (write_fat vol c v w) (λ '(_, w'), dev_is w' (set_fat f c v)).
Proof.
  intros Hw Hc. pose proof (fat_entry_in_size _ Hc). unfold write_fat. rewrite valid_not_invalid by done.
  apply wp_io_bind, wp_lift. simpl. apply wp_io_bind, wp_lift, fat_address_spec; [done|].
  apply dev_write_spec; simpl; [done|lia|done|apply (le_bytes_byte 2)|lia].
Qed.

Lemma fat_set_fat f c c' v : 0 ≤ v < 2 ^ 16 → fat (set_fat f c v) c' = if decide (c = c') then v else fat f c'.
Proof.
  intros Hv. unfold fat, set_fat. case_decide as E.
  - subst. rewrite (overwrite_in _ _ _ _ (fat_start + 2 * c') (v `mod` 256)); [|lia|by rewrite Z.sub_diag].
    rewrite (overwrite_in _ _ _ _ _ ((v `div` 256) `mod` 256)); [dlia|lia|].
    by replace (fat_start + 2 * c' + 1 - (fat_start + 2 * c')) with 1 by lia.
  - by rewrite !overwrite_out by lia.
Qed.

Lemma set_fat_out f c v a : valid c → data_start ≤ a → set_fat f c v a = f a.
Proof. intros Hc Ha. pose proof (fat_entry_in_size _ Hc). apply overwrite_out. lia. Qed.

(** *** Searching the table *)
Definition free_cluster f c : Prop := valid c ∧ fat f c < 2.

Lemma find_free_cluster_number_spec w f c0 :
  dev_is w f → free_cluster f c0 →
  wp False (find_free_cluster_number vol w) (λ '(r, w'),
    free_cluster f r ∧ (∀ c, valid c → c < r → ¬ free_cluster f c) ∧ dev_is w' f).
Proof.
  intros Hw [Hc0 Hf0]. pose proof fat_region. unfold find_free_cluster_number. destruct Hlay.
  apply wp_io_bind, wp_lift. rewrite c_int_ok; [|unfold fat_start, root_start, data_start, root_size in *; nia].
  simpl. fold nclusters. assert (2 <= nclusters) by (unfold valid in *; lia). rewrite wrap_small by lia.
  apply wp_io_bind. eapply wp_mono; [apply (wp_io_for False
    (λ j _ w, dev_is w f ∧ ∀ c, valid c → c < j → ¬ free_cluster f c)
    (λ r w, free_cluster f r ∧ (∀ c, valid c → c < r → ¬ free_cluster f c) ∧ dev_is w f))|]; [lia| | |].
  - split; [done|]. unfold valid. lia.
  - intros j _ w' Hj [Hw' Hbelow].
    assert (valid j). { split; [done|]. destruct (decide (j ≤ c0)); [unfold valid in *; lia|].
      exfalso. apply (Hbelow c0); [done|lia|done]. }
    apply wp_io_bind. eapply wp_mono; [by apply (read_fat_spec w' f j)|]. intros [r w2] [-> Hw2].
    unfold is_free_cluster_num. simpl. case_if.
    + split_and!; done.
    + split; [done|]. intros c Hc Hlt. destruct (decide (c = j)) as [->|]; [|apply Hbelow; (done || lia)].
      intros [_ ?]. lia.
  - intros [[[]|r] w']; simpl.
    + intros [_ Hb]. exfalso. apply (Hb c0); [done|unfold valid in *; lia|done].
    + tauto.
Qed.

(** *** Chains *)
Lemma chain_lookup f l i c :
  chain f l → l !! i = Some c →
  valid c ∧ match l !! S i with Some c' => fat f c = c' | None => 0xFFF8 ≤ fat f c end.
Proof.
  revert i. induction l as [|x l IH]; intros i Hl E; [done|].
  destruct i as [|i]; simpl in *.
  - simplify_eq. destruct Hl as [Hv Hl]. split; [done|]. destruct l; simpl; tauto.
  - destruct l as [|y l]; [done|]. destruct Hl as (_ & _ & Hl). by apply (IH i).
Qed.

Lemma chain_valid f l : chain f l → Forall valid l.
Proof. intros H. apply Forall_lookup. intros i c E. by apply (chain_lookup _ _ _ _ H E). Qed.

Lemma chain_not_free f l c : chain f l → c ∈ l → ¬ free_cluster f c.
Proof.
  intros H [i E]%list_elem_of_lookup [_ Hf]. destruct (chain_lookup _ _ _ _ H E) as [Hv Hn].
  destruct (l !! S i) as [c'|] eqn:E'; [|lia].
  destruct (chain_lookup _ _ _ _ H E') as [Hv' _]. unfold valid in Hv'. lia.
Qed.

(** Only the entries of its own clusters matter to a chain. *)
Lemma chain_ext f g l : (∀ c, c ∈ l → fat f c = fat g c) → chain f l → chain g l.
Proof.
  induction l as [|c l IH]; intros E H; [done|]. destruct l as [|c' l]; simpl in *.
  - rewrite <-E by set_solver. done.
  - destruct H as (? & ? & H). split; [done|]. split; [rewrite <-E by set_solver; done|].
    apply IH; [|done]. set_solver.
Qed.

(** Linking a new cluster behind the last one. *)
Lemma chain_snoc f l c j :
  chain f (l ++ [c]) → NoDup (l ++ [c]) → valid j → j ∉ l ++ [c] →
  chain (set_fat (set_fat f j 0xFFF8) c j) (l ++ [c; j]).
Proof.
  intros Hl Hnd Hj Hnj. set (g := set_fat _ c j).
  assert (0 ≤ j < 2 ^ 16) by (unfold valid in Hj; lia).
  assert (fat g j = 0xFFF8 ∧ fat g c = j ∧ ∀ x, x ≠ j → x ≠ c → fat g x = fat f x) as (Hgj & Hgc & Hg).
  { unfold g. split_and!.
    - rewrite fat_set_fat, decide_False by (done || set_solver). by rewrite fat_set_fat, decide_True.
    - by rewrite fat_set_fat, decide_True.
    - intros x ??. rewrite !fat_set_fat by done. by rewrite !decide_False. }
  clearbody g. induction l as [|x l IH]; simpl in *.
  - destruct Hl as [Hv _]. split_and!; (done || lia).
  - apply NoDup_cons in Hnd as [Hx Hnd]. apply not_elem_of_cons in Hnj as [Hjx Hnj].
    destruct l as [|y l]; simpl in *.
    + destruct Hl as (Hv & E & Hl). split; [done|]. split; [|by apply IH].
      rewrite Hg; [done|done|set_solver].
    + destruct Hl as (Hv & E & Hl). split; [done|]. split; [|by apply IH].
      rewrite Hg; [done|done|set_solver].
Qed.

(** *** Positions *)
Lemma pos_at l k i c r :
  k = i * bpc + r → 0 ≤ r < bpc → 0 ≤ i → l !! Z.to_nat i = Some c → pos l k = cluster_addr c + r.
Proof.
  intros -> Hr Hi E. unfold pos. rewrite Z.div_add_l, Z.div_small, Z.add_0_r, E by lia.
  by rewrite (Z.add_comm (i * bpc)), Z.mod_add, Z.mod_small by lia.
Qed.

Lemma pos_split k : 0 ≤ k → k = k `div` bpc * bpc + k `mod` bpc ∧ 0 ≤ k `mod` bpc < bpc ∧ 0 ≤ k `div` bpc.
Proof.
  intros Hk. pose proof bpc_pos. split_and!; [rewrite (Z.div_mod k bpc) at 1; lia|apply Z.mod_pos_bound; lia..|].
  by apply Z.div_pos.
Qed.

Lemma pos_lookup l k :
  0 ≤ k < bpc * Z.of_nat (length l) → ∃ c, l !! Z.to_nat (k `div` bpc) = Some c ∧ pos l k = cluster_addr c + k `mod` bpc.
Proof.
  intros Hk. pose proof bpc_pos. destruct (pos_split k) as (E & Hm & Hd); [lia|].
  destruct (lookup_lt_is_Some_2 l (Z.to_nat (k `div` bpc))) as [c Ec].
  { assert (k `div` bpc < Z.of_nat (length l)) by (apply Z.div_lt_upper_bound; lia). lia. }
  exists c. split; [done|]. unfold pos. by rewrite Ec.
Qed.

Lemma pos_app l l' k : 0 ≤ k < bpc * Z.of_nat (length l) → pos (l ++ l') k = pos l k.
Proof.
  intros Hk. destruct (pos_lookup l k Hk) as (c & E & _). unfold pos. by rewrite (lookup_app_l_Some _ _ _ _ E), E.
Qed.

Lemma pos_inj l k k' :
  NoDup l → 0 ≤ k < bpc * Z.of_nat (length l) → 0 ≤ k' < bpc * Z.of_nat (length l) → pos l k = pos l k' → k = k'.
Proof.
  intros Hnd Hk Hk' E. destruct (pos_lookup l k Hk) as (c & Ec & Ep), (pos_lookup l k' Hk') as (c' & Ec' & Ep').
  destruct (pos_split k) as (E1 & Hm & Hd), (pos_split k') as (E2 & Hm' & Hd'); [lia..|].
  rewrite Ep, Ep' in E. destruct (decide (c = c')) as [->|Hne].
  - assert (k `div` bpc = k' `div` bpc) by (apply Z2Nat.inj; [done..|]; by eapply NoDup_lookup). lia.
  - by apply cluster_addr_disjoint in E.
Qed.

(** Positions of two chains that share no cluster are different. *)
Lemma pos_disjoint l l' k k' :
  l ## l' → 0 ≤ k < bpc * Z.of_nat (length l) → 0 ≤ k' < bpc * Z.of_nat (length l') → pos l k ≠ pos l' k'.
Proof.
  intros Hd Hk Hk'. destruct (pos_lookup l k Hk) as (c & Ec & ->), (pos_lookup l' k' Hk') as (c' & Ec' & ->).
  destruct (pos_split k) as (_ & Hm & _), (pos_split k') as (_ & Hm' & _); [lia..|].
  apply cluster_addr_disjoint; [|done..]. intros ->.
  apply list_elem_of_lookup_2 in Ec, Ec'. set_solver.
Qed.

Lemma pos_range l k :
  Forall valid l → 0 ≤ k < bpc * Z.of_nat (length l) → data_start ≤ pos l k < size.
Proof.
  intros Hv Hk. destruct (pos_lookup l k Hk) as (c & Ec & ->). destruct (pos_split k) as (_ & Hm & _); [lia|].
  eapply Forall_lookup_1 in Hv; [|exact Ec]. pose proof (cluster_addr_range _ Hv). lia.
Qed.

(** the bytes of one cluster, as positions of the chain *)
Lemma chunk_bytes f l k m c :
  0 ≤ k → l !! Z.to_nat (k `div` bpc) = Some c → k `mod` bpc + m ≤ bpc →
  f <$> seqZ (cluster_addr c + k `mod` bpc) m = (λ k, f (pos l k)) <$> seqZ k m.
Proof.
  intros Hk Ec Hm. destruct (pos_split k Hk) as (E & Hmod & Hd). apply list_eq. intros i.
  rewrite !list_lookup_fmap. destruct (decide (Z.of_nat i < m)).
  - rewrite !lookup_seqZ_lt by lia. simpl. do 2 f_equal.
    rewrite (pos_at l (k + Z.of_nat i) (k `div` bpc) c (k `mod` bpc + Z.of_nat i)); (done || lia).
  - by rewrite !lookup_seqZ_ge by lia.
Qed.

(** *** Reading through a chain *)
Lemma calculate_data_section_start_spec : calculate_data_section_start vol = Ok data_start.
Proof.
  destruct Hlay. unfold calculate_data_section_start, data_start, root_start, root_size in *.
  rewrite wrap_small by lia. rewrite c_int_ok; [f_equal; lia|]. split; [nia|].
  eapply Z.le_lt_trans; [|done]. apply Z.eq_le_incl. ring.
Qed.

(** where the loop stands after [i] clusters: the next byte to move *)
Definition reached (off n i : Z) : Z := off `max` ((off + n) `min` (i * bpc)).

Lemma cluster_chunk_spec i c off r p :
  valid c → 0 ≤ off → off `div` bpc ≤ i → p = off `max` (i * bpc) →
  cluster_chunk vol i c off r = Ok (cluster_addr c + p `mod` bpc, (bpc - p `mod` bpc) `min` r) ∧ p `div` bpc = i.
Proof.
  intros Hc Ho Hi ->. pose proof bpc_pos as Hb. pose proof (cluster_addr_range _ Hc) as Hr.
  pose proof (lay_top Hlay). destruct (pos_split off Ho) as (E & Hm & Hd).
  pose proof data_start_nonneg.
  unfold cluster_chunk. rewrite calculate_data_section_start_spec. simpl. fold bpc. fold (cluster_addr c).
  rewrite (wrap_small 64 (cluster_addr c)) by lia. set (q := off `div` bpc) in *. case_if.
  - subst i. assert (off `max` (q * bpc) = off) as -> by nia. rewrite wrap_small by lia.
    split; [|done]. f_equal. f_equal. case_if; lia.
  - assert ((q + 1) * bpc ≤ i * bpc) by (apply Z.mul_le_mono_nonneg_r; lia).
    assert (off `max` (i * bpc) = i * bpc) as -> by nia.
    rewrite Z.mod_mul, Z.div_mul by lia. split; [|done]. f_equal. f_equal; [lia|]. case_if; lia.
Qed.

(** [reached] moves to the next cluster boundary or to the end of the request. *)
Lemma reached_step off n i :
  0 ≤ off → 0 ≤ n → 0 ≤ i → reached off n i < off + n →
  let p := reached off n i in
  if off `div` bpc <=? i
  then p = off `max` (i * bpc) ∧ reached off n (i + 1) = p + (bpc - p `mod` bpc) `min` (off + n - p)
  else p = off ∧ reached off n (i + 1) = off.
Proof.
  intros Ho Hn Hi Hlt p. pose proof bpc_pos as Hb. destruct (pos_split off Ho) as (E & Hm & Hd).
  unfold reached in *. subst p. set (q := off `div` bpc) in *. case_if.
  - assert (q * bpc ≤ i * bpc) by (apply Z.mul_le_mono_nonneg_r; lia).
    assert (off `max` ((off + n) `min` (i * bpc)) = off `max` (i * bpc)) as -> by lia. split; [done|].
    destruct (decide (i = q)) as [->|].
    + assert (off `max` (q * bpc) = off) as -> by lia. lia.
    + assert ((q + 1) * bpc ≤ i * bpc) by (apply Z.mul_le_mono_nonneg_r; lia).
      assert (off `max` (i * bpc) = i * bpc) as -> by lia. rewrite Z.mod_mul by lia. lia.
  - assert ((i + 1) * bpc ≤ q * bpc) by (apply Z.mul_le_mono_nonneg_r; lia). lia.
Qed.

Lemma reached_div off n i : 0 ≤ off → 0 ≤ i → reached off n i < off + n → off `div` bpc ≤ i → reached off n i `div` bpc = i.
Proof.
  intros Ho Hi Hlt Hq. pose proof bpc_pos as Hb. destruct (pos_split off Ho) as (E & Hm & Hd).
  symmetry. unfold reached in *. set (q := off `div` bpc) in *.
  destruct (decide (i = q)) as [->|].
  - assert (off `max` ((off + n) `min` (q * bpc)) = off) as -> by lia. done.
  - assert ((q + 1) * bpc ≤ i * bpc) by (apply Z.mul_le_mono_nonneg_r; lia).
    assert (off `max` ((off + n) `min` (i * bpc)) = i * bpc) as -> by lia. by rewrite Z.div_mul by lia.
Qed.

(** One turn of the loop, while the request lies within the chain. *)
Lemma read_step_spec w f L off n i cn :
  let r := off + n - reached off n i in
  dev_is w f → chain f L → 0 ≤ off → 0 ≤ n → 0 ≤ i → r ≠ 0 → L !! Z.to_nat i = Some cn →
  wp False (read_chain_step vol off (i, cn, (λ k, f (pos L k)) <$> seqZ off (reached off n i - off), r) w)
    (λ '(x, w'), dev_is w' f ∧
      x = inl (i + 1, fat f cn, (λ k, f (pos L k)) <$> seqZ off (reached off n (i + 1) - off), off + n - reached off n (i + 1)) ∧
      0 `max` (off `div` bpc - (i + 1)) + (off + n - reached off n (i + 1)) < 0 `max` (off `div` bpc - i) + r).
Proof.
  intros r Hw Hl Ho Hn Hi Hr Hcn. pose proof bpc_pos as Hb.
  pose proof (reached_step off n i Ho Hn Hi) as Hstep.
  assert (off ≤ reached off n i ≤ off + n) by (unfold reached; lia).
  specialize (Hstep ltac:(lia)). simpl in Hstep. unfold read_chain_step. fold bpc.
  replace (r =? 0) with false by lia. destruct (chain_lookup _ _ _ _ Hl Hcn) as [Hv Hnext].
  apply wp_io_bind. apply (wp_mono _ _ (λ '(or, w2), dev_is w2 f ∧
    or.1 = (λ k, f (pos L k)) <$> seqZ off (reached off n (i + 1) - off) ∧ or.2 = off + n - reached off n (i + 1) ∧
    (0 `max` (off `div` bpc - (i + 1)) + or.2 < 0 `max` (off `div` bpc - i) + r))).
  - case_if.
    + destruct Hstep as [Hp Hstep].
      destruct (cluster_chunk_spec i cn off r _ Hv Ho Heqb Hp) as [-> Hdiv].
      set (p := reached off n i) in *. destruct (pos_split p) as (_ & Hm & _); [lia|].
      apply wp_io_bind, wp_lift. simpl. apply wp_io_bind.
      pose proof (cluster_addr_range _ Hv). pose proof data_start_nonneg.
      eapply wp_mono; [apply dev_read_spec; (done || lia)|]. intros [chunk w2] [-> Hw2]. simpl.
      split_and!; [done| |lia|lia].
      rewrite (chunk_bytes f L p) by (rewrite ?Hdiv; (done || lia)).
      rewrite <-fmap_app. f_equal. replace (seqZ p) with (seqZ (off + (p - off))) by (f_equal; lia).
      rewrite <-seqZ_app by lia. f_equal. lia.
    + destruct Hstep as [Hp Hstep]. simpl. rewrite Hstep. split_and!; [done|f_equal; f_equal; lia|lia|lia].
  - intros [[out r'] w2] (Hw2 & E1 & E2 & Hdec). simpl in E1, E2, Hdec |- *. subst out r'. apply wp_io_bind.
    eapply wp_mono; [by apply (read_fat_spec w2 f cn)|]. intros [next w3] [-> Hw3]. simpl. done.
Qed.

(** Reading part of a chain returns exactly the bytes of the file at that offset and changes nothing. *)
Lemma read_chain w f c l off n :
  dev_is w f → chain f (c :: l) → 0 ≤ off → 0 ≤ n → off + n ≤ bpc * Z.of_nat (length (c :: l)) →
  wp False (read_from_cluster_chain vol c off n w)
    (λ '(out, w'), out = (λ k, f (pos (c :: l) k)) <$> seqZ off n ∧ dev_is w' f).
Proof.
  set (L := c :: l). intros Hw Hl Ho Hn Hsz. pose proof bpc_pos as Hb. unfold read_from_cluster_chain. fold bpc.
  replace (bpc =? 0) with false by lia. apply wp_io_bind, wp_lift. simpl. case_if.
  { subst n. done. }
  rewrite valid_not_invalid by apply Hl. apply wp_io_bind, wp_lift. simpl.
  unfold chain_fuel. fold bpc. set (q := off `div` bpc). assert (0 ≤ q) by (apply Z.div_pos; lia).
  apply (wp_io_while False (λ '(i, _, _, r), Z.to_nat (0 `max` (q - i) + r)) (λ '(i, cn, out, r) w, dev_is w f ∧
    0 ≤ i ∧ r = off + n - reached off n i ∧ out = (λ k, f (pos L k)) <$> seqZ off (reached off n i - off) ∧
    (r = 0 ∨ L !! Z.to_nat i = Some cn))); [|lia|].
  - unfold reached. replace (off `max` ((off + n) `min` (0 * bpc)) - off) with 0 by lia. split_and!; (done || lia || eauto).
  - clearbody L. intros [[[i cn] out] r] w' (Hw' & Hi & -> & -> & Hcn).
    destruct (decide (off + n - reached off n i = 0)) as [E|Hr].
    { rewrite E. simpl. split; [|done]. f_equal. f_equal. lia. }
    destruct Hcn as [?|Hcn]; [lia|]. destruct (chain_lookup _ _ _ _ Hl Hcn) as [_ Hnext].
    eapply wp_mono; [by apply read_step_spec|]. intros [x w2] (Hw2 & -> & Hdec). fold q in Hdec.
    assert (off ≤ reached off n (i + 1) ≤ off + n) by (unfold reached; lia).
    split_and!; try done; try lia. destruct (L !! S (Z.to_nat i)) as [c'|] eqn:E.
    + right. rewrite Hnext, <-E. f_equal. lia.
    + left. apply lookup_ge_None_1 in E. unfold reached.
      assert (bpc * Z.of_nat (length L) ≤ bpc * (i + 1)) by (apply Z.mul_le_mono_nonneg_l; lia). lia.
Qed.

(** Past the end of the chain the loop follows an end mark as if it were a cluster, and stops the machine there. *)
Lemma read_past_chain w f c l off n r :
  dev_is w f → chain f (c :: l) → 0 ≤ off → bpc * Z.of_nat (length (c :: l)) < off + n → 0 < n →
  read_from_cluster_chain vol c off n w ≠ Ok r.
Proof.
  set (L := c :: l). intros Hw Hl Ho Hsz Hn. pose proof bpc_pos as Hb. unfold read_from_cluster_chain. fold bpc.
  intros (? & E1 & E)%bind_Ok. replace (bpc =? 0) with false in E1 by lia. injection E1 as <-. simpl in E.
  replace (n =? 0) with false in E by lia. rewrite valid_not_invalid in E by apply Hl.
  apply bind_Ok in E as (? & E1 & E). injection E1 as <-. simpl in E. revert E.
  apply (io_while_never (λ '(i, cn, out, r) w, 0 < r ∧ ((dev_is w f ∧ 0 ≤ i ∧ r = off + n - reached off n i ∧
    out = (λ k, f (pos L k)) <$> seqZ off (reached off n i - off) ∧ L !! Z.to_nat i = Some cn) ∨
    is_invalid_cluster_num cn = true))).
  - clearbody L. intros [[[i cn] out] r'] w1 x w2 [Hr [(Hw1 & Hi & -> & -> & Hcn)|Hinv]] E.
    + assert (0 < off + n - reached off n (i + 1)) as Hpos.
      { apply lookup_lt_Some in Hcn. unfold reached. assert (bpc * (i + 1) ≤ bpc * Z.of_nat (length L))
          by (apply Z.mul_le_mono_nonneg_l; lia). lia. }
      destruct (chain_lookup _ _ _ _ Hl Hcn) as [_ Hnext].
      eapply wp_Ok in E; [|apply (read_step_spec w1 f L off n i cn); (done || lia)].
      destruct E as (Hw2 & -> & _). eexists. split; [done|]. split; [done|].
      destruct (L !! S (Z.to_nat i)) as [c'|] eqn:Ec; [left|right; unfold is_invalid_cluster_num; lia].
      rewrite Hnext, <-Ec. split_and!; try done; [lia|]. f_equal. lia.
    + exfalso. unfold read_chain_step in E. replace (r' =? 0) with false in E by lia.
      apply bind_Ok in E as ([[? ?] ?] & _ & E). simpl in E. unfold read_fat in E. rewrite Hinv in E.
      apply bind_Ok in E as (? & E & _). discriminate E.
  - split; [done|]. left. unfold reached. replace (off `max` ((off + n) `min` (0 * bpc)) - off) with 0 by lia.
    split_and!; (done || lia).
Qed.

(** *** Writing through a chain *)

(** [g] is the image [f] after the first [k] bytes of [input] were written at
    offset [off] of the file [L], which has grown by the clusters [new]. *)
Record updated f g (L new : list Z) (off k : Z) (input : list Z) : Prop := {
  upd_chain : chain g (L ++ new);
  upd_nodup : NoDup (L ++ new);
  upd_new : Forall (free_cluster f) new;
  (** the table entries of all other clusters are as before *)
  upd_fat : ∀ c, valid c → c ∉ L ++ new → fat g c = fat f c;
  upd_bounds : off + k ≤ bpc * Z.of_nat (length (L ++ new)) ∨ k = 0;
  upd_data : ∀ j, 0 ≤ j < k → Some (g (pos (L ++ new) (off + j))) = input !! Z.to_nat j;
  (** so is every byte outside the table that the request does not cover *)
  upd_frame : ∀ a, a < fat_start ∨ fat_start + 2 * nclusters ≤ a →
    (∀ j, 0 ≤ j < k → a ≠ pos (L ++ new) (off + j)) → g a = f a;
}.

Lemma updated_free f g L new off k input c :
  updated f g L new off k input → c ∉ L ++ new → free_cluster g c ↔ free_cluster f c.
Proof.
  intros Hu Hc. unfold free_cluster. split; intros [Hv Hf]; (split; [done|]).
  - by rewrite <-(upd_fat _ _ _ _ _ _ _ Hu).
  - by rewrite (upd_fat _ _ _ _ _ _ _ Hu).
Qed.

Lemma fat_overwrite f p m l c : valid c → data_start ≤ p → fat (overwrite f p m l) c = fat f c.
Proof.
  intros Hc Hp. pose proof (fat_entry_in_size _ Hc). unfold fat. by rewrite !overwrite_out by lia.
Qed.

Lemma updated_write f g L new off k input m c :
  updated f g L new off k input → 0 ≤ off → 0 ≤ k → 0 < m → k + m ≤ Z.of_nat (length input) →
  (L ++ new) !! Z.to_nat ((off + k) `div` bpc) = Some c → (off + k) `mod` bpc + m ≤ bpc →
  updated f (overwrite g (cluster_addr c + (off + k) `mod` bpc) m (take (Z.to_nat m) (drop (Z.to_nat k) input)))
    L new off (k + m) input.
Proof.
  intros Hu Ho Hk Hm Hlen Hc Hmod. set (p := off + k) in *. set (T := L ++ new) in *.
  pose proof bpc_pos as Hb. destruct (pos_split p) as (E & Hr & Hd); [lia|].
  destruct (chain_lookup _ _ _ _ (upd_chain _ _ _ _ _ _ _ Hu) Hc) as [Hv _].
  pose proof (cluster_addr_range _ Hv) as Hrange.
  assert (p + m ≤ bpc * Z.of_nat (length T)) as Hend.
  { apply lookup_lt_Some in Hc. assert (bpc * (p `div` bpc + 1) ≤ bpc * Z.of_nat (length T))
      by (apply Z.mul_le_mono_nonneg_l; lia). lia. }
  assert (∀ j, 0 ≤ j < m → pos T (p + j) = cluster_addr c + p `mod` bpc + j) as Hpos.
  { intros j Hj. rewrite (pos_at T (p + j) (p `div` bpc) c (p `mod` bpc + j)); (done || lia). }
  destruct Hu as [Hch Hnd Hnew Hfat Hbnd Hdata Hframe]. fold T in Hch, Hnd, Hfat, Hbnd, Hdata, Hframe.
  split; try done; fold T.
  - eapply chain_ext; [|exact Hch]. intros x Hx. symmetry. apply fat_overwrite; [|lia].
    eapply Forall_forall; [by eapply chain_valid|done].
  - intros x Hx Hn. rewrite fat_overwrite by (done || lia). by apply Hfat.
  - left. unfold p in Hend. lia.
  - intros j Hj. destruct (decide (j < k)).
    + rewrite <-Hdata by lia. f_equal. apply overwrite_out. intros Ha.
      assert (pos T (off + j) = pos T (p + (pos T (off + j) - (cluster_addr c + p `mod` bpc)))) as Hp by (rewrite Hpos; lia).
      apply pos_inj in Hp; unfold p in *; (done || lia).
    + replace (off + j) with (p + (j - k)) by lia. rewrite Hpos by lia.
      destruct (lookup_lt_is_Some_2 input (Z.to_nat j)) as [x Ex]; [lia|]. rewrite Ex. f_equal.
      apply overwrite_in; [lia|]. rewrite lookup_take_lt by lia. rewrite lookup_drop, <-Ex. f_equal. lia.
  - intros a Ha Hne. rewrite overwrite_out; [apply Hframe; [done|]; intros j Hj; apply Hne; lia|].
    intros Hin. apply (Hne (k + (a - (cluster_addr c + p `mod` bpc)))); [lia|].
    rewrite Z.add_assoc. fold p. rewrite Hpos by lia. lia.
Qed.

Lemma updated_grow f g L new off k input c j :
  updated f g L new off k input → 0 ≤ off → (L ++ new) !! pred (length (L ++ new)) = Some c → free_cluster g j →
  updated f (set_fat (set_fat g j 0xFFF8) c j) L (new ++ [j]) off k input ∧ free_cluster f j ∧ j ∉ L ++ new.
Proof.
  intros Hu Ho Hlast Hj. pose proof (chain_not_free _ _ j (upd_chain _ _ _ _ _ _ _ Hu)) as Hnj.
  assert (j ∉ L ++ new) as Hjn by tauto. clear Hnj. pose proof (updated_free _ _ _ _ _ _ _ j Hu Hjn) as Hfree.
  split; [|tauto]. destruct Hu as [Hch Hnd Hnew Hfat Hbnd Hdata Hframe].
  pose proof (chain_lookup _ _ _ _ Hch Hlast) as [Hvc _]. destruct Hj as [Hvj Hj].
  assert (0 ≤ j < 2 ^ 16) by (unfold valid in Hvj; lia).
  assert (∃ T, L ++ new = T ++ [c]) as [T HT].
  { destruct (L ++ new) as [|x T _] eqn:E using rev_ind.
    - done.
    - exists T. rewrite length_app in Hlast. simpl in Hlast.
      rewrite Nat.add_1_r in Hlast. simpl in Hlast. rewrite list_lookup_middle in Hlast by done. by simplify_eq. }
  assert (∀ k', 0 ≤ k' < bpc * Z.of_nat (length (L ++ new)) → pos (L ++ new ++ [j]) k' = pos (L ++ new) k') as Hpos.
  { intros k' Hk'. rewrite app_assoc. by apply pos_app. }
  split; rewrite ?(app_assoc L).
  - rewrite HT in *. rewrite <-app_assoc. simpl. by apply chain_snoc.
  - apply NoDup_app. split_and!; [done|set_solver|apply NoDup_singleton].
  - apply Forall_app. split; [done|]. constructor; [|done]. apply Hfree. by split.
  - intros x Hx Hn. assert (x ≠ j ∧ x ≠ c).
    { rewrite HT in Hn. set_solver. }
    rewrite !fat_set_fat by lia. rewrite !decide_False by (intros ->; tauto). apply Hfat; [done|set_solver].
  - rewrite length_app. simpl. destruct Hbnd; [left|by right]. pose proof bpc_pos. nia.
  - intros x Hx. rewrite <-app_assoc, Hpos by (destruct Hbnd; lia). rewrite <-Hdata by done. f_equal.
    assert (data_start ≤ pos (L ++ new) (off + x)).
    { apply pos_range; [by eapply chain_valid|destruct Hbnd; lia]. }
    by rewrite !set_fat_out.
  - intros a Ha Hne. pose proof fat_region. unfold set_fat. unfold valid in Hvc, Hvj.
    rewrite !overwrite_out by lia. apply Hframe; [done|]. intros x Hx.
    specialize (Hne x Hx). rewrite <-app_assoc, Hpos in Hne by (destruct Hbnd; lia). done.
Qed.

Lemma next_or_allocate_spec w g T i c :
  dev_is w g → chain g T → T !! i = Some c →
  (S i = length T → ∃ c0, free_cluster g c0) →
  wp False (next_or_allocate vol c w) (λ '(r, w'),
    T !! S i = Some r ∧ dev_is w' g ∨
    S i = length T ∧ free_cluster g r ∧ dev_is w' (set_fat (set_fat g r 0xFFF8) c r)).
Proof.
  intros Hw Hch Hc Hfree. destruct (chain_lookup _ _ _ _ Hch Hc) as [Hv Hnext].
  apply wp_io_bind. eapply wp_mono; [by apply (read_fat_spec w g c)|]. intros [r w'] [-> Hw'].
  unfold is_end_of_ll_num. destruct (T !! S i) as [c'|] eqn:E.
  - destruct (chain_lookup _ _ _ _ Hch E) as [Hv' _]. unfold valid in Hv'.
    replace (0xFFF8 <=? fat g c) with false by lia. left. by rewrite Hnext.
  - replace (0xFFF8 <=? fat g c) with true by lia.
    assert (S i = length T) as Hi.
    { apply lookup_lt_Some in Hc. apply lookup_ge_None_1 in E. lia. }
    destruct (Hfree Hi) as [c0 Hc0].
    apply wp_io_bind. eapply wp_mono; [by eapply find_free_cluster_number_spec|]. intros [r w2] (Hr & _ & Hw2).
    apply wp_io_bind. eapply wp_mono; [apply write_fat_spec; [done|apply Hr]|]. intros [_ w3] Hw3.
    apply wp_io_bind. eapply wp_mono; [by apply write_fat_spec|]. intros [_ w4] Hw4. right. done.
Qed.

(** the number of clusters the chain has after [n] bytes were written at [off]:
    one more than the last byte needs *)
Definition chain_length_after (off n : Z) : Z := if n =? 0 then 0 else (off + n - 1) `div` bpc + 2.

Lemma updated_start f L off input : chain f L → NoDup L → updated f f L [] off 0 input.
Proof.
  intros Hch Hnd. split; rewrite ?app_nil_r; try done; [by right|lia].
Qed.

(** One iteration's data: the chunk of the current cluster. *)
Lemma write_chunk_spec w f g L new off input i cn rest :
  let n := Z.of_nat (length input) in
  dev_is w g → updated f g L new off (reached off n i - off) input →
  rest = drop (Z.to_nat (reached off n i - off)) input → (L ++ new) !! Z.to_nat i = Some cn →
  0 ≤ off → 0 ≤ i → Forall is_byte input → reached off n i < off + n →
  wp False
    ((if off `div` bpc <=? i then
       '(src_addr, m) ← lift (cluster_chunk vol i cn off (Z.of_nat (length rest)));
       _ ← dev_write vol src_addr (take (Z.to_nat m) rest);
       mret (drop (Z.to_nat m) rest)
     else mret rest) w)
    (λ '(rest', w'), ∃ g', dev_is w' g' ∧ updated f g' L new off (reached off n (i + 1) - off) input ∧
      rest' = drop (Z.to_nat (reached off n (i + 1) - off)) input ∧
      (∀ c, valid c → fat g' c = fat g c) ∧
      (off `div` bpc ≤ i → reached off n i < reached off n (i + 1))).
Proof.
  intros n Hw Hu Hrest Hcn Ho Hi Hb Hlt.
  pose proof (reached_step off n i Ho ltac:(lia) Hi Hlt) as Hstep. simpl in Hstep.
  assert (off ≤ reached off n i) by (unfold reached; lia).
  destruct (chain_lookup _ _ _ _ (upd_chain _ _ _ _ _ _ _ Hu) Hcn) as [Hv _].
  assert (Z.of_nat (length rest) = off + n - reached off n i) as Hlen by (rewrite Hrest, length_drop; lia).
  case_if.
  - destruct Hstep as [Hp Hstep]. set (p := reached off n i) in *.
    destruct (cluster_chunk_spec i cn off (Z.of_nat (length rest)) p Hv Ho Heqb Hp) as [-> Hdiv].
    destruct (pos_split p) as (_ & Hm & _); [lia|].
    pose proof (cluster_addr_range _ Hv). pose proof data_start_nonneg.
    set (m := (bpc - p `mod` bpc) `min` Z.of_nat (length rest)) in *. assert (0 < m) by lia.
    apply wp_io_bind, wp_lift. simpl. apply wp_io_bind.
    assert (Z.of_nat (length (take (Z.to_nat m) rest)) = m) as Hlm by (rewrite length_take; lia).
    eapply wp_mono; [apply dev_write_spec; [exact Hw|lia| | |lia]|].
    + intros E. rewrite E in Hlm. simpl in Hlm. lia.
    + apply Forall_take. subst rest. by apply Forall_drop.
    + intros [_ w'] Hw'. rewrite Hlm in Hw'. simpl. eexists. split; [exact Hw'|].
      replace (reached off n (i + 1) - off) with (p - off + m) by lia. split_and!; [| | |lia].
      * rewrite Hrest. replace (p `mod` bpc) with ((off + (p - off)) `mod` bpc) by (f_equal; lia).
        apply updated_write; try done; try lia.
        -- by replace (off + (p - off)) with p by lia; rewrite Hdiv.
        -- replace (off + (p - off)) with p by lia. lia.
      * rewrite Hrest, drop_drop. f_equal. lia.
      * intros c Hc. apply fat_overwrite; [done|lia].
  - destruct Hstep as [Hp Hstep]. simpl. exists g. rewrite Hstep. rewrite Hp in *. split_and!; (done || lia).
Qed.

Definition free_list g (fs : list Z) : Prop := NoDup fs ∧ Forall (free_cluster g) fs.

(** Following the table, the chain grown when its end is reached. *)
Lemma next_cluster_spec w f g L new off k input fs i cn :
  dev_is w g → updated f g L new off k input → 0 ≤ off → (L ++ new) !! i = Some cn →
  free_list g fs → (S i = length (L ++ new) → fs ≠ []) →
  wp False (next_or_allocate vol cn w) (λ '(r, w'), ∃ g' new' fs',
    dev_is w' g' ∧ updated f g' L new' off k input ∧ (L ++ new') !! S i = Some r ∧
    length new' = (length new `max` (S (S i) - length L))%nat ∧
    free_list g' fs' ∧ (length fs + length new ≤ length fs' + length new')%nat).
Proof.
  intros Hw Hu Ho Hcn [Hnd Hfs] Hend. pose proof (upd_chain _ _ _ _ _ _ _ Hu) as Hch.
  eapply wp_mono; [eapply next_or_allocate_spec; [done|exact Hch|exact Hcn|]|].
  { intros E. destruct fs as [|c0 fs]; [by specialize (Hend E)|]. exists c0. by inversion Hfs. }
  intros [next w'] [[Hnext Hw']|(E & Hnf & Hw')].
  - exists g, new, fs. apply lookup_lt_Some in Hnext as Hlt. rewrite length_app in Hlt.
    split_and!; (done || lia).
  - assert ((L ++ new) !! pred (length (L ++ new)) = Some cn) as Hlast by (by rewrite <-E).
    destruct (updated_grow _ _ _ _ _ _ _ _ next Hu Ho Hlast Hnf) as (Hu' & _ & Hnin).
    exists (set_fat (set_fat g next 0xFFF8) cn next), (new ++ [next]), (filter (λ x, x ≠ next) fs).
    split_and!; [done|done|rewrite E, app_assoc; by apply list_lookup_middle| |split|].
    + rewrite length_app in E |- *. cbn [length]. lia.
    + by apply NoDup_filter.
    + apply Forall_forall. intros x [Hx Hin]%list_elem_of_filter.
      assert (free_cluster g x) as Hfx by (by eapply Forall_forall in Hfs).
      assert (x ∉ L ++ new) by (intros Hin'; by apply (chain_not_free _ _ x Hch) in Hin').
      apply (updated_free _ _ _ _ _ _ _ x Hu'); [set_solver|].
      by apply (updated_free _ _ _ _ _ _ _ x Hu).
    + rewrite length_app. cbn [length]. pose proof (length_remove_one next fs Hnd). lia.
Qed.

Definition write_state f L off input (fs : list Z) (i cn : Z) (rest : list Z) w : Prop :=
  let n := Z.of_nat (length input) in
  ∃ g new fs', dev_is w g ∧ updated f g L new off (reached off n i - off) input ∧
    rest = drop (Z.to_nat (reached off n i - off)) input ∧
    (L ++ new) !! Z.to_nat i = Some cn ∧
    Z.of_nat (length new) = 0 `max` (i + 1 - Z.of_nat (length L)) ∧
    free_list g fs' ∧ (length fs ≤ length fs' + length new)%nat.

(** One iteration of the loop of write_to_cluster_chain. *)
Lemma write_iteration_spec w f L off input fs i cn rest :
  let n := Z.of_nat (length input) in
  write_state f L off input fs i cn rest w → 0 ≤ off → 0 ≤ i → Forall is_byte input →
  reached off n i < off + n → i + 2 ≤ Z.of_nat (length L) + Z.of_nat (length fs) →
  wp False (write_chain_step vol off (i, cn, rest) w)
    (λ '(r, w'), ∃ next rest', r = inl (i + 1, next, rest') ∧ write_state f L off input fs (i + 1) next rest' w' ∧
      (0 `max` (off `div` bpc - (i + 1)) + Z.of_nat (length rest') < 0 `max` (off `div` bpc - i) + Z.of_nat (length rest))).
Proof.
  intros n (g & new & fs' & Hw & Hu & Hrest & Hcn & Hnew & [Hnd Hfree] & Hroom) Ho Hi Hb Hlt Hspace.
  fold n in Hu, Hrest.
  assert (off ≤ reached off n i) as Hge by (unfold reached; lia). pose proof bpc_pos.
  assert (Z.of_nat (length rest) = off + n - reached off n i) as Hlen by (rewrite Hrest, length_drop; lia).
  unfold write_chain_step. fold bpc. replace (Z.of_nat (length rest) =? 0) with false by lia.
  apply wp_io_bind. eapply wp_mono; [by eapply write_chunk_spec|].
  intros [rest' w2] (g2 & Hw2 & Hu2 & Hrest' & Hfat2 & Hdec). fold n in Hu2, Hrest', Hdec.
  apply wp_io_bind. eapply wp_mono; [eapply (next_cluster_spec _ _ _ _ _ _ _ _ fs'); [done|done|done|exact Hcn| |]|].
  - split; [done|]. eapply Forall_impl; [done|]. intros x [Hx Hx']. split; [done|]. by rewrite Hfat2.
  - intros E ->. rewrite length_app in E. simpl in Hroom. lia.
  - intros [next w3] (g3 & new3 & fs3 & Hw3 & Hu3 & Hnext & Hnew3 & Hfs3 & Hroom3). simpl.
    exists next, rest'. split; [done|].
    assert (Z.of_nat (length rest') = off + n - reached off n (i + 1)) as Hlen'.
    { rewrite Hrest', length_drop. unfold reached. lia. }
    split.
    + exists g3, new3, fs3. fold n. split_and!; try done; try lia.
      replace (Z.to_nat (i + 1)) with (S (Z.to_nat i)) by lia. done.
    + destruct (decide (off `div` bpc ≤ i)) as [Hq|]; [specialize (Hdec Hq); lia|].
      assert (i * bpc ≤ (i + 1) * bpc) by (apply Z.mul_le_mono_nonneg_r; lia).
      unfold reached in *. lia.
Qed.

(** Writing to a chain succeeds whenever enough clusters are free; the chain ends up
    one cluster longer than the last byte needs. *)
Lemma write_chain w f c l off input fs :
  let L := c :: l in
  let n := Z.of_nat (length input) in
  dev_is w f → chain f L → NoDup L → 0 ≤ off → Forall is_byte input → free_list f fs →
  chain_length_after off n ≤ Z.of_nat (length L) + Z.of_nat (length fs) →
  wp False (write_to_cluster_chain vol c off input w) (λ '(_, w'), ∃ g new,
    dev_is w' g ∧ updated f g L new off n input ∧
    Z.of_nat (length new) = 0 `max` (chain_length_after off n - Z.of_nat (length L))).
Proof.
  intros L n Hw Hch Hnd Ho Hb Hfs Hroom. pose proof bpc_pos as Hbpc.
  unfold write_to_cluster_chain. fold bpc. replace (bpc =? 0) with false by lia.
  apply wp_io_bind, wp_lift. simpl. rewrite valid_not_invalid by apply Hch. apply wp_io_bind, wp_lift. simpl.
  unfold chain_fuel. fold bpc n. set (q := off `div` bpc). assert (0 ≤ q) by (apply Z.div_pos; lia).
  set (t := (off + n - 1) `div` bpc + 1).
  assert (∀ i, i * bpc < off + n → i < t) as Ht.
  { intros i Hi. unfold t. assert (i ≤ (off + n - 1) `div` bpc); [|lia]. apply Z.div_le_lower_bound; lia. }
  assert (∀ i, off + n ≤ i * bpc → 0 < n → t ≤ i) as Ht'.
  { intros i Hi Hn. unfold t. assert ((off + n - 1) `div` bpc < i); [|lia]. apply Z.div_lt_upper_bound; lia. }
  assert (0 < length L)%nat as HL by (simpl; lia).
  apply (wp_io_while False (λ '(i, _, rest), Z.to_nat (0 `max` (q - i) + Z.of_nat (length rest)))
    (λ '(i, cn, rest) w, 0 ≤ i ∧ ((n = 0 → i = 0) ∧ (0 < n → i ≤ t)) ∧ write_state f L off input fs i cn rest w)
    (λ _ w', ∃ g new, dev_is w' g ∧ updated f g L new off n input ∧
      Z.of_nat (length new) = 0 `max` (chain_length_after off n - Z.of_nat (length L)))); [|fold n; lia|].
  - split; [done|]. split.
    { split; [done|]. intros. pose proof (Ht 0). lia. }
    exists f, [], fs. cbv zeta. fold n. assert (reached off n 0 - off = 0) as -> by (unfold reached; lia).
    split_and!; try done; [by apply updated_start|simpl; lia|simpl; lia].
  - clearbody L. intros [[i cn] rest] w' (Hi & [Hi0 Hit] & Hst).
    pose proof Hst as (g & new & fs' & Hw' & Hu & Hrest & _ & Hnew & _). fold n in Hu, Hrest.
    assert (off ≤ reached off n i ≤ off + n) by (unfold reached; lia).
    assert (Z.of_nat (length rest) = off + n - reached off n i) as Hlen by (rewrite Hrest, length_drop; lia).
    destruct (decide (Z.of_nat (length rest) = 0)) as [Hz|Hnz].
    + unfold write_chain_step. rewrite Hz. exists g, new. split; [done|]. replace (reached off n i - off) with n in Hu by lia. split; [done|].
      rewrite Hnew. unfold chain_length_after. case_if; [lia|].
      assert (i = t); [|unfold t in *; lia]. pose proof (Ht' i) as Hti. unfold reached in Hlen. lia.
    + assert (i < t) as Hlt by (apply Ht; unfold reached in *; lia).
      eapply wp_mono; [eapply write_iteration_spec; [exact Hst|done|done|done|fold n; lia|]|].
      { unfold chain_length_after, t in *. revert Hroom. case_if; lia. }
      intros [r w2] (next & rest' & -> & Hst' & Hdec). fold q in Hdec. split_and!; (done || lia).
Qed.

(** A file that shares no cluster with the one written is untouched: its chain and all its bytes. *)
Lemma updated_other f g L new off k input Q :
  updated f g L new off k input → 0 ≤ off → chain f Q → Q ## L →
  chain g Q ∧ ∀ j, 0 ≤ j < bpc * Z.of_nat (length Q) → g (pos Q j) = f (pos Q j).
Proof.
  intros Hu Ho HQ Hd. pose proof (chain_valid _ _ HQ) as Hv.
  assert (Q ## L ++ new) as Hd'.
  { intros c Hc [Hin|Hin]%elem_of_app; [by eapply Hd|]. apply (chain_not_free _ _ _ HQ Hc).
    by eapply Forall_forall in Hin; [|apply Hu]. }
  split.
  - eapply chain_ext; [|exact HQ]. intros c Hc. symmetry. apply (upd_fat _ _ _ _ _ _ _ Hu); [|by intros ?; eapply Hd'].
    rewrite Forall_forall in Hv. by apply Hv.
  - intros j Hj. pose proof (pos_range Q j Hv Hj) as Hr. pose proof fat_region.
    apply (upd_frame _ _ _ _ _ _ _ Hu); [right; lia|]. intros i Hi.
    apply pos_disjoint; [done|done|]. destruct (upd_bounds _ _ _ _ _ _ _ Hu); lia.
Qed.

(** The rest of the file itself is untouched too. *)
Lemma updated_same_file f g L new off k input j :
  updated f g L new off k input → 0 ≤ off → 0 ≤ j < bpc * Z.of_nat (length L) → ¬ (off ≤ j < off + k) →
  chain f L → g (pos (L ++ new) j) = f (pos L j).
Proof.
  intros Hu Ho Hj Hout HL. rewrite pos_app by done. pose proof (pos_range L j (chain_valid _ _ HL) Hj).
  pose proof fat_region. apply (upd_frame _ _ _ _ _ _ _ Hu); [right; lia|]. intros i Hi E.
  rewrite <-(pos_app L new) in E by done.
  assert (0 ≤ bpc * Z.of_nat (length new)) by (pose proof bpc_pos; nia).
  apply pos_inj in E; [lia|apply Hu|rewrite length_app; lia|destruct (upd_bounds _ _ _ _ _ _ _ Hu); lia].
Qed.

(** reading part of a cluster chain returns exactly the bytes of the file at that offset, cluster by cluster in the order of the allocation table, and changes no byte of the device; the loop terminates, with no halt, as long as the request lies within the chain. *)
Theorem read_from_cluster_chain_spec w f c l off n :
  dev_is w f → chain f (c :: l) → 0 ≤ off → 0 ≤ n → off + n ≤ bpc * Z.of_nat (length (c :: l)) →
  ∃ out w', read_from_cluster_chain vol c off n w = Ok (out, w') ∧ dev_is w' f ∧ Z.of_nat (length out) = n ∧
    ∀ j, 0 ≤ j < n → out !! Z.to_nat j = Some (f (pos (c :: l) (off + j))).
Proof.
  intros Hw Hl Ho Hn Hsz. destruct (wp_total_1 _ _ (read_chain w f c l off n Hw Hl Ho Hn Hsz)) as ([out w'] & E & -> & Hw').
  exists ((λ k, f (pos (c :: l) k)) <$> seqZ off n), w'. split_and!; [done|done|rewrite length_fmap, length_seqZ; lia|].
  intros j Hj. rewrite list_lookup_fmap, lookup_seqZ_lt by lia. simpl. do 3 f_equal. lia.
Qed.

(** C9: writing to a cluster chain stores exactly the given bytes at the given offset of the file. The rest of the file is unchanged, and so is every other file: any chain that shares no cluster with this one keeps its links and all its bytes. The chain grows by clusters that were free, and ends up one cluster longer than the last byte needs; the write terminates and succeeds whenever that many clusters are free. *)
Theorem write_to_cluster_chain_spec w f c l off input fs :
  let L := c :: l in
  let n := Z.of_nat (length input) in
  dev_is w f → chain f L → NoDup L → 0 ≤ off → Forall is_byte input → free_list f fs →
  chain_length_after off n ≤ Z.of_nat (length L) + Z.of_nat (length fs) →
  ∃ w' g new, write_to_cluster_chain vol c off input w = Ok ((), w') ∧ dev_is w' g ∧
    chain g (L ++ new) ∧ NoDup (L ++ new) ∧ Forall (free_cluster f) new ∧
    Z.of_nat (length new) = 0 `max` (chain_length_after off n - Z.of_nat (length L)) ∧
    (∀ j, 0 ≤ j < n → Some (g (pos (L ++ new) (off + j))) = input !! Z.to_nat j) ∧
    (∀ j, 0 ≤ j < bpc * Z.of_nat (length L) → ¬ (off ≤ j < off + n) → g (pos (L ++ new) j) = f (pos L j)) ∧
    ∀ Q, chain f Q → Q ## L → chain g Q ∧ ∀ j, 0 ≤ j < bpc * Z.of_nat (length Q) → g (pos Q j) = f (pos Q j).
Proof.
  intros L n Hw HL Hnd Ho Hb Hfs Hroom.
  destruct (wp_total_1 _ _ (write_chain w f c l off input fs Hw HL Hnd Ho Hb Hfs Hroom)) as ([[] w'] & E & g & new & Hg & Hu & Hn).
  exists w', g, new. split_and!; try done; try apply Hu.
  - intros j Hj Hout. by eapply updated_same_file.
  - intros Q HQ Hd. by eapply updated_other.
Qed.
End chain.
