(* ===== verification/FatFile.v ===== *)
(** * Files and directories of a FAT16 volume: the rest of stuos/src/fs_fat.c

    Directory entries and long-name entries are 32-byte records; a file is named
    by an inode number that locates its entry in its parent directory.  The
    handlers act on the mounted volumes [all_fat_mounts], the counter
    [create_idx] of create_inode, and the device. *)
From S2P Require Import Prelude Bytes Vfs FatVolume KernLibc.

Definition FILE_ATTRIBUTES_RO : Z := 0x1.
Definition FILE_ATTRIBUTES_HIDDEN : Z := 0x2.
Definition FILE_ATTRIBUTES_SYSTEM : Z := 0x4.
Definition FILE_ATTRIBUTES_VOLUMEID : Z := 0x8.
Definition FILE_ATTRIBUTES_DIRECTORY : Z := 0x10.
Definition FILE_ATTRIBUTES_LFN : Z :=
  Z.lor (Z.lor (Z.lor FILE_ATTRIBUTES_RO FILE_ATTRIBUTES_HIDDEN) FILE_ATTRIBUTES_SYSTEM) FILE_ATTRIBUTES_VOLUMEID.

(** ** Records on the disk: the times and dates are not interpreted by the code and kept as 16-bit values *)
Record Fat16DirectoryEntry := DirEntry {
  filename : list Z;
  attributes : Z;
  reserved : Z;
  creation_time_hundredths : Z;
  creation_time : Z;
  creation_date : Z;
  access_date : Z;
  zero : Z;
  modification_time : Z;
  modification_date : Z;
  cluster_number : Z;
  file_size_bytes : Z
}.

Definition decode_entry (b : list Z) : Fat16DirectoryEntry :=
  DirEntry (take 11 b) (field b 11 1) (field b 12 1) (field b 13 1) (field b 14 2) (field b 16 2)
    (field b 18 2) (field b 20 2) (field b 22 2) (field b 24 2) (field b 26 2) (field b 28 4).

Definition encode_entry (e : Fat16DirectoryEntry) : list Z :=
  filename e ++ le_bytes 1 (attributes e) ++ le_bytes 1 (reserved e) ++ le_bytes 1 (creation_time_hundredths e) ++
  le_bytes 2 (creation_time e) ++ le_bytes 2 (creation_date e) ++ le_bytes 2 (access_date e) ++ le_bytes 2 (zero e) ++
  le_bytes 2 (modification_time e) ++ le_bytes 2 (modification_date e) ++ le_bytes 2 (cluster_number e) ++
  le_bytes 4 (file_size_bytes e).

Definition with_cluster (e : Fat16DirectoryEntry) (c : Z) : Fat16DirectoryEntry :=
  DirEntry (filename e) (attributes e) (reserved e) (creation_time_hundredths e) (creation_time e) (creation_date e)
    (access_date e) (zero e) (modification_time e) (modification_date e) c (file_size_bytes e).
Definition with_size (e : Fat16DirectoryEntry) (s : Z) : Fat16DirectoryEntry :=
  DirEntry (filename e) (attributes e) (reserved e) (creation_time_hundredths e) (creation_time e) (creation_date e)
    (access_date e) (zero e) (modification_time e) (modification_date e) (cluster_number e) s.

(** [struct Fat16LFNEntry]: [sequence_number] is the low six bits of the first byte, [is_last_in_sequence] the next one *)
Record Fat16LFNEntry := LFNEntry {
  sequence_number : Z;
  is_last_in_sequence : bool;
  unicode_name_1 : list Z;
  lfn_attributes : Z;
  zero_a : Z;
  lfn_checksum : Z;
  unicode_name_2 : list Z;
  zero_b : Z;
  unicode_name_3 : list Z
}.

(** [n] 16-bit values from offset [off] on *)
Definition fields16 (b : list Z) (off n : nat) : list Z := (λ i, field b (off + 2 * i) 2) <$> seq 0 n.

Definition decode_lfn (b : list Z) : Fat16LFNEntry :=
  LFNEntry (Z.land (field b 0 1) 63) (Z.testbit (field b 0 1) 6) (fields16 b 1 5) (field b 11 1) (field b 12 1)
    (field b 13 1) (fields16 b 14 6) (field b 26 2) (fields16 b 28 2).

Definition encode_lfn (e : Fat16LFNEntry) : list Z :=
  (sequence_number e + if is_last_in_sequence e then 64 else 0) ::
  concat (le_bytes 2 <$> unicode_name_1 e) ++ le_bytes 1 (lfn_attributes e) ++ le_bytes 1 (zero_a e) ++
  le_bytes 1 (lfn_checksum e) ++ concat (le_bytes 2 <$> unicode_name_2 e) ++ le_bytes 2 (zero_b e) ++
  concat (le_bytes 2 <$> unicode_name_3 e).

Definition read_fat_mode (attrs : Z) : outcome Z :=
  _ ← hcf_if (negb (Z.land attrs FILE_ATTRIBUTES_RO =? 0) || negb (Z.land attrs FILE_ATTRIBUTES_HIDDEN =? 0)
        || negb (Z.land attrs FILE_ATTRIBUTES_SYSTEM =? 0) || negb (Z.land attrs FILE_ATTRIBUTES_VOLUMEID =? 0));
  Ok (if negb (Z.land attrs FILE_ATTRIBUTES_DIRECTORY =? 0) then S_IFDIR else S_IFREG).

Definition create_fat_mode (mode : Z) : outcome Z :=
  if S_ISDIR mode then Ok FILE_ATTRIBUTES_DIRECTORY
  else if S_ISREG mode then Ok 0
  else Halt.

Definition checksum (data : list Z) : Z :=
  foldl (λ val d, u8 ((if Z.testbit val 0 then 0x80 else 0) + Z.shiftr val 1 + d)) 0 (take 11 data).

(** ** Inode numbers *)
Definition PARENT_IS_ROOT_DIR : Z := 0.
Definition I_AM_ROOT_DIR : Z := 1.

Definition get_parent_cluster_num (inode_num : Z) : Z := u16 (Z.land inode_num 0xFFFF).
Definition get_dirent_index_in_parent (inode_num : Z) : Z := u16 (Z.land (Z.shiftr inode_num 16) 0xFFFF).

(** the two 16-bit arguments are combined as [int]s, and the result is sign-extended to 64 bits *)
Definition make_inode (parent_cluster_number parent_dirent_number : Z) : outcome Z :=
  let p := u16 parent_cluster_number in
  let d := u16 parent_dirent_number in
  _ ← hcf_if ((p =? I_AM_ROOT_DIR) && negb (d =? 0));
  Ok (u64 (s32 (Z.lor p (Z.shiftl d 16)))).

Definition MAX_FAT_MOUNTS : Z := 10.
Definition CHARS_PER_LFN : Z := 13.
Definition MAX_PATH_LEN : Z := 256.

(** ** Names *)


(** [*curr++ = c] in the buffer [file_name], of 256 characters *)
Definition push_char (s : list Z * Z) (c : Z) : outcome (list Z * Z) :=
  let '(file_name, curr) := s in
  file_name ← arr_set file_name curr (u8 c);
  Ok (file_name, curr + 1).

(** one of the three loops over the characters of a long-name entry, with the flag [found_zero] *)
Fixpoint read_lfn_chars (chars : list Z) (s : list Z * Z * bool) : outcome (list Z * Z * bool) :=
  let '(buf, found_zero) := s in
  match chars with
  | [] => Ok (buf, found_zero)
  | c :: chars =>
      if (found_zero : bool) then Ok (buf, found_zero)
      else
        _ ← hcf_if (negb (Z.land c 0xFF00 =? 0));
        buf ← push_char buf c;
        read_lfn_chars chars (buf, c =? 0)
  end.

Definition read_lfn_entry (e : Fat16LFNEntry) (buf : list Z * Z) : outcome (list Z * Z) :=
  _ ← c_assert ((zero_a e =? 0) && (zero_b e =? 0));
  _ ← c_assert (lfn_attributes e =? FILE_ATTRIBUTES_LFN);
  s ← read_lfn_chars (unicode_name_1 e) (buf, false);
  s ← read_lfn_chars (unicode_name_2 e) s;
  s ← read_lfn_chars (unicode_name_3 e) s;
  Ok s.1.

(** the loop BACKWARDS through the entries *)
Fixpoint read_lfn_name (entries : list Fat16LFNEntry) (buf : list Z * Z) : outcome (list Z * Z) :=
  match entries with
  | [] => Ok buf
  | e :: entries =>
      buf ← read_lfn_name entries buf;
      read_lfn_entry e buf
  end.

(** the characters before the first space *)
Fixpoint until_space (l : list Z) : list Z :=
  match l with [] => [] | c :: l => if c =? 32 then [] else c :: until_space l end.

Definition short_name (filename : list Z) : list Z :=
  (kern_tolower <$> until_space (take 8 filename)) ++
  (if default 0 (filename !! 8%nat) =? 32 then [] else [46]) ++
  (kern_tolower <$> until_space (drop 8 filename)).

Definition no_name : list Z := replicate 256 0.

(** the short name stored at the start of the buffer *)
Definition store_short_name (filename file_name : list Z) : list Z :=
  short_name filename ++ drop (length (short_name filename)) file_name.

(** [n] characters of the new name: [done] is set after its NUL has been stored, the rest stay 0xFFFF *)
Fixpoint fill_lfn_chars (n : nat) (s : list Z * bool) : outcome (list Z * (list Z * bool)) :=
  let '(name, done) := s in
  match n with
  | O => Ok ([], s)
  | S n =>
      if (done : bool) then Ok (replicate (S n) 0xFFFF, s)
      else
        c ← arr_get name 0;
        '(chars, s) ← fill_lfn_chars n (drop 1 name, c =? 0);
        Ok (u16 (s8 c) :: chars, s)
  end.

(** [name] is what is left of the string with its NUL *)
Definition fill_lfn_entry (lfn_entry_count seq : Z) (short : list Z) (name : list Z)
    : outcome (Fat16LFNEntry * list Z) :=
  '(n1, s) ← fill_lfn_chars 5 (name, false);
  '(n2, s) ← fill_lfn_chars 6 s;
  '(n3, s) ← fill_lfn_chars 2 s;
  Ok (LFNEntry (Z.land (lfn_entry_count - seq) 63) (seq =? 1) n1 FILE_ATTRIBUTES_LFN 0 (checksum short) n2 0 n3, s.1).

(** [for(seq=lfn_entry_count-1; seq >= 0; seq--)]: the entries in the order they are stored *)
Fixpoint fill_lfn_entries (lfn_entry_count : Z) (k : nat) (short name : list Z) : outcome (list Fat16LFNEntry) :=
  match k with
  | O => Ok []
  | S k =>
      '(e, name) ← fill_lfn_entry lfn_entry_count (Z.of_nat k) short name;
      es ← fill_lfn_entries lfn_entry_count k short name;
      Ok (es ++ [e])
  end.

(** 'A' + (create_idx%26) and so on *)
Definition short_file_name (create_idx : Z) : list Z :=
  [82; 69; 65; 68; 95; 76; 70; 78; 65 + create_idx `mod` 26; 65 + (create_idx `div` 26) `mod` 26;
   65 + (create_idx `div` 26 `div` 26) `mod` 26].

Definition zero_entry : Fat16DirectoryEntry := DirEntry (replicate 11 0) 0 0 0 0 0 0 0 0 0 0 0.

(** ** Handlers *)
Section handlers.
Context {W : Type} `{!FileDevice W}.

Record fat_state := FatState { all_fat_mounts : list Fat16Volume; create_idx : Z; dev : W }.

(** [struct Fat16Volume vol = all_fat_mounts[inode_num.mount_id]] *)
Definition get_volume (inode_num : VNodeData) : io fat_state Fat16Volume := λ st,
  vol ← arr_get (all_fat_mounts st) (mount_id inode_num); Ok (vol, st).

Definition on_dev {A} (m : io W A) : io fat_state A := λ st,
  '(a, d) ← m (dev st); Ok (a, FatState (all_fat_mounts st) (create_idx st) d).

Definition read_parent_dirent (vol : Fat16Volume) (inode_num : Z) : io W Fat16DirectoryEntry :=
  let parent_cluster_num := get_parent_cluster_num inode_num in
  _ ← lift (hcf_if (parent_cluster_num =? I_AM_ROOT_DIR));
  let offset := get_dirent_index_in_parent inode_num * SIZEOF_DIRECTORY_ENTRY in
  b ← (if parent_cluster_num =? PARENT_IS_ROOT_DIR
       then read_from_root_dir vol offset SIZEOF_DIRECTORY_ENTRY
       else read_from_cluster_chain vol parent_cluster_num offset SIZEOF_DIRECTORY_ENTRY);
  mret (decode_entry b).

Definition write_parent_dirent (vol : Fat16Volume) (inode_num : Z) (value : Fat16DirectoryEntry) : io W () :=
  let parent_cluster_num := get_parent_cluster_num inode_num in
  _ ← lift (hcf_if (parent_cluster_num =? I_AM_ROOT_DIR));
  let offset := get_dirent_index_in_parent inode_num * SIZEOF_DIRECTORY_ENTRY in
  if parent_cluster_num =? PARENT_IS_ROOT_DIR
  then write_to_root_dir vol offset (encode_entry value)
  else write_to_cluster_chain vol parent_cluster_num offset (encode_entry value).

Definition stat_file (inode_num : VNodeData) : io fat_state stat :=
  vol ← get_volume inode_num;
  if get_parent_cluster_num (inode inode_num) =? I_AM_ROOT_DIR then
    sz ← lift (c_int (number_of_sectors_root_directory vol * bytes_per_sector vol));
    mret (Stat (inode inode_num) S_IFDIR 0 0 sz)
  else
    entry_in_parent ← on_dev (read_parent_dirent vol (inode inode_num));
    mode ← lift (read_fat_mode (attributes entry_in_parent));
    mret (Stat (inode inode_num) mode 0 0 (file_size_bytes entry_in_parent)).

(** entries of a directory, [cluster_number] being PARENT_IS_ROOT_DIR for the root directory *)
Definition read_directory (vol : Fat16Volume) (cluster offset n : Z) : io W (list Z) :=
  if cluster =? PARENT_IS_ROOT_DIR then read_from_root_dir vol offset n
  else read_from_cluster_chain vol cluster offset n.

(** the state of the scan of read_dirents *)
Record dirent_scan := Scan {
  directory_i : Z;
  entries_read : Z;
  file_name : list Z;
  out : list (dirent * VNode)
}.

(** one turn of [for(uint64_t directory_i=0;;)]; [inr] is the return value with the entries stored *)
Definition read_dirents_step (vol : Fat16Volume) (inode_num : VNodeData) (cluster dirent_index dirent_count : Z)
    (s : dirent_scan) : io W (dirent_scan + Z * list (dirent * VNode)) :=
  b ← read_directory vol cluster (directory_i s * SIZEOF_DIRECTORY_ENTRY) SIZEOF_DIRECTORY_ENTRY;
  let ent := decode_entry b in
  _ ← lift (hcf_if (negb (Z.land (attributes ent) 192 =? 0)));
  let first := default 0 (filename ent !! 0%nat) in
  if first =? 0 then mret (inr (Z.of_nat (length (out s)), out s))
  else if first =? 0xE5 then mret (inl s)
  else if attributes ent =? FILE_ATTRIBUTES_LFN then
    _ ← lift (c_assert (default 0 (file_name s !! 0%nat) =? 0));
    let lfn_entries := sequence_number (decode_lfn b) in
    lfn ← read_directory vol cluster (directory_i s * SIZEOF_DIRECTORY_ENTRY) (lfn_entries * SIZEOF_DIRECTORY_ENTRY);
    (* long_file_names has (MAX_PATH_LEN+CHARS_PER_LFN-1)/CHARS_PER_LFN entries *)
    _ ← lift (if lfn_entries <=? (MAX_PATH_LEN + CHARS_PER_LFN - 1) `div` CHARS_PER_LFN then Ok () else Undef);
    name ← lift (read_lfn_name
      ((λ i, decode_lfn (take 32 (drop (32 * i) lfn))) <$> seq 0 (Z.to_nat lfn_entries)) (file_name s, 0));
    mret (inl (Scan (directory_i s + lfn_entries) (entries_read s) name.1 (out s)))
  else
    _ ← lift (c_assert (zero ent =? 0));
    let name := if default 0 (file_name s !! 0%nat) =? 0 then store_short_name (filename ent) (file_name s)
      else file_name s in
    let entries_read := entries_read s + 1 in
    if dirent_index <? entries_read then
      if dirent_count <=? Z.of_nat (length (out s)) then mret (inr (dirent_count, out s))
      else
        ino ← lift (make_inode cluster (directory_i s));
        mret (inl (Scan (directory_i s + 1) entries_read no_name
          (out s ++ [(Dirent ino (until_nul name), MkVNode (VNodeId ino (mount_id inode_num)) FatOps)])))
    else mret (inl (Scan (directory_i s + 1) entries_read no_name (out s))).

(** [fuel] bounds the entries visited: the source's loop has no bound of its own *)
Definition read_dirents (fuel : nat) (inode_num : VNodeData) (dirent_index dirent_count : Z)
    : io fat_state (Z * list (dirent * VNode)) :=
  vol ← get_volume inode_num;
  cluster ←
    (if get_parent_cluster_num (inode inode_num) =? I_AM_ROOT_DIR then mret PARENT_IS_ROOT_DIR
     else e ← on_dev (read_parent_dirent vol (inode inode_num)); mret (cluster_number e));
  on_dev (io_while fuel (read_dirents_step vol inode_num cluster dirent_index dirent_count) (Scan 0 0 no_name [])).

(** what [read_file] stores in its buffer: bytes, or, for a directory, an array of [struct dirent] *)
Inductive read_buffer := FileBytes (l : list Z) | DirentArray (l : list dirent).

Definition SIZEOF_DIRENT : Z := 272.

Definition read_file (fuel : nat) (inode_num : VNodeData) (offset num_bytes : Z) : io fat_state (Z * read_buffer) :=
  st ← stat_file inode_num;
  if S_ISDIR (st_mode st) then
    _ ← lift (hcf_if (negb (offset `mod` SIZEOF_DIRENT =? 0)));
    _ ← lift (hcf_if (negb (num_bytes `mod` SIZEOF_DIRENT =? 0)));
    '(n, l) ← read_dirents fuel inode_num (offset `div` SIZEOF_DIRENT) (num_bytes `div` SIZEOF_DIRENT);
    mret (u64 (n * SIZEOF_DIRENT), DirentArray (fst <$> l))
  else
    vol ← get_volume inode_num;
    entry_in_parent ← on_dev (read_parent_dirent vol (inode inode_num));
    let num_bytes :=
      if file_size_bytes entry_in_parent <? u64 (offset + num_bytes)
      then u64 (file_size_bytes entry_in_parent - offset) else num_bytes in
    l ← on_dev (read_from_cluster_chain vol (cluster_number entry_in_parent) offset num_bytes);
    mret (num_bytes, FileBytes l).

(** "no clusters allocated to this file yet": the entry with its first cluster *)
Definition ensure_first_cluster (vol : Fat16Volume) (e : Fat16DirectoryEntry) : io W Fat16DirectoryEntry :=
  if is_invalid_cluster_num (cluster_number e) then
    first_cluster ← find_free_cluster_number vol;
    _ ← write_fat vol first_cluster 0xFFF8;
    mret (with_cluster e first_cluster)
  else mret e.

(** num_bytes is the length of [input_buf] *)
Definition write_file (inode_num : VNodeData) (offset : Z) (input_buf : list Z) : io fat_state Z :=
  let num_bytes := Z.of_nat (length input_buf) in
  vol ← get_volume inode_num;
  st ← stat_file inode_num;
  _ ← lift (hcf_if (S_ISDIR (st_mode st)));
  e ← on_dev (read_parent_dirent vol (inode inode_num));
  e ← on_dev (ensure_first_cluster vol e);
  e ← (if file_size_bytes e <? u64 (offset + num_bytes) then
         _ ← lift (hcf_if (2 ^ 32 - 1 <? u64 (offset + num_bytes)));
         mret (with_size e (u32 (offset + num_bytes)))
       else mret e);
  _ ← on_dev (write_parent_dirent vol (inode inode_num) e);
  _ ← on_dev (write_to_cluster_chain vol (cluster_number e) offset input_buf);
  mret num_bytes.

(** the length of the new file is stored in the entry before it is compared with [len] *)
Definition ftruncate (inode_num : VNodeData) (len : Z) : io fat_state () :=
  vol ← get_volume inode_num;
  st ← stat_file inode_num;
  _ ← lift (hcf_if (S_ISDIR (st_mode st)));
  e ← on_dev (read_parent_dirent vol (inode inode_num));
  e ← on_dev (ensure_first_cluster vol e);
  _ ← lift (hcf_if (2 ^ 32 - 1 <? len));
  let e := with_size e (u32 len) in
  _ ← (if file_size_bytes e <=? len then
         let num_zeroes := u32 (len - file_size_bytes e) in
         on_dev (write_to_cluster_chain vol (cluster_number e) (file_size_bytes e) (replicate (Z.to_nat num_zeroes) 0))
       else mret ());
  on_dev (write_parent_dirent vol (inode inode_num) e).

(** the scan for the end sentinel of the root directory *)
Definition find_root_end (fuel : nat) (vol : Fat16Volume) : io W Z :=
  io_while fuel (λ offset,
    b ← read_from_root_dir vol offset SIZEOF_DIRECTORY_ENTRY;
    mret (if default 0 (filename (decode_entry b) !! 0%nat) =? 0 then inr offset
          else inl (offset + SIZEOF_DIRECTORY_ENTRY))) 0.

(** the long-name entries of a node called [name], in the order they are stored *)
Definition new_lfn_entries (create_idx : Z) (name : list Z) : outcome (list Fat16LFNEntry) :=
  let len := Z.of_nat (length name) in
  _ ← hcf_if (CHARS_PER_LFN * 65 <=? len);
  let lfn_entry_count := u8 ((len + CHARS_PER_LFN) `div` CHARS_PER_LFN) in
  fill_lfn_entries lfn_entry_count (Z.to_nat lfn_entry_count) (short_file_name create_idx) (name ++ [0]).

(** the array [entries_to_insert], of 65 elements: the long-name entries, the entry itself and the end sentinel *)
Definition entries_to_insert (lfn : list Fat16LFNEntry) (e : Fat16DirectoryEntry) : outcome (list (list Z)) :=
  if Z.of_nat (length lfn) + 2 <=? 65
  then Ok ((encode_lfn <$> lfn) ++ [encode_entry e; encode_entry zero_entry])
  else Undef.

(** a new directory gets a cluster holding an end sentinel: its first cluster and size, 0 for a file *)
Definition new_inode_cluster (vol : Fat16Volume) (new_inode_type : Z) : io W (Z * Z) :=
  if S_ISDIR new_inode_type then
    cluster ← find_free_cluster_number vol;
    _ ← write_fat vol cluster 0xFFF8;
    _ ← write_to_cluster_chain vol cluster 0 (encode_entry zero_entry);
    mret (cluster, SIZEOF_DIRECTORY_ENTRY)
  else mret (0, 0).

Definition create_inode (fuel : nat) (parent_inode_num : VNodeData) (new_inode_type : Z) (name : list Z)
    : io fat_state Z :=
  vol ← get_volume parent_inode_num;
  st ← stat_file parent_inode_num;
  _ ← lift (hcf_if (negb (S_ISDIR (st_mode st))));
  idx ← (λ st, Ok (create_idx st, FatState (all_fat_mounts st) (u32 (create_idx st + 1)) (dev st)));
  lfn ← lift (new_lfn_entries idx name);
  '(cluster, sz) ← on_dev (new_inode_cluster vol new_inode_type);
  attrs ← lift (create_fat_mode new_inode_type);
  entries ← lift (entries_to_insert lfn (DirEntry (short_file_name idx) attrs 0 0 0 0 0 0 0 0 cluster sz));
  _ ← (if inode parent_inode_num =? I_AM_ROOT_DIR then
         offset ← on_dev (find_root_end fuel vol);
         on_dev (write_to_root_dir vol offset (concat entries))
       else
         e ← on_dev (read_parent_dirent vol (inode parent_inode_num));
         let offset := u32 (file_size_bytes e - SIZEOF_DIRECTORY_ENTRY) in
         let e := with_size e (u32 (file_size_bytes e + SIZEOF_DIRECTORY_ENTRY * (Z.of_nat (length entries) - 1))) in
         _ ← on_dev (write_parent_dirent vol (inode parent_inode_num) e);
         on_dev (write_to_cluster_chain vol (cluster_number e) offset (concat entries)));
  mret 0.

(** ** Mounting: [struct Fat16Header] is the first 512 bytes of the volume *)
Definition hdr_bytes_per_sector (hdr : list Z) : Z := field hdr 11 2.
Definition hdr_sectors_per_cluster (hdr : list Z) : Z := field hdr 13 1.
Definition hdr_reserved_sectors (hdr : list Z) : Z := field hdr 14 2.
Definition hdr_file_allocation_tables_count (hdr : list Z) : Z := field hdr 16 1.
Definition hdr_number_of_root_directory_entries (hdr : list Z) : Z := field hdr 17 2.
Definition hdr_number_of_sectors (hdr : list Z) : Z := field hdr 19 2.
Definition hdr_number_of_sectors_per_fat (hdr : list Z) : Z := field hdr 22 2.
Definition hdr_large_sector_count (hdr : list Z) : Z := field hdr 32 4.
Definition hdr_signature (hdr : list Z) : Z := field hdr 38 1.
Definition hdr_bootable_partition_signature (hdr : list Z) : Z := field hdr 510 2.

Definition check_header (hdr : list Z) : outcome () :=
  _ ← hcf_if (hdr_reserved_sectors hdr <? 1);
  _ ← hcf_if (hdr_number_of_root_directory_entries hdr <? 1);
  _ ← hcf_if ((hdr_number_of_sectors hdr =? 0) && (hdr_large_sector_count hdr =? 0));
  _ ← hcf_if (hdr_number_of_sectors_per_fat hdr <? 1);
  _ ← hcf_if (negb (hdr_signature hdr =? 0x28) && negb (hdr_signature hdr =? 0x29));
  hcf_if (negb (hdr_bootable_partition_signature hdr =? 0xAA55)).

(** [while(all_fat_mounts[mount_id].number_of_fats) { mount_id++; if(mount_id == MAX_FAT_MOUNTS) HCF }] *)
Definition find_free_mount (mounts : list Fat16Volume) : outcome Z :=
  c_while (S (Z.to_nat MAX_FAT_MOUNTS)) (λ mount_id,
    vol ← arr_get mounts mount_id;
    if number_of_fats vol =? 0 then Ok (inr mount_id)
    else
      _ ← hcf_if (mount_id + 1 =? MAX_FAT_MOUNTS);
      Ok (inl (mount_id + 1))) 0.

Definition volume_of_header (block_device : VNode) (hdr : list Z) : outcome Fat16Volume :=
  _ ← (if hdr_bytes_per_sector hdr =? 0 then Undef else Ok ());
  Ok (MkVolume block_device (hdr_reserved_sectors hdr) (hdr_file_allocation_tables_count hdr)
    (hdr_number_of_sectors_per_fat hdr) (hdr_bytes_per_sector hdr) (hdr_sectors_per_cluster hdr)
    (u16 ((hdr_number_of_root_directory_entries hdr * SIZEOF_DIRECTORY_ENTRY + hdr_bytes_per_sector hdr - 1)
          `div` hdr_bytes_per_sector hdr))).

Definition add_volume (block_device : VNode) (hdr : list Z) : io fat_state VNode := λ st,
  mount_id ← find_free_mount (all_fat_mounts st);
  vol ← volume_of_header block_device hdr;
  mounts ← arr_set (all_fat_mounts st) mount_id vol;
  ino ← make_inode I_AM_ROOT_DIR 0;
  Ok (MkVNode (VNodeId ino mount_id) FatRootOps, FatState mounts (create_idx st) (dev st)).

(** the node the kernel is asked to mount at the path [mount_name] *)
Definition mount_fat16 (block_device : VNode) : io fat_state VNode :=
  hdr ← on_dev (fread (id block_device) 0 512);
  _ ← lift (check_header hdr);
  add_volume block_device hdr.
End handlers.
Arguments fat_state W : clear implicits.
