(* ===== verification/FatName.v ===== *)
(** * Names and records of a FAT16 volume: round trips

    What create_inode writes, read_dirents reads back: directory entries,
    long-name entries and the name spread over them; inode numbers. *)
From S2P Require Import Prelude Bytes Vfs FatVolume FatFile.

(** ** Directory entries *)
Definition u8_range (x : Z) : Prop := 0 ≤ x < 2 ^ 8.
Definition u16_range (x : Z) : Prop := 0 ≤ x < 2 ^ 16.
Definition u32_range (x : Z) : Prop := 0 ≤ x < 2 ^ 32.

Record entry_ok (e : Fat16DirectoryEntry) : Prop := {
  ok_filename : length (filename e) = 11%nat ∧ Forall is_byte (filename e);
  ok_bytes : Forall u8_range [attributes e; reserved e; creation_time_hundredths e];
  ok_words : Forall u16_range [creation_time e; creation_date e; access_date e; zero e; modification_time e;
    modification_date e; cluster_number e];
  ok_size : u32_range (file_size_bytes e);
}.

Lemma encode_entry_length e : length (filename e) = 11%nat → length (encode_entry e) = 32%nat.
Proof. intros H. unfold encode_entry. by rewrite !length_app, !le_bytes_length, H. Qed.

Lemma encode_entry_bytes e : entry_ok e → Forall is_byte (encode_entry e).
Proof.
  intros [[_ Hf] _ _ _]. unfold encode_entry. repeat (apply Forall_app; split); try apply le_bytes_byte. done.
Qed.

(** A field laid out behind [pre]. *)
Lemma field_mid pre n v post off :
  off = length pre → field (pre ++ le_bytes n v ++ post) off n = v `mod` 256 ^ Z.of_nat n.
Proof.
  intros ->. unfold field. rewrite drop_app_length. rewrite <-(le_bytes_length n v) at 1.
  by rewrite take_app_length, le_val_bytes.
Qed.

Lemma le_bytes_field b off n :
  (off + n ≤ length b)%nat → Forall is_byte b → le_bytes n (field b off n) = take n (drop off b).
Proof.
  intros Hl Hb. unfold field. assert (length (take n (drop off b)) = n) as E by (rewrite length_take, length_drop; lia).
  rewrite <-E at 1. apply le_bytes_val. by apply Forall_take, Forall_drop.
Qed.

Lemma field_range b off n : (off + n ≤ length b)%nat → Forall is_byte b → 0 ≤ field b off n < 256 ^ Z.of_nat n.
Proof.
  intros Hl Hb. unfold field.
  pose proof (le_val_range (take n (drop off b)) ltac:(by apply Forall_take, Forall_drop)) as H.
  by rewrite length_take, length_drop, Nat.min_l in H by lia.
Qed.

(** the fields of a packed record, one behind the other *)
Fixpoint pack (l : list (nat * Z)) : list Z :=
  match l with [] => [] | (n, v) :: l => le_bytes n v ++ pack l end.

Fixpoint unpack (sizes : list nat) (off : nat) (b : list Z) : list Z :=
  match sizes with [] => [] | n :: sizes => field b off n :: unpack sizes (off + n) b end.

Definition fits (p : nat * Z) : Prop := 0 ≤ p.2 < 256 ^ Z.of_nat p.1.

Ltac forall_inv :=
  repeat match goal with
  | H : Forall _ (_ :: _) |- _ => let H' := fresh in apply Forall_cons in H as [H' H]
  | H : Forall _ [] |- _ => clear H
  end.
Ltac forall_intro := repeat (apply Forall_cons_2); try apply Forall_nil_2.

(** the bound of a field, evaluated *)
Ltac fits_eval :=
  change (256 ^ Z.of_nat 1) with (2 ^ 8) in *; change (256 ^ Z.of_nat 2) with (2 ^ 16) in *;
  change (256 ^ Z.of_nat 4) with (2 ^ 32) in *.

Lemma unpack_pack pre l : Forall fits l → unpack l.*1 (length pre) (pre ++ pack l) = l.*2.
Proof.
  revert pre. induction l as [|[n v] l IH]; intros pre; [done|]. intros [Hv Hl]%Forall_cons. simpl.
  rewrite field_mid, Z.mod_small by done. f_equal. rewrite app_assoc.
  specialize (IH (pre ++ le_bytes n v) Hl). by rewrite length_app, le_bytes_length in IH.
Qed.

Lemma pack_unpack sizes off b :
  (off + sum_list sizes = length b)%nat → Forall is_byte b → pack (zip sizes (unpack sizes off b)) = drop off b.
Proof.
  revert off. induction sizes as [|n sizes IH]; intros off Hl Hb; simpl in *.
  - by rewrite drop_ge by lia.
  - rewrite le_bytes_field, IH by (done || lia). rewrite <-drop_drop. by rewrite take_drop.
Qed.

Lemma unpack_range sizes off b :
  (off + sum_list sizes ≤ length b)%nat → Forall is_byte b → Forall fits (zip sizes (unpack sizes off b)).
Proof.
  revert off. induction sizes as [|n sizes IH]; intros off Hl Hb; simpl in *; constructor.
  - unfold fits; simpl. apply field_range; (done || lia).
  - apply IH; (done || lia).
Qed.

Definition entry_sizes : list nat := [1; 1; 1; 2; 2; 2; 2; 2; 2; 2; 4]%nat.
Definition entry_values (e : Fat16DirectoryEntry) : list Z :=
  [attributes e; reserved e; creation_time_hundredths e; creation_time e; creation_date e; access_date e; zero e;
   modification_time e; modification_date e; cluster_number e; file_size_bytes e].

Lemma encode_entry_pack e : encode_entry e = filename e ++ pack (zip entry_sizes (entry_values e)).
Proof. unfold encode_entry, entry_sizes, entry_values. reflexivity. Qed.

Lemma entry_fits e : entry_ok e → Forall fits (zip entry_sizes (entry_values e)).
Proof.
  intros [_ Hb Hw Hs]. forall_inv. unfold entry_sizes, entry_values. simpl.
  unfold u8_range, u16_range, u32_range in *. destruct_and!.
  forall_intro; unfold fits; simpl; fits_eval; lia.
Qed.

Lemma decode_encode_entry e : entry_ok e → decode_entry (encode_entry e) = e.
Proof.
  intros He. destruct (ok_filename _ He) as [Hl _]. rewrite encode_entry_pack.
  pose proof (unpack_pack (filename e) _ (entry_fits _ He)) as H. rewrite Hl in H.
  unfold decode_entry. rewrite <-Hl at 1. rewrite take_app_length. simpl in H |- *.
  injection H as -> -> -> -> -> -> -> -> -> -> ->. by destruct e.
Qed.

Lemma decode_entry_ok b : length b = 32%nat → Forall is_byte b → entry_ok (decode_entry b).
Proof.
  intros Hl Hb. pose proof (unpack_range entry_sizes 11 b ltac:(by rewrite Hl) Hb) as Hr.
  simpl in Hr. forall_inv. unfold fits in *. simpl in *. fits_eval.
  split; simpl; unfold u8_range, u16_range, u32_range; [|by forall_intro..|done].
  split; [by rewrite length_take, Hl|by apply Forall_take].
Qed.

Lemma encode_decode_entry b : length b = 32%nat → Forall is_byte b → encode_entry (decode_entry b) = b.
Proof.
  intros Hl Hb. rewrite encode_entry_pack. etrans; [|by apply (take_drop 11 b)]. f_equal.
  rewrite <-(pack_unpack entry_sizes 11 b); [done|by rewrite Hl|done].
Qed.

(** a directory entry written to the disk and read back is the same entry, and 32 bytes read as an entry and written back are the same bytes. *)
Theorem directory_entry_roundtrip :
  (∀ e, entry_ok e → decode_entry (encode_entry e) = e) ∧
  (∀ b, length b = 32%nat → Forall is_byte b → entry_ok (decode_entry b) ∧ encode_entry (decode_entry b) = b).
Proof.
  split; [exact decode_encode_entry|]. intros b Hl Hb. split; [by apply decode_entry_ok|by apply encode_decode_entry].
Qed.

(** ** Inode numbers *)

(** an inode number made from a parent cluster and an entry index gives both back, for every 16-bit cluster and index, although it is assembled in signed 32-bit arithmetic; only for the reserved parent number 1, with a nonzero index, the machine halts. *)
Theorem make_inode_roundtrip parent index :
  u16_range parent → u16_range index →
  match make_inode parent index with
  | Ok ino => 0 ≤ ino < 2 ^ 64 ∧ get_parent_cluster_num ino = parent ∧ get_dirent_index_in_parent ino = index
  | Halt => parent = I_AM_ROOT_DIR ∧ index ≠ 0
  | _ => False
  end.
Proof.
  unfold u16_range. intros Hp Hd. unfold make_inode. rewrite !(wrap_small 16) by lia. unfold hcf_if. case_if; [done|].
  simpl. split; [by apply wrap_range|]. rewrite lor_shiftl by lia.
  unfold get_parent_cluster_num, get_dirent_index_in_parent.
  rewrite Z.shiftr_div_pow2, !(land_ones_mod _ 16) by (done || lia).
  unfold wrap, signed. dlia.
Qed.

(** ** Long names *)

(** the buffer after the characters [pre] have been stored *)
Definition name_buffer (pre : list Z) : list Z * Z :=
  (pre ++ replicate (256 - length pre) 0, Z.of_nat (length pre)).

Lemma push_char_buffer pre c :
  (length pre < 256)%nat → push_char (name_buffer pre) c = Ok (name_buffer (pre ++ [u8 c])).
Proof.
  intros Hl. unfold push_char, name_buffer.
  rewrite arr_set_in_range by (rewrite length_app, length_replicate; lia). simpl. f_equal. f_equal.
  - rewrite Nat2Z.id. rewrite insert_app_r_alt, Nat.sub_diag by lia. rewrite length_app. simpl.
    replace (256 - length pre)%nat with (S (256 - (length pre + 1))) by lia. simpl. by rewrite <-app_assoc.
  - rewrite length_app. simpl. lia.
Qed.

#[local] Arguments push_char : simpl never.
#[local] Arguments name_buffer : simpl never.

(** a character that can be stored and read back *)
Definition ascii (c : Z) : Prop := 0 < c < 128.

Lemma ascii_u16 c : ascii c → u16 (s8 c) = c ∧ Z.land c 0xFF00 = 0 ∧ u8 c = c ∧ c ≠ 0.
Proof.
  unfold ascii. intros H. rewrite signed_small by lia. rewrite !wrap_small by lia. split_and!; try lia.
  change 0xFF00 with (Z.shiftl 0xFF 8). apply land_shiftl_0; lia.
Qed.

Lemma read_lfn_chars_app l1 l2 s :
  (s ← read_lfn_chars l1 s; read_lfn_chars l2 s) = read_lfn_chars (l1 ++ l2) s.
Proof.
  revert s. induction l1 as [|c l1 IH]; intros [buf z]; [done|]. simpl. destruct z.
  - simpl. by destruct l2.
  - destruct (hcf_if _); try done. simpl. destruct (push_char buf c); try done. simpl. apply IH.
Qed.

Lemma read_lfn_chars_ascii l pre rest :
  Forall ascii l → (length pre + length l ≤ 256)%nat →
  read_lfn_chars (l ++ rest) (name_buffer pre, false) = read_lfn_chars rest (name_buffer (pre ++ l), false).
Proof.
  intros Hl. revert pre. induction Hl as [|c l Hc Hl IH]; intros pre Hlen; [by rewrite app_nil_r|].
  destruct (ascii_u16 c Hc) as (_ & H1 & H2 & H3). simpl in *. rewrite H1. simpl.
  rewrite push_char_buffer by lia. simpl. replace (c =? 0) with false by lia.
  rewrite H2, IH by (rewrite length_app; simpl; lia). by rewrite <-app_assoc.
Qed.

(** reading the end of a name stops behind its NUL *)
Lemma read_lfn_chars_end l pre rest :
  Forall ascii l → (length pre + length l < 256)%nat →
  read_lfn_chars (l ++ 0 :: rest) (name_buffer pre, false) = Ok (name_buffer (pre ++ l ++ [0]), true).
Proof.
  intros Hl Hlen. rewrite read_lfn_chars_ascii by (done || lia). simpl. rewrite push_char_buffer by (rewrite length_app; lia).
  simpl. rewrite <-app_assoc. by destruct rest.
Qed.

Lemma fill_lfn_chars_app n m s :
  ('(l1, s) ← fill_lfn_chars n s; '(l2, s) ← fill_lfn_chars m s; Ok (l1 ++ l2, s)) = fill_lfn_chars (n + m) s.
Proof.
  revert s. induction n as [|n IH]; intros [name dn]; simpl.
  - by destruct (fill_lfn_chars m (name, dn)) as [[]| | |].
  - destruct dn; simpl.
    + destruct m as [|m]; simpl; [by rewrite Nat.add_0_r, app_nil_r|].
      f_equal. f_equal. by rewrite replicate_add.
    + destruct (arr_get name 0); try done. simpl. rewrite <-IH.
      destruct (fill_lfn_chars n _) as [[? ?]| | |]; try done. simpl.
      by destruct (fill_lfn_chars m _) as [[? ?]| | |].
Qed.

Lemma fill_lfn_chars_ascii l rest :
  Forall ascii l → fill_lfn_chars (length l) (l ++ rest, false) = Ok (l, (rest, false)).
Proof.
  induction 1 as [|c l Hc Hl IH]; [done|]. destruct (ascii_u16 c Hc) as (H1 & _ & _ & H3).
  simpl. change (drop 0 (l ++ rest)) with (l ++ rest). replace (c =? 0) with false by lia.
  rewrite IH. simpl. by rewrite H1.
Qed.

Lemma fill_lfn_chars_end l n :
  Forall ascii l → (length l < n)%nat →
  ∃ s, fill_lfn_chars n (l ++ [0], false) = Ok (l ++ 0 :: replicate (n - length l - 1) 0xFFFF, s).
Proof.
  intros Hl Hn. remember (n - length l - 1)%nat as k eqn:Hk.
  assert (n = (length l + S k)%nat) as -> by lia. clear Hk Hn.
  rewrite <-fill_lfn_chars_app, fill_lfn_chars_ascii by done. simpl.
  destruct k; simpl; eauto.
Qed.

Definition lfn_chars (e : Fat16LFNEntry) : list Z := unicode_name_1 e ++ unicode_name_2 e ++ unicode_name_3 e.

(** an entry whose fields fit their widths *)
Record lfn_ok (e : Fat16LFNEntry) : Prop := {
  lfn_seq : 0 ≤ sequence_number e < 64;
  lfn_lengths : length (unicode_name_1 e) = 5%nat ∧ length (unicode_name_2 e) = 6%nat ∧ length (unicode_name_3 e) = 2%nat;
  lfn_words : Forall u16_range (lfn_chars e);
  lfn_plain : lfn_attributes e = FILE_ATTRIBUTES_LFN ∧ zero_a e = 0 ∧ zero_b e = 0;
  lfn_check : u8_range (lfn_checksum e);
}.

Lemma read_lfn_entry_chars e buf :
  lfn_ok e → read_lfn_entry e buf = s ← read_lfn_chars (lfn_chars e) (buf, false); Ok s.1.
Proof.
  intros [_ _ _ (Ha & H1 & H2) _]. unfold read_lfn_entry, lfn_chars. rewrite Ha, H1, H2. simpl.
  rewrite <-read_lfn_chars_app.
  destruct (read_lfn_chars (unicode_name_1 e) (buf, false)) as [s| | |]; try done. simpl.
  rewrite <-read_lfn_chars_app. by destruct (read_lfn_chars (unicode_name_2 e) s).
Qed.

Lemma fill_lfn_chars_length n s l s' : fill_lfn_chars n s = Ok (l, s') → length l = n ∧ Forall u16_range l.
Proof.
  revert s l s'. induction n as [|n IH]; intros [name dn] l s' E; simpl in E.
  - injection E as <- <-. by split.
  - destruct dn; simpl in E.
    + injection E as <- <-. split; [by rewrite length_cons, length_replicate|].
      change (0xFFFF :: replicate n 0xFFFF) with (replicate (S n) 0xFFFF). apply Forall_replicate. done.
    + apply bind_Ok in E as (c & Ec & E). apply bind_Ok in E as ([l2 s2] & E2 & E). injection E as <- <-.
      destruct (IH _ _ _ E2) as [Hl Hw]. split; [simpl; lia|]. constructor; [|done]. by apply wrap_range.
Qed.

Lemma checksum_range l : u8_range (checksum l).
Proof.
  unfold checksum. assert (∀ k v, u8_range v → u8_range (foldl (λ val d,
    u8 ((if Z.testbit val 0 then 0x80 else 0) + Z.shiftr val 1 + d)) v k)) as H; [|by apply H].
  induction k as [|d k IH]; intros v Hv; simpl; [done|]. apply IH. by apply wrap_range.
Qed.

#[local] Arguments fill_lfn_chars : simpl never.
#[local] Arguments Z.testbit : simpl never.

(** The 13 characters of an entry are filled as one run. *)
Lemma fill_lfn_entry_spec count seq short name l s :
  fill_lfn_chars 13 (name, false) = Ok (l, s) →
  ∃ e, fill_lfn_entry count seq short name = Ok (e, s.1) ∧ lfn_chars e = l ∧ lfn_ok e ∧
    sequence_number e = Z.land (count - seq) 63.
Proof.
  intros E. change 13%nat with (5 + (6 + 2))%nat in E. rewrite <-fill_lfn_chars_app in E.
  apply bind_Ok in E as ([l1 s1] & E1 & E). apply bind_Ok in E as ([l23 s3] & E23 & E). injection E as <- <-.
  rewrite <-fill_lfn_chars_app in E23.
  apply bind_Ok in E23 as ([l2 s2] & E2 & E). apply bind_Ok in E as ([l3 s3'] & E3 & E). injection E as <- <-.
  unfold fill_lfn_entry. rewrite E1. simpl. rewrite E2. simpl. rewrite E3. simpl.
  destruct (fill_lfn_chars_length _ _ _ _ E1), (fill_lfn_chars_length _ _ _ _ E2), (fill_lfn_chars_length _ _ _ _ E3).
  eexists. split; [done|]. split; [done|]. split; [|done]. split; simpl.
  - rewrite (land_ones_mod _ 6) by done. apply Z.mod_pos_bound. lia.
  - done.
  - unfold lfn_chars. simpl. by rewrite !Forall_app.
  - done.
  - apply checksum_range.
Qed.

Lemma read_lfn_name_snoc es e buf :
  read_lfn_name (es ++ [e]) buf = buf ← read_lfn_entry e buf; read_lfn_name es buf.
Proof.
  induction es as [|e' es IH]; simpl.
  - by destruct (read_lfn_entry e buf).
  - rewrite IH. by destruct (read_lfn_entry e buf).
Qed.

Lemma fill_lfn_entries_spec count short k l pre :
  Forall ascii l → (k = length l / 13 + 1)%nat → (length pre + length l < 256)%nat →
  ∃ es, fill_lfn_entries count k short (l ++ [0]) = Ok es ∧ length es = k ∧ Forall lfn_ok es ∧
    read_lfn_name es (name_buffer pre) = Ok (name_buffer (pre ++ l ++ [0])) ∧
    (∃ e, es !! 0%nat = Some e ∧ sequence_number e = Z.land count 63) ∧
    Forall (λ e, ∃ j, 0 ≤ j < Z.of_nat k ∧ sequence_number e = Z.land (count - j) 63) es.
Proof.
  intros Hl. revert l pre Hl. induction k as [|k IH]; intros l pre Hl Hk Hlen; [lia|]. simpl.
  destruct (decide (length l < 13)%nat) as [Hs|Hs].
  - assert (k = 0%nat) as -> by (rewrite Nat.div_small in Hk by lia; lia).
    destruct (fill_lfn_chars_end l 13 Hl Hs) as [s Es].
    destruct (fill_lfn_entry_spec count (Z.of_nat 0) short _ _ _ Es) as (e & -> & Hc & Hok & Hseq). simpl.
    exists [e]. split_and!; [done|done|by constructor| | |constructor; [by exists 0|constructor]].
    + simpl. rewrite read_lfn_entry_chars, Hc, read_lfn_chars_end by (done || lia). done.
    + exists e. split; [done|]. rewrite Hseq. f_equal. lia.
  - rewrite <-(take_drop 13 l), <-app_assoc.
    assert (length (take 13 l) = 13%nat) as Ht by (rewrite length_take; lia).
    pose proof (fill_lfn_chars_ascii (take 13 l) (drop 13 l ++ [0]) ltac:(by apply Forall_take)) as Es. rewrite Ht in Es.
    destruct (fill_lfn_entry_spec count (Z.of_nat k) short _ _ _ Es) as (e & -> & Hc & Hok & Hseq). simpl.
    destruct (IH (drop 13 l) (pre ++ take 13 l)) as (es & -> & He & Hoks & Hread & (e0 & He0 & Hseq0) & Hords).
    + by apply Forall_drop.
    + rewrite length_drop. replace (length l) with (length l - 13 + 1 * 13)%nat in Hk by lia.
      rewrite Nat.div_add in Hk by lia. lia.
    + rewrite length_app, Ht, length_drop. lia.
    + simpl. exists (es ++ [e]). split_and!; [done|rewrite length_app; simpl; lia|apply Forall_app; split; [done|constructor; [done|constructor]]| | |].
      * rewrite read_lfn_name_snoc, read_lfn_entry_chars, Hc by done.
        rewrite <-(app_nil_r (take 13 l)) at 1. rewrite read_lfn_chars_ascii by first [by apply Forall_take | lia].
        simpl. rewrite Hread. by rewrite <-!app_assoc.
      * exists e0. split; [|done]. by apply lookup_app_l_Some.
      * apply Forall_app. split; [|constructor; [exists (Z.of_nat k); split; [lia|done]|constructor]].
        eapply Forall_impl; [exact Hords|]. intros e1 (j & Hj & Ej). exists j. split; [lia|done].
Qed.

Lemma le_val_u16 x : u16_range x → x `mod` 256 + 256 * ((x `div` 256) `mod` 256 + 256 * 0) = x.
Proof. unfold u16_range. intros. dlia. Qed.

Lemma lfn_entry_roundtrip e : lfn_ok e → decode_lfn (encode_lfn e) = e.
Proof.
  destruct e as [seq last n1 a za ck n2 zb n3]. intros [Hs (H1 & H2 & H3) Hw Hp Hc]. unfold lfn_chars in Hw. simpl in *. destruct Hp as (-> & -> & ->).
  do 6 (destruct n1 as [|? n1]; try discriminate H1). do 7 (destruct n2 as [|? n2]; try discriminate H2).
  do 3 (destruct n3 as [|? n3]; try discriminate H3). clear H1 H2 H3. simpl in Hw. forall_inv.
  unfold decode_lfn, encode_lfn, fields16, field. simpl. rewrite !le_val_u16 by done.
  unfold u8_range in Hc. f_equal.
  - rewrite (land_ones_mod _ 6) by done. destruct last; dlia.
  - rewrite Z.testbit_eqb by lia. destruct last; [apply Z.eqb_eq|apply Z.eqb_neq]; dlia.
  - dlia.
Qed.

Lemma until_nul_app l rest : Forall ascii l → until_nul (l ++ 0 :: rest) = l.
Proof.
  induction 1 as [|c l Hc Hl IH]; [done|]. simpl. unfold ascii in Hc. replace (c =? 0) with false by lia. by rewrite IH.
Qed.

(** What create_inode writes for a name. *)
Lemma new_lfn_entries_spec idx name :
  Forall ascii name → (length name < 256)%nat →
  ∃ es, new_lfn_entries idx name = Ok es ∧ Z.of_nat (length es) = Z.of_nat (length name) `div` CHARS_PER_LFN + 1 ∧
    Forall lfn_ok es ∧ Forall (λ e, sequence_number e ≠ 0) es ∧
    (∃ e, es !! 0%nat = Some e ∧ sequence_number e = Z.of_nat (length es)) ∧
    ∃ file_name curr, read_lfn_name es (no_name, 0) = Ok (file_name, curr) ∧ until_nul file_name = name.
Proof.
  intros Hn Hl. unfold new_lfn_entries, CHARS_PER_LFN, hcf_if.
  replace (13 * 65 <=? Z.of_nat (length name)) with false by lia. simpl.
  assert (Z.of_nat (length name / 13 + 1)%nat = Z.of_nat (length name) `div` 13 + 1) as Hcount.
  { rewrite Nat2Z.inj_add, Nat2Z.inj_div. done. }
  assert (0 ≤ Z.of_nat (length name) `div` 13 < 20) by dlia.
  replace ((Z.of_nat (length name) + 13) `div` 13) with (Z.of_nat (length name) `div` 13 + 1) by dlia.
  rewrite wrap_small by lia.
  destruct (fill_lfn_entries_spec (Z.of_nat (length name) `div` 13 + 1) (short_file_name idx) (length name / 13 + 1) name []
    Hn eq_refl ltac:(simpl; lia)) as (es & E & Hlen & Hok & Hread & (e & He & Hseq) & Hords).
  replace (Z.to_nat (Z.of_nat (length name) `div` 13 + 1)) with (length name / 13 + 1)%nat by lia.
  exists es. rewrite E. split_and!; [done|lia|done| |exists e; split; [done|]|].
  - eapply Forall_impl; [exact Hords|]. cbn beta. intros e' (j & Hj & ->). rewrite (land_ones_mod _ 6), Z.mod_small by lia. lia.
  - rewrite Hseq, Hlen, Hcount. rewrite (land_ones_mod _ 6) by done. rewrite Z.mod_small by lia. done.
  - change (no_name, 0) with (name_buffer []). rewrite Hread. eexists _, _. split; [reflexivity|].
    rewrite app_nil_l, <-app_assoc. simpl. by apply until_nul_app.
Qed.

(** C26: the long-name entries that create_inode writes for an ASCII name of at most 255 characters are read back by read_dirents as exactly that name: the first entry on the disk announces how many there are (never more than the reader's array holds), each entry survives the trip through its 32 bytes, and the characters come out in order. *)
Theorem long_name_roundtrip idx name :
  Forall ascii name → (length name < 256)%nat →
  ∃ es, new_lfn_entries idx name = Ok es ∧
    Z.of_nat (length es) = Z.of_nat (length name) `div` CHARS_PER_LFN + 1 ∧
    Z.of_nat (length es) ≤ (MAX_PATH_LEN + CHARS_PER_LFN - 1) `div` CHARS_PER_LFN ∧
    (∃ e, es !! 0%nat = Some e ∧ sequence_number e = Z.of_nat (length es)) ∧
    (decode_lfn ∘ encode_lfn <$> es) = es ∧
    ∃ file_name curr, read_lfn_name es (no_name, 0) = Ok (file_name, curr) ∧ until_nul file_name = name.
Proof.
  intros Hn Hl. destruct (new_lfn_entries_spec idx name Hn Hl) as (es & E & Hlen & Hok & _ & He & Hread).
  exists es. rewrite E. split_and!; [done|done| |done| |done].
  - rewrite Hlen. unfold CHARS_PER_LFN. change ((MAX_PATH_LEN + 13 - 1) `div` 13) with 20. dlia.
  - apply list_eq. intros i. rewrite list_lookup_fmap. destruct (es !! i) as [e'|] eqn:Ei; [|done]. simpl.
    f_equal. apply lfn_entry_roundtrip. by eapply Forall_lookup_1 in Hok.
Qed.
