(* ===== verification/FatSpec.v ===== *)
(** * Reading and writing files of a FAT16 volume: what the handlers of FatFile.v do *)
From S2P Require Import Prelude Bytes Vfs FatVolume FatChain FatFile FatName.

Section spec.
Context {W : Type} `{!FileDevice W} (vol : Fat16Volume) (size : Z).
Context (Hlay : layout_ok vol size).
Implicit Types (w : W) (f g : Z → Z) (P L : list Z) (e : Fat16DirectoryEntry).

#[local] Abbreviation dev_is := (dev_is vol size).
#[local] Abbreviation chain := (chain vol).
#[local] Abbreviation fat := (fat vol).
#[local] Abbreviation pos := (pos vol).
#[local] Abbreviation bpc := (bpc vol).
#[local] Abbreviation free_cluster := (free_cluster vol).
#[local] Abbreviation free_list := (free_list vol).
#[local] Abbreviation updated := (updated vol).

Lemma dev_is_byte w f a : dev_is w f → 0 ≤ a < size → is_byte (f a).
Proof. intros (Hok & Hs & Hf) Ha. rewrite <-Hf by done. apply fbyte_range; [done|lia]. Qed.

Lemma wp_on_dev {A} H (m : io W A) (st : fat_state W) Q :
  wp H (m (dev st)) (λ '(a, d), Q (a, FatState (all_fat_mounts st) (create_idx st) d)) → wp H (on_dev m st) Q.
Proof. intros Hm. apply wp_bind. eapply wp_mono; [done|]. by intros []. Qed.

(** *** The root directory *)
Lemma root_dir_address_spec off n :
  0 ≤ off → off `mod` 32 = 0 → 0 ≤ n → n `mod` 32 = 0 → off + n < root_size vol →
  root_dir_address vol off n = Ok (root_start vol + off).
Proof.
  intros Ho Hom Hn Hnm Hsz. unfold root_dir_address, SIZEOF_DIRECTORY_ENTRY. rewrite Hom, Hnm. simpl.
  pose proof (fat_region vol size Hlay) as (Hr1 & Hr2 & Hr3). pose proof (lay_data _ _ Hlay) as Hd.
  pose proof (lay_clusters _ _ Hlay).
  unfold data_start in *. unfold root_dir_start_byte. fold (root_start vol) (root_size vol).
  rewrite !c_int_ok by lia. simpl. rewrite !wrap_small by lia.
  unfold hcf_if. case_if; [lia|]. simpl. done.
Qed.

(** *** The entry of a file in its parent directory *)

(** the address of byte [k] of the entry of [ino], [P] being the clusters of the parent directory *)
Definition entry_addr (ino : Z) P (k : Z) : Z :=
  let d := get_dirent_index_in_parent ino in
  if get_parent_cluster_num ino =? PARENT_IS_ROOT_DIR then root_start vol + (32 * d + k) else pos P (32 * d + k).

Definition entry_bytes f (ino : Z) P : list Z := (λ k, f (entry_addr ino P k)) <$> seqZ 0 32.

(** the entry lies in the parent directory *)
Definition located f (ino : Z) P : Prop :=
  let p := get_parent_cluster_num ino in
  let d := get_dirent_index_in_parent ino in
  p ≠ I_AM_ROOT_DIR ∧
  if p =? PARENT_IS_ROOT_DIR then P = [] ∧ 32 * d + 32 < root_size vol
  else head P = Some p ∧ chain f P ∧ NoDup P ∧ 32 * d + 32 ≤ bpc * Z.of_nat (length P).

Lemma dirent_index_nonneg ino : 0 ≤ get_dirent_index_in_parent ino < 2 ^ 16.
Proof. by apply wrap_range. Qed.

Lemma data_in_size : data_start vol ≤ size.
Proof.
  pose proof (lay_size _ _ Hlay). pose proof (lay_clusters _ _ Hlay). pose proof (bpc_pos vol size Hlay).
  unfold FatChain.bpc in *. nia.
Qed.

Lemma located_range f ino P :
  located f ino P → ∀ k, 0 ≤ k < 32 → fat_start vol + 2 * nclusters vol ≤ entry_addr ino P k < size.
Proof.
  intros [_ Hl] k Hk. pose proof (dirent_index_nonneg ino). pose proof (fat_region vol size Hlay) as (_ & ? & ?).
  pose proof data_in_size. unfold entry_addr. destruct (_ =? _).
  - destruct Hl as [-> Hl]. unfold data_start in *. lia.
  - destruct Hl as (_ & Hch & _ & Hl).
    pose proof (pos_range vol size Hlay P (32 * get_dirent_index_in_parent ino + k) ltac:(by eapply chain_valid) ltac:(lia)).
    lia.
Qed.

Lemma entry_bytes_bytes w f ino P : dev_is w f → located f ino P → Forall is_byte (entry_bytes f ino P).
Proof.
  intros Hw Hl. apply Forall_fmap, Forall_forall. intros k Hk%elem_of_seqZ.
  apply (dev_is_byte w f); [done|]. pose proof (located_range _ _ _ Hl k ltac:(lia)).
  pose proof (fat_region vol size Hlay). pose proof (lay_clusters _ _ Hlay). lia.
Qed.

Lemma entry_bytes_length f ino P : length (entry_bytes f ino P) = 32%nat.
Proof. unfold entry_bytes. by rewrite length_fmap, length_seqZ. Qed.

Lemma read_parent_dirent_spec w f ino P :
  dev_is w f → located f ino P →
  wp False (read_parent_dirent vol ino w) (λ '(e, w'), e = decode_entry (entry_bytes f ino P) ∧ dev_is w' f).
Proof.
  intros Hw [Hp Hl]. pose proof (dirent_index_nonneg ino). unfold read_parent_dirent, SIZEOF_DIRECTORY_ENTRY, hcf_if.
  replace (get_parent_cluster_num ino =? I_AM_ROOT_DIR) with false by lia.
  apply wp_io_bind, wp_lift. cbn [wp]. apply wp_io_bind.
  apply (wp_mono _ _ (λ '(b, w'), b = entry_bytes f ino P ∧ dev_is w' f)); [|by intros [b w'] [-> ?]].
  unfold entry_bytes, entry_addr. destruct (_ =? _).
  - destruct Hl as [-> Hl]. unfold read_from_root_dir.
    rewrite root_dir_address_spec by first [done | lia | apply Z.mod_mul; lia]. apply wp_io_bind, wp_lift. cbn [wp].
    pose proof (fat_region vol size Hlay) as (? & ? & ?). pose proof data_in_size. pose proof (lay_clusters _ _ Hlay).
    unfold data_start in *.
    eapply wp_mono; [apply (dev_read_spec vol size w f); (done || lia)|]. intros [b w'] [-> Hw']. split; [|done].
    apply fmap_seqZ_shift. intros k Hk. f_equal. lia.
  - destruct Hl as (Hh & Hch & Hnd & Hl). destruct P as [|c P]; [done|]. injection Hh as ->.
    eapply wp_mono; [eapply (read_chain vol size Hlay w f _ P); [done|done|lia|lia|lia]|].
    intros [b w'] [-> Hw']. split; [|done].
    apply fmap_seqZ_shift. intros k Hk. do 2 f_equal. lia.
Qed.

(** [g] is [f] after the entry of [ino] was replaced by [e]; its directory may
    have grown by the clusters [new]. *)
Record entry_written f g (ino : Z) P new e : Prop := {
  ew_located : located g ino (P ++ new);
  ew_bytes : entry_bytes g ino (P ++ new) = encode_entry e;
  ew_new : Forall (free_cluster f) new;
  ew_nodup : NoDup (P ++ new);
  ew_fat : ∀ c, valid vol c → c ∉ P ++ new → fat g c = fat f c;
  ew_frame : ∀ a, fat_start vol + 2 * nclusters vol ≤ a →
    (∀ k, 0 ≤ k < 32 → a ≠ entry_addr ino (P ++ new) k) → g a = f a;
}.

Lemma write_parent_dirent_spec w f ino P e fs :
  dev_is w f → located f ino P → entry_ok e → free_list f fs → fs ≠ [] →
  wp False (write_parent_dirent vol ino e w) (λ '(_, w'), ∃ g new, dev_is w' g ∧ entry_written f g ino P new e ∧
    (length new ≤ 1)%nat).
Proof.
  intros Hw [Hp Hl] He Hfs Hne. pose proof (dirent_index_nonneg ino) as Hd.
  pose proof (encode_entry_length e (proj1 (ok_filename _ He))) as Hlen.
  pose proof (encode_entry_bytes e He) as Hb.
  unfold write_parent_dirent, SIZEOF_DIRECTORY_ENTRY, hcf_if.
  replace (get_parent_cluster_num ino =? I_AM_ROOT_DIR) with false by lia.
  apply wp_io_bind, wp_lift. simpl. set (d := get_dirent_index_in_parent ino) in *.
  destruct (get_parent_cluster_num ino =? PARENT_IS_ROOT_DIR) eqn:Eroot.
  - destruct Hl as [-> Hl]. unfold write_to_root_dir. rewrite Hlen.
    rewrite root_dir_address_spec by first [done | lia | apply Z.mod_mul; lia]. apply wp_io_bind, wp_lift. simpl.
    pose proof (fat_region vol size Hlay) as (? & ? & ?). pose proof data_in_size. pose proof (lay_clusters _ _ Hlay).
    unfold data_start in *.
    eapply wp_mono; [apply (dev_write_spec vol size w f); [done|lia| |done|rewrite Hlen; lia]|].
    { intros E. by rewrite E in Hlen. }
    intros [_ w'] Hw'. rewrite Hlen in Hw'. eexists _, []. split; [exact Hw'|]. split; [|simpl; lia].
    assert (∀ k, entry_addr ino [] k = root_start vol + (32 * d + k)) as Haddr by (intros; unfold entry_addr; by rewrite Eroot).
    split; rewrite ?app_nil_r; [split; [done|by rewrite Eroot]| |done|constructor| |].
    + apply fmap_seqZ_list; [by rewrite Hlen|]. intros k Hk. rewrite Haddr.
      destruct (lookup_lt_is_Some_2 (encode_entry e) (Z.to_nat k)) as [x Ex]; [lia|]. rewrite Ex. f_equal.
      apply overwrite_in; [lia|]. rewrite <-Ex. f_equal. lia.
    + intros c Hc _. unfold FatChain.fat. unfold valid in Hc. by rewrite !overwrite_out by lia.
    + intros a Ha Hk. apply overwrite_out. intros Hin. apply (Hk (a - (root_start vol + d * 32))); [lia|].
      rewrite Haddr. lia.
  - destruct Hl as (Hh & Hch & Hnd & Hl). destruct P as [|c P]; [done|].
    assert (get_parent_cluster_num ino = c) as -> by (simpl in Hh; by simplify_eq).
    pose proof (bpc_pos vol size Hlay) as Hbpc. rewrite (Z.mul_comm d).
    eapply wp_mono; [apply (write_chain vol size Hlay w f c P (32 * d) (encode_entry e) fs);
      [done|done|done|lia|done|done|]|].
    { rewrite Hlen. unfold chain_length_after. simpl.
      assert ((32 * d + Z.of_nat 32 - 1) `div` bpc < Z.of_nat (S (length P))) by (apply Z.div_lt_upper_bound; simpl in Hl; lia).
      destruct fs; [done|]. simpl. lia. }
    intros [_ w'] (g & new & Hw' & Hu & Hnew). rewrite Hlen in Hu, Hnew.
    exists g, new. split; [exact Hw'|]. set (T := c :: P) in *.
    assert (∀ k, entry_addr ino (T ++ new) k = pos (T ++ new) (32 * d + k)) as Haddr
      by (intros; unfold entry_addr; by rewrite Eroot).
    split.
    + destruct Hu as [Hu1 Hu2 Hu3 Hu4 Hu5 Hu6 Hu7]. split; try done.
      * split; [done|]. rewrite Eroot. split_and!; [done|done|done|]. rewrite length_app. fold d. nia.
      * apply fmap_seqZ_list; [by rewrite Hlen|]. intros k Hk. rewrite Haddr. apply Hu6. lia.
      * intros a Ha Hk. apply Hu7; [by right|]. intros j Hj. rewrite <-Haddr. apply Hk. lia.
    + unfold chain_length_after in Hnew. change (Z.of_nat 32 =? 0) with false in Hnew. cbv iota in Hnew.
      assert ((32 * d + Z.of_nat 32 - 1) `div` bpc < Z.of_nat (length T)) by (apply Z.div_lt_upper_bound; lia). lia.
Qed.

(** *** Files *)

(** the file [ino] has the entry [e], in a directory with the clusters [P], and the clusters [L] *)
Record file_at f (ino : Z) P L e : Prop := {
  fa_located : located f ino P;
  fa_entry : decode_entry (entry_bytes f ino P) = e;
  fa_regular : read_fat_mode (attributes e) = Ok S_IFREG;
  fa_chain : match L with
             | [] => is_invalid_cluster_num (cluster_number e) = true
             | c :: _ => cluster_number e = c ∧ chain f L
             end;
  fa_nodup : NoDup L;
  fa_disjoint : L ## P;
}.

(** a state with the volume mounted at [mid] whose device holds the image [f] *)
Definition mounted (st : fat_state W) (mid : Z) f : Prop :=
  arr_get (all_fat_mounts st) mid = Ok vol ∧ dev_is (dev st) f.

Definition same_tables (st st' : fat_state W) : Prop :=
  all_fat_mounts st' = all_fat_mounts st ∧ create_idx st' = create_idx st.

Lemma mounted_dev st mid f g d :
  mounted st mid f → dev_is d g → mounted (FatState (all_fat_mounts st) (create_idx st) d) mid g.
Proof. intros [Hm _] Hd. by split. Qed.

Lemma wp_get_volume H st idn f Q : mounted st (mount_id idn) f → Q (vol, st) → wp H (get_volume idn st) Q.
Proof. intros [Hm _] HQ. unfold get_volume. by rewrite Hm. Qed.

Lemma file_entry_ok w f ino P L e : dev_is w f → file_at f ino P L e → entry_ok e.
Proof.
  intros Hw [Hl <- _ _ _ _]. apply decode_entry_ok; [by apply entry_bytes_length|by eapply entry_bytes_bytes].
Qed.

Lemma stat_file_spec st idn f P L e :
  mounted st (mount_id idn) f → file_at f (inode idn) P L e →
  wp False (stat_file idn st) (λ '(s, st'), s = Stat (inode idn) S_IFREG 0 0 (file_size_bytes e) ∧
    mounted st' (mount_id idn) f ∧ same_tables st st').
Proof.
  intros Hm Hfile. pose proof (fa_located _ _ _ _ _ Hfile) as Hl.
  apply wp_io_bind. eapply wp_get_volume; [done|].
  destruct (get_parent_cluster_num (inode idn) =? I_AM_ROOT_DIR) eqn:E; [apply Z.eqb_eq in E; by destruct Hl|].
  apply wp_io_bind, wp_on_dev. eapply wp_mono; [apply read_parent_dirent_spec; [apply Hm|done]|].
  intros [e' d] [-> Hd]. apply wp_io_bind, wp_lift.
  rewrite (fa_entry _ _ _ _ _ Hfile), (fa_regular _ _ _ _ _ Hfile). simpl.
  split_and!; [done|by apply (mounted_dev _ _ f)|done..].
Qed.

(** Reading a regular file returns the bytes before its end, and changes nothing. *)
Lemma read_regular_file st idn f P L e fuel off n :
  mounted st (mount_id idn) f → file_at f (inode idn) P L e → file_size_bytes e ≤ bpc * Z.of_nat (length L) →
  0 ≤ off ≤ file_size_bytes e → 0 ≤ n → off + n < 2 ^ 64 →
  wp False (read_file fuel idn off n st) (λ '(r, buf, st'), r = n `min` (file_size_bytes e - off) ∧
    buf = FileBytes ((λ k, f (pos L k)) <$> seqZ off r) ∧ mounted st' (mount_id idn) f ∧ same_tables st st').
Proof.
  intros Hm Hfile Hsz Ho Hn Hw. unfold read_file.
  apply wp_io_bind. eapply wp_mono; [by eapply stat_file_spec|]. intros [s st1] (-> & Hm1 & Ht1). cbn [st_mode].
  change (S_ISDIR S_IFREG) with false. cbv iota.
  apply wp_io_bind. eapply wp_get_volume; [done|].
  apply wp_io_bind, wp_on_dev. eapply wp_mono; [apply read_parent_dirent_spec; [apply Hm1|apply Hfile]|].
  intros [e' d] [-> Hd]. rewrite (fa_entry _ _ _ _ _ Hfile).
  pose proof (ok_size _ (file_entry_ok _ _ _ _ _ _ (proj2 Hm) Hfile)) as Hsr. unfold u32_range in Hsr.
  rewrite !(wrap_small 64) by lia. set (sz := file_size_bytes e) in *.
  assert ((if sz <? off + n then sz - off else n) = n `min` (sz - off)) as -> by (case_if; lia).
  set (r := n `min` (sz - off)). apply wp_io_bind, wp_on_dev. cbn [dev].
  apply (wp_mono _ _ (λ '(l, d'), l = (λ k, f (pos L k)) <$> seqZ off r ∧ dev_is d' f)).
  - destruct L as [|c L].
    + assert (r = 0) as -> by (simpl in Hsz; lia). unfold read_from_cluster_chain. fold (FatChain.bpc vol).
      pose proof (bpc_pos vol size Hlay). replace (bpc =? 0) with false by lia. by apply wp_io_bind, wp_lift.
    + destruct (fa_chain _ _ _ _ _ Hfile) as [-> Hch].
      eapply wp_mono; [apply (read_chain vol size Hlay d f); (done || lia)|]. intros [l d'] [-> ?]. done.
  - intros [l d'] [-> Hd']. simpl. split_and!; [done|done| |apply Ht1..]. by apply (mounted_dev st1 _ f).
Qed.

(** *** Writing a file: each step keeps what the others rely on *)
Lemma located_ext f g ino P : (∀ c, c ∈ P → fat f c = fat g c) → located f ino P → located g ino P.
Proof.
  intros E [Hp Hl]. split; [done|]. destruct (_ =? _); [done|]. destruct Hl as (? & Hch & ? & ?).
  split_and!; try done. by eapply chain_ext.
Qed.

(** the entry of a file lies outside the clusters of every file that shares none with its directory *)
Lemma entry_addr_not_data f ino P Q j k :
  located f ino P → Q ## P → Forall (valid vol) Q → 0 ≤ j < bpc * Z.of_nat (length Q) → 0 ≤ k < 32 →
  pos Q j ≠ entry_addr ino P k.
Proof.
  intros [_ Hl] Hd Hv Hj Hk. pose proof (dirent_index_nonneg ino).
  pose proof (pos_range vol size Hlay Q j Hv Hj). unfold entry_addr. destruct (_ =? _).
  - destruct Hl as [-> Hl]. unfold data_start in *. lia.
  - destruct Hl as (_ & _ & _ & Hl). apply (pos_disjoint vol size Hlay); (done || lia).
Qed.

Lemma free_not_in_chain f Q new : chain f Q → Forall (free_cluster f) new → Q ## new.
Proof.
  intros HQ Hnew c Hc Hin. apply (chain_not_free vol _ _ _ HQ Hc). rewrite Forall_forall in Hnew. by apply Hnew.
Qed.

Lemma entry_written_other f g ino P new e Q :
  entry_written f g ino P new e → chain f Q → Q ## P →
  chain g Q ∧ Q ## P ++ new ∧ ∀ j, 0 ≤ j < bpc * Z.of_nat (length Q) → g (pos Q j) = f (pos Q j).
Proof.
  intros Hew HQ Hd. pose proof (chain_valid vol _ _ HQ) as Hv.
  assert (Q ## P ++ new) as Hd'.
  { pose proof (free_not_in_chain _ _ _ HQ (ew_new _ _ _ _ _ _ Hew)). set_solver. }
  split_and!; [|done|].
  - apply (chain_ext vol size Hlay f); [|done]. intros c Hc. symmetry. apply (ew_fat _ _ _ _ _ _ Hew); [|by intros ?; eapply Hd'].
    rewrite Forall_forall in Hv. by apply Hv.
  - intros j Hj. pose proof (pos_range vol size Hlay Q j Hv Hj). pose proof (fat_region vol size Hlay).
    apply (ew_frame _ _ _ _ _ _ Hew); [lia|]. intros k Hk.
    eapply entry_addr_not_data; [apply Hew|done..].
Qed.

(** the entry survives a write to a file that shares no cluster with its directory *)
Lemma updated_entry f g L new off n input ino P :
  updated f g L new off n input → 0 ≤ off → located f ino P → P ## L →
  located g ino P ∧ P ## new ∧ entry_bytes g ino P = entry_bytes f ino P.
Proof.
  intros Hu Ho Hl Hd. pose proof (upd_chain _ _ _ _ _ _ _ _ Hu) as Hch.
  assert (P ## new) as Hdn.
  { destruct Hl as [_ Hl]. destruct (_ =? _); [destruct Hl as [-> _]; set_solver|]. destruct Hl as (_ & HP & _).
    exact (free_not_in_chain _ _ _ HP (upd_new _ _ _ _ _ _ _ _ Hu)). }
  assert (∀ k, 0 ≤ k < 32 → g (entry_addr ino P k) = f (entry_addr ino P k)) as Hbytes.
  { intros k Hk. pose proof (located_range _ _ _ Hl k Hk).
    apply (upd_frame _ _ _ _ _ _ _ _ Hu); [lia|]. intros j Hj E. symmetry in E. revert E.
    eapply entry_addr_not_data; [done|set_solver|by eapply chain_valid| |done].
    destruct (upd_bounds _ _ _ _ _ _ _ _ Hu); lia. }
  split_and!; [|done|apply fmap_seqZ_shift; intros k Hk; by apply Hbytes].
  eapply located_ext; [|done]. intros c Hc. symmetry. apply (upd_fat _ _ _ _ _ _ _ _ Hu); [|set_solver].
  destruct Hl as [_ Hl]. destruct (_ =? _); [destruct Hl as [-> _]; set_solver|]. destruct Hl as (_ & HP & _).
  apply chain_valid in HP. rewrite Forall_forall in HP. by apply HP.
Qed.

(** The first cluster of the file is there, or is taken from the free ones. *)
Lemma ensure_first_cluster_spec w f ino P L e fs :
  dev_is w f → file_at f ino P L e → free_list f fs → fs ≠ [] →
  wp False (ensure_first_cluster vol e w) (λ '(e', w'), ∃ g c L' fs',
    dev_is w' g ∧ e' = with_cluster e c ∧ chain g (c :: L') ∧ NoDup (c :: L') ∧ c :: L' ## P ∧
    located g ino P ∧ (∃ new, c :: L' = L ++ new) ∧
    (∀ a, fat_start vol + 2 * nclusters vol ≤ a → g a = f a) ∧
    (∀ Q, chain f Q → Q ## L → chain g Q ∧ Q ## c :: L') ∧
    free_list g fs' ∧ (length L + length fs ≤ length (c :: L') + length fs')%nat ∧ (length fs ≤ S (length fs'))%nat).
Proof.
  intros Hw Hfile Hfs Hne. unfold ensure_first_cluster. destruct L as [|c L].
  - rewrite (fa_chain _ _ _ _ _ Hfile). destruct fs as [|c0 fs]; [done|]. destruct Hfs as [Hnd Hfree].
    apply wp_io_bind. eapply wp_mono; [eapply (find_free_cluster_number_spec vol size Hlay w f c0); [done|by inversion Hfree]|].
    intros [c w1] ([Hv Hf] & _ & Hw1). apply wp_io_bind.
    eapply wp_mono; [by apply (write_fat_spec vol size Hlay w1 f c)|]. intros [_ w2] Hw2.
    set (g := set_fat vol f c 0xFFF8) in *. apply wp_io_ret.
    assert (∀ x, fat g x = if decide (c = x) then 0xFFF8 else fat f x) as Hg by (intros; by apply fat_set_fat).
    assert (∀ Q, chain f Q → c ∉ Q) as Hcq by (intros Q HQ Hin; by apply (chain_not_free vol _ _ _ HQ Hin)).
    assert (c ∉ P) as HcP.
    { destruct (fa_located _ _ _ _ _ Hfile) as [_ Hl]. destruct (_ =? _); [destruct Hl as [-> _]; set_solver|].
      apply Hcq, Hl. }
    exists g, c, [], (filter (λ x, x ≠ c) (c0 :: fs)). split_and!; try done.
    + split; [done|]. rewrite Hg, decide_True by done. lia.
    + apply NoDup_singleton.
    + set_solver.
    + eapply located_ext; [|by eapply fa_located]. intros x Hx. rewrite Hg, decide_False; [done|]. by intros ->.
    + by exists [c].
    + intros a Ha. unfold g, set_fat. unfold valid in Hv. by rewrite overwrite_out by lia.
    + intros Q HQ _. pose proof (Hcq Q HQ). split; [|set_solver]. apply (chain_ext vol size Hlay f); [|done].
      intros x Hx. rewrite Hg, decide_False; [done|]. by intros ->.
    + split; [by apply NoDup_filter|]. apply Forall_forall. intros x [Hx Hin]%list_elem_of_filter.
      rewrite Forall_forall in Hfree. destruct (Hfree x Hin) as [Hvx Hfx].
      split; [done|]. by rewrite Hg, decide_False by done.
    + pose proof (length_remove_one c (c0 :: fs) Hnd). cbn [length] in *. lia.
    + pose proof (length_remove_one c (c0 :: fs) Hnd). cbn [length] in *. lia.
  - destruct (fa_chain _ _ _ _ _ Hfile) as [Hc Hch].
    rewrite Hc, (valid_not_invalid vol) by apply Hch. apply wp_io_ret.
    exists f, c, L, fs. split_and!; try done; try apply Hfile; [by destruct e; simpl in *; subst|by exists []; rewrite app_nil_r|lia].
Qed.

(** what a write of [input] at [off] does to the file [ino] and to the rest of the volume *)
Record file_written f g (ino : Z) P L e P' L' off input : Prop := {
  fw_file : ∃ c, file_at g ino P' L' (with_size (with_cluster e c)
    (file_size_bytes e `max` (off + Z.of_nat (length input))));
  fw_grown : (∃ new, P' = P ++ new) ∧ ∃ new, L' = L ++ new;
  fw_room : off + Z.of_nat (length input) ≤ bpc * Z.of_nat (length L') ∨ input = [];
  fw_data : ∀ j, 0 ≤ j < Z.of_nat (length input) → Some (g (pos L' (off + j))) = input !! Z.to_nat j;
  fw_rest : ∀ j, 0 ≤ j < bpc * Z.of_nat (length L) → ¬ (off ≤ j < off + Z.of_nat (length input)) →
    g (pos L' j) = f (pos L j);
  fw_others : ∀ Q, chain f Q → Q ## L → Q ## P →
    chain g Q ∧ ∀ j, 0 ≤ j < bpc * Z.of_nat (length Q) → g (pos Q j) = f (pos Q j);
}.

Lemma with_entry_ok e c sz : entry_ok e → u16_range c → u32_range sz → entry_ok (with_size (with_cluster e c) sz).
Proof.
  intros [Hf Hb Hw Hs] Hc Hsz. destruct e. simpl in *. forall_inv. split; simpl; [done|by forall_intro|by forall_intro|done].
Qed.

(** The two writes of write_file put together: the entry, then the data. *)
Lemma write_steps f g g2 g3 ino P L e e2 new1 newP newL c L1 off input :
  file_at f ino P L e → entry_ok e2 → 0 ≤ off →
  e2 = with_size (with_cluster e c) (file_size_bytes e `max` (off + Z.of_nat (length input))) →
  chain g (c :: L1) → c :: L1 ## P → c :: L1 = L ++ new1 →
  (∀ a, fat_start vol + 2 * nclusters vol ≤ a → g a = f a) →
  (∀ Q, chain f Q → Q ## L → chain g Q ∧ Q ## c :: L1) →
  entry_written g g2 ino P newP e2 → updated g2 g3 (c :: L1) newL off (Z.of_nat (length input)) input →
  file_written f g3 ino P L e (P ++ newP) ((c :: L1) ++ newL) off input.
Proof.
  intros Hfile He2 Ho -> Hch1 Hd1 Hnew1 Hbytes Hothers Hew Hu. set (T := c :: L1) in *.
  pose proof (fat_region vol size Hlay) as (_ & ? & ?).
  destruct (entry_written_other _ _ _ _ _ _ T Hew Hch1 Hd1) as (Hch2 & Hd2 & HT).
  destruct (updated_entry _ _ _ _ _ _ _ ino (P ++ newP) Hu Ho (ew_located _ _ _ _ _ _ Hew) ltac:(set_solver))
    as (Hl3 & HdP & Hbytes3).
  split.
  - exists c. split; [exact Hl3| |apply Hfile|exact (conj eq_refl (upd_chain _ _ _ _ _ _ _ _ Hu))|apply Hu|set_solver].
    rewrite Hbytes3, (ew_bytes _ _ _ _ _ _ Hew). by apply decode_encode_entry.
  - split; [by exists newP|]. rewrite Hnew1. exists (new1 ++ newL). by rewrite app_assoc.
  - destruct (upd_bounds _ _ _ _ _ _ _ _ Hu); [by left|right]. destruct input; [done|simpl in *; lia].
  - apply Hu.
  - intros j Hj Hout.
    assert (0 ≤ j < bpc * Z.of_nat (length T)) as HjT.
    { rewrite Hnew1, length_app. pose proof (bpc_pos vol size Hlay). nia. }
    rewrite (updated_same_file vol size Hlay g2 g3 T newL off _ input j) by done.
    rewrite HT by done. pose proof (pos_range vol size Hlay T j ltac:(by eapply chain_valid) HjT).
    rewrite Hbytes by lia. rewrite Hnew1. by rewrite (pos_app vol size Hlay).
  - intros Q HQ HdL HdP'. destruct (Hothers Q HQ HdL) as [HQ1 HQd].
    destruct (entry_written_other _ _ _ _ _ _ Q Hew HQ1 HdP') as (HQ2 & _ & HQb).
    destruct (updated_other vol size Hlay _ _ _ _ _ _ _ Q Hu Ho HQ2 HQd) as [HQ3 HQb3].
    split; [done|]. intros j Hj. rewrite HQb3, HQb by done.
    pose proof (pos_range vol size Hlay Q j ltac:(by eapply chain_valid) Hj). apply Hbytes. lia.
Qed.

(** Writing an entry uses up at most one free cluster. *)
Lemma entry_written_free f g ino P new e fs :
  entry_written f g ino P new e → located f ino P → (length new ≤ 1)%nat → free_list f fs →
  ∃ fs', free_list g fs' ∧ (length fs ≤ S (length fs'))%nat.
Proof.
  intros Hew Hl Hn [Hnd Hfree]. rewrite Forall_forall in Hfree.
  assert (∀ x, x ∈ fs → x ∉ new → free_cluster g x) as Hkeep.
  { intros x Hx Hxn. destruct (Hfree x Hx) as [Hv Hf]. split; [done|].
    rewrite (ew_fat _ _ _ _ _ _ Hew); [done|done|]. intros [Hin|Hin]%elem_of_app; [|done].
    destruct Hl as [_ Hl]. destruct (_ =? _); [destruct Hl as [-> _]; set_solver|].
    destruct Hl as (_ & HP & _). by apply (chain_not_free vol _ _ _ HP Hin). }
  destruct new as [|c [|]]; [| |simpl in Hn; lia].
  - exists fs. split; [|lia]. split; [done|]. apply Forall_forall. intros x Hx. apply Hkeep; [done|set_solver].
  - exists (filter (λ x, x ≠ c) fs). split; [|by apply length_remove_one]. split; [by apply NoDup_filter|].
    apply Forall_forall. intros x [Hx Hin]%list_elem_of_filter. apply Hkeep; [done|set_solver].
Qed.

Lemma write_regular_file st idn f P L e off input fs :
  mounted st (mount_id idn) f → file_at f (inode idn) P L e →
  0 ≤ off → off + Z.of_nat (length input) < 2 ^ 32 → Forall is_byte input →
  free_list f fs → (2 ≤ length fs)%nat →
  chain_length_after vol off (Z.of_nat (length input)) + 1 ≤ Z.of_nat (length L) + Z.of_nat (length fs) →
  wp False (write_file idn off input st) (λ '(r, st'), r = Z.of_nat (length input) ∧ same_tables st st' ∧
    ∃ g P' L', mounted st' (mount_id idn) g ∧ file_written f g (inode idn) P L e P' L' off input).
Proof.
  intros Hm Hfile Ho Hsz Hb Hfs Hfs2 Hroom. set (n := Z.of_nat (length input)) in *. unfold write_file. fold n.
  apply wp_io_bind. eapply wp_get_volume; [done|].
  apply wp_io_bind. eapply wp_mono; [by eapply stat_file_spec|]. intros [s st1] (-> & Hm1 & Ht1). cbn [st_mode].
  change (hcf_if (S_ISDIR S_IFREG)) with (Ok () : outcome ()). apply wp_io_bind, wp_lift. cbn [wp].
  apply wp_io_bind, wp_on_dev. eapply wp_mono; [apply read_parent_dirent_spec; [apply Hm1|apply Hfile]|].
  intros [e' d1] [-> Hd1]. rewrite (fa_entry _ _ _ _ _ Hfile).
  pose proof (file_entry_ok _ _ _ _ _ _ (proj2 Hm) Hfile) as Heok.
  apply wp_io_bind, wp_on_dev. cbn [dev].
  eapply wp_mono; [eapply (ensure_first_cluster_spec d1 f _ P L e fs); [done|done|done|intros ->; simpl in Hfs2; lia]|].
  intros [e1 d2] (g & c & L1 & fs1 & Hd2 & -> & Hch1 & Hnd1 & Hdis1 & Hl1 & [new1 Hnew1] & Hbytes1 & Hothers & Hfs1 & Hlen1 & Hlen1').
  set (sz := file_size_bytes e `max` (off + n)).
  set (e2 := with_size (with_cluster e c) sz).
  pose proof (ok_size _ Heok) as Hszr. unfold u32_range in Hszr. rewrite !(wrap_small 64) by lia.
  assert (entry_ok e2) as He2.
  { destruct Hch1 as [[Hc _] _]. pose proof (lay_clusters _ _ Hlay). apply with_entry_ok; [done|unfold u16_range; lia|unfold u32_range; lia]. }
  apply wp_io_bind. eapply (wp_mono _ _ (λ '(e', st'), e' = e2 ∧
    st' = FatState (all_fat_mounts st1) (create_idx st1) d2)).
  { change (file_size_bytes (with_cluster e c)) with (file_size_bytes e). cbn [all_fat_mounts create_idx]. case_if.
    - replace (2 ^ 32 - 1 <? off + n) with false by lia. apply wp_io_bind, wp_lift. simpl.
      split; [|done]. unfold e2, sz. f_equal. rewrite wrap_small by lia. lia.
    - simpl. split; [|done]. unfold e2, sz. rewrite Z.max_l by lia. by destruct e. }
  intros [e3 st3] [-> ->]. apply wp_io_bind, wp_on_dev. cbn [dev all_fat_mounts create_idx].
  eapply wp_mono; [eapply (write_parent_dirent_spec d2 g _ P e2 fs1); [done|done|done|done|]|].
  { intros ->. simpl in Hlen1'. lia. }
  intros [_ d3] (g2 & newP & Hd3 & Hew & HnewP).
  destruct (entry_written_free _ _ _ _ _ _ fs1 Hew Hl1 HnewP Hfs1) as (fs2 & Hfs2' & Hlen2).
  destruct (entry_written_other _ _ _ _ _ _ (c :: L1) Hew Hch1 Hdis1) as (Hch2 & _ & _).
  apply wp_io_bind, wp_on_dev. cbn [dev all_fat_mounts create_idx].
  eapply wp_mono; [apply (write_chain vol size Hlay d3 g2 c L1 off input fs2); [done|done|done|done|done|done|fold n; lia]|].
  intros [_ d4] (g3 & newL & Hd4 & Hu & _). apply wp_io_ret. split_and!; [done|apply Ht1..|].
  exists g3, (P ++ newP), ((c :: L1) ++ newL). split; [by apply (mounted_dev st1 _ f)|].
  apply (write_steps f g g2 g3 _ P L e e2 new1 newP newL c L1 off input); done.
Qed.

(** reading a regular file of a mounted volume at an offset inside it returns the requested bytes, cut at the end of the file, found through its directory entry and its cluster chain; the call terminates without halting and changes neither the volume nor the driver's tables. *)
Theorem read_file_spec st idn f P L e fuel off n :
  mounted st (mount_id idn) f → file_at f (inode idn) P L e → file_size_bytes e ≤ bpc * Z.of_nat (length L) →
  0 ≤ off ≤ file_size_bytes e → 0 ≤ n → off + n < 2 ^ 64 →
  ∃ buf st', read_file fuel idn off n st = Ok (n `min` (file_size_bytes e - off), FileBytes buf, st') ∧
    buf = (λ k, f (pos L k)) <$> seqZ off (n `min` (file_size_bytes e - off)) ∧
    mounted st' (mount_id idn) f ∧ same_tables st st'.
Proof.
  intros Hm Hfile Hsz Ho Hn Hw.
  destruct (wp_total_1 _ _ (read_regular_file st idn f P L e fuel off n Hm Hfile Hsz Ho Hn Hw))
    as ([[r b] st'] & E & -> & -> & Hm' & Ht). eauto 10.
Qed.

(** C7: writing to a regular file stores the bytes at the offset and raises the size in its directory entry when the write ends beyond it; the rest of the file keeps its bytes, and so does every other file of the volume, with its chain (files that share no cluster with this one or with its directory). A first cluster is allocated for an empty file. The call terminates and succeeds whenever enough clusters are free. *)
Theorem write_file_spec st idn f P L e off input fs :
  mounted st (mount_id idn) f → file_at f (inode idn) P L e →
  0 ≤ off → off + Z.of_nat (length input) < 2 ^ 32 → Forall is_byte input →
  free_list f fs → (2 ≤ length fs)%nat →
  chain_length_after vol off (Z.of_nat (length input)) + 1 ≤ Z.of_nat (length L) + Z.of_nat (length fs) →
  ∃ st' g P' L', write_file idn off input st = Ok (Z.of_nat (length input), st') ∧
    mounted st' (mount_id idn) g ∧ file_written f g (inode idn) P L e P' L' off input ∧ same_tables st st'.
Proof.
  intros Hm Hfile Ho Hsz Hb Hfs Hfs2 Hroom.
  destruct (wp_total_1 _ _ (write_regular_file st idn f P L e off input fs Hm Hfile Ho Hsz Hb Hfs Hfs2 Hroom))
    as ([r st'] & E & -> & Ht & g & P' & L' & Hg & Hw). exists st', g, P', L'. done.
Qed.

(** C8: a write to a regular file followed by a read of the same range returns exactly the bytes written, also when the write grew the file. *)
Theorem write_then_read st idn f P L e off input fs fuel :
  mounted st (mount_id idn) f → file_at f (inode idn) P L e → file_size_bytes e ≤ bpc * Z.of_nat (length L) →
  0 ≤ off → off + Z.of_nat (length input) < 2 ^ 32 → Forall is_byte input → input ≠ [] →
  free_list f fs → (2 ≤ length fs)%nat →
  chain_length_after vol off (Z.of_nat (length input)) + 1 ≤ Z.of_nat (length L) + Z.of_nat (length fs) →
  ∃ st' st'', write_file idn off input st = Ok (Z.of_nat (length input), st') ∧
    read_file fuel idn off (Z.of_nat (length input)) st' = Ok (Z.of_nat (length input), FileBytes input, st'').
Proof.
  intros Hm Hfile Hsize Ho Hsz Hb Hne Hfs Hfs2 Hroom.
  destruct (wp_total_1 _ _ (write_regular_file st idn f P L e off input fs Hm Hfile Ho Hsz Hb Hfs Hfs2 Hroom))
    as ([r st'] & E & -> & _ & g & P' & L' & Hg & Hw).
  destruct (fw_file _ _ _ _ _ _ _ _ _ _ Hw) as [c Hfile']. set (e' := with_size _ _) in *.
  set (n := Z.of_nat (length input)) in *.
  assert (file_size_bytes e' = file_size_bytes e `max` (off + n)) as Esz by done.
  assert (bpc * Z.of_nat (length L) ≤ bpc * Z.of_nat (length L')).
  { destruct (fw_grown _ _ _ _ _ _ _ _ _ _ Hw) as [_ [new ->]]. rewrite length_app. pose proof (bpc_pos vol size Hlay). nia. }
  destruct (fw_room _ _ _ _ _ _ _ _ _ _ Hw) as [Hend|?]; [|done]. fold n in Hend.
  destruct (wp_total_1 _ _ (read_regular_file st' idn g P' L' e' fuel off n Hg Hfile' ltac:(lia) ltac:(lia) ltac:(lia) ltac:(lia)))
    as ([[r b] st''] & E2 & -> & -> & _). rewrite Esz in E2.
  replace (n `min` (file_size_bytes e `max` (off + n) - off)) with n in E2 by lia.
  exists st', st''. split; [done|]. rewrite E2. do 4 f_equal.
  rewrite (fmap_seqZ_shift _ (λ k, g (pos L' (off + k))) off 0) by done.
  apply fmap_seqZ_list; [done|]. intros k Hk. by apply (fw_data _ _ _ _ _ _ _ _ _ _ Hw).
Qed.

(** reading a file at an offset beyond its end never returns: the number of bytes to read, the size minus the offset, wraps around 64 bits, and the loop runs off the end of the cluster chain, where the driver halts (or the device fails before). *)
Theorem read_past_end_never_returns st idn f P c L e fuel off n r :
  mounted st (mount_id idn) f → file_at f (inode idn) P (c :: L) e →
  file_size_bytes e < off → 0 < n → off + n < 2 ^ 64 → bpc * Z.of_nat (length (c :: L)) < 2 ^ 64 →
  read_file fuel idn off n st ≠ Ok r.
Proof.
  intros Hm Hfile Hoff Hn Hw Hch E. pose proof (file_entry_ok _ _ _ _ _ _ (proj2 Hm) Hfile) as Heok.
  pose proof (ok_size _ Heok) as Hsr. unfold u32_range in Hsr.
  apply bind_Ok in E as ([s st1] & E1 & E). eapply wp_Ok in E1; [|by eapply stat_file_spec].
  destruct E1 as (-> & Hm1 & _). cbn [fst snd st_mode] in E. change (S_ISDIR S_IFREG) with false in E. cbv iota in E.
  unfold mbind at 1, io_bind, get_volume in E. rewrite (proj1 Hm1) in E. cbn [mbind outcome_bind fst snd] in E.
  apply bind_Ok in E as ([e1 st2] & E1 & E). apply bind_Ok in E1 as ([e2 d] & E1 & E2). injection E2 as <- <-.
  eapply wp_Ok in E1; [|apply read_parent_dirent_spec; [apply Hm1|apply Hfile]].
  destruct E1 as [-> Hd]. rewrite (fa_entry _ _ _ _ _ Hfile) in E. cbn [fst snd] in E.
  rewrite (wrap_small 64 (off + n)) in E by lia. replace (file_size_bytes e <? off + n) with true in E by lia.
  assert (u64 (file_size_bytes e - off) = 2 ^ 64 + (file_size_bytes e - off)) as Hwrap.
  { unfold wrap. rewrite <-(Z.mod_add _ 1) by lia. rewrite Z.mod_small; lia. }
  rewrite Hwrap in E. apply bind_Ok in E as ([l st3] & E1 & _). apply bind_Ok in E1 as ([l2 d2] & E1 & _).
  destruct (fa_chain _ _ _ _ _ Hfile) as [Hc Hchain]. rewrite Hc in E1. cbn [dev] in E1.
  refine (read_past_chain vol size Hlay d f c L off _ _ Hd Hchain _ _ _ E1); lia.
Qed.

(** growing a file with ftruncate writes no zeros: the size in the directory entry is replaced first and then compared with itself, so the padding is empty. The bytes that become part of the file are whatever its clusters held, and, if the file has no cluster for them, none is allocated. *)
Theorem ftruncate_grow_keeps_stale_bytes st idn f P c L e len fs :
  mounted st (mount_id idn) f → file_at f (inode idn) P (c :: L) e →
  file_size_bytes e ≤ len < 2 ^ 32 → free_list f fs → fs ≠ [] →
  ∃ st' g newP, ftruncate idn len st = Ok ((), st') ∧ mounted st' (mount_id idn) g ∧
    file_at g (inode idn) (P ++ newP) (c :: L) (with_size e len) ∧
    ∀ j, 0 ≤ j < bpc * Z.of_nat (length (c :: L)) → g (pos (c :: L) j) = f (pos (c :: L) j).
Proof.
  intros Hm Hfile Hlen Hfs Hne.
  match goal with |- ∃ st' g newP, ?o = _ ∧ _ => cut (wp False o (λ '(_, st'), ∃ g newP,
    mounted st' (mount_id idn) g ∧ file_at g (inode idn) (P ++ newP) (c :: L) (with_size e len) ∧
    ∀ j, 0 ≤ j < bpc * Z.of_nat (length (c :: L)) → g (pos (c :: L) j) = f (pos (c :: L) j))) end.
  { intros Hwp. destruct (wp_total_1 _ _ Hwp) as ([[] st'] & E & g & newP & ? & ? & ?). by exists st', g, newP. }
  pose proof (file_entry_ok _ _ _ _ _ _ (proj2 Hm) Hfile) as Heok. pose proof (ok_size _ Heok) as Hsr. unfold u32_range in Hsr.
  destruct (fa_chain _ _ _ _ _ Hfile) as [Hc Hch]. unfold ftruncate.
  apply wp_io_bind. eapply wp_get_volume; [done|].
  apply wp_io_bind. eapply wp_mono; [by eapply stat_file_spec|]. intros [s st1] (-> & Hm1 & Ht1). cbn [st_mode].
  change (hcf_if (S_ISDIR S_IFREG)) with (Ok () : outcome ()). apply wp_io_bind, wp_lift. cbn [wp].
  apply wp_io_bind, wp_on_dev. eapply wp_mono; [apply read_parent_dirent_spec; [apply Hm1|apply Hfile]|].
  intros [e' d1] [-> Hd1]. rewrite (fa_entry _ _ _ _ _ Hfile).
  apply wp_io_bind, wp_on_dev. unfold ensure_first_cluster. rewrite Hc, (valid_not_invalid vol) by apply Hch.
  apply wp_io_ret. apply wp_io_bind, wp_lift. replace (2 ^ 32 - 1 <? len) with false by lia. cbn [wp hcf_if].
  rewrite (wrap_small 32 len) by lia. cbn [file_size_bytes with_size]. replace (len <=? len) with true by lia.
  rewrite Z.sub_diag. change (replicate (Z.to_nat (u32 0)) 0) with (@nil Z).
  apply wp_io_bind, wp_on_dev. cbn [dev cluster_number with_size]. rewrite Hc.
  assert (∀ (d : W) Q, Q ((), d) → wp False (write_to_cluster_chain vol c len [] d) Q) as Hempty.
  { intros d Q HQ. unfold write_to_cluster_chain. fold bpc. pose proof (bpc_pos vol size Hlay).
    replace (bpc =? 0) with false by lia. apply wp_io_bind, wp_lift. cbn [wp].
    rewrite (valid_not_invalid vol) by apply Hch. by apply wp_io_bind, wp_lift. }
  apply Hempty. apply wp_on_dev. cbn [dev all_fat_mounts create_idx].
  assert (entry_ok (with_size e len)) as He2.
  { destruct Heok as [H1 H2 H3 _]. split; [exact H1|exact H2|exact H3|cbn [file_size_bytes with_size]; unfold u32_range; lia]. }
  eapply wp_mono; [apply (write_parent_dirent_spec d1 f _ P (with_size e len) fs); try done; apply Hfile|].
  intros [_ d2] (g & newP & Hd2 & Hew & _). exists g, newP. split; [by apply (mounted_dev st1 _ f)|].
  destruct (entry_written_other _ _ _ _ _ _ (c :: L) Hew Hch (fa_disjoint _ _ _ _ _ Hfile)) as (Hch2 & Hdis & Hb).
  split; [|done]. split; [apply Hew| |apply Hfile|by split|apply Hfile|done].
  rewrite (ew_bytes _ _ _ _ _ _ Hew). by apply decode_encode_entry.
Qed.

(** a deleted entry stops the listing of a directory: once the scan of read_dirents stands on an entry whose first byte is 0xE5 it reads that entry again and again, so listing a root directory whose first entry was deleted never returns. *)
Theorem read_dirents_loops_on_deleted_entry st idn f fuel index count r :
  mounted st (mount_id idn) f → get_parent_cluster_num (inode idn) = I_AM_ROOT_DIR → 32 < root_size vol →
  f (root_start vol) = 0xE5 → Z.land (f (root_start vol + 11)) 192 = 0 →
  read_dirents fuel idn index count st ≠ Ok r.
Proof.
  intros Hm Hroot Hsz Hdel Hattr E.
  unfold read_dirents, mbind at 1, io_bind, get_volume in E. rewrite (proj1 Hm) in E. cbn [mbind outcome_bind fst snd] in E.
  replace (get_parent_cluster_num (inode idn) =? I_AM_ROOT_DIR) with true in E by lia.
  apply bind_Ok in E as ([x st1] & E1 & E). injection E1 as <- <-. cbn [fst snd] in E.
  apply bind_Ok in E as ([x d] & E & _). revert E.
  apply (io_while_never (λ s w, directory_i s = 0 ∧ dev_is w f)); [|by split; [|apply Hm]].
  intros s w o w' [Hi Hw] E. unfold read_dirents_step in E. rewrite Hi in E.
  apply bind_Ok in E as ([b w1] & E1 & E). unfold read_directory, SIZEOF_DIRECTORY_ENTRY in E1. simpl in E1.
  unfold read_from_root_dir in E1. rewrite root_dir_address_spec in E1 by (done || lia).
  apply bind_Ok in E1 as (a & E0 & E1). injection E0 as <-. cbn [fst snd] in E1.
  pose proof (fat_region vol size Hlay) as (? & ? & ?). pose proof data_in_size. pose proof (lay_clusters _ _ Hlay).
  unfold data_start in *.
  eapply wp_Ok in E1; [|apply (dev_read_spec vol size w f); (done || lia)]. destruct E1 as [-> Hw1].
  rewrite Z.add_0_r in E. set (b := f <$> seqZ (root_start vol) 32) in *.
  assert (default 0 (filename (decode_entry b) !! 0%nat) = 0xE5) as Hfirst by (unfold b; simpl; by rewrite Z.add_0_l).
  assert (attributes (decode_entry b) = f (root_start vol + 11)) as Hat.
  { unfold b, attributes, decode_entry, field. simpl. replace (Z.of_nat 11 + root_start vol) with (root_start vol + 11) by lia. lia. }
  cbn [fst snd] in E. rewrite Hat, Hattr, Hfirst in E. cbn in E. injection E as <- <-. eauto.
Qed.
End spec.
