(* ===== verification/FatDir.v ===== *)
(** * Listing a FAT16 directory: read_dirents of stuos/src/fs_fat.c

    A directory is a sequence of records: the long-name entries of a node, if it has any, the entry of the node itself, and an end sentinel.
    [read_dirents_spec] compares the function with the list of the records. *)
From S2P Require Import Prelude Bytes Vfs BlockDev FatVolume FatChain FatFile FatName FatSpec.

(** ** Records *)
Record dir_record := DirRecord { rec_lfn : list Fat16LFNEntry; rec_entry : Fat16DirectoryEntry }.

Definition rec_bytes (r : dir_record) : list Z := concat (encode_lfn <$> rec_lfn r) ++ encode_entry (rec_entry r).
(** the number of 32-byte entries *)
Definition rec_size (r : dir_record) : nat := S (length (rec_lfn r)).

(** A record that names a node [name]: its long name if it has one, else its short name. *)
Record rec_ok (r : dir_record) (name : list Z) : Prop := {
  ro_entry : entry_ok (rec_entry r);
  ro_live : default 0 (filename (rec_entry r) !! 0%nat) ≠ 0 ∧ default 0 (filename (rec_entry r) !! 0%nat) ≠ 0xE5;
  ro_attributes : Z.land (attributes (rec_entry r)) 192 = 0 ∧ attributes (rec_entry r) ≠ FILE_ATTRIBUTES_LFN;
  ro_zero : zero (rec_entry r) = 0;
  ro_ordinals : Forall (λ e, sequence_number e ≠ 0) (rec_lfn r);
  ro_name : match rec_lfn r with
    | [] => name = until_nul (store_short_name (filename (rec_entry r)) no_name)
    | e :: _ => Forall lfn_ok (rec_lfn r) ∧ sequence_number e = Z.of_nat (length (rec_lfn r)) ∧ (length (rec_lfn r) ≤ 20)%nat ∧ name ≠ [] ∧
        ∃ file_name curr, read_lfn_name (rec_lfn r) (no_name, 0) = Ok (file_name, curr) ∧ until_nul file_name = name
    end
}.

(** The 32 bytes behind the last record. *)
Definition end_sentinel (t : list Z) : Prop :=
  length t = 32%nat ∧ default 0 (t !! 0%nat) = 0 ∧ Z.land (attributes (decode_entry t)) 192 = 0.

Lemma end_sentinel_zero : end_sentinel (encode_entry zero_entry).
Proof. done. Qed.

(** What the records of the directory in [cluster] list, the first being at entry [i]. *)
Definition ino_of (cluster i : Z) : Z := match make_inode cluster i with Ok ino => ino | _ => 0 end.
Definition rec_dirent (mid cluster i : Z) (r : dir_record) (name : list Z) : dirent * VNode :=
  let ino := ino_of cluster (i + Z.of_nat (length (rec_lfn r))) in (Dirent ino name, MkVNode (VNodeId ino mid) FatOps).
Fixpoint dir_dirents (mid cluster i : Z) (rs : list (dir_record * list Z)) : list (dirent * VNode) :=
  match rs with
  | [] => []
  | (r, name) :: rs => rec_dirent mid cluster i r name :: dir_dirents mid cluster (i + Z.of_nat (rec_size r)) rs
  end.

Lemma length_dir_dirents mid cluster i rs : length (dir_dirents mid cluster i rs) = length rs.
Proof. revert i. induction rs as [|[r name] rs IH]; intros i; [done|]. cbn. by rewrite IH. Qed.

Lemma encode_lfn_length e : lfn_ok e → length (encode_lfn e) = 32%nat.
Proof.
  intros [_ (H1 & H2 & H3) _ _ _]. assert (∀ l, length (concat (le_bytes 2 <$> l)) = (2 * length l)%nat) as Hc.
  { induction l as [|x l IH]; [done|]. cbn [fmap list_fmap concat]. rewrite length_app, le_bytes_length, IH. cbn. lia. }
  unfold encode_lfn. cbn [length]. rewrite !length_app, !Hc, !le_bytes_length, H1, H2, H3. lia.
Qed.

Lemma concat_lfn_length l : Forall lfn_ok l → length (concat (encode_lfn <$> l)) = (32 * length l)%nat.
Proof. induction 1 as [|e l He Hl IH]; [done|]. cbn [fmap list_fmap concat length]. rewrite length_app, IH, encode_lfn_length by done. lia. Qed.

Lemma encode_lfn_bytes e : lfn_ok e → Forall is_byte (encode_lfn e).
Proof.
  intros [Hs _ _ _ _]. assert (∀ l, Forall is_byte (concat (le_bytes 2 <$> l))) as Hc.
  { induction l as [|x l IH]; [done|]. cbn [fmap list_fmap concat]. apply Forall_app. split; [apply le_bytes_byte|done]. }
  unfold encode_lfn. constructor; [unfold is_byte; destruct (is_last_in_sequence e); lia|].
  repeat (apply Forall_app; split); first [apply le_bytes_byte|apply Hc].
Qed.

Lemma rec_lfn_ok r name : rec_ok r name → Forall lfn_ok (rec_lfn r).
Proof. intros Hr. pose proof (ro_name _ _ Hr) as H. destruct (rec_lfn r); [done|]. apply H. Qed.

Lemma rec_bytes_length r name : rec_ok r name → length (rec_bytes r) = (32 * rec_size r)%nat.
Proof.
  intros Hr. unfold rec_bytes, rec_size. rewrite length_app, concat_lfn_length by (by eapply rec_lfn_ok).
  rewrite encode_entry_length by apply (ok_filename _ (ro_entry _ _ Hr)). lia.
Qed.

Lemma rec_bytes_byte r name : rec_ok r name → Forall is_byte (rec_bytes r).
Proof.
  intros Hr. apply Forall_app. split; [|apply encode_entry_bytes, (ro_entry _ _ Hr)].
  pose proof (rec_lfn_ok _ _ Hr) as Hl. induction Hl as [|e l He Hl IH]; [done|]. cbn [fmap list_fmap concat]. apply Forall_app. split; [by apply encode_lfn_bytes|done].
Qed.

(** The long-name entries, cut out of the bytes and decoded. *)
Lemma decode_lfns l : Forall lfn_ok l →
  (λ i, decode_lfn (take 32 (drop (32 * i) (concat (encode_lfn <$> l))))) <$> seq 0 (length l) = l.
Proof.
  induction 1 as [|e l He Hl IH]; [done|]. cbn [length seq fmap list_fmap concat]. f_equal.
  - rewrite drop_0, <-(encode_lfn_length e He), take_app_length. by apply lfn_entry_roundtrip.
  - etrans; [|exact IH]. rewrite <-fmap_S_seq, <-list_fmap_compose. apply list_fmap_ext. intros k i _. cbn [compose]. do 2 f_equal.
    rewrite <-(encode_lfn_length e He) at 1. rewrite drop_app_ge by (rewrite encode_lfn_length by done; lia).
    f_equal. rewrite encode_lfn_length by done. lia.
Qed.

(** The first entry of a long name is neither an end nor a deleted one. *)
Lemma lfn_head e : lfn_ok e → 1 ≤ sequence_number e ≤ 20 → let d := decode_entry (encode_lfn e) in
  attributes d = FILE_ATTRIBUTES_LFN ∧ default 0 (filename d !! 0%nat) ≠ 0 ∧ default 0 (filename d !! 0%nat) ≠ 0xE5.
Proof.
  intros He Hs. destruct e as [seq last n1 a za ck n2 zb n3]. destruct He as [_ (H1 & H2 & H3) _ (Ha & Hza & Hzb) _]. cbn in Hs, H1, H2, H3, Ha, Hza, Hzb. subst a za zb.
  do 6 (destruct n1 as [|? n1]; try discriminate H1). split; [done|]. cbn. destruct last; lia.
Qed.

(** ** Pages of a list that grows *)
Lemma page_skip {A} index count (l : list A) x : Z.of_nat (length l) + 1 ≤ index → page index count (l ++ [x]) = page index count l.
Proof. intros Hi. unfold page. by rewrite !drop_ge by (rewrite ?length_app; cbn; lia). Qed.

Lemma page_more {A} index count (l : list A) x : 0 ≤ index < Z.of_nat (length l) + 1 → Z.of_nat (length (page index count l)) < count →
  page index count (l ++ [x]) = page index count l ++ [x].
Proof.
  intros Hi Hc. unfold page in *. rewrite length_take, length_drop in Hc. rewrite drop_app_le by lia.
  rewrite take_ge by (rewrite length_app, length_drop; cbn; lia). by rewrite take_ge by (rewrite length_drop; lia).
Qed.

Lemma page_full {A} index count (l l' : list A) : 0 ≤ index < Z.of_nat (length l) + 1 → 0 ≤ count ≤ Z.of_nat (length (page index count l)) →
  page index count (l ++ l') = page index count l ∧ Z.of_nat (length (page index count l)) = count.
Proof.
  intros Hi Hc. unfold page in *. rewrite length_take, length_drop in *. rewrite drop_app_le by lia.
  rewrite take_app_le by (rewrite length_drop; lia). split; [done|lia].
Qed.

Section listing.
Context {W : Type} `{!FileDevice W} (vol : Fat16Volume) (size : Z).
Context (Hlay : layout_ok vol size).
Implicit Types (w : W) (f g : Z → Z) (P L b t : list Z).

#[local] Abbreviation dev_is := (dev_is vol size).
#[local] Abbreviation chain := (chain vol).
#[local] Abbreviation pos := (pos vol).
#[local] Abbreviation bpc := (bpc vol).

(** ** The bytes of a directory *)
Definition dir_addr (cluster : Z) P (k : Z) : Z := if cluster =? PARENT_IS_ROOT_DIR then root_start vol + k else pos P k.

(** The directory in the clusters [P], the first of them [cluster], holds the bytes [b]; the root directory has no clusters. *)
Definition directory f (cluster : Z) P b : Prop :=
  (if cluster =? PARENT_IS_ROOT_DIR then P = [] ∧ Z.of_nat (length b) < root_size vol
   else head P = Some cluster ∧ chain f P ∧ NoDup P ∧ Z.of_nat (length b) ≤ bpc * Z.of_nat (length P)) ∧
  ∀ k, (k < length b)%nat → b !! k = Some (f (dir_addr cluster P (Z.of_nat k))).

Lemma directory_slice f cluster P b off n : directory f cluster P b → 0 ≤ off → 0 ≤ n → off + n ≤ Z.of_nat (length b) →
  (λ k, f (dir_addr cluster P k)) <$> seqZ off n = take (Z.to_nat n) (drop (Z.to_nat off) b).
Proof.
  intros [_ Hb] Ho Hn Hlen. apply list_eq. intros i. rewrite list_lookup_fmap. destruct (decide (Z.of_nat i < n)).
  - rewrite lookup_seqZ_lt, lookup_take_lt, lookup_drop by lia. cbn. rewrite Hb by lia. do 3 f_equal. lia.
  - rewrite lookup_seqZ_ge, lookup_take_ge by lia. done.
Qed.

Lemma read_directory_spec w f cluster P b off n : dev_is w f → directory f cluster P b → 0 ≤ off → off `mod` 32 = 0 → 0 < n → n `mod` 32 = 0 →
  off + n ≤ Z.of_nat (length b) →
  wp False (read_directory vol cluster off n w) (λ '(l, w'), l = take (Z.to_nat n) (drop (Z.to_nat off) b) ∧ dev_is w' f).
Proof.
  intros Hw Hd Ho Hom Hn Hnm Hlen. rewrite <-(directory_slice f cluster P) by (done || lia). destruct Hd as [Hd _].
  unfold read_directory, dir_addr. destruct (cluster =? PARENT_IS_ROOT_DIR).
  - destruct Hd as [_ Hd]. unfold read_from_root_dir. apply wp_io_bind, wp_lift. rewrite (root_dir_address_spec vol size Hlay) by (done || lia). cbn [wp].
    pose proof (fat_region vol size Hlay) as (? & ? & ?). pose proof (data_in_size vol size Hlay). pose proof (lay_clusters _ _ Hlay). unfold data_start in *.
    eapply wp_mono; [apply (dev_read_spec vol size w f); (done || lia)|]. intros [l w'] [-> Hw']. split; [|done].
    apply list_eq. intros i. rewrite !list_lookup_fmap. destruct (decide (Z.of_nat i < n)).
    + rewrite !lookup_seqZ_lt by lia. cbn. do 2 f_equal. lia.
    + by rewrite !lookup_seqZ_ge by lia.
  - destruct Hd as (Hh & Hc & _ & Hl). destruct P as [|c P]; [done|]. injection Hh as ->.
    eapply wp_mono; [by apply (read_chain vol size Hlay w f cluster P); (done || lia)|]. by intros [l w'].
Qed.

Lemma read_piece w f cluster P pre x post i n : dev_is w f → directory f cluster P (pre ++ x ++ post) → length pre = (32 * i)%nat →
  Z.of_nat (length x) = n → n `mod` 32 = 0 → 0 < n →
  wp False (read_directory vol cluster (Z.of_nat i * SIZEOF_DIRECTORY_ENTRY) n w) (λ '(l, w'), l = x ∧ dev_is w' f).
Proof.
  intros Hw Hd Hpre Hx Hm Hn. unfold SIZEOF_DIRECTORY_ENTRY.
  eapply wp_mono; [eapply read_directory_spec; [done|done|lia|by apply Z.mod_mul|lia|done|rewrite !length_app; lia]|].
  intros [l w'] [-> Hw']. split; [|done]. rewrite drop_app_length' by lia. by rewrite take_app_length' by lia.
Qed.

(** ** One turn of the scan *)
Section scan.
Context (idn : VNodeData) (cluster index count : Z).
Hypothesis Hcluster : cluster ≠ I_AM_ROOT_DIR ∧ 0 ≤ cluster < 2 ^ 16.
Abbreviation turn := (read_dirents_step vol idn cluster index count).

Lemma turn_end w f P pre t post i m nm o : dev_is w f → directory f cluster P (pre ++ t ++ post) → length pre = (32 * i)%nat → end_sentinel t →
  wp False (turn (Scan (Z.of_nat i) m nm o) w) (λ '(r, w'), r = inr (Z.of_nat (length o), o) ∧ dev_is w' f).
Proof.
  intros Hw Hd Hpre (Ht & Hz & Ha). unfold read_dirents_step. cbn [directory_i out].
  apply wp_io_bind. eapply wp_mono; [by apply (read_piece w f cluster P pre t post i); [done..|rewrite Ht|done|done]|]. intros [b w'] [-> Hw'].
  rewrite Ha. change (lift (hcf_if (negb (0 =? 0)))) with (lift (W := W) (Ok ())). apply wp_io_bind, wp_lift. cbn [wp].
  assert (filename (decode_entry t) !! 0%nat = t !! 0%nat) as -> by (cbn; by apply lookup_take_lt; lia).
  by rewrite Hz.
Qed.

Lemma turn_lfn w f P pre r post i m o name : dev_is w f → directory f cluster P (pre ++ rec_bytes r ++ post) → length pre = (32 * i)%nat →
  rec_ok r name → rec_lfn r ≠ [] →
  wp False (turn (Scan (Z.of_nat i) m no_name o) w) (λ '(x, w'), dev_is w' f ∧ ∃ nm, default 0 (nm !! 0%nat) ≠ 0 ∧ until_nul nm = name ∧
    x = inl (Scan (Z.of_nat (i + length (rec_lfn r))) m nm o)).
Proof.
  intros Hw Hd Hpre Hr Hne. pose proof (ro_name _ _ Hr) as Hn. destruct r as [[|e l] en]; [done|]. cbn [rec_lfn rec_entry] in *.
  destruct Hn as (Hok & Hseq & H20 & Hname & fn & curr & Hread & Hnul). unfold rec_bytes in Hd. cbn [rec_lfn rec_entry] in Hd.
  pose proof (concat_lfn_length _ Hok) as Hl. set (lb := concat (encode_lfn <$> e :: l)) in *.
  pose proof Hok as [He Hl']%Forall_cons. pose proof (lfn_head e He) as Hh. cbn zeta in Hh. rewrite Hseq in Hh. cbn [length] in Hseq, H20, Hl, Hh.
  destruct Hh as (Ea & E0 & E5); [lia|]. rewrite <-app_assoc in Hd. unfold read_dirents_step. cbn [directory_i out file_name].
  apply wp_io_bind. eapply wp_mono; [apply (read_piece w f cluster P pre (encode_lfn e) (concat (encode_lfn <$> l) ++ encode_entry en ++ post) i); [done| |done|by rewrite encode_lfn_length|done|done]|].
  { unfold lb in Hd. cbn [fmap list_fmap concat] in Hd. by rewrite <-app_assoc in Hd. }
  intros [b w1] [-> Hw1]. rewrite Ea. change (Z.land FILE_ATTRIBUTES_LFN 192 =? 0) with true. apply wp_io_bind, wp_lift. cbn [hcf_if negb wp].
  rewrite (proj2 (Z.eqb_neq _ _) E0), (proj2 (Z.eqb_neq _ _) E5). rewrite Z.eqb_refl. cbv iota. rewrite assert_bind by done.
  rewrite lfn_entry_roundtrip, Hseq by done.
  apply wp_io_bind. eapply wp_mono; [apply (read_piece w1 f cluster P pre lb (encode_entry en ++ post) i); [done..|unfold SIZEOF_DIRECTORY_ENTRY; lia|by apply Z.mod_mul|unfold SIZEOF_DIRECTORY_ENTRY; lia]|].
  intros [lfn w2] [-> Hw2]. rewrite (proj2 (Z.leb_le _ _)) by (change ((MAX_PATH_LEN + CHARS_PER_LFN - 1) `div` CHARS_PER_LFN) with 20; lia).
  apply wp_io_bind, wp_lift. cbn [wp]. apply wp_io_bind, wp_lift. rewrite Nat2Z.id. pose proof (decode_lfns _ Hok) as Ed. fold lb in Ed. cbn [length] in Ed.
  rewrite Ed. cbn [file_name]. rewrite Hread. cbn [wp]. split; [done|]. exists fn. split; [|split; [done|]].
  - destruct fn as [|c fn]; [by rewrite <-Hnul in Hname|]. cbn in Hnul |- *. destruct (Z.eqb_spec c 0) as [->|]; [by rewrite <-Hnul in Hname|done].
  - cbn. do 2 f_equal. lia.
Qed.

Lemma turn_entry w f P pre r post i m nm o name : dev_is w f → directory f cluster P (pre ++ encode_entry (rec_entry r) ++ post) → length pre = (32 * i)%nat →
  rec_ok r name → (if rec_lfn r is [] then nm = no_name else default 0 (nm !! 0%nat) ≠ 0 ∧ until_nul nm = name) →
  wp False (turn (Scan (Z.of_nat i) m nm o) w) (λ '(x, w'), dev_is w' f ∧
    x = if index <? m + 1 then
          if count <=? Z.of_nat (length o) then inr (count, o)
          else inl (Scan (Z.of_nat i + 1) (m + 1) no_name (o ++ [(Dirent (ino_of cluster (Z.of_nat i)) name, MkVNode (VNodeId (ino_of cluster (Z.of_nat i)) (mount_id idn)) FatOps)]))
        else inl (Scan (Z.of_nat i + 1) (m + 1) no_name o)).
Proof.
  intros Hw Hd Hpre Hr Hnm. destruct (ro_live _ _ Hr) as [H0 H5]. destruct (ro_attributes _ _ Hr) as [Ha Hl]. set (e := rec_entry r) in *.
  pose proof (ro_entry _ _ Hr) as He. fold e in He. unfold read_dirents_step. cbn [directory_i out file_name entries_read].
  apply wp_io_bind. eapply wp_mono; [apply (read_piece w f cluster P pre (encode_entry e) post i); [done|done|done|by rewrite encode_entry_length by apply He|done|done]|].
  intros [b w1] [-> Hw1]. rewrite decode_encode_entry by done. rewrite Ha. change (0 =? 0) with true. apply wp_io_bind, wp_lift. cbn [hcf_if negb wp].
  rewrite (proj2 (Z.eqb_neq _ _) H0), (proj2 (Z.eqb_neq _ _) H5), (proj2 (Z.eqb_neq _ _) Hl). cbv iota.
  rewrite assert_bind by (by apply Z.eqb_eq, (ro_zero _ _ Hr)).
  assert (until_nul (if default 0 (nm !! 0%nat) =? 0 then store_short_name (filename e) nm else nm) = name) as ->.
  { pose proof (ro_name _ _ Hr) as Hn. destruct (rec_lfn r); [by subst nm name|]. destruct Hnm as [Hz Hu]. by rewrite (proj2 (Z.eqb_neq _ _) Hz). }
  assert (∃ ino, make_inode cluster (Z.of_nat i) = Ok ino) as [ino Ei].
  { unfold make_inode. rewrite (wrap_small 16 cluster) by apply Hcluster. rewrite (proj2 (Z.eqb_neq _ _) (proj1 Hcluster)). cbn. eauto. }
  unfold ino_of. rewrite Ei. case_if; [case_if|]; [done| |done].
  by apply wp_io_bind, wp_lift.
Qed.

Definition named (x : dir_record * list Z) : Prop := rec_ok x.1 x.2.
Definition all_bytes (rs : list (dir_record * list Z)) : list Z := concat ((λ x, rec_bytes x.1) <$> rs).

Hypothesis Hindex : 0 ≤ index.
Hypothesis Hcount : 0 ≤ count.

(** The entry of a node, and then the rest of the scan. *)
Lemma scan_entry w f P pre r post i nm name dn rest fuel :
  dev_is w f → directory f cluster P (pre ++ encode_entry (rec_entry r) ++ post) → length pre = (32 * (i + length (rec_lfn r)))%nat →
  rec_ok r name → (if rec_lfn r is [] then nm = no_name else default 0 (nm !! 0%nat) ≠ 0 ∧ until_nul nm = name) →
  let x := rec_dirent (mount_id idn) cluster (Z.of_nat i) r name in
  let l := page index count (dn ++ x :: rest) in
  let Q := λ '((k, o), w'), dev_is w' f ∧ o = l ∧ k = Z.of_nat (length l) in
  (∀ w', dev_is w' f → wp False (io_while fuel turn (Scan (Z.of_nat (i + rec_size r)) (Z.of_nat (length (dn ++ [x]))) no_name (page index count (dn ++ [x]))) w') Q) →
  wp False (io_while (S fuel) turn (Scan (Z.of_nat (i + length (rec_lfn r))) (Z.of_nat (length dn)) nm (page index count dn)) w) Q.
Proof.
  intros Hw Hd Hpre Hr Hnm x l Q Hrest. apply wp_io_turn. eapply wp_mono; [by eapply turn_entry|]. intros [y w'] [Hw' ->].
  specialize (Hrest w' Hw'). unfold rec_size in Hrest. rewrite length_app in Hrest. cbn [length] in Hrest.
  replace (Z.of_nat (i + S (length (rec_lfn r)))) with (Z.of_nat (i + length (rec_lfn r)) + 1) in Hrest by lia.
  replace (Z.of_nat (length dn + 1)) with (Z.of_nat (length dn) + 1) in Hrest by lia.
  replace (Z.of_nat (i + length (rec_lfn r))) with (Z.of_nat i + Z.of_nat (length (rec_lfn r))) in * by lia.
  case_if; zbool; [case_if; zbool|].
  - destruct (page_full index count dn (x :: rest)) as [E1 E2]; [lia..|]. split; [done|]. by unfold l; rewrite E1.
  - rewrite page_more in Hrest by lia. exact Hrest.
  - rewrite page_skip in Hrest by lia. exact Hrest.
Qed.

Lemma scan_records f P t post rs : end_sentinel t → Forall named rs → ∀ fuel w i pre dn,
  dev_is w f → directory f cluster P (pre ++ all_bytes rs ++ t ++ post) → length pre = (32 * i)%nat → (2 * length rs < fuel)%nat →
  let l := page index count (dn ++ dir_dirents (mount_id idn) cluster (Z.of_nat i) rs) in
  wp False (io_while fuel turn (Scan (Z.of_nat i) (Z.of_nat (length dn)) no_name (page index count dn)) w)
    (λ '((k, o), w'), dev_is w' f ∧ o = l ∧ k = Z.of_nat (length l)).
Proof.
  intros Ht Hrs. induction Hrs as [|[r name] rs Hr Hrs IH]; intros fuel w i pre dn Hw Hd Hpre Hf; cbn [dir_dirents].
  { destruct fuel as [|fuel]; [cbn in Hf; lia|]. apply wp_io_turn. eapply wp_mono; [by apply (turn_end w f P pre t post)|]. intros [y w'] [-> Hw'].
    by rewrite app_nil_r. }
  cbn [length] in Hf. destruct fuel as [|[|fuel]]; [lia..|]. change (rec_ok r name) in Hr.
  assert (∀ fuel w', (2 * length rs < fuel)%nat → dev_is w' f →
    let x := rec_dirent (mount_id idn) cluster (Z.of_nat i) r name in
    let l := page index count (dn ++ x :: dir_dirents (mount_id idn) cluster (Z.of_nat i + Z.of_nat (rec_size r)) rs) in
    wp False (io_while fuel turn (Scan (Z.of_nat (i + rec_size r)) (Z.of_nat (length (dn ++ [x]))) no_name (page index count (dn ++ [x]))) w')
      (λ '((k, o), w'), dev_is w' f ∧ o = l ∧ k = Z.of_nat (length l))) as Hnext.
  { intros fuel' w' Hf' Hw'. specialize (IH fuel' w' (i + rec_size r)%nat (pre ++ rec_bytes r) (dn ++ [rec_dirent (mount_id idn) cluster (Z.of_nat i) r name]) Hw').
    rewrite <-!app_assoc in IH. rewrite length_app, (rec_bytes_length _ _ Hr), Nat2Z.inj_add in IH. rewrite Nat2Z.inj_add. apply IH; [|lia|done].
    unfold all_bytes in Hd. cbn [fmap list_fmap concat fst] in Hd. by rewrite <-app_assoc in Hd. }
  unfold all_bytes in Hd. cbn [fmap list_fmap concat fst] in Hd. fold (all_bytes rs) in Hd. rewrite <-app_assoc in Hd.
  destruct (decide (rec_lfn r = [])) as [E|Hne].
  - replace (Z.of_nat i) with (Z.of_nat (i + length (rec_lfn r))) at 1 by (rewrite E; cbn; lia).
    eapply scan_entry; [done| |by rewrite E, Nat.add_0_r|done|by rewrite E|by intros w' Hw'; apply Hnext; [lia|]].
    unfold rec_bytes in Hd. by rewrite E in Hd.
  - apply wp_io_turn. eapply wp_mono; [by eapply turn_lfn|]. intros [y w1] (Hw1 & nm & Hnm & Hnul & ->). cbn [fst snd].
    eapply (scan_entry w1 f P (pre ++ concat (encode_lfn <$> rec_lfn r))); [done| | |done|by destruct (rec_lfn r)|by intros w' Hw'; apply Hnext; [lia|]].
    + unfold rec_bytes in Hd. by rewrite <-app_assoc in Hd |- *.
    + rewrite length_app, concat_lfn_length by (by eapply rec_lfn_ok). lia.
Qed.
End scan.

(** ** read_dirents *)

(** The node [ino] is a directory whose first cluster is [cluster]. *)
Definition names_directory f (ino cluster : Z) : Prop :=
  if get_parent_cluster_num ino =? I_AM_ROOT_DIR then cluster = PARENT_IS_ROOT_DIR
  else ∃ P, located vol f ino P ∧ cluster_number (decode_entry (entry_bytes vol f ino P)) = cluster.

(** The records of a directory, its sentinel, and what is behind it. *)
Record holds f (cluster : Z) P (rs : list (dir_record * list Z)) (post : list Z) : Prop := {
  ho_records : Forall named rs;
  ho_bytes : ∃ t, end_sentinel t ∧ directory f cluster P (all_bytes rs ++ t ++ post)
}.

Lemma directory_cluster f cluster P b : directory f cluster P b → cluster ≠ I_AM_ROOT_DIR ∧ 0 ≤ cluster < 2 ^ 16.
Proof.
  intros [Hd _]. destruct (Z.eqb_spec cluster PARENT_IS_ROOT_DIR) as [->|Hne]; [done|]. destruct Hd as (Hh & Hc & _).
  apply chain_valid in Hc. destruct P as [|c P]; [done|]. injection Hh as ->. apply Forall_cons in Hc as [Hv _].
  destruct Hv as [Hv _]. pose proof (lay_clusters _ _ Hlay). unfold I_AM_ROOT_DIR. lia.
Qed.

Lemma wp_read_dirents (st : fat_state W) idn f cluster P rs post index count fuel :
  mounted vol size st (mount_id idn) f → names_directory f (inode idn) cluster → holds f cluster P rs post →
  0 ≤ index → 0 ≤ count → (2 * length rs < fuel)%nat →
  let l := page index count (dir_dirents (mount_id idn) cluster 0 rs) in
  wp False (read_dirents fuel idn index count st) (λ '((k, o), st'), k = Z.of_nat (length l) ∧ o = l ∧
    mounted vol size st' (mount_id idn) f ∧ same_tables st st').
Proof.
  intros Hm Hn [Hrs (t & Ht & Hd)] Hi Hc Hf. pose proof (directory_cluster _ _ _ _ Hd) as Hcl.
  unfold read_dirents. apply wp_io_bind. eapply (wp_get_volume vol size); [done|].
  apply wp_io_bind, (wp_mono _ _ (λ '(c, st'), c = cluster ∧ mounted vol size st' (mount_id idn) f ∧ same_tables st st')).
  { unfold names_directory in Hn. destruct (_ =? _) eqn:E; [by subst cluster|]. destruct Hn as (Pp & Hl & <-).
    apply wp_io_bind, wp_on_dev. eapply wp_mono; [by apply (read_parent_dirent_spec vol size Hlay _ f _ Pp); [apply Hm|]|].
    intros [e d] [-> Hdv]. cbn [wp]. split; [done|]. split; [by apply (mounted_dev vol size st _ f)|done]. }
  intros [c st1] (-> & Hm1 & Ht1). apply wp_on_dev.
  pose proof (scan_records idn cluster index count Hcl Hi Hc f P t post rs Ht Hrs fuel (dev st1) 0%nat [] [] (proj2 Hm1) Hd eq_refl Hf) as Hscan.
  assert (page index count (@nil (dirent * VNode)) = []) as Enil by (unfold page; by rewrite drop_nil, take_nil).
  rewrite Enil in Hscan. eapply wp_mono; [exact Hscan|].
  intros [[k o] d] (Hdv & -> & ->). split; [done|]. split; [done|]. split; [by apply (mounted_dev vol size st1 _ f)|exact Ht1].
Qed.

(** C32: listing a directory of well-formed records (a long name in order before its short entry, no entry marked as deleted) from an index returns exactly that page
    of its records, in order, each under its long name if it has one and else under its short name, with the inode number of its place, and the number of entries stored;
    the scan ends, within two turns for each record, and changes nothing. *)
Theorem read_dirents_spec (st : fat_state W) idn f cluster P rs post index count fuel :
  mounted vol size st (mount_id idn) f → names_directory f (inode idn) cluster → holds f cluster P rs post →
  0 ≤ index → 0 ≤ count → (2 * length rs < fuel)%nat →
  let l := page index count (dir_dirents (mount_id idn) cluster 0 rs) in
  ∃ st', read_dirents fuel idn index count st = Ok (Z.of_nat (length l), l, st') ∧ mounted vol size st' (mount_id idn) f ∧ same_tables st st'.
Proof.
  intros Hm Hn Hh Hi Hc Hf. destruct (wp_total_1 _ _ (wp_read_dirents st idn f cluster P rs post index count fuel Hm Hn Hh Hi Hc Hf)) as ([[k o] st'] & E & -> & -> & Hrest).
  by exists st'.
Qed.

(** ** create_inode in the root directory *)

(** The 32-byte entries of the records, none of which begins with a zero. *)
Lemma live_entries rs : Forall named rs → ∃ es, all_bytes rs = concat es ∧ Forall (λ b, length b = 32%nat ∧ default 0 (b !! 0%nat) ≠ 0) es.
Proof.
  induction 1 as [|[r name] rs Hr Hrs (es & E & Hes)]; [by exists []|]. change (rec_ok r name) in Hr.
  exists ((encode_lfn <$> rec_lfn r) ++ [encode_entry (rec_entry r)] ++ es). split.
  - unfold all_bytes in *. cbn [fmap list_fmap concat fst]. rewrite E, !concat_app. unfold rec_bytes. cbn [concat]. by rewrite app_nil_r, <-app_assoc.
  - pose proof (rec_lfn_ok _ _ Hr) as Hl. pose proof (ro_ordinals _ _ Hr) as Ho. rewrite Forall_forall in Hl, Ho.
    apply Forall_app. split; [|apply Forall_app; split; [constructor; [|constructor]|done]].
    + apply Forall_fmap, Forall_forall. intros e He. split; [by apply encode_lfn_length, Hl|].
      pose proof (Ho e He). pose proof (lfn_seq _ (Hl e He)). cbn. destruct (is_last_in_sequence e); lia.
    + destruct (ok_filename _ (ro_entry _ _ Hr)) as [Hlen _]. split; [by apply encode_entry_length|].
      unfold encode_entry. rewrite lookup_app_l by lia. apply (ro_live _ _ Hr).
Qed.

Lemma concat_entries_length (es : list (list Z)) : Forall (λ b, length b = 32%nat ∧ default 0 (b !! 0%nat) ≠ 0) es → length (concat es) = (32 * length es)%nat.
Proof. induction 1 as [|b es [Hb _] Hes IH]; [done|]. cbn. rewrite length_app, IH. lia. Qed.

Lemma wp_find_root_end f t post es : end_sentinel t → Forall (λ b, length b = 32%nat ∧ default 0 (b !! 0%nat) ≠ 0) es → ∀ fuel w i pre,
  dev_is w f → directory f PARENT_IS_ROOT_DIR [] (pre ++ concat es ++ t ++ post) → length pre = (32 * i)%nat → (length es < fuel)%nat →
  wp False (io_while fuel (λ offset, b ← read_from_root_dir vol offset SIZEOF_DIRECTORY_ENTRY;
      mret (if default 0 (filename (decode_entry b) !! 0%nat) =? 0 then inr offset else inl (offset + SIZEOF_DIRECTORY_ENTRY)))
      (Z.of_nat i * SIZEOF_DIRECTORY_ENTRY) w)
    (λ '(o, w'), o = Z.of_nat (i + length es) * SIZEOF_DIRECTORY_ENTRY ∧ dev_is w' f).
Proof.
  intros Ht Hes. induction Hes as [|b es [Hb H0] Hes IH]; intros fuel w i pre Hw Hd Hpre Hf; (destruct fuel as [|fuel]; [cbn in Hf; lia|]);
    apply wp_io_turn, wp_io_bind; change (read_from_root_dir (W := W) vol) with (read_directory (W := W) vol PARENT_IS_ROOT_DIR).
  - destruct Ht as (Hl & Hz & _). eapply wp_mono; [by apply (read_piece w f _ [] pre t post i); [..|by rewrite Hl|done|done]|]. intros [l w'] [-> Hw'].
    assert (filename (decode_entry t) !! 0%nat = t !! 0%nat) as -> by (cbn; by apply lookup_take_lt; lia).
    rewrite Hz. split; [cbn; f_equal; lia|done].
  - cbn [concat] in Hd. rewrite <-app_assoc in Hd.
    eapply wp_mono; [by apply (read_piece w f _ [] pre b (concat es ++ t ++ post) i); [..|by rewrite Hb|done|done]|]. intros [l w'] [-> Hw'].
    assert (filename (decode_entry b) !! 0%nat = b !! 0%nat) as -> by (cbn; by apply lookup_take_lt; lia).
    rewrite (proj2 (Z.eqb_neq _ _) H0). cbn [wp].
    replace (Z.of_nat i * SIZEOF_DIRECTORY_ENTRY + SIZEOF_DIRECTORY_ENTRY) with (Z.of_nat (S i) * SIZEOF_DIRECTORY_ENTRY) by (unfold SIZEOF_DIRECTORY_ENTRY; lia).
    cbn [length] in Hf |- *. replace (i + S (length es))%nat with (S i + length es)%nat by lia.
    apply (IH fuel w' (S i) (pre ++ b)); [done|by rewrite <-app_assoc|rewrite length_app; lia|lia].
Qed.

Lemma directory_root f b : directory f PARENT_IS_ROOT_DIR [] b ↔
  Z.of_nat (length b) < root_size vol ∧ ∀ k, (k < length b)%nat → b !! k = Some (f (root_start vol + Z.of_nat k)).
Proof. unfold directory, dir_addr. cbn. naive_solver. Qed.

(** Part of the root directory replaced. *)
Lemma directory_overwrite f pre old new post : length old = length new → directory f PARENT_IS_ROOT_DIR [] (pre ++ old ++ post) →
  directory (overwrite f (root_start vol + Z.of_nat (length pre)) (Z.of_nat (length new)) new) PARENT_IS_ROOT_DIR [] (pre ++ new ++ post).
Proof.
  intros El. rewrite !directory_root, !length_app, El. intros [Hs Hb]. split; [done|]. intros k Hk. specialize (Hb k Hk).
  destruct (decide (k < length pre)%nat) as [H1|H1]; [|destruct (decide (k < length pre + length new)%nat) as [H2|H2]].
  - rewrite overwrite_out by lia. rewrite lookup_app_l in Hb |- * by done. exact Hb.
  - rewrite lookup_app_r, lookup_app_l by lia. destruct (lookup_lt_is_Some_2 new (k - length pre)%nat) as [x Ex]; [lia|].
    rewrite Ex. f_equal. symmetry. apply overwrite_in; [lia|]. rewrite <-Ex. f_equal. lia.
  - rewrite overwrite_out by lia. rewrite !lookup_app_r in Hb |- * by lia. by rewrite El in Hb.
Qed.

Lemma wp_stat_root (st : fat_state W) idn f : mounted vol size st (mount_id idn) f → inode idn = I_AM_ROOT_DIR →
  wp False (stat_file idn st) (λ '(s, st'), st_mode s = S_IFDIR ∧ st' = st).
Proof.
  intros Hm Hi. apply wp_io_bind. eapply (wp_get_volume vol size); [done|]. rewrite Hi. change (get_parent_cluster_num I_AM_ROOT_DIR =? I_AM_ROOT_DIR) with true.
  cbv iota. apply wp_io_bind, wp_lift. pose proof (fat_region vol size Hlay) as (? & ? & ?). pose proof (lay_data _ _ Hlay). pose proof (lay_clusters _ _ Hlay).
  unfold data_start in *. fold (root_size vol). by rewrite c_int_ok by lia.
Qed.

(** The entry of a new file. *)
Definition new_file_entry (idx : Z) : Fat16DirectoryEntry := DirEntry (short_file_name idx) 0 0 0 0 0 0 0 0 0 0 0.

Lemma short_file_name_byte idx : Forall is_byte (short_file_name idx).
Proof.
  unfold short_file_name. pose proof (Z.mod_pos_bound idx 26). pose proof (Z.mod_pos_bound (idx `div` 26) 26). pose proof (Z.mod_pos_bound (idx `div` 26 `div` 26) 26).
  repeat constructor; lia.
Qed.

Lemma new_record_ok idx name es : name ≠ [] → (length es ≤ 20)%nat → Forall lfn_ok es → Forall (λ e, sequence_number e ≠ 0) es →
  (∃ e, es !! 0%nat = Some e ∧ sequence_number e = Z.of_nat (length es)) →
  (∃ file_name curr, read_lfn_name es (no_name, 0) = Ok (file_name, curr) ∧ until_nul file_name = name) →
  rec_ok (DirRecord es (new_file_entry idx)) name.
Proof.
  intros Hne H20 Hok Hord (e & He & Hseq) Hread. constructor; cbn [rec_lfn rec_entry]; [|done|done|done|done|].
  - split; [split; [done|apply short_file_name_byte]|repeat constructor; done..|done].
  - destruct es as [|e0 es]; [done|]. injection He as ->. by split_and!.
Qed.

(** The image after the records were written behind the last one: only the root directory changed. *)
Definition outside_root f g : Prop := ∀ a, ¬ (root_start vol ≤ a < data_start vol) → g a = f a.

Lemma wp_write_records w f rs post r name : dev_is w f → holds f PARENT_IS_ROOT_DIR [] rs post → rec_ok r name →
  (32 * rec_size r ≤ length post)%nat →
  wp False (write_to_root_dir vol (Z.of_nat (length (all_bytes rs))) (rec_bytes r ++ encode_entry zero_entry) w)
    (λ '(_, w'), ∃ g, dev_is w' g ∧ holds g PARENT_IS_ROOT_DIR [] (rs ++ [(r, name)]) (drop (32 * rec_size r) post) ∧ outside_root f g).
Proof.
  intros Hw [Hrs (t & [Ht Hz] & Hd)] Hr Hroom. pose proof (rec_bytes_byte _ _ Hr) as Hb. set (new := rec_bytes r ++ encode_entry zero_entry).
  assert (length new = 32 * rec_size r + 32)%nat as Hlen by (unfold new; by rewrite length_app, (rec_bytes_length _ _ Hr)).
  set (old := t ++ take (32 * rec_size r) post). set (post' := drop (32 * rec_size r) post).
  assert (length old = length new) as El by (unfold old; rewrite length_app, length_take, Hlen; lia).
  assert (all_bytes rs ++ t ++ post = all_bytes rs ++ old ++ post') as Eb by (unfold old, post'; by rewrite <-app_assoc, take_drop).
  rewrite Eb in Hd. pose proof (directory_overwrite _ _ _ _ _ El Hd) as Hd'. pose proof (proj1 (directory_root _ _) Hd) as [Hsz _]. rewrite !length_app, El in Hsz.
  destruct (live_entries rs Hrs) as (es & Ees & Hes). pose proof (concat_entries_length es Hes) as Hel. rewrite <-Ees in Hel.
  unfold write_to_root_dir. apply wp_io_bind, wp_lift. fold new. rewrite (root_dir_address_spec vol size Hlay); [|lia| |lia| |lia].
  2: { rewrite Hel, Nat2Z.inj_mul, Z.mul_comm. by apply Z.mod_mul. }
  2: { rewrite Hlen. replace (Z.of_nat (32 * rec_size r + 32)) with (Z.of_nat (rec_size r + 1) * 32) by lia. by apply Z.mod_mul. }
  cbn [wp]. pose proof (fat_region vol size Hlay) as (? & ? & ?). pose proof (data_in_size vol size Hlay). pose proof (lay_clusters _ _ Hlay). unfold data_start in *.
  eapply wp_mono; [apply (dev_write_spec vol size w f); [done|lia| |apply Forall_app; split; [done|]|lia]|].
  { intros E. by rewrite E in Hlen. }
  { apply encode_entry_bytes. split; [split; [done|by repeat constructor]|by repeat constructor..|done]. }
  intros [_ w'] Hw'. eexists. split; [exact Hw'|]. split; [|intros a Ha; apply overwrite_out; unfold data_start in Ha; lia].
  constructor; [apply Forall_app; split; [done|by constructor]|]. exists (encode_entry zero_entry). split; [done|].
  unfold all_bytes. rewrite fmap_app, concat_app. cbn [fmap list_fmap concat fst]. rewrite app_nil_r, <-app_assoc.
  unfold new in Hd'. by rewrite <-app_assoc in Hd'.
Qed.

Definition places (rs : list (dir_record * list Z)) : nat := foldr (λ x n, (rec_size x.1 + n)%nat) 0%nat rs.

Lemma all_bytes_length rs : Forall named rs → length (all_bytes rs) = (32 * places rs)%nat.
Proof.
  induction 1 as [|[r name] rs Hr Hrs IH]; [done|]. change (rec_ok r name) in Hr. unfold all_bytes in *. cbn [fmap list_fmap concat fst places foldr].
  rewrite length_app, IH, (rec_bytes_length _ _ Hr). fold (places rs). lia.
Qed.

Lemma places_snoc rs x : places (rs ++ [x]) = (places rs + rec_size x.1)%nat.
Proof. unfold places. induction rs as [|y rs IH]; cbn [app foldr]; [done|]. rewrite IH. apply Nat.add_assoc. Qed.

Lemma dir_dirents_snoc mid cluster i rs r name :
  dir_dirents mid cluster i (rs ++ [(r, name)]) = dir_dirents mid cluster i rs ++ [rec_dirent mid cluster (i + Z.of_nat (places rs)) r name].
Proof.
  revert i. induction rs as [|[r' name'] rs IH]; intros i; cbn [app dir_dirents places foldr fst]; [by rewrite Z.add_0_r|].
  rewrite IH. fold (places rs). do 3 f_equal. rewrite Nat2Z.inj_add. by rewrite Z.add_assoc.
Qed.

Lemma wp_create_in_root (st : fat_state W) idn f rs post name fuel :
  mounted vol size st (mount_id idn) f → inode idn = I_AM_ROOT_DIR → holds f PARENT_IS_ROOT_DIR [] rs post →
  Forall ascii name → name ≠ [] → (length name < 256)%nat → (32 * (length name / 13 + 2) ≤ length post)%nat → (places rs < fuel)%nat →
  wp False (create_inode fuel idn S_IFREG name st) (λ '(x, st'), x = 0 ∧ all_fat_mounts st' = all_fat_mounts st ∧
    ∃ g r post', mounted vol size st' (mount_id idn) g ∧ holds g PARENT_IS_ROOT_DIR [] (rs ++ [(r, name)]) post' ∧ outside_root f g ∧
      rec_entry r = new_file_entry (create_idx st)).
Proof.
  intros Hm Hi Hh Ha Hne Hlen Hroom Hf. destruct (new_lfn_entries_spec (create_idx st) name Ha Hlen) as (es & Ees & Hes & Hok & Hord & Hseq & Hread).
  assert (length es = length name / 13 + 1)%nat as Hn.
  { apply Nat2Z.inj. rewrite Hes, Nat2Z.inj_add, Nat2Z.inj_div. done. }
  assert (length es ≤ 20)%nat as H20 by (rewrite Hn; assert (length name / 13 < 20)%nat by (by apply Nat.Div0.div_lt_upper_bound; lia); lia).
  pose proof (new_record_ok (create_idx st) name es Hne H20 Hok Hord Hseq Hread) as Hr. set (r := DirRecord es (new_file_entry (create_idx st))) in *.
  unfold create_inode. apply wp_io_bind. eapply (wp_get_volume vol size); [done|].
  apply wp_io_bind. eapply wp_mono; [by apply (wp_stat_root st idn f)|]. intros [s st'] [-> ->].
  apply wp_io_bind, wp_lift. change (negb (S_ISDIR S_IFDIR)) with false. cbn [hcf_if wp]. apply wp_io_bind. cbn [wp].
  set (st1 := FatState _ _ _). apply wp_io_bind, wp_lift. rewrite Ees. cbn [wp].
  change (new_inode_cluster vol S_IFREG) with (mret (0, 0) : io W (Z * Z)). apply wp_io_bind. cbn [wp].
  apply wp_io_bind, wp_lift. change (create_fat_mode S_IFREG) with (Ok 0). cbn [wp]. fold (new_file_entry (create_idx st)).
  apply wp_io_bind, wp_lift. unfold entries_to_insert. rewrite (proj2 (Z.leb_le _ _)) by lia. cbn [wp].
  assert (concat ((encode_lfn <$> es) ++ [encode_entry (new_file_entry (create_idx st)); encode_entry zero_entry]) = rec_bytes r ++ encode_entry zero_entry) as ->.
  { rewrite concat_app. unfold rec_bytes. cbn [concat rec_lfn rec_entry r]. by rewrite app_nil_r, <-app_assoc. }
  rewrite Hi. change (I_AM_ROOT_DIR =? I_AM_ROOT_DIR) with true. cbv iota. pose proof Hh as [Hrs (t & Ht & Hd)].
  destruct (live_entries rs Hrs) as (bs & Ebs & Hbs). pose proof (concat_entries_length bs Hbs) as Hlb. rewrite <-Ebs, all_bytes_length in Hlb by done.
  apply wp_io_bind, wp_io_bind, wp_on_dev. rewrite Ebs in Hd.
  eapply wp_mono; [by apply (wp_find_root_end f t post bs Ht Hbs fuel (dev st) 0%nat []); [apply Hm| | |lia]|].
  intros [o d] [-> Hdv]. apply wp_on_dev. cbn [dev].
  replace (Z.of_nat (0 + length bs) * SIZEOF_DIRECTORY_ENTRY) with (Z.of_nat (length (all_bytes rs))) by (rewrite all_bytes_length by done; unfold SIZEOF_DIRECTORY_ENTRY; lia).
  eapply wp_mono; [apply (wp_write_records d f rs post r name); [done|done|done|unfold rec_size; cbn [rec_lfn r]; lia]|].
  intros [[] d'] (g & Hg & Hhg & Hout). cbn [wp]. split; [done|]. split; [done|].
  exists g, r, (drop (32 * rec_size r) post). split_and!; [by split; [apply Hm|]|done|done|done].
Qed.

(** The entry of a record is where its inode number says. *)
Lemma record_located f cluster P rs1 r name rs2 post (d := (places rs1 + length (rec_lfn r))%nat) :
  holds f cluster P (rs1 ++ (r, name) :: rs2) post → Z.of_nat d < 2 ^ 16 → let ino := ino_of cluster (Z.of_nat d) in
  located vol f ino P ∧ entry_bytes vol f ino P = encode_entry (rec_entry r).
Proof.
  intros [Hrs (t & Ht & Hd)] Hd16 ino. pose proof (directory_cluster _ _ _ _ Hd) as [Hc1 Hc]. apply Forall_app in Hrs as [Hrs1 [Hr _]%Forall_cons].
  change (rec_ok r name) in Hr. pose proof (make_inode_roundtrip cluster (Z.of_nat d) Hc ltac:(unfold u16_range; lia)) as Hino.
  unfold ino, ino_of. destruct (make_inode cluster (Z.of_nat d)) as [i| | |]; [|by destruct Hino|done..]. destruct Hino as (_ & Ep & Ei).
  set (pre := all_bytes rs1 ++ concat (encode_lfn <$> rec_lfn r)). set (e := encode_entry (rec_entry r)).
  assert (∃ rest, all_bytes (rs1 ++ (r, name) :: rs2) ++ t ++ post = pre ++ e ++ rest) as [rest Eb].
  { exists (all_bytes rs2 ++ t ++ post). unfold pre, e. rewrite <-!app_assoc. unfold all_bytes. rewrite fmap_app, concat_app.
    cbn [fmap list_fmap concat fst]. change (rec_bytes r) with (concat (encode_lfn <$> rec_lfn r) ++ encode_entry (rec_entry r)). by rewrite <-!app_assoc. }
  assert (length pre = 32 * d)%nat as Hpre by (unfold pre, d; rewrite length_app, all_bytes_length, concat_lfn_length by (first [exact Hrs1|by eapply rec_lfn_ok]); lia).
  assert (length e = 32%nat) as He by (apply encode_entry_length, (ok_filename _ (ro_entry _ _ Hr))).
  rewrite Eb in Hd. pose proof (directory_slice f cluster P _ (32 * Z.of_nat d) 32 Hd ltac:(lia) ltac:(lia) ltac:(rewrite !length_app; lia)) as Hs.
  rewrite drop_app_length', take_app_length' in Hs by lia. destruct Hd as [Hd _]. rewrite !length_app in Hd.
  split.
  - split; [by rewrite Ep|]. rewrite Ep, Ei. destruct (cluster =? PARENT_IS_ROOT_DIR); [split; [by apply Hd|lia]|].
    destruct Hd as (Hh & Hch & Hnd & Hl). split_and!; [done..|lia].
  - rewrite <-Hs. unfold entry_bytes, entry_addr, dir_addr. rewrite Ep, Ei. apply fmap_seqZ_shift. intros k Hk.
    destruct (cluster =? PARENT_IS_ROOT_DIR); do 2 f_equal; lia.
Qed.

End listing.
