(* ===== verification/FatExamples.v ===== *)
(** * A concrete FAT16 volume: witnesses for the theorems on fs_fat.c

    The volume is on partition 0 of the disk in memory of BlockDev.v: one
    reserved sector, one table of one sector, a root directory of one sector
    with one file of three bytes in cluster 2, and clusters of one sector. *)
From S2P Require Import Prelude Bytes Vfs BlockDev FatVolume FatChain FatFile FatName FatSpec FatDir.
Import BlockDevExamples.

Definition pad_sector (l : list Z) : list Z := l ++ replicate (512 - length l) 0.

Definition fat_disk : gmap Z (list Z) := list_to_map [
  (1, pad_sector [0xF8; 0xFF; 0xFF; 0xFF; 0xF8; 0xFF]);
  (2, pad_sector ([65; 32; 32; 32; 32; 32; 32; 32; 84; 88; 84; 0] ++ replicate 14 0 ++ [2; 0; 3; 0; 0; 0]));
  (3, pad_sector [97; 98; 99])].

Definition fat_device : BlockDevice (gmap Z (list Z)) :=
  MkDevice fat_disk (MkCache [] 0 false) 1 (replicate 9 (Partition 0 0)).
Definition fat_world : dev_state (gmap Z (list Z)) := DevState 1 [fat_device].
Definition fat_vol : Fat16Volume := MkVolume (MkVNode (VNodeId 0 0) BlockdevOps) 1 1 1 512 1 1.
Definition fat_size : Z := 512 * 512.
(** the image of the device *)
Definition fat_image : Z → Z := partition_byte fat_world (VNodeId 0 0).
Definition fat_st : fat_state (dev_state (gmap Z (list Z))) := FatState [fat_vol] 0 fat_world.
(** the file: entry 0 of the root directory of the volume mounted first *)
Definition file_ex : VNodeData := VNodeId 0 0.
Definition entry_ex : Fat16DirectoryEntry :=
  DirEntry [65; 32; 32; 32; 32; 32; 32; 32; 84; 88; 84] 0 0 0 0 0 0 0 0 0 2 3.

Lemma fat_layout : layout_ok fat_vol fat_size.
Proof. by split. Qed.

Lemma fat_dev : dev_is fat_vol fat_size fat_world fat_image.
Proof.
  split_and!; [|vm_compute; reflexivity|done].
  split; [constructor; [by split|constructor]|]. exists 0, fat_device, (Partition 0 0).
  split_and!; [vm_compute; reflexivity|done..].
Qed.

Lemma fat_mounted : mounted fat_vol fat_size fat_st 0 fat_image.
Proof. split; [done|exact fat_dev]. Qed.

Lemma chain_ex : chain fat_vol fat_image [2].
Proof. split; [by split|]. vm_compute. done. Qed.

Lemma file_at_ex : file_at fat_vol fat_image 0 [] [2] entry_ex.
Proof.
  split; [split; [done|by split]|vm_compute; reflexivity|done|split; [done|exact chain_ex]|apply NoDup_singleton|set_solver].
Qed.

Lemma free_ex : free_list fat_vol fat_image [3; 4].
Proof.
  split; [by repeat constructor; set_solver|].
  constructor; [|constructor; [|constructor]]; (split; [by split|vm_compute; reflexivity]).
Qed.

Lemma read_from_cluster_chain_spec_witness :
  ∃ w', read_from_cluster_chain fat_vol 2 1 2 fat_world = Ok ([98; 99], w').
Proof.
  destruct (read_from_cluster_chain_spec fat_vol fat_size fat_layout fat_world fat_image 2 [] 1 2
    fat_dev chain_ex ltac:(done) ltac:(done) ltac:(done)) as (out & w' & E & _ & Hl & Hout).
  exists w'. rewrite E. do 2 f_equal. destruct out as [|a [|b [|]]]; simpl in Hl; try lia.
  pose proof (Hout 0 ltac:(done)) as H0. pose proof (Hout 1 ltac:(done)) as H1.
  vm_compute in H0, H1. congruence.
Defined.

Lemma write_to_cluster_chain_spec_witness :
  ∃ w' (new : list Z), write_to_cluster_chain fat_vol 2 510 [1; 2; 3; 4] fat_world = Ok ((), w') ∧ length new = 2%nat.
Proof.
  destruct (write_to_cluster_chain_spec fat_vol fat_size fat_layout fat_world fat_image 2 [] 510 [1; 2; 3; 4] [3; 4]
    fat_dev chain_ex ltac:(apply NoDup_singleton) ltac:(done) ltac:(by repeat constructor) free_ex ltac:(vm_compute; done))
    as (w' & g & new & E & _ & _ & _ & _ & Hn & _).
  exists w', new. split; [exact E|]. vm_compute (0 `max` _) in Hn. lia.
Defined.

Lemma read_file_spec_witness : ∃ st', read_file 0 file_ex 1 100 fat_st = Ok (2, FileBytes [98; 99], st').
Proof.
  destruct (read_file_spec fat_vol fat_size fat_layout fat_st file_ex fat_image [] [2] entry_ex 0 1 100
    fat_mounted file_at_ex ltac:(vm_compute; done) ltac:(done) ltac:(done) ltac:(done)) as (buf & st' & E & Hb & _).
  exists st'. rewrite E, Hb. vm_compute (_ <$> _). reflexivity.
Defined.

Lemma write_file_spec_witness :
  ∃ st' g, write_file file_ex 2 [1; 2; 3] fat_st = Ok (3, st') ∧ mounted fat_vol fat_size st' 0 g.
Proof.
  destruct (write_file_spec fat_vol fat_size fat_layout fat_st file_ex fat_image [] [2] entry_ex 2 [1; 2; 3] [3; 4]
    fat_mounted file_at_ex ltac:(done) ltac:(done) ltac:(by repeat constructor) free_ex ltac:(simpl; lia)
    ltac:(vm_compute; done)) as (st' & g & P' & L' & E & Hm & _).
  exists st', g. split; [exact E|exact Hm].
Defined.

Lemma write_then_read_witness :
  ∃ st' st'', write_file file_ex 2 [1; 2; 3] fat_st = Ok (3, st') ∧
    read_file 0 file_ex 2 3 st' = Ok (3, FileBytes [1; 2; 3], st'').
Proof.
  exact (write_then_read fat_vol fat_size fat_layout fat_st file_ex fat_image [] [2] entry_ex 2 [1; 2; 3] [3; 4] 0
    fat_mounted file_at_ex ltac:(vm_compute; done) ltac:(done) ltac:(done) ltac:(by repeat constructor) ltac:(done) free_ex
    ltac:(simpl; lia) ltac:(vm_compute; done)).
Defined.

Lemma read_past_end_never_returns_witness :
  ¬ (∃ r, read_file 0 file_ex 10 1 fat_st = Ok r) ∧ file_size_bytes entry_ex = 3.
Proof.
  split; [|reflexivity]. intros [r E].
  exact (read_past_end_never_returns fat_vol fat_size fat_layout fat_st file_ex fat_image [] 2 [] entry_ex 0 10 1 r
    fat_mounted file_at_ex ltac:(done) ltac:(done) ltac:(done) ltac:(vm_compute; done) E).
Defined.

Lemma ftruncate_grow_keeps_stale_bytes_witness :
  ∃ st' g newP, ftruncate file_ex 500 fat_st = Ok ((), st') ∧
    file_at fat_vol g 0 ([] ++ newP) [2] (with_size entry_ex 500).
Proof.
  destruct (ftruncate_grow_keeps_stale_bytes fat_vol fat_size fat_layout fat_st file_ex fat_image [] 2 [] entry_ex 500 [3; 4]
    fat_mounted file_at_ex ltac:(done) free_ex ltac:(done)) as (st' & g & newP & E & _ & Hf & _).
  exists st', g, newP. split; [exact E|exact Hf].
Defined.

(** the same volume with the entry deleted *)
Definition deleted_disk : gmap Z (list Z) := <[2 := pad_sector [0xE5]]> fat_disk.
Definition deleted_world : dev_state (gmap Z (list Z)) :=
  DevState 1 [MkDevice deleted_disk (MkCache [] 0 false) 1 (replicate 9 (Partition 0 0))].

Lemma deleted_dev : dev_is fat_vol fat_size deleted_world (partition_byte deleted_world (VNodeId 0 0)).
Proof.
  split_and!; [|vm_compute; reflexivity|done].
  split; [constructor; [by split|constructor]|]. eexists 0, _, (Partition 0 0).
  split_and!; [vm_compute; reflexivity|done..].
Qed.

Lemma read_dirents_loops_on_deleted_entry_witness :
  ¬ ∃ r, read_dirents 100 (VNodeId 1 0) 0 10 (FatState [fat_vol] 0 deleted_world) = Ok r.
Proof.
  intros [r E].
  exact (read_dirents_loops_on_deleted_entry fat_vol fat_size fat_layout (FatState [fat_vol] 0 deleted_world) (VNodeId 1 0)
    (partition_byte deleted_world (VNodeId 0 0)) 100 0 10 r (conj eq_refl deleted_dev) eq_refl eq_refl
    ltac:(vm_compute; reflexivity) ltac:(vm_compute; reflexivity) E).
Defined.

Lemma make_inode_roundtrip_witness :
  ∃ ino, make_inode 5 40000 = Ok ino ∧ get_parent_cluster_num ino = 5 ∧ get_dirent_index_in_parent ino = 40000.
Proof.
  pose proof (make_inode_roundtrip 5 40000 ltac:(done) ltac:(done)) as H.
  destruct (make_inode 5 40000) as [ino| | |] eqn:E; [|vm_compute in E; discriminate E..].
  exists ino. split; [reflexivity|]. exact (proj2 H).
Defined.

(** "ab" takes one long-name entry *)
Lemma long_name_roundtrip_witness :
  ∃ es, new_lfn_entries 0 [97; 98] = Ok es ∧ length es = 1%nat.
Proof.
  destruct (long_name_roundtrip 0 [97; 98] ltac:(by repeat constructor) ltac:(simpl; lia)) as (es & E & Hl & _).
  exists es. split; [exact E|]. vm_compute (_ + 1) in Hl. lia.
Defined.

(** The root directory: one file, "a.txt", and zeros. *)
Definition a_txt : list Z := [97; 46; 116; 120; 116].
Definition root_records : list (dir_record * list Z) := [(DirRecord [] entry_ex, a_txt)].

Lemma root_holds : holds fat_vol fat_image PARENT_IS_ROOT_DIR [] root_records (replicate 416 0).
Proof.
  constructor.
  - by repeat constructor.
  - exists (replicate 32 0). split; [done|].
    assert (all_bytes root_records ++ replicate 32 0 ++ replicate 416 0 = fat_image <$> seqZ (root_start fat_vol) 480) as -> by (vm_compute; reflexivity).
    apply directory_root. rewrite length_fmap, length_seqZ. split; [done|]. intros k Hk. rewrite list_lookup_fmap, lookup_seqZ_lt by lia. done.
Qed.

Lemma read_dirents_spec_witness : ∃ st', read_dirents 10 (VNodeId 1 0) 0 5 fat_st = Ok (1, [(Dirent 0 a_txt, MkVNode (VNodeId 0 0) FatOps)], st').
Proof.
  destruct (read_dirents_spec fat_vol fat_size fat_layout fat_st (VNodeId 1 0) fat_image PARENT_IS_ROOT_DIR [] root_records (replicate 416 0) 0 5 10
    fat_mounted eq_refl root_holds ltac:(done) ltac:(done) ltac:(cbn; lia)) as (st' & E & _).
  exists st'. exact E.
Defined.

