(* ===== verification/Slab.v ===== *)
(** * The physical page allocator: stuos/src/physical_slab_allocation.c

    [slab_flags_base] is the array of booleans at the start of the managed RAM
    (true = allocated), [physical_memory_base] the physical address of page 0. *)
From S2P Require Import Prelude.

Record phys_state := PhysState {
  physical_memory_base : Z;
  physical_memory_pages : Z;
  slab_flags_base : list bool
}.

Definition with_flags (st : phys_state) (flags : list bool) : phys_state :=
  PhysState (physical_memory_base st) (physical_memory_pages st) flags.

Definition round_up_pages (num_bytes : Z) : Z := u64 (num_bytes + PAGE_SIZE - 1) `div` PAGE_SIZE.

Definition ram_size_bytes (st : phys_state) : Z := u64 (physical_memory_pages st * PAGE_SIZE).

Definition malloc4k_phys (st : phys_state) : outcome (Z * phys_state) :=
  r ← c_for 0 (physical_memory_pages st) (λ page_num (_ : ()),
        used ← arr_get (slab_flags_base st) page_num;
        if (used : bool) then Ok (inl ())
        else
          flags ← arr_set (slab_flags_base st) page_num true;
          Ok (inr (u64 (physical_memory_base st + page_num * PAGE_SIZE), with_flags st flags))) ();
  match r with inl _ => Halt | inr res => Ok res end.

Definition UINT64_MAX : Z := 2 ^ 64 - 1.

(** [for(uint64_t i=run_start; i<run_start+run_length; i++) slab_flags_base[i] = 1;] *)
Definition mark_run (st : phys_state) (run_start run_length : Z) : outcome phys_state :=
  c_foreach run_start (run_start + run_length) (λ i st,
    flags ← arr_set (slab_flags_base st) i true;
    Ok (with_flags st flags)) st.

Definition malloc_contiguous_phys (num_pages : Z) (st : phys_state) : outcome (Z * phys_state) :=
  _ ← c_assert (0 <? num_pages);
  r ← c_for 0 (physical_memory_pages st) (λ page_num '(run_start, run_length),
        used ← arr_get (slab_flags_base st) page_num;
        let '(run_start, run_length) :=
          if (used : bool) then (UINT64_MAX, 0)
          else if run_start =? UINT64_MAX then (page_num, 1) else (run_start, run_length + 1) in
        if run_length =? num_pages then
          st' ← mark_run st run_start run_length;
          Ok (inr (u64 (physical_memory_base st + run_start * PAGE_SIZE), st'))
        else Ok (inl (run_start, run_length))) (UINT64_MAX, 0);
  match r with inl _ => Halt | inr res => Ok res end.

Definition free4k_phys (phys_addr : Z) (st : phys_state) : outcome phys_state :=
  _ ← hcf_if (negb (phys_addr `mod` PAGE_SIZE =? 0));
  let page_offset := u64 (phys_addr - physical_memory_base st) `div` PAGE_SIZE in
  flags ← arr_set (slab_flags_base st) page_offset false;
  Ok (with_flags st flags).

Definition free_contiguous_phys (phys_addr num_pages : Z) (st : phys_state) : outcome phys_state :=
  _ ← c_assert (0 <? num_pages);
  c_foreach 0 num_pages (λ i st, free4k_phys (u64 (phys_addr + PAGE_SIZE * i)) st) st.

Definition init_physical_memory (base_phys mem_size_bytes : Z) : phys_state :=
  let total_page_count := mem_size_bytes `div` PAGE_SIZE in
  let pages_required_for_slab_flag_data := round_up_pages total_page_count in
  let pages := u64 (total_page_count - pages_required_for_slab_flag_data) in
  PhysState (u64 (base_phys + pages_required_for_slab_flag_data * PAGE_SIZE)) pages
    (replicate (Z.to_nat pages) false).

(** ** Invariant and reference definitions *)

Record wf (st : phys_state) : Prop := {
  wf_length : Z.of_nat (length (slab_flags_base st)) = physical_memory_pages st;
  wf_base : 0 ≤ physical_memory_base st;
  wf_aligned : physical_memory_base st `mod` PAGE_SIZE = 0;
  wf_top : physical_memory_base st + physical_memory_pages st * PAGE_SIZE < 2 ^ 64
}.

(** page [i] is free / in use *)
Definition page_is (st : phys_state) (i : Z) (b : bool) : Prop :=
  0 ≤ i ∧ slab_flags_base st !! Z.to_nat i = Some b.

Definition free_run (st : phys_state) (s n : Z) : Prop :=
  0 ≤ s ∧ ∀ i, s ≤ i < s + n → page_is st i false.

(** the state with pages [s, s+n) set to [b] *)
Definition mark (b : bool) (s n : Z) (st : phys_state) : phys_state :=
  with_flags st (imap (λ i x, if decide (s ≤ Z.of_nat i < s + n) then b else x) (slab_flags_base st)).

Definition page_addr (st : phys_state) (i : Z) : Z := physical_memory_base st + i * PAGE_SIZE.

(** ** Lemmas on the flag array *)

Lemma page_is_range st i b : wf st → page_is st i b → 0 ≤ i < physical_memory_pages st.
Proof.
  intros Hwf [Hi E]. apply lookup_lt_Some in E. pose proof (wf_length _ Hwf). lia.
Qed.

Lemma page_is_get st i b : page_is st i b → arr_get (slab_flags_base st) i = Ok b.
Proof. intros []. by apply arr_get_lookup. Qed.

Lemma page_is_dec st i : wf st → 0 ≤ i < physical_memory_pages st → ∃ b, page_is st i b.
Proof.
  intros Hwf Hi. pose proof (wf_length _ Hwf).
  destruct (arr_get_in_range (slab_flags_base st) i) as (b & ? & ?); [lia|].
  exists b. split; [lia|done].
Qed.

Lemma page_is_fun st i b b' : page_is st i b → page_is st i b' → b = b'.
Proof. intros [] []. congruence. Qed.

Lemma page_is_mark st s n b i c :
  page_is (mark b s n st) i c ↔
    if decide (s ≤ i < s + n) then c = b ∧ ∃ b', page_is st i b' else page_is st i c.
Proof.
  unfold page_is, mark. simpl. rewrite list_lookup_imap.
  destruct (decide (0 ≤ i)).
  2: { split; [intros [? _]; lia|]. case_decide; [intros (_ & ? & ? & _)|intros [? _]]; lia. }
  rewrite Z2Nat.id by lia.
  destruct (slab_flags_base st !! Z.to_nat i) as [x|]; simpl; case_decide; naive_solver.
Qed.

(** Two states with the same flags page by page are equal. *)
Lemma phys_state_eq st st' :
  physical_memory_base st = physical_memory_base st' →
  physical_memory_pages st = physical_memory_pages st' →
  (∀ i b, page_is st i b ↔ page_is st' i b) → st = st'.
Proof.
  destruct st as [b1 n1 l1], st' as [b2 n2 l2]. unfold page_is. simpl. intros -> -> H. f_equal.
  apply list_eq. intros i.
  destruct (l1 !! i) as [b|] eqn:E.
  - destruct (H (Z.of_nat i) b) as [[_ H1] _]; [|by rewrite <-H1, Nat2Z.id].
    rewrite Nat2Z.id. split; [lia|done].
  - destruct (l2 !! i) as [b|] eqn:E2; [|done].
    destruct (H (Z.of_nat i) b) as [_ [_ H2]]; [rewrite Nat2Z.id; split; [lia|done]|].
    rewrite Nat2Z.id in H2. congruence.
Qed.

Lemma wf_mark b s n st : wf st → wf (mark b s n st).
Proof.
  intros []. constructor; simpl; try done. by rewrite length_imap.
Qed.

Lemma mark_empty b s st : mark b s 0 st = st.
Proof.
  apply phys_state_eq; [done..|]. intros i c. rewrite page_is_mark.
  by case_decide; [lia|].
Qed.

Lemma mark_snoc b s n st i :
  i = s + n → 0 ≤ n → 0 ≤ i < Z.of_nat (length (slab_flags_base st)) →
  with_flags (mark b s n st) (<[Z.to_nat i := b]> (slab_flags_base (mark b s n st)))
    = mark b s (n + 1) st.
Proof.
  intros -> Hn Hi. unfold mark, with_flags. simpl. f_equal.
  apply list_eq. intros j. rewrite list_lookup_imap, list_lookup_insert, list_lookup_imap, length_imap.
  destruct (decide (Z.to_nat (s + n) = j)) as [<-|Hne].
  - destruct (lookup_lt_is_Some_2 (slab_flags_base st) (Z.to_nat (s + n))) as [x ->]; [lia|]. simpl.
    rewrite decide_True by lia. by rewrite decide_True by lia.
  - rewrite decide_False by lia. destruct (slab_flags_base st !! j); [|done]. simpl.
    f_equal. do 2 case_decide; try done; lia.
Qed.

Lemma mark_one b st i :
  0 ≤ i < Z.of_nat (length (slab_flags_base st)) →
  with_flags st (<[Z.to_nat i := b]> (slab_flags_base st)) = mark b i 1 st.
Proof.
  intros Hi. pose proof (mark_snoc b i 0 st i) as E. rewrite mark_empty in E. apply E; lia.
Qed.

Lemma mark_run_spec st s n :
  0 ≤ s → 0 ≤ n → s + n ≤ Z.of_nat (length (slab_flags_base st)) →
  mark_run st s n = Ok (mark true s n st).
Proof.
  intros Hs Hn Hl. unfold mark_run.
  assert (wp False (c_foreach s (s + n) (λ i st,
    flags ← arr_set (slab_flags_base st) i true; Ok (with_flags st flags)) st)
    (λ st', st' = mark true s (s + n - s) st)) as H.
  { apply (wp_foreach False (λ i st', st' = mark true s (i - s) st)); [lia| |].
    - by rewrite Z.sub_diag, mark_empty.
    - intros i st' Hi ->. rewrite arr_set_in_range by (simpl; rewrite length_imap; lia).
      simpl. rewrite mark_snoc by lia. f_equal. lia. }
  apply wp_total in H as (? & -> & ->). do 2 f_equal. lia.
Qed.

Lemma mark_app b s n k st i :
  i = s + n → 0 ≤ n → 0 ≤ k → mark b i k (mark b s n st) = mark b s (n + k) st.
Proof.
  intros -> Hn Hk. apply phys_state_eq; [done..|]. intros j c.
  rewrite (page_is_mark _ (s + n) k), (page_is_mark _ s (n + k)).
  destruct (decide (s + n ≤ j < s + n + k)); setoid_rewrite page_is_mark;
    destruct (decide (s ≤ j < s + n)), (decide (s ≤ j < s + (n + k))); (done || lia).
Qed.

Lemma mark_mark_undo s n st : free_run st s n → mark false s n (mark true s n st) = st.
Proof.
  intros [Hs Hf]. apply phys_state_eq; [done..|]. intros i b. rewrite page_is_mark.
  destruct (decide (s ≤ i < s + n)) as [Hi|].
  - split; [intros [-> _]; by apply Hf|]. intros Hb. split; [by eapply page_is_fun; [|apply Hf]|].
    exists true. rewrite page_is_mark, decide_True by lia. eauto.
  - by rewrite page_is_mark, decide_False by lia.
Qed.

Lemma page_addr_u64 st i :
  wf st → 0 ≤ i < physical_memory_pages st →
  u64 (physical_memory_base st + i * PAGE_SIZE) = page_addr st i.
Proof.
  intros [] Hi. unfold page_addr. apply wrap_small. unfold PAGE_SIZE in *. lia.
Qed.

Lemma page_addr_aligned st i : wf st → page_addr st i `mod` PAGE_SIZE = 0.
Proof. intros []. unfold page_addr. by rewrite Z_mod_plus_full. Qed.

Lemma free4k_phys_page st i b :
  wf st → page_is st i b → free4k_phys (page_addr st i) st = Ok (mark false i 1 st).
Proof.
  intros Hwf Hi. pose proof (page_is_range _ _ _ Hwf Hi).
  unfold free4k_phys. rewrite page_addr_aligned by done. simpl.
  assert (u64 (page_addr st i - physical_memory_base st) `div` PAGE_SIZE = i) as ->.
  { unfold page_addr. rewrite Z.add_simpl_l, wrap_small; [by rewrite Z.div_mul|].
    destruct Hwf. unfold PAGE_SIZE in *. lia. }
  pose proof (wf_length _ Hwf).
  rewrite arr_set_in_range by lia. simpl. by rewrite mark_one by lia.
Qed.

(** ** The operations against their specification *)

(** Malloc4k_phys hands out the lowest free page. *)
Lemma malloc4k_phys_spec st :
  wf st →
  match malloc4k_phys st with
  | Ok (addr, st') => ∃ i, addr = page_addr st i ∧ page_is st i false ∧
      (∀ j, 0 ≤ j < i → page_is st j true) ∧ st' = mark true i 1 st ∧ wf st'
  | Halt => ∀ j, 0 ≤ j < physical_memory_pages st → page_is st j true
  | _ => False
  end.
Proof.
  intros Hwf. unfold malloc4k_phys. pose proof (wf_length _ Hwf).
  match goal with |- context [c_for ?lo ?hi ?body ?init] =>
    assert (wp False (c_for lo hi body init) (λ r, match r with
      | inl _ => ∀ j, 0 ≤ j < physical_memory_pages st → page_is st j true
      | inr (addr, st') => ∃ i, addr = page_addr st i ∧ page_is st i false ∧
      (∀ j, 0 ≤ j < i → page_is st j true) ∧ st' = mark true i 1 st end)) as Hl end.
  { apply (wp_for False (λ n _, ∀ j, 0 ≤ j < n → page_is st j true)); [lia|intros; lia|].
    intros n [] Hn Hinv. destruct (page_is_dec st n Hwf ltac:(lia)) as [b Hb].
    rewrite (page_is_get _ _ _ Hb). simpl. destruct b; simpl.
    - intros j Hj. destruct (decide (j = n)) as [->|]; [done|]. apply Hinv. lia.
    - rewrite arr_set_in_range by lia. simpl. exists n.
      rewrite page_addr_u64 by (done || lia). split_and!; [done..|].
      by rewrite mark_one by lia. }
  apply wp_total in Hl as ([?|[addr st']] & -> & Hr); simpl; [done|].
  destruct Hr as (i & ? & ? & ? & ->). exists i. split_and!; auto using wf_mark.
Qed.

Definition runs_end_after (st : phys_state) (n j : Z) : Prop :=
  ∀ s, free_run st s n → j < s + n.

(** The number of free pages. *)
Definition free_pages (st : phys_state) : nat := length (filter (λ b, b = false) (slab_flags_base st)).

Lemma filter_insert_true (l : list bool) i :
  l !! i = Some false →
  S (length (filter (λ b, b = false) (<[i:=true]> l))) = length (filter (λ b, b = false) l).
Proof.
  revert i. induction l as [|b l IH]; intros [|i] E; simplify_eq/=.
  - done.
  - destruct b; simpl; [by apply IH|f_equal; by apply IH].
Qed.

Lemma filter_insert_false (l : list bool) i :
  l !! i = Some true →
  length (filter (λ b, b = false) (<[i:=false]> l)) = S (length (filter (λ b, b = false) l)).
Proof.
  revert i. induction l as [|b l IH]; intros [|i] E; simplify_eq/=.
  - done.
  - destruct b; simpl; [by apply IH|f_equal; by apply IH].
Qed.

Lemma free_pages_alloc st i : wf st → page_is st i false → S (free_pages (mark true i 1 st)) = free_pages st.
Proof.
  intros Hwf [Hi E]. pose proof (lookup_lt_Some _ _ _ E). rewrite <-mark_one by lia. by apply filter_insert_true.
Qed.

Lemma free_pages_free st i : wf st → page_is st i true → free_pages (mark false i 1 st) = S (free_pages st).
Proof.
  intros Hwf [Hi E]. pose proof (lookup_lt_Some _ _ _ E). rewrite <-mark_one by lia. by apply filter_insert_false.
Qed.

(** The allocator stops the machine only when every page is in use. *)
Lemma malloc4k_phys_wp st :
  wf st →
  wp (free_pages st = 0%nat) (malloc4k_phys st) (λ '(a, st'), ∃ i, a = page_addr st i ∧ page_is st i false ∧
    st' = mark true i 1 st ∧ wf st' ∧ S (free_pages st') = free_pages st).
Proof.
  intros Hwf. pose proof (malloc4k_phys_spec st Hwf) as Hs.
  destruct (malloc4k_phys st) as [[a st']| | |] eqn:E; simpl; [|..|done|done].
  - destruct Hs as (i & -> & Hi & _ & -> & Hwf'). exists i. split_and!; try done. by apply free_pages_alloc.
  - unfold free_pages. destruct (filter _ _) as [|b l] eqn:Ef; [done|exfalso].
    assert (b ∈ b :: l) as Hb by left. rewrite <-Ef in Hb.
    apply list_elem_of_filter in Hb as [-> [i Hi]%list_elem_of_lookup].
    pose proof (lookup_lt_Some _ _ _ Hi). pose proof (wf_length _ Hwf).
    assert (page_is st (Z.of_nat i) true) as [_ Ht] by (apply Hs; lia). rewrite Nat2Z.id in Ht. congruence.
Qed.

(** A run of pages handed out is so many free pages less. *)
Lemma free_pages_mark st s (n : nat) : wf st → free_run st s (Z.of_nat n) →
  (n + free_pages (mark true s (Z.of_nat n) st) = free_pages st)%nat.
Proof.
  intros Hwf. induction n as [|n IH]; intros [Hs Hr]; [by rewrite mark_empty|].
  rewrite <-IH by (split; [done|]; intros i Hi; apply Hr; lia).
  replace (Z.of_nat (S n)) with (Z.of_nat n + 1) by lia. rewrite <-(mark_app _ s _ 1 _ (s + Z.of_nat n)) by lia.
  rewrite <-(free_pages_alloc (mark true s (Z.of_nat n) st) (s + Z.of_nat n)); [lia|by apply wf_mark|].
  apply page_is_mark. rewrite decide_False by lia. apply Hr. lia.
Qed.

Lemma free_run_snoc st s j : free_run st s (j - s) → s ≤ j → page_is st j false → free_run st s (j + 1 - s).
Proof.
  intros [Hs H] Hsj Hj. split; [done|]. intros i Hi.
  destruct (decide (i = j)) as [->|]; [done|]. apply H. lia.
Qed.

(** Invariant of the scan: either the last page seen is used, or the current
    run is the longest free run that ends at page [j]. *)
Definition scan_inv (st : phys_state) (n j : Z) (p : Z * Z) : Prop :=
  let '(run_start, run_length) := p in
  runs_end_after st n j ∧
  ((run_start = UINT64_MAX ∧ run_length = 0 ∧ (0 < j → page_is st (j - 1) true)) ∨
   (0 ≤ run_start < j ∧ run_start ≠ UINT64_MAX ∧ run_length = j - run_start ∧ run_length < n ∧
    free_run st run_start (j - run_start) ∧ (0 < run_start → page_is st (run_start - 1) true))).

(** What one page adds: a free run of [n] that ends at page [j] covers the used page [u]. *)
Lemma runs_end_step st n j u :
  runs_end_after st n j → page_is st u true → j + 1 - n ≤ u ≤ j → runs_end_after st n (j + 1).
Proof.
  intros Hr Hu Hun s Hs. specialize (Hr s Hs).
  destruct (decide (s + n = j + 1)); [|lia].
  destruct Hs as [? Hs]. pose proof (page_is_fun _ _ _ _ Hu (Hs u ltac:(lia))). done.
Qed.

Lemma runs_end_step_0 st n j :
  runs_end_after st n j → j + 1 < n → runs_end_after st n (j + 1).
Proof. intros Hr Hn s Hs. specialize (Hr s Hs). destruct Hs. lia. Qed.

(** The update of [run_start]/[run_length] made for one page, and what it establishes. *)
Definition scan_step (used : bool) (page_num : Z) (p : Z * Z) : Z * Z :=
  let '(run_start, run_length) := p in
  if used then (UINT64_MAX, 0)
  else if run_start =? UINT64_MAX then (page_num, 1) else (run_start, run_length + 1).

Lemma scan_step_inv st n j p b :
  0 < n → 0 ≤ j < UINT64_MAX → scan_inv st n j p → page_is st j b →
  let '(run_start, run_length) := scan_step b j p in
  if run_length =? n then free_run st run_start n ∧ (∀ s, free_run st s n → run_start ≤ s)
  else scan_inv st n (j + 1) (run_start, run_length).
Proof.
  destruct p as [rs rl]. intros Hn Hj [Hr Hp] Hb. destruct b; simpl.
  { replace (0 =? n) with false by lia. split; [apply (runs_end_step _ _ _ j); [done..|lia]|].
    left. split_and!; [done..|]. intros _. by rewrite Z.add_simpl_r. }
  destruct Hp as [(-> & -> & Hlast)|(Hrs & HM & -> & Hlt & Hfree & Hlast)]; simpl.
  - case_if.
    + subst n. split; [split; [lia|]; intros i Hi; by replace i with j by lia|].
      intros s Hs. specialize (Hr s Hs). lia.
    + split.
      * destruct (decide (0 < j)); [|apply runs_end_step_0; [done|lia]].
        apply (runs_end_step _ _ _ (j - 1)); [done|by apply Hlast|lia].
      * right. split_and!; [lia..| |done].
        replace (j + 1 - j) with (1) by lia. split; [lia|]. intros i Hi. by replace i with j by lia.
  - replace (rs =? UINT64_MAX) with false by lia.
    assert (free_run st rs (j + 1 - rs)) as Hfree' by (apply free_run_snoc; [done|lia|done]).
    case_if.
    + replace (j + 1 - rs) with n in Hfree' by lia. split; [done|].
      intros s Hs. specialize (Hr s Hs). lia.
    + split.
      * destruct (decide (0 < rs)); [|apply runs_end_step_0; [done|lia]].
        apply (runs_end_step _ _ _ (rs - 1)); [done|by apply Hlast|lia].
      * right. split_and!; try lia; done.
Qed.

(** The scan of malloc_contiguous_phys finds the lowest free run. *)
Lemma malloc_contiguous_phys_spec st num_pages :
  wf st → 0 < num_pages →
  match malloc_contiguous_phys num_pages st with
  | Ok (addr, st') => ∃ s, addr = page_addr st s ∧ free_run st s num_pages ∧
      (∀ s', free_run st s' num_pages → s ≤ s') ∧ st' = mark true s num_pages st ∧ wf st'
  | Halt => ∀ s, ¬ free_run st s num_pages
  | _ => False
  end.
Proof.
  intros Hwf Hn. unfold malloc_contiguous_phys. pose proof (wf_length _ Hwf).
  replace (0 <? num_pages) with true by lia. simpl.
  match goal with |- context [c_for ?lo ?hi ?body ?init] =>
    assert (wp False (c_for lo hi body init) (λ r, match r with
      | inl _ => ∀ s, ¬ free_run st s num_pages
      | inr (addr, st') => ∃ s, addr = page_addr st s ∧ free_run st s num_pages ∧
          (∀ s', free_run st s' num_pages → s ≤ s') ∧ st' = mark true s num_pages st end)) as Hl end.
  { eapply wp_mono; [apply (wp_for False (scan_inv st num_pages) (λ '(addr, st'),
        ∃ s, addr = page_addr st s ∧ free_run st s num_pages ∧
          (∀ s', free_run st s' num_pages → s ≤ s') ∧ st' = mark true s num_pages st)); [lia| |]|].
    - split; [intros s0 [Hs0 _]; lia|]. left. split_and!; [done..|lia].
    - intros j p Hj Hinv. destruct (page_is_dec st j Hwf ltac:(lia)) as [b Hb].
      assert (j < UINT64_MAX) by (destruct Hwf; unfold UINT64_MAX, PAGE_SIZE in *; lia).
      pose proof (scan_step_inv st num_pages j p b Hn ltac:(lia) Hinv Hb) as Hstep.
      destruct p as [rs rl]. rewrite (page_is_get _ _ _ Hb). simpl. unfold scan_step in Hstep.
      destruct (if b then _ else _) as [rs' rl'] in *. case_if; [|done]. destruct Hstep as [Hf Hmin].
      assert (0 ≤ rs' ∧ rs' + num_pages ≤ physical_memory_pages st) as [? ?].
      { destruct Hf as [? Hf]. split; [done|].
        pose proof (page_is_range _ _ _ Hwf (Hf (rs' + num_pages - 1) ltac:(lia))). lia. }
      subst rl'. rewrite mark_run_spec by lia. simpl. exists rs'.
      rewrite page_addr_u64 by (done || lia). done.
    - intros [p|r]; [|done]. destruct p. intros [Hr _] s Hs. specialize (Hr s Hs).
      destruct Hs as [? Hf].
      pose proof (page_is_range _ _ _ Hwf (Hf (s + num_pages - 1) ltac:(lia))). lia. }
  apply wp_total in Hl as ([?|[addr st']] & -> & Hr); simpl; [done|].
  destruct Hr as (s & ? & ? & ? & ->). exists s. split_and!; auto using wf_mark.
Qed.

Lemma free_contiguous_phys_page st s n :
  wf st → 0 < n → (∀ i, s ≤ i < s + n → ∃ b, page_is st i b) →
  free_contiguous_phys (page_addr st s) n st = Ok (mark false s n st).
Proof.
  intros Hwf Hn Hpages. unfold free_contiguous_phys. replace (0 <? n) with true by lia. simpl.
  match goal with |- ?o = _ => assert (wp False o (λ st', st' = mark false s n st)) as H end.
  { apply (wp_foreach False (λ i st', st' = mark false s i st)); [lia|by rewrite mark_empty|].
    intros i st' Hi ->. destruct (Hpages (s + i) ltac:(lia)) as [b Hb].
    pose proof (page_is_range _ _ _ Hwf Hb) as Hr.
    replace (u64 (page_addr st s + PAGE_SIZE * i)) with (page_addr (mark false s i st) (s + i)).
    2: { rewrite <-page_addr_u64; [|by apply wf_mark|done].
         unfold page_addr, mark. simpl. f_equal. ring. }
    rewrite (free4k_phys_page _ _ b).
    - simpl. by rewrite mark_app by lia.
    - by apply wf_mark.
    - rewrite page_is_mark, decide_False by lia. done. }
  apply wp_total in H as (? & -> & ->). done.
Qed.

(** malloc_contiguous_phys, for any positive number of pages, hands out the lowest run of that many consecutive free pages and marks exactly that run as used, so that freeing the run restores exactly the allocator state from before; it halts only when no such run exists, and is never undefined. *)
Theorem malloc_free_contiguous_roundtrip st num_pages :
  wf st → 0 < num_pages →
  match malloc_contiguous_phys num_pages st with
  | Ok (addr, st') => free_contiguous_phys addr num_pages st' = Ok st ∧
      ∃ s, addr = page_addr st s ∧ free_run st s num_pages ∧ (∀ s', free_run st s' num_pages → s ≤ s') ∧
        st' = mark true s num_pages st ∧ wf st'
  | Halt => ∀ s, ¬ free_run st s num_pages
  | _ => False
  end.
Proof.
  intros Hwf Hn. pose proof (malloc_contiguous_phys_spec st num_pages Hwf Hn) as Hs.
  destruct (malloc_contiguous_phys num_pages st) as [[addr st']| | |] eqn:E; [|done..].
  split; [|done]. destruct Hs as (s & -> & Hf & _ & -> & Hwf').
  change (page_addr st s) with (page_addr (mark true s num_pages st) s).
  rewrite free_contiguous_phys_page; [by rewrite mark_mark_undo|done..|].
  intros i Hi. exists true. rewrite page_is_mark, decide_True by lia.
  split; [done|]. exists false. by apply Hf.
Qed.

(** The layout of the region: flags first, then the managed pages. *)
Lemma init_physical_memory_wf base mem_size :
  0 ≤ base → base `mod` PAGE_SIZE = 0 → 0 ≤ mem_size → base + mem_size < 2 ^ 64 →
  let st := init_physical_memory base mem_size in
  wf st ∧
  (** one flag byte per page fits below the first managed page *)
  base + physical_memory_pages st ≤ physical_memory_base st ∧
  (** the managed pages lie in the region *)
  physical_memory_base st + physical_memory_pages st * PAGE_SIZE ≤ base + mem_size ∧
  (** at most one page in 4096, plus a partial one, is lost to the flags *)
  mem_size < (physical_memory_pages st + mem_size `div` PAGE_SIZE `div` PAGE_SIZE + 2) * PAGE_SIZE ∧
  ∀ i, 0 ≤ i < physical_memory_pages st → page_is st i false.
Proof.
  intros Hb Hba Hm Hsz st.
  set (total := mem_size `div` PAGE_SIZE).
  assert (0 ≤ total ∧ total * PAGE_SIZE ≤ mem_size < total * PAGE_SIZE + PAGE_SIZE) as [Ht0 Ht].
  { unfold total. clear -Hm. dlia. }
  assert (round_up_pages total = (total + PAGE_SIZE - 1) `div` PAGE_SIZE) as Er.
  { unfold round_up_pages. rewrite wrap_small; [done|]. unfold PAGE_SIZE in *. lia. }
  set (r := (total + PAGE_SIZE - 1) `div` PAGE_SIZE) in *.
  assert (0 ≤ r ∧ r ≤ total ∧ total ≤ r * PAGE_SIZE ∧ r ≤ total `div` PAGE_SIZE + 1) as (Hr0 & Hr1 & Hr2 & Hr3).
  { unfold r. clear -Ht0. dlia. }
  assert (physical_memory_pages st = total - r) as Ep.
  { simpl. fold total. rewrite Er. apply wrap_small. unfold PAGE_SIZE in *. lia. }
  assert (physical_memory_base st = base + r * PAGE_SIZE) as Eb.
  { simpl. fold total. rewrite Er. apply wrap_small. unfold PAGE_SIZE in *. lia. }
  assert (slab_flags_base st = replicate (Z.to_nat (total - r)) false) as Ef.
  { unfold st, init_physical_memory. simpl. simpl in Ep. by rewrite Ep. }
  split_and!.
  - constructor; rewrite ?Ef, ?Ep, ?Eb, ?length_replicate.
    + lia.
    + unfold PAGE_SIZE in *. lia.
    + by rewrite Z_mod_plus_full.
    + unfold PAGE_SIZE in *. lia.
  - rewrite Ep, Eb. unfold PAGE_SIZE in *. lia.
  - rewrite Ep, Eb. unfold PAGE_SIZE in *. lia.
  - rewrite Ep. unfold PAGE_SIZE in *. lia.
  - rewrite Ep. intros i Hi. split; [lia|]. rewrite Ef. apply lookup_replicate_2. lia.
Qed.

(** ** Clients of the allocator

    A run of the kernel as a sequence of allocations and frees, with the pages
    each client holds: a client frees only a page it holds. *)
Inductive client_step : phys_state * gset Z → phys_state * gset Z → Prop :=
  | step_malloc4k st st' held addr :
      malloc4k_phys st = Ok (addr, st') → client_step (st, held) (st', {[addr]} ∪ held)
  | step_free4k st st' held addr :
      addr ∈ held → free4k_phys addr st = Ok st' → client_step (st, held) (st', held ∖ {[addr]}).

Definition held_inv (p : phys_state * gset Z) : Prop :=
  let '(st, held) := p in
  wf st ∧ ∀ addr, addr ∈ held → ∃ i, addr = page_addr st i ∧ page_is st i true.

Lemma page_addr_inj st i j : page_addr st i = page_addr st j → i = j.
Proof. unfold page_addr, PAGE_SIZE. lia. Qed.

Lemma client_step_inv p q : held_inv p → client_step p q → held_inv q.
Proof.
  intros Hinv Hstep. destruct Hstep as [st st' held addr E|st st' held addr Ha E];
    destruct Hinv as [Hwf Hheld].
  - pose proof (malloc4k_phys_spec st Hwf) as Hs. rewrite E in Hs.
    destruct Hs as (i & -> & Hi & _ & -> & Hwf'). split; [done|]. intros a.
    rewrite elem_of_union, elem_of_singleton. intros [->|Ha].
    + exists i. split; [done|]. rewrite page_is_mark, decide_True by lia. eauto.
    + destruct (Hheld a Ha) as (j & -> & Hj). exists j. split; [done|].
      rewrite page_is_mark. case_decide; eauto.
  - destruct (Hheld addr Ha) as (i & -> & Hi).
    rewrite (free4k_phys_page _ _ true) in E by done. injection E as <-.
    split; [by apply wf_mark|]. intros a. rewrite elem_of_difference, elem_of_singleton.
    intros [Ha' Hne]. destruct (Hheld a Ha') as (j & -> & Hj). exists j. split; [done|].
    rewrite page_is_mark, decide_False; [done|]. intros ?. apply Hne. f_equal. lia.
Qed.

(** C11: from the initial state, through any sequence of allocations and of frees of pages held, malloc4k_phys never hands out a page that a client still holds. *)
Theorem malloc4k_never_hands_out_a_held_page base mem_size st held addr st' :
  0 ≤ base → base `mod` PAGE_SIZE = 0 → 0 ≤ mem_size → base + mem_size < 2 ^ 64 →
  rtc client_step (init_physical_memory base mem_size, ∅) (st, held) →
  malloc4k_phys st = Ok (addr, st') → addr ∉ held.
Proof.
  intros Hb Hba Hm Hsz Hreach E Ha.
  assert (held_inv (st, held)) as [Hwf Hheld].
  { eapply (rtc_ind_r held_inv); [..|exact Hreach].
    - split; [by apply init_physical_memory_wf|set_solver].
    - intros. by eapply client_step_inv. }
  pose proof (malloc4k_phys_spec st Hwf) as Hs. rewrite E in Hs.
  destruct Hs as (i & -> & Hi & _). destruct (Hheld _ Ha) as (j & Ej & Hj).
  apply page_addr_inj in Ej as <-. by pose proof (page_is_fun _ _ _ _ Hi Hj).
Qed.

(** ** Witnesses: four pages above address 8192, pages 0 and 3 in use *)
Definition slab_ex : phys_state := PhysState 8192 4 [true; false; false; true].

Lemma slab_ex_wf : wf slab_ex.
Proof. by constructor. Qed.

Lemma malloc_free_contiguous_roundtrip_witness :
  malloc_contiguous_phys 2 slab_ex = Ok (12288, mark true 1 2 slab_ex) ∧
  free_contiguous_phys 12288 2 (mark true 1 2 slab_ex) = Ok slab_ex ∧ ∀ s, ¬ free_run slab_ex s 3.
Proof.
  split; [reflexivity|]. split.
  - pose proof (malloc_free_contiguous_roundtrip slab_ex 2 slab_ex_wf eq_refl) as H.
    change (malloc_contiguous_phys 2 slab_ex) with (Ok (12288, mark true 1 2 slab_ex)) in H. exact (proj1 H).
  - exact (malloc_free_contiguous_roundtrip slab_ex 3 slab_ex_wf eq_refl).
Defined.

Lemma malloc4k_never_hands_out_a_held_page_witness :
  let st := init_physical_memory 4096 (3 * PAGE_SIZE) in
  let st1 := mark true 0 1 st in
  malloc4k_phys st = Ok (8192, st1) ∧ malloc4k_phys st1 = Ok (12288, mark true 1 1 st1) ∧
  12288 ∉ ({[8192]} : gset Z).
Proof.
  intros st st1. split; [reflexivity|]. split; [reflexivity|].
  apply (malloc4k_never_hands_out_a_held_page 4096 (3 * PAGE_SIZE) st1 {[8192]} 12288
    (mark true 1 1 st1)); try done.
  eapply rtc_l; [|replace ({[8192]} : gset Z) with ({[8192]} ∪ ∅ : gset Z) by set_solver; constructor].
  by apply step_malloc4k.
Defined.
