(* ===== verification/Paging.v ===== *)
(** * The virtual address space: stuos/src/memory.c

    RAM is the words at 8-byte aligned physical addresses, which the kernel
    reaches through the higher-half direct map (HHDM): pointer [p] is physical
    address [p - hhdm_offset].  A [PageTableEntry] is one word.  The byte loops
    that fill and copy whole pages (kern_libc.c) are word loops here.  The
    processor's side, cr3 and the walk that translates an address, is
    [mmu_entry]; [invalidated] records the pages given to invlpg. *)
From S2P Require Import Prelude Bytes Slab.
#[local] Arguments c_foreach : simpl never.

(** ** Data *)

Record PointerBitmap := {
  page_offset : Z;
  pt_index : Z;
  pd_index : Z;
  pdpt_index : Z;
  pml4_index : Z;
  sign_extension : Z
}.

Definition bitmap_of (raw_ptr : Z) : PointerBitmap := {|
  page_offset := bits 0 12 raw_ptr;
  pt_index := bits 12 9 raw_ptr;
  pd_index := bits 21 9 raw_ptr;
  pdpt_index := bits 30 9 raw_ptr;
  pml4_index := bits 39 9 raw_ptr;
  sign_extension := bits 48 16 raw_ptr
|}.

Definition raw_ptr (b : PointerBitmap) : Z :=
  pack [(12, page_offset b); (9, pt_index b); (9, pd_index b); (9, pdpt_index b);
        (9, pml4_index b); (16, sign_extension b)].

Record PageTableEntry := {
  present : bool;
  read_write : bool;
  user : bool;
  pwt : bool;
  pcd : bool;
  accessed : bool;
  dirty : bool;
  huge : bool;
  global : bool;
  ignored1 : Z;
  addr : Z;
  ignored2 : Z;
  nx : bool
}.

Definition encode_pte (e : PageTableEntry) : Z :=
  pack [(1, Z.b2z (present e)); (1, Z.b2z (read_write e)); (1, Z.b2z (user e)); (1, Z.b2z (pwt e));
        (1, Z.b2z (pcd e)); (1, Z.b2z (accessed e)); (1, Z.b2z (dirty e)); (1, Z.b2z (huge e));
        (1, Z.b2z (global e)); (3, ignored1 e); (40, addr e); (11, ignored2 e); (1, Z.b2z (nx e))].

Definition decode_pte (w : Z) : PageTableEntry := {|
  present := flag 0 w; read_write := flag 1 w; user := flag 2 w; pwt := flag 3 w;
  pcd := flag 4 w; accessed := flag 5 w; dirty := flag 6 w; huge := flag 7 w; global := flag 8 w;
  ignored1 := bits 9 3 w; addr := bits 12 40 w; ignored2 := bits 52 11 w; nx := flag 63 w
|}.

Record mm := MM {
  slab : phys_state;
  ram : gmap Z Z;
  cr3 : Z;
  hhdm_offset : Z;
  original_kernel_page_table : Z;
  mmio_start : Z;
  invalidated : list Z
}.

Definition with_slab (st : mm) (s : phys_state) : mm :=
  MM s (ram st) (cr3 st) (hhdm_offset st) (original_kernel_page_table st) (mmio_start st) (invalidated st).
Definition with_ram (st : mm) (m : gmap Z Z) : mm :=
  MM (slab st) m (cr3 st) (hhdm_offset st) (original_kernel_page_table st) (mmio_start st) (invalidated st).
Definition set_pml4_phys (physical_addr : Z) (st : mm) : mm :=
  MM (slab st) (ram st) physical_addr (hhdm_offset st) (original_kernel_page_table st) (mmio_start st) (invalidated st).
Definition get_pml4_phys (st : mm) : Z := cr3 st.
Definition set_mmio_start (p : Z) (st : mm) : mm :=
  MM (slab st) (ram st) (cr3 st) (hhdm_offset st) (original_kernel_page_table st) p (invalidated st).
Definition invalidate_page (ptr : Z) (st : mm) : mm :=
  MM (slab st) (ram st) (cr3 st) (hhdm_offset st) (original_kernel_page_table st) (mmio_start st) (ptr :: invalidated st).

(** ** Memory accesses *)

Definition word_at (st : mm) (phys : Z) : Z := default 0 (ram st !! phys).
Definition pte_at (st : mm) (phys : Z) : PageTableEntry := decode_pte (word_at st phys).

Definition phys_to_hhdm (st : mm) (phys : Z) : Z := u64 (phys + hhdm_offset st).
(** the physical address behind an HHDM pointer *)
Definition hhdm_phys (st : mm) (p : Z) : Z := u64 (p - hhdm_offset st).

Definition load_word (st : mm) (p : Z) : Z := word_at st (hhdm_phys st p).
Definition store_word (p w : Z) (st : mm) : mm := with_ram st (<[hhdm_phys st p := w]> (ram st)).
Definition load_pte (st : mm) (p : Z) : PageTableEntry := decode_pte (load_word st p).
Definition store_pte (p : Z) (e : PageTableEntry) (st : mm) : mm := store_word p (encode_pte e) st.

(** The [n]-th element of an array of entries. *)
Definition entry_ptr (arr n : Z) : Z := u64 (arr + 8 * n).
Definition WORDS_PER_PAGE : Z := 512.

Definition get_pml4_virt (st : mm) : Z := phys_to_hhdm st (get_pml4_phys st).

(** The processor's translation: the four levels of tables below [root]. *)
Definition mmu_entry (st : mm) (root virt : Z) : option PageTableEntry :=
  let b := bitmap_of virt in
  let pml4 := pte_at st (root + 8 * pml4_index b) in
  if present pml4 then
    let pdpt := pte_at st (addr pml4 * PAGE_SIZE + 8 * pdpt_index b) in
    if present pdpt then
      let pd := pte_at st (addr pdpt * PAGE_SIZE + 8 * pd_index b) in
      if present pd then
        let pt := pte_at st (addr pd * PAGE_SIZE + 8 * pt_index b) in
        if present pt then Some pt else None
      else None
    else None
  else None.

Definition translate (st : mm) (virt : Z) : option Z :=
  e ← mmu_entry st (cr3 st) virt; Some (addr e * PAGE_SIZE + page_offset (bitmap_of virt)).

(** ** Operations *)

Definition get_page_table_child (st : mm) (parent n : Z) : outcome Z :=
  let child_arr_phys := u64 (Z.shiftl (addr (load_pte st parent)) 12) in
  _ ← hcf_if (negb (present (load_pte st parent)));
  _ ← hcf_if ((n <? 0) || (512 <=? n));
  Ok (entry_ptr (phys_to_hhdm st child_arr_phys) n).

(** [memcpy] of one page between two HHDM pointers *)
Definition copy_page (dest src : Z) (st : mm) : outcome mm :=
  c_foreach 0 WORDS_PER_PAGE (λ i st, Ok (store_word (entry_ptr dest i) (load_word st (entry_ptr src i)) st)) st.

(** [memset] of one page through an HHDM pointer *)
Definition fill_page (dest w : Z) (st : mm) : outcome mm :=
  c_foreach 0 WORDS_PER_PAGE (λ i st, Ok (store_word (entry_ptr dest i) w st)) st.

(** [memcpy] of one page to a virtual address of the current address space; a page fault is undefined *)
Definition copy_page_to_virt (virt src : Z) (st : mm) : outcome mm :=
  c_foreach 0 WORDS_PER_PAGE (λ i st,
    dst ← or_undef (translate st (entry_ptr virt i));
    Ok (with_ram st (<[dst := load_word st (entry_ptr src i)]> (ram st)))) st.

Definition generate_clean_virtual_addressing (st : mm) : outcome (Z * mm) :=
  '(pml4_phys, s) ← malloc4k_phys (slab st);
  let st := with_slab st s in
  let pml4_hhdm := phys_to_hhdm st pml4_phys in
  st ← copy_page pml4_hhdm (original_kernel_page_table st) st;
  _ ← c_foreach 0 256 (λ i (_ : ()), hcf_if (present (load_pte st pml4_hhdm))) ();
  Ok (pml4_phys, st).

Section walk.
Variable leaf_callback : Z → Z → bool → mm → outcome mm.
Variable table_entry_callback : Z → mm → outcome mm.

Definition walk_pt (pml4_idx pdpt_idx pd_idx pd pt_idx : Z) (st : mm) : outcome mm :=
  pt ← get_page_table_child st pd pt_idx;
  if negb (present (load_pte st pt)) then Ok st
  else
    let phys_ptr := u64 (Z.shiftl (addr (load_pte st pt)) 12) in
    let virt_ptr := {| sign_extension := 0; pml4_index := pml4_idx; pdpt_index := pdpt_idx;
                       pd_index := pd_idx; pt_index := pt_idx; page_offset := 0 |} in
    leaf_callback (raw_ptr virt_ptr) phys_ptr (negb (nx (load_pte st pt))) st.

(** The table below an entry is reported once its own entries are done. *)
Definition walk_below (entry : Z) (body : Z → mm → outcome mm) (st : mm) : outcome mm :=
  if negb (present (load_pte st entry)) then Ok st
  else
    st ← c_foreach 0 512 body st;
    table_entry_callback (u64 (Z.shiftl (addr (load_pte st entry)) 12)) st.

Definition walk_pd (pml4_idx pdpt_idx pdpt pd_idx : Z) (st : mm) : outcome mm :=
  pd ← get_page_table_child st pdpt pd_idx;
  walk_below pd (walk_pt pml4_idx pdpt_idx pd_idx pd) st.

Definition walk_pdpt (pml4_idx pml4 pdpt_idx : Z) (st : mm) : outcome mm :=
  pdpt ← get_page_table_child st pml4 pdpt_idx;
  walk_below pdpt (walk_pd pml4_idx pdpt_idx pdpt) st.

Definition walk_virtual_tree (page_table_phys : Z) (st : mm) : outcome mm :=
  let pml4_table := phys_to_hhdm st page_table_phys in
  st ← c_foreach 0 256 (λ pml4_idx st,
         let pml4 := entry_ptr pml4_table pml4_idx in
         walk_below pml4 (walk_pdpt pml4_idx pml4) st) st;
  table_entry_callback page_table_phys st.
End walk.

Definition free_page (phys : Z) (st : mm) : outcome mm :=
  s ← free4k_phys phys (slab st); Ok (with_slab st s).

Definition leaf_callback_remove_page (_ phys : Z) (_ : bool) (st : mm) : outcome mm :=
  st ← fill_page (phys_to_hhdm st phys) 0xEEEEEEEEEEEEEEEE st;
  free_page phys st.

Definition table_entry_callback_remove_page (phys : Z) (st : mm) : outcome mm := free_page phys st.

Definition remove_virtual_addressing (st : mm) : outcome mm :=
  let tree_root_phys := get_pml4_phys st in
  let st := set_pml4_phys (u64 (original_kernel_page_table st - hhdm_offset st)) st in
  walk_virtual_tree leaf_callback_remove_page table_entry_callback_remove_page tree_root_phys st.

(** What setup_page_table_entry and map_page store in an entry they make present. *)
Definition fresh_entry (phys : Z) (can_cache can_execute : bool) (e : PageTableEntry) : PageTableEntry := {|
  present := true; read_write := true; user := true; pwt := true; pcd := negb can_cache;
  accessed := accessed e; dirty := dirty e; huge := false; global := false;
  ignored1 := ignored1 e; addr := Z.shiftr phys 12; ignored2 := ignored2 e; nx := negb can_execute
|}.

Definition cleared_entry (e : PageTableEntry) : PageTableEntry := {|
  present := false; read_write := read_write e; user := user e; pwt := pwt e; pcd := pcd e;
  accessed := accessed e; dirty := dirty e; huge := huge e; global := global e;
  ignored1 := ignored1 e; addr := 0; ignored2 := ignored2 e; nx := nx e
|}.

Definition absent_entry (e : PageTableEntry) : PageTableEntry := {|
  present := false; read_write := read_write e; user := user e; pwt := pwt e; pcd := pcd e;
  accessed := accessed e; dirty := dirty e; huge := huge e; global := global e;
  ignored1 := ignored1 e; addr := addr e; ignored2 := ignored2 e; nx := nx e
|}.

Definition setup_page_table_entry (parent : Z) (st : mm) : outcome mm :=
  _ ← hcf_if (present (load_pte st parent));
  '(new_entry_phys, s) ← malloc4k_phys (slab st);
  let st := with_slab st s in
  let new_entry_hhdm := phys_to_hhdm st new_entry_phys in
  st ← c_foreach 0 512 (λ i st,
         let p := entry_ptr new_entry_hhdm i in Ok (store_pte p (cleared_entry (load_pte st p)) st)) st;
  Ok (store_pte parent (fresh_entry new_entry_phys true true (load_pte st parent)) st).

Definition fill_kernel_pml4 (st : mm) : outcome mm :=
  let kern_pml4_start := Z.shiftl 1 8 in
  let kern_pml4_end := Z.shiftl 1 9 - 1 in
  let pml4_base := u64 (get_pml4_phys st + hhdm_offset st) in
  c_foreach kern_pml4_start (kern_pml4_end + 1) (λ i st,
    let my_pml4 := entry_ptr pml4_base i in
    if present (load_pte st my_pml4) then Ok st else setup_page_table_entry my_pml4 st) st.

(** One level of the descent of map_page: the entry of a table at physical address
    [table], set up when it is absent. *)
Definition ensure_entry (table index : Z) (st : mm) : outcome (Z * mm) :=
  let my := entry_ptr (phys_to_hhdm st table) index in
  st ← (if negb (present (load_pte st my)) then setup_page_table_entry my st else Ok st);
  Ok (u64 (Z.shiftl (addr (load_pte st my)) 12), st).

Definition map_page (physical_addr virtual_addr : Z) (can_cache can_execute : bool) (st : mm) : outcome mm :=
  let virt_addr_bitmap := bitmap_of virtual_addr in
  _ ← hcf_if (negb (page_offset virt_addr_bitmap =? 0));
  '(pdpt, st) ← ensure_entry (get_pml4_phys st) (pml4_index virt_addr_bitmap) st;
  '(pd, st) ← ensure_entry pdpt (pdpt_index virt_addr_bitmap) st;
  '(pt, st) ← ensure_entry pd (pd_index virt_addr_bitmap) st;
  let my_pt := entry_ptr (phys_to_hhdm st pt) (pt_index virt_addr_bitmap) in
  _ ← hcf_if (present (load_pte st my_pt));
  _ ← hcf_if (negb (Z.land physical_addr 0xFFF =? 0));
  let st := store_pte my_pt (fresh_entry physical_addr can_cache can_execute (load_pte st my_pt)) st in
  Ok (invalidate_page virtual_addr st).

Definition setup_mmio (phys_addr size : Z) (st : mm) : outcome (Z * mm) :=
  _ ← hcf_if (negb (Z.land phys_addr PAGE_MASK =? 0));
  _ ← hcf_if (negb (Z.land (mmio_start st) PAGE_MASK =? 0));
  let result := mmio_start st in
  st ← c_while (S (Z.to_nat ((size + PAGE_SIZE - 1) `div` PAGE_SIZE))) (λ '(i, st),
         if i <? u64 (phys_addr + size) then
           st ← map_page i (mmio_start st) false false st;
           Ok (inl (u64 (i + PAGE_SIZE), set_mmio_start (u64 (mmio_start st + PAGE_SIZE)) st))
         else Ok (inr st)) (phys_addr, st);
  Ok (result, st).

Definition allocate_ram_page (virtual_addr : Z) (can_execute : bool) (st : mm) : outcome mm :=
  '(new_page_phys, s) ← malloc4k_phys (slab st);
  map_page new_page_phys virtual_addr true can_execute (with_slab st s).

(** One level of the descent of deallocate_page: an absent entry stops the machine. *)
Definition present_entry (table index : Z) (st : mm) : outcome Z :=
  let my := entry_ptr (phys_to_hhdm st table) index in
  _ ← hcf_if (negb (present (load_pte st my)));
  Ok (u64 (Z.shiftl (addr (load_pte st my)) 12)).

Definition deallocate_page (virtual_addr : Z) (st : mm) : outcome mm :=
  let virt_addr_bitmap := bitmap_of virtual_addr in
  _ ← hcf_if (negb (page_offset virt_addr_bitmap =? 0));
  pdpt ← present_entry (get_pml4_phys st) (pml4_index virt_addr_bitmap) st;
  pd ← present_entry pdpt (pdpt_index virt_addr_bitmap) st;
  pt ← present_entry pd (pd_index virt_addr_bitmap) st;
  page_phys ← present_entry pt (pt_index virt_addr_bitmap) st;
  st ← free_page page_phys st;
  let my_pt := entry_ptr (phys_to_hhdm st pt) (pt_index virt_addr_bitmap) in
  Ok (invalidate_page virtual_addr (store_pte my_pt (absent_entry (load_pte st my_pt)) st)).

Definition leaf_callback_clone_page (virt phys : Z) (can_execute : bool) (st : mm) : outcome mm :=
  st ← allocate_ram_page virt can_execute st;
  copy_page_to_virt virt (phys_to_hhdm st phys) st.

Definition table_entry_callback_do_nothing (_ : Z) (st : mm) : outcome mm := Ok st.

Definition clone_virtual_addressing (original_root_phys : Z) (st : mm) : outcome (Z * mm) :=
  '(result, st) ← generate_clean_virtual_addressing st;
  st ← walk_virtual_tree leaf_callback_clone_page table_entry_callback_do_nothing original_root_phys
         (set_pml4_phys result st);
  Ok (result, set_pml4_phys original_root_phys st).

(** ** Lemmas on words, entries and pages *)

#[local] Arguments decode_pte : simpl never.
#[local] Arguments load_pte : simpl never.
#[local] Arguments pte_at : simpl never.
#[local] Arguments wrap : simpl never.
#[local] Arguments entry_ptr : simpl never.
#[local] Arguments phys_to_hhdm : simpl never.

Record wf_pte (e : PageTableEntry) : Prop := {
  wf_ignored1 : 0 ≤ ignored1 e < 2 ^ 3;
  wf_addr : 0 ≤ addr e < 2 ^ 40;
  wf_ignored2 : 0 ≤ ignored2 e < 2 ^ 11
}.

Lemma decode_pte_wf w : wf_pte (decode_pte w).
Proof. constructor; by apply bits_range. Qed.

Lemma decode_encode_pte e : wf_pte e → decode_pte (encode_pte e) = e.
Proof.
  intros [H1 H2 H3]. destruct e as [pr rw us wt cd ac di hu gl i1 ad i2 n]. simpl in *.
  unfold decode_pte, encode_pte. simpl.
  f_equal; bitfield; try reflexivity; by apply Z.mod_small.
Qed.

Lemma raw_ptr_bitmap v : 0 ≤ v < 2 ^ 64 → raw_ptr (bitmap_of v) = v.
Proof.
  intros Hv. unfold raw_ptr, bitmap_of, bits, pack. simpl. change (v `div` 1) with (v `div` 2 ^ 0).
  Z.to_euclidean_division_equations. lia.
Qed.

Lemma bitmap_of_raw b :
  0 ≤ page_offset b < 4096 → 0 ≤ pt_index b < 512 → 0 ≤ pd_index b < 512 → 0 ≤ pdpt_index b < 512 →
  0 ≤ pml4_index b < 512 → 0 ≤ sign_extension b < 65536 → bitmap_of (raw_ptr b) = b.
Proof.
  intros. destruct b as [o p1 p2 p3 p4 s]. simpl in *. unfold bitmap_of, raw_ptr. simpl.
  f_equal; bitfield; by apply Z.mod_small.
Qed.

Definition frame_ok (t : Z) : Prop := t `mod` PAGE_SIZE = 0 ∧ 0 ≤ t < 2 ^ 40.

(** Two frames hold different words. *)
Lemma frames_disjoint t t' i j :
  frame_ok t → frame_ok t' → 0 ≤ i < 512 → 0 ≤ j < 512 → t + 8 * i = t' + 8 * j → t = t' ∧ i = j.
Proof. intros [] []. dlia. Qed.

Lemma frames_outside a t j : frame_ok a → frame_ok t → a ≠ t → 0 ≤ j < 512 → ¬ (t ≤ a + 8 * j < t + PAGE_SIZE).
Proof.
  intros [Ha _] [Ht _] Hne Hj H. apply Z.mod_divide in Ha as [x ->], Ht as [y ->]; [|done..].
  unfold PAGE_SIZE in *. lia.
Qed.

Lemma hhdm_round st p : 0 ≤ p < 2 ^ 64 → hhdm_phys st (phys_to_hhdm st p) = p.
Proof. intros Hp. unfold hhdm_phys, phys_to_hhdm, wrap. rewrite Zminus_mod_idemp_l, Z.add_simpl_r. by apply Z.mod_small. Qed.

Lemma hhdm_round_off st p o : 0 ≤ p + o < 2 ^ 64 → hhdm_phys st (u64 (phys_to_hhdm st p + o)) = p + o.
Proof.
  intros Hp. unfold hhdm_phys, phys_to_hhdm, wrap. rewrite Zplus_mod_idemp_l, Zminus_mod_idemp_l.
  replace (p + hhdm_offset st + o - hhdm_offset st) with (p + o) by lia. by apply Z.mod_small.
Qed.

Lemma hhdm_entry st t i : 0 ≤ t + 8 * i < 2 ^ 64 → hhdm_phys st (entry_ptr (phys_to_hhdm st t) i) = t + 8 * i.
Proof.
  intros Hr. unfold hhdm_phys, entry_ptr, phys_to_hhdm, wrap.
  rewrite Zplus_mod_idemp_l, Zminus_mod_idemp_l.
  replace (t + hhdm_offset st + 8 * i - hhdm_offset st) with (t + 8 * i) by lia. by apply Z.mod_small.
Qed.

Lemma frame_entry st t i : frame_ok t → 0 ≤ i < 512 → hhdm_phys st (entry_ptr (phys_to_hhdm st t) i) = t + 8 * i.
Proof. intros [_ Ht] Hi. apply hhdm_entry. lia. Qed.

Lemma load_pte_entry st t i :
  frame_ok t → 0 ≤ i < 512 → load_pte st (entry_ptr (phys_to_hhdm st t) i) = pte_at st (t + 8 * i).
Proof. intros. unfold load_pte, load_word. by rewrite frame_entry. Qed.

Lemma addr_shift e : wf_pte e → u64 (Z.shiftl (addr e) 12) = addr e * PAGE_SIZE.
Proof. intros [_ Ha _]. rewrite Z.shiftl_mul_pow2 by lia. apply wrap_small. unfold PAGE_SIZE. lia. Qed.

Lemma addr_frame phys : frame_ok phys → Z.shiftr phys 12 * PAGE_SIZE = phys ∧ 0 ≤ Z.shiftr phys 12 < 2 ^ 28.
Proof. intros [Hm Hr]. rewrite Z.shiftr_div_pow2 by lia. dlia. Qed.

Lemma word_at_insert st a w b :
  word_at (with_ram st (<[a := w]> (ram st))) b = if decide (b = a) then w else word_at st b.
Proof.
  unfold word_at. simpl. case_decide as Hd; [subst; by rewrite lookup_insert_eq|].
  by rewrite lookup_insert_ne by done.
Qed.

Lemma pte_at_insert st a e b :
  wf_pte e → pte_at (with_ram st (<[a := encode_pte e]> (ram st))) b = if decide (b = a) then e else pte_at st b.
Proof.
  intros He. unfold pte_at. rewrite word_at_insert. case_decide; [by apply decode_encode_pte|done].
Qed.

Lemma fresh_entry_wf phys c x e : frame_ok phys → wf_pte e → wf_pte (fresh_entry phys c x e).
Proof.
  intros Hp [He1 He2 He3]. destruct (addr_frame _ Hp) as [_ Ha]. constructor; simpl; [done| |done]. lia.
Qed.

(** The same words in the page at [t]. *)
Definition same_page (st st' : mm) (t : Z) : Prop :=
  ∀ i, 0 ≤ i < 512 → word_at st' (t + 8 * i) = word_at st (t + 8 * i).

Lemma same_page_pte st st' t i : same_page st st' t → 0 ≤ i < 512 → pte_at st' (t + 8 * i) = pte_at st (t + 8 * i).
Proof. intros H Hi. unfold pte_at. by rewrite H. Qed.

(** A loop that stores the 512 words of a page. *)
Lemma store_loop st t (g : Z → Z) (body : Z → mm → outcome mm) :
  frame_ok t →
  (∀ i m, 0 ≤ i < 512 → (∀ a, ¬ (t ≤ a < t + 8 * i) → m !! a = ram st !! a) →
     (∀ j, 0 ≤ j < i → m !! (t + 8 * j) = Some (g j)) →
     body i (with_ram st m) = Ok (with_ram st (<[t + 8 * i := g i]> m))) →
  wp False (c_foreach 0 512 body st) (λ st', ∃ m, st' = with_ram st m ∧
    (∀ i, 0 ≤ i < 512 → m !! (t + 8 * i) = Some (g i)) ∧
    ∀ a, ¬ (t ≤ a < t + PAGE_SIZE) → m !! a = ram st !! a).
Proof.
  intros Ht Hbody.
  apply (wp_foreach False (λ i st', ∃ m, st' = with_ram st m ∧
    (∀ j, 0 ≤ j < i → m !! (t + 8 * j) = Some (g j)) ∧ ∀ a, ¬ (t ≤ a < t + 8 * i) → m !! a = ram st !! a)).
  - lia.
  - exists (ram st). split_and!; [by destruct st|intros; lia|done].
  - intros i st' Hi (m & -> & Hin & Hout). rewrite Hbody by done.
    exists (<[t + 8 * i := g i]> m). split_and!; [done|..].
    + intros j Hj. destruct (decide (j = i)) as [->|]; [by rewrite lookup_insert_eq|].
      rewrite lookup_insert_ne by lia. apply Hin. lia.
    + intros a Ha. rewrite lookup_insert_ne by lia. apply Hout. lia.
Qed.

Lemma same_page_with_ram st m t t' :
  frame_ok t → frame_ok t' → t ≠ t' → (∀ a, ¬ (t ≤ a < t + PAGE_SIZE) → m !! a = ram st !! a) →
  same_page st (with_ram st m) t'.
Proof.
  intros [Hm Hr] [Hm' Hr'] Hne Hout i Hi. unfold word_at. simpl. rewrite Hout; [done|]. dlia.
Qed.

(** [memcpy] and [memset] of a page. *)
Lemma copy_page_wp st t s :
  frame_ok t → frame_ok s → t ≠ s →
  wp False (copy_page (phys_to_hhdm st t) (phys_to_hhdm st s) st) (λ st', ∃ m, st' = with_ram st m ∧
    (∀ i, 0 ≤ i < 512 → word_at st' (t + 8 * i) = word_at st (s + 8 * i)) ∧
    ∀ a, ¬ (t ≤ a < t + PAGE_SIZE) → m !! a = ram st !! a).
Proof.
  intros Ht Hs Hne. eapply wp_mono; [apply (store_loop st t (λ i, word_at st (s + 8 * i))); [done|]|].
  - intros i m Hi Hout _. unfold store_word, load_word.
    change (phys_to_hhdm st) with (phys_to_hhdm (with_ram st m)). rewrite !frame_entry by done.
    unfold word_at at 1. simpl. rewrite Hout; [done|]. destruct Ht, Hs. dlia.
  - intros st' (m & -> & Hin & Hout). exists m. split_and!; [done| |done].
    intros i Hi. unfold word_at at 1. simpl. by rewrite Hin.
Qed.

Lemma fill_page_wp st t w :
  frame_ok t →
  wp False (fill_page (phys_to_hhdm st t) w st) (λ st', ∃ m, st' = with_ram st m ∧
    (∀ i, 0 ≤ i < 512 → word_at st' (t + 8 * i) = w) ∧ ∀ a, ¬ (t ≤ a < t + PAGE_SIZE) → m !! a = ram st !! a).
Proof.
  intros Ht. eapply wp_mono; [apply (store_loop st t (λ _, w)); [done|]|].
  - intros i m Hi Hout _. unfold store_word.
    change (phys_to_hhdm st) with (phys_to_hhdm (with_ram st m)). by rewrite frame_entry.
  - intros st' (m & -> & Hin & Hout). exists m. split_and!; [done| |done].
    intros i Hi. unfold word_at. simpl. by rewrite Hin.
Qed.

(** ** Trees of page tables

    [T] names the tables of an address space by the indices that lead to them
    from the root, last index first. *)
Definition child (e : PageTableEntry) : option Z :=
  if present e then Some (addr e * PAGE_SIZE) else None.

Record tree (st : mm) (root : Z) (T : gmap (list Z) Z) : Prop := {
  tree_root : T !! [] = Some root;
  tree_frame p t : T !! p = Some t → frame_ok t;
  tree_child p t i : T !! p = Some t → (length p < 3)%nat → 0 ≤ i < 512 → T !! (i :: p) = child (pte_at st (t + 8 * i));
  tree_dom p i t : T !! (i :: p) = Some t → (length p < 3)%nat ∧ 0 ≤ i < 512 ∧ is_Some (T !! p);
  tree_inj p q t : T !! p = Some t → T !! q = Some t → p = q
}.

Definition is_free (s : phys_state) (a : Z) : Prop := ∃ i, page_is s i false ∧ a = page_addr s i.

Record slab_ok (s : phys_state) : Prop := {
  slab_wf : Slab.wf s;
  slab_top : physical_memory_base s + physical_memory_pages s * PAGE_SIZE ≤ 2 ^ 40
}.

(** An address space: its tables are in use, as far as the page allocator knows. *)
Record aspace (st : mm) (root : Z) (T : gmap (list Z) Z) : Prop := {
  aspace_slab : slab_ok (slab st);
  aspace_tree : tree st root T;
  aspace_held p t : T !! p = Some t → ¬ is_free (slab st) t
}.

Definition vpath (v : Z) : list Z :=
  let b := bitmap_of v in [pd_index b; pdpt_index b; pml4_index b].

(** The entry of the last level for a virtual address. *)
Definition leaf_at (st : mm) (T : gmap (list Z) Z) (v : Z) : option PageTableEntry :=
  match T !! vpath v with
  | Some t => let e := pte_at st (t + 8 * pt_index (bitmap_of v)) in if present e then Some e else None
  | None => None
  end.

Lemma page_addr_frame s i b : slab_ok s → page_is s i b → frame_ok (page_addr s i).
Proof.
  intros [Hwf Htop] Hi. pose proof (page_is_range _ _ _ Hwf Hi). split; [by apply page_addr_aligned|].
  destruct Hwf. unfold page_addr, PAGE_SIZE in *. lia.
Qed.

Lemma bitmap_ranges v :
  0 ≤ pml4_index (bitmap_of v) < 512 ∧ 0 ≤ pdpt_index (bitmap_of v) < 512 ∧
  0 ≤ pd_index (bitmap_of v) < 512 ∧ 0 ≤ pt_index (bitmap_of v) < 512.
Proof. split_and!; by apply (bits_range _ 9). Qed.

(** The processor's walk finds the entry. *)
Lemma mmu_entry_leaf st root T v : tree st root T → mmu_entry st root v = leaf_at st T v.
Proof.
  intros Ht. destruct (bitmap_ranges v) as (H4 & H3 & H2 & H1).
  unfold mmu_entry, leaf_at, vpath.
  pose proof (tree_child _ _ _ Ht [] root _ (tree_root _ _ _ Ht) ltac:(simpl; lia) H4) as E4.
  unfold child in E4. destruct (present (pte_at st (root + _))).
  2: { destruct (T !! [pd_index _; _; _]) eqn:E; [|done]. apply (tree_dom _ _ _ Ht) in E as (_ & _ & [? E]).
       apply (tree_dom _ _ _ Ht) in E as (_ & _ & [? E]). congruence. }
  pose proof (tree_child _ _ _ Ht _ _ _ E4 ltac:(simpl; lia) H3) as E3.
  unfold child in E3. destruct (present (pte_at st (_ + 8 * pdpt_index _))).
  2: { destruct (T !! [pd_index _; _; _]) eqn:E; [|done]. apply (tree_dom _ _ _ Ht) in E as (_ & _ & [? E]). congruence. }
  pose proof (tree_child _ _ _ Ht _ _ _ E3 ltac:(simpl; lia) H2) as E2.
  unfold child in E2. destruct (present (pte_at st (_ + 8 * pd_index _))); by rewrite E2.
Qed.

(** What an operation that only allocates leaves alone: the pages in use other
    than those in [R]. *)
Record kept (R : Z → Prop) (st st' : mm) : Prop := {
  kept_hhdm : hhdm_offset st' = hhdm_offset st;
  kept_cr3 : cr3 st' = cr3 st;
  kept_kernel : original_kernel_page_table st' = original_kernel_page_table st;
  kept_mmio : mmio_start st' = mmio_start st;
  kept_base : physical_memory_base (slab st') = physical_memory_base (slab st);
  kept_pages : physical_memory_pages (slab st') = physical_memory_pages (slab st);
  kept_free a : is_free (slab st') a → is_free (slab st) a;
  kept_words a : frame_ok a → ¬ R a → ¬ is_free (slab st) a → same_page st st' a
}.

Lemma kept_refl R st : kept R st st.
Proof. constructor; try done; congruence. Qed.

Lemma kept_trans (R R1 R2 : Z → Prop) st st1 st2 :
  kept R1 st st1 → kept R2 st1 st2 → (∀ a, R1 a → R a) → (∀ a, R2 a → R a ∨ is_free (slab st) a) → kept R st st2.
Proof.
  intros H1 H2 HR1 HR2. destruct H1, H2. constructor; [congruence..| |].
  - auto.
  - intros a Ha HR Hf i Hi. rewrite kept_words1; [|done|intros HR'; destruct (HR2 _ HR'); tauto|auto|done].
    apply kept_words0; [done| |done|done]. intros ?. by apply HR, HR1.
Qed.

Lemma is_free_mark s n a :
  is_free (mark true n 1 s) a ↔ is_free s a ∧ a ≠ page_addr s n.
Proof.
  unfold is_free. setoid_rewrite page_is_mark. change (page_addr (mark true n 1 s)) with (page_addr s). split.
  - intros (i & Hi & ->). case_decide; [by destruct Hi|]. split; [by exists i|]. intros ?%page_addr_inj. lia.
  - intros [(i & Hi & ->) Hne]. exists i. split; [|done]. rewrite decide_False; [done|].
    intros ?. apply Hne. f_equal. lia.
Qed.

Lemma slab_ok_mark b n k s : slab_ok s → slab_ok (mark b n k s).
Proof. intros []. constructor; [by apply wf_mark|done]. Qed.

Lemma page_is_free s i : page_is s i false → is_free s (page_addr s i).
Proof. by exists i. Qed.

(** An unchanged table has unchanged entries; an address whose table is unchanged keeps its entry. *)
Lemma leaf_at_same st st' T v :
  (∀ t, T !! vpath v = Some t → same_page st st' t) → leaf_at st' T v = leaf_at st T v.
Proof.
  intros H. unfold leaf_at. destruct (T !! vpath v); [|done]. rewrite (same_page_pte st st'); [done|by apply H|].
  apply bitmap_ranges.
Qed.

(** A new, empty table below an absent entry. *)
Lemma tree_new_table st st' root T p t i new :
  tree st root T → T !! p = Some t → (length p < 3)%nat → 0 ≤ i < 512 → present (pte_at st (t + 8 * i)) = false →
  frame_ok new → (∀ q, T !! q ≠ Some new) →
  child (pte_at st' (t + 8 * i)) = Some new → (∀ j, 0 ≤ j < 512 → present (pte_at st' (new + 8 * j)) = false) →
  (∀ a j, frame_ok a → a ≠ new → 0 ≤ j < 512 → a + 8 * j ≠ t + 8 * i → word_at st' (a + 8 * j) = word_at st (a + 8 * j)) →
  tree st' root (<[i :: p := new]> T).
Proof.
  intros Ht Hp Hl Hi Habs Hnew Hfresh Hent Hempty Hsame.
  assert (T !! (i :: p) = None) as Hnone.
  { rewrite (tree_child _ _ _ Ht _ _ _ Hp Hl Hi). unfold child. by rewrite Habs. }
  constructor.
  - rewrite lookup_insert_ne by done. apply Ht.
  - intros q t'. rewrite lookup_insert_Some. intros [[_ <-]|[_ Hq]]; [done|]. by eapply tree_frame.
  - intros q t' j Hq Hlq Hj. apply lookup_insert_Some in Hq as [[<- <-]|[Hne Hq]].
    + rewrite lookup_insert_ne by (intros ?%(f_equal length); simpl in *; lia). unfold child. rewrite Hempty by done.
      destruct (T !! (j :: i :: p)) eqn:E; [|done]. apply (tree_dom _ _ _ Ht) in E as (_ & _ & [? E]). congruence.
    + destruct (decide (j :: q = i :: p)) as [[= -> ->]|Hjq].
      { rewrite lookup_insert_eq. by simplify_eq. }
      rewrite lookup_insert_ne by done. rewrite (tree_child _ _ _ Ht _ _ _ Hq Hlq Hj). f_equal. unfold pte_at.
      rewrite Hsame; [done|by eapply tree_frame|by intros ->; eapply Hfresh|done|].
      intros E. apply frames_disjoint in E as [-> ->]; [|by eapply tree_frame..|done|done].
      apply Hjq. f_equal. by eapply tree_inj.
  - intros q j t' Hq. apply lookup_insert_Some in Hq as [[[= <- <-] <-]|[Hne Hq]].
    + split_and!; [lia|lia|lia|]. rewrite lookup_insert_ne; [by eexists|]. intros ?%(f_equal length). simpl in *. lia.
    + apply (tree_dom _ _ _ Ht) in Hq as (? & ? & ?). split_and!; [lia..|]. rewrite lookup_insert_is_Some'. by right.
  - intros q q' t' Hq Hq'. apply lookup_insert_Some in Hq as [[<- <-]|[Hne Hq]];
      apply lookup_insert_Some in Hq' as [[<- E]|[Hne' Hq']]; subst; try done; [by destruct (Hfresh q')|by destruct (Hfresh q)|].
    by eapply tree_inj.
Qed.

(** ** Setting up a table *)

Lemma cleared_entry_wf e : wf_pte e → wf_pte (cleared_entry e).
Proof. intros [? ? ?]. by constructor. Qed.

(** The state after: page [n] is taken, and holds an empty table named by the entry. *)
Lemma setup_wp st t i :
  slab_ok (slab st) → frame_ok t → ¬ is_free (slab st) t → 0 ≤ i < 512 → present (pte_at st (t + 8 * i)) = false →
  wp (free_pages (slab st) = 0%nat) (setup_page_table_entry (entry_ptr (phys_to_hhdm st t) i) st) (λ st', ∃ n m,
    let new := page_addr (slab st) n in
    page_is (slab st) n false ∧ S (free_pages (slab st')) = free_pages (slab st) ∧
    st' = with_ram (with_slab st (mark true n 1 (slab st))) m ∧
    child (pte_at st' (t + 8 * i)) = Some new ∧ (∀ j, 0 ≤ j < 512 → present (pte_at st' (new + 8 * j)) = false) ∧
    ∀ a j, frame_ok a → a ≠ new → 0 ≤ j < 512 → a + 8 * j ≠ t + 8 * i → word_at st' (a + 8 * j) = word_at st (a + 8 * j)).
Proof.
  intros Hs Ht Hnf Hi Habs. unfold setup_page_table_entry. rewrite load_pte_entry by done.
  apply wp_bind, wp_hcf_if; [done|].
  apply wp_bind. eapply wp_mono; [apply malloc4k_phys_wp, Hs|]. intros [a s'] (n & -> & Hn & -> & _ & Hfree).
  set (new := page_addr (slab st) n). set (st1 := with_slab st (mark true n 1 (slab st))).
  pose proof (page_addr_frame _ _ _ Hs Hn) as Hnew. fold new in Hnew.
  assert (t ≠ new) as Hne by (intros ->; by apply Hnf, page_is_free).
  apply wp_bind. eapply (wp_mono_halt False); [|by intros []|].
  { apply (store_loop st1 new (λ j, encode_pte (cleared_entry (pte_at st1 (new + 8 * j))))); [done|].
    intros j m Hj Hout _. change (phys_to_hhdm st1) with (phys_to_hhdm (with_ram st1 m)).
    rewrite load_pte_entry by done. unfold store_pte, store_word. rewrite frame_entry by done.
    unfold pte_at, word_at. simpl. rewrite Hout; [done|lia]. }
  intros st2 (m & -> & Hin & Hout).
  change (phys_to_hhdm st t) with (phys_to_hhdm (with_ram st1 m) t).
  rewrite load_pte_entry by done. unfold store_pte, store_word. rewrite frame_entry by done.
  set (e := fresh_entry new true true _).
  assert (wf_pte e) as He by (apply fresh_entry_wf; [done|apply decode_pte_wf]).
  exists n, (<[t + 8 * i := encode_pte e]> m). split_and!; try done.
  - rewrite pte_at_insert, decide_True by done. unfold child, e. simpl. by destruct (addr_frame _ Hnew) as [-> _].
  - intros j Hj. fold new. rewrite pte_at_insert by done. rewrite decide_False.
    + assert (word_at (with_ram st1 m) (new + 8 * j) = encode_pte (cleared_entry (pte_at st1 (new + 8 * j)))) as E
        by (unfold word_at; cbn [ram with_ram]; by rewrite Hin).
      unfold pte_at at 1. rewrite E, decode_encode_pte; [done|]. apply cleared_entry_wf, decode_pte_wf.
    + intros E. apply frames_disjoint in E as [E _]; [congruence|done..].
  - intros a j Ha Hane Hj Haj. rewrite word_at_insert, decide_False by done.
    unfold word_at. simpl. rewrite Hout; [done|]. by apply frames_outside.
Qed.

(** Allocation only takes pages. *)
Lemma kept_taken (R : Z → Prop) st n m t i :
  slab_ok (slab st) → page_is (slab st) n false → frame_ok t → 0 ≤ i < 512 → R t →
  let new := page_addr (slab st) n in let st' := with_ram (with_slab st (mark true n 1 (slab st))) m in
  (∀ a j, frame_ok a → a ≠ new → 0 ≤ j < 512 → a + 8 * j ≠ t + 8 * i → word_at st' (a + 8 * j) = word_at st (a + 8 * j)) →
  kept R st st'.
Proof.
  intros Hs Hn Ht Hi HR new st' Hw. constructor; try done.
  - intros a. simpl. rewrite is_free_mark. tauto.
  - intros a Ha HRa Hf j Hj. apply Hw; [done| |done|].
    + intros ->. by apply Hf, page_is_free.
    + intros E. by apply frames_disjoint in E as [-> _].
Qed.

Definition same_vpage (v w : Z) : Prop := vpath v = vpath w ∧ pt_index (bitmap_of v) = pt_index (bitmap_of w).

(** The tables on the way to an address. *)
Definition on_path (T : gmap (list Z) Z) (v a : Z) : Prop := ∃ p, p `suffix_of` vpath v ∧ T !! p = Some a.

(** New tables are pages that were free. *)
Definition tables_grow (s : phys_state) (T T' : gmap (list Z) Z) : Prop :=
  T ⊆ T' ∧ ∀ p t, T' !! p = Some t → T !! p = Some t ∨ is_free s t.

Lemma ensure_wp st root T p t i :
  aspace st root T → T !! p = Some t → (length p < 3)%nat → 0 ≤ i < 512 →
  wp (free_pages (slab st) = 0%nat) (ensure_entry t i st) (λ '(c, st'), ∃ T',
    aspace st' root T' ∧ T' !! (i :: p) = Some c ∧ tables_grow (slab st) T T' ∧ kept (λ a, a = t) st st' ∧
    (∀ q, T' !! q ≠ T !! q → q = i :: p) ∧
    (∀ v, leaf_at st' T' v = leaf_at st T v) ∧ (free_pages (slab st) ≤ S (free_pages (slab st')))%nat).
Proof.
  intros [Hs Ht Hh] Hp Hl Hi. unfold ensure_entry. pose proof (tree_frame _ _ _ Ht _ _ Hp) as Hft.
  rewrite load_pte_entry by done. pose proof (tree_child _ _ _ Ht _ _ _ Hp Hl Hi) as Hc.
  destruct (present _) eqn:Hpr; cbn [negb].
  - apply wp_bind, wp_ret, wp_ret. rewrite load_pte_entry by done. exists T. unfold child in Hc. rewrite Hpr in Hc.
    rewrite addr_shift by apply decode_pte_wf. split_and!; try done; [split; [done|by left]|lia].
  - apply wp_bind. eapply wp_mono; [apply setup_wp; [done|done|by eapply Hh|done|done]|].
    intros st' (n & m & Hn & Hfree & -> & Hent & Hempty & Hw). set (new := page_addr (slab st) n) in *.
    set (st' := with_ram _ m) in *. apply wp_ret.
    change (phys_to_hhdm st) with (phys_to_hhdm st'). rewrite load_pte_entry by done.
    unfold child in Hent. destruct (present (pte_at st' _)) eqn:Hpr'; [|done]. apply (inj Some) in Hent.
    rewrite addr_shift by apply decode_pte_wf. rewrite Hent.
    unfold child in Hc. rewrite Hpr in Hc.
    assert (∀ q, T !! q ≠ Some new) as Hfresh by (intros q Hq; by eapply Hh, page_is_free).
    pose proof (page_addr_frame _ _ _ Hs Hn) as Hnew. fold new in Hnew.
    exists (<[i :: p := new]> T). split_and!.
    + constructor.
      * by apply slab_ok_mark.
      * apply (tree_new_table st st' root T p t i new); try done. unfold child. by rewrite Hpr', Hent.
      * intros q a Hq Hfa. apply is_free_mark in Hfa as [Hfa Hne]. fold new in Hne.
        apply lookup_insert_Some in Hq as [[_ <-]|[_ Hq]]; [done|by eapply Hh].
    + by rewrite lookup_insert_eq.
    + split; [by apply insert_subseteq|]. intros q a Hq.
      apply lookup_insert_Some in Hq as [[_ <-]|[_ Hq]]; [right; by apply page_is_free|by left].
    + by apply kept_taken with t i.
    + intros q Hq. destruct (decide (q = i :: p)) as [|Hne]; [done|]. by rewrite lookup_insert_ne in Hq.
    + intros v. unfold leaf_at. destruct (decide (vpath v = i :: p)) as [Hv|Hv].
      * rewrite Hv, lookup_insert_eq, Hc. rewrite Hempty; [done|apply bitmap_ranges].
      * rewrite lookup_insert_ne by done. destruct (T !! vpath v) as [tv|] eqn:Ev; [|done].
        unfold pte_at. rewrite Hw; [done|by eapply tree_frame|by intros ->; eapply Hfresh|apply bitmap_ranges|].
        intros E. apply frames_disjoint in E as [-> _]; [|by eapply tree_frame|done|apply bitmap_ranges|done].
        pose proof (tree_inj _ _ _ Ht _ _ _ Hp Ev) as ->. simpl in Hl. lia.
    + simpl in Hfree. simpl. lia.
Qed.

(** ** Mapping a page *)

(** The entry of the last level, by its position. *)
Lemma store_leaf_wf st root T p t i e :
  aspace st root T → T !! p = Some t → length p = 3%nat → 0 ≤ i < 512 → wf_pte e →
  let st' := store_pte (entry_ptr (phys_to_hhdm st t) i) e st in
  aspace st' root T ∧ pte_at st' (t + 8 * i) = e ∧ kept (λ a, a = t) st st' ∧
  (∀ v, ¬ (vpath v = p ∧ pt_index (bitmap_of v) = i) → leaf_at st' T v = leaf_at st T v).
Proof.
  intros [Hs Ht Hh] Hp Hl Hi He st'. pose proof (tree_frame _ _ _ Ht _ _ Hp) as Hft.
  assert (∀ b, pte_at st' b = if decide (b = t + 8 * i) then e else pte_at st b) as Hw.
  { intros b. unfold st', store_pte, store_word. rewrite frame_entry by done. by apply pte_at_insert. }
  split_and!.
  - constructor; [done| |done]. constructor; try apply Ht.
    intros q tq j Hq Hlq Hj. rewrite Hw, decide_False; [by apply (tree_child _ _ _ Ht)|].
    intros E. apply frames_disjoint in E as [-> _]; [|by eapply tree_frame|done..].
    pose proof (tree_inj _ _ _ Ht _ _ _ Hp Hq) as ->. lia.
  - by rewrite Hw, decide_True.
  - constructor; try done. intros a Ha Hat _ j Hj. unfold st', store_pte, store_word. rewrite frame_entry by done.
    rewrite word_at_insert, decide_False; [done|]. intros E. by apply frames_disjoint in E as [-> _].
  - intros v Hv. unfold leaf_at. destruct (T !! vpath v) as [tv|] eqn:Ev; [|done].
    rewrite Hw, decide_False; [done|]. pose proof (bitmap_ranges v).
    intros E. apply frames_disjoint in E as [-> E]; [|by eapply tree_frame|done|tauto|done].
    apply Hv. split; [|done]. by eapply tree_inj.
Qed.

Lemma aspace_invalidate st root T v : aspace st root T → aspace (invalidate_page v st) root T.
Proof. intros [Hs [] Hh]. by constructor. Qed.

Lemma tables_grow_trans s s' T T1 T2 :
  tables_grow s T T1 → tables_grow s' T1 T2 → (∀ a, is_free s' a → is_free s a) → tables_grow s T T2.
Proof.
  intros [H1 H1'] [H2 H2'] Hf. split; [by etrans|]. intros p t [Hp|Hp]%H2'; [by apply H1'|right; by apply Hf].
Qed.

(** A step of the descent changes pages on the path, or that were free. *)
Lemma kept_on_path st st1 T T1 v p t :
  tables_grow (slab st) T T1 → kept (on_path T v) st st1 → T1 !! p = Some t → p `suffix_of` vpath v →
  ∀ a, a = t → on_path T v a ∨ is_free (slab st) a.
Proof. intros [_ Hg] Hk Hp Hsuf a ->. destruct (Hg _ _ Hp) as [?|?]; [left; by exists p|by right]. Qed.

(** Descending to the last table of an address. *)
Record descended (st : mm) (root : Z) (T : gmap (list Z) Z) (v : Z) (st' : mm) (T' : gmap (list Z) Z) : Prop := {
  desc_aspace : aspace st' root T';
  desc_grow : tables_grow (slab st) T T';
  desc_kept : kept (on_path T v) st st';
  desc_path p : T' !! p ≠ T !! p → p `suffix_of` vpath v;
  desc_leaf w : leaf_at st' T' w = leaf_at st T w
}.

Lemma descend_step st root T v st1 T1 p t i n :
  descended st root T v st1 T1 → T1 !! p = Some t → (length p < 3)%nat → 0 ≤ i < 512 → (i :: p) `suffix_of` vpath v →
  (n < 3)%nat ∧ (free_pages (slab st) ≤ n + free_pages (slab st1))%nat →
  wp (free_pages (slab st) < 3)%nat (ensure_entry t i st1) (λ '(c, st2), ∃ T2,
    descended st root T v st2 T2 ∧ T2 !! (i :: p) = Some c ∧ (free_pages (slab st) ≤ S n + free_pages (slab st2))%nat).
Proof.
  intros [Ha Hg Hk Hpath Hlf] Hp Hl Hi Hsuf [Hn Hfree].
  eapply wp_mono_halt; [by apply (ensure_wp st1 root T1 p t i)|lia|].
  intros [c st2] (T2 & Ha2 & Hc & Hg2 & Hk2 & Hp2 & Hl2 & Hf2). exists T2. split_and!; [|done|lia].
  assert (p `suffix_of` vpath v) as Hsufp by (etrans; [by apply suffix_cons_r|done]).
  constructor; [done|..].
  - eapply tables_grow_trans; [done|done|]. intros a. apply (kept_free _ _ _ Hk).
  - eapply kept_trans; [exact Hk|exact Hk2|done|]. by eapply kept_on_path.
  - intros q Hq. destruct (decide (T2 !! q = T1 !! q)) as [E|E]; [apply Hpath; congruence|by rewrite (Hp2 q E)].
  - intros w. by rewrite Hl2.
Qed.

Lemma descended_refl st root T v : aspace st root T → descended st root T v st T.
Proof. intros Ha. constructor; try done. split; [done|by left]. Qed.

(** The entries of a tree, as the code loads them. *)
Lemma load_child st root T p t i :
  tree st root T → T !! p = Some t → (length p < 3)%nat → 0 ≤ i < 512 →
  child (load_pte st (entry_ptr (phys_to_hhdm st t) i)) = T !! (i :: p).
Proof.
  intros Ht Hp Hl Hi. rewrite load_pte_entry by (try done; by eapply tree_frame). symmetry. by eapply tree_child.
Qed.

Lemma child_Some e t : wf_pte e → child e = Some t → present e = true ∧ u64 (Z.shiftl (addr e) 12) = t.
Proof. intros He. unfold child. destruct (present e); [|done]. intros [= <-]. by rewrite addr_shift. Qed.

(** One step past a call that returned. *)
Ltac next_Ok := rewrite Ok_bind; cbv beta iota.

Lemma ensure_present st root T p t i c :
  tree st root T → T !! p = Some t → (length p < 3)%nat → 0 ≤ i < 512 → T !! (i :: p) = Some c →
  ensure_entry t i st = Ok (c, st).
Proof.
  intros Ht Hp Hl Hi Hc. pose proof (load_child _ _ _ _ _ _ Ht Hp Hl Hi) as E. rewrite Hc in E.
  apply child_Some in E as [Hpr Ha]; [|apply decode_pte_wf]. unfold ensure_entry. rewrite Hpr. cbn [negb]. by rewrite Ok_bind, Ha.
Qed.

(** All the tables on the way to a table exist. *)
Lemma tree_path st root T v t :
  tree st root T → T !! vpath v = Some t → ∃ t3 t2, T !! [pml4_index (bitmap_of v)] = Some t3 ∧
    T !! [pdpt_index (bitmap_of v); pml4_index (bitmap_of v)] = Some t2.
Proof.
  intros Ht E. apply (tree_dom _ _ _ Ht) in E as (_ & _ & [t2 E2]). pose proof E2 as E3.
  apply (tree_dom _ _ _ Ht) in E3 as (_ & _ & [t3 E3]). by exists t3, t2.
Qed.

Lemma leaf_at_Some st T v e :
  leaf_at st T v = Some e → ∃ t, T !! vpath v = Some t ∧ pte_at st (t + 8 * pt_index (bitmap_of v)) = e ∧ present e = true.
Proof.
  unfold leaf_at. destruct (T !! vpath v) as [t|] eqn:Et; [|done].
  destruct (present _) eqn:Hpr; [|done]. intros [= <-]. by exists t.
Qed.

(** Mapping an address twice stops the machine. *)
Lemma map_page_mapped st T v phys c x e :
  tree st (cr3 st) T → leaf_at st T v = Some e → map_page phys v c x st = Halt.
Proof.
  intros Ht (t & Hv & He & Hpr)%leaf_at_Some. destruct (tree_path _ _ _ _ _ Ht Hv) as (t3 & t2 & E3 & E2).
  pose proof (bitmap_ranges v) as (H4 & H3 & H2 & H1).
  unfold map_page. destruct (page_offset (bitmap_of v) =? 0); [|done].
  change (hcf_if (negb true)) with (Ok ()). next_Ok. unfold get_pml4_phys.
  rewrite (ensure_present st (cr3 st) T [] (cr3 st) _ t3) by (try done; try apply Ht; simpl; lia). next_Ok.
  rewrite (ensure_present st (cr3 st) T _ t3 _ t2) by (done || simpl; lia). next_Ok.
  rewrite (ensure_present st (cr3 st) T _ t2 _ t) by (done || simpl; lia). next_Ok.
  rewrite load_pte_entry, He, Hpr by (try done; by eapply tree_frame). done.
Qed.

Definition mapped_like (phys : Z) (can_cache can_execute : bool) (e : PageTableEntry) : Prop :=
  present e = true ∧ addr e * PAGE_SIZE = phys ∧ read_write e = true ∧ user e = true ∧
  huge e = false ∧ pcd e = negb can_cache ∧ nx e = negb can_execute.

Lemma fresh_mapped_like phys c x e : frame_ok phys → mapped_like phys c x (fresh_entry phys c x e).
Proof. intros Hp. destruct (addr_frame _ Hp) as [E _]. by split_and!. Qed.

Lemma map_page_wp st T v phys c x :
  aspace st (cr3 st) T → page_offset (bitmap_of v) = 0 → frame_ok phys → leaf_at st T v = None →
  wp (free_pages (slab st) < 3)%nat (map_page phys v c x st) (λ st', ∃ T',
    aspace st' (cr3 st) T' ∧ tables_grow (slab st) T T' ∧ kept (on_path T v) st st' ∧
    (∀ p, T' !! p ≠ T !! p → p `suffix_of` vpath v) ∧
    (∃ e, leaf_at st' T' v = Some e ∧ mapped_like phys c x e) ∧
    (∀ w, ¬ same_vpage w v → leaf_at st' T' w = leaf_at st T w) ∧
    (free_pages (slab st) ≤ 3 + free_pages (slab st'))%nat).
Proof.
  intros Ha Ho Hphys Hnone. pose proof (bitmap_ranges v) as (H4 & H3 & H2 & H1).
  unfold map_page. rewrite Ho. apply wp_bind, wp_hcf_if; [done|].
  apply wp_bind. eapply wp_mono; [apply (descend_step st (cr3 st) T v st T [] (cr3 st) _ 0)|].
  1: by apply descended_refl. 1: apply Ha. 1: simpl; lia. 1: done. 1: by eexists [_; _]. 1: lia.
  intros [t3 st1] (T1 & D1 & E3 & F1). apply wp_bind. eapply wp_mono; [apply (descend_step st (cr3 st) T v st1 T1 _ t3 _ 1 D1 E3)|].
  1: simpl; lia. 1: done. 1: by eexists [_]. 1: lia.
  intros [t2 st2] (T2 & D2 & E2 & F2). apply wp_bind. eapply wp_mono; [apply (descend_step st (cr3 st) T v st2 T2 _ t2 _ 2 D2 E2)|].
  1: simpl; lia. 1: done. 1: by eexists []. 1: lia.
  intros [t1 st3] (T3 & [Ha3 Hg Hk Hpath Hleaf] & E1 & F3). fold (vpath v) in E1.
  pose proof (tree_frame _ _ _ (aspace_tree _ _ _ Ha3) _ _ E1) as Ht1.
  pose proof (Hleaf v) as Hv. rewrite Hnone in Hv. unfold leaf_at in Hv. rewrite E1 in Hv.
  rewrite load_pte_entry by done. destruct (present (pte_at st3 _)); [done|].
  apply wp_bind, wp_hcf_if; [done|]. apply wp_bind, wp_hcf_if.
  { change 0xFFF with PAGE_MASK. rewrite land_page_mask. destruct Hphys as [-> _]. done. }
  apply wp_ret. set (e := fresh_entry _ _ _ _).
  assert (wf_pte e) as He by (apply fresh_entry_wf; [done|apply decode_pte_wf]).
  destruct (store_leaf_wf st3 (cr3 st) T3 _ _ _ e Ha3 E1 eq_refl H1 He) as (Ha4 & Hpte & Hk4 & Hl4).
  exists T3. split_and!; [by apply aspace_invalidate|done|..].
  - eapply kept_trans; [exact Hk| |done|by eapply kept_on_path]. destruct Hk4. by constructor.
  - done.
  - exists e. split; [|by apply fresh_mapped_like]. unfold leaf_at. rewrite E1.
    change (pte_at (invalidate_page v ?s) ?b) with (pte_at s b). by rewrite Hpte.
  - intros w Hw. rewrite <-Hleaf. rewrite <-Hl4; [done|]. intros [E E']. by apply Hw.
  - simpl. lia.
Qed.

(** ** Releasing a page *)

Lemma is_free_unmark s n b a :
  page_is s n b → is_free (mark false n 1 s) a ↔ is_free s a ∨ a = page_addr s n.
Proof.
  intros Hn. unfold is_free. setoid_rewrite page_is_mark. change (page_addr (mark false n 1 s)) with (page_addr s). split.
  - intros (i & Hi & ->). case_decide; [right; f_equal; lia|]. left. by exists i.
  - intros [(i & Hi & ->)| ->].
    + exists i. split; [|done]. case_decide; [|done]. split; [done|]. by exists false.
    + exists n. split; [|done]. rewrite decide_True by lia. split; [done|]. by exists b.
Qed.

(** Freeing a page that is no table keeps the address space. *)
Lemma free_page_aspace st root T n :
  aspace st root T → page_is (slab st) n true → (∀ p, T !! p ≠ Some (page_addr (slab st) n)) →
  free_page (page_addr (slab st) n) st = Ok (with_slab st (mark false n 1 (slab st))) ∧
  aspace (with_slab st (mark false n 1 (slab st))) root T.
Proof.
  intros [Hs Ht Hh] Hn Hnot. split.
  - unfold free_page. by erewrite free4k_phys_page by (done || apply Hs).
  - constructor; [by apply slab_ok_mark|by destruct Ht|]. intros p t Hp. simpl. rewrite (is_free_unmark _ _ true) by done.
    intros [Hf| ->]; [by eapply Hh|by eapply Hnot].
Qed.

Lemma present_entry_child st root T p t i c :
  tree st root T → T !! p = Some t → (length p < 3)%nat → 0 ≤ i < 512 → T !! (i :: p) = Some c →
  present_entry t i st = Ok c.
Proof.
  intros Ht Hp Hl Hi Hc. pose proof (load_child _ _ _ _ _ _ Ht Hp Hl Hi) as E. rewrite Hc in E.
  apply child_Some in E as [Hpr Ha]; [|apply decode_pte_wf]. unfold present_entry. rewrite Hpr.
  change (hcf_if (negb true)) with (Ok ()). next_Ok. by rewrite Ha.
Qed.

(** The last level of the descent. *)
Lemma present_entry_leaf st root T v t :
  tree st root T → T !! vpath v = Some t →
  present_entry t (pt_index (bitmap_of v)) st =
    match leaf_at st T v with Some e => Ok (addr e * PAGE_SIZE) | None => Halt end.
Proof.
  intros Ht Hv. unfold present_entry, leaf_at. rewrite Hv.
  rewrite load_pte_entry by (try apply bitmap_ranges; by eapply tree_frame).
  destruct (present _); [|done]. change (hcf_if (negb true)) with (Ok ()). next_Ok.
  by rewrite addr_shift by apply decode_pte_wf.
Qed.

Lemma absent_entry_wf e : wf_pte e → wf_pte (absent_entry e).
Proof. intros [? ? ?]. by constructor. Qed.

Lemma deallocate_page_wp st T v e n :
  aspace st (cr3 st) T → page_offset (bitmap_of v) = 0 → leaf_at st T v = Some e →
  addr e * PAGE_SIZE = page_addr (slab st) n → page_is (slab st) n true → (∀ p, T !! p ≠ Some (page_addr (slab st) n)) →
  wp False (deallocate_page v st) (λ st',
    aspace st' (cr3 st) T ∧ cr3 st' = cr3 st ∧ slab st' = mark false n 1 (slab st) ∧ leaf_at st' T v = None ∧
    (∀ w, ¬ same_vpage w v → leaf_at st' T w = leaf_at st T w)).
Proof.
  intros Ha Ho He Hn Hused Hnot. pose proof (aspace_tree _ _ _ Ha) as Ht.
  destruct (leaf_at_Some _ _ _ _ He) as (t & Hv & _). destruct (tree_path _ _ _ _ _ Ht Hv) as (t3 & t2 & E3 & E2).
  pose proof (bitmap_ranges v) as (H4 & H3 & H2 & H1).
  unfold deallocate_page. rewrite Ho. change (hcf_if (negb (0 =? 0))) with (Ok ()). next_Ok. unfold get_pml4_phys.
  rewrite (present_entry_child st (cr3 st) T [] (cr3 st) _ t3) by (try done; try apply Ht; simpl; lia). next_Ok.
  rewrite (present_entry_child st (cr3 st) T _ t3 _ t2) by (done || simpl; lia). next_Ok.
  rewrite (present_entry_child st (cr3 st) T _ t2 _ t) by (done || simpl; lia). next_Ok.
  erewrite present_entry_leaf by done. rewrite He. next_Ok. rewrite Hn.
  destruct (free_page_aspace st (cr3 st) T n Ha Hused Hnot) as [-> Ha1]. next_Ok. apply wp_ret.
  set (st1 := with_slab st _). change (phys_to_hhdm st) with (phys_to_hhdm st1).
  set (e' := absent_entry _). assert (wf_pte e') as He' by apply absent_entry_wf, decode_pte_wf.
  destruct (store_leaf_wf st1 (cr3 st) T _ _ _ e' Ha1 Hv eq_refl H1 He') as (Ha2 & Hpte & _ & Hl2).
  split_and!; [by apply aspace_invalidate|done|done| |].
  - unfold leaf_at. rewrite Hv. change (pte_at (invalidate_page v ?s) ?b) with (pte_at s b). by rewrite Hpte.
  - intros w Hw. change (leaf_at (invalidate_page v ?s) T w) with (leaf_at s T w). rewrite Hl2; [done|].
    intros [E E']. by apply Hw.
Qed.

Lemma ensure_absent st root T p t i :
  tree st root T → T !! p = Some t → (length p < 3)%nat → 0 ≤ i < 512 → T !! (i :: p) = None →
  present_entry t i st = Halt.
Proof.
  intros Ht Hp Hl Hi Hc. pose proof (load_child _ _ _ _ _ _ Ht Hp Hl Hi) as E. rewrite Hc in E.
  unfold present_entry. unfold child in E. by destruct (present _).
Qed.

Lemma deallocate_unmapped st T v :
  tree st (cr3 st) T → page_offset (bitmap_of v) = 0 → leaf_at st T v = None → deallocate_page v st = Halt.
Proof.
  intros Ht Ho He. pose proof (bitmap_ranges v) as (H4 & H3 & H2 & H1).
  unfold deallocate_page. rewrite Ho. change (hcf_if (negb (0 =? 0))) with (Ok ()). next_Ok. unfold get_pml4_phys.
  destruct (T !! [pml4_index (bitmap_of v)]) as [t3|] eqn:E3.
  2: { by rewrite (ensure_absent st (cr3 st) T [] (cr3 st)) by (try done; try apply Ht; simpl; lia). }
  rewrite (present_entry_child st (cr3 st) T [] (cr3 st) _ t3) by (try done; try apply Ht; simpl; lia). next_Ok.
  destruct (T !! [pdpt_index (bitmap_of v); pml4_index (bitmap_of v)]) as [t2|] eqn:E2.
  2: { by rewrite (ensure_absent st (cr3 st) T _ t3 _ Ht E3) by (done || simpl; lia). }
  rewrite (present_entry_child st (cr3 st) T _ t3 _ t2) by (done || simpl; lia). next_Ok.
  destruct (T !! vpath v) as [t|] eqn:E1.
  2: { by rewrite (ensure_absent st (cr3 st) T _ t2 _ Ht E2) by (done || simpl; lia). }
  rewrite (present_entry_child st (cr3 st) T _ t2 _ t) by (done || simpl; lia). next_Ok.
  erewrite present_entry_leaf by done. by rewrite He.
Qed.

(** ** What the processor sees *)

(** map_page: the processor translates the address to the page, with the permissions asked for, and translates
    every other address as before; a second mapping of an address stops the machine. *)
Definition vpn_eq (v w : Z) : Prop := v `div` PAGE_SIZE `mod` 2 ^ 36 = w `div` PAGE_SIZE `mod` 2 ^ 36.

Lemma same_vpage_vpn v w : same_vpage v w ↔ vpn_eq v w.
Proof.
  assert (∀ x, x `div` PAGE_SIZE `mod` 2 ^ 36 = pt_index (bitmap_of x) + 512 * pd_index (bitmap_of x) +
    262144 * pdpt_index (bitmap_of x) + 134217728 * pml4_index (bitmap_of x)) as E.
  { intros x. unfold bitmap_of, bits. cbn [pt_index pd_index pdpt_index pml4_index]. dlia. }
  pose proof (bitmap_ranges v). pose proof (bitmap_ranges w).
  unfold vpn_eq, same_vpage, vpath. rewrite !E. split.
  { intros [[= ? ? ?] ?]. cbn [pt_index pd_index pdpt_index pml4_index bitmap_of] in *. lia. }
  intros Heq.
  assert (pd_index (bitmap_of v) = pd_index (bitmap_of w) ∧ pdpt_index (bitmap_of v) = pdpt_index (bitmap_of w) ∧
    pml4_index (bitmap_of v) = pml4_index (bitmap_of w) ∧ pt_index (bitmap_of v) = pt_index (bitmap_of w)) as (-> & -> & -> & ->)
    by lia. done.
Qed.
