(* ===== verification/AddressSpace.v ===== *)
(** * Whole address spaces: the walks of stuos/src/memory.c

    walk_virtual_tree visits the user half of an address space and hands its
    pages and tables to two callbacks.  [walk_events] is the list of those
    calls, read off the tables at the start; [walk_wp] reduces a walk whose
    callbacks leave the tables alone to the calls in that order.  The file then
    specifies the operations on mapped pages and on whole address spaces. *)
From S2P Require Import Prelude Bytes Slab Paging.
#[local] Arguments c_foreach : simpl never.
#[local] Arguments decode_pte : simpl never.
#[local] Arguments load_pte : simpl never.
#[local] Arguments pte_at : simpl never.
#[local] Arguments wrap : simpl never.
#[local] Arguments entry_ptr : simpl never.
#[local] Arguments phys_to_hhdm : simpl never.

Inductive event :=
  | Leaf (virt phys : Z) (can_execute : bool)
  | Table (phys : Z).

Section events.
Variable st : mm.

Definition user_virt (i4 i3 i2 i1 : Z) : Z :=
  raw_ptr {| sign_extension := 0; pml4_index := i4; pdpt_index := i3; pd_index := i2; pt_index := i1; page_offset := 0 |}.

Definition pt_events (t i4 i3 i2 i1 : Z) : list event :=
  let e := pte_at st (t + 8 * i1) in
  if present e then [Leaf (user_virt i4 i3 i2 i1) (addr e * PAGE_SIZE) (negb (nx e))] else [].

Definition below_events (t i : Z) (f : Z → Z → list event) : list event :=
  let e := pte_at st (t + 8 * i) in
  if present e then flat_map (f (addr e * PAGE_SIZE)) (seqZ 0 512) ++ [Table (addr e * PAGE_SIZE)] else [].

Definition pd_events (t i4 i3 i2 : Z) : list event := below_events t i2 (λ t, pt_events t i4 i3 i2).
Definition pdpt_events (t i4 i3 : Z) : list event := below_events t i3 (λ t, pd_events t i4 i3).
Definition pml4_events (t i4 : Z) : list event := below_events t i4 (λ t, pdpt_events t i4).

Definition walk_events (root : Z) : list event := flat_map (pml4_events root) (seqZ 0 256) ++ [Table root].
End events.

Lemma walk_events_ram st st' root : ram st' = ram st → walk_events st' root = walk_events st root.
Proof.
  intros E. unfold walk_events, pml4_events, pdpt_events, pd_events, below_events, pt_events, pte_at, word_at.
  by rewrite E.
Qed.

Definition same_tables (T : gmap (list Z) Z) (st st' : mm) : Prop :=
  hhdm_offset st' = hhdm_offset st ∧ ∀ p t, T !! p = Some t → same_page st st' t.

Lemma flat_map_prefix {A} (f : Z → list A) pre j n :
  0 ≤ j ≤ n → pre ++ flat_map f (seqZ 0 j) `prefix_of` pre ++ flat_map f (seqZ 0 n).
Proof.
  intros Hj. apply prefix_app. replace n with (j + (n - j)) by lia. rewrite seqZ_app, flat_map_app by lia.
  by apply prefix_app_r.
Qed.

Section walk.
Context (H : Prop) (leaf_callback : Z → Z → bool → mm → outcome mm) (table_entry_callback : Z → mm → outcome mm).
Context (P : list event → mm → Prop) (st0 : mm) (root : Z) (T : gmap (list Z) Z) (evs : list event).
Hypothesis (Htree : tree st0 root T) (Hsame : ∀ pre st, P pre st → same_tables T st0 st).
Hypothesis (Hleaf : ∀ pre v p x st, pre ++ [Leaf v p x] `prefix_of` evs → P pre st →
  wp H (leaf_callback v p x st) (P (pre ++ [Leaf v p x]))).
Hypothesis (Htable : ∀ pre t st, pre ++ [Table t] `prefix_of` evs → P pre st →
  wp H (table_entry_callback t st) (P (pre ++ [Table t]))).

Lemma foreach_events n (f : Z → list event) body pre st :
  0 ≤ n →
  (∀ j pre st, 0 ≤ j < n → pre ++ f j `prefix_of` evs → P pre st → wp H (body j st) (P (pre ++ f j))) →
  pre ++ flat_map f (seqZ 0 n) `prefix_of` evs → P pre st →
  wp H (c_foreach 0 n body st) (P (pre ++ flat_map f (seqZ 0 n))).
Proof.
  intros Hn Hbody Hpre HP. apply (wp_foreach H (λ i st, P (pre ++ flat_map f (seqZ 0 i)) st)); [done| |].
  - simpl. by rewrite app_nil_r.
  - intros j st' Hj HP'.
    assert (flat_map f (seqZ 0 (j + 1)) = flat_map f (seqZ 0 j) ++ f j) as E.
    { rewrite seqZ_snoc, flat_map_app by lia. simpl. by rewrite app_nil_r. }
    rewrite E, app_assoc. apply Hbody; [done| |done].
    rewrite <-app_assoc, <-E. etrans; [|exact Hpre]. apply flat_map_prefix. lia.
Qed.

(** The entries the walk loads are those of the start. *)
Lemma walk_load pre st p t i :
  P pre st → T !! p = Some t → 0 ≤ i < 512 →
  load_pte st (entry_ptr (phys_to_hhdm st0 t) i) = pte_at st0 (t + 8 * i).
Proof.
  intros HP Hp Hi. destruct (Hsame _ _ HP) as [Eh Hw].
  replace (phys_to_hhdm st0 t) with (phys_to_hhdm st t) by (unfold phys_to_hhdm; by rewrite Eh).
  rewrite load_pte_entry by (done || by eapply tree_frame). by apply same_page_pte; [eapply Hw|].
Qed.

Lemma walk_child pre st p t i n :
  P pre st → T !! p = Some t → 0 ≤ i < 512 → 0 ≤ n < 512 → present (pte_at st0 (t + 8 * i)) = true →
  get_page_table_child st (entry_ptr (phys_to_hhdm st0 t) i) n =
    Ok (entry_ptr (phys_to_hhdm st0 (addr (pte_at st0 (t + 8 * i)) * PAGE_SIZE)) n).
Proof.
  intros HP Hp Hi Hn Hpr. unfold get_page_table_child. rewrite (walk_load _ _ _ _ _ HP Hp Hi), Hpr.
  replace ((n <? 0) || (512 <=? n)) with false by lia.
  change (hcf_if (negb true)) with (Ok ()). next_Ok. change (hcf_if false) with (Ok ()). next_Ok.
  rewrite addr_shift by apply decode_pte_wf. unfold phys_to_hhdm. destruct (Hsame _ _ HP) as [Eh _]. by rewrite Eh.
Qed.

Lemma walk_below_wp pre st p t i (f : Z → Z → list event) body :
  T !! p = Some t → (length p < 3)%nat → 0 ≤ i < 512 →
  (∀ c j pre st, T !! (i :: p) = Some c → present (pte_at st0 (t + 8 * i)) = true → c = addr (pte_at st0 (t + 8 * i)) * PAGE_SIZE →
     0 ≤ j < 512 → pre ++ f c j `prefix_of` evs → P pre st → wp H (body j st) (P (pre ++ f c j))) →
  pre ++ below_events st0 t i f `prefix_of` evs → P pre st →
  wp H (walk_below table_entry_callback (entry_ptr (phys_to_hhdm st0 t) i) body st) (P (pre ++ below_events st0 t i f)).
Proof.
  intros Hp Hl Hi Hbody Hpre HP. unfold walk_below, below_events in *. rewrite (walk_load _ _ _ _ _ HP Hp Hi).
  pose proof (tree_child _ _ _ Htree _ _ _ Hp Hl Hi) as Hc. unfold child in Hc.
  destruct (present _) eqn:Hpr; cbn [negb]; [|by rewrite app_nil_r].
  set (c := addr _ * PAGE_SIZE) in *. rewrite app_assoc in *. apply wp_bind. eapply wp_mono.
  - apply (foreach_events 512 (f c)); [lia| | |exact HP].
    + intros j pre' st' Hj Hpre' HP'. by apply Hbody.
    + etrans; [by apply prefix_app_r|exact Hpre].
  - intros st' HP'. rewrite (walk_load _ _ _ _ _ HP' Hp Hi), addr_shift by apply decode_pte_wf. by apply Htable.
Qed.

Lemma walk_pt_wp pre st i4 i3 i2 p t c i1 :
  T !! p = Some t → (length p < 3)%nat → 0 ≤ i2 < 512 → T !! (i2 :: p) = Some c → present (pte_at st0 (t + 8 * i2)) = true →
  c = addr (pte_at st0 (t + 8 * i2)) * PAGE_SIZE → 0 ≤ i1 < 512 →
  pre ++ pt_events st0 c i4 i3 i2 i1 `prefix_of` evs → P pre st →
  wp H (walk_pt leaf_callback i4 i3 i2 (entry_ptr (phys_to_hhdm st0 t) i2) i1 st) (P (pre ++ pt_events st0 c i4 i3 i2 i1)).
Proof.
  intros Hp Hl Hi2 Hc Hpr -> Hi1 Hpre HP. unfold walk_pt. rewrite (walk_child _ _ _ _ _ _ HP Hp Hi2 Hi1 Hpr). next_Ok.
  rewrite (walk_load _ _ _ _ _ HP Hc Hi1). unfold pt_events in *.
  destruct (present (pte_at st0 (_ + 8 * i1))); cbn [negb]; [|by rewrite app_nil_r].
  rewrite addr_shift by apply decode_pte_wf. by apply Hleaf.
Qed.

Lemma walk_wp :
  evs = walk_events st0 root → P [] st0 →
  wp H (walk_virtual_tree leaf_callback table_entry_callback root st0) (P evs).
Proof.
  intros Hevs HP. unfold walk_virtual_tree, walk_events in *. apply wp_bind.
  pose proof (tree_root _ _ _ Htree) as Hroot.
  eapply wp_mono; [apply (foreach_events 256 (pml4_events st0 root) _ []); [lia| | |exact HP]|].
  - intros i4 pre st Hi4 Hpre HP'. apply (walk_below_wp _ _ [] root i4 (λ t, pdpt_events st0 t i4)); try done; [simpl; lia|lia|].
    clear pre st Hpre HP'. intros c3 i3 pre st Hc3 Hpr3 Ec3 Hi3 Hpre HP'.
    unfold walk_pdpt. rewrite (walk_child _ _ [] root i4 i3 HP' Hroot) by (done || (simpl; lia)). next_Ok. rewrite <-Ec3.
    apply (walk_below_wp _ _ [i4] c3 i3 (λ t, pd_events st0 t i4 i3)); try done; [simpl; lia|].
    clear pre st Hpre HP'. intros c2 i2 pre st Hc2 Hpr2 Ec2 Hi2 Hpre HP'.
    unfold walk_pd. rewrite (walk_child _ _ _ c3 i3 i2 HP' Hc3) by done. next_Ok. rewrite <-Ec2.
    apply (walk_below_wp _ _ [i3; i4] c2 i2 (λ t, pt_events st0 t i4 i3 i2)); try done; [simpl; lia|].
    clear pre st Hpre HP'. intros c1 i1 pre st Hc1 Hpr1 Ec1 Hi1 Hpre HP'.
    by apply (walk_pt_wp _ _ i4 i3 i2 [i3; i4] c2 c1 i1); [|simpl; lia|..].
  - rewrite Hevs. by apply prefix_app_r.
  - intros st HP'. rewrite Hevs. apply Htable; [by rewrite Hevs|done].
Qed.
End walk.

(** ** The calls of a walk *)

Lemma elem_of_flat_map {A B} (f : A → list B) l x : x ∈ flat_map f l ↔ ∃ y, y ∈ l ∧ x ∈ f y.
Proof. rewrite list_elem_of_In, in_flat_map. by setoid_rewrite list_elem_of_In. Qed.

Lemma NoDup_flat_map_key {A B} (g : A → list B) (key : B → A) l :
  NoDup l → (∀ x, x ∈ l → NoDup (g x)) → (∀ x y, x ∈ l → y ∈ g x → key y = x) → NoDup (flat_map g l).
Proof.
  induction 1 as [|x l Hx Hl IH]; intros Hg Hk; simpl; [constructor|]. apply NoDup_app. split_and!.
  - apply Hg. left.
  - intros y Hy [z [Hz Hyz]]%elem_of_flat_map. pose proof (Hk x y ltac:(left) Hy).
    pose proof (Hk z y ltac:(by right) Hyz). congruence.
  - apply IH; intros; [apply Hg|eapply Hk; [|done]]; by right.
Qed.

(** Page-aligned addresses of the user half. *)
Definition user_page (v : Z) : Prop := 0 ≤ v < 2 ^ 47 ∧ v `mod` PAGE_SIZE = 0.

Lemma user_virt_bitmap i4 i3 i2 i1 :
  0 ≤ i4 < 256 → 0 ≤ i3 < 512 → 0 ≤ i2 < 512 → 0 ≤ i1 < 512 →
  bitmap_of (user_virt i4 i3 i2 i1) =
    {| sign_extension := 0; pml4_index := i4; pdpt_index := i3; pd_index := i2; pt_index := i1; page_offset := 0 |} ∧
  user_page (user_virt i4 i3 i2 i1).
Proof.
  intros H4 H3 H2 H1. split; [apply bitmap_of_raw; simpl; lia|].
  unfold user_page, user_virt, raw_ptr, pack. cbn [page_offset pt_index pd_index pdpt_index pml4_index sign_extension].
  rewrite (Z.mod_small i4), (Z.mod_small i3), (Z.mod_small i2), (Z.mod_small i1) by lia.
  change (0 `mod` 2 ^ 12) with 0. change (0 `mod` 2 ^ 16) with 0. unfold PAGE_SIZE. split; [lia|].
  apply Z.mod_divide; [done|]. exists (i1 + 2 ^ 9 * (i2 + 2 ^ 9 * (i3 + 2 ^ 9 * i4))). lia.
Qed.

Lemma user_page_virt v :
  user_page v →
  v = user_virt (pml4_index (bitmap_of v)) (pdpt_index (bitmap_of v)) (pd_index (bitmap_of v)) (pt_index (bitmap_of v)) ∧
  0 ≤ pml4_index (bitmap_of v) < 256 ∧ page_offset (bitmap_of v) = 0.
Proof.
  intros [Hv Hm]. split_and!.
  - rewrite <-(raw_ptr_bitmap v) at 1 by lia. unfold user_virt. f_equal. unfold bitmap_of. f_equal.
    + by unfold bits; rewrite Z.div_1_r.
    + unfold bits. rewrite Z.div_small by lia. done.
  - unfold bitmap_of, bits. cbn [pml4_index]. dlia.
  - unfold bitmap_of, bits. cbn [pml4_index]. dlia.
  - unfold bitmap_of, bits. cbn [page_offset]. by rewrite Z.div_1_r.
Qed.

(** The addresses of the pages reported. *)
Definition virts (evs : list event) : list Z :=
  flat_map (λ e, match e with Leaf v _ _ => [v] | Table _ => [] end) evs.

Lemma virts_app l l' : virts (l ++ l') = virts l ++ virts l'.
Proof. apply flat_map_app. Qed.

Lemma virts_flat_map {A} (f : A → list event) l : virts (flat_map f l) = flat_map (λ x, virts (f x)) l.
Proof. induction l; simpl; [done|]. by rewrite virts_app, IHl. Qed.

Lemma elem_of_virts v l : v ∈ virts l ↔ ∃ q x, Leaf v q x ∈ l.
Proof.
  unfold virts. rewrite elem_of_flat_map. split.
  - intros ([w q x|t] & Hin & Hv); [apply list_elem_of_singleton in Hv as ->; eauto|by apply not_elem_of_nil in Hv].
  - intros (q & x & Hin). eexists. split; [done|]. apply list_elem_of_singleton. done.
Qed.

Section calls.
Context (st : mm) (root : Z) (T : gmap (list Z) Z) (Htree : tree st root T).

Lemma below_Leaf t p i f v q x :
  T !! p = Some t → (length p < 3)%nat → 0 ≤ i < 512 →
  Leaf v q x ∈ below_events st t i f ↔ ∃ c j, T !! (i :: p) = Some c ∧ 0 ≤ j < 512 ∧ Leaf v q x ∈ f c j.
Proof.
  intros Hp Hl Hi. unfold below_events. rewrite (tree_child _ _ _ Htree _ _ _ Hp Hl Hi). unfold child.
  destruct (present _); [|split; [by intros ?%not_elem_of_nil|by intros (? & ? & ? & _)]].
  rewrite elem_of_app, elem_of_flat_map, list_elem_of_singleton. split.
  - intros [(j & Hj%elem_of_seqZ & Hin)|?]; [|done]. by exists (addr (pte_at st (t + 8 * i)) * PAGE_SIZE), j.
  - intros (c & j & [= <-] & Hj & Hin). left. exists j. split; [apply elem_of_seqZ; lia|done].
Qed.

Lemma below_Table t p i f a :
  T !! p = Some t → (length p < 3)%nat → 0 ≤ i < 512 →
  Table a ∈ below_events st t i f ↔
    ∃ c, T !! (i :: p) = Some c ∧ (a = c ∨ ∃ j, 0 ≤ j < 512 ∧ Table a ∈ f c j).
Proof.
  intros Hp Hl Hi. unfold below_events. rewrite (tree_child _ _ _ Htree _ _ _ Hp Hl Hi). unfold child.
  destruct (present _); [|split; [by intros ?%not_elem_of_nil|by intros (? & ? & _)]].
  rewrite elem_of_app, elem_of_flat_map, list_elem_of_singleton. split.
  - intros [(j & Hj%elem_of_seqZ & Hin)|[= ->]]; eexists; (split; [done|]); [right; by exists j|by left].
  - intros (c & [= <-] & [->|(j & Hj & Hin)]); [by right|left]. exists j. split; [apply elem_of_seqZ; lia|done].
Qed.

Lemma pt_Leaf c i4 i3 i2 i1 v q x :
  Leaf v q x ∈ pt_events st c i4 i3 i2 i1 ↔
    v = user_virt i4 i3 i2 i1 ∧ present (pte_at st (c + 8 * i1)) = true ∧
    q = addr (pte_at st (c + 8 * i1)) * PAGE_SIZE ∧ x = negb (nx (pte_at st (c + 8 * i1))).
Proof.
  unfold pt_events. destruct (present _).
  - rewrite list_elem_of_singleton. split; [by intros [= -> -> ->]|by intros (-> & _ & -> & ->)].
  - split; [by intros ?%not_elem_of_nil|naive_solver].
Qed.

(** The pages reported are the pages mapped in the user half. *)
Lemma walk_Leaf v q x :
  Leaf v q x ∈ walk_events st root ↔
    user_page v ∧ ∃ e, leaf_at st T v = Some e ∧ q = addr e * PAGE_SIZE ∧ x = negb (nx e).
Proof.
  unfold walk_events. rewrite elem_of_app, elem_of_flat_map, list_elem_of_singleton. split.
  - intros [(i4 & Hi4%elem_of_seqZ & Hin)|?]; [|done].
    apply (below_Leaf _ []) in Hin as (t3 & i3 & H3 & Hi3 & Hin); [|apply Htree|simpl; lia|lia].
    apply (below_Leaf _ [i4]) in Hin as (t2 & i2 & H2 & Hi2 & Hin); [|done|simpl; lia|lia].
    apply (below_Leaf _ [i3; i4]) in Hin as (t1 & i1 & H1 & Hi1 & Hin); [|done|simpl; lia|lia].
    apply pt_Leaf in Hin as (-> & Hpr & -> & ->).
    destruct (user_virt_bitmap i4 i3 i2 i1) as [Eb Hu]; [lia..|]. split; [done|].
    exists (pte_at st (t1 + 8 * i1)). split; [|done]. unfold leaf_at, vpath. rewrite Eb.
    cbn [pd_index pdpt_index pml4_index pt_index]. by rewrite H1, Hpr.
  - intros (Hu & e & (t1 & H1 & <- & Hpr)%leaf_at_Some & -> & ->). left.
    destruct (user_page_virt _ Hu) as (Ev & Hi4 & _). pose proof (bitmap_ranges v) as (_ & Hi3 & Hi2 & Hi1).
    destruct (tree_path _ _ _ _ _ Htree H1) as (t3 & t2 & H3 & H2).
    exists (pml4_index (bitmap_of v)). split; [apply elem_of_seqZ; lia|].
    apply (below_Leaf _ []); [apply Htree|simpl; lia|lia|]. exists t3, (pdpt_index (bitmap_of v)). split_and!; [done|lia|lia|].
    apply (below_Leaf _ [pml4_index (bitmap_of v)]); [done|simpl; lia|lia|]. exists t2, (pd_index (bitmap_of v)). split_and!; [done|lia|lia|].
    apply (below_Leaf _ [pdpt_index (bitmap_of v); pml4_index (bitmap_of v)]); [done|simpl; lia|lia|].
    exists t1, (pt_index (bitmap_of v)). split_and!; [done|lia|lia|]. by apply pt_Leaf.
Qed.

(** The path of a table of the user half. *)
Definition user_path (p : list Z) : Prop := ∃ i4, last p = Some i4 ∧ 0 ≤ i4 < 256.

Lemma tree_length p t : T !! p = Some t → (length p ≤ 3)%nat.
Proof. destruct p as [|i p]; simpl; [lia|]. intros (Hl & _)%(tree_dom _ _ _ Htree). lia. Qed.

(** The tables reported are those of the user half, and the root. *)
Lemma walk_Table a :
  Table a ∈ walk_events st root ↔ a = root ∨ ∃ p, user_path p ∧ T !! p = Some a.
Proof.
  unfold walk_events. rewrite elem_of_app, elem_of_flat_map, list_elem_of_singleton. split.
  - intros [(i4 & Hi4%elem_of_seqZ & Hin)|[= ->]]; [|by left]. right.
    assert (∀ p, last p = Some i4 → user_path p) as Hup by (intros p Hp; exists i4; split; [done|lia]).
    apply (below_Table _ []) in Hin as (t3 & H3 & [->|(i3 & Hi3 & Hin)]); [by exists [i4]; auto| |apply Htree|simpl; lia|lia].
    apply (below_Table _ [i4]) in Hin as (t2 & H2 & [->|(i2 & Hi2 & Hin)]); [by exists [i3; i4]; auto| |done|simpl; lia|lia].
    apply (below_Table _ [i3; i4]) in Hin as (t1 & H1 & [->|(i1 & Hi1 & Hin)]); [by exists [i2; i3; i4]; auto| |done|simpl; lia|lia].
    unfold pt_events in Hin. by destruct (present _); [apply list_elem_of_singleton in Hin|apply not_elem_of_nil in Hin].
  - intros [->|(p & (i4 & Hlast & Hi4) & Ha)]; [by right|left]. exists i4. split; [apply elem_of_seqZ; lia|].
    pose proof (tree_length _ _ Ha) as Hlen.
    destruct p as [|j1 [|j2 [|j3 [|]]]]; simpl in Hlast, Hlen; [done| | | |lia]; injection Hlast as ->.
    + apply (below_Table _ []); [apply Htree|simpl; lia|lia|]. exists a. by auto.
    + pose proof (tree_dom _ _ _ Htree _ _ _ Ha) as (_ & Hj1 & [t3 H3]).
      apply (below_Table _ []); [apply Htree|simpl; lia|lia|]. exists t3. split; [done|right]. exists j1. split; [done|].
      apply (below_Table _ [i4]); [done|simpl; lia|lia|]. exists a. by auto.
    + pose proof (tree_dom _ _ _ Htree _ _ _ Ha) as (_ & Hj1 & [t2 H2]).
      pose proof (tree_dom _ _ _ Htree _ _ _ H2) as (_ & Hj2 & [t3 H3]).
      apply (below_Table _ []); [apply Htree|simpl; lia|lia|]. exists t3. split; [done|right]. exists j2. split; [done|].
      apply (below_Table _ [i4]); [done|simpl; lia|lia|]. exists t2. split; [done|right]. exists j1. split; [done|].
      apply (below_Table _ [j2; i4]); [done|simpl; lia|lia|]. exists a. by auto.
Qed.

(** *** No page is reported twice *)
Lemma below_virts_NoDup (key : Z → Z) t p i f :
  T !! p = Some t → (length p < 3)%nat → 0 ≤ i < 512 →
  (∀ c j, T !! (i :: p) = Some c → 0 ≤ j < 512 → NoDup (virts (f c j)) ∧ ∀ v, v ∈ virts (f c j) → key v = j) →
  NoDup (virts (below_events st t i f)).
Proof.
  intros Hp Hl Hi Hf. unfold below_events. pose proof (tree_child _ _ _ Htree _ _ _ Hp Hl Hi) as Hc. unfold child in Hc.
  destruct (present _); [|constructor]. rewrite virts_app, virts_flat_map, app_nil_r.
  apply (NoDup_flat_map_key _ key); [apply NoDup_seqZ|..].
  - intros j Hj%elem_of_seqZ. apply Hf; [done|lia].
  - intros j v Hj%elem_of_seqZ Hv. eapply Hf; [done| |done]. lia.
Qed.

Lemma pt_virts c i4 i3 i2 i1 v : v ∈ virts (pt_events st c i4 i3 i2 i1) → v = user_virt i4 i3 i2 i1.
Proof. intros (q & x & (-> & _)%pt_Leaf)%elem_of_virts. done. Qed.

Lemma pd_virts t p i4 i3 i2 v :
  T !! p = Some t → (length p < 3)%nat → 0 ≤ i2 < 512 → v ∈ virts (pd_events st t i4 i3 i2) →
  ∃ i1, 0 ≤ i1 < 512 ∧ v = user_virt i4 i3 i2 i1.
Proof.
  intros Hp Hl Hi (q & x & Hin)%elem_of_virts. eapply below_Leaf in Hin as (c & i1 & _ & Hi1 & Hin); [|done..].
  exists i1. split; [done|]. eapply pt_virts, elem_of_virts. eauto.
Qed.

Lemma pdpt_virts t p i4 i3 v :
  T !! p = Some t → (length p < 2)%nat → 0 ≤ i3 < 512 → v ∈ virts (pdpt_events st t i4 i3) →
  ∃ i2 i1, 0 ≤ i2 < 512 ∧ 0 ≤ i1 < 512 ∧ v = user_virt i4 i3 i2 i1.
Proof.
  intros Hp Hl Hi (q & x & Hin)%elem_of_virts. eapply below_Leaf in Hin as (c & i2 & Hc & Hi2 & Hin); [|done|lia|done].
  destruct (pd_virts c (i3 :: p) i4 i3 i2 v Hc) as (i1 & Hi1 & ->); [simpl; lia|done|apply elem_of_virts; eauto|].
  by exists i2, i1.
Qed.

Lemma pml4_virts i4 v :
  0 ≤ i4 < 512 → v ∈ virts (pml4_events st root i4) →
  ∃ i3 i2 i1, 0 ≤ i3 < 512 ∧ 0 ≤ i2 < 512 ∧ 0 ≤ i1 < 512 ∧ v = user_virt i4 i3 i2 i1.
Proof.
  intros Hi (q & x & Hin)%elem_of_virts. eapply (below_Leaf root []) in Hin as (c & i3 & Hc & Hi3 & Hin); [|apply Htree|simpl; lia|done].
  destruct (pdpt_virts c [i4] i4 i3 v Hc) as (i2 & i1 & Hi2 & Hi1 & ->); [simpl; lia|done|apply elem_of_virts; eauto|].
  by exists i3, i2, i1.
Qed.

Lemma user_virt_index f i4 i3 i2 i1 :
  0 ≤ i4 < 256 → 0 ≤ i3 < 512 → 0 ≤ i2 < 512 → 0 ≤ i1 < 512 →
  f (bitmap_of (user_virt i4 i3 i2 i1)) = f {| sign_extension := 0; pml4_index := i4; pdpt_index := i3; pd_index := i2; pt_index := i1; page_offset := 0 |} :> Z.
Proof. intros. by destruct (user_virt_bitmap i4 i3 i2 i1) as [-> _]. Qed.

Lemma walk_virts_NoDup : NoDup (virts (walk_events st root)).
Proof.
  unfold walk_events. rewrite virts_app, virts_flat_map, app_nil_r.
  apply (NoDup_flat_map_key _ (λ v, pml4_index (bitmap_of v))); [apply NoDup_seqZ|..].
  2: { intros i4 v Hi4%elem_of_seqZ (i3 & i2 & i1 & H3 & H2 & H1 & ->)%pml4_virts; [|lia].
       by rewrite (user_virt_index pml4_index) by lia. }
  intros i4 Hi4%elem_of_seqZ.
  apply (below_virts_NoDup (λ v, pdpt_index (bitmap_of v)) root []); [apply Htree|simpl; lia|lia|].
  intros t3 i3 H3 Hi3. split.
  2: { intros v (i2 & i1 & H2 & H1 & ->)%(pdpt_virts _ [i4]); [|done|simpl; lia|done].
       by rewrite (user_virt_index pdpt_index) by lia. }
  apply (below_virts_NoDup (λ v, pd_index (bitmap_of v)) t3 [i4]); [done|simpl; lia|lia|].
  intros t2 i2 H2 Hi2. split.
  2: { intros v (i1 & H1 & ->)%(pd_virts _ [i3; i4]); [|done|simpl; lia|done].
       by rewrite (user_virt_index pd_index) by lia. }
  apply (below_virts_NoDup (λ v, pt_index (bitmap_of v)) t2 [i3; i4]); [done|simpl; lia|lia|].
  intros t1 i1 H1 Hi1. split; [|intros v ->%pt_virts; by rewrite (user_virt_index pt_index) by lia].
  unfold pt_events. destruct (present _); [apply NoDup_singleton|constructor].
Qed.
End calls.

