(* ===== verification/AddressSpaceSpec.v ===== *)
(** * What the operations on address spaces do

    Mapping and releasing one page, tearing an address space down
    (remove_virtual_addressing) and copying one (clone_virtual_addressing),
    stated by the processor's translation and the pages of the page allocator. *)
From S2P Require Import Prelude Bytes Slab Paging AddressSpace.
#[local] Arguments c_foreach : simpl never.
#[local] Arguments decode_pte : simpl never.
#[local] Arguments load_pte : simpl never.
#[local] Arguments pte_at : simpl never.
#[local] Arguments wrap : simpl never.
#[local] Arguments entry_ptr : simpl never.
#[local] Arguments phys_to_hhdm : simpl never.

(** ** Tearing down *)

(** A page of the page allocator. *)
Definition managed (s : phys_state) (a : Z) : Prop :=
  ∃ n, 0 ≤ n < physical_memory_pages s ∧ a = page_addr s n.

Lemma managed_frame s a : slab_ok s → managed s a → frame_ok a.
Proof.
  intros Hs (n & Hn & ->). destruct (page_is_dec s n) as [b Hb]; [apply Hs|done|]. by eapply page_addr_frame.
Qed.

Definition frame_of (e : PageTableEntry) : Z := addr e * PAGE_SIZE.

(** The user half belongs to the kernel's page allocator, and no mapped page is a table. *)
Record user_half_managed (st : mm) (root : Z) (T : gmap (list Z) Z) : Prop := {
  managed_root : managed (slab st) root;
  managed_tables p t : user_path p → T !! p = Some t → managed (slab st) t;
  managed_pages v e : user_page v → leaf_at st T v = Some e → managed (slab st) (frame_of e);
  pages_not_tables v e p : user_page v → leaf_at st T v = Some e → T !! p ≠ Some (frame_of e)
}.

Definition ev_phys (e : event) : Z := match e with Leaf _ p _ => p | Table p => p end.
Definition is_leaf (e : event) : Prop := match e with Leaf _ _ _ => True | Table _ => False end.
Definition POISON : Z := 0xEEEEEEEEEEEEEEEE.

Section remove.
Context (st : mm) (T : gmap (list Z) Z).
Context (Hs : slab_ok (slab st)) (Ht : tree st (cr3 st) T) (Hm : user_half_managed st (cr3 st) T).

(** What the calls [pre] have done to the page allocator and to memory. *)
Record slab_released (pre : list event) (st' : mm) : Prop := {
  rel_hhdm : hhdm_offset st' = hhdm_offset st;
  rel_cr3 : cr3 st' = u64 (original_kernel_page_table st - hhdm_offset st);
  rel_slab : slab_ok (slab st');
  rel_base : physical_memory_base (slab st') = physical_memory_base (slab st);
  rel_pages : physical_memory_pages (slab st') = physical_memory_pages (slab st);
  rel_free a : is_free (slab st') a ↔ is_free (slab st) a ∨ ∃ e, e ∈ pre ∧ ev_phys e = a
}.

Record ram_released (pre : list event) (st' : mm) : Prop := {
  rel_same a : frame_ok a → (∀ e, e ∈ pre → is_leaf e → ev_phys e ≠ a) → same_page st st' a;
  rel_poison e i : e ∈ pre → is_leaf e → 0 ≤ i < 512 → word_at st' (ev_phys e + 8 * i) = POISON
}.

Definition released (pre : list event) (st' : mm) : Prop := slab_released pre st' ∧ ram_released pre st'.

Lemma event_managed e : e ∈ walk_events st (cr3 st) → managed (slab st) (ev_phys e).
Proof.
  destruct e as [v q x|t]; intros Hin.
  - eapply walk_Leaf in Hin as (Hu & e & He & -> & _); [|done]. by eapply managed_pages.
  - eapply walk_Table in Hin as [->|(p & Hp & Hpt)]; [apply Hm| |done]. by eapply managed_tables.
Qed.

Lemma free_page_released pre e st' :
  slab_released pre st' → managed (slab st) (ev_phys e) → ram_released (pre ++ [e]) st' →
  wp False (free_page (ev_phys e) st') (released (pre ++ [e])).
Proof.
  intros [] (n & Hn & Ea) [Hsame Hpoison]. unfold free_page.
  assert (ev_phys e = page_addr (slab st') n) as Ea' by (rewrite Ea; unfold page_addr; by rewrite rel_base0).
  destruct (page_is_dec (slab st') n) as [b Hb]; [apply rel_slab0|by rewrite rel_pages0|].
  rewrite Ea'. rewrite (free4k_phys_page _ _ b) by (done || apply rel_slab0). next_Ok. apply wp_ret.
  split; constructor; try done; [by apply slab_ok_mark|].
  intros a. simpl. rewrite (is_free_unmark _ _ b) by done. rewrite rel_free0. setoid_rewrite elem_of_app.
  setoid_rewrite list_elem_of_singleton. split.
  - intros [[?|(e' & He' & <-)]| ->]; [by left|right; exists e'; auto|right; exists e; auto].
  - intros [?|(e' & [He'| ->] & <-)]; [by auto|left; right; by exists e'|by right].
Qed.

Lemma leaf_call pre v q x st' :
  released pre st' → (∀ e, e ∈ pre → frame_ok (ev_phys e)) → managed (slab st) q →
  wp False (leaf_callback_remove_page v q x st') (released (pre ++ [Leaf v q x])).
Proof.
  intros [Hrel [Hsame Hpoison]] Hpre Hq. pose proof (managed_frame _ _ Hs Hq) as Hfq. unfold leaf_callback_remove_page.
  apply wp_bind. eapply wp_mono; [by apply fill_page_wp|]. intros st2 (m & -> & Hin & Hout).
  apply (free_page_released pre (Leaf v q x)); [by destruct Hrel|done|]. constructor.
  - intros a Ha Hno i Hi.
    assert (a ≠ q) by (intros ->; apply (Hno (Leaf v q x)); [apply elem_of_app; right; by left|done|done]).
    rewrite (same_page_with_ram st' m q a) by done. apply Hsame; [done| |done].
    intros e' He'. apply Hno. apply elem_of_app. by left.
  - intros e i [He| ->%list_elem_of_singleton]%elem_of_app Hl Hi; [|by apply Hin].
    destruct (decide (ev_phys e = q)) as [->|Hne]; [by apply Hin|].
    rewrite (same_page_with_ram st' m q (ev_phys e)) by auto. by apply Hpoison.
Qed.

Lemma table_call pre t st' :
  released pre st' → managed (slab st) t →
  wp False (table_entry_callback_remove_page t st') (released (pre ++ [Table t])).
Proof.
  intros [Hrel [Hsame Hpoison]] Hq. apply (free_page_released pre (Table t)); [done..|]. constructor.
  - intros a Ha Hno. apply Hsame; [done|]. intros e He. apply Hno, elem_of_app. by left.
  - intros e i [He| ->%list_elem_of_singleton]%elem_of_app Hl; [by apply Hpoison|done].
Qed.

Lemma remove_wp :
  wp False (remove_virtual_addressing st) (released (walk_events st (cr3 st))).
Proof.
  unfold remove_virtual_addressing. set (st1 := set_pml4_phys _ st).
  unfold get_pml4_phys.
  assert (tree st1 (cr3 st) T) as Ht1 by (by destruct Ht).
  assert (∀ pre e, pre ++ [e] `prefix_of` walk_events st (cr3 st) →
    managed (slab st) (ev_phys e) ∧ ∀ e', e' ∈ pre → frame_ok (ev_phys e')) as Hev.
  { intros pre e [k Hk]. assert (∀ e', e' ∈ pre ++ [e] → e' ∈ walk_events st (cr3 st)) as Hin.
    { intros e' He'. rewrite Hk. apply elem_of_app. by left. }
    split; [apply event_managed, Hin, elem_of_app; right; by left|].
    intros e' He'. apply (managed_frame _ _ Hs), event_managed, Hin, elem_of_app. by left. }
  eapply wp_mono; [apply (walk_wp False _ _ (λ pre st', released pre st' ∧ pre `prefix_of` walk_events st (cr3 st)) st1 (cr3 st) T
    (walk_events st (cr3 st)))|by intros st' []]; [done|..].
  - intros pre st' [[[] [Hsame _]] Hpre]. split; [done|]. intros p t Hp. apply Hsame; [by eapply tree_frame|].
    intros [v q x|?] He Hl; [|done]. simpl. intros ->.
    apply (elem_of_prefix _ _ _ He) in Hpre. eapply walk_Leaf in Hpre as (Hu & e & Hle & -> & _); [|done].
    by eapply pages_not_tables.
  - intros pre v q x st' Hpre [Hrel _]. destruct (Hev _ _ Hpre) as [Hq Hfr].
    eapply wp_mono; [by apply leaf_call|]. by intros.
  - intros pre t st' Hpre [Hrel _]. destruct (Hev _ _ Hpre) as [Hq Hfr].
    eapply wp_mono; [by apply table_call|]. by intros.
  - symmetry. by apply walk_events_ram.
  - split; [|by apply prefix_nil]. split; constructor.
    1-5: done.
    + intros a. split; [by left|]. by intros [?|(e & He%not_elem_of_nil & _)].
    + intros a _ _ i _. exact (eq_refl (word_at st (a + 8 * i))).
    + by intros e i He%not_elem_of_nil.
Qed.
End remove.

(** ** Copying *)

Lemma tree_same_tables st st' root T :
  tree st root T → (∀ p t, T !! p = Some t → same_page st st' t) → tree st' root T.
Proof.
  intros Ht Hw. constructor; try apply Ht.
  intros p t i Hp Hl Hi. rewrite (same_page_pte st st') by (done || by eapply Hw). by apply (tree_child _ _ _ Ht).
Qed.

Lemma bits_word lo w v i :
  v `mod` PAGE_SIZE = 0 → 0 ≤ i < 512 → 12 ≤ lo → bits lo w (v + 8 * i) = bits lo w v.
Proof.
  intros Hm Hi Hlo. unfold bits. f_equal.
  replace (2 ^ lo) with (2 ^ 12 * 2 ^ (lo - 12)) by (rewrite <-Z.pow_add_r by lia; f_equal; lia).
  rewrite <-!Z.div_div by lia. f_equal. clear -Hm Hi. dlia.
Qed.

(** The words of a page have the page's entry. *)
Lemma bitmap_word v i :
  user_page v → 0 ≤ i < 512 →
  vpath (entry_ptr v i) = vpath v ∧ pt_index (bitmap_of (entry_ptr v i)) = pt_index (bitmap_of v) ∧
  page_offset (bitmap_of (entry_ptr v i)) = 8 * i.
Proof.
  intros [Hv Hm] Hi. assert (entry_ptr v i = v + 8 * i) as -> by (unfold entry_ptr; apply wrap_small; lia).
  unfold vpath, bitmap_of. cbn [page_offset pt_index pd_index pdpt_index pml4_index].
  rewrite !bits_word by (done || lia). split_and!; [done..|]. unfold bits. rewrite Z.div_1_r. clear -Hm Hi. dlia.
Qed.

Lemma copy_page_to_virt_wp st T v e q :
  tree st (cr3 st) T → user_page v → leaf_at st T v = Some e → frame_ok (frame_of e) →
  (∀ p, T !! p ≠ Some (frame_of e)) → frame_ok q → q ≠ frame_of e →
  wp False (copy_page_to_virt v (phys_to_hhdm st q) st) (λ st', ∃ m, st' = with_ram st m ∧
    (∀ i, 0 ≤ i < 512 → word_at st' (frame_of e + 8 * i) = word_at st (q + 8 * i)) ∧
    ∀ a, ¬ (frame_of e ≤ a < frame_of e + PAGE_SIZE) → m !! a = ram st !! a).
Proof.
  intros Ht Hu He Hf Hnt Hq Hne. set (f := frame_of e) in *.
  assert (∀ m t, frame_ok t → t ≠ f → (∀ a, ¬ (f ≤ a < f + PAGE_SIZE) → m !! a = ram st !! a) → same_page st (with_ram st m) t) as Hsame.
  { intros m t Ht' Htf Hout. by apply (same_page_with_ram st m f t). }
  eapply wp_mono; [apply (store_loop st f (λ i, word_at st (q + 8 * i))); [done|]|].
  - intros i m Hi Hout _.
    assert (∀ a, ¬ (f ≤ a < f + PAGE_SIZE) → m !! a = ram st !! a) as Hout'.
    { intros a Ha. apply Hout. unfold PAGE_SIZE in Ha. lia. }
    destruct (bitmap_word v i Hu Hi) as (Ep & Ei & Eo).
    assert (translate (with_ram st m) (entry_ptr v i) = Some (f + 8 * i)) as ->.
    { unfold translate. change (cr3 (with_ram st m)) with (cr3 st).
      rewrite (mmu_entry_leaf _ _ T).
      - unfold leaf_at. rewrite Ep, Ei, Eo. fold (leaf_at (with_ram st m) T v). rewrite (leaf_at_same st); [by rewrite He|].
        intros t Hp. apply Hsame; [by eapply tree_frame|by intros ->; eapply Hnt|done].
      - eapply tree_same_tables; [done|]. intros p t Hp. apply Hsame; [by eapply tree_frame|by intros ->; eapply Hnt|done]. }
    change (or_undef (Some (f + 8 * i))) with (Ok (f + 8 * i)). next_Ok. do 3 f_equal.
    change (phys_to_hhdm st q) with (phys_to_hhdm (with_ram st m) q). unfold load_word. rewrite frame_entry by done.
    by apply Hsame.
  - intros st' (m & -> & Hin & Hout). exists m. split_and!; [done| |done].
    intros i Hi. unfold word_at at 1. simpl. by rewrite Hin.
Qed.

(** The kernel's own page table: nothing in the user half. *)
Record kernel_table (st : mm) (kroot : Z) (K : gmap (list Z) Z) : Prop := {
  kernel_ptr : original_kernel_page_table st = phys_to_hhdm st kroot;
  kernel_aspace : aspace st kroot K;
  kernel_user i : 0 ≤ i < 256 → present (pte_at st (kroot + 8 * i)) = false
}.

(** Pages in use keep their contents. *)
Definition in_use_kept (st st' : mm) : Prop := ∀ a, frame_ok a → ¬ is_free (slab st) a → same_page st st' a.

Lemma tree_copy_root st st' kroot K new :
  tree st kroot K → frame_ok new → (∀ p, K !! p ≠ Some new) →
  (∀ i, 0 ≤ i < 512 → word_at st' (new + 8 * i) = word_at st (kroot + 8 * i)) →
  (∀ p t, K !! p = Some t → same_page st st' t) → tree st' new (<[[] := new]> K).
Proof.
  intros Ht Hnew Hfresh Hcopy Hsame. constructor.
  - by rewrite lookup_insert_eq.
  - intros p t. rewrite lookup_insert_Some. intros [[_ <-]|[_ Hp]]; [done|by eapply tree_frame].
  - intros p t i. rewrite lookup_insert_Some, lookup_insert_ne by done. intros [[<- <-]|[Hne Hp]] Hl Hi.
    + unfold pte_at. rewrite Hcopy by done. apply (tree_child _ _ _ Ht); [apply Ht|done..].
    + rewrite (same_page_pte st st') by (done || by eapply Hsame). by apply (tree_child _ _ _ Ht).
  - intros p i t. rewrite lookup_insert_ne by done. intros (Hl & Hi & Hp)%(tree_dom _ _ _ Ht).
    split_and!; [lia..|]. rewrite lookup_insert_is_Some'. by right.
  - intros p p' t. rewrite !lookup_insert_Some. intros [[<- <-]|[Hne Hp]] [[<- E]|[Hne' Hp']]; subst; try done.
    + by destruct (Hfresh p').
    + by destruct (Hfresh p).
    + by eapply tree_inj.
Qed.

Lemma generate_clean_wp st kroot K :
  kernel_table st kroot K →
  wp (free_pages (slab st) = 0%nat) (generate_clean_virtual_addressing st) (λ '(new, st'),
    aspace st' new (<[[] := new]> K) ∧ is_free (slab st) new ∧ ¬ is_free (slab st') new ∧ in_use_kept st st' ∧
    hhdm_offset st' = hhdm_offset st ∧ (∀ a, is_free (slab st') a → is_free (slab st) a) ∧
    (∀ v, leaf_at st' (<[[] := new]> K) v = leaf_at st K v) ∧ S (free_pages (slab st')) = free_pages (slab st)).
Proof.
  intros [Hptr [Hs Ht Hh] Huser]. unfold generate_clean_virtual_addressing.
  apply wp_bind. eapply wp_mono; [apply malloc4k_phys_wp, Hs|]. intros [a s'] (n & -> & Hn & -> & _ & Hfree).
  set (new := page_addr (slab st) n). set (st1 := with_slab st (mark true n 1 (slab st))).
  pose proof (page_addr_frame _ _ _ Hs Hn) as Hnew. fold new in Hnew.
  assert (∀ p, K !! p ≠ Some new) as Hfresh by (intros p Hp; by eapply Hh, page_is_free).
  assert (frame_ok kroot) as Hk by (eapply tree_frame; [done|apply Ht]).
  assert (new ≠ kroot) as Hne by (intros ->; eapply Hfresh; apply Ht).
  change (original_kernel_page_table st1) with (original_kernel_page_table st). rewrite Hptr.
  change (phys_to_hhdm st kroot) with (phys_to_hhdm st1 kroot).
  apply wp_bind. eapply (wp_mono_halt False); [by apply copy_page_wp|by intros []|].
  intros st2 (m & -> & Hcopy & Hout).
  assert (in_use_kept st (with_ram st1 m)) as Hkeep.
  { intros a Ha Hf. apply (same_page_with_ram st m new a); [done|done| |done]. intros <-. by apply Hf, page_is_free. }
  assert (∀ p t, K !! p = Some t → same_page st (with_ram st1 m) t) as Hsame.
  { intros p t Hp. apply Hkeep; [by eapply tree_frame|by eapply Hh]. }
  apply wp_bind. eapply (wp_mono_halt False); [apply (wp_foreach False (λ _ _, True)); [lia|done|]|by intros []|].
  { intros j [] Hj _. unfold load_pte, load_word.
    assert (hhdm_phys (with_ram st1 m) (phys_to_hhdm st1 new) = new + 8 * 0) as ->.
    { rewrite <-(frame_entry st1 new 0) by (done || lia). unfold entry_ptr.
      change (hhdm_phys (with_ram st1 m)) with (hhdm_phys st1). f_equal. rewrite Z.mul_0_r, Z.add_0_r.
      unfold phys_to_hhdm. symmetry. by apply wrap_wrap. }
    rewrite Hcopy by lia. change (decode_pte (word_at st1 (kroot + 8 * 0))) with (pte_at st (kroot + 8 * 0)).
    rewrite Huser by lia. done. }
  intros [] _. apply wp_ret. split_and!; try done.
  - constructor; [by apply slab_ok_mark|by apply (tree_copy_root st _ kroot)|].
    intros p t Hp Hf. simpl in Hf. apply is_free_mark in Hf as [Hf Hnf].
    apply lookup_insert_Some in Hp as [[_ <-]|[_ Hp]]; [done|by eapply Hh].
  - by apply page_is_free.
  - simpl. rewrite is_free_mark. naive_solver.
  - intros a. simpl. rewrite is_free_mark. tauto.
  - intros v. unfold leaf_at. rewrite lookup_insert_ne by done. destruct (K !! vpath v) eqn:Ev; [|done].
    rewrite (same_page_pte st (with_ram st1 m)); [done|by eapply Hsame|apply bitmap_ranges].
Qed.

Section clone.
Context (st : mm) (orig : Z) (T : gmap (list Z) Z) (kroot : Z) (K : gmap (list Z) Z).
Context (Ha : aspace st orig T) (Hkernel : kernel_table st kroot K).
(** The pages of the original are in use. *)
Context (Hpages : ∀ v e, user_page v → leaf_at st T v = Some e → frame_ok (frame_of e) ∧ ¬ is_free (slab st) (frame_of e)).

Definition same_contents (q f : Z) (st' : mm) : Prop := ∀ i, 0 ≤ i < 512 → word_at st' (f + 8 * i) = word_at st (q + 8 * i).

(** A page of the copy: a page that was free, in use now, in no table, with the contents of the original. *)
Record copied (st' : mm) (R : gmap (list Z) Z) (q : Z) (x : bool) (e' : PageTableEntry) : Prop := {
  copied_like : mapped_like (frame_of e') true x e';
  copied_contents : same_contents q (frame_of e') st';
  copied_was_free : is_free (slab st) (frame_of e');
  copied_used : ¬ is_free (slab st') (frame_of e');
  copied_no_table p : R !! p ≠ Some (frame_of e')
}.

Record cloned (pre : list event) (new : Z) (R : gmap (list Z) Z) (st' : mm) : Prop := {
  cl_cr3 : cr3 st' = new;
  cl_hhdm : hhdm_offset st' = hhdm_offset st;
  cl_new : aspace st' new R;
  cl_keep : in_use_kept st st';
  cl_free a : is_free (slab st') a → is_free (slab st) a;
  cl_tables p t : p = [] ∨ user_path p → R !! p = Some t → is_free (slab st) t;
  cl_kernel v : 256 ≤ pml4_index (bitmap_of v) → leaf_at st' R v = leaf_at st K v;
  cl_pages v e' : user_page v → leaf_at st' R v = Some e' → ∃ q x, Leaf v q x ∈ pre ∧ copied st' R q x e';
  cl_absent v : user_page v → leaf_at st' R v = None → v ∉ virts pre;
  cl_distinct v w e e' : user_page v → user_page w → leaf_at st' R v = Some e → leaf_at st' R w = Some e' →
    frame_of e = frame_of e' → v = w;
  cl_count : (free_pages (slab st) ≤ 1 + 4 * length (virts pre) + free_pages (slab st'))%nat
}.

Lemma free_frame_ok a : is_free (slab st) a → frame_ok a.
Proof. intros (i & Hi & ->). eapply page_addr_frame; [apply Ha|done]. Qed.

Lemma user_pages_differ v w : user_page v → user_page w → v ≠ w → ¬ same_vpage v w.
Proof.
  intros Hv Hw Hne [[= E2 E3 E4] E1]. apply Hne.
  destruct (user_page_virt v Hv) as [-> _], (user_page_virt w Hw) as [-> _].
  unfold bitmap_of at 1 2 3 4. cbn [pd_index pdpt_index pml4_index pt_index bitmap_of] in *. congruence.
Qed.

Lemma user_vpath v p : user_page v → p `suffix_of` vpath v → p = [] ∨ user_path p.
Proof.
  intros Hv [k Hk]. destruct (user_page_virt v Hv) as (_ & Hi & _). unfold vpath in Hk.
  destruct p as [|i p]; [by left|right]. exists (pml4_index (bitmap_of v)). split; [|lia].
  apply (f_equal last) in Hk. rewrite last_app in Hk.
  destruct (last (i :: p)) eqn:E; [by injection Hk|by apply last_None in E].
Qed.

(** Where a tree's user half starts: empty. *)
Lemma kernel_no_user p t : K !! p = Some t → user_path p → False.
Proof.
  destruct Hkernel as [_ [_ Ht _] Huser]. revert t. induction p as [|i p IH]; intros t Hp (i4 & Hl & Hi4); [done|].
  destruct p as [|j p].
  - injection Hl as ->. pose proof (tree_child _ _ _ Ht [] kroot i4 (tree_root _ _ _ Ht) ltac:(simpl; lia) ltac:(lia)) as E.
    unfold child in E. rewrite Huser in E by lia. congruence.
  - apply (tree_dom _ _ _ Ht) in Hp as (_ & _ & [t' Hp]). eapply IH; [done|]. by exists i4.
Qed.

Lemma vpath_user v : user_page v → user_path (vpath v).
Proof. intros Hv. destruct (user_vpath v (vpath v) Hv) as [|]; [by exists []|done|done]. Qed.

Lemma clone_start new st' :
  aspace st' new (<[[] := new]> K) → is_free (slab st) new → in_use_kept st st' → hhdm_offset st' = hhdm_offset st →
  (∀ a, is_free (slab st') a → is_free (slab st) a) → (∀ v, leaf_at st' (<[[] := new]> K) v = leaf_at st K v) →
  S (free_pages (slab st')) = free_pages (slab st) → cloned [] new (<[[] := new]> K) (set_pml4_phys new st').
Proof.
  intros Has Hfree Hkeep Hh Hf Hleaf Hcount.
  assert (∀ v, user_page v → leaf_at (set_pml4_phys new st') (<[[] := new]> K) v = None) as Hnone.
  { intros v Hv. change (leaf_at (set_pml4_phys new st') ?R v) with (leaf_at st' R v). rewrite Hleaf. unfold leaf_at.
    destruct (K !! vpath v) eqn:E; [|done]. exfalso. by eapply kernel_no_user, vpath_user. }
  constructor; try done.
  - destruct Has as [? [] ?]. by constructor.
  - intros p t Hp. rewrite lookup_insert_Some. intros [[_ <-]|[Hne Hpt]]; [done|].
    destruct Hp as [->|Hp]; [done|]. exfalso. by eapply kernel_no_user.
  - intros v _. apply Hleaf.
  - intros v e' Hv. by rewrite Hnone.
  - intros v Hv _. by intros ?%not_elem_of_nil.
  - intros v w e e' Hv _. by rewrite Hnone.
  - simpl. lia.
Qed.

(** The address space after one more page is mapped at [v], to a page [f] that was free, and filled from [q]. *)
Record extended (R : gmap (list Z) Z) (st' : mm) (v q : Z) (x : bool) (f : Z) (R2 : gmap (list Z) Z) (st3 : mm) : Prop := {
  ext_cr3 : cr3 st3 = cr3 st';
  ext_hhdm : hhdm_offset st3 = hhdm_offset st';
  ext_kernel : original_kernel_page_table st3 = original_kernel_page_table st';
  ext_base : physical_memory_base (slab st3) = physical_memory_base (slab st');
  ext_pages : physical_memory_pages (slab st3) = physical_memory_pages (slab st');
  ext_aspace : aspace st3 (cr3 st') R2;
  ext_tables p t : R2 !! p = Some t → R !! p = Some t ∨ (is_free (slab st') t ∧ t ≠ f);
  ext_free a : is_free (slab st3) a → is_free (slab st') a ∧ a ≠ f;
  ext_was_free : is_free (slab st') f;
  ext_keep a : frame_ok a → ¬ is_free (slab st') a → ¬ on_path R v a → same_page st' st3 a;
  ext_leaf : ∃ e, leaf_at st3 R2 v = Some e ∧ mapped_like f true x e;
  ext_contents i : 0 ≤ i < 512 → word_at st3 (f + 8 * i) = word_at st' (q + 8 * i);
  ext_other w : ¬ same_vpage w v → leaf_at st3 R2 w = leaf_at st' R w;
  ext_count : (free_pages (slab st') ≤ 4 + free_pages (slab st3))%nat
}.

Lemma clone_page_wp R st' v q x :
  aspace st' (cr3 st') R → user_page v → leaf_at st' R v = None → frame_ok q → ¬ is_free (slab st') q → ¬ on_path R v q →
  wp (free_pages (slab st') < 4)%nat (leaf_callback_clone_page v q x st') (λ st3, ∃ f R2, extended R st' v q x f R2 st3).
Proof.
  intros Has Hv Hnone Hq Hqf Hqp. pose proof (aspace_slab _ _ _ Has) as Hs'.
  unfold leaf_callback_clone_page, allocate_ram_page. apply wp_bind, wp_bind.
  eapply wp_mono_halt; [apply malloc4k_phys_wp, Has|lia|]. intros [f s'] (n & -> & Hn & -> & _ & Hcnt1).
  set (st1 := with_slab st' (mark true n 1 (slab st'))). set (f := page_addr (slab st') n).
  assert (is_free (slab st') f) as Hff by (by apply page_is_free).
  assert (frame_ok f) as Hfok by (by eapply page_addr_frame).
  assert (∀ a, is_free (slab st1) a ↔ is_free (slab st') a ∧ a ≠ f) as Hf1 by (intros a; apply is_free_mark).
  assert (aspace st1 (cr3 st1) R) as Has1.
  { destruct Has as [? [] Hheld]. constructor; [by apply slab_ok_mark|by constructor|].
    intros p t Hp [Hf _]%Hf1. by eapply Hheld. }
  eapply wp_mono_halt; [apply (map_page_wp st1 R v f true x Has1)|simpl; lia|]; [by apply user_page_virt|done|done|].
  intros st2 (R2 & Has2 & [Hsub Hgrow] & Hk2 & _ & (e & He & Hlike) & Hother & Hcnt2).
  assert (frame_of e = f) as Ef by apply Hlike.
  assert (∀ p t, R2 !! p = Some t → R !! p = Some t ∨ (is_free (slab st') t ∧ t ≠ f)) as Htab.
  { intros p t [?|Hf%Hf1]%Hgrow; [by left|by right]. }
  assert (∀ p, R2 !! p ≠ Some f) as Hfnt.
  { intros p [Hp|[_ ?]]%Htab; [by eapply (aspace_held _ _ _ Has)|done]. }
  assert (cr3 st2 = cr3 st') as Ecr by apply Hk2.
  eapply (wp_mono_halt False); [apply (copy_page_to_virt_wp st2 R2 v e q)|by intros []|];
    rewrite ?Ef; try done; [rewrite Ecr; apply Has2|by intros ->|].
  intros st3 (m & -> & Hcopy & Hout). exists f, R2.
  assert (∀ a, frame_ok a → a ≠ f → same_page st2 (with_ram st2 m) a) as Hsame3.
  { intros a Hfa Hne. by apply (same_page_with_ram st2 m f a). }
  assert (∀ a, frame_ok a → ¬ is_free (slab st') a → ¬ on_path R v a → same_page st' st2 a) as Hsame2.
  { intros a Hfa Hnf Hnp. apply (kept_words _ _ _ Hk2); [done|done|]. by intros [? _]%Hf1. }
  assert (∀ w, leaf_at (with_ram st2 m) R2 w = leaf_at st2 R2 w) as Hleaf3.
  { intros w. apply leaf_at_same. intros t Hp. apply Hsame3; [|by intros ->; eapply Hfnt].
    eapply tree_frame; [apply Has2|done]. }
  constructor; try done; try apply Hk2.
  - destruct Has2 as [? Ht2 ?]. constructor; [done| |done]. eapply tree_same_tables; [done|].
    intros p t Hp. apply Hsame3; [by eapply tree_frame|by intros ->; eapply Hfnt].
  - intros a Hf. apply Hf1. by apply (kept_free _ _ _ Hk2).
  - intros a Hfa Hnf Hnp i Hi. rewrite Hsame3 by (done || by intros ->). by apply Hsame2.
  - exists e. by rewrite Hleaf3.
  - intros i Hi. rewrite Hcopy by done. by apply Hsame2.
  - intros w Hw. rewrite Hleaf3. by apply Hother.
  - simpl in *. lia.
Qed.

(** One call of the copying callback. *)
Lemma clone_step pre new R st' v q x f R2 st3 :
  cloned pre new R st' → user_page v → v ∉ virts pre → ¬ is_free (slab st) q → frame_ok q →
  extended R st' v q x f R2 st3 → cloned (pre ++ [Leaf v q x]) new R2 st3.
Proof.
  intros [Ecr Ehh Has Hkeep Hfree Htab Hker Hpag Habs Hdis Hcnt] Hv Hnew Hqf Hq [].
  assert (∀ a, on_path R v a → is_free (slab st) a) as Hpath.
  { intros a (p & Hsuf & Hp). eapply Htab; [|done]. by apply (user_vpath v). }
  assert (∀ w, user_page w → w ≠ v → leaf_at st3 R2 w = leaf_at st' R w) as Hoth.
  { intros w Hw Hne. apply ext_other0. by apply user_pages_differ. }
  destruct ext_leaf0 as (e & He & Hlike). assert (frame_of e = f) as Ef by apply Hlike.
  assert (∀ a, R2 !! a ≠ Some f) as Hfnt.
  { intros a [Ht|[_ ?]]%ext_tables0; [by eapply (aspace_held _ _ _ Has)|done]. }
  assert (copied st3 R2 q x e) as Hcopied.
  { constructor; rewrite ?Ef; try done; [|by apply Hfree|by intros [_ ?]%ext_free0].
    intros i Hi. rewrite ext_contents0 by done. by apply Hkeep. }
  assert (∀ q' x' e', copied st' R q' x' e' → frame_of e' ≠ f ∧ copied st3 R2 q' x' e') as Hstill.
  { intros q' x' e' [Hl Hc Hwf Hu Hnt]. assert (frame_of e' ≠ f) as Hne by (by intros E; apply Hu; rewrite E).
    split; [done|]. constructor; try done.
    - intros i Hi. rewrite <-Hc by done. apply ext_keep0; [by apply free_frame_ok|done| |done].
      intros (p & _ & Hp). by eapply Hnt.
    - intros [? _]%ext_free0. done.
    - intros p [Ht|[Hf _]]%ext_tables0; [by eapply Hnt|done]. }
  constructor; try congruence.
  - intros a Hfa Hnf i Hi. rewrite ext_keep0; [by apply Hkeep|done|by intros ?%Hfree|by intros ?%Hpath|done].
  - intros a [Hf _]%ext_free0. by apply Hfree.
  - intros p t Hp [Ht|[Hf _]]%ext_tables0; [by eapply Htab|by apply Hfree].
  - intros w Hw. rewrite ext_other0; [by apply Hker|]. intros [[= _ _ E] _].
    destruct (user_page_virt v Hv) as (_ & Hi & _). unfold bitmap_of in Hw, Hi. cbn [pml4_index] in Hw, Hi. lia.
  - intros w e' Hw Hle. destruct (decide (w = v)) as [->|Hne].
    + exists q, x. split; [apply elem_of_app; right; by left|]. congruence.
    + rewrite Hoth in Hle by done. destruct (Hpag w e' Hw Hle) as (q' & x' & Hin & Hc).
      exists q', x'. split; [apply elem_of_app; by left|]. by apply Hstill.
  - intros w Hw Hle. destruct (decide (w = v)) as [->|Hne]; [congruence|]. rewrite Hoth in Hle by done.
    rewrite virts_app, not_elem_of_app. split; [by apply Habs|].
    simpl. by intros ->%list_elem_of_singleton.
  - intros w w' e1 e2 Hw Hw' H1 H2 E.
    destruct (decide (w = v)) as [->|Hne], (decide (w' = v)) as [->|Hne']; [done|..].
    + rewrite Hoth in H2 by done. destruct (Hpag _ _ Hw' H2) as (? & ? & _ & [? _]%Hstill). congruence.
    + rewrite Hoth in H1 by done. destruct (Hpag _ _ Hw H1) as (? & ? & _ & [? _]%Hstill). congruence.
    + rewrite Hoth in H1, H2 by done. by eapply Hdis.
  - rewrite virts_app, length_app. simpl. lia.
Qed.

Lemma cloned_table pre new R st' t : cloned pre new R st' → cloned (pre ++ [Table t]) new R st'.
Proof.
  intros []. constructor; try done; rewrite ?virts_app, ?app_nil_r; try done.
  intros v e' Hv Hle. destruct (cl_pages0 v e' Hv Hle) as (q & x & Hin & Hc). exists q, x.
  split; [apply elem_of_app; by left|done].
Qed.

(** A walk reads its calls off tables that are the same. *)
Lemma walk_virts_same st1 :
  tree st1 orig T → (∀ v, leaf_at st1 T v = leaf_at st T v) →
  length (virts (walk_events st1 orig)) = length (virts (walk_events st orig)).
Proof.
  intros Ht1 Hleaf. apply Permutation_length, NoDup_Permutation.
  - by eapply walk_virts_NoDup.
  - eapply walk_virts_NoDup, Ha.
  - intros v. rewrite !elem_of_virts. setoid_rewrite (walk_Leaf st1 orig T Ht1).
    setoid_rewrite (walk_Leaf st orig T); [|apply Ha]. by setoid_rewrite Hleaf.
Qed.

(** The pages to copy. *)
Definition user_page_count : nat := length (virts (walk_events st orig)).

Lemma clone_walk_wp new R0 st1 :
  cloned [] new R0 st1 → in_use_kept st st1 → user_page_count = length (virts (walk_events st1 orig)) →
  tree st1 orig T → (∀ v, leaf_at st1 T v = leaf_at st T v) →
  wp (free_pages (slab st) < 1 + 4 * user_page_count)%nat
    (walk_virtual_tree leaf_callback_clone_page table_entry_callback_do_nothing orig st1)
    (λ st', ∃ R, cloned (walk_events st1 orig) new R st').
Proof.
  intros Hcl0 Hkeep1 Hcount Ht1 Hleaf1.
  apply (walk_wp _ _ _ (λ pre st', ∃ R, cloned pre new R st') st1 orig T _); [done|..|done|by exists R0].
  - intros pre st' [R Hcl]. split; [by rewrite (cl_hhdm _ _ _ _ Hcl), (cl_hhdm _ _ _ _ Hcl0)|].
    intros p t Hp i Hi. pose proof (tree_frame _ _ _ Ht1 _ _ Hp). pose proof (aspace_held _ _ _ Ha _ _ Hp).
    rewrite (cl_keep _ _ _ _ Hcl), Hkeep1 by done. done.
  - intros pre v q x st' Hpre [R Hcl].
    assert (Leaf v q x ∈ walk_events st1 orig) as Hin.
    { destruct Hpre as [k ->]. rewrite !elem_of_app, list_elem_of_singleton. by left; right. }
    apply (walk_Leaf st1 orig T Ht1) in Hin as (Hv & e & Hle & Eq & _). rewrite Hleaf1 in Hle.
    destruct (Hpages v e Hv Hle) as [Hq Hqf]. fold (frame_of e) in Eq. rewrite <-Eq in Hq, Hqf.
    assert (v ∉ virts pre ∧ length (virts pre) + 1 ≤ user_page_count)%nat as [Hnew Hlen].
    { pose proof (walk_virts_NoDup st1 orig T Ht1) as Hnd. rewrite Hcount. destruct Hpre as [k Hk].
      rewrite Hk, !virts_app in Hnd |- *. rewrite !length_app. simpl. split; [|lia].
      apply NoDup_app in Hnd as (Hnd & _). apply NoDup_app in Hnd as (_ & Hd & _). intros Hvin. eapply Hd; [done|left]. }
    assert (leaf_at st' R v = None) as Hnone.
    { destruct (leaf_at st' R v) as [e'|] eqn:E; [|done].
      destruct (cl_pages _ _ _ _ Hcl v e' Hv E) as (q' & x' & Hin & _). exfalso. apply Hnew, elem_of_virts. eauto. }
    pose proof (cl_count _ _ _ _ Hcl). pose proof (cl_cr3 _ _ _ _ Hcl) as Ecr.
    eapply wp_mono_halt; [apply (clone_page_wp R st' v q x)|lia|].
    + rewrite Ecr. apply Hcl.
    + done.
    + done.
    + done.
    + by intros ?%(cl_free _ _ _ _ Hcl).
    + intros (p & Hsuf & Hp). apply Hqf. eapply (cl_tables _ _ _ _ Hcl); [|done]. by apply (user_vpath v).
    + intros st3 (f & R2 & Hext). exists R2. by eapply clone_step.
  - intros pre t st' _ [R Hcl]. exists R. by apply cloned_table.
Qed.

Lemma clone_wp :
  wp (free_pages (slab st) < 1 + 4 * user_page_count)%nat (clone_virtual_addressing orig st)
    (λ '(new, st'), ∃ R st1 st2, cloned (walk_events st1 orig) new R st2 ∧ st' = set_pml4_phys orig st2 ∧
       tree st1 orig T ∧ (∀ v, leaf_at st1 T v = leaf_at st T v)).
Proof.
  unfold clone_virtual_addressing. apply wp_bind.
  eapply wp_mono_halt; [by apply (generate_clean_wp st kroot K)|lia|].
  intros [new st0] (Has & Hfree & _ & Hkeep & Hh & Hf & Hleaf & Hcount).
  pose proof (clone_start new st0 Has Hfree Hkeep Hh Hf Hleaf Hcount) as Hcl. set (st1 := set_pml4_phys new st0) in *.
  assert (∀ p t, T !! p = Some t → same_page st st1 t) as Hsame.
  { intros p t Hp. apply Hkeep; [eapply tree_frame; [apply Ha|done]|by eapply (aspace_held _ _ _ Ha)]. }
  assert (tree st1 orig T) as Ht1 by (eapply tree_same_tables; [apply Ha|done]).
  assert (∀ v, leaf_at st1 T v = leaf_at st T v) as Hleaf1.
  { intros v. apply leaf_at_same. intros t Hp. by eapply Hsame. }
  apply wp_bind. eapply wp_mono; [apply (clone_walk_wp new _ st1 Hcl); try done; symmetry; by apply walk_virts_same|].
  intros st2 [R Hcl2]. apply wp_ret. by exists R, st1, st2.
Qed.
End clone.

(** ** Specifications *)

(** C3: map_page, in an address space whose tables are in use: an address that is mapped already stops the machine; otherwise, unless fewer than three pages are free, it returns, the processor then translates the address to the page with the permissions asked for and every other address as before, and no page that was in use, other than the tables on the way, is changed. *)
Theorem map_page_spec st T v phys can_cache can_execute :
  aspace st (cr3 st) T → v `mod` PAGE_SIZE = 0 → frame_ok phys →
  match mmu_entry st (cr3 st) v with
  | Some _ => map_page phys v can_cache can_execute st = Halt
  | None =>
      wp (free_pages (slab st) < 3)%nat (map_page phys v can_cache can_execute st) (λ st', ∃ T' e,
        aspace st' (cr3 st') T' ∧ cr3 st' = cr3 st ∧
        mmu_entry st' (cr3 st') v = Some e ∧ mapped_like phys can_cache can_execute e ∧
        (∀ w, ¬ vpn_eq w v → mmu_entry st' (cr3 st') w = mmu_entry st (cr3 st) w) ∧
        ∀ a, frame_ok a → ¬ is_free (slab st) a → ¬ on_path T v a → same_page st st' a)
  end.
Proof.
  intros Ha Hv Hp. rewrite (mmu_entry_leaf _ _ T) by apply Ha.
  destruct (leaf_at st T v) as [e|] eqn:E; [eapply map_page_mapped; [apply Ha|done]|].
  eapply wp_mono; [apply map_page_wp; try done|].
  { unfold bitmap_of, bits. cbn [page_offset]. by rewrite Z.div_1_r. }
  intros st' (T' & Ha' & _ & Hk & _ & (e & He & Hl) & Hother & _).
  assert (cr3 st' = cr3 st) as Ecr by apply Hk. exists T', e. rewrite Ecr.
  rewrite (mmu_entry_leaf _ _ T') by apply Ha'. split_and!; try done.
  - intros w Hw. rewrite !(mmu_entry_leaf _ (cr3 st) T'), (mmu_entry_leaf _ _ T) by (apply Ha' || apply Ha).
    apply Hother. by rewrite same_vpage_vpn.
  - intros a Hfa Hnf Hnp. by apply (kept_words _ _ _ Hk).
Qed.

(** deallocate_page on an address that is mapped to a page of the page allocator that is in use and is not a table: it returns, the processor no longer translates the address and translates every other address as before, and that page, and no other, becomes free; on an address that is not mapped, it stops the machine. *)
Theorem deallocate_page_spec st T v :
  aspace st (cr3 st) T → v `mod` PAGE_SIZE = 0 →
  match mmu_entry st (cr3 st) v with
  | None => deallocate_page v st = Halt
  | Some e => ∀ n, frame_of e = page_addr (slab st) n → page_is (slab st) n true → (∀ p, T !! p ≠ Some (frame_of e)) →
      ∃ st', deallocate_page v st = Ok st' ∧ aspace st' (cr3 st') T ∧ cr3 st' = cr3 st ∧
        mmu_entry st' (cr3 st') v = None ∧
        (∀ w, ¬ vpn_eq w v → mmu_entry st' (cr3 st') w = mmu_entry st (cr3 st) w) ∧
        ∀ a, is_free (slab st') a ↔ is_free (slab st) a ∨ a = frame_of e
  end.
Proof.
  intros Ha Hv. pose proof (aspace_tree _ _ _ Ha) as Ht. rewrite (mmu_entry_leaf _ _ T) by done.
  assert (page_offset (bitmap_of v) = 0) as Ho by (unfold bitmap_of, bits; cbn [page_offset]; by rewrite Z.div_1_r).
  destruct (leaf_at st T v) as [e|] eqn:E; [|by eapply deallocate_unmapped].
  intros n En Hn Hnt. rewrite En in Hnt.
  destruct (wp_total_1 _ _ (deallocate_page_wp st T v e n Ha Ho E En Hn Hnt)) as (st' & E' & Ha' & Ecr & Es & Hnone & Hother).
  exists st'. rewrite Ecr. pose proof (aspace_tree _ _ _ Ha') as Ht'.
  split_and!; try done; [by rewrite (mmu_entry_leaf _ _ T)| |].
  - intros w Hw. rewrite !(mmu_entry_leaf _ _ T) by done. apply Hother. by rewrite same_vpage_vpn.
  - intros a. rewrite Es, En. by apply (is_free_unmark _ _ true).
Qed.

(** C4: remove_virtual_addressing, on an address space whose user half belongs to the page allocator: it always returns, in the kernel's own address space; the pages that become free are exactly the pages and tables of the user half and the root; the pages that were mapped are overwritten, and no other page is changed. *)
Theorem remove_virtual_addressing_spec st T :
  slab_ok (slab st) → tree st (cr3 st) T → user_half_managed st (cr3 st) T →
  ∃ st', remove_virtual_addressing st = Ok st' ∧
    cr3 st' = u64 (original_kernel_page_table st - hhdm_offset st) ∧
    (∀ a, is_free (slab st') a ↔ is_free (slab st) a ∨ a = cr3 st ∨ (∃ p, user_path p ∧ T !! p = Some a) ∨
       ∃ v e, user_page v ∧ mmu_entry st (cr3 st) v = Some e ∧ a = frame_of e) ∧
    (∀ v e i, user_page v → mmu_entry st (cr3 st) v = Some e → 0 ≤ i < 512 → word_at st' (frame_of e + 8 * i) = POISON) ∧
    ∀ a, frame_ok a → (∀ v e, user_page v → mmu_entry st (cr3 st) v = Some e → frame_of e ≠ a) → same_page st st' a.
Proof.
  intros Hs Ht Hm. destruct (wp_total_1 _ _ (remove_wp st T Hs Ht Hm)) as (st' & E & [[] [Hsame Hpoison]]).
  setoid_rewrite (mmu_entry_leaf _ _ T); [|done..]. exists st'. split_and!; [done|done|..].
  - intros a. rewrite rel_free0. apply or_iff_compat_l. split.
    + intros ([v q x|t] & Hin & <-).
      * apply (walk_Leaf _ _ T Ht) in Hin as (Hv & e & He & -> & _). right; right. by exists v, e.
      * apply (walk_Table _ _ T Ht) in Hin as [->|Hp]; auto.
    + intros [->|[Hp|(v & e & Hv & He & ->)]].
      * exists (Table (cr3 st)). split; [|done]. apply (walk_Table _ _ T Ht). by left.
      * exists (Table a). split; [|done]. apply (walk_Table _ _ T Ht). by right.
      * exists (Leaf v (frame_of e) (negb (nx e))). split; [|done]. apply (walk_Leaf _ _ T Ht). split; [done|]. by exists e.
  - intros v e i Hv He Hi. apply (Hpoison (Leaf v (frame_of e) (negb (nx e)))); [|done|done].
    apply (walk_Leaf _ _ T Ht). split; [done|]. by exists e.
  - intros a Hfa Hno. apply Hsame; [done|]. intros [v q x|] Hin Hl; [|done].
    apply (walk_Leaf _ _ T Ht) in Hin as (Hv & e & He & -> & _). by apply (Hno v e).
Qed.

(** C2: clone_virtual_addressing, with one free page and four more for each page to copy: it returns, back in the original address space, with no page that was in use changed; in the new address space a user address is mapped exactly if it is in the original, to a page that was free, executable exactly if the original is, with the same contents, and different addresses to different pages; and the addresses of the kernel half are mapped as in the kernel's own page table. *)
Theorem clone_virtual_addressing_spec st orig T kroot K :
  aspace st orig T → kernel_table st kroot K →
  (∀ v e, user_page v → mmu_entry st orig v = Some e → frame_ok (frame_of e) ∧ ¬ is_free (slab st) (frame_of e)) →
  (1 + 4 * user_page_count st orig ≤ free_pages (slab st))%nat →
  ∃ new st', clone_virtual_addressing orig st = Ok (new, st') ∧ cr3 st' = orig ∧ in_use_kept st st' ∧
    (∀ v, mmu_entry st' orig v = mmu_entry st orig v) ∧
    (∀ v, user_page v → match mmu_entry st orig v with
       | None => mmu_entry st' new v = None
       | Some e => ∃ e', mmu_entry st' new v = Some e' ∧ mapped_like (frame_of e') true (negb (nx e)) e' ∧
           is_free (slab st) (frame_of e') ∧ ¬ is_free (slab st') (frame_of e') ∧
           ∀ i, 0 ≤ i < 512 → word_at st' (frame_of e' + 8 * i) = word_at st (frame_of e + 8 * i)
       end) ∧
    (∀ v w e e', user_page v → user_page w → mmu_entry st' new v = Some e → mmu_entry st' new w = Some e' →
       frame_of e = frame_of e' → v = w) ∧
    ∀ v, 256 ≤ pml4_index (bitmap_of v) → mmu_entry st' new v = mmu_entry st kroot v.
Proof.
  intros Ha Hk Hpages Hcount. pose proof (aspace_tree _ _ _ Ha) as Ht.
  assert (∀ v e, user_page v → leaf_at st T v = Some e → frame_ok (frame_of e) ∧ ¬ is_free (slab st) (frame_of e)) as Hpages'.
  { intros v e Hv He. apply (Hpages v e Hv). by rewrite (mmu_entry_leaf _ _ T). }
  destruct (wp_total_1 _ _ (wp_mono_halt _ False _ _ _ (clone_wp st orig T kroot K Ha Hk Hpages') ltac:(lia) (λ _ H, H)))
    as ([new st'] & E & R & st1 & st2 & Hcl & -> & Ht1 & Hleaf1).
  pose proof (aspace_tree _ _ _ (cl_new _ _ _ _ _ _ Hcl)) as HtR.
  assert (tree (set_pml4_phys orig st2) new R) as HtR' by (by destruct HtR).
  assert (∀ p t, T !! p = Some t → same_page st (set_pml4_phys orig st2) t) as HsameT.
  { intros p t Hp. apply (cl_keep _ _ _ _ _ _ Hcl); [by eapply (tree_frame _ _ _ Ht)|by eapply (aspace_held _ _ _ Ha)]. }
  assert (tree (set_pml4_phys orig st2) orig T) as HtT by (by apply (tree_same_tables st _ orig T)).
  assert (∀ v, mmu_entry (set_pml4_phys orig st2) new v = leaf_at st2 R v) as Hnew.
  { intros v. by rewrite (mmu_entry_leaf _ _ R). }
  exists new, (set_pml4_phys orig st2). split_and!; [done|done|apply Hcl|..].
  - intros v. rewrite !(mmu_entry_leaf _ orig T) by done. apply leaf_at_same. intros t Hp. by eapply HsameT.
  - intros v Hv. rewrite Hnew, (mmu_entry_leaf _ orig T) by done. destruct (leaf_at st T v) as [e|] eqn:Ev.
    + destruct (leaf_at st2 R v) as [e'|] eqn:Ev'.
      * destruct (cl_pages _ _ _ _ _ _ Hcl v e' Hv Ev') as (q & x & Hin & []).
        apply (walk_Leaf _ _ T Ht1) in Hin as (_ & e2 & He2 & -> & ->). rewrite Hleaf1, Ev in He2. injection He2 as <-.
        exists e'. split_and!; done.
      * exfalso. apply (cl_absent _ _ _ _ _ _ Hcl v Hv Ev'), elem_of_virts. exists (frame_of e), (negb (nx e)).
        apply (walk_Leaf _ _ T Ht1). split; [done|]. exists e. by rewrite Hleaf1.
    + destruct (leaf_at st2 R v) as [e'|] eqn:Ev'; [|done]. exfalso.
      destruct (cl_pages _ _ _ _ _ _ Hcl v e' Hv Ev') as (q & x & Hin & _).
      apply (walk_Leaf _ _ T Ht1) in Hin as (_ & e2 & He2 & _). by rewrite Hleaf1, Ev in He2.
  - intros v w e e'. rewrite !Hnew. by apply (cl_distinct _ _ _ _ _ _ Hcl).
  - intros v Hv. rewrite Hnew, (mmu_entry_leaf _ kroot K) by apply Hk. by apply (cl_kernel _ _ _ _ _ _ Hcl).
Qed.
