(* ===== verification/AddressSpaceExamples.v ===== *)
(** * Address spaces on a concrete machine

    Sixteen pages of RAM at 1 MiB; the first is the root of an empty address
    space.  The kernel's page table, empty too, is the page at 4096, and the
    page at 8192 holds one word of data. *)
From S2P Require Import Prelude Bytes Slab Paging AddressSpace AddressSpaceSpec.

Definition root_ex : Z := 0x100000.
Definition slab_ex : phys_state := PhysState root_ex 16 (true :: replicate 15 false).
Definition mm_ex : mm := MM slab_ex {[8192 := 42]} root_ex 0xffff800000000000 (0xffff800000000000 + 4096) 0 [].
Abbreviation T_ex := ({[ [] := root_ex ]} : gmap (list Z) Z).
Definition v_ex : Z := 0x400000.

Lemma slab_ex_ok : slab_ok slab_ex.
Proof. constructor; [constructor|]; done. Qed.

Lemma empty_tree st root : frame_ok root → (∀ i, 0 ≤ i < 512 → word_at st (root + 8 * i) = 0) → tree st root {[ [] := root ]}.
Proof.
  intros Hr H0. constructor.
  - by rewrite lookup_singleton_eq.
  - intros p t (_ & <-)%lookup_singleton_Some. done.
  - intros p t i (<- & <-)%lookup_singleton_Some _ Hi. rewrite lookup_singleton_ne by done.
    unfold pte_at. by rewrite H0.
  - intros p i t (? & _)%lookup_singleton_Some. done.
  - intros p q t (<- & _)%lookup_singleton_Some (<- & _)%lookup_singleton_Some. done.
Qed.

Lemma low_pages_not_free st a : physical_memory_base (slab st) = root_ex → a < root_ex → ¬ is_free (slab st) a.
Proof. intros Hb Ha (i & [Hi _] & ->). unfold page_addr, PAGE_SIZE in Ha. lia. Qed.

Lemma zero_below a : a ≠ 8192 → word_at mm_ex a = 0.
Proof. intros Ha. unfold word_at. simpl. by rewrite lookup_singleton_ne. Qed.

Lemma aspace_ex : aspace mm_ex (cr3 mm_ex) T_ex.
Proof.
  constructor; [apply slab_ex_ok| |].
  - apply empty_tree; [done|]. intros i Hi. apply zero_below. change (cr3 mm_ex) with root_ex. unfold root_ex. lia.
  - intros p t (_ & <-)%lookup_singleton_Some (i & [Hi E] & Ea).
    assert (i = 0) as -> by (unfold page_addr, PAGE_SIZE in Ea; simpl in Ea; change (cr3 mm_ex) with root_ex in Ea; lia).
    discriminate E.
Qed.

Lemma kernel_table_ex st :
  original_kernel_page_table st = phys_to_hhdm st 4096 → slab_ok (slab st) → physical_memory_base (slab st) = root_ex →
  (∀ i, 0 ≤ i < 512 → word_at st (4096 + 8 * i) = 0) → kernel_table st 4096 {[ [] := 4096 ]}.
Proof.
  intros Hp Hs Hb H0. constructor; [done| |].
  - constructor; [done|by apply empty_tree|]. intros p t (_ & <-)%lookup_singleton_Some. by apply low_pages_not_free.
  - intros i Hi. unfold pte_at. rewrite H0 by lia. done.
Qed.

Lemma free_pages_ex : free_pages (slab mm_ex) = 15%nat.
Proof. done. Qed.

Lemma user_ex : user_page v_ex.
Proof. done. Qed.

Lemma unmapped_ex : mmu_entry mm_ex (cr3 mm_ex) v_ex = None.
Proof. vm_compute. reflexivity. Qed.

Lemma data_ex : ¬ is_free (slab mm_ex) 8192 ∧ ¬ on_path T_ex v_ex 8192.
Proof. split; [by apply low_pages_not_free|]. by intros (p & _ & (_ & E)%lookup_singleton_Some). Qed.

(** ** Mapping a page *)
Lemma map_page_spec_witness :
  ∃ st' e, map_page 0x105000 v_ex true false mm_ex = Ok st' ∧
    mmu_entry st' root_ex v_ex = Some e ∧ mapped_like 0x105000 true false e ∧
    ∀ w, ¬ vpn_eq w v_ex → mmu_entry st' root_ex w = mmu_entry mm_ex root_ex w.
Proof.
  pose proof (map_page_spec mm_ex T_ex v_ex 0x105000 true false aspace_ex eq_refl ltac:(done)) as H.
  rewrite unmapped_ex in H.
  destruct (wp_total_1 _ _ (wp_mono_halt _ False _ _ _ H ltac:(rewrite free_pages_ex; lia) (λ _ H, H)))
    as (st' & E & T' & e & _ & Ecr & He & Hl & Ho & _).
  rewrite Ecr in He, Ho. exists st', e. split; [exact E|]. split; [exact He|]. split; [exact Hl|exact Ho].
Defined.

(** ** A space with one page, filled from the page at 8192 *)
Record one_page (st : mm) (f : Z) (R : gmap (list Z) Z) (e : PageTableEntry) : Prop := {
  one_extended : extended T_ex mm_ex v_ex 8192 true f R st;
  one_aspace : aspace st (cr3 st) R;
  one_cr3 : cr3 st = root_ex;
  one_entry : mmu_entry st root_ex v_ex = Some e;
  one_frame : frame_of e = f;
  one_used n : f = page_addr (slab st) n → page_is (slab st) n true;
  one_managed : managed (slab st) f;
  one_table p t : R !! p = Some t → t ≠ f ∧ managed (slab st) t;
  one_only v e' : user_page v → leaf_at st R v = Some e' → v = v_ex ∧ frame_of e' = f
}.

Lemma one_page_ex : ∃ st f R e, leaf_callback_clone_page v_ex 8192 true mm_ex = Ok st ∧ one_page st f R e.
Proof.
  destruct data_ex as [Hf Hp]. pose proof unmapped_ex as Hnone.
  rewrite (mmu_entry_leaf _ _ T_ex) in Hnone by apply aspace_ex.
  pose proof (clone_page_wp T_ex mm_ex v_ex 8192 true aspace_ex user_ex Hnone ltac:(done) Hf Hp) as H.
  destruct (wp_total_1 _ _ (wp_mono_halt _ False _ _ _ H ltac:(rewrite free_pages_ex; lia) (λ _ H, H))) as (st & E & f & R & Hext).
  pose proof Hext as [Ecr _ _ Eb Epg Has Htab Hfr Hwas _ (e & He & Hl) _ Hother _].
  assert (∀ a, is_free slab_ex a → managed (slab st) a) as Hm.
  { clear E H. intros a (i & Hi & ->). exists i. unfold page_addr. rewrite Eb, Epg. split; [|done].
    by eapply page_is_range; [apply slab_ex_ok|]. }
  exists st, f, R, e. split; [exact E|]. clear E H. constructor; try done.
  - by rewrite Ecr.
  - by rewrite (mmu_entry_leaf _ _ R) by apply Has.
  - apply Hl.
  - intros n En. destruct (Hm f Hwas) as (n' & Hn' & En'). assert (n = n') as -> by (apply (page_addr_inj (slab st)); congruence).
    destruct (page_is_dec (slab st) n') as [[] Hb]; [apply Has|done|done|]. exfalso.
    apply (Hfr f); [exists n'; by rewrite <-En'|done].
  - by apply Hm.
  - intros p t [(_ & <-)%lookup_singleton_Some|[Hft Hne]]%Htab; [|by split; [|apply Hm]].
    split; [|exists 0; unfold page_addr; by rewrite Eb, Epg].
    intros E'. apply (aspace_held _ _ _ aspace_ex [] root_ex); [done|]. by rewrite E'.
  - intros v e' Hv He'. destruct (decide (v = v_ex)) as [->|Hne]; [split; [done|]; rewrite He in He'; injection He' as <-; apply Hl|].
    rewrite Hother in He' by (by apply user_pages_differ). unfold leaf_at in He'. by rewrite lookup_singleton_ne in He'.
Qed.

(** ** Releasing it *)
Lemma deallocate_page_spec_witness :
  ∃ st e st', leaf_callback_clone_page v_ex 8192 true mm_ex = Ok st ∧ mmu_entry st root_ex v_ex = Some e ∧
    deallocate_page v_ex st = Ok st' ∧ mmu_entry st' root_ex v_ex = None ∧ is_free (slab st') (frame_of e).
Proof.
  destruct one_page_ex as (st & f & R & e & Ex & [_ Ha Ecr He Hf Hused (n & Hn & En) Ht _]).
  exists st, e. revert Ex. generalize (leaf_callback_clone_page v_ex 8192 true mm_ex). intros o Ex.
  pose proof (deallocate_page_spec st R v_ex Ha eq_refl) as H. rewrite Ecr, He in H.
  destruct (H n) as (st' & E & _ & Ecr' & Hnone & _ & Hfree).
  - congruence.
  - by apply Hused.
  - intros p Hp. apply (Ht p f); congruence.
  - exists st'. split; [exact Ex|]. split; [exact He|]. split; [exact E|].
    split; [by rewrite <-Ecr'|]. apply Hfree. by right.
Defined.

(** ** Tearing the space down *)
Lemma remove_virtual_addressing_spec_witness :
  ∃ st e st', leaf_callback_clone_page v_ex 8192 true mm_ex = Ok st ∧ mmu_entry st root_ex v_ex = Some e ∧
    remove_virtual_addressing st = Ok st' ∧ cr3 st' = 4096 ∧ word_at st' (frame_of e + 8 * 7) = POISON ∧
    is_free (slab st') root_ex ∧ is_free (slab st') (frame_of e).
Proof.
  destruct one_page_ex as (st & f & R & e & Ex & [Hext [Hs Htr _] Ecr He Hf _ Hm Ht Hone]).
  exists st, e. revert Ex. generalize (leaf_callback_clone_page v_ex 8192 true mm_ex). intros o Ex.
  destruct (remove_virtual_addressing_spec st R Hs Htr) as (st' & E & Ecr' & Hfree & Hpoison & _).
  - constructor.
    + by apply (Ht [] (cr3 st)), (tree_root _ _ _ Htr).
    + intros p t _ Hp. by apply (Ht p t).
    + intros v e' Hv He'. by destruct (Hone v e' Hv He') as [_ ->].
    + intros v e' p Hv He' Hp. destruct (Hone v e' Hv He') as [_ E']. rewrite E' in Hp. by apply (Ht p f).
  - exists st'. split; [exact Ex|]. split; [exact He|]. split; [exact E|]. rewrite <-Ecr in He. split_and!.
    + by rewrite Ecr', (ext_hhdm _ _ _ _ _ _ _ _ Hext), (ext_kernel _ _ _ _ _ _ _ _ Hext).
    + by apply (Hpoison v_ex).
    + apply Hfree. right; left. by rewrite Ecr.
    + apply Hfree. right; right; right. by exists v_ex, e.
Defined.

(** ** Copying it *)
Lemma one_page_count st f R e : one_page st f R e → (user_page_count st root_ex ≤ 1)%nat.
Proof.
  intros [_ Ha Ecr _ _ _ _ _ Hone]. rewrite Ecr in Ha. pose proof (aspace_tree _ _ _ Ha) as Ht.
  pose proof (walk_virts_NoDup st root_ex R Ht) as Hnd. unfold user_page_count.
  assert (∀ v, v ∈ virts (walk_events st root_ex) → v = v_ex) as Hall.
  { intros v (q & x & (Hv & e' & He' & _)%(walk_Leaf _ _ R Ht))%elem_of_virts. by apply (Hone v e'). }
  destruct (virts _) as [|v [|w l]]; simpl; [lia|lia|]. exfalso.
  apply NoDup_cons in Hnd as [Hnd _]. apply Hnd. rewrite (Hall v), (Hall w) by (rewrite !elem_of_cons; auto). left.
Qed.

Lemma one_page_data st f R e i :
  one_page st f R e → 0 ≤ i < 512 → word_at st (4096 + 8 * i) = 0 ∧ word_at st (f + 8 * 0) = 42.
Proof.
  intros [Hext _ _ _ _ _ _ _ _] Hi. split.
  - rewrite (ext_keep _ _ _ _ _ _ _ _ Hext 4096); [apply zero_below; lia|done| | |done].
    + by apply low_pages_not_free.
    + by intros (p & _ & (_ & E)%lookup_singleton_Some).
  - by rewrite (ext_contents _ _ _ _ _ _ _ _ Hext).
Qed.

Lemma clone_virtual_addressing_spec_witness :
  ∃ st e new st' e', leaf_callback_clone_page v_ex 8192 true mm_ex = Ok st ∧ mmu_entry st root_ex v_ex = Some e ∧
    clone_virtual_addressing root_ex st = Ok (new, st') ∧ mmu_entry st' new v_ex = Some e' ∧
    frame_of e' ≠ frame_of e ∧ word_at st' (frame_of e' + 8 * 0) = 42.
Proof.
  destruct one_page_ex as (st & f & R & e & Ex & Hone). pose proof Hone as [Hext Ha Ecr He Hf Hused (n & Hn & En) Ht Honly].
  exists st, e. revert Ex. generalize (leaf_callback_clone_page v_ex 8192 true mm_ex). intros o Ex.
  rewrite Ecr in Ha. assert (¬ is_free (slab st) f) as Hnf by (intros [_ Hne]%(ext_free _ _ _ _ _ _ _ _ Hext); done).
  assert (kernel_table st 4096 {[ [] := 4096 ]}) as Hk.
  { apply kernel_table_ex; [|apply Ha|by rewrite (ext_base _ _ _ _ _ _ _ _ Hext)|intros i Hi; by apply (one_page_data st f R e)].
    rewrite (ext_kernel _ _ _ _ _ _ _ _ Hext). unfold phys_to_hhdm. by rewrite (ext_hhdm _ _ _ _ _ _ _ _ Hext). }
  destruct (clone_virtual_addressing_spec st root_ex R 4096 _ Ha Hk) as (new & st' & E & _ & _ & _ & Hpages & _).
  - intros v e' Hv He'. rewrite (mmu_entry_leaf _ _ R) in He' by apply Ha. destruct (Honly v e' Hv He') as [_ ->].
    split; [|done]. eapply managed_frame; [apply Ha|by exists n].
  - pose proof (one_page_count _ _ _ _ Hone). pose proof (ext_count _ _ _ _ _ _ _ _ Hext).
    rewrite free_pages_ex in *. lia.
  - specialize (Hpages v_ex user_ex). rewrite He in Hpages. destruct Hpages as (e' & He' & Hl & Hfr & _ & Hc).
    exists new, st', e'. split; [exact Ex|]. split; [exact He|]. split; [exact E|]. split; [exact He'|]. split.
    + intros E'. apply Hnf. by rewrite <-Hf, <-E'.
    + rewrite (Hc 0) by lia. rewrite Hf. by apply (one_page_data st f R e 0).
Defined.
