(* ===== verification/Malloc.v ===== *)
(** * The heap allocator: custom_malloc/library.c and linked_list_item.c

    The heap is a run of regions, each preceded by a 16-byte header
    ([struct LinkedListItem]) that links to the next header.  Headers are kept in
    a map from their address; the bytes of the regions in a separate map (the
    theorems show headers and regions are disjoint).  The page provider
    [_malloc_expand_heap] is a parameter with a contract, the class
    [HeapProvider], which the kernel's and the C library's providers satisfy
    (see HeapProviders.v). *)
From S2P Require Import Prelude Memory CString.

Record LinkedListItem := LLI { next : Z; item_free : bool; canary : Z }.

Definition LL_CANARY : Z := 0xDEADBEEF.
Definition SIZEOF_LLI : Z := 16.
Definition MALLOC_ALIGNMENT : Z := 16.

(** What the allocator relies on: a provider asked for [bytes] more bytes at
    the page-aligned address [heap_end] maps a whole number of pages from
    there, less than one page more than asked, and reports how many bytes it mapped;
    it may stop the machine, but it does not misbehave. *)
Class HeapProvider (W : Type) := {
  provider_may_halt : Prop;
  provider_inv : W → Prop;
  malloc_expand_heap : Z → Z → W → outcome (Z * W);
  malloc_expand_heap_ok heap_end bytes w :
    provider_inv w → heap_end `mod` PAGE_SIZE = 0 → 0 < bytes → bytes + PAGE_SIZE ≤ 2 ^ 64 →
    wp provider_may_halt (malloc_expand_heap heap_end bytes w) (λ '(r, w'), provider_inv w' ∧
      0 ≤ r < bytes + PAGE_SIZE ∧ r `mod` PAGE_SIZE = 0);
}.
#[global] Hint Mode HeapProvider + : typeclass_instances.

#[global] Arguments provider_may_halt W {_}.

Section malloc.
Context {W : Type} `{!HeapProvider W}.

(** [struct MemoryAllocator], the memory it manages and the provider's state. *)
Record allocator := Allocator {
  head : Z;
  tail : Z;
  heap_end : Z;
  items : gmap Z LinkedListItem;   (* headers written so far, by address *)
  mapped_start : Z;                (* the addresses mapped for the heap *)
  mapped_end : Z;
  data : gmap Z Z;                 (* the bytes written in the regions *)
  world : W
}.

Definition with_items (st : allocator) (it : gmap Z LinkedListItem) : allocator :=
  Allocator (head st) (tail st) (heap_end st) it (mapped_start st) (mapped_end st) (data st) (world st).
Definition with_tail (st : allocator) (t : Z) : allocator :=
  Allocator (head st) t (heap_end st) (items st) (mapped_start st) (mapped_end st) (data st) (world st).
Definition with_data (st : allocator) (d : gmap Z Z) : allocator :=
  Allocator (head st) (tail st) (heap_end st) (items st) (mapped_start st) (mapped_end st) d (world st).

(** ** linked_list_item.c *)

(** [*p] for a header: undefined where no header was ever written *)
Definition load_item (p : Z) (st : allocator) : outcome LinkedListItem := or_undef (items st !! p).

(** [*p = it]: undefined outside the mapped addresses *)
Definition store_item (p : Z) (it : LinkedListItem) (st : allocator) : outcome allocator :=
  if (mapped_start st <=? p) && (p + SIZEOF_LLI <=? mapped_end st)
  then Ok (with_items st (<[p := it]> (items st))) else Undef.

Definition assert_invariant (self : Z) (st : allocator) : outcome () :=
  it ← load_item self st; c_assert (canary it =? LL_CANARY).

Definition get_next (self : Z) (st : allocator) : outcome Z :=
  _ ← assert_invariant self st; it ← load_item self st; Ok (next it).

Definition lli_new (nxt output : Z) (st : allocator) : outcome allocator :=
  store_item output (LLI nxt true LL_CANARY) st.

Definition destroy (self : Z) (st : allocator) : outcome allocator :=
  it ← load_item self st;
  store_item self (LLI 0xCAFECAFECAFECAFE (item_free it) 0xABABABAB) st.

Definition lli_is_free (self : Z) (st : allocator) : outcome bool :=
  _ ← assert_invariant self st; it ← load_item self st; Ok (item_free it).

Definition lli_mark_as (self : Z) (free : bool) (st : allocator) : outcome allocator :=
  _ ← assert_invariant self st;
  it ← load_item self st;
  store_item self (LLI (next it) free (canary it)) st.

Definition lli_region_start (self : Z) (st : allocator) : outcome Z :=
  _ ← assert_invariant self st; Ok (self + SIZEOF_LLI).

Definition lli_region_size (self hp_end : Z) (st : allocator) : outcome Z :=
  _ ← assert_invariant self st;
  region_start_ptr ← lli_region_start self st;
  it ← load_item self st;
  let region_end_ptr := if negb (next it =? 0) then next it else hp_end in
  let region_size_bytes := s64 (region_end_ptr - region_start_ptr) in
  _ ← hcf_if (region_size_bytes <? 0);
  Ok region_size_bytes.

(** The last argument of the source, [&allocator.tail], is the state's [tail]. *)
Definition lli_insert_after (self to_insert_addr : Z) (st : allocator) : outcome allocator :=
  after_addr ← get_next self st;
  _ ← hcf_if (to_insert_addr =? 0);
  start ← lli_region_start self st;
  _ ← hcf_if (to_insert_addr <? start);
  it ← load_item self st;
  st ← store_item self (LLI to_insert_addr (item_free it) (canary it)) st;
  st ← lli_new after_addr to_insert_addr st;
  if after_addr =? 0 then Ok (with_tail st to_insert_addr)
  else
    start' ← lli_region_start to_insert_addr st;
    _ ← hcf_if (after_addr <? start');
    Ok st.

Definition lli_try_merge_after (self : Z) (st : allocator) : outcome (bool * allocator) :=
  to_destroy ← get_next self st;
  if to_destroy =? 0 then Ok (false, st)
  else
    it ← load_item self st;
    it' ← load_item to_destroy st;
    if negb (item_free it) || negb (item_free it') then Ok (false, st)
    else
      after_removed_addr ← get_next to_destroy st;
      st ← store_item self (LLI after_removed_addr (item_free it) (canary it)) st;
      let st := if to_destroy =? tail st then with_tail st self else st in
      st ← destroy to_destroy st;
      Ok (true, st).

(** ** library.c *)

(** The loops follow the links: one more iteration than there are headers is enough. *)
Definition fuel (st : allocator) : nat := S (size (items st)).

Definition expand_heap (requested_bytes : Z) (st : allocator) : outcome (bool * allocator) :=
  let actual_needed_bytes := u64 (requested_bytes + SIZEOF_LLI) in
  '(allocated, w) ← malloc_expand_heap (heap_end st) actual_needed_bytes (world st);
  let old_heap_end := heap_end st in
  let st := Allocator (head st) (tail st) (heap_end st + allocated) (items st)
              (mapped_start st) (heap_end st + allocated) (data st) w in
  if allocated <? actual_needed_bytes then Ok (false, st)
  else st ← lli_insert_after (tail st) old_heap_end st; Ok (true, st).

(** [while(lli_try_merge_after(cursor, &allocator.tail)) {}] *)
Definition merge_all (cursor : Z) (st : allocator) : outcome allocator :=
  c_while (fuel st) (λ st,
    '(merged, st) ← lli_try_merge_after cursor st;
    Ok (if (merged : bool) then inl st else inr st)) st.

Definition find_or_make_free (sz : Z) (st : allocator) : outcome (Z * allocator) :=
  '(found, st) ← c_while (fuel st) (λ '(cursor, st),
     if cursor =? 0 then Ok (inr (0, st))
     else
       st ← merge_all cursor st;
       rsz ← lli_region_size cursor (heap_end st) st;
       ok ← (if sz <=? rsz then lli_is_free cursor st else Ok false);
       if (ok : bool) then Ok (inr (cursor, st))
       else it ← load_item cursor st; Ok (inl (next it, st))) (head st, st);
  if negb (found =? 0) then Ok (found, st)
  else
    let old_last_item_ptr := tail st in
    last_free ← lli_is_free old_last_item_ptr st;
    last_size ← (if (last_free : bool) then lli_region_size old_last_item_ptr (heap_end st) st
                 else Ok 0);
    let remaining_to_request := u64 (sz - last_size) in
    '(result, st) ← expand_heap remaining_to_request st;
    if negb result then Ok (0, st)
    else
      '(_, st) ← lli_try_merge_after old_last_item_ptr st;
      it ← load_item (tail st) st;
      _ ← hcf_if (negb (item_free it));
      rsz ← lli_region_size (tail st) (heap_end st) st;
      _ ← hcf_if (rsz <? sz);
      Ok (tail st, st).

Definition init_memory_allocator (heap_start : Z) (w : W) : outcome allocator :=
  '(allocated, w) ← malloc_expand_heap heap_start SIZEOF_LLI w;
  _ ← hcf_if (allocated <? SIZEOF_LLI);
  lli_new 0 heap_start
    (Allocator heap_start heap_start (heap_start + allocated) ∅ heap_start (heap_start + allocated) ∅ w).

Definition round_up_alignment (sz : Z) : Z :=
  u64 (u64 (sz + MALLOC_ALIGNMENT - 1) `div` MALLOC_ALIGNMENT * MALLOC_ALIGNMENT).

Definition malloc (sz : Z) (st : allocator) : outcome (Z * allocator) :=
  if sz =? 0 then Ok (0, st)
  else
    let sz := round_up_alignment sz in
    '(reserved_metadata_ptr, st) ← find_or_make_free sz st;
    if reserved_metadata_ptr =? 0 then Ok (0, st)
    else
      st ← lli_mark_as reserved_metadata_ptr false st;
      reserved_size ← lli_region_size reserved_metadata_ptr (heap_end st) st;
      reserved_data ← lli_region_start reserved_metadata_ptr st;
      if u64 (sz + SIZEOF_LLI) <=? reserved_size then
        st ← lli_insert_after reserved_metadata_ptr (reserved_data + sz) st;
        Ok (reserved_data, st)
      else Ok (reserved_data, st).

Definition free (ptr : Z) (st : allocator) : outcome allocator :=
  if ptr =? 0 then Ok st
  else lli_mark_as (ptr - SIZEOF_LLI) true st.

(** The bytes of the mapped heap as a memory; a byte never written reads as 0
    (any value would do). *)
Definition data_byte (st : allocator) (a : Z) : Z := default 0 (data st !! a).

#[refine, global] Instance allocator_memory : ByteMemory allocator := {
  mload st a := if decide (mapped_start st ≤ a < mapped_end st) then Some (data_byte st a) else None;
  mstore st a v := if decide (mapped_start st ≤ a < mapped_end st)
                   then Some (with_data st (<[a := v]> (data st))) else None;
}.
Proof.
  - intros st a v. case_decide; split; intros []; eauto; done.
  - intros st a v st' b. case_decide; [|done]. intros [= <-]. unfold data_byte. simpl.
    rewrite lookup_insert. destruct (decide (a = b)) as [->|]; [by rewrite decide_True|done].
Defined.

Definition realloc (ptr sz : Z) (st : allocator) : outcome (Z * allocator) :=
  '(region, st) ← malloc sz st;
  if (ptr =? 0) || (region =? 0) then Ok (region, st)
  else
    curr_size ← lli_region_size (ptr - SIZEOF_LLI) (heap_end st) st;
    let smallest := if sz <? curr_size then sz else curr_size in
    '(_, st) ← memcpy region ptr smallest st;
    st ← free ptr st;
    Ok (region, st).
End malloc.

#[global] Arguments allocator W : clear implicits.

(** ** The abstract heap: the list of blocks (header address, is it free), in
    address order; [he] is the end of the heap. *)
Abbreviation block := (Z * bool)%type.

Definition first_addr (l : list block) (he : Z) : Z :=
  match l with [] => he | (a, _) :: _ => a end.

(** The headers of [l] are linked in order; [q] is what the last one links to. *)
Fixpoint seg (m : gmap Z LinkedListItem) (l : list block) (q : Z) : Prop :=
  match l with
  | [] => True
  | (a, f) :: l' => m !! a = Some (LLI (first_addr l' q) f LL_CANARY) ∧ seg m l' q
  end.

(** Headers are aligned and do not overlap: each region lies between two headers. *)
Fixpoint layout (l : list block) (he : Z) : Prop :=
  match l with
  | [] => True
  | (a, _) :: l' =>
      0 < a ∧ a `mod` MALLOC_ALIGNMENT = 0 ∧ a + SIZEOF_LLI ≤ first_addr l' he ∧ layout l' he
  end.

(** The allocations: start and size of the region of each block in use. *)
Fixpoint used (l : list block) (he : Z) : list (Z * Z) :=
  match l with
  | [] => []
  | (a, f) :: l' =>
      (if f then [] else [(a + SIZEOF_LLI, first_addr l' he - (a + SIZEOF_LLI))]) ++ used l' he
  end.

Lemma first_addr_app l1 l2 he : first_addr (l1 ++ l2) he = first_addr l1 (first_addr l2 he).
Proof. by destruct l1 as [|[]]. Qed.

Lemma seg_app m l1 l2 q : seg m (l1 ++ l2) q ↔ seg m l1 (first_addr l2 q) ∧ seg m l2 q.
Proof.
  induction l1 as [|[a f] l1 IH]; simpl; [tauto|]. rewrite IH, first_addr_app. tauto.
Qed.

Lemma layout_app l1 l2 he : layout (l1 ++ l2) he ↔ layout l1 (first_addr l2 he) ∧ layout l2 he.
Proof.
  induction l1 as [|[a f] l1 IH]; simpl; [tauto|]. rewrite IH, first_addr_app. tauto.
Qed.

Lemma used_app l1 l2 he : used (l1 ++ l2) he = used l1 (first_addr l2 he) ++ used l2 he.
Proof.
  induction l1 as [|[a f] l1 IH]; simpl; [done|]. by rewrite IH, first_addr_app, app_assoc.
Qed.

Lemma layout_bounds l he a f : layout l he → (a, f) ∈ l → first_addr l he ≤ a ∧ a + SIZEOF_LLI ≤ he.
Proof.
  revert a f. induction l as [|[b g] l IH]; intros a f; simpl; [by intros _ ?%elem_of_nil|].
  unfold SIZEOF_LLI in *. intros (? & ? & ? & Hl). rewrite elem_of_cons. intros [[= -> ->]|Hin].
  - destruct l as [|[c h] l]; simpl in *; [lia|].
    destruct (IH c h Hl ltac:(left)). lia.
  - destruct (IH a f Hl Hin). destruct l as [|[c h] l]; simpl in *; [by apply elem_of_nil in Hin|lia].
Qed.

Lemma layout_first l he : layout l he → first_addr l he ≤ he.
Proof.
  intros Hl. destruct l as [|[a f] l]; [done|].
  destruct (layout_bounds ((a, f) :: l) he a f Hl ltac:(left)). unfold SIZEOF_LLI in *. simpl. lia.
Qed.

(** The addresses before and after a block differ from it. *)
Lemma layout_split_ne l1 a f l2 he b g :
  layout (l1 ++ (a, f) :: l2) he → (b, g) ∈ l1 ++ l2 → b ≠ a.
Proof.
  rewrite layout_app. simpl. unfold SIZEOF_LLI. intros (H1 & H0 & _ & H3 & H2) [Hin|Hin]%elem_of_app.
  - destruct (layout_bounds _ _ _ _ H1 Hin). unfold SIZEOF_LLI in *. simpl in *. lia.
  - destruct (layout_bounds _ _ _ _ H2 Hin). unfold SIZEOF_LLI in *.
    pose proof (layout_first _ _ H2). lia.
Qed.

(** The address of a block occurs nowhere else. *)
Lemma block_not_in l1 a f l2 he g :
  layout (l1 ++ (a, f) :: l2) he → (a, g) ∉ l1 ∧ (a, g) ∉ l2.
Proof.
  intros Hl. split; intros Hin; (eapply (layout_split_ne l1 a f l2 he a g); [done| |done]); set_solver.
Qed.

Lemma seg_insert m l q a it : (∀ f, (a, f) ∉ l) → seg m l q → seg (<[a := it]> m) l q.
Proof.
  induction l as [|[b g] l IH]; simpl; [done|]. intros Hni [H1 H2]. split.
  - rewrite lookup_insert_ne; [done|]. intros ->. apply (Hni g). left.
  - apply IH; [|done]. intros f Hf. apply (Hni f). by right.
Qed.

Lemma layout_NoDup l he : layout l he → NoDup l.*1.
Proof.
  induction l as [|[a f] l IH]; simpl; [constructor|]. intros (? & ? & ? & Hl).
  constructor; [|by apply IH]. intros ([b g] & -> & Hin)%list_elem_of_fmap.
  destruct (layout_bounds _ _ _ _ Hl Hin). unfold SIZEOF_LLI in *. simpl in *. lia.
Qed.

Lemma seg_dom m l q a f : seg m l q → (a, f) ∈ l → is_Some (m !! a).
Proof.
  induction l as [|[b g] l IH]; simpl; [by intros _ ?%elem_of_nil|].
  intros [H1 H2]. rewrite elem_of_cons. intros [[= -> ->]|?]; eauto.
Qed.

Lemma seg_length m l q he : seg m l q → layout l he → (length l ≤ size m)%nat.
Proof.
  intros Hs Hl. pose proof (layout_NoDup _ _ Hl) as Hnd.
  rewrite <-(length_fmap fst l), <-size_dom, <-(size_list_to_set (C := gset Z)) by done.
  apply subseteq_size. intros a Ha. apply elem_of_dom.
  apply elem_of_list_to_set, list_elem_of_fmap in Ha as ([b g] & -> & Hin).
  by eapply seg_dom.
Qed.

(** The heap that [l] describes is the one the state holds. *)
Record inv {W} `{!HeapProvider W} (st : allocator W) (l : list block) : Prop := {
  inv_head : head st = first_addr l 0;
  inv_seg : seg (items st) l 0;
  inv_layout : layout l (heap_end st);
  inv_tail : ∃ l' f, l = l' ++ [(tail st, f)];
  inv_mapped : mapped_start st ≤ head st ∧ mapped_end st = heap_end st;
  inv_page : heap_end st `mod` PAGE_SIZE = 0;
  inv_size : heap_end st - head st < 2 ^ 63;
  inv_world : provider_inv (world st)
}.

(** What the operations on headers leave alone. *)
Definition same_outer {W} (st st' : allocator W) : Prop :=
  head st' = head st ∧ heap_end st' = heap_end st ∧ mapped_start st' = mapped_start st ∧
  mapped_end st' = mapped_end st ∧ data st' = data st.

Section proofs.
Context {W : Type} `{!HeapProvider W}.
Implicit Types (st : allocator W) (l : list block).

Lemma inv_lookup st l1 a f l2 :
  inv st (l1 ++ (a, f) :: l2) → items st !! a = Some (LLI (first_addr l2 0) f LL_CANARY).
Proof. intros [_ Hs _ _ _ _ _]. apply seg_app in Hs as [_ [? _]]. done. Qed.

Lemma inv_bounds st l1 a f l2 :
  inv st (l1 ++ (a, f) :: l2) →
  0 < a ∧ mapped_start st ≤ a ∧ a + SIZEOF_LLI ≤ first_addr l2 (heap_end st) ∧
  first_addr l2 (heap_end st) ≤ heap_end st ∧ mapped_end st = heap_end st ∧
  a `mod` MALLOC_ALIGNMENT = 0 ∧ heap_end st - a < 2 ^ 63.
Proof.
  intros []. pose proof inv_layout0 as Hl. apply layout_app in Hl as [_ (? & ? & ? & Hl2)].
  destruct (layout_bounds (l1 ++ (a, f) :: l2) (heap_end st) a f); [done|set_solver|].
  pose proof (layout_first _ _ Hl2).
  assert (first_addr (l1 ++ (a, f) :: l2) (heap_end st) = head st) as E.
  { rewrite inv_head0. by destruct l1 as [|[]]. }
  unfold SIZEOF_LLI in *. rewrite E in *. destruct inv_mapped0. split_and!; lia.
Qed.

Lemma first_addr_0 l he : layout l he → (first_addr l 0 =? 0) = bool_decide (l = []).
Proof.
  destruct l as [|[a f] l]; [done|]. intros [? _].
  rewrite bool_decide_eq_false_2 by done. simpl. lia.
Qed.

Lemma inv_layout_rest st l1 b l2 : inv st (l1 ++ b :: l2) → layout l2 (heap_end st).
Proof. intros []. apply layout_app in inv_layout0 as [_ Hl]. destruct b. simpl in Hl. tauto. Qed.

Section header.
Context st l1 a f l2 (Hinv : inv st (l1 ++ (a, f) :: l2)).

Lemma assert_invariant_inv : assert_invariant a st = Ok ().
Proof. unfold assert_invariant, load_item. by rewrite (inv_lookup _ _ _ _ _ Hinv). Qed.

Lemma load_item_inv : load_item a st = Ok (LLI (first_addr l2 0) f LL_CANARY).
Proof. unfold load_item. by rewrite (inv_lookup _ _ _ _ _ Hinv). Qed.

Lemma get_next_inv : get_next a st = Ok (first_addr l2 0).
Proof. unfold get_next. by rewrite assert_invariant_inv; simpl; rewrite load_item_inv. Qed.

Lemma lli_is_free_inv : lli_is_free a st = Ok f.
Proof. unfold lli_is_free. by rewrite assert_invariant_inv; simpl; rewrite load_item_inv. Qed.

Lemma lli_region_start_inv : lli_region_start a st = Ok (a + SIZEOF_LLI).
Proof. unfold lli_region_start. by rewrite assert_invariant_inv. Qed.

Lemma lli_region_size_inv :
  lli_region_size a (heap_end st) st = Ok (first_addr l2 (heap_end st) - (a + SIZEOF_LLI)).
Proof.
  unfold lli_region_size. rewrite assert_invariant_inv. simpl.
  rewrite lli_region_start_inv. simpl. rewrite load_item_inv. simpl.
  assert ((if negb (first_addr l2 0 =? 0) then first_addr l2 0 else heap_end st)
    = first_addr l2 (heap_end st)) as ->.
  { rewrite (first_addr_0 _ _ (inv_layout_rest _ _ _ _ Hinv)). by destruct l2 as [|[]]. }
  destruct (inv_bounds _ _ _ _ _ Hinv) as (? & ? & ? & ? & ? & ? & ?).
  unfold SIZEOF_LLI in *. rewrite signed_small by lia.
  replace (_ <? 0) with false by lia. done.
Qed.

Lemma store_item_inv it : store_item a it st = Ok (with_items st (<[a := it]> (items st))).
Proof.
  destruct (inv_bounds _ _ _ _ _ Hinv) as (? & ? & ? & ? & ? & ? & ?).
  unfold store_item, SIZEOF_LLI in *.
  by replace ((mapped_start st <=? a) && (a + 16 <=? mapped_end st)) with true by lia.
Qed.

(** Changing the flag of one header. *)
Lemma inv_set_flag g :
  inv (with_items st (<[a := LLI (first_addr l2 0) g LL_CANARY]> (items st))) (l1 ++ (a, g) :: l2).
Proof.
  destruct Hinv. constructor; simpl; try done.
  - rewrite inv_head0. by destruct l1 as [|[]].
  - apply seg_app in inv_seg0 as [H1 [H0 H2]]. apply seg_app. simpl.
    rewrite lookup_insert_eq. split_and!; [|done|]; apply seg_insert; try done.
    + intros g'. apply (block_not_in _ _ _ _ _ g' inv_layout0).
    + intros g'. apply (block_not_in _ _ _ _ _ g' inv_layout0).
  - apply layout_app in inv_layout0. by apply layout_app.
  - destruct inv_tail0 as (l' & f' & E). destruct (decide (l2 = [])) as [->|Hne].
    + apply app_inj_tail in E as [-> [= -> ->]]. eauto.
    + destruct (exists_last Hne) as (l3 & b & ->). rewrite app_comm_cons, app_assoc in E.
      apply app_inj_tail in E as [_ ->]. exists (l1 ++ (a, g) :: l3), f'.
      by rewrite <-app_assoc.
Qed.

Lemma lli_mark_as_inv g :
  ∃ st', lli_mark_as a g st = Ok st' ∧ inv st' (l1 ++ (a, g) :: l2) ∧ same_outer st st'.
Proof.
  eexists. split; [|split; [apply (inv_set_flag g)|done]].
  unfold lli_mark_as. rewrite assert_invariant_inv. simpl. rewrite load_item_inv. simpl.
  apply store_item_inv.
Qed.
End header.

(** Shape of the list after its last block is the tail. *)
Lemma tail_unique st l1 a f : inv st (l1 ++ [(a, f)]) → tail st = a.
Proof. intros []. destruct inv_tail0 as (l' & f' & E). apply app_inj_tail in E as [_ E]. congruence. Qed.

Lemma tail_in_rest st l1 b l2 : inv st (l1 ++ b :: l2) → l2 ≠ [] → ∃ l' f, l2 = l' ++ [(tail st, f)].
Proof.
  intros [] Hne. destruct inv_tail0 as (l' & f' & E).
  destruct (exists_last Hne) as (l3 & c & ->). rewrite app_comm_cons, app_assoc in E.
  apply app_inj_tail in E as [_ ->]. eauto.
Qed.

Lemma lli_try_merge_after_inv st l1 a f l2 :
  inv st (l1 ++ (a, f) :: l2) →
  match l2 with
  | (b, true) :: l3 =>
      if f then ∃ st', lli_try_merge_after a st = Ok (true, st') ∧
                  inv st' (l1 ++ (a, true) :: l3) ∧ same_outer st st'
      else lli_try_merge_after a st = Ok (false, st)
  | _ => lli_try_merge_after a st = Ok (false, st)
  end.
Proof.
  intros Hinv. unfold lli_try_merge_after. rewrite (get_next_inv _ _ _ _ _ Hinv).
  destruct l2 as [|[b g] l3]; [done|]. cbn [first_addr mbind outcome_bind].
  assert (inv st ((l1 ++ [(a, f)]) ++ (b, g) :: l3)) as Hb by by rewrite <-app_assoc.
  destruct (inv_bounds _ _ _ _ _ Hb) as (Hb0 & _).
  replace (b =? 0) with false by lia.
  rewrite (load_item_inv _ _ _ _ _ Hinv). cbn [mbind outcome_bind].
  rewrite (load_item_inv _ _ _ _ _ Hb). cbn [mbind outcome_bind].
  destruct f, g; try done. cbn [item_free negb orb].
  rewrite (get_next_inv _ _ _ _ _ Hb). cbn [mbind outcome_bind].
  rewrite (store_item_inv _ _ _ _ _ Hinv). cbn [mbind outcome_bind].
  set (t' := if b =? tail st then a else tail st).
  assert ((if b =? tail (with_items st _) then with_tail (with_items st _) a else with_items st _)
    = with_tail (with_items st (<[a := LLI (first_addr l3 0) true LL_CANARY]> (items st))) t') as ->.
  { unfold t'. simpl. by destruct (b =? tail st). }
  assert (a ≠ b) as Hne.
  { eapply (layout_split_ne (l1 ++ [(a, true)]) b true l3 _ a true); [apply Hb|set_solver]. }
  destruct (inv_bounds _ _ _ _ _ Hb) as (? & ? & ? & ? & ? & ? & ?).
  unfold destroy, load_item. cbn [with_tail with_items items].
  rewrite lookup_insert_ne, (inv_lookup _ _ _ _ _ Hb) by done. cbn [or_undef mbind outcome_bind].
  unfold store_item. cbn [with_tail with_items items mapped_start mapped_end].
  unfold SIZEOF_LLI in *.
  replace ((mapped_start st <=? b) && (b + 16 <=? mapped_end st)) with true by lia.
  eexists. split; [done|]. split; [|done].
  pose proof (tail_in_rest _ _ _ _ Hb) as Htl. pose proof (tail_unique st (l1 ++ [(a, true)]) b true) as Htu.
  destruct Hinv as [Hh Hs Hl _ Hm Hp Hsz Hw]. constructor; simpl; try done.
  - rewrite Hh. by destruct l1 as [|[]].
  - apply seg_app in Hs as [S1 [_ [_ S3]]]. apply seg_app. simpl.
    rewrite lookup_insert_ne, lookup_insert_eq by done.
    split_and!; [|done|]; (apply seg_insert; [|apply seg_insert; [|done]]);
      intros h; destruct (block_not_in _ _ _ _ _ h Hl), (block_not_in _ _ _ _ _ h (inv_layout _ _ Hb));
      set_solver.
  - apply layout_app in Hl as [Hl1 (? & ? & ? & ? & ? & ? & Hl3)]. apply layout_app. simpl.
    split_and!; try done. unfold SIZEOF_LLI in *. simpl in *. lia.
  - unfold t'. destruct (decide (l3 = [])) as [->|Hn3].
    + rewrite (Htu Hb), Z.eqb_refl. eauto.
    + destruct (Htl Hn3) as (l' & f' & E). case_if.
      * exfalso. eapply (layout_split_ne (l1 ++ [(a, true)]) b true l3 _ (tail st) f'); [apply Hb| |done].
        rewrite E. set_solver.
      * exists (l1 ++ (a, true) :: l'), f'. rewrite E. by rewrite <-app_assoc.
Qed.

Lemma lli_insert_after_inv st l1 a f l2 x :
  inv st (l1 ++ (a, f) :: l2) →
  a + SIZEOF_LLI ≤ x → x `mod` MALLOC_ALIGNMENT = 0 → x + SIZEOF_LLI ≤ first_addr l2 (heap_end st) →
  ∃ st', lli_insert_after a x st = Ok st' ∧ inv st' (l1 ++ (a, f) :: (x, true) :: l2) ∧ same_outer st st'.
Proof.
  intros Hinv Hx Hxa Hx2. destruct (inv_bounds _ _ _ _ _ Hinv) as (? & ? & ? & ? & ? & ? & ?).
  pose proof (inv_layout_rest _ _ _ _ Hinv) as Hl2. pose proof (layout_first _ _ Hl2).
  unfold SIZEOF_LLI in *. unfold lli_insert_after.
  rewrite (get_next_inv _ _ _ _ _ Hinv). cbn [mbind outcome_bind].
  replace (x =? 0) with false by lia. cbn [hcf_if mbind outcome_bind].
  rewrite (lli_region_start_inv _ _ _ _ _ Hinv). unfold SIZEOF_LLI. cbn [mbind outcome_bind].
  replace (x <? a + 16) with false by lia. cbn [hcf_if mbind outcome_bind].
  rewrite (load_item_inv _ _ _ _ _ Hinv). cbn [mbind outcome_bind].
  rewrite (store_item_inv _ _ _ _ _ Hinv). cbn [mbind outcome_bind item_free canary].
  unfold lli_new, store_item. cbn [with_items items mapped_start mapped_end]. unfold SIZEOF_LLI.
  replace ((mapped_start st <=? x) && (x + 16 <=? mapped_end st)) with true by lia.
  cbn [mbind outcome_bind].
  rewrite (first_addr_0 _ _ Hl2).
  set (it' := <[x := LLI (first_addr l2 0) true LL_CANARY]> (<[a := LLI x f LL_CANARY]> (items st))).
  set (st1 := with_items st it').
  change (with_items (with_items st (<[a := LLI x f LL_CANARY]> (items st))) it') with st1.
  set (t' := if bool_decide (l2 = []) then x else tail st).
  enough (inv (with_tail st1 t') (l1 ++ (a, f) :: (x, true) :: l2)) as Hnew.
  { exists (with_tail st1 t'). split; [|split; [done|done]]. unfold t'. case_bool_decide; [done|].
    assert (lli_region_start x st1 = Ok (x + 16)) as ->.
    { apply (lli_region_start_inv (with_tail st1 t') (l1 ++ [(a, f)]) x true l2).
      by rewrite <-app_assoc. }
    cbn [mbind outcome_bind]. assert (first_addr l2 (heap_end st) = first_addr l2 0) as E by by destruct l2.
    replace (first_addr l2 0 <? x + 16) with false by lia. done. }
  pose proof (tail_in_rest _ _ _ _ Hinv) as Htl. pose proof (tail_unique st l1 a f) as Htu.
  destruct Hinv as [Hh Hs Hl Ht Hm Hp Hsz Hw]. constructor; simpl; try done.
  - rewrite Hh. by destruct l1 as [|[]].
  - unfold it'. apply seg_app in Hs as [S1 [S0 S3]]. apply seg_app. simpl.
    rewrite lookup_insert_ne, !lookup_insert_eq by lia. split_and!; try done.
    + apply seg_insert; [|apply seg_insert; [|done]].
      * intros h Hin. apply layout_app in Hl as [Hl1 _].
        destruct (layout_bounds _ _ _ _ Hl1 Hin). unfold SIZEOF_LLI in *. simpl in *. lia.
      * intros h. apply (block_not_in _ _ _ _ _ h Hl).
    + apply seg_insert; [|apply seg_insert; [|done]].
      * intros h Hin. destruct (layout_bounds _ _ _ _ Hl2 Hin). lia.
      * intros h. apply (block_not_in _ _ _ _ _ h Hl).
  - apply layout_app in Hl as [Hl1 (? & ? & ? & ?)]. apply layout_app. simpl. unfold SIZEOF_LLI.
    split_and!; (done || lia).
  - unfold t'. case_bool_decide as Hc.
    + subst. exists (l1 ++ [(a, f)]), true. by rewrite <-app_assoc.
    + destruct (Htl Hc) as (l' & f' & E). exists (l1 ++ (a, f) :: (x, true) :: l'), f'.
      rewrite E. by rewrite <-app_assoc.
Qed.

Lemma same_outer_refl st : same_outer st st.
Proof. done. Qed.

Lemma same_outer_trans st1 st2 st3 : same_outer st1 st2 → same_outer st2 st3 → same_outer st1 st3.
Proof. unfold same_outer. intuition congruence. Qed.

Lemma inv_fuel st l1 l2 : inv st (l1 ++ l2) → (length l2 < fuel st)%nat.
Proof.
  intros []. pose proof (seg_length _ _ _ _ inv_seg0 inv_layout0) as Hlen.
  rewrite length_app in Hlen. unfold fuel. lia.
Qed.

Lemma merge_all_inv st l1 a f l2 :
  inv st (l1 ++ (a, f) :: l2) →
  wp False (merge_all a st) (λ st', ∃ l2', inv st' (l1 ++ (a, f) :: l2') ∧ same_outer st st' ∧
    (length l2' ≤ length l2)%nat ∧
    used (l1 ++ (a, f) :: l2') (heap_end st) = used (l1 ++ (a, f) :: l2) (heap_end st)).
Proof.
  intros Hinv. unfold merge_all.
  eapply (wp_while_rel False (λ n st', ∃ l2', inv st' (l1 ++ (a, f) :: l2') ∧ same_outer st st' ∧
    n = length l2' ∧ (n ≤ length l2)%nat ∧
    used (l1 ++ (a, f) :: l2') (heap_end st) = used (l1 ++ (a, f) :: l2) (heap_end st))).
  - exists l2. done.
  - apply (inv_fuel st (l1 ++ [(a, f)]) l2). by rewrite <-app_assoc.
  - intros n st' (l2' & Hinv' & Hout & -> & Hn & Hu).
    pose proof (lli_try_merge_after_inv _ _ _ _ _ Hinv') as Hm.
    assert (wp False (Ok (false, st') ≫= λ '(merged, st), Ok (if (merged : bool) then inl st else inr st))
      (λ r, match r with
        | inl s' => ∃ n' : nat, (n' < length l2')%nat ∧ ∃ l2'0, inv s' (l1 ++ (a, f) :: l2'0) ∧
            same_outer st s' ∧ n' = length l2'0 ∧ (n' ≤ length l2)%nat ∧
            used (l1 ++ (a, f) :: l2'0) (heap_end st) = used (l1 ++ (a, f) :: l2) (heap_end st)
        | inr r => ∃ l2'0, inv r (l1 ++ (a, f) :: l2'0) ∧ same_outer st r ∧ (length l2'0 ≤ length l2)%nat ∧
            used (l1 ++ (a, f) :: l2'0) (heap_end st) = used (l1 ++ (a, f) :: l2) (heap_end st)
        end)) as Hstop by (simpl; eauto).
    destruct l2' as [|[b [|]] l3]; try (by rewrite Hm). destruct f; [|by rewrite Hm].
    destruct Hm as (st2 & -> & Hinv2 & Hout2). simpl. clear Hstop.
    exists (length l3). split; [lia|]. exists l3. split_and!; try done.
    + by eapply same_outer_trans.
    + simpl in Hn. lia.
    + rewrite <-Hu, !used_app. done.
Qed.

(** What the scan leaves: either a big enough free block, or the last block is not one. *)
Definition scan_post (st : allocator W) (sz : Z) (U : list (Z * Z)) (found : Z) (st' : allocator W) : Prop :=
  same_outer st st' ∧
  (if found =? 0 then ∃ l', inv st' l' ∧ used l' (heap_end st) = U ∧
     ∀ l0 b, l' = l0 ++ [(b, true)] → heap_end st - (b + SIZEOF_LLI) < sz
   else ∃ l1 l2, inv st' (l1 ++ (found, true) :: l2) ∧
     used (l1 ++ (found, true) :: l2) (heap_end st) = U ∧
     sz ≤ first_addr l2 (heap_end st) - (found + SIZEOF_LLI)).

Lemma scan_inv st l sz :
  inv st l → 
  wp False (c_while (fuel st) (λ '(cursor, st),
     if cursor =? 0 then Ok (inr (0, st))
     else
       st ← merge_all cursor st;
       rsz ← lli_region_size cursor (heap_end st) st;
       ok ← (if sz <=? rsz then lli_is_free cursor st else Ok false);
       if (ok : bool) then Ok (inr (cursor, st))
       else it ← load_item cursor st; Ok (inl (next it, st))) (head st, st))
    (λ '(found, st'), scan_post st sz (used l (heap_end st)) found st').
Proof.
  intros Hinv.
  eapply (wp_while_rel False (λ n '(cursor, st'), ∃ l1 l2, inv st' (l1 ++ l2) ∧
    cursor = first_addr l2 0 ∧ n = length l2 ∧ same_outer st st' ∧
    used (l1 ++ l2) (heap_end st) = used l (heap_end st) ∧
    ∀ l0 b, l1 = l0 ++ [(b, true)] → first_addr l2 (heap_end st) - (b + SIZEOF_LLI) < sz)).
  - exists [], l. split_and!; try done; [by destruct Hinv|]. by intros [] ? ?.
  - by eapply (inv_fuel st []).
  - intros n [cursor st'] (l1 & l2 & Hinv' & -> & -> & Hout & Hu & Hlast).
    assert (heap_end st' = heap_end st) as Ehe by apply Hout.
    destruct l2 as [|[a f] l2]; simpl.
    { split; [done|]. simpl. exists l1. rewrite app_nil_r in *. done. }
    destruct (inv_bounds _ _ _ _ _ Hinv') as (? & _). replace (a =? 0) with false by lia.
    apply wp_bind. eapply wp_mono; [by apply merge_all_inv|].
    intros st2 (l2' & Hinv2 & Hout2 & Hlen & Hu2).
    assert (heap_end st2 = heap_end st) as Ehe2 by (etrans; [apply Hout2|done]).
    rewrite (lli_region_size_inv _ _ _ _ _ Hinv2). simpl.
    rewrite (lli_is_free_inv _ _ _ _ _ Hinv2), (load_item_inv _ _ _ _ _ Hinv2).
    rewrite Ehe in Hu2. rewrite Ehe2, Hu in *.
    pose proof (same_outer_trans _ _ _ Hout Hout2) as Hout3.
    assert (inv st2 ((l1 ++ [(a, f)]) ++ l2')) as Hinv2' by by rewrite <-app_assoc.
    assert (∀ P, P = (sz <=? first_addr l2' (heap_end st) - (a + SIZEOF_LLI)) → P && f = false →
      ∃ n', (n' < S (length l2))%nat ∧ ∃ l1 l3, inv st2 (l1 ++ l3) ∧
        first_addr l2' 0 = first_addr l3 0 ∧ n' = length l3 ∧ same_outer st st2 ∧
        used (l1 ++ l3) (heap_end st) = used l (heap_end st) ∧
        ∀ l0 b, l1 = l0 ++ [(b, true)] → first_addr l3 (heap_end st) - (b + SIZEOF_LLI) < sz) as Hnext.
    { intros P -> HP. exists (length l2'). split; [lia|]. exists (l1 ++ [(a, f)]), l2'.
      split_and!; try done; [by rewrite <-app_assoc|].
      intros l0 b [-> [= -> ->]]%app_inj_tail. rewrite andb_true_r in HP. zbool. lia. }
    case_if; simpl; [destruct f; simpl|].
    + split; [done|]. replace (a =? 0) with false by lia. exists l1, l2'. done.
    + by apply (Hnext true).
    + by apply (Hnext false).
Qed.

(** ** Growing the heap *)
Definition grows (u u' : list (Z * Z)) : Prop := Forall2 (λ x y, x.1 = y.1 ∧ x.2 ≤ y.2) u u'.

Lemma grows_refl u : grows u u.
Proof. induction u; constructor; auto. split; [done|lia]. Qed.

Lemma used_extend l he he' : he ≤ he' → grows (used l he) (used l he').
Proof.
  intros Hle. induction l as [|[a f] l IH]; simpl; [constructor|].
  apply Forall2_app; [|done]. destruct f; [constructor|].
  constructor; [|constructor]. simpl. split; [done|]. destruct l as [|[]]; simpl; lia.
Qed.

Lemma layout_extend l he he' : he ≤ he' → layout l he → layout l he'.
Proof.
  intros Hle. induction l as [|[a f] l IH]; simpl; [done|]. intros (? & ? & ? & ?).
  split_and!; auto. destruct l as [|[]]; simpl in *; lia.
Qed.

Definition extended st (r : Z) (w : W) : allocator W :=
  Allocator (head st) (tail st) (heap_end st + r) (items st)
    (mapped_start st) (heap_end st + r) (data st) w.

Lemma inv_extend st l r w :
  inv st l → provider_inv w → 0 ≤ r → r `mod` PAGE_SIZE = 0 → heap_end st + r - head st < 2 ^ 63 →
  inv (extended st r w) l.
Proof.
  intros [] Hw Hr Hrp Hsz. constructor; simpl; try done; try lia.
  - eapply layout_extend; [|done]. lia.
  - dlia.
Qed.

Lemma page_alignment z : z `mod` PAGE_SIZE = 0 → z `mod` MALLOC_ALIGNMENT = 0.
Proof. unfold MALLOC_ALIGNMENT. dlia. Qed.

(** What every operation that may grow the heap keeps. *)
Definition heap_kept (st st' : allocator W) : Prop :=
  head st' = head st ∧ mapped_start st' = mapped_start st ∧ data st' = data st ∧
  heap_end st ≤ heap_end st'.

Lemma inv_head_le st l : inv st l → head st ≤ heap_end st.
Proof.
  intros []. rewrite inv_head0. destruct l as [|[a f] l].
  - destruct inv_tail0 as ([] & ? & ?); done.
  - by apply layout_first in inv_layout0.
Qed.

Lemma expand_heap_spec st l req :
  inv st l → 0 < req → heap_end st + req + SIZEOF_LLI + PAGE_SIZE - head st < 2 ^ 63 →
  wp (provider_may_halt W) (expand_heap req st) (λ '(ok, st'), heap_kept st st' ∧
    if (ok : bool) then inv st' (l ++ [(heap_end st, true)]) ∧
      req ≤ heap_end st' - (heap_end st + SIZEOF_LLI)
    else inv st' l).
Proof.
  intros Hinv Hreq Hsz. unfold expand_heap.
  pose proof (inv_head_le _ _ Hinv) as Hhe.
  rewrite wrap_small by (unfold SIZEOF_LLI, PAGE_SIZE in *; lia).
  apply wp_bind. eapply wp_mono; [apply malloc_expand_heap_ok|].
  - by destruct Hinv.
  - by destruct Hinv.
  - unfold SIZEOF_LLI. lia.
  - unfold SIZEOF_LLI, PAGE_SIZE in *. lia.
  - intros [r w] (Hw & Hr & Hrp). change (Allocator _ _ _ _ _ _ _ _) with (extended st r w).
    assert (inv (extended st r w) l) as Hext by (apply inv_extend; (done || lia)).
    assert (heap_kept st (extended st r w)) as Hk by (unfold heap_kept; simpl; split_and!; (done || lia)).
    case_if; [done|].
    destruct (inv_tail _ _ Hext) as (l' & f & ->).
    destruct (lli_insert_after_inv (extended st r w) l' (tail (extended st r w)) f [] (heap_end st) Hext)
      as (st' & -> & Hinv' & Hout).
    + simpl. destruct Hinv. apply layout_app in inv_layout0 as [_ (_ & _ & ? & _)]. done.
    + apply page_alignment. by destruct Hinv.
    + simpl. lia.
    + simpl. rewrite <-app_assoc. simpl. destruct Hout as (? & He & ? & ? & ?).
      split; [unfold heap_kept in *; split_and!; (intuition congruence)|]. split; [done|].
      rewrite He. simpl. lia.
Qed.

Lemma find_or_make_free_spec st l sz :
  inv st l → 0 < sz → heap_end st + sz + SIZEOF_LLI + PAGE_SIZE - head st < 2 ^ 63 →
  wp (provider_may_halt W) (find_or_make_free sz st) (λ '(p, st'), heap_kept st st' ∧
    if p =? 0 then ∃ l', inv st' l' ∧ grows (used l (heap_end st)) (used l' (heap_end st'))
    else ∃ l1 l2, inv st' (l1 ++ (p, true) :: l2) ∧
      used (l1 ++ (p, true) :: l2) (heap_end st') = used l (heap_end st) ∧
      sz ≤ first_addr l2 (heap_end st') - (p + SIZEOF_LLI)).
Proof.
  intros Hinv Hsz Hbound. unfold find_or_make_free. apply wp_bind.
  eapply wp_mono_halt; [apply (scan_inv st l sz Hinv)|done|].
  intros [found st1] [(Hh & Hhe & Hms & Hme & Hd) Hf].
  case_if_in Hf; [|replace (found =? 0) with false by lia; simpl].
  2: { destruct Hf as (l1 & l2 & Hinv1 & Hu & Hle). split; [unfold heap_kept; split_and!; (done || lia)|].
       replace (found =? 0) with false by lia. exists l1, l2. rewrite Hhe. done. }
  subst found. destruct Hf as (l' & Hinv1 & Hu & Hlast). cbn [Z.eqb negb].
  destruct (inv_tail _ _ Hinv1) as (l0 & f & ->). rewrite <-Hhe in Hlast, Hbound.
  rewrite (lli_is_free_inv _ _ _ _ _ Hinv1). simpl.
  rewrite (lli_region_size_inv _ _ _ _ _ Hinv1). cbn [first_addr].
  destruct (inv_bounds _ _ _ _ _ Hinv1) as (? & ? & Hreg & ? & ? & ? & ?). cbn [first_addr] in Hreg.
  set (last := if f then heap_end st1 - (tail st1 + SIZEOF_LLI) else 0).
  replace (if f then Ok _ else Ok 0) with (Ok last) by by destruct f. simpl.
  assert (0 ≤ last < sz) as Hl.
  { unfold last. destruct f; [|lia]. specialize (Hlast l0 (tail st1) eq_refl). lia. }
  pose proof (inv_head_le _ _ Hinv1) as Hhd. rewrite <-Hh in Hbound.
  unfold SIZEOF_LLI, PAGE_SIZE in *.
  rewrite wrap_small by lia. apply wp_bind.
  eapply wp_mono; [apply (expand_heap_spec st1 (l0 ++ [(tail st1, f)])); [done|lia|unfold SIZEOF_LLI, PAGE_SIZE; lia]|].
  intros [ok st2] [(Kh & Kms & Kd & Khe) Hok]. destruct ok; simpl.
  2: { split; [unfold heap_kept; split_and!; (congruence || lia)|]. simpl. eexists. split; [done|].
       rewrite <-Hu, <-Hhe. apply used_extend. lia. }
  destruct Hok as [Hinv2 Hreq]. rewrite <-app_assoc in Hinv2. simpl in Hinv2.
  pose proof (lli_try_merge_after_inv _ _ _ _ _ Hinv2) as Hm.
  pose proof (inv_bounds _ _ _ _ _ Hinv2) as (_ & _ & Ha & _).
  assert (heap_kept st st2) as Hkept by (unfold heap_kept; split_and!; (congruence || lia)).
  destruct f.
  - destruct Hm as (st3 & -> & Hinv3 & Hout3). simpl.
    rewrite (tail_unique _ _ _ _ Hinv3), (load_item_inv _ _ _ _ _ Hinv3). simpl.
    rewrite (lli_region_size_inv _ _ _ _ _ Hinv3). simpl.
    destruct Hout3 as (Eh & Ehe & Ems & _ & Ed). unfold last, SIZEOF_LLI in *. simpl in Ha.
    replace (_ <? sz) with false by (rewrite Ehe; lia). simpl.
    split; [unfold heap_kept in *; rewrite Eh, Ehe, Ems, Ed; done|].
    replace (tail st1 =? 0) with false by lia. exists l0, []. split_and!; [done| |simpl; rewrite Ehe; lia].
    rewrite <-Hu, Ehe, !used_app. done.
  - rewrite Hm. simpl.
    assert (inv st2 ((l0 ++ [(tail st1, false)]) ++ [(heap_end st1, true)])) as Hinv3
      by by rewrite <-app_assoc.
    rewrite (tail_unique _ _ _ _ Hinv3), (load_item_inv _ _ _ _ _ Hinv3). simpl.
    rewrite (lli_region_size_inv _ _ _ _ _ Hinv3). simpl. unfold last, SIZEOF_LLI in *.
    replace (_ <? sz) with false by lia. simpl. split; [done|].
    replace (heap_end st1 =? 0) with false by lia.
    exists (l0 ++ [(tail st1, false)]), []. split_and!; [done| |simpl; lia].
    rewrite <-Hu, !used_app. simpl. by rewrite app_nil_r, Hhe.
Qed.

Lemma round_up_alignment_spec sz :
  0 ≤ sz → sz + MALLOC_ALIGNMENT ≤ 2 ^ 64 →
  sz ≤ round_up_alignment sz < sz + MALLOC_ALIGNMENT ∧ round_up_alignment sz `mod` MALLOC_ALIGNMENT = 0.
Proof.
  intros H0 H1. unfold round_up_alignment. unfold MALLOC_ALIGNMENT in *.
  rewrite (wrap_small 64 (sz + 16 - 1)) by lia. rewrite wrap_small; dlia.
Qed.

(** The allocations of [l] lie in the heap, are aligned and pairwise disjoint. *)
Lemma used_bounds l he p n :
  layout l he → (p, n) ∈ used l he →
  first_addr l he + SIZEOF_LLI ≤ p ∧ p + n ≤ he ∧ 0 ≤ n ∧ p `mod` MALLOC_ALIGNMENT = 0.
Proof.
  revert p n. unfold SIZEOF_LLI. induction l as [|[a f] l IH]; intros p n; simpl; [by intros _ ?%elem_of_nil|].
  unfold SIZEOF_LLI. intros (? & ? & ? & Hl) [Hin|Hin]%elem_of_app.
  - destruct f; [by apply elem_of_nil in Hin|]. apply list_elem_of_singleton in Hin as [= -> ->].
    pose proof (layout_first _ _ Hl). unfold MALLOC_ALIGNMENT in *. split_and!; [lia|lia|lia|dlia].
  - destruct (IH _ _ Hl Hin) as (? & ? & ? & ?). split_and!; (done || lia).
Qed.

Definition disjoint_regions (x y : Z * Z) : Prop := x.1 + x.2 ≤ y.1 ∨ y.1 + y.2 ≤ x.1.

(** In a well-formed heap the regions are aligned, inside the heap, and pairwise disjoint. *)
Lemma used_disjoint st l :
  inv st l →
  (∀ p n, (p, n) ∈ used l (heap_end st) →
     head st + SIZEOF_LLI ≤ p ∧ p + n ≤ heap_end st ∧ p `mod` MALLOC_ALIGNMENT = 0) ∧
  ∀ i j x y, used l (heap_end st) !! i = Some x → used l (heap_end st) !! j = Some y → i ≠ j →
    disjoint_regions x y.
Proof.
  intros Hinv. pose proof (inv_layout _ _ Hinv) as Hl.
  assert (head st = first_addr l (heap_end st)) as ->.
  { destruct Hinv as [-> _ _ (l' & f & ->) _ _ _]. by destruct l' as [|[]]. }
  split; [intros p n Hin; by destruct (used_bounds _ _ _ _ Hl Hin) as (? & ? & ? & ?)|].
  clear Hinv. revert Hl. generalize (heap_end st) as he. intros he Hl.
  enough (∀ i j x y, used l he !! i = Some x → used l he !! j = Some y → (i < j)%nat → x.1 + x.2 ≤ y.1) as Hlt.
  { intros i j x y Ei Ej Hne. destruct (decide (i < j)%nat); [left; by eapply Hlt|].
    right. eapply (Hlt j i); [done..|lia]. }
  induction l as [|[a f] l IH]; simpl; [intros i j x y E; by rewrite lookup_nil in E|].
  destruct Hl as (? & ? & ? & Hl). destruct f; [by apply IH|]. simpl.
  intros [|i] [|j] x y Ei Ej Hlt; simplify_eq/=; try lia.
  - apply list_elem_of_lookup_2 in Ej. destruct y as [p n].
    destruct (used_bounds _ _ _ _ Hl Ej) as (? & ? & ? & ?). unfold SIZEOF_LLI in *. simpl. lia.
  - eapply (IH Hl i j); [done..|lia].
Qed.

(** Malloc either fails and moves nothing, or adds one region to the allocations. *)
Lemma malloc_wp st l sz :
  inv st l → 0 ≤ sz → heap_end st + sz + 2 * PAGE_SIZE - head st < 2 ^ 63 →
  wp (provider_may_halt W) (malloc sz st) (λ '(p, st'), heap_kept st st' ∧ ∃ l', inv st' l' ∧
    if p =? 0 then grows (used l (heap_end st)) (used l' (heap_end st'))
    else ∃ n, sz ≤ n ∧ 0 < p ∧ used l' (heap_end st') ≡ₚ (p, n) :: used l (heap_end st)).
Proof.
  intros Hinv Hsz Hbound. unfold malloc. pose proof (inv_head_le _ _ Hinv) as Hhd. case_if.
  { simpl. split; [unfold heap_kept; split_and!; (done || lia)|]. exists l. split; [done|]. apply grows_refl. }
  destruct (round_up_alignment_spec sz) as [Hr Hra]; [lia|unfold MALLOC_ALIGNMENT, PAGE_SIZE in *; lia|].
  set (rsz := round_up_alignment sz) in *. clearbody rsz.
  unfold MALLOC_ALIGNMENT, PAGE_SIZE in *. apply wp_bind.
  eapply wp_mono; [apply (find_or_make_free_spec st l rsz Hinv);
    [lia|unfold SIZEOF_LLI, PAGE_SIZE; lia]|].
  intros [ptr st1] [Hk Hptr]. case_if; [by split|].
  destruct Hptr as (l1 & l2 & Hinv1 & Hu & Hfit).
  destruct (lli_mark_as_inv _ _ _ _ _ Hinv1 false) as (st2 & -> & Hinv2 & Hout2). cbn [mbind outcome_bind].
  rewrite (lli_region_size_inv _ _ _ _ _ Hinv2). cbn [mbind outcome_bind].
  rewrite (lli_region_start_inv _ _ _ _ _ Hinv2). cbn [mbind outcome_bind].
  destruct (inv_bounds _ _ _ _ _ Hinv2) as (Hp0 & _ & _ & Hle & _ & Hpa & Hp63).
  assert (heap_end st2 = heap_end st1) as Ehe by apply Hout2.
  assert (∀ st3, same_outer st2 st3 → heap_kept st st3) as Hkept.
  { unfold heap_kept, same_outer in *. intros st3 ?. destruct_and!. split_and!; (congruence || lia). }
  unfold SIZEOF_LLI in *.
  rewrite wrap_small by lia.
  rewrite used_app in Hu. simpl in Hu. case_if.
  - destruct (lli_insert_after_inv _ _ _ _ _ (ptr + 16 + rsz) Hinv2) as (st3 & -> & Hinv3 & Hout3).
    + unfold SIZEOF_LLI. lia.
    + unfold MALLOC_ALIGNMENT in *. dlia.
    + unfold SIZEOF_LLI. lia.
    + simpl. split; [by apply Hkept|]. eexists. split; [done|].
      replace (ptr + 16 =? 0) with false by lia. exists rsz. split_and!; [lia|lia|].
      destruct Hout3 as (_ & Ehe3 & _). rewrite Ehe3, Ehe, used_app. simpl. unfold SIZEOF_LLI.
      rewrite <-Hu. replace (ptr + 16 + rsz - (ptr + 16)) with rsz by lia. solve_Permutation.
  - simpl. split; [by apply Hkept|]. eexists. split; [done|].
    replace (ptr + 16 =? 0) with false by lia.
    exists (first_addr l2 (heap_end st1) - (ptr + 16)). split_and!; [lia|lia|].
    rewrite Ehe, used_app. simpl. unfold SIZEOF_LLI. rewrite <-Hu. solve_Permutation.
Qed.

Lemma used_elem l he p n :
  (p, n) ∈ used l he → ∃ l1 l2, l = l1 ++ (p - SIZEOF_LLI, false) :: l2 ∧ n = first_addr l2 he - p.
Proof.
  induction l as [|[a f] l IH]; simpl; [by intros ?%elem_of_nil|].
  intros [Hin|Hin]%elem_of_app.
  - destruct f; [by apply elem_of_nil in Hin|]. apply list_elem_of_singleton in Hin as [= -> ->].
    exists [], l. split; [|lia]. simpl. do 2 f_equal. lia.
  - destruct (IH Hin) as (l1 & l2 & -> & ->). by exists ((a, f) :: l1), l2.
Qed.

(** Free removes exactly the region. *)
Lemma free_wp st l p n :
  inv st l → (p, n) ∈ used l (heap_end st) →
  wp False (free p st) (λ st', same_outer st st' ∧ ∃ l', inv st' l' ∧
    used l (heap_end st) ≡ₚ (p, n) :: used l' (heap_end st')).
Proof.
  intros Hinv Hin. destruct (used_elem _ _ _ _ Hin) as (l1 & l2 & -> & ->).
  destruct (inv_bounds _ _ _ _ _ Hinv) as (? & _). unfold free, SIZEOF_LLI in *.
  replace (p =? 0) with false by lia.
  destruct (lli_mark_as_inv _ _ _ _ _ Hinv true) as (st' & -> & Hinv' & Hout).
  split; [done|]. eexists. split; [done|]. destruct Hout as (_ & -> & _).
  rewrite !used_app. simpl. unfold SIZEOF_LLI. replace (p - 16 + 16) with p by lia. solve_Permutation.
Qed.

(** The initial heap is one free block. *)
Lemma init_memory_allocator_wp heap_start w :
  provider_inv w → 0 < heap_start → heap_start `mod` PAGE_SIZE = 0 →
  wp True (init_memory_allocator heap_start w) (λ st,
    inv st [(heap_start, true)] ∧ used [(heap_start, true)] (heap_end st) = [] ∧ head st = heap_start).
Proof.
  intros Hw0 Hs Hp. apply wp_bind.
  eapply wp_mono_halt; [apply malloc_expand_heap_ok; [done|done|done|unfold SIZEOF_LLI, PAGE_SIZE; lia]|done|].
  intros [r w'] (Hw & Hr & Hrp). unfold SIZEOF_LLI, PAGE_SIZE, hcf_if in *. case_if; [done|].
  unfold lli_new, store_item. simpl. unfold SIZEOF_LLI.
  replace ((heap_start <=? heap_start) && (heap_start + 16 <=? heap_start + r)) with true by lia.
  simpl. split_and!; [|done|done]. constructor; simpl; try done; try lia.
  - by rewrite lookup_insert_eq.
  - unfold MALLOC_ALIGNMENT, SIZEOF_LLI. split_and!; try lia. dlia.
  - by exists [], true.
  - dlia.
Qed.

Lemma disjoint_perm st l p n q k u :
  inv st l → used l (heap_end st) ≡ₚ (p, n) :: (q, k) :: u → disjoint_regions (p, n) (q, k).
Proof.
  intros Hinv Hu. destruct (used_disjoint st l Hinv) as [_ Hd]. symmetry in Hu.
  apply Permutation_inj in Hu as [_ (f & Hf & Hl)].
  eapply (Hd (f 0%nat) (f 1%nat)); [by rewrite <-Hl..|]. by intros ?%Hf.
Qed.

Lemma inv_with_data st l d : inv st l → inv (with_data st d) l.
Proof. by intros []. Qed.

Definition only_data (st st' : allocator W) : Prop := st' = with_data st (data st').

#[local] Instance only_data_preorder : PreOrder only_data.
Proof.
  split.
  - by intros [].
  - intros st1 st2 st3 H1 H2. unfold only_data in *. rewrite H2. by rewrite H1.
Qed.

Lemma in_heap st l p n a :
  inv st l → (p, n) ∈ used l (heap_end st) → p ≤ a < p + n → mapped_start st ≤ a < mapped_end st.
Proof.
  intros Hinv Hin Ha. destruct (used_disjoint st l Hinv) as [Hb _].
  destruct (Hb _ _ Hin) as (? & ? & _). destruct (inv_mapped _ _ Hinv). unfold SIZEOF_LLI in *. lia.
Qed.

(** Realloc either fails and moves nothing, or replaces the region by one that holds its bytes. *)
Lemma realloc_wp st l ptr k u sz :
  inv st l → used l (heap_end st) ≡ₚ (ptr, k) :: u →
  0 ≤ sz → heap_end st + sz + 2 * PAGE_SIZE - head st < 2 ^ 63 →
  wp (provider_may_halt W) (realloc ptr sz st) (λ '(p, st'), ∃ l', inv st' l' ∧
    if p =? 0 then grows (used l (heap_end st)) (used l' (heap_end st'))
    else ∃ n, sz ≤ n ∧ used l' (heap_end st') ≡ₚ (p, n) :: u ∧
      ∀ i, 0 ≤ i < k `min` sz → data_byte st' (p + i) = data_byte st (ptr + i)).
Proof.
  intros Hinv Hu Hsz Hbound. unfold realloc. apply wp_bind.
  eapply wp_mono; [by eapply malloc_wp|].
  intros [p st1] [(Hkh & Hkm & Hkd & Hke) (l1 & Hinv1 & Hp)].
  assert ((ptr, k) ∈ used l (heap_end st)) as Hin by (rewrite Hu; left).
  assert (0 < ptr) as Hptr.
  { destruct (used_elem _ _ _ _ Hin) as (? & ? & -> & _).
    destruct (inv_bounds _ _ _ _ _ Hinv) as (? & _). unfold SIZEOF_LLI in *. lia. }
  replace (ptr =? 0) with false by lia. simpl. case_if; [simpl; rewrite Heqb; eauto|].
  destruct Hp as (n & Hn & Hp0 & Hu1). rewrite Hu in Hu1.
  assert ((ptr, k) ∈ used l1 (heap_end st1)) as Hin1 by (rewrite Hu1; set_solver).
  assert ((p, n) ∈ used l1 (heap_end st1)) as Hinp by (rewrite Hu1; set_solver).
  pose proof (disjoint_perm _ _ _ _ _ _ _ Hinv1 Hu1) as Hdis. unfold disjoint_regions in Hdis. simpl in Hdis.
  destruct (used_disjoint _ _ Hinv1) as [Hb1 _].
  destruct (used_elem _ _ _ _ Hin1) as (la & lb & -> & Ek).
  rewrite (lli_region_size_inv _ _ _ _ _ Hinv1). simpl.
  assert (first_addr lb (heap_end st1) - (ptr - SIZEOF_LLI + SIZEOF_LLI) = k) as -> by lia.
  assert (0 ≤ k) as Hk.
  { destruct (used_bounds _ _ _ _ (inv_layout _ _ Hinv1) Hin1) as (? & ? & ? & ?). lia. }
  assert ((if sz <? k then sz else k) = k `min` sz) as -> by (case_if; lia).
  assert (∀ q c, (q, c) ∈ used (la ++ (ptr - SIZEOF_LLI, false) :: lb) (heap_end st1) →
    k `min` sz ≤ c → mapped st1 q (k `min` sz)) as Hmap.
  { intros q c Hq Hc a Ha. pose proof (in_heap _ _ _ _ a Hinv1 Hq ltac:(lia)). simpl.
    rewrite decide_True by done. eauto. }
  pose proof (memcpy_spec st1 p ptr (k `min` sz) ltac:(lia) (Hmap _ _ Hin1 ltac:(lia))
    (Hmap _ _ Hinp ltac:(lia)) ltac:(lia)) as Hcpy.
  apply wp_total in Hcpy as ([r st2] & Ecpy & -> & Hcpy). rewrite Ecpy. simpl.
  apply (memcpy_rel only_data) in Ecpy.
  2: { intros m a v m'. simpl. case_decide; [|done]. by intros [= <-]. }
  assert (inv st2 (la ++ (ptr - SIZEOF_LLI, false) :: lb)) as Hinv2 by (rewrite Ecpy; by apply inv_with_data).
  assert (heap_end st2 = heap_end st1) as Ehe2 by by rewrite Ecpy.
  assert (mapped_start st2 = mapped_start st1 ∧ mapped_end st2 = mapped_end st1) as [Ems Eme]
    by by rewrite Ecpy.
  pose proof (free_wp st2 _ ptr k Hinv2 ltac:(by rewrite Ehe2)) as Hfree.
  apply wp_total in Hfree as (st3 & -> & Hout3 & l3 & Hinv3 & Hu3). simpl.
  exists l3. split; [done|]. replace (p =? 0) with false by lia. exists n. split_and!; [done| |].
  - rewrite Ehe2, Hu1 in Hu3. apply (Permutation_cons_inv (a := (ptr, k))). rewrite <-Hu3.
    apply perm_swap.
  - intros i Hi. destruct Hout3 as (_ & _ & _ & _ & Ed).
    assert (data_byte st3 (p + i) = data_byte st2 (p + i)) as -> by (unfold data_byte; by rewrite Ed).
    specialize (Hcpy (p + i)). simpl in Hcpy.
    pose proof (in_heap _ _ _ _ (p + i) Hinv1 Hinp ltac:(lia)).
    pose proof (in_heap _ _ _ _ (p + i - p + ptr) Hinv1 Hin1 ltac:(lia)).
    rewrite Ems, Eme, !decide_True in Hcpy by (done || lia). injection Hcpy as ->.
    unfold data_byte. rewrite Hkd. do 2 f_equal. lia.
Qed.

(** ** Clients of the heap: any sequence of calls on regions that are allocated *)
Definition room st (sz : Z) : Prop := 0 ≤ sz ∧ heap_end st + sz + 2 * PAGE_SIZE - head st < 2 ^ 63.

(** [live] holds the regions handed out and not freed, with the sizes asked for *)
Inductive heap_step : allocator W * list (Z * Z) → allocator W * list (Z * Z) → Prop :=
  | step_malloc st live sz p st' :
      room st sz → malloc sz st = Ok (p, st') →
      heap_step (st, live) (st', if p =? 0 then live else (p, sz) :: live)
  | step_free st live1 live2 p n st' :
      free p st = Ok st' → heap_step (st, live1 ++ (p, n) :: live2) (st', live1 ++ live2)
  | step_realloc st live1 live2 ptr n sz p st' :
      room st sz → realloc ptr sz st = Ok (p, st') →
      heap_step (st, live1 ++ (ptr, n) :: live2)
        (st', if p =? 0 then live1 ++ (ptr, n) :: live2 else (p, sz) :: live1 ++ live2).

(** the allocations of the heap are the live regions, each at least as large as asked for *)
Definition heap_inv (s : allocator W * list (Z * Z)) : Prop :=
  ∃ l u, inv s.1 l ∧ used l (heap_end s.1) ≡ₚ u ∧ grows s.2 u.

Lemma grows_perm u1 u2 u : u1 ≡ₚ u → grows u1 u2 → ∃ u', u2 ≡ₚ u' ∧ grows u u'.
Proof. intros Hp Hg. exact (Permutation_Forall2 Hp Hg). Qed.

Lemma grows_trans u1 u2 u3 : grows u1 u2 → grows u2 u3 → grows u1 u3.
Proof.
  intros H. revert u3. induction H as [|x y u1 u2 [Hxy Hle] H IH]; intros u3 H3; inversion H3; subst; constructor.
  - destruct H2. split; [congruence|lia].
  - by apply IH.
Qed.

Lemma grows_middle live1 live2 p n u :
  grows (live1 ++ (p, n) :: live2) u → ∃ k u', n ≤ k ∧ u ≡ₚ (p, k) :: u' ∧ grows (live1 ++ live2) u'.
Proof.
  intros (u1 & u2 & H1 & H2 & ->)%Forall2_app_inv_l. inversion H2 as [|? [q k] ? u2' [Hq Hk] H2']; simplify_eq/=.
  exists k, (u1 ++ u2'). split_and!; [done|solve_Permutation|by apply Forall2_app].
Qed.

Lemma heap_step_inv s s' : heap_step s s' → heap_inv s → heap_inv s'.
Proof.
  intros [st live sz p st' [Hs Hr] E|st live1 live2 p n st' E|st live1 live2 ptr n sz p st' [Hs Hr] E]
    (l & u & Hinv & Hu & Hg); simpl in *.
  - eapply wp_Ok in E; [|by eapply malloc_wp]. destruct E as (_ & l' & Hinv' & Hp). simpl in Hinv'. case_if.
    + destruct (grows_perm _ _ _ Hu Hp) as (u' & Hu' & Hg'). exists l', u'.
      split_and!; [done|done|by eapply grows_trans].
    + destruct Hp as (k & Hk & _ & Hu'). exists l', ((p, k) :: u). split_and!; [done|by rewrite Hu', Hu|].
      by constructor.
  - apply grows_middle in Hg as (k & u' & _ & Hu' & Hg).
    eapply wp_Ok in E; [|apply (free_wp st l p k Hinv); rewrite Hu, Hu'; left].
    destruct E as (_ & l' & Hinv' & Hl'). exists l', u'. split_and!; [done| |done].
    apply (Permutation_cons_inv (a := (p, k))). by rewrite <-Hl', Hu.
  - pose proof Hg as Hg0. apply grows_middle in Hg as (k & u' & _ & Hu' & Hg).
    eapply wp_Ok in E; [|eapply (realloc_wp st l ptr k u'); [done|by rewrite Hu|done|done]].
    destruct E as (l' & Hinv' & Hp). case_if.
    + destruct (grows_perm _ _ _ Hu Hp) as (u2 & Hu2 & Hg2). exists l', u2.
      split_and!; [done|done|by eapply grows_trans].
    + destruct Hp as (k' & Hk' & Hu2 & _). exists l', ((p, k') :: u'). split_and!; [done|done|]. by constructor.
Qed.

(** The regions handed out lie in the heap, are aligned and do not overlap. *)
Lemma heap_inv_disjoint st live : heap_inv (st, live) →
  (∀ p n, (p, n) ∈ live → head st + SIZEOF_LLI ≤ p ∧ p + n ≤ heap_end st ∧ p `mod` MALLOC_ALIGNMENT = 0) ∧
  ∀ i j x y, live !! i = Some x → live !! j = Some y → i ≠ j → disjoint_regions x y.
Proof.
  intros (l & u & Hinv & Hu & Hg).
  simpl in *. destruct (used_disjoint st l Hinv) as [Hb Hd]. split.
  - intros p n [i Ei]%list_elem_of_lookup. eapply Forall2_lookup_l in Hg as ([q k] & Eu & [Eq Hk]); [|done].
    simpl in *. subst q. assert ((p, k) ∈ used l (heap_end st)) as Hin by (rewrite Hu; by eapply list_elem_of_lookup_2).
    destruct (Hb _ _ Hin) as (? & ? & ?). split_and!; (done || lia).
  - intros i j x y Ei Ej Hne.
    destruct (Forall2_lookup_l _ _ _ _ _ Hg Ei) as (x' & Ei' & Ex & Hx).
    destruct (Forall2_lookup_l _ _ _ _ _ Hg Ej) as (y' & Ej' & Ey & Hy).
    symmetry in Hu. apply Permutation_inj in Hu as [_ (h & Hh & Hl)].
    assert (disjoint_regions x' y') as Hd'.
    { apply (Hd (h i) (h j)); [by rewrite <-Hl..|]. by intros ?%Hh. }
    unfold disjoint_regions in *. lia.
Qed.

(** C5: after any sequence of malloc, free and realloc calls from a fresh heap, in which only regions that are allocated are freed or reallocated and each requested
    size is in bounds ([room]: the heap, grown by that size and two pages, stays below 2^63 bytes), the regions that are allocated are 16-byte aligned, lie between the
    start of the heap and its end, and no two of them overlap, at their full requested sizes. *)
Theorem heap_clients_disjoint heap_start w st0 st live :
  provider_inv w → 0 < heap_start → heap_start `mod` PAGE_SIZE = 0 →
  init_memory_allocator heap_start w = Ok st0 → rtc heap_step (st0, []) (st, live) →
  (∀ p n, (p, n) ∈ live → head st + SIZEOF_LLI ≤ p ∧ p + n ≤ heap_end st ∧ p `mod` MALLOC_ALIGNMENT = 0) ∧
  ∀ i j x y, live !! i = Some x → live !! j = Some y → i ≠ j → disjoint_regions x y.
Proof.
  intros Hw0 Hs Hp E Hreach. eapply wp_Ok in E; [|by apply init_memory_allocator_wp]. destruct E as (Hinv0 & Hu0 & _).
  assert (heap_inv (st, live)) as (l & u & Hinv & Hu & Hg).
  { eapply (rtc_ind_r heap_inv); [| |exact Hreach]; [|intros s s' _ Hstep Hi; by eapply heap_step_inv].
    exists [(heap_start, true)], []. cbn [fst snd]. rewrite Hu0. split_and!; [done|done|constructor]. }
  by apply heap_inv_disjoint; exists l, u.
Qed.

(** C10: with a page provider that never stops the machine, malloc of a size in bounds ([room]: the heap, grown by that size and two pages, stays below 2^63 bytes; a size
    near the top of the word would wrap to a small block) on a well-formed heap terminates, without any abort or stray access, and keeps the heap well formed; either it
    returns NULL and every earlier allocation keeps its address and does not shrink, or it returns a region of at least the requested size, and the allocations are
    exactly the earlier ones, unmoved, plus that region. *)
Theorem malloc_spec st l sz :
  ¬ provider_may_halt W → inv st l → room st sz →
  ∃ p st' l', malloc sz st = Ok (p, st') ∧ heap_kept st st' ∧ inv st' l' ∧
    if p =? 0 then grows (used l (heap_end st)) (used l' (heap_end st'))
    else ∃ n, sz ≤ n ∧ 0 < p ∧ used l' (heap_end st') ≡ₚ (p, n) :: used l (heap_end st).
Proof.
  intros Hh Hinv [Hs Hr].
  destruct (wp_total_1 _ _ (wp_mono_halt _ False _ _ _ (malloc_wp st l sz Hinv Hs Hr) Hh (λ _ H, H)))
    as ([p st'] & E & Hk & l' & Hinv' & Hp). by exists p, st', l'.
Qed.

(** C25: with such a provider and a size in bounds ([room]), realloc of an allocation either returns NULL and leaves every allocation in place (it can only have
    grown), or returns a new region of at least the requested size that replaces the old one among the allocations and holds the old region's bytes, up to the
    smaller of the two sizes. *)
Theorem realloc_spec st l ptr k u sz :
  ¬ provider_may_halt W → inv st l → used l (heap_end st) ≡ₚ (ptr, k) :: u → room st sz →
  ∃ p st' l', realloc ptr sz st = Ok (p, st') ∧ inv st' l' ∧
    if p =? 0 then grows (used l (heap_end st)) (used l' (heap_end st'))
    else ∃ n, sz ≤ n ∧ used l' (heap_end st') ≡ₚ (p, n) :: u ∧
      ∀ i, 0 ≤ i < k `min` sz → data_byte st' (p + i) = data_byte st (ptr + i).
Proof.
  intros Hh Hinv Hu [Hs Hr].
  destruct (wp_total_1 _ _ (wp_mono_halt _ False _ _ _ (realloc_wp st l ptr k u sz Hinv Hu Hs Hr) Hh (λ _ H, H)))
    as ([p st'] & E & l' & Hinv' & Hp). by exists p, st', l'.
Qed.
End proofs.

(** ** Witnesses: a provider that always maps the pages asked for *)
Module MallocExamples.
#[refine] Instance all_pages : HeapProvider () := {
  provider_may_halt := False;
  provider_inv _ := True;
  malloc_expand_heap _ bytes w := Ok ((bytes + PAGE_SIZE - 1) `div` PAGE_SIZE * PAGE_SIZE, w);
}.
Proof. intros heap_end bytes w _ _ Hb _. simpl. split; [done|]. dlia. Defined.

Lemma all_pages_run : ¬ provider_may_halt ().
Proof. by intros []. Qed.

(** one page at 8192: a 32-byte allocation at 8208, then a free block at 8240 *)
Definition heap_ex : allocator () :=
  Allocator 8192 8240 12288
    {[8192 := LLI 8240 false LL_CANARY; 8240 := LLI 0 true LL_CANARY]} 8192 12288
    (list_to_map (zip (seqZ 8208 32) (seqZ 1 32))) ().
Definition blocks_ex : list block := [(8192, false); (8240, true)].

Lemma heap_ex_inv : inv heap_ex blocks_ex.
Proof. constructor; simpl; try done. by exists [(8192, false)], true. Qed.

Definition result_ptr (o : outcome (Z * allocator ())) : Z :=
  match o with Ok (p, _) => p | _ => 0 end.

Lemma malloc_spec_witness : ∃ st', malloc 100 heap_ex = Ok (8256, st') ∧ heap_kept heap_ex st'.
Proof.
  destruct (malloc_spec heap_ex blocks_ex 100 all_pages_run heap_ex_inv ltac:(done)) as (p & st' & l' & E & Hk & _).
  assert (result_ptr (malloc 100 heap_ex) = 8256) as Ep by (vm_compute; reflexivity).
  rewrite E in Ep. simpl in Ep. subst p. exists st'. split; [exact E|exact Hk].
Defined.

Lemma realloc_spec_witness :
  ∃ st', realloc 8208 64 heap_ex = Ok (8256, st') ∧ ∃ l', inv st' l'.
Proof.
  destruct (realloc_spec heap_ex blocks_ex 8208 32 [] 64 all_pages_run heap_ex_inv ltac:(done) ltac:(done))
    as (p & st' & l' & E & Hi & _).
  assert (result_ptr (realloc 8208 64 heap_ex) = 8256) as Ep by (vm_compute; reflexivity).
  rewrite E in Ep. simpl in Ep. subst p. exists st'. split; [exact E|]. exists l'. exact Hi.
Defined.

(** two allocations, the first of which is freed *)
Definition init_ex : allocator () := Allocator 8192 8192 12288 {[8192 := LLI 0 true LL_CANARY]} 8192 12288 ∅ ().

Definition state_of (o : outcome (Z * allocator ())) : allocator () :=
  match o with Ok (_, st) => st | _ => init_ex end.

Lemma heap_clients_disjoint_witness :
  disjoint_regions (8304, 5) (8208, 80) ∧
  result_ptr (malloc 5 (state_of (malloc 80 init_ex))) = 8304.
Proof.
  split; [|vm_compute; reflexivity].
  assert (malloc 80 init_ex = Ok (8208, state_of (malloc 80 init_ex))) as E1 by (vm_compute; reflexivity).
  set (st1 := state_of (malloc 80 init_ex)) in *.
  assert (malloc 5 st1 = Ok (8304, state_of (malloc 5 st1))) as E2 by (vm_compute; reflexivity).
  set (st2 := state_of (malloc 5 st1)) in *.
  assert (rtc heap_step (init_ex, []) (st2, [(8304, 5); (8208, 80)])) as Hreach.
  { eapply rtc_l; [apply (step_malloc init_ex [] 80 8208 st1); [by split|exact E1]|].
    eapply rtc_l; [apply (step_malloc st1 [(8208, 80)] 5 8304 st2); [by split|exact E2]|]. constructor. }
  refine (proj2 (heap_clients_disjoint 8192 () init_ex st2 _ _ _ _ _ Hreach) 0%nat 1%nat _ _ _ _ _); try reflexivity.
  discriminate.
Defined.
End MallocExamples.
