(* ===== verification/HeapProviders.v ===== *)
(** * The two page providers of the heap allocator

    [_malloc_expand_heap] of stuos/src/kern_libc.c maps kernel pages with the
    functions of Paging; that of custom_libc/init.c asks the kernel for each
    page by a system call, whose handler is an interface here.  Both satisfy
    the contract [HeapProvider] the allocator of Malloc is proved against, so
    [malloc] runs on either. *)
From S2P Require Import Prelude Bytes Slab Paging AddressSpace AddressSpaceSpec Malloc.
#[local] Arguments c_foreach : simpl never.
#[local] Arguments wrap : simpl never.

(** ** The kernel: kern_libc.c *)
Definition kern_malloc_expand_heap (kheap_end size : Z) (st : mm) : outcome (Z * mm) :=
  _ ← hcf_if (negb (Z.land kheap_end PAGE_MASK =? 0));
  let rounded_up_pages := u64 (size + PAGE_SIZE - 1) `div` PAGE_SIZE in
  st ← c_foreach 0 rounded_up_pages (λ i st,
         let ptr := u64 (kheap_end + PAGE_SIZE * i) in
         allocate_ram_page ptr false st) st;
  Ok (u64 (PAGE_SIZE * rounded_up_pages), st).

(** The current address space is well formed. *)
Definition address_space_ok (st : mm) : Prop := ∃ T, aspace st (cr3 st) T.

(** The number of pages for [bytes] more bytes. *)
Lemma rounded_pages bytes :
  0 < bytes → bytes + PAGE_SIZE ≤ 2 ^ 64 →
  let n := u64 (bytes + PAGE_SIZE - 1) `div` PAGE_SIZE in
  0 < n ∧ u64 (PAGE_SIZE * n) = PAGE_SIZE * n ∧ bytes ≤ PAGE_SIZE * n < bytes + PAGE_SIZE.
Proof.
  intros Hb Hm n. assert (u64 (bytes + PAGE_SIZE - 1) = bytes + PAGE_SIZE - 1) as E
    by (apply wrap_small; unfold PAGE_SIZE in *; lia).
  unfold n. rewrite E. clear n E.
  assert (0 < (bytes + PAGE_SIZE - 1) `div` PAGE_SIZE ∧
    bytes ≤ PAGE_SIZE * ((bytes + PAGE_SIZE - 1) `div` PAGE_SIZE) < bytes + PAGE_SIZE) as [? ?] by dlia.
  split_and!; [done| |lia|lia]. apply wrap_small. unfold PAGE_SIZE in *. lia.
Qed.

Lemma aspace_alloc st root T n :
  aspace st root T → page_is (slab st) n false → aspace (with_slab st (mark true n 1 (slab st))) root T.
Proof.
  intros [Hs [] Hh] Hn. constructor; [by apply slab_ok_mark|by constructor|].
  intros p t Hp [Hf _]%is_free_mark. by eapply Hh.
Qed.

(** A page of RAM, mapped for the kernel. *)
Definition ram_page (x : bool) (e : PageTableEntry) : Prop := mapped_like (frame_of e) true x e.

Lemma allocate_ram_page_wp st T v x :
  aspace st (cr3 st) T → v `mod` PAGE_SIZE = 0 →
  wp ((∃ e, mmu_entry st (cr3 st) v = Some e) ∨ (free_pages (slab st) < 4)%nat) (allocate_ram_page v x st) (λ st', ∃ T' e,
    aspace st' (cr3 st') T' ∧ cr3 st' = cr3 st ∧
    mmu_entry st' (cr3 st') v = Some e ∧ ram_page x e ∧ is_free (slab st) (frame_of e) ∧
    (∀ w, ¬ vpn_eq w v → mmu_entry st' (cr3 st') w = mmu_entry st (cr3 st) w) ∧
    (free_pages (slab st) ≤ 4 + free_pages (slab st'))%nat).
Proof.
  intros Ha Hv. pose proof (aspace_slab _ _ _ Ha) as Hs. unfold allocate_ram_page.
  apply wp_bind. eapply wp_mono_halt; [apply malloc4k_phys_wp, Hs|right; lia|].
  intros [f s'] (n & -> & Hn & -> & _ & Hcnt). pose proof (aspace_alloc _ _ _ _ Ha Hn) as Ha1.
  set (st1 := with_slab st _) in *. change (cr3 st) with (cr3 st1) in Ha1.
  pose proof (page_addr_frame _ _ _ Hs Hn) as Hf.
  assert (page_offset (bitmap_of v) = 0) as Ho by (unfold bitmap_of, bits; cbn [page_offset]; by rewrite Z.div_1_r).
  rewrite (mmu_entry_leaf st _ T) by apply Ha. change (leaf_at st T v) with (leaf_at st1 T v).
  destruct (leaf_at st1 T v) as [e|] eqn:E.
  - rewrite (map_page_mapped st1 T v _ _ _ e) by (done || apply Ha1). left. by exists e.
  - eapply wp_mono_halt; [by apply (map_page_wp st1 T)|simpl; lia|].
    intros st' (T' & Ha' & _ & Hk & _ & (e & He & Hl) & Hother & Hcnt').
    assert (cr3 st' = cr3 st) as Ecr by apply Hk. assert (frame_of e = page_addr (slab st) n) as Ee by apply Hl.
    exists T', e. rewrite Ecr. split_and!; try done.
    + by rewrite (mmu_entry_leaf _ _ T') by apply Ha'.
    + unfold ram_page. by rewrite Ee.
    + rewrite Ee. by apply page_is_free.
    + intros w Hw. rewrite (mmu_entry_leaf st' _ T'), (mmu_entry_leaf st _ T) by (apply Ha' || apply Ha).
      change (leaf_at st T w) with (leaf_at st1 T w). apply Hother. by rewrite same_vpage_vpn.
    + simpl in *. lia.
Qed.

(** The kernel's provider keeps the address space well formed, and stops the
    machine when memory runs out or the heap meets pages that are mapped. *)
#[export, refine] Instance kernel_heap : HeapProvider mm := {
  provider_may_halt := True;
  provider_inv := address_space_ok;
  malloc_expand_heap := kern_malloc_expand_heap;
}.
Proof.
  intros heap_end bytes st Hst Hh Hb Hm. unfold kern_malloc_expand_heap.
  apply wp_bind, wp_hcf_if; [by rewrite land_page_mask, Hh|].
  destruct (rounded_pages bytes Hb Hm) as (Hn & Ew & Hsz). set (n := _ `div` PAGE_SIZE) in *.
  apply wp_bind. eapply wp_mono; [apply (wp_foreach True (λ _ st, address_space_ok st)); [lia|done|]|].
  - intros j st' _ [T Ha]. eapply wp_mono_halt; [apply (allocate_ram_page_wp st' T)|done|]; [done| |].
    + unfold wrap, PAGE_SIZE in *. clear -Hh. dlia.
    + intros st2 (T' & _ & Ha' & _). by exists T'.
  - intros st' Hst'. apply wp_ret. rewrite Ew. split_and!; [done|lia|lia|]. rewrite Z.mul_comm. by apply Z_mod_mult.
Defined.

Lemma vpn_distinct h j k :
  h `mod` PAGE_SIZE = 0 → 0 ≤ j < 2 ^ 36 → 0 ≤ k < 2 ^ 36 → vpn_eq (h + PAGE_SIZE * j) (h + PAGE_SIZE * k) → j = k.
Proof.
  unfold vpn_eq. intros Hh Hj Hk.
  replace ((h + PAGE_SIZE * j) `div` PAGE_SIZE) with (h `div` PAGE_SIZE + j) by (clear; dlia).
  replace ((h + PAGE_SIZE * k) `div` PAGE_SIZE) with (h `div` PAGE_SIZE + k) by (clear; dlia).
  intros E. clear Hh. Z.to_euclidean_division_equations. lia.
Qed.

(** The first [i] pages from [h] are mapped to RAM, the rest is as before. *)
Record heap_mapped (st : mm) (h i : Z) (st' : mm) : Prop := {
  hm_ok : address_space_ok st';
  hm_cr3 : cr3 st' = cr3 st;
  hm_mapped j : 0 ≤ j < i → ∃ e, mmu_entry st' (cr3 st') (h + PAGE_SIZE * j) = Some e ∧ ram_page false e;
  hm_other w : (∀ j, 0 ≤ j < i → ¬ vpn_eq w (h + PAGE_SIZE * j)) → mmu_entry st' (cr3 st') w = mmu_entry st (cr3 st) w;
  hm_count : Z.of_nat (free_pages (slab st)) ≤ 4 * i + Z.of_nat (free_pages (slab st'))
}.

Lemma heap_mapped_step st h i st' :
  heap_mapped st h i st' → 0 ≤ h → h `mod` PAGE_SIZE = 0 → 0 ≤ i → h + PAGE_SIZE * i < 2 ^ 64 → i < 2 ^ 36 →
  mmu_entry st (cr3 st) (h + PAGE_SIZE * i) = None → 4 * (i + 1) ≤ Z.of_nat (free_pages (slab st)) →
  wp False (allocate_ram_page (u64 (h + PAGE_SIZE * i)) false st') (heap_mapped st h (i + 1)).
Proof.
  intros [[T Ha] Ecr Hmap Hoth Hcnt] Hh Hm Hi Hlt Hi36 Hnone Hfree.
  rewrite wrap_small by (unfold PAGE_SIZE in *; lia). set (v := h + PAGE_SIZE * i).
  assert (∀ j, 0 ≤ j < i → ¬ vpn_eq (h + PAGE_SIZE * j) v) as Hdist.
  { intros j Hj ?%vpn_distinct; [lia|done|lia|lia]. }
  assert (mmu_entry st' (cr3 st') v = None) as Hnone'.
  { rewrite Hoth; [done|]. intros j Hj E. by apply (Hdist j Hj). }
  eapply wp_mono_halt; [apply (allocate_ram_page_wp st' T); [done|]|..].
  - unfold v. rewrite Z.mul_comm. by rewrite Z_mod_plus_full.
  - intros [[e He]|?]; [congruence|lia].
  - intros st2 (T' & e & Ha' & Ecr' & He & Hr & _ & Hother & Hcnt'). constructor.
    + by exists T'.
    + congruence.
    + intros j Hj. destruct (decide (j = i)) as [->|]; [by exists e|].
      rewrite Hother by (apply Hdist; lia). apply Hmap. lia.
    + intros w Hw. rewrite Hother by (apply Hw; lia). apply Hoth. intros j Hj. apply Hw. lia.
    + lia.
Qed.

(** the kernel's _malloc_expand_heap, asked for more heap at a page-aligned address above which nothing is mapped, with four free pages for each page it needs: it returns the number of bytes asked for, rounded up to whole pages; exactly those pages become mapped, each to RAM that is writable and not executable, and every other address is translated as before. *)
Theorem kern_malloc_expand_heap_spec st T kheap_end size :
  aspace st (cr3 st) T → 0 ≤ kheap_end → kheap_end `mod` PAGE_SIZE = 0 → 0 < size →
  kheap_end + size + PAGE_SIZE ≤ 2 ^ 64 → size ≤ 2 ^ 47 →
  (∀ v, kheap_end ≤ v < kheap_end + size → v `mod` PAGE_SIZE = 0 → mmu_entry st (cr3 st) v = None) →
  4 * (size + PAGE_SIZE) ≤ PAGE_SIZE * Z.of_nat (free_pages (slab st)) →
  ∃ n st', kern_malloc_expand_heap kheap_end size st = Ok (PAGE_SIZE * n, st') ∧
    size ≤ PAGE_SIZE * n < size + PAGE_SIZE ∧ address_space_ok st' ∧ cr3 st' = cr3 st ∧
    (∀ j, 0 ≤ j < n → ∃ e, mmu_entry st' (cr3 st') (kheap_end + PAGE_SIZE * j) = Some e ∧ ram_page false e) ∧
    ∀ w, (∀ j, 0 ≤ j < n → ¬ vpn_eq w (kheap_end + PAGE_SIZE * j)) → mmu_entry st' (cr3 st') w = mmu_entry st (cr3 st) w.
Proof.
  intros Ha Hh Hm Hs Hmax Hsz Hnone Hfree. destruct (rounded_pages size Hs ltac:(lia)) as (Hn & Ew & Hb).
  unfold kern_malloc_expand_heap. set (n := _ `div` PAGE_SIZE) in *.
  assert (wp False (c_foreach 0 n (λ i st, allocate_ram_page (u64 (kheap_end + PAGE_SIZE * i)) false st) st)
    (heap_mapped st kheap_end n)) as Hloop.
  { apply (wp_foreach False (heap_mapped st kheap_end)); [lia| |].
    - constructor; try done; try (intros; lia). by exists T.
    - intros j st' Hj Hst'. apply heap_mapped_step; try done; try (unfold PAGE_SIZE in *; lia).
      apply Hnone; [unfold PAGE_SIZE in *; lia|]. rewrite Z.mul_comm. by rewrite Z_mod_plus_full. }
  rewrite land_page_mask, Hm. change (hcf_if (negb (0 =? 0))) with (Ok ()). next_Ok.
  destruct (wp_total_1 _ _ Hloop) as (st' & -> & [? ? ? ? _]). next_Ok. rewrite Ew. by exists n, st'.
Qed.

(** ** The C library: init.c *)

(** The system call REQUEST_PAGE_SYSCALL, handled by the kernel's Rust part: it
    maps a page at the address, or reports an error. *)
Class PageSyscall (W : Type) := {
  request_page : Z → W → outcome (Z * W);
  request_page_ok virt w : wp True (request_page virt w) (λ _, True);
}.
#[global] Hint Mode PageSyscall + : typeclass_instances.

(** abi/uapi/errno.h *)
Definition ENOMEM : Z := 12.

Section libc.
Context {W : Type} `{!PageSyscall W}.

(** abort() stops the program. *)
Definition libc_malloc_expand_heap (heap_end bytes : Z) (w : W) : outcome (Z * W) :=
  if negb (Z.land heap_end PAGE_MASK =? 0) then Halt
  else
    let rounded_up_pages := u64 (bytes + PAGE_SIZE - 1) `div` PAGE_SIZE in
    r ← c_for 0 rounded_up_pages (λ i w,
          '(err, w) ← request_page (u64 (heap_end + PAGE_SIZE * i)) w;
          if err =? 0 then Ok (inl w)
          else if err =? ENOMEM then Ok (inr (PAGE_SIZE * i, w))
          else Halt) w;
    Ok (match r with inl w => (PAGE_SIZE * rounded_up_pages, w) | inr r => r end).

#[export, refine] Instance libc_heap : HeapProvider W := {
  provider_may_halt := True;
  provider_inv _ := True;
  malloc_expand_heap := libc_malloc_expand_heap;
}.
Proof.
  intros heap_end bytes w _ Hh Hb Hm. unfold libc_malloc_expand_heap. rewrite land_page_mask, Hh. cbn [negb Z.eqb].
  destruct (rounded_pages bytes Hb Hm) as (Hn & _ & Hsz). set (n := _ `div` PAGE_SIZE) in *.
  apply wp_bind. eapply wp_mono; [apply (wp_for True (λ _ _, True)
    (λ '(r, _), 0 ≤ r < bytes + PAGE_SIZE ∧ r `mod` PAGE_SIZE = 0)); [lia|done|]|].
  - intros j w' Hj _. apply wp_bind. eapply wp_mono; [apply request_page_ok|]. intros [err w2] _.
    case_if; [done|]. case_if; [|done]. apply wp_ret. split; [unfold PAGE_SIZE in *; nia|].
    rewrite Z.mul_comm. by apply Z_mod_mult.
  - intros [w'|[r w']] Hr; apply wp_ret; [|by split]. split_and!; [done|lia|lia|]. rewrite Z.mul_comm. by apply Z_mod_mult.
Defined.

(** stuos_libc_init: the environment and the heap. *)
Record libc_state := LibcState { environ : Z; libc_allocator : allocator W }.

Definition stuos_libc_init (argc argv envp heap_start : Z) (w : W) : outcome libc_state :=
  alloc ← init_memory_allocator heap_start w; Ok (LibcState envp alloc).
End libc.
