(* ===== verification/KernelInit.v ===== *)
(** * Bringing memory up: memory_init of stuos/src/memory.c

    The choice of a RAM region from the boot loader's map, the kernel half of
    the first page table, the kernel heap, and the segment and task-state
    descriptors.  The boot loader's answers and the addresses of the kernel's
    own tables are arguments. *)
From S2P Require Import Prelude Bytes Slab Paging AddressSpace AddressSpaceSpec AddressSpaceExamples Malloc HeapProviders.
#[local] Arguments c_foreach : simpl never.
#[local] Arguments wrap : simpl never.

(** ** Descriptors *)
Record GdtEntry := {
  limit_low : Z; base_low : Z; gdt_accessed : Z; gdt_read_write : bool; conforming_expand_down : Z;
  code : bool; code_data_segment : bool; DPL : Z; gdt_present : bool; limit_high : Z;
  available : Z; long_mode : bool; big : bool; gran : Z; base_high : Z
}.

Definition encode_gdt (e : GdtEntry) : Z :=
  pack [(16, limit_low e); (24, base_low e); (1, gdt_accessed e); (1, Z.b2z (gdt_read_write e));
        (1, conforming_expand_down e); (1, Z.b2z (code e)); (1, Z.b2z (code_data_segment e)); (2, DPL e);
        (1, Z.b2z (gdt_present e)); (4, limit_high e); (1, available e); (1, Z.b2z (long_mode e));
        (1, Z.b2z (big e)); (1, gran e); (8, base_high e)].

Definition generate_gdt_entry (is_code : bool) (privilege_level : Z) : GdtEntry := {|
  limit_low := 0; limit_high := 0; base_low := 0; base_high := 0;
  gdt_accessed := 0; gdt_read_write := true; conforming_expand_down := 0;
  code := is_code; code_data_segment := true; DPL := privilege_level; gdt_present := true;
  available := 0; long_mode := is_code; big := negb is_code; gran := 1
|}.

Record TssEntry := {
  tss_reserved0 : Z; rsp0 : Z; rsp1 : Z; rsp2 : Z; tss_reserved1 : Z;
  ist1 : Z; ist2 : Z; ist3 : Z; ist4 : Z; ist5 : Z; ist6 : Z; ist7 : Z;
  tss_reserved2 : Z; tss_reserved3 : Z; iomap_base : Z
}.
Definition SIZEOF_TSS : Z := 104.

Record TssDescriptor := {
  tss_limit_low : Z; tss_base_low : Z; tss_base_middle : Z; tss_type : Z; tss_zero : Z; tss_dpl : Z;
  tss_present : Z; tss_limit_high : Z; tss_available : Z; tss_zero2 : Z; tss_granularity : Z;
  tss_base_high : Z; tss_base_upper : Z; tss_reserved : Z
}.

Definition encode_tss (d : TssDescriptor) : Z :=
  pack [(16, tss_limit_low d); (16, tss_base_low d); (8, tss_base_middle d); (4, tss_type d); (1, tss_zero d);
        (2, tss_dpl d); (1, tss_present d); (4, tss_limit_high d); (1, tss_available d); (2, tss_zero2 d);
        (1, tss_granularity d); (8, tss_base_high d); (32, tss_base_upper d); (32, tss_reserved d)].

Definition init_tss_descriptor (tss : Z) : TssDescriptor :=
  let tss_base := tss in
  let tss_limit := u32 (SIZEOF_TSS - 1) in {|
    tss_limit_low := Z.land tss_limit 0xFFFF;
    tss_limit_high := Z.land (Z.shiftr tss_limit 16) 0xF;
    tss_base_low := Z.land tss_base 0xFFFF;
    tss_base_middle := Z.land (Z.shiftr tss_base 16) 0xFF;
    tss_base_high := Z.land (Z.shiftr tss_base 24) 0xFF;
    tss_base_upper := Z.land (Z.shiftr tss_base 32) 0xFFFFFFFF;
    tss_type := 0x9; tss_zero := 0; tss_dpl := 0; tss_present := 1; tss_available := 0; tss_zero2 := 0;
    tss_granularity := 0; tss_reserved := 0
  |}.

Record GdtTable := {
  blank : Z; kern_code : GdtEntry; kern_data : GdtEntry; user_code : GdtEntry; user_data : GdtEntry;
  tss_descriptor : TssDescriptor
}.

(** The table's bytes, as quadwords. *)
Definition encode_table (t : GdtTable) : list Z :=
  [blank t; encode_gdt (kern_code t); encode_gdt (kern_data t); encode_gdt (user_code t); encode_gdt (user_data t);
   encode_tss (tss_descriptor t) `mod` 2 ^ 64; encode_tss (tss_descriptor t) `div` 2 ^ 64].

(** ** Memory *)
Record limine_memmap_entry := { mm_base : Z; mm_length : Z; mm_type : Z }.
Definition LIMINE_MEMMAP_USABLE : Z := 0.
Definition BIG_AMOUNT_OF_RAM : Z := Z.shiftl 1 38.

(** The loop over the entries: [result] is the entry looked at last. *)
Fixpoint find_region (entries : list limine_memmap_entry) (result : option limine_memmap_entry)
    : option limine_memmap_entry :=
  match entries with
  | [] => result
  | e :: rest =>
      if (1000000000 <=? mm_length e) && (mm_type e =? LIMINE_MEMMAP_USABLE) then Some e
      else find_region rest (Some e)
  end.

Record memory_state := {
  kernel_allocator : allocator mm;
  gdt_table : GdtTable;
  tss_entry : TssEntry
}.

Definition memory_init (memmap : option (list limine_memmap_entry)) (hhdm : option Z)
    (interrupt_stack_top tss_address boot_cr3 : Z) (boot_ram : gmap Z Z) : outcome memory_state :=
  match memmap, hhdm with
  | Some entries, Some offset =>
      match find_region entries None with
      | None => Halt
      | Some result =>
          let original := u64 (boot_cr3 + offset) in
          let base_virt_hhdm := u64 (mm_base result + offset) in
          let slab := init_physical_memory (mm_base result) (mm_length result) in
          let kheap_start := u64 (base_virt_hhdm + BIG_AMOUNT_OF_RAM) in
          let mmio := u64 (kheap_start + BIG_AMOUNT_OF_RAM) in
          _ ← hcf_if (0xffffffff80000000 <=? u64 (mmio + BIG_AMOUNT_OF_RAM));
          st ← fill_kernel_pml4 (MM slab boot_ram boot_cr3 offset original mmio []);
          alloc ← init_memory_allocator kheap_start st;
          Ok {|
            kernel_allocator := alloc;
            tss_entry := {|
              tss_reserved0 := 0; rsp0 := interrupt_stack_top; rsp1 := 0; rsp2 := 0; tss_reserved1 := 0;
              ist1 := 0; ist2 := 0; ist3 := 0; ist4 := 0; ist5 := 0; ist6 := 0; ist7 := 0;
              tss_reserved2 := 0; tss_reserved3 := 0; iomap_base := SIZEOF_TSS
            |};
            gdt_table := {|
              blank := 0;
              kern_code := generate_gdt_entry true 0; kern_data := generate_gdt_entry false 0;
              user_code := generate_gdt_entry true 3; user_data := generate_gdt_entry false 3;
              tss_descriptor := init_tss_descriptor tss_address
            |}
          |}
      end
  | _, _ => Halt
  end.

(** ** The descriptors are what the processor reads *)

(** The processor's view of a system descriptor. *)
Definition hw_base (w : Z) : Z := bits 16 24 w + 2 ^ 24 * bits 56 8 w + 2 ^ 32 * bits 64 32 w.
Definition hw_limit (w : Z) : Z := bits 0 16 w + 2 ^ 16 * bits 48 4 w.

Lemma bits_pack_2 w1 v1 w2 v2 l :
  0 ≤ w1 → 0 ≤ w2 → bits 0 (w1 + w2) (pack ((w1, v1) :: (w2, v2) :: l)) = v1 `mod` 2 ^ w1 + 2 ^ w1 * (v2 `mod` 2 ^ w2).
Proof.
  intros H1 H2. pose proof (Z.pow_pos_nonneg 2 w1 ltac:(lia) H1) as P1. pose proof (Z.pow_pos_nonneg 2 w2 ltac:(lia) H2) as P2.
  assert (bits 0 (w1 + w2) (pack ((w1, v1) :: (w2, v2) :: l)) =
    bits 0 w1 (pack ((w1, v1) :: (w2, v2) :: l)) + 2 ^ w1 * bits w1 w2 (pack ((w1, v1) :: (w2, v2) :: l))) as ->.
  { unfold bits. rewrite Z.div_1_r, Z.pow_add_r by lia. apply Z.rem_mul_r; lia. }
  rewrite bits_pack_hd, bits_pack_tl, Z.sub_diag, bits_pack_hd by lia. done.
Qed.

(** the task-state descriptor the kernel builds for any address: the processor reads back that address as the base, the size of the task state less one as the limit, a present 64-bit task state of kernel privilege. *)
Theorem tss_descriptor_roundtrip tss :
  0 ≤ tss < 2 ^ 64 →
  let w := encode_tss (init_tss_descriptor tss) in
  hw_base w = tss ∧ hw_limit w = SIZEOF_TSS - 1 ∧ bits 40 4 w = 9 ∧ bits 44 1 w = 0 ∧ bits 45 2 w = 0 ∧ bits 47 1 w = 1.
Proof.
  intros Ht w. unfold hw_base, hw_limit, w, encode_tss, init_tss_descriptor.
  cbn [tss_limit_low tss_base_low tss_base_middle tss_type tss_zero tss_dpl tss_present tss_limit_high
    tss_available tss_zero2 tss_granularity tss_base_high tss_base_upper tss_reserved].
  split_and!; [| |bitfield; done..].
  - rewrite (bits_pack_tl 16 16 24) by lia. change (16 - 16) with 0.
    assert (∀ l, bits 0 24 l = bits 0 (16 + 8) l) as -> by done. rewrite bits_pack_2 by lia.
    do 2 bitfield. rewrite !(land_ones_mod _ 16), !(land_ones_mod _ 8), !(land_ones_mod _ 32), !Z.shiftr_div_pow2 by (done || lia).
    clear -Ht. Z.to_euclidean_division_equations. lia.
  - do 2 bitfield. done.
Qed.

(** ** The choice of a region *)
Definition suitable (e : limine_memmap_entry) : Prop := 1000000000 ≤ mm_length e ∧ mm_type e = LIMINE_MEMMAP_USABLE.

Lemma find_region_wp entries r :
  match find_region entries r with
  | None => entries = [] ∧ r = None
  | Some e => (∃ l1 l2, entries = l1 ++ e :: l2 ∧ suitable e ∧ Forall (λ e', ¬ suitable e') l1) ∨
      (Forall (λ e', ¬ suitable e') entries ∧ last (from_option (λ x, [x]) [] r ++ entries) = Some e)
  end.
Proof.
  revert r. induction entries as [|e rest IH]; intros r; simpl; [destruct r; simpl; auto|].
  destruct ((1000000000 <=? mm_length e) && (mm_type e =? LIMINE_MEMMAP_USABLE)) eqn:Es.
  - zbool. left. exists [], rest. split_and!; try done.
  - assert (¬ suitable e) as Hns by (intros []; lia). specialize (IH (Some e)). simpl in IH.
    destruct (find_region rest (Some e)) as [e'|]; [|by destruct IH].
    destruct IH as [(l1 & l2 & -> & Hsu & Hl1)|[Hall Hlast]].
    + left. exists (e :: l1), l2. split_and!; [done|done|by constructor].
    + right. split; [by constructor|]. destruct r; simpl; [by destruct rest|done].
Qed.

(** the RAM region memory_init manages: it stops for want of a region only when the boot loader's map is empty; otherwise it takes the first entry that is usable and large enough if there is one, and if there is none it takes the last entry of the map, whatever it is. *)
Theorem find_region_spec entries :
  match find_region entries None with
  | None => entries = []
  | Some e => (∃ l1 l2, entries = l1 ++ e :: l2 ∧ suitable e ∧ Forall (λ e', ¬ suitable e') l1) ∨
      (Forall (λ e', ¬ suitable e') entries ∧ last entries = Some e)
  end.
Proof. pose proof (find_region_wp entries None) as H. by destruct (find_region entries None); [|destruct H]. Qed.

(** ** The kernel half of the first page table *)
Lemma wp_bind_Ok {A B} H (o : outcome A) (g : A → B) Q : wp H (o ≫= λ a, Ok (g a)) Q → wp H o (λ a, Q (g a)).
Proof. by destruct o. Qed.

Lemma fill_step st root T i :
  aspace st root T → 0 ≤ i < 512 →
  wp (free_pages (slab st) = 0%nat)
    (let my := entry_ptr (phys_to_hhdm st root) i in if present (load_pte st my) then Ok st else setup_page_table_entry my st)
    (λ st', ∃ T', aspace st' root T' ∧ is_Some (T' !! [i]) ∧ T ⊆ T' ∧ kept (λ a, a = root) st st' ∧
      (∀ v, leaf_at st' T' v = leaf_at st T v) ∧ (free_pages (slab st) ≤ S (free_pages (slab st')))%nat).
Proof.
  intros Ha Hi. assert (T !! [] = Some root) as Hroot by apply Ha.
  pose proof (ensure_wp st root T [] root i Ha Hroot ltac:(simpl; lia) Hi) as Hw. unfold ensure_entry in Hw.
  cbv zeta in *. destruct (present (load_pte st _)); cbn [negb] in Hw; apply wp_bind_Ok in Hw;
    (eapply wp_mono; [exact Hw|]); intros st' (T' & Ha' & Hc & [Hsub _] & Hk & _ & Hl & Hf); exists T'; split_and!; eauto.
Qed.

Lemma fill_kernel_wp st T :
  aspace st (cr3 st) T →
  wp (free_pages (slab st) < 256)%nat (fill_kernel_pml4 st) (λ st', ∃ T', aspace st' (cr3 st) T' ∧
    (∀ i, 256 ≤ i < 512 → is_Some (T' !! [i])) ∧ kept (λ a, a = cr3 st) st st' ∧ (∀ v, leaf_at st' T' v = leaf_at st T v)).
Proof.
  intros Ha. unfold fill_kernel_pml4. change (Z.shiftl 1 8) with 256. change (Z.shiftl 1 9 - 1 + 1) with 512.
  eapply wp_mono; [apply (wp_foreach _ (λ n st', ∃ T', aspace st' (cr3 st) T' ∧ (∀ i, 256 ≤ i < n → is_Some (T' !! [i])) ∧
    kept (λ a, a = cr3 st) st st' ∧ (∀ v, leaf_at st' T' v = leaf_at st T v) ∧
    Z.of_nat (free_pages (slab st)) ≤ (n - 256) + Z.of_nat (free_pages (slab st')))); [lia| |]|].
  - exists T. split_and!; try done; try (intros; lia).
  - intros j st' Hj (T' & Ha' & Hp & Hk & Hl & Hf).
    assert (u64 (get_pml4_phys st + hhdm_offset st) = phys_to_hhdm st' (cr3 st)) as ->.
    { unfold phys_to_hhdm, get_pml4_phys. by rewrite (kept_hhdm _ _ _ Hk). }
    eapply wp_mono_halt; [apply (fill_step st' (cr3 st) T' j); [done|lia]|lia|].
    intros st2 (T2 & Ha2 & [t2 Ht2] & Hsub & Hk2 & Hl2 & Hf2). exists T2. split_and!; [done| | | |lia].
    + intros i Hi. destruct (decide (i = j)) as [->|]; [by exists t2|].
      destruct (Hp i) as [t Ht]; [lia|]. exists t. by eapply lookup_weaken.
    + eapply kept_trans; [exact Hk|exact Hk2|done|]. intros a ->. by left.
    + intros v. by rewrite Hl2.
  - intros st' (T' & ? & ? & ? & ? & _). by exists T'.
Qed.

(** fill_kernel_pml4, with 256 free pages: it returns with a table below every entry of the kernel half of the root, so that the address spaces that copy those entries share them, and the processor translates every address as before. *)
Theorem fill_kernel_pml4_spec st T :
  aspace st (cr3 st) T → (256 ≤ free_pages (slab st))%nat →
  ∃ st', fill_kernel_pml4 st = Ok st' ∧ cr3 st' = cr3 st ∧ address_space_ok st' ∧
    (∀ i, 256 ≤ i < 512 → present (pte_at st' (cr3 st + 8 * i)) = true) ∧
    ∀ v, mmu_entry st' (cr3 st) v = mmu_entry st (cr3 st) v.
Proof.
  intros Ha Hf.
  destruct (wp_total_1 _ _ (wp_mono_halt _ False _ _ _ (fill_kernel_wp st T Ha) ltac:(lia) (λ _ H, H)))
    as (st' & E & T' & Ha' & Hp & Hk & Hl).
  assert (cr3 st' = cr3 st) as Ecr by apply Hk. exists st'. split_and!; [done|done|exists T'; by rewrite Ecr| |].
  - intros i Hi. destruct (Hp i Hi) as [t Ht].
    pose proof (tree_child _ _ _ (aspace_tree _ _ _ Ha') [] _ i (tree_root _ _ _ (aspace_tree _ _ _ Ha')) ltac:(simpl; lia) ltac:(lia)) as Hc.
    rewrite Ht in Hc. unfold child in Hc. by destruct (present _).
  - intros v. rewrite (mmu_entry_leaf _ _ T'), (mmu_entry_leaf _ _ T) by (apply Ha' || apply Ha). apply Hl.
Qed.

(** ** Examples: the kernel's heap and first page table on a concrete machine

    The machine of AddressSpaceExamples, and one with 300 pages of RAM. *)
Lemma unmapped_all st root v : tree st root {[ [] := root ]} → mmu_entry st root v = None.
Proof. intros Ht. rewrite (mmu_entry_leaf _ _ _ _ Ht). unfold leaf_at. by rewrite lookup_singleton_ne. Qed.

Definition heap_ex : Z := 0xffffc00000000000.

(** 5000 bytes take two pages *)
Lemma kern_malloc_expand_heap_spec_witness :
  ∃ st' e, kern_malloc_expand_heap heap_ex 5000 mm_ex = Ok (8192, st') ∧
    mmu_entry st' (cr3 st') (heap_ex + PAGE_SIZE * 1) = Some e ∧ ram_page false e ∧ mmu_entry st' (cr3 st') v_ex = None.
Proof.
  destruct (kern_malloc_expand_heap_spec mm_ex T_ex heap_ex 5000 aspace_ex) as (n & st' & E & Hn & _ & _ & Hmap & Hother).
  1-5: done.
  - intros v _ _. apply unmapped_all, aspace_ex.
  - rewrite free_pages_ex. unfold PAGE_SIZE. lia.
  - revert E. generalize (kern_malloc_expand_heap heap_ex 5000 mm_ex). intros o E.
    assert (n = 2) as -> by (clear -Hn; unfold PAGE_SIZE in Hn; lia). destruct (Hmap 1 ltac:(lia)) as (e & He & Hr).
    exists st', e. split; [exact E|]. clear E. split; [exact He|]. split; [exact Hr|].
    rewrite Hother; [exact unmapped_ex|]. intros j Hj Hv. assert (j = 0 ∨ j = 1) as [-> | ->] by lia; discriminate Hv.
Defined.

Definition big_ex : mm :=
  MM (PhysState root_ex 300 (true :: replicate 299 false)) ∅ root_ex 0xffff800000000000 (0xffff800000000000 + root_ex) 0 [].

Lemma aspace_big : aspace big_ex (cr3 big_ex) T_ex.
Proof.
  constructor; [by constructor; [constructor|]|by apply empty_tree|].
  intros p t (_ & <-)%lookup_singleton_Some (i & [Hi E] & Ea).
  assert (i = 0) as -> by (unfold page_addr, PAGE_SIZE in Ea; simpl in Ea; change (cr3 big_ex) with root_ex in Ea; lia).
  discriminate E.
Qed.

Lemma fill_kernel_pml4_spec_witness :
  ∃ st', fill_kernel_pml4 big_ex = Ok st' ∧ present (pte_at st' (root_ex + 8 * 300)) = true ∧ mmu_entry st' root_ex v_ex = None.
Proof.
  destruct (fill_kernel_pml4_spec big_ex T_ex aspace_big) as (st' & E & _ & _ & Hp & Hm).
  - change (free_pages (slab big_ex)) with 299%nat. lia.
  - exists st'. split; [exact E|]. clear E. split; [apply (Hp 300); lia|]. rewrite Hm. apply unmapped_all, aspace_big.
Defined.

Lemma tss_descriptor_roundtrip_witness :
  let w := encode_tss (init_tss_descriptor 0xffffffff80123450) in hw_base w = 0xffffffff80123450 ∧ hw_limit w = 103.
Proof. intros w. destruct (tss_descriptor_roundtrip 0xffffffff80123450) as (Hb & Hl & _); [done|]. by split. Defined.
