(* ===== verification/Arrays.v ===== *)
(** * Filling a run of a C array; loops cut in two *)
From S2P Require Import Prelude.

(** [memset(l + start, v, n)] on an array of bytes *)
Definition arr_fill {A} (l : list A) (start n : Z) (v : A) : outcome (list A) :=
  c_foreach 0 n (λ i l, arr_set l (start + i) v) l.

Lemma arr_fill_wp {A} H (l : list A) start n v :
  0 ≤ start → 0 ≤ n → start + n ≤ Z.of_nat (length l) →
  wp H (arr_fill l start n v) (λ l', length l' = length l ∧
    ∀ i : nat, l' !! i = if decide (start ≤ Z.of_nat i < start + n) then Some v else l !! i).
Proof.
  intros Hs Hn Hl. eapply wp_mono; [apply (wp_foreach H (λ j l', length l' = length l ∧
    ∀ i : nat, l' !! i = if decide (start ≤ Z.of_nat i < start + j) then Some v else l !! i)); [done| |]|by intros ? []].
  - split; [done|]. intros i. by rewrite decide_False by lia.
  - intros j l' Hj [Hlen Hl']. rewrite arr_set_in_range by lia. simpl. split; [by rewrite length_insert|].
    intros i. destruct (decide (i = Z.to_nat (start + j))) as [->|Hi].
    + rewrite list_lookup_insert_eq by lia. by rewrite decide_True by lia.
    + rewrite list_lookup_insert_ne by done. rewrite Hl'. by repeat case_decide; try lia.
Qed.

(** Filling a run with what it already holds changes nothing. *)
Lemma arr_fill_id {A} H (l : list A) start n v :
  0 ≤ start → 0 ≤ n → start + n ≤ Z.of_nat (length l) →
  (∀ i : nat, start ≤ Z.of_nat i < start + n → l !! i = Some v) →
  wp H (arr_fill l start n v) (λ l', l' = l).
Proof.
  intros Hs Hn Hl Hv. eapply wp_mono; [by apply arr_fill_wp|]. intros l' [_ Hl'].
  apply list_eq. intros i. rewrite Hl'. case_decide; [|done]. by rewrite Hv.
Qed.

Lemma c_for_split {S R} (i j n : Z) (body : Z → S → outcome (S + R)) s :
  i ≤ j ≤ n →
  c_for i n body s = (r ← c_for i j body s; match r with inl s' => c_for j n body s' | inr r => Ok (inr r) end).
Proof.
  intros Hij. unfold c_for. remember (Z.to_nat (j - i)) as k eqn:Ek.
  revert i s Hij Ek. induction k as [|k IH]; intros i s Hij Ek.
  - assert (i = j) as -> by lia. simpl. rewrite Z.ltb_irrefl. done.
  - replace (Z.to_nat (n - i)) with (Datatypes.S (Z.to_nat (n - (i + 1)))) by lia. simpl.
    replace (i <? n) with true by lia. replace (i <? j) with true by lia.
    destruct (body i s) as [[s'|r]| | |]; simpl; try done. apply IH; lia.
Qed.

Lemma c_foreach_split {S} (i j n : Z) (body : Z → S → outcome S) s :
  i ≤ j ≤ n → c_foreach i n body s = (s' ← c_foreach i j body s; c_foreach j n body s').
Proof.
  intros Hij. unfold c_foreach. rewrite (c_for_split i j n) by done.
  by destruct (c_for i j _ s) as [[s'|[]]| | |].
Qed.

(** The first iteration. *)
Lemma c_foreach_S {S} (i n : Z) (body : Z → S → outcome S) s :
  i < n → c_foreach i n body s = (s' ← body i s; c_foreach (i + 1) n body s').
Proof.
  intros Hi. unfold c_foreach, c_for.
  replace (Z.to_nat (n - i)) with (Datatypes.S (Z.to_nat (n - (i + 1)))) by lia. simpl.
  replace (i <? n) with true by lia. by destruct (body i s).
Qed.

Lemma c_foreach_nil {S} (i n : Z) (body : Z → S → outcome S) s : n ≤ i → c_foreach i n body s = Ok s.
Proof.
  intros Hi. unfold c_foreach, c_for. replace (Z.to_nat (n - i)) with 0%nat by lia. simpl.
  by replace (i <? n) with false by lia.
Qed.
