(* ===== verification/Display.v ===== *)
(** * The framebuffer: stuos/src/display.c

    [fb] holds the pixels stored so far, by byte offset from the start of the screen. *)
From S2P Require Import Prelude.

Record Colour := { r : Z; g : Z; b : Z; a : Z }.

Record framebuffer := { fb_bpp : Z; fb_pitch : Z; fb_width : Z; fb_height : Z }.

Record display := Display {
  screen : bool;             (* the framebuffer's address is known *)
  bytes_per_pixel : Z;
  pitch : Z;
  width : Z;
  height : Z;
  fb : gmap Z Colour
}.

Definition SIZEOF_COLOUR : Z := 4.

Definition display_init (response : option (list framebuffer)) (d : display) : outcome display :=
  match response with
  | Some (buf :: _) =>
      let bpp := fb_bpp buf `div` 8 in
      _ ← c_assert (bpp =? SIZEOF_COLOUR);
      Ok (Display true bpp (fb_pitch buf) (fb_width buf) (fb_height buf) (fb d))
  | _ => Halt
  end.

Definition display_get_width (d : display) : outcome Z := _ ← c_assert (screen d); Ok (width d).
Definition display_get_height (d : display) : outcome Z := _ ← c_assert (screen d); Ok (height d).

Definition display_write_pixel (x y : Z) (colour : Colour) (d : display) : outcome display :=
  _ ← c_assert (screen d);
  w ← display_get_width d; _ ← c_assert (x <? w);
  h ← display_get_height d; _ ← c_assert (y <? h);
  let offset := u64 (u64 (x * bytes_per_pixel d) + u64 (pitch d * y)) in
  Ok (Display (screen d) (bytes_per_pixel d) (pitch d) (width d) (height d) (<[offset := colour]> (fb d))).

(** ** Invariant *)
Record display_ok (d : display) : Prop := {
  ok_screen : screen d = true;
  ok_bpp : bytes_per_pixel d = 4;
  ok_width : 0 ≤ width d;
  ok_height : 0 ≤ height d;
  ok_pitch : 4 * width d ≤ pitch d;
  ok_size : pitch d * height d < 2 ^ 64
}.

(** The pixel at a position. *)
Definition pixel (d : display) (x y : Z) : option Colour := fb d !! (4 * x + pitch d * y).

(** The display with other pixels. *)
Definition same_geometry (d d' : display) : Prop :=
  width d' = width d ∧ height d' = height d ∧ display_ok d'.

Lemma display_write_pixel_ok x y c d :
  display_ok d → 0 ≤ x < width d → 0 ≤ y < height d →
  ∃ d', display_write_pixel x y c d = Ok d' ∧ same_geometry d d' ∧
    ∀ x' y', 0 ≤ x' < width d → 0 ≤ y' →
      pixel d' x' y' = if decide (x' = x ∧ y' = y) then Some c else pixel d x' y'.
Proof.
  intros [Hs Hb Hw Hh Hp Hz] Hx Hy. unfold display_write_pixel, display_get_width, display_get_height.
  rewrite Hs. simpl. replace (x <? width d) with true by lia. replace (y <? height d) with true by lia. simpl.
  rewrite Hb. eexists. split; [done|]. split; [by split_and!|].
  assert (0 ≤ pitch d * y ≤ pitch d * (height d - 1)) as Hpy by nia.
  assert (pitch d * y + 4 * x < 2 ^ 64) as Hlt by nia.
  intros x' y' Hx' Hy'. unfold pixel. simpl.
  rewrite (wrap_small 64 (x * 4)), (wrap_small 64 (pitch d * y)), wrap_small by lia.
  case_decide as Hd.
  - destruct Hd as [-> ->]. replace (4 * x + pitch d * y) with (x * 4 + pitch d * y) by lia. apply lookup_insert_eq.
  - rewrite lookup_insert_ne; [done|]. intros E. apply Hd.
    assert (y' = y) as -> by nia. lia.
Qed.
