(* ===== verification/Idt.v ===== *)
(** * Interrupt vectors: stuos/src/idt.c

    The descriptor table the processor reads and the table of handlers the
    drivers claim vectors in.  [H] is the type of handler functions. *)
From S2P Require Import Prelude Bytes Arrays.

Definition N_INTERRUPTS : Z := 256.

Record InterruptDescriptor := {
  address_low : Z; selector : Z; ist : Z; idt_flags : Z; address_mid : Z; address_high : Z; idt_reserved : Z
}.

Definition zero_descriptor : InterruptDescriptor := {|
  address_low := 0; selector := 0; ist := 0; idt_flags := 0; address_mid := 0; address_high := 0; idt_reserved := 0
|}.

(** The 16 packed bytes. *)
Definition encode_descriptor (d : InterruptDescriptor) : list Z :=
  le_bytes 2 (address_low d) ++ le_bytes 2 (selector d) ++ le_bytes 1 (ist d) ++ le_bytes 1 (idt_flags d) ++
  le_bytes 2 (address_mid d) ++ le_bytes 4 (address_high d) ++ le_bytes 4 (idt_reserved d).

Section idt.
Context {H : Type}.

Inductive interrupt_handler :=
  | NullHandler
  | unused_general_purpose_slot
  | allocated_general_purpose_slot
  | Handler (handler : H).

Definition is_null (h : interrupt_handler) : bool := match h with NullHandler => true | _ => false end.
Definition is_unused (h : interrupt_handler) : bool :=
  match h with unused_general_purpose_slot => true | _ => false end.
Definition is_allocated (h : interrupt_handler) : bool :=
  match h with allocated_general_purpose_slot => true | _ => false end.

Record idt_state := Idt {
  interrupt_descriptor_table : list InterruptDescriptor;
  general_purpose_interrupt_handlers : list interrupt_handler
}.

Definition idt_initial : idt_state := Idt (replicate 256 zero_descriptor) (replicate 256 NullHandler).

Definition gate (h : Z) : InterruptDescriptor := {|
  address_low := Z.land h 0xFFFF;
  selector := 0x08;
  ist := 0;
  idt_flags := 0x8E;
  address_mid := Z.land (Z.shiftr h 16) 0xFFFF;
  address_high := Z.land (Z.shiftr h 32) 0xFFFFFFFF;
  idt_reserved := 0
|}.

Definition set_idt_entry (vec handler : Z) (s : idt_state) : outcome idt_state :=
  l ← arr_set (interrupt_descriptor_table s) vec (gate handler);
  Ok (Idt l (general_purpose_interrupt_handlers s)).

Definition set_handler (i : Z) (h : interrupt_handler) (s : idt_state) : outcome idt_state :=
  l ← arr_set (general_purpose_interrupt_handlers s) i h;
  Ok (Idt (interrupt_descriptor_table s) l).

(** [vector_n_handlers] is the table of entry points of interrupts_lowlevel.asm. *)
Definition setup_idt (vector_n_handlers : list Z) (s : idt_state) : outcome idt_state :=
  s ← c_foreach 0 256 (λ i s, h ← arr_get vector_n_handlers i; set_idt_entry i h s) s;
  c_foreach 33 N_INTERRUPTS (λ i s, set_handler i unused_general_purpose_slot s) s.

Definition allocate_free_idt_entry (s : idt_state) : outcome (Z * idt_state) :=
  r ← c_for 33 256 (λ i (_ : ()),
        h ← arr_get (general_purpose_interrupt_handlers s) i;
        _ ← c_assert (negb (is_null h));
        if is_unused h then s' ← set_handler i allocated_general_purpose_slot s; Ok (inr (i, s'))
        else Ok (inl tt)) tt;
  match r with inl _ => Halt | inr p => Ok p end.

Definition initialise_idt_entry (free_idt_entry : Z) (handler : H) (s : idt_state) : outcome idt_state :=
  _ ← c_assert (32 <? free_idt_entry);
  _ ← c_assert (free_idt_entry <? 256);
  h ← arr_get (general_purpose_interrupt_handlers s) free_idt_entry;
  _ ← c_assert (is_allocated h);
  set_handler free_idt_entry (Handler handler) s.

(** ** Reference: the processor's reading of a gate *)

(** The entry point of an interrupt gate, its present and type bits, from the 16 bytes of a descriptor. *)
Definition gate_entry (b : list Z) : Z := field b 0 2 + 2 ^ 16 * field b 6 2 + 2 ^ 32 * field b 8 4.
Definition gate_present (b : list Z) : bool := flag 7 (field b 5 1).
Definition gate_type (b : list Z) : Z := bits 0 4 (field b 5 1).

Lemma gate_encoded h : 0 ≤ h < 2 ^ 64 →
  let b := encode_descriptor (gate h) in
  length b = 16%nat ∧ gate_entry b = h ∧ gate_present b = true ∧ gate_type b = 14 ∧ field b 2 2 = 8.
Proof.
  intros Hh. unfold gate_entry, gate_present, gate_type, encode_descriptor, gate. simpl.
  change 0xFFFFFFFF with (Z.ones 32). change 0xFFFF with (Z.ones 16). rewrite !Z.land_ones, !Z.shiftr_div_pow2 by lia.
  split; [done|]. split; [|done]. unfold field. simpl. 
  Z.to_euclidean_division_equations; lia.
Qed.

(** ** The handler table *)

(** The vectors below [n] are claimed and those from [n] on are free. *)
Record idt_ok (s : idt_state) (n : Z) : Prop := {
  idt_length : length (general_purpose_interrupt_handlers s) = 256%nat;
  idt_next : 33 ≤ n ≤ 256;
  idt_claimed : ∀ i, 33 ≤ i < n → ∃ h, general_purpose_interrupt_handlers s !! Z.to_nat i = Some h ∧
    is_null h = false ∧ is_unused h = false;
  idt_free : ∀ i, n ≤ i < 256 → general_purpose_interrupt_handlers s !! Z.to_nat i = Some unused_general_purpose_slot
}.

Lemma setup_idt_wp v s :
  length v = 256%nat → length (interrupt_descriptor_table s) = 256%nat →
  length (general_purpose_interrupt_handlers s) = 256%nat →
  wp False (setup_idt v s) (λ s', idt_ok s' 33 ∧ 
    interrupt_descriptor_table s' = gate <$> v).
Proof.
  intros Hv Ht Hl. apply wp_bind. eapply wp_mono; [apply (wp_foreach False (λ j s',
    general_purpose_interrupt_handlers s' = general_purpose_interrupt_handlers s ∧
    interrupt_descriptor_table s' = take (Z.to_nat j) (gate <$> v) ++ drop (Z.to_nat j) (interrupt_descriptor_table s)));
    [done|done|]|].
  - intros j s' Hj [Eh Et]. destruct (lookup_lt_is_Some_2 v (Z.to_nat j)) as [h Hh]; [lia|].
    rewrite (arr_get_lookup _ _ h) by (done || lia). rewrite Ok_bind. unfold set_idt_entry. rewrite Et.
    rewrite arr_set_in_range by (rewrite length_app, length_take, length_drop, length_fmap; lia). simpl.
    split; [done|]. replace (Z.to_nat (j + 1)) with (S (Z.to_nat j)) by lia.
    destruct (lookup_lt_is_Some_2 (interrupt_descriptor_table s) (Z.to_nat j)) as [d Hd]; [lia|].
    erewrite take_S_r by (by rewrite list_lookup_fmap, Hh). rewrite (drop_S _ _ _ Hd), <-app_assoc. simpl.
    by rewrite insert_app_r_alt, length_take, length_fmap, Nat.min_l, Nat.sub_diag
      by (rewrite ?length_take, ?length_fmap; lia).
  - intros s1 [Eh Et]. eapply wp_mono; [apply (wp_foreach False (λ j s',
      interrupt_descriptor_table s' = interrupt_descriptor_table s1 ∧
      length (general_purpose_interrupt_handlers s') = 256%nat ∧
      ∀ i, 33 ≤ i < j → general_purpose_interrupt_handlers s' !! Z.to_nat i = Some unused_general_purpose_slot));
      [done| |]|].
    + split_and!; [done|congruence|lia].
    + intros j s' Hj (Ed & El & Hlk). unfold set_handler, N_INTERRUPTS in *. rewrite arr_set_in_range by lia. simpl.
      rewrite length_insert. split_and!; [done..|]. intros i Hi. destruct (decide (i = j)) as [->|].
      * apply list_lookup_insert_eq. lia.
      * rewrite list_lookup_insert_ne by lia. apply Hlk. lia.
    + intros s' (Ed & El & Hlk). split; [split; [done|lia|lia|done]|].
      rewrite Ed, Et, take_ge by (rewrite length_fmap; lia). rewrite drop_ge by lia. apply app_nil_r.
Qed.

Lemma allocate_wp s n : idt_ok s n →
  wp (n = 256) (allocate_free_idt_entry s) (λ '(i, s'), i = n ∧ n < 256 ∧ idt_ok s' (n + 1) ∧
    general_purpose_interrupt_handlers s' = <[Z.to_nat n := allocated_general_purpose_slot]> (general_purpose_interrupt_handlers s)).
Proof.
  intros I. destruct I as [Hl Hn Hc Hf]. apply wp_bind.
  eapply wp_mono; [apply (wp_for (n = 256) (λ j _, j ≤ n) (λ '(i, s'), i = n ∧ n < 256 ∧ idt_ok s' (n + 1) ∧
    general_purpose_interrupt_handlers s' = <[Z.to_nat n := allocated_general_purpose_slot]> (general_purpose_interrupt_handlers s)));
    [lia|lia|]|].
  - intros j [] Hj Hjn. destruct (decide (j < n)) as [Hlt|Hge].
    + destruct (Hc j ltac:(lia)) as (h & Hh & Hnull & Hun). rewrite (arr_get_lookup _ _ h) by (done || lia).
      rewrite Ok_bind, Hnull, Hun. simpl. lia.
    + assert (j = n) as -> by lia. rewrite (arr_get_lookup _ n unused_general_purpose_slot) by (lia || apply Hf; lia). rewrite Ok_bind. simpl.
      unfold set_handler. rewrite arr_set_in_range by lia. simpl.
      split_and!; [done|lia| |done]. split; simpl; [by rewrite length_insert|lia|..]; intros i Hi.
      * destruct (decide (i = n)) as [->|]; [eexists; split; [apply list_lookup_insert_eq; lia|done]|].
        rewrite list_lookup_insert_ne by lia. apply Hc. lia.
      * rewrite list_lookup_insert_ne by lia. apply Hf. lia.
  - intros [[]|[i s']]; simpl; [lia|tauto].
Qed.

(** Allocate [k] vectors one after the other. *)
Fixpoint allocate_many (k : nat) (s : idt_state) : outcome (list Z * idt_state) :=
  match k with
  | O => Ok ([], s)
  | S k => '(i, s) ← allocate_free_idt_entry s; '(l, s) ← allocate_many k s; Ok (i :: l, s)
  end.

Lemma allocate_many_wp k s n : idt_ok s n →
  wp (256 - n < Z.of_nat k) (allocate_many k s) (λ '(l, s'), l = seqZ n (Z.of_nat k) ∧ idt_ok s' (n + Z.of_nat k)).
Proof.
  revert s n. induction k as [|k IH]; intros s n I; cbn [allocate_many].
  - change (seqZ n (Z.of_nat 0)) with (@nil Z). by rewrite Z.add_0_r.
  - apply wp_bind. eapply wp_mono_halt; [by apply allocate_wp|lia|]. intros [i s1] (-> & Hn & I1 & _).
    apply wp_bind. eapply wp_mono_halt; [by apply IH|lia|]. intros [l s'] [-> I']. simpl. split.
    + rewrite (seqZ_cons n (Z.of_nat (S k))) by lia. f_equal. f_equal; lia.
    + by replace (n + Z.of_nat (S k)) with (n + 1 + Z.of_nat k) by lia.
Qed.

(** Interrupt vectors after setup_idt: with a table of 256 entry points the
    descriptors point at them in order, and allocating [k <= 223] vectors hands out exactly 33, 34, ...
    -- pairwise distinct and above the reserved ones; the 224th allocation stops the machine. *)
Theorem idt_allocation v s k :
  length v = 256%nat → length (interrupt_descriptor_table s) = 256%nat →
  length (general_purpose_interrupt_handlers s) = 256%nat →
  ∃ s0, setup_idt v s = Ok s0 ∧ interrupt_descriptor_table s0 = gate <$> v ∧
    (Z.of_nat k ≤ 223 → ∃ s', allocate_many k s0 = Ok (seqZ 33 (Z.of_nat k), s')) ∧
    (223 < Z.of_nat k → allocate_many k s0 = Halt).
Proof.
  intros Hv Ht Hl. destruct (wp_total_1 _ _ (setup_idt_wp v s Hv Ht Hl)) as (s0 & E & I & Et).
  exists s0. split_and!; [done|done|..]; intros Hk; pose proof (allocate_many_wp k s0 33 I) as W;
    destruct (allocate_many k s0) as [[l s']| | |]; simpl in W; try done; try lia.
  - destruct W as [-> _]. eauto.
  - destruct W as [_ []]. lia.
Qed.

(** The gates setup_idt writes are read back by the processor as they were meant: the
    entry point of any 64-bit handler address is recovered from the three pieces of the packed
    descriptor, which is present, an interrupt gate, in the kernel's code segment. *)
Theorem gate_roundtrip h : 0 ≤ h < 2 ^ 64 →
  let b := encode_descriptor (gate h) in
  length b = 16%nat ∧ gate_entry b = h ∧ gate_present b = true ∧ gate_type b = 14 ∧ field b 2 2 = 8.
Proof. apply gate_encoded. Qed.

(** setup_idt copies 256 entry points, but interrupts_lowlevel.asm defines 255: with a table of
    255 it reads past its end. *)
Theorem setup_idt_reads_past_table v s :
  length v = 255%nat → length (interrupt_descriptor_table s) = 256%nat → setup_idt v s = Undef.
Proof.
  intros Hv Ht. unfold setup_idt. rewrite (c_foreach_split 0 255) by lia.
  destruct (wp_total_1 (c_foreach 0 255 (λ i s, h ← arr_get v i; set_idt_entry i h s) s)
    (λ s', length (interrupt_descriptor_table s') = 256%nat)) as (s1 & -> & _).
  { apply (wp_foreach False (λ _ s', length (interrupt_descriptor_table s') = 256%nat)); [done|done|].
    intros j s' Hj Hs'. destruct (lookup_lt_is_Some_2 v (Z.to_nat j)) as [h Hh]; [lia|].
    rewrite (arr_get_lookup _ _ h) by (done || lia). rewrite Ok_bind. unfold set_idt_entry.
    rewrite arr_set_in_range by lia. simpl. by rewrite length_insert. }
  rewrite Ok_bind, c_foreach_S by lia. unfold arr_get. simpl.
  by rewrite (proj2 (lookup_ge_None v _)) by (rewrite Hv; lia).
Qed.
End idt.
