(* ===== verification/Hardware.v ===== *)
(** * What the drivers share: ports, device registers, firmware bytes and struct layouts

    The instructions of io.asm and the accesses through [volatile] pointers are
    the operations of classes: the hardware behind them is a parameter. *)
From S2P Require Import Prelude Bytes Arrays.

(** [in8(port)], [out8(port, v)] and their 16- and 32-bit forms (io.h): the width in
    bytes, the port and the value. *)
Class PortIO (D : Type) := {
  port_in : Z → Z → D → Z * D;
  port_out : Z → Z → Z → D → D
}.
#[global] Hint Mode PortIO + : typeclass_instances.

Section ports.
Context {D : Type} `{!PortIO D}.
Definition in8 (port : Z) : io D Z := λ d, let '(v, d) := port_in 1 (u16 port) d in Ok (u8 v, d).
Definition in16 (port : Z) : io D Z := λ d, let '(v, d) := port_in 2 (u16 port) d in Ok (u16 v, d).
Definition in32 (port : Z) : io D Z := λ d, let '(v, d) := port_in 4 (u16 port) d in Ok (u32 v, d).
Definition out8 (port v : Z) : io D () := λ d, Ok ((), port_out 1 (u16 port) (u8 v) d).
Definition out16 (port v : Z) : io D () := λ d, Ok ((), port_out 2 (u16 port) (u16 v) d).
Definition out32 (port v : Z) : io D () := λ d, Ok ((), port_out 4 (u16 port) (u32 v) d).
End ports.

(** 32-bit accesses of device registers at virtual addresses; undefined where no device answers. *)
Class Mmio (D : Type) := {
  mmio_read32 : Z → D → outcome (Z * D);
  mmio_write32 : Z → Z → D → outcome D
}.
#[global] Hint Mode Mmio + : typeclass_instances.

(** ** Struct layouts: the fields of a packed struct in order, with their sizes *)
Abbreviation layout := (list (string * Z)).

Fixpoint offsetof (l : layout) (f : string) : Z :=
  match l with
  | [] => 0
  | (g, n) :: l => if String.eqb g f then 0 else n + offsetof l f
  end.

Definition layout_size (l : layout) : Z := foldr (λ p n, p.2 + n) 0 l.

(** ** Bytes left by the firmware *)
Section firmware.
(** The byte at a virtual address. *)
Context (fw : Z → option Z).

Fixpoint load_le (p : Z) (n : nat) : outcome Z :=
  match n with
  | O => Ok 0
  | S n => b ← or_undef (fw p); r ← load_le (p + 1) n; Ok (b + 256 * r)
  end.

(** [memcmp(p, l, length l) == 0] *)
Fixpoint mem_equals (p : Z) (l : list Z) : outcome bool :=
  match l with
  | [] => Ok true
  | c :: l => b ← or_undef (fw p); if b =? c then mem_equals (p + 1) l else Ok false
  end.

(** The bytes [l] are at [p]. *)
Definition fw_bytes (p : Z) (l : list Z) : Prop := ∀ i b, l !! i = Some b → fw (p + Z.of_nat i) = Some b.

Lemma fw_bytes_cons p b l : fw_bytes p (b :: l) ↔ fw p = Some b ∧ fw_bytes (p + 1) l.
Proof.
  split.
  - intros H. split; [specialize (H 0%nat b eq_refl); by rewrite Z.add_0_r in H|].
    intros i c Hi. specialize (H (S i) c Hi). rewrite <-H. f_equal. lia.
  - intros [H0 H] [|i] c Hi; simpl in Hi; [simplify_eq; by rewrite Z.add_0_r|].
    specialize (H i c Hi). rewrite <-H. f_equal. lia.
Qed.

Lemma fw_bytes_app p l k : fw_bytes p (l ++ k) ↔ fw_bytes p l ∧ fw_bytes (p + Z.of_nat (length l)) k.
Proof.
  revert p. induction l as [|b l IH]; intros p; cbn [app length].
  - rewrite Z.add_0_r. split; [intros H; by split|by intros [_ ?]].
  - rewrite !fw_bytes_cons, IH.
    replace (p + 1 + Z.of_nat (length l)) with (p + Z.of_nat (S (length l))) by lia. tauto.
Qed.

Lemma load_le_bytes p n l : fw_bytes p l → (n ≤ length l)%nat → load_le p n = Ok (le_val (take n l)).
Proof.
  revert p l. induction n as [|n IH]; intros p l Hl Hn; [done|].
  destruct l as [|b l]; simpl in Hn; [lia|]. apply fw_bytes_cons in Hl as [Hb Hl]. simpl.
  rewrite Hb. simpl. rewrite (IH _ l) by (done || lia). done.
Qed.

Lemma mem_equals_bytes p l k :
  fw_bytes p l → (length k ≤ length l)%nat → mem_equals p k = Ok (bool_decide (take (length k) l = k)).
Proof.
  revert p l. induction k as [|c k IH]; intros p l Hl Hn; [by rewrite bool_decide_true|].
  destruct l as [|b l]; simpl in Hn; [lia|]. apply fw_bytes_cons in Hl as [Hb Hl].
  cbn [mem_equals]. rewrite Hb. simpl. destruct (b =? c) eqn:E; zbool.
  - subst b. rewrite (IH _ l) by (done || lia). f_equal. apply bool_decide_ext. split; congruence.
  - by rewrite bool_decide_false by congruence.
Qed.
End firmware.
