(* ===== verification/BitFields.v ===== *)
(** * Bit-field words

    A struct of bit-fields that fill one word is a layout: the names of its fields in order with
    their widths, the least significant first. [encode] is a designated initialiser (a field it does not name is zero),
    [get] and [put] read and assign one field. *)
From S2P Require Import Prelude Bytes Hardware.

Definition width_of (l : layout) (f : string) : Z :=
  foldr (λ p w, if String.eqb p.1 f then p.2 else w) 0 l.

Definition initialiser := list (string * Z).

Definition init_of (i : initialiser) (f : string) : Z :=
  foldr (λ p v, if String.eqb p.1 f then p.2 else v) 0 i.

Definition encode (l : layout) (i : initialiser) : Z := pack ((λ p, (p.2, init_of i p.1)) <$> l).

Definition get (l : layout) (f : string) (w : Z) : Z := bits (offsetof l f) (width_of l f) w.

(** The word with the [w] bits from [lo] on replaced by [v]. *)
Definition put_bits (lo w v z : Z) : Z :=
  z `mod` 2 ^ lo + 2 ^ lo * (v `mod` 2 ^ w + 2 ^ w * (z `div` 2 ^ (lo + w))).

Definition put (l : layout) (f : string) (v z : Z) : Z := put_bits (offsetof l f) (width_of l f) v z.

(** A layout fills [n] bits, its widths are positive and its names distinct. *)
Definition layout_ok (n : Z) (l : layout) : Prop :=
  layout_size l = n ∧ Forall (λ p, 0 < p.2) l ∧ NoDup (fst <$> l).

(** ** Lemmas *)
Lemma width_of_nonneg l f : Forall (λ p, 0 < p.2) l → 0 ≤ width_of l f.
Proof. induction 1 as [|[g n] l Hn _ IH]; simpl in *; [lia|]. destruct (String.eqb g f); lia. Qed.

Lemma offsetof_nonneg l f : Forall (λ p, 0 < p.2) l → 0 ≤ offsetof l f.
Proof. induction 1 as [|[g n] l Hn _ IH]; simpl in *; [lia|]. destruct (String.eqb g f); lia. Qed.

(** A field reads back as what the initialiser gave it, cut to its width. *)
Lemma get_encode l i f : Forall (λ p, 0 < p.2) l → f ∈ fst <$> l →
  get l f (encode l i) = init_of i f `mod` 2 ^ width_of l f.
Proof.
  unfold get, encode. intros Hl. induction Hl as [|[g n] l Hn Hl IH]; intros Hf; [by apply not_elem_of_nil in Hf|].
  change (width_of ((g, n) :: l) f) with (if String.eqb g f then n else width_of l f).
  cbn [fst snd fmap list_fmap offsetof] in *. destruct (String.eqb_spec g f) as [->|Hne].
  - apply bits_pack_hd. lia.
  - apply elem_of_cons in Hf as [->|Hf]; [done|]. pose proof (offsetof_nonneg l f Hl).
    rewrite bits_pack_tl by lia. rewrite <-IH by done. f_equal. lia.
Qed.

Lemma layout_size_pack l i : foldr (λ (p : Z * Z) n, p.1 + n) 0 ((λ p : string * Z, (p.2, init_of i p.1)) <$> l) = layout_size l.
Proof. unfold layout_size. induction l as [|[g n] l IH]; [done|]. cbn [fmap list_fmap foldr fst snd] in *. f_equal. exact IH. Qed.

Lemma encode_range n l i : layout_ok n l → 0 ≤ encode l i < 2 ^ n.
Proof.
  intros (<- & Hl & _). rewrite <-(layout_size_pack l i). apply pack_range. apply Forall_fmap.
  eapply Forall_impl; [exact Hl|]. intros [g w]; simpl; lia.
Qed.

Lemma bits_put_same lo w v z : 0 ≤ lo → 0 ≤ w → bits lo w (put_bits lo w v z) = v `mod` 2 ^ w.
Proof.
  intros Hlo Hw. unfold bits, put_bits.
  rewrite Z.add_comm, Z.mul_comm, Z.div_add_l by lia. rewrite (Z.div_small (z `mod` 2 ^ lo)) by (apply Z.mod_pos_bound; lia).
  by rewrite Z.add_0_r, (Z.mul_comm (2 ^ w)), Z_mod_plus_full, Z.mod_mod by lia.
Qed.

Lemma put_bits_low lo w v z : 0 ≤ lo → put_bits lo w v z `mod` 2 ^ lo = z `mod` 2 ^ lo.
Proof. intros Hlo. unfold put_bits. by rewrite (Z.mul_comm (2 ^ lo)), Z_mod_plus_full, Z.mod_mod by lia. Qed.

Lemma put_bits_high lo w v z : 0 ≤ lo → 0 ≤ w → put_bits lo w v z `div` 2 ^ (lo + w) = z `div` 2 ^ (lo + w).
Proof.
  intros Hlo Hw. unfold put_bits. pose proof (Z.mod_pos_bound z (2 ^ lo) ltac:(lia)) as Ha.
  pose proof (Z.mod_pos_bound v (2 ^ w) ltac:(lia)) as Hb. set (h := z `div` 2 ^ (lo + w)).
  set (a := z `mod` 2 ^ lo) in *. set (b := v `mod` 2 ^ w) in *. rewrite Z.pow_add_r, <-Z.div_div by lia.
  replace (a + 2 ^ lo * (b + 2 ^ w * h)) with ((b + 2 ^ w * h) * 2 ^ lo + a) by lia.
  rewrite Z.div_add_l, (Z.div_small a), Z.add_0_r by lia. rewrite Z.add_comm, (Z.mul_comm (2 ^ w)), Z.div_add_l by lia.
  rewrite (Z.div_small b) by lia. lia.
Qed.

Lemma bits_low lo w n z : 0 ≤ lo → 0 ≤ w → lo + w ≤ n → bits lo w (z `mod` 2 ^ n) = bits lo w z.
Proof.
  intros Hlo Hw Hn. unfold bits. apply Z.bits_inj'. intros i Hi. destruct (decide (i < w)).
  - rewrite !Z.mod_pow2_bits_low, !Z.div_pow2_bits by lia. apply Z.mod_pow2_bits_low. lia.
  - by rewrite !Z.mod_pow2_bits_high by lia.
Qed.

Lemma bits_high lo w n z : 0 ≤ n ≤ lo → bits lo w z = bits (lo - n) w (z `div` 2 ^ n).
Proof.
  intros Hn. unfold bits. rewrite Z.div_div by lia. rewrite <-Z.pow_add_r by lia. do 3 f_equal. lia.
Qed.

Lemma bits_put_other lo w v z lo' w' : 0 ≤ lo → 0 ≤ w → 0 ≤ lo' → 0 ≤ w' → lo' + w' ≤ lo ∨ lo + w ≤ lo' →
  bits lo' w' (put_bits lo w v z) = bits lo' w' z.
Proof.
  intros Hlo Hw Hlo' Hw' [H|H].
  - rewrite <-(bits_low lo' w' lo) by lia. rewrite put_bits_low by done. by apply bits_low.
  - rewrite (bits_high lo' w' (lo + w)) by lia. rewrite put_bits_high by done. symmetry. apply bits_high. lia.
Qed.

Lemma put_bits_range lo w v z n : 0 ≤ lo → 0 ≤ w → lo + w ≤ n → 0 ≤ z < 2 ^ n → 0 ≤ put_bits lo w v z < 2 ^ n.
Proof.
  intros Hlo Hw Hn Hz. unfold put_bits. pose proof (Z.mod_pos_bound z (2 ^ lo) ltac:(lia)) as Ha.
  pose proof (Z.mod_pos_bound v (2 ^ w) ltac:(lia)) as Hb. set (a := z `mod` 2 ^ lo) in *. set (b := v `mod` 2 ^ w) in *.
  assert (0 ≤ z `div` 2 ^ (lo + w) < 2 ^ (n - (lo + w))) as Hh.
  { split; [apply Z.div_pos; lia|]. apply Z.div_lt_upper_bound; [lia|]. rewrite <-Z.pow_add_r by lia.
    replace (lo + w + (n - (lo + w))) with n by lia. lia. }
  set (h := z `div` 2 ^ (lo + w)) in *.
  assert (2 ^ n = 2 ^ lo * (2 ^ w * 2 ^ (n - (lo + w)))) as ->.
  { rewrite <-!Z.pow_add_r by lia. f_equal. lia. }
  assert (0 ≤ b + 2 ^ w * h) by nia. assert (b + 2 ^ w * h + 1 ≤ 2 ^ w * 2 ^ (n - (lo + w))) by nia.
  clearbody a b h. split; [nia|apply (Z.lt_le_trans _ (2 ^ lo * (b + 2 ^ w * h + 1))); [lia|]].
  apply Z.mul_le_mono_nonneg_l; lia.
Qed.

(** Assigning a field of a layout: that field changes, the others do not. *)
Lemma get_put_same l f v z : Forall (λ p, 0 < p.2) l → get l f (put l f v z) = v `mod` 2 ^ width_of l f.
Proof. intros Hl. apply bits_put_same; [by apply offsetof_nonneg|by apply width_of_nonneg]. Qed.

Lemma fields_disjoint l f g : Forall (λ p, 0 < p.2) l → f ∈ fst <$> l → g ∈ fst <$> l → f ≠ g →
  offsetof l g + width_of l g ≤ offsetof l f ∨ offsetof l f + width_of l f ≤ offsetof l g.
Proof.
  intros Hl. induction Hl as [|[h n] l Hn Hl IH]; intros Hf Hg Hne; [by apply not_elem_of_nil in Hf|].
  change (width_of ((h, n) :: l) f) with (if String.eqb h f then n else width_of l f).
  change (width_of ((h, n) :: l) g) with (if String.eqb h g then n else width_of l g).
  cbn [fst snd fmap list_fmap offsetof] in *.
  pose proof (offsetof_nonneg l f Hl). pose proof (offsetof_nonneg l g Hl).
  destruct (String.eqb_spec h f) as [Ef|Ef], (String.eqb_spec h g) as [Eg|Eg]; [congruence|lia|lia|].
  apply elem_of_cons in Hf as [Hf|Hf]; [congruence|]. apply elem_of_cons in Hg as [Hg|Hg]; [congruence|].
  destruct (IH Hf Hg Hne); lia.
Qed.

Lemma get_put_other l f g v z : Forall (λ p, 0 < p.2) l → f ∈ fst <$> l → g ∈ fst <$> l → f ≠ g →
  get l g (put l f v z) = get l g z.
Proof.
  intros Hl Hf Hg Hne. apply bits_put_other; try by first [apply offsetof_nonneg|apply width_of_nonneg].
  by apply fields_disjoint.
Qed.

Lemma put_bits_twice lo w a b z : 0 ≤ lo → 0 ≤ w → put_bits lo w a (put_bits lo w b z) = put_bits lo w a z.
Proof. intros Hlo Hw. unfold put_bits at 1 3. by rewrite put_bits_low, put_bits_high. Qed.

Lemma put_twice l f a b z : Forall (λ p, 0 < p.2) l → put l f a (put l f b z) = put l f a z.
Proof. intros Hl. apply put_bits_twice; [by apply offsetof_nonneg|by apply width_of_nonneg]. Qed.

(** ** The bytes of a word *)
Lemma drop_le_bytes n o v : drop o (le_bytes n v) = le_bytes (n - o) (v `div` 256 ^ Z.of_nat o).
Proof.
  revert n v. induction o as [|o IH]; intros n v; [by rewrite Z.div_1_r, Nat.sub_0_r|].
  destruct n as [|n]; [done|]. cbn [le_bytes drop Nat.sub]. rewrite IH, Z.div_div by lia.
  do 2 f_equal. by rewrite Nat2Z.inj_succ, Z.pow_succ_r by lia.
Qed.

Lemma take_le_bytes n w v : (w ≤ n)%nat → take w (le_bytes n v) = le_bytes w v.
Proof.
  revert n v. induction w as [|w IH]; intros n v Hw; [done|]. destruct n as [|n]; [lia|]. cbn [le_bytes take].
  by rewrite IH by lia.
Qed.

Lemma field_le_bytes n o w v : (o + w ≤ n)%nat →
  field (le_bytes n v) o w = bits (8 * Z.of_nat o) (8 * Z.of_nat w) v.
Proof.
  intros H. unfold field. rewrite drop_le_bytes, take_le_bytes, le_val_bytes by lia. unfold bits.
  by rewrite !Z.pow_mul_r by lia.
Qed.
