(* ===== verification/Apic.v ===== *)
(** * Interrupt controllers and ACPI tables: stuos/src/apic.c

    The tables are bytes [fw] left by the firmware in the direct map; the local and
    the I/O APIC are devices behind [Mmio], the timer behind [PortIO]. *)
From S2P Require Import Prelude Bytes Arrays Hardware Slab Paging.

#[local] Open Scope string_scope.
#[local] Open Scope Z_scope.

(** ** Layouts *)

(** Each register takes 16 bytes. *)
Definition lapic_layout : layout := (λ '(f, n), (f, 16 * n)) <$> [
  ("reserved_1", 2); ("lapic_id", 1); ("lapic_version", 1); ("reserved_2", 4); ("task_priority", 1);
  ("arbitration_priority", 1); ("processor_priority", 1); ("end_of_interrupt", 1); ("remote_read", 1);
  ("logical_destination", 1); ("destination_format", 1); ("spurious_interrupt_vector", 1); ("in_service", 8);
  ("trigger_mode", 8); ("interrupt_request", 8); ("error_status", 1); ("reserved_3", 6);
  ("lvt_corrected_machine_check_interrupt", 1); ("interrupt_command_register", 2); ("lvt_timer", 1);
  ("lvt_thermal_sensor", 1); ("lvt_performance_monitoring_counters", 1); ("lvt_lint0", 1); ("lvt_lint1", 1);
  ("lvt_error", 1); ("initial_count", 1); ("current_count", 1); ("reserved_4", 4); ("divide_configuration", 1);
  ("reserved_5", 1)].

Definition RSDP_layout : layout := [
  ("signature", 8); ("checksum", 1); ("oem_id", 6); ("revision", 1); ("rsdt_address", 4);
  ("length", 4); ("xsdt_address", 8); ("ext_checksum", 1); ("reserved", 3)].

Definition SDTHeader_layout : layout := [
  ("signature", 4); ("length", 4); ("revision", 1); ("checksum", 1); ("oem_id", 6); ("oem_table_id", 8);
  ("oem_revision", 4); ("creator_id", 4); ("creator_revision", 4)].

Definition SIZEOF_SDTHeader : Z := layout_size SDTHeader_layout.
Definition RSDT_layout : layout := [("header", SIZEOF_SDTHeader); ("entries", 0)].
Definition XSDT_layout : layout := [("header", SIZEOF_SDTHeader); ("entries", 0)].
Definition MADT_layout : layout := [("header", SIZEOF_SDTHeader); ("local_apic_address", 4); ("flags", 4); ("entries", 0)].

Definition GenericAddressStructure_layout : layout := [
  ("address_space", 1); ("bit_width", 1); ("bit_offset", 1); ("access_size", 1); ("address", 8)].

Definition SIZEOF_GAS : Z := layout_size GenericAddressStructure_layout.
Definition FADT_layout : layout := [
  ("h", SIZEOF_SDTHeader); ("FirmwareCtrl", 4); ("Dsdt", 4); ("Reserved", 1);
  ("PreferredPowerManagementProfile", 1); ("SCI_Interrupt", 2); ("SMI_CommandPort", 4); ("AcpiEnable", 1);
  ("AcpiDisable", 1); ("S4BIOS_REQ", 1); ("PSTATE_Control", 1); ("PM1aEventBlock", 4); ("PM1bEventBlock", 4);
  ("PM1aControlBlock", 4); ("PM1bControlBlock", 4); ("PM2ControlBlock", 4); ("PMTimerBlock", 4);
  ("GPE0Block", 4); ("GPE1Block", 4); ("PM1EventLength", 1); ("PM1ControlLength", 1); ("PM2ControlLength", 1);
  ("PMTimerLength", 1); ("GPE0Length", 1); ("GPE1Length", 1); ("GPE1Base", 1); ("CStateControl", 1);
  ("WorstC2Latency", 2); ("WorstC3Latency", 2); ("FlushSize", 2); ("FlushStride", 2); ("DutyOffset", 1);
  ("DutyWidth", 1); ("DayAlarm", 1); ("MonthAlarm", 1); ("Century", 1); ("BootArchitectureFlags", 2);
  ("Reserved2", 1); ("Flags", 4); ("ResetReg", SIZEOF_GAS); ("ResetValue", 1); ("Reserved3", 3);
  ("X_FirmwareControl", 8); ("X_Dsdt", 8); ("X_PM1aEventBlock", SIZEOF_GAS); ("X_PM1bEventBlock", SIZEOF_GAS);
  ("X_PM1aControlBlock", SIZEOF_GAS); ("X_PM1bControlBlock", SIZEOF_GAS); ("X_PM2ControlBlock", SIZEOF_GAS);
  ("X_PMTimerBlock", SIZEOF_GAS); ("X_GPE0Block", SIZEOF_GAS); ("X_GPE1Block", SIZEOF_GAS)].

Definition IOAPICData_layout : layout := [("io_reg_sel", 4); ("reserved", 12); ("io_win", 4)].

Record RedirectionEntry := {
  vector : Z; delvMode : Z; destMode : Z; delvStatus : Z; pinPolarity : Z; remoteIRR : Z; triggerMode : Z;
  mask : Z; red_reserved : Z; destination : Z
}.

Definition encode_redirection (e : RedirectionEntry) : Z :=
  pack [(8, vector e); (3, delvMode e); (1, destMode e); (1, delvStatus e); (1, pinPolarity e); (1, remoteIRR e);
        (1, triggerMode e); (1, mask e); (39, red_reserved e); (8, destination e)].

(** The two halves of the union. *)
Definition lower (e : RedirectionEntry) : Z := encode_redirection e `mod` 2 ^ 32.
Definition upper (e : RedirectionEntry) : Z := encode_redirection e `div` 2 ^ 32.

Record IOAPIC := Ioapic { access : Z; interrupt_destination_apic_id : Z; max_redirection_entry : Z }.

Definition LAPIC_PHYS_ADDR : Z := 0xFEE00000.

Section apic.
Context {D : Type} `{!PortIO D} `{!Mmio D}.

Record apic := Apic {
  memory : mm;
  device : D;
  ioapic : IOAPIC;
  lapic_registers : Z;
  pm_timer_port : Z;
  pm_timer_mmio : Z;
  total_interrupts : Z;
  microseconds_per_interrupt : Z;
  training_temp : Z
}.

Definition with_device (d : D) (w : apic) : apic :=
  Apic (memory w) d (ioapic w) (lapic_registers w) (pm_timer_port w) (pm_timer_mmio w) (total_interrupts w)
    (microseconds_per_interrupt w) (training_temp w).
Definition with_memory (st : mm) (w : apic) : apic :=
  Apic st (device w) (ioapic w) (lapic_registers w) (pm_timer_port w) (pm_timer_mmio w) (total_interrupts w)
    (microseconds_per_interrupt w) (training_temp w).
Definition with_ioapic (i : IOAPIC) (w : apic) : apic :=
  Apic (memory w) (device w) i (lapic_registers w) (pm_timer_port w) (pm_timer_mmio w) (total_interrupts w)
    (microseconds_per_interrupt w) (training_temp w).
Definition with_lapic (p : Z) (w : apic) : apic :=
  Apic (memory w) (device w) (ioapic w) p (pm_timer_port w) (pm_timer_mmio w) (total_interrupts w)
    (microseconds_per_interrupt w) (training_temp w).
Definition with_pm_timer (port : Z) (w : apic) : apic :=
  Apic (memory w) (device w) (ioapic w) (lapic_registers w) port (pm_timer_mmio w) (total_interrupts w)
    (microseconds_per_interrupt w) (training_temp w).
Definition with_counters (total us temp : Z) (w : apic) : apic :=
  Apic (memory w) (device w) (ioapic w) (lapic_registers w) (pm_timer_port w) (pm_timer_mmio w) total us temp.

Definition write_reg (p v : Z) (w : apic) : outcome apic :=
  d ← mmio_write32 p (u32 v) (device w); Ok (with_device d w).
Definition read_reg (p : Z) (w : apic) : outcome (Z * apic) :=
  '(v, d) ← mmio_read32 p (device w); Ok (u32 v, with_device d w).

(** ** The tables *)
Section tables.
Context (fw : Z → option Z).

Definition matches_checksum (data len : Z) : outcome bool :=
  sum ← c_foreach 0 len (λ i sum, b ← or_undef (fw (data + i)); Ok (u8 (sum + b))) 0;
  Ok (sum =? 0).

Definition detect_pm_timer (fadt : Z) (w : apic) : outcome apic :=
  len ← load_le fw (fadt + offsetof FADT_layout "PMTimerLength") 1;
  _ ← c_assert (len =? 4);
  port ← load_le fw (fadt + offsetof FADT_layout "PMTimerBlock") 4;
  Ok (with_pm_timer port w).

Definition setup_ioapic (ioapic_phys_addr : Z) (w : apic) : outcome apic :=
  _ ← c_assert (access (ioapic w) =? 0);
  '(p, st) ← setup_mmio ioapic_phys_addr PAGE_SIZE (memory w);
  let w := with_memory st w in
  w ← write_reg (p + offsetof IOAPICData_layout "io_reg_sel") 1 w;
  '(v, w) ← read_reg (p + offsetof IOAPICData_layout "io_win") w;
  Ok (with_ioapic (Ioapic p (interrupt_destination_apic_id (ioapic w)) (u8 (Z.shiftr v 16))) w).

(** One record of the MADT, at [entry]. *)
Definition handle_madt_entry (entry : Z) (w : apic) : outcome apic :=
  ty ← load_le fw entry 1;
  if bool_decide (ty ∈ [0; 2; 3; 4; 5; 9]) then Ok w
  else if ty =? 1 then
    len ← load_le fw (entry + 1) 1;
    _ ← c_assert (len =? 12);
    a ← load_le fw (entry + 4) 4;
    setup_ioapic a w
  else Halt.

Definition madt_step (madt : Z) (s : Z * apic) : outcome (Z * apic + apic) :=
  let '(i, w) := s in
  let entries := madt + offsetof MADT_layout "entries" in
  len ← load_le fw (madt + offsetof SDTHeader_layout "length") 4;
  if u32 (0x2C + i) <? len then
    w ← handle_madt_entry (entries + i) w;
    n ← load_le fw (entries + u32 (i + 1)) 1;
    Ok (inl (u32 (i + n), w))
  else Ok (inr w).

Definition handle_madt (fuel : nat) (madt : Z) (w : apic) : outcome apic := c_while fuel (madt_step madt) (0, w).

(** "APIC", "FACP", "RSD PTR ", "XSDT", "RSDT" *)
Definition APIC_SIGNATURE : list Z := [65; 80; 73; 67].
Definition FACP_SIGNATURE : list Z := [70; 65; 67; 80].
Definition RSDP_SIGNATURE : list Z := [82; 83; 68; 32; 80; 84; 82; 32].
Definition XSDT_SIGNATURE : list Z := [88; 83; 68; 84].
Definition RSDT_SIGNATURE : list Z := [82; 83; 68; 84].

Definition handle_sdt (fuel : nat) (curr : Z) (w : apic) : outcome apic :=
  len ← load_le fw (curr + offsetof SDTHeader_layout "length") 4;
  ok ← matches_checksum curr len;
  _ ← c_assert ok;
  is_madt ← mem_equals fw (curr + offsetof SDTHeader_layout "signature") APIC_SIGNATURE;
  if is_madt : bool then handle_madt fuel curr w
  else
    is_fadt ← mem_equals fw (curr + offsetof SDTHeader_layout "signature") FACP_SIGNATURE;
    if is_fadt : bool then detect_pm_timer curr w else Ok w.

Definition handle_rsdp (fuel : nat) (rsdp : Z) (w : apic) : outcome apic :=
  sig ← mem_equals fw (rsdp + offsetof RSDP_layout "signature") RSDP_SIGNATURE;
  _ ← c_assert sig;
  ok ← matches_checksum rsdp 20;
  _ ← c_assert ok;
  revision ← load_le fw (rsdp + offsetof RSDP_layout "revision") 1;
  if revision =? 2 then
    len ← load_le fw (rsdp + offsetof RSDP_layout "length") 4;
    ok ← matches_checksum rsdp len;
    _ ← c_assert ok;
    a ← load_le fw (rsdp + offsetof RSDP_layout "xsdt_address") 8;
    let xsdt := phys_to_hhdm (memory w) a in
    sig ← mem_equals fw (xsdt + offsetof SDTHeader_layout "signature") XSDT_SIGNATURE;
    _ ← c_assert sig;
    len ← load_le fw (xsdt + offsetof SDTHeader_layout "length") 4;
    ok ← matches_checksum xsdt len;
    _ ← c_assert ok;
    c_foreach 0 (u64 (len - SIZEOF_SDTHeader) `div` 8) (λ i w,
      e ← load_le fw (xsdt + offsetof XSDT_layout "entries" + 8 * i) 8;
      handle_sdt fuel (phys_to_hhdm (memory w) e) w) w
  else
    a ← load_le fw (rsdp + offsetof RSDP_layout "rsdt_address") 4;
    let rsdt := phys_to_hhdm (memory w) a in
    sig ← mem_equals fw (rsdt + offsetof SDTHeader_layout "signature") RSDT_SIGNATURE;
    _ ← c_assert sig;
    len ← load_le fw (rsdt + offsetof SDTHeader_layout "length") 4;
    ok ← matches_checksum rsdt len;
    _ ← c_assert ok;
    c_foreach 0 (u32 (u64 (len - SIZEOF_SDTHeader) `div` 4)) (λ i w,
      e ← load_le fw (rsdt + offsetof RSDT_layout "entries" + 4 * i) 4;
      handle_sdt fuel (phys_to_hhdm (memory w) e) w) w.

Definition apic_init (fuel : nat) (rsdp_response : option Z) (w : apic) : outcome apic :=
  match rsdp_response with
  | None => Halt
  | Some address =>
      '(p, st) ← setup_mmio LAPIC_PHYS_ADDR PAGE_SIZE (memory w);
      let w := with_lapic p (with_memory st w) in
      '(v, w) ← read_reg (p + offsetof lapic_layout "spurious_interrupt_vector") w;
      _ ← c_assert (v =? 0x1FF);
      w ← write_reg (p + offsetof lapic_layout "initial_count") 1000000 w;
      w ← write_reg (p + offsetof lapic_layout "divide_configuration") 0 w;
      w ← write_reg (p + offsetof lapic_layout "lvt_timer") (Z.lor 32 (Z.shiftl 1 17)) w;
      handle_rsdp fuel address w
  end.
End tables.

(** ** Interrupt routing *)
Definition io_red_tbl (i : Z) : Z := u32 (0x10 + u32 (2 * i)).

Definition map_ioapic_interrupt (irq vec : Z) (w : apic) : outcome apic :=
  _ ← c_assert (irq <? max_redirection_entry (ioapic w));
  let entry := {| vector := vec; delvMode := 0; destMode := 0; delvStatus := 0; pinPolarity := 0; remoteIRR := 0;
    triggerMode := 0; mask := 0; red_reserved := 0; destination := interrupt_destination_apic_id (ioapic w) |} in
  let p := access (ioapic w) in
  w ← write_reg (p + offsetof IOAPICData_layout "io_reg_sel") (io_red_tbl irq) w;
  w ← write_reg (p + offsetof IOAPICData_layout "io_win") (lower entry) w;
  w ← write_reg (p + offsetof IOAPICData_layout "io_reg_sel") (u32 (io_red_tbl irq + 1)) w;
  write_reg (p + offsetof IOAPICData_layout "io_win") (upper entry) w.

Definition apic_eoi (w : apic) : outcome apic :=
  write_reg (lapic_registers w + offsetof lapic_layout "end_of_interrupt") 0 w.

Definition get_lapic_magic_address (w : apic) : outcome (Z * apic) :=
  '(v, w) ← read_reg (lapic_registers w + offsetof lapic_layout "lapic_id") w;
  Ok (u64 (LAPIC_PHYS_ADDR + u32 (Z.shiftl v 12)), w).

(** ** The clock *)
Definition read_pm_timer (w : apic) : outcome (Z * apic) :=
  '(res, w) ← (if negb (pm_timer_port w =? 0) then
       '(v, d) ← in32 (pm_timer_port w) (device w); Ok (v, with_device d w)
     else read_reg (pm_timer_mmio w) w);
  Ok (Z.land res 0xFFFFFF, w).

Definition apic_timer_counter (w : apic) : outcome apic :=
  w ← (if total_interrupts w =? 100 then
         '(t, w) ← read_pm_timer w; Ok (with_counters (total_interrupts w) (microseconds_per_interrupt w) t w)
       else Ok w);
  w ← (if total_interrupts w =? 101 then
         '(t, w) ← read_pm_timer w;
         let timer_ticks_between_interrupts := u32 (t - training_temp w) in
         Ok (with_counters (total_interrupts w) (u64 (1000000 * timer_ticks_between_interrupts) `div` 3579545)
               (training_temp w) w)
       else Ok w);
  Ok (with_counters (u64 (total_interrupts w + 1)) (microseconds_per_interrupt w) (training_temp w) w).

Definition get_uptime_ms (w : apic) : Z := u64 (total_interrupts w * microseconds_per_interrupt w) `div` 1000.
End apic.
