(* ===== verification/ApicSpec.v ===== *)
(** * What the ACPI and interrupt code does to well-formed tables and devices *)
From S2P Require Import Prelude Bytes Arrays Hardware Slab Paging Apic.

#[local] Open Scope string_scope.
#[local] Open Scope list_scope.
#[local] Open Scope Z_scope.

Example layout_offsets :
  offsetof lapic_layout "end_of_interrupt" = 0xB0 ∧ offsetof lapic_layout "spurious_interrupt_vector" = 0xF0 ∧
  offsetof lapic_layout "lvt_timer" = 0x320 ∧ offsetof lapic_layout "initial_count" = 0x380 ∧
  offsetof lapic_layout "divide_configuration" = 0x3E0 ∧ offsetof MADT_layout "entries" = 0x2C ∧
  offsetof FADT_layout "PMTimerBlock" = 76 ∧ offsetof FADT_layout "PMTimerLength" = 91.
Proof. by repeat split. Qed.

Section checksum.
Context (fw : Z → option Z).

Lemma sum_mod l : foldl (λ s b, u8 (s + b)) 0 l = u8 (foldl Z.add 0 l).
Proof.
  induction l as [|b l IH] using rev_ind; [done|]. rewrite !foldl_snoc, IH. unfold wrap.
  by rewrite Zplus_mod_idemp_l.
Qed.

Lemma matches_checksum_bytes p l : fw_bytes fw p l →
  matches_checksum fw p (Z.of_nat (length l)) = Ok (bool_decide (foldl Z.add 0 l `mod` 256 = 0)).
Proof.
  intros Hl. unfold matches_checksum.
  destruct (wp_total_1 (c_foreach 0 (Z.of_nat (length l)) (λ i sum, b ← or_undef (fw (p + i)); Ok (u8 (sum + b))) 0)
    (λ s, s = foldl (λ s b, u8 (s + b)) 0 l)) as (s & -> & ->).
  { eapply wp_mono; [apply (wp_foreach False (λ j s, s = foldl (λ s b, u8 (s + b)) 0 (take (Z.to_nat j) l))); [lia|done|]|].
    - intros j s Hj ->. destruct (lookup_lt_is_Some_2 l (Z.to_nat j)) as [b Hb]; [lia|].
      pose proof (Hl _ _ Hb) as Hf. rewrite Z2Nat.id in Hf by lia. rewrite Hf. simpl.
      replace (Z.to_nat (j + 1)) with (S (Z.to_nat j)) by lia. erewrite take_S_r by done. by rewrite foldl_snoc.
    - intros s ->. by rewrite Nat2Z.id, take_ge. }
  rewrite Ok_bind, sum_mod. f_equal. unfold wrap. change (2 ^ 8) with 256.
  case_bool_decide; [by apply Z.eqb_eq|by apply Z.eqb_neq].
Qed.
End checksum.

(** ** The interrupt controllers of the MADT *)
Section madt.
Context {D : Type} `{!PortIO D} `{!Mmio D} (fw : Z → option Z).

(** A record: its type and the bytes after the type and length. *)
Definition madt_record : Type := Z * list Z.

Definition record_ok (r : madt_record) : Prop :=
  is_byte r.1 ∧ Forall is_byte r.2 ∧ (length r.2 < 254)%nat.

Definition record_size (r : madt_record) : Z := 2 + Z.of_nat (length r.2).

Definition encode_record (r : madt_record) : list Z := r.1 :: record_size r :: r.2.

Definition encode_madt_entries (rs : list madt_record) : list Z := concat (encode_record <$> rs).

(** What a record asks for: an I/O APIC is set up at the address in its bytes 4 to 8. *)
Definition do_record (r : madt_record) (w : apic (D := D)) : outcome apic :=
  if bool_decide (r.1 ∈ [0; 2; 3; 4; 5; 9]) then Ok w
  else if r.1 =? 1 then
    if record_size r =? 12 then setup_ioapic (le_val (take 4 (drop 2 r.2))) w else Halt
  else Halt.

Fixpoint do_records (rs : list madt_record) (w : apic (D := D)) : outcome apic :=
  match rs with [] => Ok w | r :: rs => w ← do_record r w; do_records rs w end.

Lemma handle_entry_record p r w : record_ok r → fw_bytes fw p (encode_record r) →
  handle_madt_entry fw p w = do_record r w.
Proof.
  intros (Hty & Hb & Hl) Hfw. unfold handle_madt_entry, do_record.
  assert (load_le fw p 1 = Ok r.1) as ->.
  { rewrite (load_le_bytes _ _ _ _ Hfw) by (simpl; lia). simpl. f_equal. lia. }
  assert (load_le fw (p + 1) 1 = Ok (record_size r)) as Hn.
  { apply fw_bytes_cons in Hfw as [_ Hfw]. rewrite (load_le_bytes _ _ _ _ Hfw) by (simpl; lia). simpl. f_equal. lia. }
  rewrite Ok_bind, Hn. case_bool_decide; [done|]. destruct (r.1 =? 1) eqn:E1; [|done].
  rewrite Ok_bind. destruct (record_size r =? 12) eqn:E12; zbool; [|done]. cbn [c_assert]. rewrite Ok_bind.
  unfold encode_record in Hfw. rewrite !fw_bytes_cons in Hfw. destruct Hfw as (_ & _ & Hfw).
  unfold record_size in E12. rewrite <-(take_drop 2 r.2), fw_bytes_app in Hfw. destruct Hfw as [_ Hfw].
  rewrite length_take, Nat.min_l in Hfw by lia. replace (p + 1 + 1 + Z.of_nat 2) with (p + 4) in Hfw by lia.
  rewrite (load_le_bytes _ _ _ _ Hfw) by (rewrite length_drop; lia). done.
Qed.

Lemma encode_entries_cons r rs : encode_madt_entries (r :: rs) = encode_record r ++ encode_madt_entries rs.
Proof. done. Qed.

Lemma encode_record_length r : Z.of_nat (length (encode_record r)) = record_size r.
Proof. unfold record_size. simpl. lia. Qed.

Lemma madt_step_eq madt len i (w : apic (D := D)) : load_le fw (madt + 4) 4 = Ok len →
  madt_step fw madt (i, w) =
    if u32 (0x2C + i) <? len then
      w ← handle_madt_entry fw (madt + 0x2C + i) w;
      n ← load_le fw (madt + 0x2C + u32 (i + 1)) 1;
      Ok (inl (u32 (i + n), w))
    else Ok (inr w).
Proof.
  intros E. unfold madt_step. change (offsetof SDTHeader_layout "length") with 4.
  change (offsetof MADT_layout "entries") with 0x2C. by rewrite E.
Qed.

Lemma handle_madt_loop fuel madt len rs i w :
  load_le fw (madt + 4) 4 = Ok len → 0 ≤ i → len < 2 ^ 32 →
  0x2C + i + Z.of_nat (length (encode_madt_entries rs)) = len →
  Forall record_ok rs → fw_bytes fw (madt + 0x2C + i) (encode_madt_entries rs) →
  (length rs < fuel)%nat →
  c_while fuel (madt_step fw madt) (i, w) = do_records rs w.
Proof.
  intros Hlen Hi Hlt He Hok Hfw Hf. revert i w fuel Hi He Hfw Hf.
  induction Hok as [|r rs Hr Hok IH]; intros i w fuel Hi He Hfw Hf; destruct fuel as [|fuel]; simpl in Hf; try lia;
    cbn [c_while do_records]; rewrite (madt_step_eq _ len) by done.
  - simpl in He. rewrite wrap_small by lia. replace (0x2C + i <? len) with false by lia. done.
  - rewrite encode_entries_cons, fw_bytes_app in Hfw. destruct Hfw as [Hfr Hfw].
    rewrite encode_entries_cons, length_app in He. rewrite encode_record_length in Hfw.
    pose proof (encode_record_length r) as Hrl. pose proof Hr as (_ & _ & Hr254). unfold record_size in *.
    rewrite !wrap_small by lia. replace (0x2C + i <? len) with true by lia.
    rewrite (handle_entry_record _ r) by done.
    destruct (do_record r w) as [w'| | |]; [rewrite !Ok_bind|done..].
    assert (load_le fw (madt + 44 + (i + 1)) 1 = Ok (2 + Z.of_nat (length r.2))) as ->.
    { apply fw_bytes_cons in Hfr as [_ Hfr]. replace (madt + 44 + (i + 1)) with (madt + 44 + i + 1) by lia.
      rewrite (load_le_bytes _ _ _ _ Hfr) by (simpl; lia). simpl. unfold record_size. f_equal. lia. }
    rewrite !Ok_bind, wrap_small by lia. apply IH; [lia|lia| |lia].
    by replace (madt + 44 + (i + (2 + Z.of_nat (length r.2)))) with (madt + 44 + i + (2 + Z.of_nat (length r.2))) by lia.
Qed.

(** C30: Parsing the MADT.  On a table that is a sequence of well-formed records the walk over raw bytes --
    index arithmetic in 32 bits, lengths read from the table -- visits exactly the records, in order:
    it behaves, halting included, as the loop over the list of records that sets up the I/O APIC of each record of type 1,
    ignores the known other types and stops the machine on any other. *)
Theorem handle_madt_spec fuel madt header rs (w : apic (D := D)) :
  length header = 44%nat → fw_bytes fw madt (header ++ encode_madt_entries rs) → Forall record_ok rs →
  le_val (take 4 (drop 4 header)) = 44 + Z.of_nat (length (encode_madt_entries rs)) →
  44 + Z.of_nat (length (encode_madt_entries rs)) < 2 ^ 32 →
  (length rs < fuel)%nat →
  handle_madt fw fuel madt w = do_records rs w.
Proof.
  intros Hh Hfw Hok Hlen Hlt Hf. rewrite fw_bytes_app in Hfw. destruct Hfw as [Hfh Hfw]. rewrite Hh in Hfw.
  apply (handle_madt_loop _ _ (44 + Z.of_nat (length (encode_madt_entries rs)))); try done; try lia.
  - rewrite <-(take_drop 4 header), fw_bytes_app in Hfh. destruct Hfh as [_ Hfh].
    rewrite length_take, Nat.min_l in Hfh by lia. rewrite <-Hlen.
    by rewrite (load_le_bytes _ _ _ _ Hfh) by (rewrite length_drop; lia).
  - by rewrite Z.add_0_r.
Qed.

(** A record of length 0 is visited for ever. *)
Lemma handle_madt_zero_length fuel madt len ty (w : apic (D := D)) :
  load_le fw (madt + 4) 4 = Ok len → 0x2C < len → fw (madt + 0x2C) = Some ty → ty ∈ [0; 2; 3; 4; 5; 9] →
  fw (madt + 0x2D) = Some 0 → handle_madt fw fuel madt w = OutOfFuel.
Proof.
  intros Hlen Hlt Hty Hin Hz. unfold handle_madt. induction fuel as [|fuel IH]; [done|]. cbn [c_while].
  assert (madt_step fw madt (0, w) = Ok (inl (0, w))) as E; [|by rewrite E, Ok_bind].
  rewrite (madt_step_eq _ len) by done.
  change (u32 (0x2C + 0)) with 0x2C. replace (0x2C <? len) with true by lia.
  unfold handle_madt_entry. cbn [load_le]. rewrite Z.add_0_r, Hty. cbn [or_undef mbind outcome_bind].
  replace (ty + 256 * 0) with ty by lia. rewrite bool_decide_true by done.
  change (u32 (0 + 1)) with 1. replace (madt + 44 + 1) with (madt + 0x2D) by lia. rewrite Hz. done.
Qed.
End madt.

(** ** Routing an interrupt

    What the code relies on of an I/O APIC at [base]: the first register selects one
    of the 256 registers behind it, the other, 16 bytes on, is a window on the selected one. *)
Class IoApicDevice (D : Type) `{!Mmio D} (base : Z) := {
  io_selected : D → Z;
  io_register : D → Z → Z;
  io_select d v : ∃ d', mmio_write32 base v d = Ok d' ∧ io_selected d' = v `mod` 256 ∧
    ∀ i, io_register d' i = io_register d i;
  io_write d v : 0 ≤ v < 2 ^ 32 → ∃ d', mmio_write32 (base + 16) v d = Ok d' ∧ io_selected d' = io_selected d ∧
    ∀ i, io_register d' i = if decide (i = io_selected d) then v else io_register d i
}.

(** The redirection entry of an interrupt line, as the device reads it. *)
Definition redirection `{IoApicDevice D base} (d : D) (irq : Z) : Z :=
  io_register d (0x10 + 2 * irq) + 2 ^ 32 * io_register d (0x10 + 2 * irq + 1).

Section routing.
Context {D : Type} `{!PortIO D} `{!Mmio D} (base : Z) `{!IoApicDevice D base}.

Lemma encode_redirection_range e : 0 ≤ encode_redirection e < 2 ^ 64.
Proof.
  unfold encode_redirection. match goal with |- 0 ≤ pack ?l < _ => apply (pack_range l) end. by repeat constructor.
Qed.

Lemma lower_upper e : lower e + 2 ^ 32 * upper e = encode_redirection e ∧ 0 ≤ lower e < 2 ^ 32 ∧ 0 ≤ upper e < 2 ^ 32.
Proof.
  pose proof (encode_redirection_range e). unfold lower, upper. Z.to_euclidean_division_equations; lia.
Qed.

Lemma select_then_write (w : apic (D := D)) r v :
  0 ≤ r < 256 → 0 ≤ v < 2 ^ 32 →
  ∃ w', (w ← write_reg base r w; write_reg (base + 16) v w) = Ok w' ∧ ioapic w' = ioapic w ∧
    ∀ i, io_register (device w') i = if decide (i = r) then v else io_register (device w) i.
Proof.
  intros Hr Hv. unfold write_reg. rewrite !wrap_small by lia.
  destruct (io_select (device w) r) as (d1 & E1 & Hsel & Hreg). rewrite E1, !Ok_bind. cbn [device with_device].
  destruct (io_write d1 v Hv) as (d2 & E2 & _ & Hreg2). rewrite E2, Ok_bind. eexists. split; [done|]. split; [done|].
  intros i. cbn [device with_device]. rewrite Hreg2, Hsel, Z.mod_small by lia. case_decide; [done|]. apply Hreg.
Qed.

Lemma map_ioapic_interrupt_wp irq vec (w : apic (D := D)) :
  access (ioapic w) = base → 0 ≤ irq < max_redirection_entry (ioapic w) → max_redirection_entry (ioapic w) ≤ 120 →
  0 ≤ vec < 256 → 0 ≤ interrupt_destination_apic_id (ioapic w) < 256 →
  ∃ w', map_ioapic_interrupt irq vec w = Ok w' ∧ ioapic w' = ioapic w ∧
    redirection (device w') irq = vec + 2 ^ 56 * interrupt_destination_apic_id (ioapic w) ∧
    ∀ irq', 0 ≤ irq' → irq' ≠ irq → redirection (device w') irq' = redirection (device w) irq'.
Proof.
  intros Hb Hirq Hmax Hvec Hid. unfold map_ioapic_interrupt. replace (irq <? max_redirection_entry (ioapic w)) with true by lia.
  cbn [c_assert]. rewrite Ok_bind, Hb. change (offsetof IOAPICData_layout "io_reg_sel") with 0.
  change (offsetof IOAPICData_layout "io_win") with 16. rewrite Z.add_0_r.
  set (e := Build_RedirectionEntry _ _ _ _ _ _ _ _ _ _).
  pose proof (lower_upper e) as (Hsum & Hlo & Hup). unfold io_red_tbl. rewrite (wrap_small 32 (2 * irq)), (wrap_small 32 (0x10 + 2 * irq)), wrap_small by lia.
  destruct (select_then_write w (0x10 + 2 * irq) (lower e)) as (w1 & E1 & Ei1 & R1); [lia|done|].
  destruct (select_then_write w1 (0x10 + 2 * irq + 1) (upper e)) as (w2 & E2 & Ei2 & R2); [lia|done|].
  exists w2. split; [|split; [congruence|split]].
  - apply bind_Ok in E1 as (wa & -> & E1). rewrite Ok_bind, E1, Ok_bind. exact E2.
  - unfold redirection. rewrite !R2, !R1. repeat (case_decide; try lia). rewrite Hsum.
    unfold encode_redirection, pack, e. simpl. rewrite !Z.mod_small by lia. lia.
  - intros irq' H0 Hne. unfold redirection. rewrite !R2, !R1. repeat (case_decide; try lia).
Qed.

(** Routing an interrupt line.  map_ioapic_interrupt programs, through the two-register
    window, the 64-bit redirection entry of the line so that the device reads the given vector and destination
    with every other field -- the mask, too -- zero, and leaves the entries of the other lines
    alone; it stops the machine for a line at or above the number setup_ioapic read from the device. *)
Theorem map_ioapic_interrupt_spec irq vec (w : apic (D := D)) :
  access (ioapic w) = base → 0 ≤ irq → max_redirection_entry (ioapic w) ≤ 120 →
  0 ≤ vec < 256 → 0 ≤ interrupt_destination_apic_id (ioapic w) < 256 →
  if irq <? max_redirection_entry (ioapic w) then
    ∃ w', map_ioapic_interrupt irq vec w = Ok w' ∧
      redirection (device w') irq = vec + 2 ^ 56 * interrupt_destination_apic_id (ioapic w) ∧
      ∀ irq', 0 ≤ irq' → irq' ≠ irq → redirection (device w') irq' = redirection (device w) irq'
  else map_ioapic_interrupt irq vec w = Halt.
Proof.
  intros Hb Hirq Hmax Hvec Hid. destruct (irq <? max_redirection_entry (ioapic w)) eqn:E; zbool.
  - destruct (map_ioapic_interrupt_wp irq vec w) as (w' & ? & ? & ? & ?); [done|lia|done|done|done|]. eauto.
  - unfold map_ioapic_interrupt. by replace (irq <? max_redirection_entry (ioapic w)) with false by lia.
Qed.
End routing.

(** ** Two slips of the clock and of the message address *)
Section slips.
Context {D : Type} `{!PortIO D} `{!Mmio D}.

(** The local APIC's identifier is in bits 24 to 31 of its register: shifted by 12 in 32 bits it is lost,
    and the address is that of processor 0. *)
Lemma magic_address_loses_id id (w : apic (D := D)) d :
  0 ≤ id < 256 → mmio_read32 (lapic_registers w + 0x20) (device w) = Ok (id * 2 ^ 24, d) →
  get_lapic_magic_address w = Ok (LAPIC_PHYS_ADDR, with_device d w).
Proof.
  intros Hid E. unfold get_lapic_magic_address, read_reg. change (offsetof lapic_layout "lapic_id") with 0x20.
  rewrite E, !Ok_bind. cbv beta iota. rewrite (wrap_small 32 (id * 2 ^ 24)), Z.shiftl_mul_pow2 by lia.
  replace (id * 2 ^ 24 * 2 ^ 12) with (id * 16 * 2 ^ 32) by lia.
  unfold wrap at 2. by rewrite Z.mod_mul by lia.
Qed.

(** When the 24-bit timer wraps between the two interrupts measured, the difference
    is taken in 32 bits and the tick length is wrong by 255 periods of the timer. *)
Lemma timer_wrap_mismeasured t0 t1 d (w : apic (D := D)) :
  total_interrupts w = 101 → training_temp w = t0 → pm_timer_port w ≠ 0 →
  port_in 4 (u16 (pm_timer_port w)) (device w) = (t1, d) →
  0 ≤ t1 < t0 → t0 < 2 ^ 24 →
  ∃ w', apic_timer_counter w = Ok w' ∧
    microseconds_per_interrupt w' = (1000000 * (2 ^ 24 + t1 - t0 + 255 * 2 ^ 24)) `div` 3579545.
Proof.
  intros Ht Htr Hp E Ht1 Ht0. unfold apic_timer_counter. rewrite Ht. change (101 =? 100) with false.
  cbn [mbind outcome_bind]. rewrite Ht. change (101 =? 101) with true.
  unfold read_pm_timer, in32. replace (pm_timer_port w =? 0) with false by lia. cbn [negb]. rewrite E.
  cbn [mbind outcome_bind]. eexists. split; [reflexivity|].
  cbn [microseconds_per_interrupt with_counters training_temp with_device]. rewrite Htr.
  rewrite (wrap_small 32 t1) by lia. change 0xFFFFFF with (Z.ones 24). rewrite Z.land_ones, Z.mod_small by lia.
  unfold wrap at 2. replace (t1 - t0) with (2 ^ 32 + t1 - t0 + (-1) * 2 ^ 32) by lia.
  rewrite Z_mod_plus_full, Z.mod_small, wrap_small by lia. f_equal. lia.
Qed.
End slips.
