(* ===== verification/Tty.v ===== *)
(** * The terminal: stuos/src/tty.c

    Characters are signed [char] values; the buffer of the screen's text is a
    ring of rows whose last one is row [cursor_y]. *)
From S2P Require Import Prelude Arrays Font Display.

Definition CHAR_MEMORY_SIZE : Z := 8.
Definition CHAR_SCALE_FACTOR : Z := 2.
Definition CHAR_SCREEN_SIZE : Z := CHAR_MEMORY_SIZE * CHAR_SCALE_FACTOR.
Definition INPUT_BUF_LENGTH : Z := 1000.
(** uapi/termios.h *)
Definition ICANON : Z := 2.

Inductive dirty_status := ONLY_PREV_CHAR_AFFECTED | ALL_DIRTY.

Record tty := Tty {
  chars_width : Z;
  chars_height : Z;
  cursor_x : Z;
  cursor_y : Z;
  buffer : option (list Z);
  current_run_of_keyboard_inputs : Z;
  c_lflag : Z;
  current_buffer_dirty_status : dirty_status;
  input_buffer : list Z;
  next : Z;                   (* next - input_buffer *)
  disp : display
}.

Definition tty_initial (d : display) : tty :=
  Tty 0 0 0 0 None 0 ICANON ALL_DIRTY (replicate 1000 0) 0 d.

Definition text_col : Colour := Build_Colour 255 255 255 0.
Definition background_col : Colour := Build_Colour 0 0 0 0.

Section setters.
Context (t : tty).
Definition with_cursor x y : tty := Tty (chars_width t) (chars_height t) x y (buffer t)
  (current_run_of_keyboard_inputs t) (c_lflag t) (current_buffer_dirty_status t) (input_buffer t) (next t) (disp t).
Definition with_buffer b : tty := Tty (chars_width t) (chars_height t) (cursor_x t) (cursor_y t) b
  (current_run_of_keyboard_inputs t) (c_lflag t) (current_buffer_dirty_status t) (input_buffer t) (next t) (disp t).
Definition with_run n : tty := Tty (chars_width t) (chars_height t) (cursor_x t) (cursor_y t) (buffer t)
  n (c_lflag t) (current_buffer_dirty_status t) (input_buffer t) (next t) (disp t).
Definition with_dirty s : tty := Tty (chars_width t) (chars_height t) (cursor_x t) (cursor_y t) (buffer t)
  (current_run_of_keyboard_inputs t) (c_lflag t) s (input_buffer t) (next t) (disp t).
Definition with_input l n : tty := Tty (chars_width t) (chars_height t) (cursor_x t) (cursor_y t) (buffer t)
  (current_run_of_keyboard_inputs t) (c_lflag t) (current_buffer_dirty_status t) l n (disp t).
Definition with_display d : tty := Tty (chars_width t) (chars_height t) (cursor_x t) (cursor_y t) (buffer t)
  (current_run_of_keyboard_inputs t) (c_lflag t) (current_buffer_dirty_status t) (input_buffer t) (next t) d.
End setters.

(** ** Operations *)

(** 0 if there is no newline, or [i] such that [input_buffer[i-1] == '\n'] *)
Definition find_newline_in_input_buffer (t : tty) : outcome Z :=
  r ← c_for 0 (next t) (λ i (_ : ()), c ← arr_get (input_buffer t) i;
        if c =? 10 then Ok (inr (i + 1)) else Ok (inl tt)) tt;
  match r with inl _ => Ok 0 | inr i => Ok i end.

Definition index_buffer (t : tty) (x y : Z) : outcome Z :=
  _ ← hcf_if (chars_height t <=? y);
  _ ← hcf_if (chars_width t <=? x);
  Ok (u64 (x + u64 (chars_width t * y))).

(** [(current_row >> (x_offset / CHAR_SCALE_FACTOR)) & 1] *)
Definition is_foreground_pixel (current_row x_offset : Z) : bool :=
  negb (Z.land (Z.shiftr (s8 current_row) (x_offset `div` CHAR_SCALE_FACTOR)) 1 =? 0).

Definition pixel_colour (current_row x_offset : Z) : Colour :=
  if is_foreground_pixel current_row x_offset then text_col else background_col.

Definition blit_char (c start_pixel_x start_pixel_y : Z) (d : display) : outcome display :=
  bitmap_start ← arr_get font8x8_basic (u64 c);
  c_foreach 0 CHAR_SCREEN_SIZE (λ y_offset d,
    current_row ← arr_get bitmap_start (y_offset `div` CHAR_SCALE_FACTOR);
    c_foreach 0 CHAR_SCREEN_SIZE (λ x_offset d,
      display_write_pixel (u64 (start_pixel_x + x_offset)) (u64 (start_pixel_y + y_offset))
        (pixel_colour current_row x_offset) d) d) d.

Definition blit_row (w : Z) (buf : list Z) (chars char_y : Z) (d : display) : outcome display :=
  '(_, d) ← c_foreach 0 w (λ char_x '(row_has_seen_newline, d),
    curr ← arr_get buf (chars + char_x);
    let row_has_seen_newline := row_has_seen_newline || (curr =? 10) in
    let curr := if row_has_seen_newline : bool then 32 else curr in
    d ← blit_char curr (u64 (char_x * CHAR_SCREEN_SIZE)) (u64 (char_y * CHAR_SCREEN_SIZE)) d;
    Ok (row_has_seen_newline, d)) (false, d);
  Ok d.

Definition blit (t : tty) : outcome tty :=
  match current_buffer_dirty_status t with
  | ONLY_PREV_CHAR_AFFECTED =>
      i ← index_buffer t (u32 (cursor_x t - 1)) (cursor_y t);
      buf ← or_undef (buffer t);
      c ← arr_get buf i;
      d ← blit_char c (u32 (u32 (cursor_x t - 1) * CHAR_SCREEN_SIZE))
                      (u64 (u64 (chars_height t - 1) * CHAR_SCREEN_SIZE)) (disp t);
      Ok (with_display t d)
  | ALL_DIRTY =>
      d ← c_foreach 0 (chars_height t) (λ line_num d,
            let buffer_y := u64 (line_num + cursor_y t + 1) `mod` chars_height t in
            i ← index_buffer t 0 buffer_y;
            buf ← or_undef (buffer t);
            blit_row (chars_width t) buf i line_num d) (disp t);
      Ok (with_display t d)
  end.

(** [malloc] gives the block's contents, or nothing for NULL. *)
Definition initialise_tty (malloc : Z → option (list Z)) (t : tty) : outcome tty :=
  w ← display_get_width (disp t);
  h ← display_get_height (disp t);
  let w := w `div` CHAR_SCREEN_SIZE in
  let h := h `div` CHAR_SCREEN_SIZE in
  let buf_len := u64 (w * h) in
  buf ← or_undef (malloc buf_len);
  buf ← arr_fill buf 0 buf_len 32;
  blit (Tty w h (cursor_x t) (cursor_y t) (Some buf) (current_run_of_keyboard_inputs t) (c_lflag t)
    ALL_DIRTY (input_buffer t) (next t) (disp t)).

(** [memset(buffer + index_buffer(cursor_x, cursor_y), ' ', chars_width)] *)
Definition clear_row (t : tty) : outcome tty :=
  i ← index_buffer t (cursor_x t) (cursor_y t);
  buf ← or_undef (buffer t);
  buf ← arr_fill buf i (chars_width t) 32;
  Ok (with_buffer t (Some buf)).

(** [buffer[index_buffer(cursor_x, cursor_y)] = c] *)
Definition put_char (c : Z) (t : tty) : outcome tty :=
  i ← index_buffer t (cursor_x t) (cursor_y t);
  buf ← or_undef (buffer t);
  buf ← arr_set buf i c;
  Ok (with_buffer t (Some buf)).

Definition do_newline (t : tty) : outcome tty :=
  let t := with_cursor t 0 (u32 (u32 (cursor_y t + 1) `mod` chars_height t)) in
  t ← clear_row t;
  Ok (with_dirty t ALL_DIRTY).

Definition canonical (t : tty) : bool := negb (Z.land (c_lflag t) ICANON =? 0).

Definition write_from_multiple_sources (c : Z) (is_from_keyboard : bool) (t : tty) : outcome tty :=
  match buffer t with
  | None => Ok t
  | Some _ =>
    let c := if c <? 0 then 63 else c in
    if (c =? 8) && is_from_keyboard && canonical t then
      if current_run_of_keyboard_inputs t =? 0 then Ok t else
      let t := with_run t (u64 (current_run_of_keyboard_inputs t - 1)) in
      let t :=
        if cursor_x t =? 0 then
          with_cursor t (u32 (u64 (chars_width t - 1)))
            (if cursor_y t =? 0 then u32 (u64 (chars_height t - 1)) else u32 (cursor_y t - 1))
        else with_cursor t (u32 (cursor_x t - 1)) (cursor_y t) in
      t ← put_char 32 t;
      blit (with_dirty t ALL_DIRTY)
    else
      t ← (if cursor_x t =? 0 then clear_row t else Ok t);
      t ← put_char c t;
      let t := with_run t (if is_from_keyboard then u64 (current_run_of_keyboard_inputs t + 1) else 0) in
      t ← (if c =? 10 then do_newline (with_run t 0)
           else Ok (with_dirty (with_cursor t (u32 (cursor_x t + 1)) (cursor_y t)) ONLY_PREV_CHAR_AFFECTED));
      t ← (if cursor_x t =? chars_width t then do_newline t else Ok t);
      blit (with_cursor t (cursor_x t) (u32 (cursor_y t `mod` chars_height t)))
  end.

Definition tty_write_char (c : Z) (t : tty) : outcome tty := write_from_multiple_sources c false t.

Definition tty_provide_stdin (x : Z) (t : tty) : outcome tty :=
  if x =? 0 then Ok t else
  t ← write_from_multiple_sources x true t;
  if (x =? 8) && canonical t then
    if next t =? 0 then Ok t else Ok (with_input t (input_buffer t) (next t - 1))
  else
    _ ← hcf_if (next t =? INPUT_BUF_LENGTH);
    l ← arr_set (input_buffer t) (next t) x;
    Ok (with_input t l (next t + 1)).

(** The bytes read, the caller's array and the terminal. *)
Definition tty_read (out : list Z) (num : Z) (t : tty) : outcome (Z * list Z * tty) :=
  _ ← hcf_if (negb (canonical t));
  end_position ← find_newline_in_input_buffer t;
  let num := if end_position <? num then end_position else num in
  if num =? 0 then Ok (0, out, t) else
  out ← c_foreach 0 num (λ i out, c ← arr_get (input_buffer t) i; arr_set out i c) out;
  let remaining := u64 (next t - num) in
  l ← c_foreach 0 remaining (λ j l, c ← arr_get l (j + num); arr_set l j c) (input_buffer t);
  Ok (num, out, with_input t l (next t - num)).
