(* ===== verification/TtySpec.v ===== *)
(** * The terminal's screen refines a page of text

    The abstract terminal holds the visible lines and a column; the driver
    keeps them in a ring and redraws only what changed. *)
From S2P Require Import Prelude Arrays Font Display Tty.

#[local] Arguments c_foreach : simpl never.
#[local] Arguments display_write_pixel : simpl never.

(** ** Pixels *)

(** The colour of a pixel of the glyph of [c]. *)
Definition glyph_colour (c px py : Z) : Colour :=
  pixel_colour ((font8x8_basic !!! Z.to_nat c) !!! Z.to_nat (py `div` 2)) px.

(** The colour a pixel has when the screen shows [rows], the bottom one first. *)
Definition text_pixel (h : Z) (rows : list (list Z)) (X Y : Z) : Colour :=
  glyph_colour ((rows !!! Z.to_nat (h - 1 - Y `div` 16)) !!! Z.to_nat (X `div` 16)) (X `mod` 16) (Y `mod` 16).

Definition screen_shows (d : display) (w h : Z) (rows : list (list Z)) : Prop :=
  ∀ X Y, 0 ≤ X < 16 * w → 0 ≤ Y < 16 * h → pixel d X Y = Some (text_pixel h rows X Y).

Lemma same_geometry_refl d : display_ok d → same_geometry d d.
Proof. done. Qed.

Lemma same_geometry_trans d1 d2 d3 : same_geometry d1 d2 → same_geometry d2 d3 → same_geometry d1 d3.
Proof. intros (? & ? & ?) (? & ? & ?). split_and!; congruence || done. Qed.

Lemma glyph_row c : 0 ≤ c < 128 → ∃ g, arr_get font8x8_basic (u64 c) = Ok g ∧ length g = 8%nat ∧
  g = font8x8_basic !!! Z.to_nat c.
Proof.
  intros Hc. destruct font8x8_basic_shape as [Hl Hg].
  destruct (arr_get_in_range font8x8_basic c) as (g & Hlk & E); [rewrite Hl; lia|].
  exists g. rewrite wrap_small by lia. split; [done|].
  split; [by apply (Forall_lookup_1 _ _ _ _ Hg Hlk)|]. symmetry. by apply list_lookup_total_correct.
Qed.

(** Drawing a glyph sets the pixels of its square and no other. *)
Lemma blit_char_wp c x y d :
  display_ok d → width d < 2 ^ 32 → height d < 2 ^ 32 →
  0 ≤ c < 128 → 0 ≤ x → 16 * x + 16 ≤ width d → 0 ≤ y → 16 * y + 16 ≤ height d →
  wp False (blit_char c (16 * x) (16 * y) d) (λ d', same_geometry d d' ∧
    ∀ X Y, 0 ≤ X < width d → 0 ≤ Y →
      pixel d' X Y = if decide (X `div` 16 = x ∧ Y `div` 16 = y)
        then Some (glyph_colour c (X `mod` 16) (Y `mod` 16)) else pixel d X Y).
Proof.
  intros Hd HW HH Hc Hx Hxw Hy Hyh. unfold blit_char.
  destruct (glyph_row c Hc) as (g & -> & Hlen & ->). rewrite Ok_bind. set (g := font8x8_basic !!! Z.to_nat c) in *.
  eapply wp_mono; [apply (wp_foreach False (λ j d', same_geometry d d' ∧
    ∀ X Y, 0 ≤ X < width d → 0 ≤ Y →
      pixel d' X Y = if decide (X `div` 16 = x ∧ 16 * y ≤ Y < 16 * y + j)
        then Some (glyph_colour c (X `mod` 16) (Y `mod` 16)) else pixel d X Y)); [done| |]|].
  - split; [by apply same_geometry_refl|]. intros X Y _ _. rewrite decide_False; [done|lia].
  - intros j d1 Hj [G1 P1]. change CHAR_SCREEN_SIZE with 16 in *. unfold CHAR_SCALE_FACTOR.
    destruct (arr_get_in_range g (j `div` 2)) as (row & Hrow & ->); [dlia|]. rewrite Ok_bind.
    apply list_lookup_total_correct in Hrow.
    eapply wp_mono; [apply (wp_foreach False (λ i d', same_geometry d d' ∧
      ∀ X Y, 0 ≤ X < width d → 0 ≤ Y →
        pixel d' X Y = if decide (16 * x ≤ X < 16 * x + i ∧ Y = 16 * y + j)
          then Some (glyph_colour c (X `mod` 16) (Y `mod` 16)) else pixel d1 X Y)); [done| |]|].
    + split; [done|]. intros X Y _ _. rewrite decide_False; [done|lia].
    + intros i d2 Hi [G2 P2]. pose proof G2 as (HW2 & HH2 & Hok2).
      rewrite !wrap_small by lia.
      destruct (display_write_pixel_ok (16 * x + i) (16 * y + j) (pixel_colour row i) d2)
        as (d3 & -> & G3 & P3); [done|lia|lia|]. simpl.
      split; [by eapply same_geometry_trans|]. intros X Y HX HY. rewrite P3 by lia.
      rewrite P2 by lia. repeat case_decide; try done; try (exfalso; lia).
      match goal with H : X = _ ∧ Y = _ |- _ => destruct H as [-> ->] end. f_equal.
      unfold glyph_colour. fold g. replace ((16 * y + j) `mod` 16) with j by dlia.
      replace ((16 * x + i) `mod` 16) with i by dlia. by rewrite Hrow.
    + intros d' [G P]. split; [done|]. intros X Y HX HY. rewrite P by lia. rewrite P1 by lia.
      repeat case_decide; try done; exfalso; dlia.
  - intros d' [G P]. change CHAR_SCREEN_SIZE with 16 in *. split; [done|]. intros X Y HX HY. rewrite P by lia.
    repeat case_decide; try done; exfalso; dlia.
Qed.

(** ** Rows of the ring *)

(** What is drawn of a row: blanks from its first newline on. *)
Fixpoint shown (seen : bool) (l : list Z) : list Z :=
  match l with
  | [] => []
  | c :: l => let seen := seen || (c =? 10) in (if seen then 32 else c) :: shown seen l
  end.

Definition row_text (buf : list Z) (w y : Z) : list Z := take (Z.to_nat w) (drop (Z.to_nat (w * y)) buf).

(** The index of the [k]-th row above row [cy] of a ring of [h] rows. *)
Definition ring_index (h cy k : Z) : Z := if k <=? cy then cy - k else cy - k + h.

(** The rows of the ring as drawn, that of the cursor first. *)
Definition ring_rows (w h cy : Z) (buf : list Z) : list (list Z) :=
  map (λ k, shown false (row_text buf w (ring_index h cy (Z.of_nat k)))) (seq 0 (Z.to_nat h)).

Lemma shown_length seen l : length (shown seen l) = length l.
Proof. revert seen. by induction l; intros; simpl; auto. Qed.

Abbreviation no_newline := (Forall (λ c, c ≠ 10)).

Lemma shown_id l : no_newline l → shown false l = l.
Proof. induction 1 as [|c l Hc Hl IH]; simpl; [done|]. replace (c =? 10) with false by lia. by rewrite IH. Qed.

Lemma shown_blank l seen : Forall (λ c, c = 32) l → shown seen l = l.
Proof. intros H. revert seen. induction H as [|c l -> Hl IH]; intros seen; simpl; [done|]. rewrite IH. by case_if. Qed.

(** A newline after which everything is blank is itself drawn blank. *)
Lemma shown_newline l (x : nat) :
  (x < length l)%nat →
  (∀ i c, l !! i = Some c → if decide (i < x)%nat then c ≠ 10 else c = 32) →
  shown false (<[x := 10]> l) = shown false l.
Proof.
  revert x. induction l as [|c l IH]; intros x Hx Hl; [done|].
  destruct x as [|x]; simpl.
  - pose proof (Hl 0%nat c eq_refl) as ->. change (10 =? 10) with true. change (32 =? 10) with false. simpl.
    rewrite !shown_blank; [done|apply Forall_lookup; intros i c' Hi; exact (Hl (S i) c' Hi)..].
  - pose proof (Hl 0%nat c eq_refl) as Hc. replace (c =? 10) with false by (simpl in Hc; lia). simpl.
    f_equal. apply IH; [simpl in Hx; lia|]. intros i c' Hi. specialize (Hl (S i) c' Hi). simpl in Hl.
    repeat case_decide; lia || done.
Qed.

Lemma shown_range seen l : Forall (λ c, 0 ≤ c < 128) l → Forall (λ c, 0 ≤ c < 128) (shown seen l).
Proof. intros Hl. revert seen. induction Hl; intros; constructor; [by case_if; lia|auto]. Qed.

Lemma row_text_lookup buf w y x : 0 ≤ w →
  0 ≤ y → 0 ≤ x < w → row_text buf w y !! Z.to_nat x = buf !! Z.to_nat (w * y + x).
Proof.
  intros Hw Hy Hx. unfold row_text. rewrite lookup_take_lt by lia. rewrite lookup_drop. f_equal. nia.
Qed.

Lemma row_text_length buf w h y :
  0 ≤ w → 0 ≤ y < h → Z.of_nat (length buf) = w * h → length (row_text buf w y) = Z.to_nat w.
Proof. intros Hw Hy Hl. unfold row_text. rewrite length_take, length_drop. nia. Qed.

Lemma row_text_range buf w y (P : Z → Prop) : Forall P buf → Forall P (row_text buf w y).
Proof. intros H. by apply Forall_take, Forall_drop. Qed.

Lemma ring_index_range h cy k : 0 ≤ cy < h → 0 ≤ k < h → 0 ≤ ring_index h cy k < h.
Proof. unfold ring_index. intros. case_if; lia. Qed.

Lemma ring_index_mod h cy k : 0 ≤ cy < h → 0 ≤ k < h → (h - 1 - k + cy + 1) `mod` h = ring_index h cy k.
Proof.
  intros Hcy Hk. unfold ring_index. case_if.
  - symmetry. apply (Z.mod_unique _ _ 1); lia.
  - symmetry. apply (Z.mod_unique _ _ 0); lia.
Qed.

Lemma ring_rows_lookup w h cy buf k : 0 ≤ k < h →
  ring_rows w h cy buf !! Z.to_nat k = Some (shown false (row_text buf w (ring_index h cy k))).
Proof.
  intros Hk. unfold ring_rows. rewrite list_lookup_fmap, lookup_seq_lt by lia. simpl. by rewrite Z2Nat.id by lia.
Qed.

(** Drawing a row. *)
Lemma blit_row_wp w buf base y d :
  display_ok d → width d < 2 ^ 32 → height d < 2 ^ 32 →
  0 ≤ w → 16 * w ≤ width d → 0 ≤ y → 16 * y + 16 ≤ height d →
  0 ≤ base → base + w ≤ Z.of_nat (length buf) → Forall (λ c, 0 ≤ c < 128) buf →
  let row := take (Z.to_nat w) (drop (Z.to_nat base) buf) in
  wp False (blit_row w buf base y d) (λ d', same_geometry d d' ∧
    ∀ X Y, 0 ≤ X < width d → 0 ≤ Y →
      pixel d' X Y = if decide (X < 16 * w ∧ Y `div` 16 = y)
        then Some (glyph_colour (shown false row !!! Z.to_nat (X `div` 16)) (X `mod` 16) (Y `mod` 16))
        else pixel d X Y).
Proof.
  intros Hd HW HH Hw Hww Hy Hyh Hb Hbl Hr row. apply wp_bind.
  assert (length row = Z.to_nat w) as Hlen by (unfold row; rewrite length_take, length_drop; lia).
  eapply wp_mono; [apply (wp_foreach False (λ j '(seen, d'), same_geometry d d' ∧
    drop (Z.to_nat j) (shown false row) = shown seen (drop (Z.to_nat j) row) ∧
    ∀ X Y, 0 ≤ X < width d → 0 ≤ Y →
      pixel d' X Y = if decide (X < 16 * j ∧ Y `div` 16 = y)
        then Some (glyph_colour (shown false row !!! Z.to_nat (X `div` 16)) (X `mod` 16) (Y `mod` 16))
        else pixel d X Y)); [done| |]|].
  - split; [by apply same_geometry_refl|]. split; [done|]. intros X Y ? _. rewrite decide_False; [done|lia].
  - intros j [seen d1] Hj (G1 & Hs & P1). pose proof G1 as (HW1 & HH1 & Hok1).
    destruct (lookup_lt_is_Some_2 row (Z.to_nat j)) as [c Hc]; [lia|].
    pose proof (drop_S _ _ _ Hc) as Hd1. rewrite Hd1 in Hs.
    assert (0 ≤ c < 128) as Hcr.
    { eapply (Forall_lookup_1 (λ c, 0 ≤ c < 128)); [|exact Hc]. by apply Forall_take, Forall_drop. }
    unfold row in Hc. rewrite lookup_take_lt, lookup_drop in Hc by lia.
    rewrite (arr_get_lookup _ _ c) by (lia || (rewrite <-Hc; f_equal; lia)). rewrite Ok_bind. simpl in Hs.
    set (seen' := seen || (c =? 10)) in *. change CHAR_SCREEN_SIZE with 16.
    rewrite (Z.mul_comm j 16), (Z.mul_comm y 16), !wrap_small by lia. apply wp_bind.
    eapply wp_mono; [apply blit_char_wp; [done|lia|lia| |lia..]|]; [by case_if; lia|].
    intros d2 [G2 P2]. split; [by eapply same_geometry_trans|].
    assert (shown false row !! Z.to_nat j = Some (if seen' then 32 else c)) as Hsj.
    { rewrite <-(Nat.add_0_r (Z.to_nat j)), <-lookup_drop, Hs. done. }
    split.
    { replace (Z.to_nat (j + 1)) with (S (Z.to_nat j)) by lia.
      rewrite (drop_S _ _ _ Hsj) in Hs. by injection Hs. }
    intros X Y HX HY. rewrite P2 by lia. rewrite P1 by lia.
    repeat case_decide; try done; try (exfalso; dlia).
    match goal with H : _ `div` 16 = j ∧ _ |- _ => destruct H as [-> _] end.
    by rewrite (list_lookup_total_correct _ _ _ Hsj).
  - intros [seen d'] (G & _ & P). by split.
Qed.

Lemma index_buffer_ok t (buf : list Z) x y :
  Z.of_nat (length buf) = chars_width t * chars_height t →
  16 * chars_width t < 2 ^ 32 → 16 * chars_height t < 2 ^ 32 →
  0 ≤ x < chars_width t → 0 ≤ y < chars_height t →
  index_buffer t x y = Ok (chars_width t * y + x) ∧ chars_width t * y + x < Z.of_nat (length buf).
Proof.
  intros Hl Hw Hh Hx Hy. unfold index_buffer.
  replace (chars_height t <=? y) with false by lia. replace (chars_width t <=? x) with false by lia. simpl.
  assert (chars_width t * y + x < chars_width t * chars_height t) by nia.
  assert ((16 * chars_width t) * (16 * chars_height t) < 2 ^ 32 * 2 ^ 32)
    by (apply Z.mul_lt_mono_nonneg; lia).
  assert (0 ≤ chars_width t * y) by nia.
  rewrite (wrap_small 64 (chars_width t * y)), wrap_small by lia. split; [f_equal|]; lia.
Qed.

(** A full redraw shows the whole ring, whatever the screen held. *)
Lemma blit_all t (buf : list Z) :
  buffer t = Some buf → current_buffer_dirty_status t = ALL_DIRTY →
  display_ok (disp t) → width (disp t) < 2 ^ 32 → height (disp t) < 2 ^ 32 →
  0 ≤ chars_width t → 16 * chars_width t ≤ width (disp t) → 16 * chars_height t ≤ height (disp t) →
  Z.of_nat (length buf) = chars_width t * chars_height t → Forall (λ c, 0 ≤ c < 128) buf →
  0 < chars_width t → 0 ≤ cursor_y t < chars_height t →
  wp False (blit t) (λ t', ∃ d, t' = with_display t d ∧ same_geometry (disp t) d ∧
    screen_shows d (chars_width t) (chars_height t) (ring_rows (chars_width t) (chars_height t) (cursor_y t) buf)).
Proof.
  intros Hb Hdirty Hd HW HH Hw Hww Hhh Hl Hc Hw0 Hcy. unfold blit. rewrite Hdirty. apply wp_bind.
  set (w := chars_width t) in *. set (h := chars_height t) in *.
  eapply wp_mono; [apply (wp_foreach False (λ j d, same_geometry (disp t) d ∧
    ∀ X Y, 0 ≤ X < 16 * w → 0 ≤ Y < 16 * j →
      pixel d X Y = Some (text_pixel h (ring_rows w h (cursor_y t) buf) X Y))); [lia| |]|].
  - split; [by apply same_geometry_refl|]. intros. lia.
  - intros j d1 Hj [G1 P1]. pose proof G1 as (HW1 & HH1 & Hok1).
    pose proof (ring_index_mod h (cursor_y t) (h - 1 - j) ltac:(lia) ltac:(lia)) as Hri.
    pose proof (ring_index_range h (cursor_y t) (h - 1 - j) ltac:(lia) ltac:(lia)) as Hrr.
    replace (h - 1 - (h - 1 - j) + cursor_y t + 1) with (j + cursor_y t + 1) in Hri by lia.
    rewrite wrap_small by lia. rewrite Hri.
    destruct (index_buffer_ok t buf 0 (ring_index h (cursor_y t) (h - 1 - j))) as [-> Hlt]; [fold w; fold h; lia..|].
    rewrite Ok_bind, Hb. simpl. fold w. fold w in Hlt. rewrite Z.add_0_r in *.
    eapply wp_mono; [apply blit_row_wp; try lia; try done|].
    { nia. }
    intros d2 [G2 P2]. split; [by eapply same_geometry_trans|].
    intros X Y HX HY. rewrite P2 by lia. case_decide as HY'.
    + destruct HY' as [_ HY']. unfold text_pixel. rewrite HY'.
      by rewrite (list_lookup_total_correct _ _ _ (ring_rows_lookup w h _ _ (h - 1 - j) ltac:(lia))).
    + apply P1; [done|]. assert (Y `div` 16 ≠ j) by (intros ?; apply HY'; split; [lia|done]). dlia.
  - intros d' [G P]. eexists. split; [done|]. by split.
Qed.

(** ** The text in the ring *)

(** The invariant of the buffer and the cursor.  [text_above]: the rows that
    backspaces can still lead to hold no newline. *)
Record text_ok (w h cx cy run : Z) (buf : list Z) : Prop := {
  text_length : Z.of_nat (length buf) = w * h;
  text_chars : Forall (λ c, 0 ≤ c < 128) buf;
  text_cursor : 0 ≤ cx < w ∧ 0 ≤ cy < h;
  text_run : 0 ≤ run < 2 ^ 64;
  text_row : ∀ x c, 0 ≤ x → row_text buf w cy !! Z.to_nat x = Some c →
    if x <? cx then c ≠ 10 else c = 32;
  text_above : ∀ k, 0 < k < h → cx + (k - 1) * w < run → no_newline (row_text buf w (ring_index h cy k))
}.

Definition cell (w cx cy : Z) : nat := Z.to_nat (w * cy + cx).

Lemma row_text_set buf w h cx cy y c :
  0 ≤ cx < w → 0 ≤ cy < h → 0 ≤ y < h → Z.of_nat (length buf) = w * h →
  row_text (<[cell w cx cy := c]> buf) w y =
    if decide (y = cy) then <[Z.to_nat cx := c]> (row_text buf w y) else row_text buf w y.
Proof.
  intros Hx Hcy Hy Hl. unfold cell, row_text. case_decide as E.
  - subst y. rewrite drop_insert_ge by nia. rewrite take_insert_lt by nia. f_equal. nia.
  - destruct (decide (y < cy)) as [Hlt|Hge].
    + rewrite take_drop_commute. rewrite take_insert_ge by nia. by rewrite <-take_drop_commute.
    + by rewrite drop_insert_lt by nia.
Qed.

Lemma row_text_fill buf buf' w h cy y :
  0 < w → 0 ≤ cy < h → 0 ≤ y < h → Z.of_nat (length buf) = w * h → length buf' = length buf →
  (∀ i : nat, buf' !! i = if decide (w * cy ≤ Z.of_nat i < w * cy + w) then Some 32 else buf !! i) →
  row_text buf' w y = if decide (y = cy) then replicate (Z.to_nat w) 32 else row_text buf w y.
Proof.
  intros Hw Hcy Hy Hl Hl' Hb. apply list_eq. intros i.
  assert (∀ b, length b = length buf → ¬ (i < Z.to_nat w)%nat → row_text b w y !! i = None) as Hnone.
  { intros b Hlb Hi. apply lookup_ge_None. rewrite (row_text_length b w h) by lia. lia. }
  destruct (decide (i < Z.to_nat w)%nat) as [Hi|Hi].
  - replace i with (Z.to_nat (Z.of_nat i)) by lia. rewrite row_text_lookup by lia. rewrite Hb.
    rewrite Z2Nat.id by nia. case_decide as E; case_decide as E'.
    + subst y. symmetry. apply lookup_replicate_2. lia.
    + exfalso. nia.
    + exfalso. nia.
    + symmetry. apply row_text_lookup; lia.
  - rewrite (Hnone buf') by done. case_decide; [|by rewrite (Hnone buf)].
    symmetry. apply lookup_replicate_None. lia.
Qed.

Lemma ring_index_ne h cy k : 0 ≤ cy < h → 0 < k < h → ring_index h cy k ≠ cy.
Proof. unfold ring_index. intros. case_if; lia. Qed.

Lemma ring_index_0 h cy : 0 ≤ cy → ring_index h cy 0 = cy.
Proof. unfold ring_index. intros. by replace (0 <=? cy) with true by lia; rewrite Z.sub_0_r. Qed.

(** The row after [cy]. *)
Lemma ring_index_next h cy k : 0 ≤ cy < h → 0 < k < h →
  ring_index h ((cy + 1) `mod` h) k = ring_index h cy (k - 1).
Proof.
  intros Hcy Hk. destruct (decide (cy + 1 = h)) as [E|E].
  - rewrite E, Z.mod_same by lia. unfold ring_index. repeat case_if; lia.
  - rewrite Z.mod_small by lia. unfold ring_index. repeat case_if; lia.
Qed.

(** The row before [cy]. *)
Lemma ring_index_prev h cy k : 0 ≤ cy < h → 0 ≤ k < h →
  ring_index h (ring_index h cy 1) k = ring_index h cy (if k + 1 <? h then k + 1 else 0).
Proof. unfold ring_index. intros. repeat case_if; lia. Qed.

(** ** The abstract terminal *)

Record terminal := Terminal { rows : list (list Z); col : Z; run : Z }.

Definition term_of (t : tty) (buf : list Z) : terminal :=
  Terminal (ring_rows (chars_width t) (chars_height t) (cursor_y t) buf) (cursor_x t)
    (current_run_of_keyboard_inputs t).

(** Store a character in the bottom row. *)
Definition rows_put (x c : Z) (l : list (list Z)) : list (list Z) :=
  alter (λ r, <[Z.to_nat x := c]> r) 0%nat l.
(** A blank row appears at the bottom and the top one is lost. *)
Definition rows_scroll (w : Z) (l : list (list Z)) : list (list Z) :=
  replicate (Z.to_nat w) 32 :: take (length l - 1) l.
(** The bottom row moves to the top. *)
Definition rows_up (l : list (list Z)) : list (list Z) :=
  match l with [] => [] | r :: l => l ++ [r] end.

Definition term_write (w : Z) (canon keyboard : bool) (c : Z) (s : terminal) : terminal :=
  let c := if c <? 0 then 63 else c in
  if (c =? 8) && keyboard && canon then
    if run s =? 0 then s
    else if col s =? 0 then Terminal (rows_put (w - 1) 32 (rows_up (rows s))) (w - 1) (run s - 1)
    else Terminal (rows_put (col s - 1) 32 (rows s)) (col s - 1) (run s - 1)
  else if c =? 10 then Terminal (rows_scroll w (rows s)) 0 0
  else
    let run' := if keyboard then u64 (run s + 1) else 0 in
    if col s + 1 =? w then Terminal (rows_scroll w (rows_put (col s) c (rows s))) 0 run'
    else Terminal (rows_put (col s) c (rows s)) (col s + 1) run'.

(** *** The ring implements the page *)
Section ring.
Context (w h : Z).

Lemma ring_rows_cons cy buf : 0 ≤ cy < h →
  ring_rows w h cy buf = shown false (row_text buf w cy) ::
    map (λ k, shown false (row_text buf w (ring_index h cy (Z.of_nat k)))) (seq 1 (Z.to_nat h - 1)).
Proof.
  intros Hcy. unfold ring_rows. replace (Z.to_nat h) with (S (Z.to_nat h - 1)) at 1 by lia. simpl.
  by rewrite ring_index_0 by lia.
Qed.

Lemma ring_rows_put cx cy buf c :
  0 ≤ cx < w → 0 ≤ cy < h → Z.of_nat (length buf) = w * h → no_newline (row_text buf w cy) → c ≠ 10 →
  ring_rows w h cy (<[cell w cx cy := c]> buf) = rows_put cx c (ring_rows w h cy buf).
Proof.
  intros Hcx Hcy Hl Hn Hc. rewrite !ring_rows_cons by done. unfold rows_put. simpl. f_equal.
  - rewrite (row_text_set _ _ h) by done. rewrite decide_True by done.
    rewrite !shown_id; [done|done|]. by apply Forall_insert.
  - apply map_ext_in. intros k Hk%in_seq. rewrite (row_text_set _ _ h); [|done|done| |done].
    + rewrite decide_False; [done|]. apply ring_index_ne; lia.
    + apply ring_index_range; lia.
Qed.

Lemma ring_rows_scroll cy buf buf' :
  0 ≤ cy < h → 
  row_text buf' w ((cy + 1) `mod` h) = replicate (Z.to_nat w) 32 →
  (∀ y, 0 ≤ y < h → y ≠ (cy + 1) `mod` h → row_text buf' w y = row_text buf w y) →
  ring_rows w h ((cy + 1) `mod` h) buf' = rows_scroll w (ring_rows w h cy buf).
Proof.
  intros Hcy Hnew Hold. pose proof (Z.mod_pos_bound (cy + 1) h ltac:(lia)) as Hm.
  rewrite ring_rows_cons by done. unfold rows_scroll. rewrite Hnew, shown_blank by by apply Forall_replicate. f_equal.
  unfold ring_rows. rewrite length_map, length_seq.
  replace (Z.to_nat h) with ((Z.to_nat h - 1) + 1)%nat at 3 by lia.
  rewrite seq_app, map_app, take_app_length' by by rewrite length_map, length_seq.
  rewrite <-seq_shift, map_map. apply map_ext_in. intros k Hk%in_seq.
  rewrite Hold.
  - rewrite ring_index_next by lia. do 3 f_equal. lia.
  - apply ring_index_range; lia.
  - apply ring_index_ne; lia.
Qed.

Lemma ring_rows_up cy buf : 0 ≤ cy < h →
  ring_rows w h (ring_index h cy 1) buf = rows_up (ring_rows w h cy buf).
Proof.
  intros Hcy. rewrite (ring_rows_cons cy) by done. unfold rows_up, ring_rows.
  replace (Z.to_nat h) with (S (Z.to_nat h - 1)) at 1 by lia. rewrite seq_S, map_app. f_equal; simpl.
  - rewrite <-seq_shift, map_map. apply map_ext_in. intros k Hk%in_seq.
    rewrite ring_index_prev by lia. case_if; [|lia]. do 3 f_equal. lia.
  - rewrite ring_index_prev by lia. case_if; [lia|]. by rewrite ring_index_0 by lia.
Qed.

(** *** The invariant is kept *)
Lemma text_no_newline cx cy run buf : text_ok w h cx cy run buf → no_newline (row_text buf w cy).
Proof.
  intros T. apply Forall_lookup. intros i c Hi. pose proof (text_row _ _ _ _ _ _ T (Z.of_nat i) c) as Hr.
  rewrite Nat2Z.id in Hr. specialize (Hr ltac:(lia) Hi). case_if_in Hr; lia.
Qed.

Lemma text_set_length (buf : list Z) (n : nat) c : Z.of_nat (length buf) = w * h → Z.of_nat (length (<[n := c]> buf)) = w * h.
Proof. by rewrite length_insert. Qed.

Lemma text_put cx cy run run' buf c :
  text_ok w h cx cy run buf → 0 ≤ c < 128 → c ≠ 10 → cx + 1 < w → 0 ≤ run' < 2 ^ 64 → run' ≤ run + 1 →
  text_ok w h (cx + 1) cy run' (<[cell w cx cy := c]> buf).
Proof.
  intros T Hc Hnl Hw Hr Hr'. destruct T as [Hl Hch [Hcx Hcy] Hrun Hrow Hab]. split.
  - by apply text_set_length.
  - by apply Forall_insert.
  - lia.
  - lia.
  - intros x c' Hx. rewrite (row_text_set _ _ h) by done. rewrite decide_True by done.
    destruct (decide (x = cx)) as [->|Hne].
    + rewrite list_lookup_insert_eq by (rewrite (row_text_length _ w h); lia). intros [= <-]. by case_if; [|lia].
    + rewrite list_lookup_insert_ne by lia. intros Hx'. specialize (Hrow x c' Hx Hx').
      repeat case_if; repeat case_if_in Hrow; lia.
  - intros k Hk Hlt. rewrite (row_text_set _ _ h); [|done|done|by apply ring_index_range; lia|done].
    rewrite decide_False by (apply ring_index_ne; lia). apply Hab; lia.
Qed.

Lemma text_newline cx cy run run' buf c buf' :
  text_ok w h cx cy run buf → 0 ≤ c < 128 →
  (c = 10 ∧ run' = 0 ∨ c ≠ 10 ∧ cx + 1 = w ∧ 0 ≤ run' < 2 ^ 64 ∧ run' ≤ run + 1) →
  length buf' = length (<[cell w cx cy := c]> buf) →
  (∀ i : nat, buf' !! i = if decide (w * ((cy + 1) `mod` h) ≤ Z.of_nat i < w * ((cy + 1) `mod` h) + w)
     then Some 32 else <[cell w cx cy := c]> buf !! i) →
  text_ok w h 0 ((cy + 1) `mod` h) run' buf' ∧
  ring_rows w h ((cy + 1) `mod` h) buf' = rows_scroll w (ring_rows w h cy (<[cell w cx cy := c]> buf)).
Proof.
  intros T Hc Hcase Hl' Hb. pose proof (text_no_newline _ _ _ _ T) as Hnl.
  destruct T as [Hl Hch [Hcx Hcy] Hrun Hrow Hab].
  pose proof (Z.mod_pos_bound (cy + 1) h ltac:(lia)) as Hm.
  pose proof (text_set_length buf (cell w cx cy) c Hl) as Hl2.
  assert (∀ y, 0 ≤ y < h → row_text buf' w y = if decide (y = (cy + 1) `mod` h) then replicate (Z.to_nat w) 32
    else row_text (<[cell w cx cy := c]> buf) w y) as Hrows.
  { intros y Hy. by apply (row_text_fill (<[cell w cx cy := c]> buf) buf' w h); [lia|..]. }
  assert (row_text buf' w ((cy + 1) `mod` h) = replicate (Z.to_nat w) 32) as Hnew.
  { by rewrite Hrows, decide_True. }
  split; [split|].
  - lia.
  - apply Forall_lookup. intros i c' Hi. rewrite Hb in Hi. case_decide; simplify_eq; [lia|].
    assert (Forall (λ c, 0 ≤ c < 128) (<[cell w cx cy := c]> buf)) as Hf by by apply Forall_insert.
    exact (Forall_lookup_1 _ _ _ _ Hf Hi).
  - lia.
  - lia.
  - intros x c' Hx. rewrite Hnew. intros [-> _]%lookup_replicate. by case_if; [lia|].
  - intros k Hk Hlt. destruct Hcase as [[-> ->]|(Hc' & Hcw & Hr & Hr')]; [nia|].
    rewrite Hrows by (apply ring_index_range; lia). rewrite decide_False by (apply ring_index_ne; lia).
    rewrite ring_index_next by lia. rewrite (row_text_set _ _ h); [|done|done|by apply ring_index_range; lia|done].
    case_decide as E.
    + rewrite E. by apply Forall_insert.
    + destruct (decide (k = 1)) as [->|]; [by rewrite ring_index_0 in E by lia|]. apply Hab; nia.
  - apply ring_rows_scroll; [done|done|]. intros y Hy Hne. by rewrite Hrows, decide_False.
Qed.

Lemma text_back cx cy run buf :
  text_ok w h cx cy run buf → 0 < run → 0 < cx →
  text_ok w h (cx - 1) cy (run - 1) (<[cell w (cx - 1) cy := 32]> buf).
Proof.
  intros T Hr Hx0. destruct T as [Hl Hch [Hcx Hcy] Hrun Hrow Hab]. split.
  - by apply text_set_length.
  - by apply Forall_insert; [|lia].
  - lia.
  - lia.
  - intros x c' Hx. rewrite (row_text_set _ _ h) by lia. rewrite decide_True by done.
    destruct (decide (x = cx - 1)) as [->|Hne].
    + rewrite list_lookup_insert_eq by (rewrite (row_text_length _ w h); lia). intros [= <-]. by case_if; [lia|].
    + rewrite list_lookup_insert_ne by lia. intros Hx'. specialize (Hrow x c' Hx Hx').
      repeat case_if; repeat case_if_in Hrow; lia.
  - intros k Hk Hlt. rewrite (row_text_set _ _ h); [|lia|done|by apply ring_index_range; lia|done].
    rewrite decide_False by (apply ring_index_ne; lia). apply Hab; lia.
Qed.

Lemma text_prev_no_newline cy run buf :
  text_ok w h 0 cy run buf → 0 < run → no_newline (row_text buf w (ring_index h cy 1)).
Proof.
  intros T Hr. destruct (decide (1 < h)) as [Hh|Hh]; [apply (text_above _ _ _ _ _ _ T); lia|].
  pose proof (text_cursor _ _ _ _ _ _ T) as [_ Hcy].
  replace (ring_index h cy 1) with cy; [by eapply text_no_newline|].
  unfold ring_index. case_if; lia.
Qed.

Lemma text_back_line cy run buf :
  text_ok w h 0 cy run buf → 0 < run →
  text_ok w h (w - 1) (ring_index h cy 1) (run - 1) (<[cell w (w - 1) (ring_index h cy 1) := 32]> buf).
Proof.
  intros T Hr. pose proof (text_prev_no_newline _ _ _ T Hr) as Hp. pose proof (text_no_newline _ _ _ _ T) as Hnl.
  destruct T as [Hl Hch [Hcx Hcy] Hrun Hrow Hab].
  assert (0 ≤ ring_index h cy 1 < h) as Hri by (unfold ring_index; case_if; lia). split.
  - by apply text_set_length.
  - by apply Forall_insert; [|lia].
  - lia.
  - lia.
  - intros x c' Hx. rewrite (row_text_set _ _ h) by lia. rewrite decide_True by done.
    destruct (decide (x = w - 1)) as [->|Hne].
    + rewrite list_lookup_insert_eq by (rewrite (row_text_length _ w h); lia). intros [= <-]. by case_if; [lia|].
    + rewrite list_lookup_insert_ne by lia. intros Hx'. pose proof (Forall_lookup_1 _ _ _ _ Hp Hx').
      apply lookup_lt_Some in Hx'. rewrite (row_text_length _ w h) in Hx' by lia. by case_if; [|lia].
  - intros k Hk Hlt. rewrite (row_text_set _ _ h); [|lia|done|by apply ring_index_range; lia|done].
    rewrite decide_False by (apply ring_index_ne; lia). rewrite ring_index_prev by lia. case_if.
    + apply Hab; nia.
    + by rewrite ring_index_0 by lia.
Qed.
End ring.

(** ** The driver *)

Record tty_ok (t : tty) (buf : list Z) : Prop := {
  tty_buffer : buffer t = Some buf;
  tty_text : text_ok (chars_width t) (chars_height t) (cursor_x t) (cursor_y t)
    (current_run_of_keyboard_inputs t) buf;
  tty_display : display_ok (disp t);
  tty_small : width (disp t) < 2 ^ 32 ∧ height (disp t) < 2 ^ 32;
  tty_fits : 16 * chars_width t ≤ width (disp t) ∧ 16 * chars_height t ≤ height (disp t);
  tty_screen : screen_shows (disp t) (chars_width t) (chars_height t)
    (ring_rows (chars_width t) (chars_height t) (cursor_y t) buf)
}.

(** What a write leaves alone. *)
Definition kept (t t' : tty) : Prop :=
  chars_width t' = chars_width t ∧ chars_height t' = chars_height t ∧ c_lflag t' = c_lflag t ∧
  input_buffer t' = input_buffer t ∧ next t' = next t ∧ same_geometry (disp t) (disp t').

Lemma cell_in_range w h cx cy : 0 ≤ cx < w → 0 ≤ cy < h → 0 ≤ w * cy + cx < w * h.
Proof. nia. Qed.

Section driver.
Context (t : tty) (buf : list Z).
Notation w := (chars_width t).
Notation h := (chars_height t).
Context (Hbuf : buffer t = Some buf) (Hlen : Z.of_nat (length buf) = w * h)
  (Hw : 16 * w < 2 ^ 32) (Hh : 16 * h < 2 ^ 32)
  (Hcx : 0 ≤ cursor_x t < w) (Hcy : 0 ≤ cursor_y t < h).

Lemma put_char_ok c :
  put_char c t = Ok (with_buffer t (Some (<[cell w (cursor_x t) (cursor_y t) := c]> buf))).
Proof using Hbuf Hlen Hw Hh Hcx Hcy.
  unfold put_char. destruct (index_buffer_ok t buf (cursor_x t) (cursor_y t)) as [-> Hlt]; [lia..|].
  pose proof (cell_in_range w h _ _ Hcx Hcy).
  rewrite Ok_bind, Hbuf. simpl. by rewrite arr_set_in_range by lia.
Qed.

Lemma clear_row_wp (Q : tty → Prop) :
  (∀ buf', length buf' = length buf →
    (∀ i : nat, buf' !! i = if decide (w * cursor_y t + cursor_x t ≤ Z.of_nat i < w * cursor_y t + cursor_x t + w)
       then Some 32 else buf !! i) →
    Q (with_buffer t (Some buf'))) →
  cursor_x t = 0 → wp False (clear_row t) Q.
Proof using Hbuf Hlen Hw Hh Hcx Hcy.
  intros HQ Hx0. unfold clear_row.
  destruct (index_buffer_ok t buf (cursor_x t) (cursor_y t)) as [-> Hlt]; [lia..|].
  pose proof (cell_in_range w h _ _ Hcx Hcy).
  rewrite Ok_bind, Hbuf. simpl. apply wp_bind. eapply wp_mono; [apply arr_fill_wp; nia|].
  intros buf' [Hl' Hb]. by apply HQ.
Qed.

Lemma clear_row_blank run :
  text_ok w h 0 (cursor_y t) run buf → cursor_x t = 0 → wp False (clear_row t) (λ t', t' = t).
Proof using Hbuf Hlen Hw Hh Hcx Hcy.
  intros T Hx0. apply clear_row_wp; [|done]. intros buf' Hl' Hb.
  assert (buf' = buf) as ->.
  { apply list_eq. intros i. rewrite Hb. case_decide as Hi; [|done]. rewrite Hx0 in Hi.
    destruct (lookup_lt_is_Some_2 buf i) as [c Hc]; [nia|]. rewrite Hc. f_equal. symmetry.
    pose proof (text_row _ _ _ _ _ _ T (Z.of_nat i - w * cursor_y t) c) as Hr.
    rewrite row_text_lookup in Hr by lia.
    replace (Z.to_nat (w * cursor_y t + (Z.of_nat i - w * cursor_y t))) with i in Hr by lia.
    specialize (Hr ltac:(lia) Hc). case_if_in Hr; lia. }
  rewrite <-Hbuf. by destruct t.
Qed.
End driver.

Lemma do_newline_wp t buf (Q : tty → Prop) :
  buffer t = Some buf → Z.of_nat (length buf) = chars_width t * chars_height t →
  16 * chars_width t < 2 ^ 32 → 16 * chars_height t < 2 ^ 32 → 0 < chars_width t → 
  0 ≤ cursor_y t < chars_height t →
  (∀ buf', length buf' = length buf →
    let y := (cursor_y t + 1) `mod` chars_height t in
    (∀ i : nat, buf' !! i = if decide (chars_width t * y ≤ Z.of_nat i < chars_width t * y + chars_width t)
       then Some 32 else buf !! i) →
    Q (with_dirty (with_buffer (with_cursor t 0 y) (Some buf')) ALL_DIRTY)) →
  wp False (do_newline t) Q.
Proof.
  intros Hbuf Hlen Hw Hh Hw0 Hcy HQ. unfold do_newline.
  pose proof (Z.mod_pos_bound (cursor_y t + 1) (chars_height t) ltac:(lia)).
  rewrite (wrap_small 32 (cursor_y t + 1)), wrap_small by lia. apply wp_bind.
  eapply (clear_row_wp _ buf); simpl; try done.
  intros buf' Hl' Hb. apply HQ; [done|]. intros i. rewrite Hb. by rewrite Z.add_0_r.
Qed.

(** Redrawing the character written last brings the screen up to date. *)
Lemma text_pixel_put h rows row x c X Y :
  rows !! 0%nat = Some row → 0 ≤ x < Z.of_nat (length row) → 0 ≤ X → 0 ≤ Y < 16 * h →
  text_pixel h (rows_put x c rows) X Y =
    if decide (X `div` 16 = x ∧ Y `div` 16 = h - 1) then glyph_colour c (X `mod` 16) (Y `mod` 16)
    else text_pixel h rows X Y.
Proof.
  intros Hr Hx HX HY. unfold text_pixel, rows_put. destruct rows as [|r rs]; [done|]. injection Hr as ->. simpl.
  destruct (decide (Y `div` 16 = h - 1)) as [EY|NY].
  - rewrite EY. replace (h - 1 - (h - 1)) with 0 by lia. change (Z.to_nat 0) with 0%nat.
    change ((<[Z.to_nat x:=c]> row :: rs) !!! 0%nat) with (<[Z.to_nat x:=c]> row).
    change ((row :: rs) !!! 0%nat) with row. case_decide as E.
    + destruct E as [-> _]. by rewrite list_lookup_total_insert_eq by lia.
    + rewrite list_lookup_total_insert_ne; [done|]. intros E'. apply E. split; [|done].
      assert (0 ≤ X `div` 16) by dlia. lia.
  - rewrite decide_False by tauto.
    assert (∃ k, Z.to_nat (h - 1 - Y `div` 16) = S k) as [k ->].
    { exists (Z.to_nat (h - 2 - Y `div` 16)). dlia. }
    done.
Qed.

Lemma blit_one t buf rows row c :
  let x := cursor_x t - 1 in
  buffer t = Some buf → current_buffer_dirty_status t = ONLY_PREV_CHAR_AFFECTED →
  Z.of_nat (length buf) = chars_width t * chars_height t →
  buf !! cell (chars_width t) x (cursor_y t) = Some c → 0 ≤ c < 128 →
  display_ok (disp t) → width (disp t) < 2 ^ 32 → height (disp t) < 2 ^ 32 →
  16 * chars_width t ≤ width (disp t) → 16 * chars_height t ≤ height (disp t) →
  0 ≤ x < chars_width t → 0 ≤ cursor_y t < chars_height t →
  rows !! 0%nat = Some row → length row = Z.to_nat (chars_width t) →
  screen_shows (disp t) (chars_width t) (chars_height t) rows →
  wp False (blit t) (λ t', ∃ d, t' = with_display t d ∧ same_geometry (disp t) d ∧
    screen_shows d (chars_width t) (chars_height t) (rows_put x c rows)).
Proof.
  intros x Hb Hdirty Hl Hc Hcr Hd HW HH Hww Hhh Hx Hcy Hrow Hlrow Hs. unfold blit. rewrite Hdirty. fold x.
  rewrite (wrap_small 32 x), (wrap_small 64 (chars_height t - 1)) by lia.
  destruct (index_buffer_ok t buf x (cursor_y t)) as [-> Hlt]; [lia..|]. rewrite Ok_bind, Hb. simpl.
  rewrite (arr_get_lookup _ _ c) by (done || nia). rewrite Ok_bind. change CHAR_SCREEN_SIZE with 16.
  rewrite (wrap_small 32 (x * 16)), wrap_small by lia.
  rewrite (Z.mul_comm x), (Z.mul_comm (chars_height t - 1)). apply wp_bind.
  eapply wp_mono; [apply blit_char_wp; lia || done|]. intros d [G P]. eexists. split; [done|]. split; [done|].
  intros X Y HX HY. rewrite P by lia. rewrite (text_pixel_put _ _ row) by (done || lia).
  case_decide; [done|]. by apply Hs.
Qed.

Lemma text_dims t buf : tty_ok t buf →
  0 < chars_width t ∧ 0 < chars_height t ∧ 16 * chars_width t < 2 ^ 32 ∧ 16 * chars_height t < 2 ^ 32.
Proof. intros [_ T _ [? ?] [? ?] _]. pose proof (text_cursor _ _ _ _ _ _ T). lia. Qed.

Lemma kept_display t t' d : kept t t' → same_geometry (disp t') d → kept t (with_display t' d).
Proof. intros (?&?&?&?&?&?) ?. split_and!; [done..|]. by eapply same_geometry_trans. Qed.

(** A full redraw of a consistent text gives a consistent terminal. *)
Lemma blit_all_ok t0 t buf buf' :
  tty_ok t0 buf → kept t0 t → buffer t = Some buf' → current_buffer_dirty_status t = ALL_DIRTY →
  text_ok (chars_width t) (chars_height t) (cursor_x t) (cursor_y t) (current_run_of_keyboard_inputs t) buf' →
  wp False (blit t) (λ t', tty_ok t' buf' ∧ kept t0 t' ∧ term_of t' buf' = term_of t buf').
Proof.
  intros [_ _ Hd [HW HH] [Hww Hhh] _] K Hb Hdirty T.
  pose proof (text_cursor _ _ _ _ _ _ T) as [Hcx Hcy]. pose proof K as (Kw & Kh & _ & _ & _ & Kd & Kd' & Kok).
  eapply wp_mono; [apply (blit_all t buf')|]; try done; try lia; try by destruct T.
  intros t' (d & -> & G & S). pose proof G as (Gw & Gh & Gok).
  split; [split; simpl; try done; lia|]. split; [by apply kept_display|done].
Qed.

Lemma backspace_wp t buf :
  tty_ok t buf → 
  wp False (if current_run_of_keyboard_inputs t =? 0 then Ok t else
      let t := with_run t (u64 (current_run_of_keyboard_inputs t - 1)) in
      let t :=
        if cursor_x t =? 0 then
          with_cursor t (u32 (u64 (chars_width t - 1)))
            (if cursor_y t =? 0 then u32 (u64 (chars_height t - 1)) else u32 (cursor_y t - 1))
        else with_cursor t (u32 (cursor_x t - 1)) (cursor_y t) in
      t ← put_char 32 t;
      blit (with_dirty t ALL_DIRTY))
    (λ t', ∃ buf', tty_ok t' buf' ∧ kept t t' ∧
      term_of t' buf' = term_write (chars_width t) true true 8 (term_of t buf)).
Proof.
  intros O. pose proof (text_dims _ _ O) as (Hw0 & Hh0 & Hw & Hh).
  assert (kept t t) as K by by split_and!; try done; destruct O.
  pose proof O as [Hb T _ _ _ _]. pose proof (text_cursor _ _ _ _ _ _ T) as [Hcx Hcy].
  pose proof (text_run _ _ _ _ _ _ T) as Hr. pose proof (text_length _ _ _ _ _ _ T) as Hl.
  unfold term_write. change (8 <? 0) with false. simpl.
  destruct (current_run_of_keyboard_inputs t =? 0) eqn:E; zbool.
  { exists buf. by split_and!. }
  rewrite (wrap_small 64) by lia. destruct (cursor_x t =? 0) eqn:E0; zbool; simpl.
  - replace (if cursor_y t =? 0 then u32 (u64 (chars_height t - 1)) else u32 (cursor_y t - 1))
      with (ring_index (chars_height t) (cursor_y t) 1)
      by (unfold ring_index; repeat case_if; try lia; rewrite ?(wrap_small 64) by lia; rewrite wrap_small; lia).
    rewrite (wrap_small 64), wrap_small by lia. rewrite E0 in T.
    pose proof (ring_index_range (chars_height t) (cursor_y t) 0 Hcy ltac:(lia)).
    assert (0 ≤ ring_index (chars_height t) (cursor_y t) 1 < chars_height t) by (unfold ring_index; case_if; lia).
    rewrite (put_char_ok _ buf) by (simpl; done || lia). rewrite Ok_bind.
    pose proof (text_back_line _ _ _ _ _ T ltac:(lia)) as T'. pose proof (text_prev_no_newline _ _ _ _ _ T ltac:(lia)).
    eapply wp_mono; [by eapply blit_all_ok|]. intros t' (O' & K' & E'). eexists. split; [done|]. split; [done|].
    rewrite E'. unfold term_of. simpl. f_equal. rewrite ring_rows_put by (done || lia). by rewrite ring_rows_up.
  - rewrite wrap_small by lia. rewrite (put_char_ok _ buf) by (simpl; done || lia). rewrite Ok_bind.
    pose proof (text_back _ _ _ _ _ _ T ltac:(lia) ltac:(lia)) as T'. pose proof (text_no_newline _ _ _ _ _ _ T).
    eapply wp_mono; [by eapply blit_all_ok|]. intros t' (O' & K' & E'). eexists. split; [done|]. split; [done|].
    rewrite E'. unfold term_of. simpl. f_equal. by rewrite ring_rows_put by (done || lia).
Qed.

(** A newline, after a newline character or a full row, scrolls the page. *)
Lemma newline_wp t0 t buf c run0 :
  tty_ok t0 buf → kept t0 t → 0 ≤ c < 128 →
  let cx := cursor_x t0 in let cy := cursor_y t0 in
  buffer t = Some (<[cell (chars_width t0) cx cy := c]> buf) → cursor_y t = cy →
  run0 = current_run_of_keyboard_inputs t0 →
  (c = 10 ∧ current_run_of_keyboard_inputs t = 0 ∨
   c ≠ 10 ∧ cx + 1 = chars_width t0 ∧ 0 ≤ current_run_of_keyboard_inputs t < 2 ^ 64 ∧
   current_run_of_keyboard_inputs t ≤ run0 + 1) →
  wp False (do_newline t) (λ t', ∃ buf', buffer t' = Some buf' ∧ kept t0 t' ∧ current_buffer_dirty_status t' = ALL_DIRTY ∧
    cursor_x t' = 0 ∧ current_run_of_keyboard_inputs t' = current_run_of_keyboard_inputs t ∧
    text_ok (chars_width t') (chars_height t') (cursor_x t') (cursor_y t') (current_run_of_keyboard_inputs t') buf' ∧
    ring_rows (chars_width t') (chars_height t') (cursor_y t') buf' =
      rows_scroll (chars_width t0) (ring_rows (chars_width t0) (chars_height t0) cy
        (<[cell (chars_width t0) cx cy := c]> buf))).
Proof.
  intros O K Hc cx cy Hb Hcy Hrun Hcase. pose proof (text_dims _ _ O) as (Hw0 & Hh0 & Hw & Hh).
  pose proof O as [_ T _ _ _ _]. pose proof (text_cursor _ _ _ _ _ _ T) as [Hcx Hcy']. 
  pose proof (text_length _ _ _ _ _ _ T) as Hl. pose proof K as (Kw & Kh & ? & ? & ? & ?).
  eapply do_newline_wp; [exact Hb|rewrite length_insert|..]; rewrite ?Kw, ?Kh, ?Hcy; try done.
  intros buf' Hl' y Hlk. fold cy in Hlk. exists buf'. simpl. rewrite Kw, Kh.
  subst run0. destruct (text_newline _ _ _ _ _ (current_run_of_keyboard_inputs t) buf c buf' T Hc Hcase Hl' Hlk) as [T' E].
  split_and!; try done.
Qed.

Lemma write_char_wp t buf c keyboard :
  tty_ok t buf → 0 ≤ c < 128 → (c =? 8) && keyboard && canonical t = false →
  wp False (
      t ← (if cursor_x t =? 0 then clear_row t else Ok t);
      t ← put_char c t;
      let t := with_run t (if keyboard : bool then u64 (current_run_of_keyboard_inputs t + 1) else 0) in
      t ← (if c =? 10 then do_newline (with_run t 0)
           else Ok (with_dirty (with_cursor t (u32 (cursor_x t + 1)) (cursor_y t)) ONLY_PREV_CHAR_AFFECTED));
      t ← (if cursor_x t =? chars_width t then do_newline t else Ok t);
      blit (with_cursor t (cursor_x t) (u32 (cursor_y t `mod` chars_height t))))
    (λ t', ∃ buf', tty_ok t' buf' ∧ kept t t' ∧
      term_of t' buf' = term_write (chars_width t) (canonical t) keyboard c (term_of t buf)).
Proof.
  intros O Hc Hnb. pose proof (text_dims _ _ O) as (Hw0 & Hh0 & Hw & Hh).
  assert (kept t t) as K by by split_and!; try done; destruct O.
  pose proof O as [Hb T Hd [HW HH] [Hww Hhh] S]. pose proof (text_cursor _ _ _ _ _ _ T) as [Hcx Hcy].
  pose proof (text_run _ _ _ _ _ _ T) as Hr. pose proof (text_length _ _ _ _ _ _ T) as Hl.
  pose proof (text_no_newline _ _ _ _ _ _ T) as Hnl.
  unfold term_write. replace (c <? 0) with false by lia. rewrite Hnb. simpl.
  apply wp_bind, wp_mono with (λ t', t' = t).
  { destruct (cursor_x t =? 0) eqn:E0; [|done]. zbool. eapply clear_row_blank; try done. by rewrite <-E0. }
  intros ? ->. rewrite (put_char_ok _ buf) by done. rewrite Ok_bind. simpl.
  set (buf1 := <[cell _ _ _ := c]> buf).
  set (run1 := if keyboard then u64 (current_run_of_keyboard_inputs t + 1) else 0).
  assert (0 ≤ run1 < 2 ^ 64 ∧ run1 ≤ current_run_of_keyboard_inputs t + 1) as [Hr1 Hr2].
  { unfold run1. destruct keyboard; [|lia]. split; [by apply wrap_range|]. apply Z.mod_le; lia. }
  destruct (c =? 10) eqn:Enl; zbool.
  - apply wp_bind. eapply wp_mono; [eapply (newline_wp t _ buf c); try done; by left|].
    intros t' (buf' & Hb' & K' & D & X & R & T' & E). pose proof K' as (Kw & Kh & _).
    pose proof (text_cursor _ _ _ _ _ _ T') as [_ Hcy2].
    rewrite X. replace (0 =? chars_width t') with false by lia. rewrite Ok_bind.
    rewrite Z.mod_small, wrap_small by lia. replace (with_cursor t' 0 (cursor_y t')) with t' by (destruct t'; simpl in *; by subst).
    eapply wp_mono; [by eapply blit_all_ok|]. intros t2 (O2 & K2 & E2). eexists. split; [done|]. split; [done|].
    rewrite E2. unfold term_of. simpl. f_equal; [|done..]. rewrite E. f_equal.
    subst c. unfold ring_rows. apply map_ext_in. intros k Hk%in_seq.
    rewrite (row_text_set _ _ (chars_height t)); [|done|done|by apply ring_index_range; lia|done].
    case_decide as Ek; [|done]. rewrite Ek. apply shown_newline; [rewrite (row_text_length _ _ (chars_height t)); lia|].
    intros i c Hi. pose proof (text_row _ _ _ _ _ _ T (Z.of_nat i) c ltac:(lia)) as Hrow.
    rewrite Nat2Z.id in Hrow. specialize (Hrow Hi). case_if_in Hrow; case_decide; lia.
  - rewrite Ok_bind. simpl. rewrite wrap_small by lia. destruct (cursor_x t + 1 =? chars_width t) eqn:Efull; zbool.
    + apply wp_bind. eapply wp_mono; [eapply (newline_wp t _ buf c); try done; right; simpl; tauto|].
      intros t' (buf' & Hb' & K' & D & X & R & T' & E). pose proof K' as (Kw & Kh & _).
      pose proof (text_cursor _ _ _ _ _ _ T') as [_ Hcy2].
      rewrite Z.mod_small, wrap_small by lia.
      replace (with_cursor t' (cursor_x t') (cursor_y t')) with t' by (by destruct t').
      eapply wp_mono; [by eapply blit_all_ok|]. intros t2 (O2 & K2 & E2). eexists. split; [done|]. split; [done|].
      rewrite E2. unfold term_of. simpl. rewrite R, X. f_equal. rewrite E. f_equal. by apply ring_rows_put.
    + rewrite Ok_bind. simpl. rewrite Z.mod_small, wrap_small by lia.
      pose proof (text_put _ _ _ _ _ run1 _ c T Hc Enl ltac:(lia) Hr1 Hr2) as T'.
      pose proof (cell_in_range (chars_width t) (chars_height t) _ _ Hcx Hcy).
      eapply wp_mono; [eapply (blit_one _ buf1 (ring_rows (chars_width t) (chars_height t) (cursor_y t) buf) _ c)|];
        simpl; rewrite ?Z.add_simpl_r; try done; try lia; try by (unfold buf1; destruct T').
      * apply list_lookup_insert_eq. unfold cell. lia.
      * rewrite ring_rows_cons by done. done.
      * rewrite shown_length. by apply (row_text_length _ _ (chars_height t)); lia.
      * intros t2 (d & -> & G & S2). pose proof G as (Gw & Gh & Gok). exists buf1. rewrite <-ring_rows_put in S2 by done.
        split; [split; simpl; try done; lia|]. split; [done|]. unfold term_of. simpl. f_equal. by apply ring_rows_put.
Qed.

Lemma write_wp t buf c keyboard :
  tty_ok t buf → - 128 ≤ c < 128 →
  wp False (write_from_multiple_sources c keyboard t) (λ t', ∃ buf', tty_ok t' buf' ∧ kept t t' ∧
    term_of t' buf' = term_write (chars_width t) (canonical t) keyboard c (term_of t buf)).
Proof.
  intros O Hc. unfold write_from_multiple_sources. rewrite (tty_buffer _ _ O).
  set (c' := if c <? 0 then 63 else c).
  assert (0 ≤ c' < 128) as Hc' by (unfold c'; case_if; lia).
  assert (∀ canon s, term_write (chars_width t) canon keyboard c s = term_write (chars_width t) canon keyboard c' s) as Ec.
  { intros canon s. unfold term_write. fold c'. by replace (c' <? 0) with false by lia. }
  rewrite Ec. destruct ((c' =? 8) && keyboard && canonical t) eqn:Eb.
  - apply andb_true_iff in Eb as [[E8 ->]%andb_true_iff ->]. apply Z.eqb_eq in E8 as ->. by apply backspace_wp.
  - by apply write_char_wp.
Qed.

(** *** Starting the terminal *)

Lemma initialise_tty_wp malloc t block :
  display_ok (disp t) → 16 ≤ width (disp t) < 2 ^ 32 → 16 ≤ height (disp t) < 2 ^ 32 →
  cursor_x t = 0 → cursor_y t = 0 → current_run_of_keyboard_inputs t = 0 →
  let w := width (disp t) `div` 16 in let h := height (disp t) `div` 16 in
  malloc (w * h) = Some block → Z.of_nat (length block) = w * h →
  wp False (initialise_tty malloc t) (λ t', ∃ buf, tty_ok t' buf ∧ chars_width t' = w ∧ chars_height t' = h ∧
    c_lflag t' = c_lflag t ∧ input_buffer t' = input_buffer t ∧ next t' = next t ∧
    term_of t' buf = Terminal (replicate (Z.to_nat h) (replicate (Z.to_nat w) 32)) 0 0).
Proof.
  intros Hd HW HH Hx Hy Hr w h Hm Hl. unfold initialise_tty, display_get_width, display_get_height.
  rewrite (ok_screen _ Hd). simpl. change CHAR_SCREEN_SIZE with 16. fold w h.
  assert (0 < w ∧ 0 < h ∧ 16 * w ≤ width (disp t) ∧ 16 * h ≤ height (disp t)) as (Hw0 & Hh0 & Hww & Hhh)
    by (unfold w, h; dlia).
  assert ((16 * w) * (16 * h) < 2 ^ 32 * 2 ^ 32) by (apply Z.mul_lt_mono_nonneg; lia).
  rewrite wrap_small by lia. rewrite Hm. change (or_undef (Some block)) with (Ok block). rewrite Ok_bind. apply wp_bind. eapply wp_mono; [apply arr_fill_wp; lia|].
  intros buf [Hlb Hb]. rewrite Hx, Hy, Hr.
  assert (∀ y, row_text buf w y = replicate (Z.to_nat w) 32 ∨ ¬ 0 ≤ y < h) as Hrow.
  { intros y. destruct (decide (0 ≤ y < h)); [left|by right].
    rewrite (row_text_fill (replicate (length block) 32) buf w h y y); [by rewrite decide_True|lia|lia|lia| | |].
    - rewrite length_replicate. lia.
    - by rewrite length_replicate.
    - intros i. rewrite Hb. repeat case_decide; try done; try (exfalso; nia).
      + symmetry. apply lookup_replicate_2. nia.
      + transitivity (@None Z); [|symmetry]; [apply lookup_ge_None|apply lookup_replicate_None]; lia. }
  assert (text_ok w h 0 0 0 buf) as T.
  { split; try lia.
    - apply Forall_lookup. intros i c Hi. rewrite Hb in Hi. case_decide as D; [by simplify_eq|].
      apply lookup_lt_Some in Hi. lia.
    - intros x c Hx0. destruct (Hrow 0) as [->|]; [|lia]. intros [-> _]%lookup_replicate. by case_if; [lia|].
    - intros k Hk Hlt. nia. }
  eapply wp_mono; [apply (blit_all _ buf)|]; simpl; try done; try lia; try by destruct T.
  intros t' (d & -> & G & S). pose proof G as (Gw & Gh & Gok). exists buf. simpl in *.
  split; [split; simpl; try done; lia|]. split_and!; try done. unfold term_of. simpl. f_equal.
  unfold ring_rows. apply list_eq. intros k. rewrite list_lookup_fmap.
  destruct (decide (k < Z.to_nat h)%nat) as [Hk|Hk].
  - rewrite lookup_seq_lt, lookup_replicate_2 by lia. simpl. f_equal.
    destruct (Hrow (ring_index h 0 (Z.of_nat k))) as [->|[]]; [|by apply ring_index_range; lia].
    apply shown_blank. by apply Forall_replicate.
  - rewrite lookup_seq_ge by lia. symmetry. apply lookup_replicate_None. lia.
Qed.

(** C6: What a write does to the screen.  On a consistent terminal, writing any character --
    from the keyboard or from a program -- returns, and the page of text then shown by the pixels
    of the display is the page before it with the character stored at the cursor, scrolled at a newline
    or a full row, or with the last typed character erased by a backspace (which never erases
    past a newline or past what a program wrote, and climbs to the row above when the line is empty).
    The ring buffer, its clearing and the redraw of a single character are thus invisible: the
    incremental redraw always gives the screen a full redraw would. *)
Theorem write_refines_page t buf c keyboard :
  tty_ok t buf → - 128 ≤ c < 128 →
  ∃ t' buf', write_from_multiple_sources c keyboard t = Ok t' ∧ tty_ok t' buf' ∧ kept t t' ∧
    term_of t' buf' = term_write (chars_width t) (canonical t) keyboard c (term_of t buf).
Proof.
  intros O Hc. destruct (wp_total_1 _ _ (write_wp t buf c keyboard O Hc)) as (t' & E & buf' & ?). eauto.
Qed.
