(* ===== verification/TtyInput.v ===== *)
(** * The terminal's line input: a queue of typed characters

    What tty_provide_stdin and tty_read do to the pending input, and how it can
    disagree with the screen. *)
From S2P Require Import Prelude Font Arrays Display Tty TtySpec.

#[local] Arguments c_foreach : simpl never.

(** The characters typed and not read yet. *)
Definition pending (t : tty) : list Z := take (Z.to_nat (next t)) (input_buffer t).

Record input_ok (t : tty) : Prop := {
  input_length : length (input_buffer t) = 1000%nat;
  input_next : 0 ≤ next t ≤ INPUT_BUF_LENGTH
}.

Lemma pending_length t : input_ok t → Z.of_nat (length (pending t)) = next t.
Proof. intros [Hl Hn]. unfold pending, INPUT_BUF_LENGTH in *. rewrite length_take, Hl. lia. Qed.

(** The queue after a key: a backspace removes the last character. *)
Definition stdin_push (canon : bool) (x : Z) (q : list Z) : list Z :=
  if x =? 0 then q
  else if (x =? 8) && canon then take (length q - 1) q
  else q ++ [x].

(** The length of the first line, its newline included; 0 if there is none. *)
Fixpoint line_length (q : list Z) : Z :=
  match q with
  | [] => 0
  | c :: q => if c =? 10 then 1 else let n := line_length q in if n =? 0 then 0 else n + 1
  end.

Lemma line_length_bound q : 0 ≤ line_length q ≤ Z.of_nat (length q).
Proof. induction q as [|c q IH]; cbn [line_length length]; [lia|]. repeat case_if; lia. Qed.

(** ** Reading *)

Lemma line_length_app pre q : Forall (λ c, c ≠ 10) pre →
  line_length (pre ++ q) = if line_length q =? 0 then 0 else Z.of_nat (length pre) + line_length q.
Proof.
  induction 1 as [|c pre Hc Hpre IH]; cbn [app line_length length]; [by case_if; lia|].
  replace (c =? 10) with false by lia. rewrite IH. pose proof (line_length_bound q). repeat case_if; lia.
Qed.

Lemma find_newline_wp t : input_ok t →
  wp False (find_newline_in_input_buffer t) (λ n, n = line_length (pending t)).
Proof.
  intros I. pose proof (pending_length _ I) as Hpl. pose proof I as [Hl Hn]. unfold find_newline_in_input_buffer. apply wp_bind.
  eapply wp_mono; [apply (wp_for False (λ i _, Forall (λ c, c ≠ 10) (take (Z.to_nat i) (pending t)))
    (λ n, n = line_length (pending t))); [lia|done|]|].
  - intros i [] Hi Hpre. destruct (lookup_lt_is_Some_2 (pending t) (Z.to_nat i)) as [c Hc]; [lia|].
    pose proof Hc as Hc'. unfold pending in Hc'. rewrite lookup_take_lt in Hc' by lia.
    rewrite (arr_get_lookup _ _ c) by (done || lia). rewrite Ok_bind. pose proof (take_drop_middle _ _ _ Hc) as E.
    case_if; simpl.
    + rewrite <-E, line_length_app by done. cbn [line_length]. replace (c =? 10) with true by lia.
      rewrite length_take. case_if; lia.
    + replace (Z.to_nat (i + 1)) with (S (Z.to_nat i)) by lia. erewrite take_S_r by done.
      by apply Forall_app_2; [|constructor].
  - intros [s|r] Hr; [|done]. simpl. rewrite <-Hpl, Nat2Z.id, take_ge in Hr by lia.
    rewrite <-(app_nil_r (pending t)), line_length_app by done. done.
Qed.

(** Copying down overlapping data: [l[j] = l[j + n]]. *)
Lemma shuffle_wp (l : list Z) n k :
  0 ≤ n → 0 ≤ k → n + k ≤ Z.of_nat (length l) →
  wp False (c_foreach 0 k (λ j l, c ← arr_get l (j + n); arr_set l j c) l)
    (λ l', length l' = length l ∧ take (Z.to_nat k) l' = take (Z.to_nat k) (drop (Z.to_nat n) l)).
Proof.
  intros Hn Hk Hl. eapply wp_mono; [apply (wp_foreach False (λ j l', length l' = length l ∧
    (∀ i : nat, Z.of_nat i < j → l' !! i = l !! (i + Z.to_nat n)%nat) ∧
    (∀ i : nat, j ≤ Z.of_nat i → l' !! i = l !! i))); [done| |]|].
  - split_and!; try done. lia.
  - intros j l' Hj (Hlen & Hlo & Hhi).
    destruct (lookup_lt_is_Some_2 l' (Z.to_nat (j + n))) as [c Hc]; [lia|].
    rewrite (arr_get_lookup _ _ c) by (done || lia). rewrite Ok_bind, arr_set_in_range by lia. simpl.
    rewrite length_insert. split; [done|]. rewrite Hhi in Hc by lia. split; intros i Hi.
    + destruct (decide (i = Z.to_nat j)) as [->|].
      * rewrite list_lookup_insert_eq by lia. rewrite <-Hc. f_equal. lia.
      * rewrite list_lookup_insert_ne by done. apply Hlo. lia.
    + rewrite list_lookup_insert_ne by lia. apply Hhi. lia.
  - intros l' (Hlen & Hlo & _). split; [done|]. apply list_eq. intros i.
    destruct (decide (i < Z.to_nat k)%nat).
    + rewrite !lookup_take_lt, lookup_drop by lia. rewrite Hlo by lia. f_equal. lia.
    + by rewrite !lookup_take_ge by lia.
Qed.

Lemma copy_out_wp (q out : list Z) n :
  0 ≤ n → n ≤ Z.of_nat (length q) → n ≤ Z.of_nat (length out) →
  wp False (c_foreach 0 n (λ i out, c ← arr_get q i; arr_set out i c) out)
    (λ out', out' = take (Z.to_nat n) q ++ drop (Z.to_nat n) out).
Proof.
  intros Hn Hq Ho. eapply wp_mono; [apply (wp_foreach False (λ j out',
    out' = take (Z.to_nat j) q ++ drop (Z.to_nat j) out)); [done|done|]|done].
  intros j out' Hj ->. destruct (lookup_lt_is_Some_2 q (Z.to_nat j)) as [c Hc]; [lia|].
  destruct (lookup_lt_is_Some_2 out (Z.to_nat j)) as [o Ho']; [lia|].
  rewrite (arr_get_lookup _ _ c) by (done || lia). rewrite Ok_bind.
  rewrite arr_set_in_range by (rewrite length_app, length_take, length_drop; lia). simpl.
  replace (Z.to_nat (j + 1)) with (S (Z.to_nat j)) by lia. erewrite take_S_r by done.
  rewrite (drop_S _ _ _ Ho'), <-app_assoc. simpl.
  by rewrite insert_app_r_alt, length_take, Nat.min_l, Nat.sub_diag by (rewrite ?length_take; lia).
Qed.

Lemma tty_read_wp out num t :
  input_ok t → canonical t = true → 0 ≤ num ≤ Z.of_nat (length out) →
  wp False (tty_read out num t) (λ '(n, out', t'),
    n = Z.min num (line_length (pending t)) ∧
    out' = take (Z.to_nat n) (pending t) ++ drop (Z.to_nat n) out ∧
    pending t' = drop (Z.to_nat n) (pending t) ∧ input_ok t' ∧
    ∃ l k, t' = with_input t l k).
Proof.
  intros I C Hnum. pose proof (pending_length _ I) as Hpl. pose proof I as [Hl Hn]. unfold INPUT_BUF_LENGTH in *.
  unfold tty_read. rewrite C. simpl.
  apply wp_bind. eapply wp_mono; [by apply find_newline_wp|]. intros ? ->.
  pose proof (line_length_bound (pending t)) as Hll. set (k := line_length (pending t)) in *.
  replace (if k <? num then k else num) with (Z.min num k) by (case_if; lia). set (n := Z.min num k) in *.
  assert (0 ≤ n ≤ next t) as Hnn by lia.
  destruct (n =? 0) eqn:En; zbool.
  { rewrite En. change (Z.to_nat 0) with 0%nat. simpl. split_and!; try done.
    exists (input_buffer t), (next t). by destruct t. }
  apply wp_bind. eapply wp_mono; [apply copy_out_wp; lia|]. intros ? ->.
  rewrite wrap_small by lia. apply wp_bind. eapply wp_mono; [apply shuffle_wp; lia|]. intros l [Hll' Hsh]. simpl.
  split; [done|]. split; [|split; [|split; [|eauto]]].
  - f_equal. unfold pending. rewrite take_take. f_equal. lia.
  - unfold pending. simpl. rewrite Hsh, skipn_firstn_comm. f_equal. lia.
  - split; simpl; [congruence|]. unfold INPUT_BUF_LENGTH. lia.
Qed.

(** tty_read in canonical mode hands out the pending input line by line:
    it copies [min num n] characters, [n] the length of the first line with its newline (so nothing, when
    no line is complete), leaves the rest of the caller's array alone, and the
    characters not read stay queued in order; nothing else of the terminal changes. *)
Theorem tty_read_spec out num t :
  input_ok t → canonical t = true → 0 ≤ num ≤ Z.of_nat (length out) →
  ∃ out' t', let n := Z.min num (line_length (pending t)) in
    tty_read out num t = Ok (n, out', t') ∧
    out' = take (Z.to_nat n) (pending t) ++ drop (Z.to_nat n) out ∧
    pending t' = drop (Z.to_nat n) (pending t) ∧ input_ok t' ∧ ∃ l k, t' = with_input t l k.
Proof.
  intros I C Hnum. destruct (wp_total_1 _ _ (tty_read_wp out num t I C Hnum)) as ([[n out'] t'] & E & -> & ?). eauto.
Qed.

(** ** Typing *)

Lemma kept_input t t' : kept t t' → pending t' = pending t ∧ canonical t' = canonical t ∧ (input_ok t → input_ok t').
Proof.
  intros (_ & _ & Ec & Ei & En & _). unfold pending, canonical. rewrite Ec, Ei, En. split_and!; [done..|].
  intros []. split; congruence.
Qed.

Lemma tty_ok_with_input t buf l k : tty_ok t buf → tty_ok (with_input t l k) buf.
Proof. by intros []. Qed.

Lemma tty_provide_stdin_wp x t buf :
  tty_ok t buf → input_ok t → - 128 ≤ x < 128 → x ≠ 0 →
  wp (next t = INPUT_BUF_LENGTH) (tty_provide_stdin x t) (λ t', ∃ buf', tty_ok t' buf' ∧ input_ok t' ∧
    canonical t' = canonical t ∧ chars_width t' = chars_width t ∧
    pending t' = stdin_push (canonical t) x (pending t) ∧
    term_of t' buf' = term_write (chars_width t) (canonical t) true x (term_of t buf)).
Proof.
  intros O I Hx Hx0. unfold tty_provide_stdin, stdin_push. replace (x =? 0) with false by lia.
  apply wp_bind. eapply wp_mono_halt; [by apply (write_wp t buf x true)|done|].
  intros t1 (buf1 & O1 & K & E). destruct (kept_input _ _ K) as (Ep & Ec & I1). specialize (I1 I).
  pose proof K as (Kw & _ & _ & _ & Kn & _). rewrite Ec, <-Kn, <-Ep. pose proof (pending_length _ I1) as Hpl.
  destruct I1 as [Hl1 Hn1]. unfold INPUT_BUF_LENGTH in *. destruct ((x =? 8) && canonical t) eqn:Eb.
  - destruct (next t1 =? 0) eqn:E0; zbool; simpl.
    + exists buf1. split_and!; try done. rewrite take_ge by lia. done.
    + exists buf1. split; [by apply tty_ok_with_input|]. split; [split; simpl; unfold INPUT_BUF_LENGTH; lia|].
      split_and!; try done. unfold pending. simpl. rewrite take_take. f_equal. rewrite length_take. lia.
  - destruct (next t1 =? 1000) eqn:E1; zbool; [done|]. simpl. rewrite arr_set_in_range by lia. simpl.
    exists buf1. split; [by apply tty_ok_with_input|].
    split; [split; simpl; unfold INPUT_BUF_LENGTH; rewrite ?length_insert; lia|].
    split_and!; try done. unfold pending. simpl. replace (Z.to_nat (next t1 + 1)) with (S (Z.to_nat (next t1))) by lia.
    erewrite take_S_r by (apply list_lookup_insert_eq; lia). by rewrite take_insert_ge by lia.
Qed.

Lemma backspace_no_halt t buf : tty_ok t buf → canonical t = true → tty_provide_stdin 8 t ≠ Halt.
Proof.
  intros O C. unfold tty_provide_stdin. change (8 =? 0) with false.
  destruct (wp_total_1 _ _ (write_wp t buf 8 true O ltac:(lia))) as (t1 & E1 & buf1 & O1 & K & _).
  rewrite E1, Ok_bind. destruct (kept_input _ _ K) as (_ & Ec & _). rewrite Ec, C.
  change ((8 =? 8) && true) with true. by destruct (next t1 =? 0).
Qed.

(** A key typed at a consistent terminal is echoed on the page and queued: tty_provide_stdin
    returns, with the page changed as by a keyboard write and the
    character appended to the pending input (or, for a backspace in canonical
    mode, the last pending character removed); the machine is stopped exactly when a character arrives
    with 1000 already pending. *)
Theorem tty_provide_stdin_spec x t buf :
  tty_ok t buf → input_ok t → - 128 ≤ x < 128 → x ≠ 0 →
  (next t = INPUT_BUF_LENGTH → x = 8 ∧ canonical t = true) →
  ∃ t' buf', tty_provide_stdin x t = Ok t' ∧ tty_ok t' buf' ∧ input_ok t' ∧
    pending t' = stdin_push (canonical t) x (pending t) ∧
    term_of t' buf' = term_write (chars_width t) (canonical t) true x (term_of t buf).
Proof.
  intros O I Hx Hx0 Hfull. pose proof (tty_provide_stdin_wp x t buf O I Hx Hx0) as W.
  destruct (tty_provide_stdin x t) as [t'| | |] eqn:E; simpl in W; try done.
  - destruct W as (buf' & ? & ? & _ & _ & ? & ?). eauto 10.
  - destruct (Hfull W) as [-> C]. by destruct (backspace_no_halt _ _ O C).
Qed.

(** After a line has been entered (or a program has written), a backspace leaves the page
    as it is, because nothing typed since can be erased, but still takes the
    last pending character away -- the newline of the entered line, so that the line can no longer be read.
    The screen and the input disagree. *)
Theorem backspace_unreads_entered_line t buf q :
  tty_ok t buf → input_ok t → canonical t = true →
  current_run_of_keyboard_inputs t = 0 → pending t = q ++ [10] → Forall (λ c, c ≠ 10) q →
  ∃ t' buf', tty_provide_stdin 8 t = Ok t' ∧ term_of t' buf' = term_of t buf ∧
    pending t' = q ∧ ∀ out num, 0 ≤ num ≤ Z.of_nat (length out) → 
      ∃ t2, tty_read out num t' = Ok (0, out, t2).
Proof.
  intros O I C Hr Hq Hnl.
  pose proof (tty_provide_stdin_wp 8 t buf O I ltac:(lia) ltac:(lia)) as W.
  pose proof (backspace_no_halt _ _ O C).
  destruct (tty_provide_stdin 8 t) as [t'| | |] eqn:E; simpl in W; try done.
  destruct W as (buf' & O' & I' & C' & _ & Ep & Et). exists t', buf'. split; [done|].
  assert (pending t' = q) as Ep'.
  { rewrite Ep, Hq, C. unfold stdin_push. change (8 =? 0) with false. change ((8 =? 8) && true) with true.
    rewrite length_app. simpl. by rewrite Nat.add_sub, take_app_length. }
  split; [|split; [done|]].
  - rewrite Et, C. unfold term_write, term_of at 1. simpl. by rewrite Hr.
  - intros out num Hnum. rewrite C in C'.
    destruct (wp_total_1 _ _ (tty_read_wp out num t' I' C' Hnum)) as ([[n out'] t2] & E2 & -> & -> & _).
    rewrite E2, Ep'. replace (line_length q) with 0.
    + rewrite Z.min_r by lia. change (Z.to_nat 0) with 0%nat. simpl. eauto.
    + rewrite <-(app_nil_r q), line_length_app by done. done.
Qed.

(** ** Examples: the terminal's theorems at work on a screen of two by two characters *)
Definition small_display : display := Display true 4 128 32 32 ∅.
Definition small_heap (n : Z) : option (list Z) := Some (replicate (Z.to_nat n) 0).

Lemma small_tty : ∃ t buf, initialise_tty small_heap (tty_initial small_display) = Ok t ∧
  tty_ok t buf ∧ input_ok t ∧ canonical t = true ∧ pending t = [] ∧ chars_width t = 2 ∧ next t = 0 ∧
  term_of t buf = Terminal [[32; 32]; [32; 32]] 0 0.
Proof.
  destruct (wp_total_1 _ _ (initialise_tty_wp small_heap (tty_initial small_display) (replicate 4 0)
    ltac:(by split; simpl; lia) ltac:(simpl; lia) ltac:(simpl; lia) eq_refl eq_refl eq_refl eq_refl eq_refl))
    as (t & E & buf & O & Ew & Eh & Ec & Ei & En & Et).
  exists t, buf. split; [exact E|]. split; [exact O|].
  assert (input_ok t) as I by (split; [by rewrite Ei|rewrite En; simpl; unfold INPUT_BUF_LENGTH; lia]).
  split; [exact I|]. split; [unfold canonical; by rewrite Ec|].
  split; [unfold pending; by rewrite Ei, En|]. split; [exact Ew|]. split; [exact En|exact Et].
Qed.

Lemma write_refines_page_witness : ∃ t buf t' buf',
  tty_ok t buf ∧ write_from_multiple_sources 65 false t = Ok t' ∧ tty_ok t' buf' ∧
  term_of t' buf' = Terminal [[65; 32]; [32; 32]] 1 0.
Proof.
  destruct small_tty as (t & buf & _ & O & _ & C & _ & Ew & _ & Et).
  destruct (write_refines_page t buf 65 false O ltac:(lia)) as (t' & buf' & E & O' & _ & Et').
  exists t, buf, t', buf'. split; [exact O|]. split; [exact E|]. split; [exact O'|].
  rewrite Et', Et, Ew, C. reflexivity.
Defined.

Lemma tty_provide_stdin_spec_witness : ∃ t buf t' buf',
  tty_ok t buf ∧ tty_provide_stdin 65 t = Ok t' ∧ tty_ok t' buf' ∧ pending t' = [65] ∧
  term_of t' buf' = Terminal [[65; 32]; [32; 32]] 1 1.
Proof.
  destruct small_tty as (t & buf & _ & O & I & C & Ep & Ew & En & Et).
  destruct (tty_provide_stdin_spec 65 t buf O I ltac:(lia) ltac:(lia) ltac:(rewrite En; unfold INPUT_BUF_LENGTH; lia))
    as (t' & buf' & E & O' & _ & Ep' & Et').
  exists t, buf, t', buf'. split; [exact O|]. split; [exact E|]. split; [exact O'|].
  rewrite Ep', Et', Ep, Et, Ew, C. split; reflexivity.
Defined.

Lemma tty_read_spec_witness :
  let t := with_input (tty_initial small_display) ([104; 105; 10; 120] ++ replicate 996 0) 4 in
  ∃ t', tty_read [0; 0; 0; 0; 0] 5 t = Ok (3, [104; 105; 10; 0; 0], t') ∧ pending t' = [120].
Proof.
  intros t. destruct (tty_read_spec [0; 0; 0; 0; 0] 5 t) as (out' & t' & E & -> & Ep & _);
    [split; [reflexivity|cbn; unfold INPUT_BUF_LENGTH; lia]|reflexivity|cbn; lia|].
  exists t'. split; [exact E|exact Ep].
Defined.

Lemma backspace_unreads_entered_line_witness : ∃ t buf t' buf',
  tty_ok t buf ∧ pending t = [97; 10] ∧ tty_provide_stdin 8 t = Ok t' ∧ term_of t' buf' = term_of t buf ∧
  pending t' = [97].
Proof.
  destruct small_tty as (t0 & buf0 & _ & O0 & I0 & C0 & Ep0 & Ew0 & En0 & Et0).
  assert (∀ t : tty, input_ok t → pending t = [] ∨ pending t = [97] → next t ≠ INPUT_BUF_LENGTH) as Hn.
  { intros t I Hp. pose proof (pending_length _ I). destruct Hp as [Hp|Hp]; rewrite Hp in *; simpl in *;
      unfold INPUT_BUF_LENGTH; lia. }
  assert (∀ x t buf, tty_ok t buf → input_ok t → - 128 ≤ x < 128 → x ≠ 0 → pending t = [] ∨ pending t = [97] →
    wp False (tty_provide_stdin x t) (λ t', ∃ buf', tty_ok t' buf' ∧ input_ok t' ∧
      canonical t' = canonical t ∧ chars_width t' = chars_width t ∧
      pending t' = stdin_push (canonical t) x (pending t) ∧
      term_of t' buf' = term_write (chars_width t) (canonical t) true x (term_of t buf))) as Hstep.
  { intros x t buf O I Hx Hx0 Hp. eapply wp_mono_halt; [by apply tty_provide_stdin_wp| |done]. by intros []%(Hn t I Hp). }
  destruct (wp_total_1 _ _ (Hstep 97 t0 buf0 O0 I0 ltac:(lia) ltac:(lia) (or_introl Ep0)))
    as (t1 & _ & buf1 & O1 & I1 & C1 & Ew1 & Ep1 & Et1).
  rewrite C0 in C1, Ep1. rewrite Ep0 in Ep1. change (stdin_push true 97 []) with [97] in Ep1.
  destruct (wp_total_1 _ _ (Hstep 10 t1 buf1 O1 I1 ltac:(lia) ltac:(lia) (or_intror Ep1)))
    as (t & _ & buf & O & I & C & Ew & Ep & Et).
  rewrite C1 in C, Ep, Et. rewrite Ep1 in Ep.
  assert (current_run_of_keyboard_inputs t = 0) as Hr by exact (f_equal run Et).
  destruct (backspace_unreads_entered_line t buf [97] O I C Hr Ep) as (t' & buf' & E & Et' & Ep' & _).
  { repeat constructor. lia. }
  exists t, buf, t', buf'. split; [exact O|]. split; [exact Ep|]. split; [exact E|]. split; [exact Et'|exact Ep'].
Defined.
