(* ===== verification/Ps2.v ===== *)
(** * The PS/2 keyboard: stuos/src/ps2_driver.c (scan code set 2)

    Bytes of the controller arrive one interrupt at a time; the driver counts
    how many are missing for a key and hands whole keys, as characters, to the terminal. *)
From S2P Require Import Prelude Bytes Arrays Hardware Idt Slab Paging Apic KernLibc Font Display Tty.

Definition SCANCODE_VERSION : Z := 2.
Definition LEFT_SHIFT : Z := 0x12.
Definition RIGHT_SHIFT : Z := 0x59.
Definition CAPS_LOCK : Z := 0x58.

(** The designated initialisers of the table: a code, its character and its shifted character. *)
Definition scancode_entries : list (Z * list Z) := [
  (0x1C, [97; 0]); (0x32, [98; 0]); (0x21, [99; 0]); (0x23, [100; 0]); (0x24, [101; 0]); (0x2b, [102; 0]);
  (0x34, [103; 0]); (0x33, [104; 0]); (0x43, [105; 0]); (0x3B, [106; 0]); (0x42, [107; 0]); (0x4b, [108; 0]);
  (0x3a, [109; 0]); (0x31, [110; 0]); (0x44, [111; 0]); (0x4d, [112; 0]);
  (0x15, [113; 0]); (0x2d, [114; 0]); (0x1b, [115; 0]); (0x2c, [116; 0]); (0x3c, [117; 0]); (0x2a, [118; 0]);
  (0x1d, [119; 0]); (0x22, [120; 0]); (0x35, [121; 0]); (0x1a, [122; 0]);
  (0x16, [49; 33]); (0x1e, [50; 34]); (0x26, [51; 0]); (0x25, [52; 36]); (0x2e, [53; 37]); (0x36, [54; 94]);
  (0x3d, [55; 33]); (0x3e, [56; 42]); (0x46, [57; 40]); (0x45, [48; 41]); (0x4e, [45; 95]); (0x55, [61; 43]);
  (0x5a, [10; 0]); (0x66, [8; 0]); (0x29, [32; 0]); (0x4a, [47; 63]); (0x49, [46; 62]); (0x41, [44; 60]);
  (0x5d, [92; 124]); (0x4c, [59; 58]); (0x52, [39; 64])].

Definition lookup_nonextended : list (list Z) :=
  foldr (λ '(i, cs) t, <[Z.to_nat i := cs]> t) (replicate 128 [0; 0]) scancode_entries.

(** ** Controller *)
Definition DATA_PORT : Z := 0x60.
Definition COMMAND_PORT : Z := 0x64.

Inductive ControllerCommand :=
  | READ_CONTROLLER_CONFIGURATION | WRITE_CONTROLLER_CONFIGURATION
  | DISABLE_SECOND_PORT | ENABLE_SECOND_PORT | DISABLE_FIRST_PORT | ENABLE_FIRST_PORT
  | TEST_CONTROLLER | TEST_FIRST_PORT | TEST_SECOND_PORT | DIVERT_BYTE_TO_SECOND_PORT.

Definition command_byte (c : ControllerCommand) : Z :=
  match c with
  | READ_CONTROLLER_CONFIGURATION => 0x20 | WRITE_CONTROLLER_CONFIGURATION => 0x60
  | DISABLE_SECOND_PORT => 0xA7 | ENABLE_SECOND_PORT => 0xA8
  | DISABLE_FIRST_PORT => 0xAD | ENABLE_FIRST_PORT => 0xAE
  | TEST_CONTROLLER => 0xAA | TEST_FIRST_PORT => 0xAB | TEST_SECOND_PORT => 0xA9
  | DIVERT_BYTE_TO_SECOND_PORT => 0xD4
  end.

Inductive KeyboardCommand := KB_SET_GET_SCAN_CODE | KB_ENABLE_SCANNING | KB_RESTART_AND_TEST.
Definition keyboard_byte (c : KeyboardCommand) : Z :=
  match c with KB_SET_GET_SCAN_CODE => 0xF0 | KB_ENABLE_SCANNING => 0xF4 | KB_RESTART_AND_TEST => 0xFF end.

Record StatusRegister := {
  output_buffer_status : bool; input_buffer_status : bool; st_system_flag : bool; command_data : bool;
  st_unknown : Z; timeout_error : bool; parity_error : bool
}.
Definition status_of_byte (b : Z) : StatusRegister := {|
  output_buffer_status := flag 0 b; input_buffer_status := flag 1 b; st_system_flag := flag 2 b;
  command_data := flag 3 b; st_unknown := bits 4 2 b; timeout_error := flag 6 b; parity_error := flag 7 b
|}.

Record ControllerConfiguration := {
  first_ps2_interrupt : bool; second_ps2_interrupt : bool; cfg_system_flag : bool; zero_A : bool;
  first_ps2_port_clock : bool; second_ps2_port_clock : bool; first_ps2_translation : bool; zero_B : bool
}.
Definition configuration_of_byte (b : Z) : ControllerConfiguration := {|
  first_ps2_interrupt := flag 0 b; second_ps2_interrupt := flag 1 b; cfg_system_flag := flag 2 b; zero_A := flag 3 b;
  first_ps2_port_clock := flag 4 b; second_ps2_port_clock := flag 5 b; first_ps2_translation := flag 6 b; zero_B := flag 7 b
|}.
Definition byte_of_configuration (c : ControllerConfiguration) : Z :=
  pack [(1, Z.b2z (first_ps2_interrupt c)); (1, Z.b2z (second_ps2_interrupt c)); (1, Z.b2z (cfg_system_flag c));
        (1, Z.b2z (zero_A c)); (1, Z.b2z (first_ps2_port_clock c)); (1, Z.b2z (second_ps2_port_clock c));
        (1, Z.b2z (first_ps2_translation c)); (1, Z.b2z (zero_B c))].

Section controller.
Context {D : Type} `{!PortIO D}.

Definition read_status_register : io D StatusRegister :=
  b ← in8 COMMAND_PORT; mret (status_of_byte b).

Definition send_command (command : ControllerCommand) : io D () :=
  st ← read_status_register;
  _ ← lift (hcf_if (input_buffer_status st));
  out8 COMMAND_PORT (command_byte command).

(** The waiting loops poll the controller: [fuel] bounds the polls. *)
Definition blocking_read_data (fuel : nat) : io D Z :=
  _ ← io_while fuel (λ _ : (), st ← read_status_register;
        mret (if output_buffer_status st then inr () else inl ())) ();
  in8 DATA_PORT.

Definition blocking_write_data (fuel : nat) (data : Z) : io D () :=
  _ ← io_while fuel (λ _ : (), st ← read_status_register;
        mret (if input_buffer_status st then inl () else inr ())) ();
  out8 DATA_PORT data.

Definition send_byte_to_first_ps2 (fuel : nat) (data : Z) : io D () := blocking_write_data fuel data.

Definition wait_for_fa_aa (fuel : nat) : io D () :=
  io_while fuel (λ '(first_fa, first_aa),
    if negb first_fa || negb first_aa then
      input ← blocking_read_data fuel;
      if input =? 0xFA then mret (inl (true, first_aa))
      else if input =? 0xAA then mret (inl (first_fa, true))
      else lift Halt
    else mret (inr ())) (false, false).

(** [while(read_status_register().output_buffer_status) blocking_read_data();] *)
Definition flush_output (fuel : nat) : io D () :=
  io_while fuel (λ _ : (), st ← read_status_register;
    if output_buffer_status st then _ ← blocking_read_data fuel; mret (inl ()) else mret (inr ())) ().

Definition expect (fuel : nat) (byte : Z) : io D () :=
  b ← blocking_read_data fuel; lift (c_assert (b =? byte)).

(** initialise_ps2 up to the allocation of an interrupt vector *)
Definition initialise_controller (fuel : nat) : io D () :=
  _ ← send_command DISABLE_FIRST_PORT;
  _ ← send_command DISABLE_SECOND_PORT;
  _ ← flush_output fuel;
  _ ← send_command READ_CONTROLLER_CONFIGURATION;
  b ← blocking_read_data fuel;
  let config := configuration_of_byte b in
  let config := {| first_ps2_interrupt := true; second_ps2_interrupt := false;
                   cfg_system_flag := cfg_system_flag config; zero_A := zero_A config;
                   first_ps2_port_clock := false; second_ps2_port_clock := false;
                   first_ps2_translation := false; zero_B := zero_B config |} in
  _ ← send_command WRITE_CONTROLLER_CONFIGURATION;
  _ ← blocking_write_data fuel (byte_of_configuration config);
  _ ← send_command TEST_CONTROLLER;
  _ ← expect fuel 0x55;
  _ ← send_command TEST_FIRST_PORT;
  b ← blocking_read_data fuel; _ ← lift (hcf_if (negb (b =? 0)));
  _ ← send_command TEST_SECOND_PORT;
  b ← blocking_read_data fuel; _ ← lift (hcf_if (negb (b =? 0)));
  _ ← send_command ENABLE_FIRST_PORT;
  _ ← send_command ENABLE_SECOND_PORT;
  _ ← send_byte_to_first_ps2 fuel (keyboard_byte KB_RESTART_AND_TEST);
  _ ← wait_for_fa_aa fuel;
  _ ← flush_output fuel;
  _ ← send_byte_to_first_ps2 fuel (keyboard_byte KB_SET_GET_SCAN_CODE);
  _ ← expect fuel 0xFA;
  _ ← blocking_write_data fuel SCANCODE_VERSION;
  _ ← expect fuel 0xFA;
  _ ← send_byte_to_first_ps2 fuel (keyboard_byte KB_ENABLE_SCANNING);
  expect fuel 0xFA.
End controller.

(** The interrupt handlers the drivers install. *)
Inductive driver_handler := handle_incoming_byte_handler | xhci_interrupt_handler.

Definition initialise_ps2 {D} `{!PortIO D} `{!Mmio D} (fuel : nat) (w : apic (D := D)) (s : idt_state (H := driver_handler))
    : outcome (apic * idt_state) :=
  '(_, d) ← initialise_controller fuel (device w);
  '(vector, s) ← allocate_free_idt_entry s;
  s ← initialise_idt_entry vector handle_incoming_byte_handler s;
  w ← map_ioapic_interrupt 1 (u8 vector) (with_device d w);
  Ok (w, s).

(** ** Decoding *)

(** union BufferData: the low three bytes of [data] *)
Definition first_byte (data : Z) : Z := bits 0 8 data.
Definition second_byte (data : Z) : Z := bits 8 8 data.
Definition third_byte (data : Z) : Z := bits 16 8 data.

(** The static variables of parse_full_buffer. *)
Record keyboard := Keyboard { capslock : bool; shift : bool }.

(** Whether the bytes are a break code and an extended code. *)
Definition parse_prefix (data : Z) : outcome (bool * bool) :=
  if third_byte data =? 0xE0 then
    _ ← hcf_if (negb (second_byte data =? 0xF0)); Ok (true, true)
  else
    _ ← hcf_if (negb (third_byte data =? 0));
    if second_byte data =? 0xF0 then Ok (true, false)
    else if second_byte data =? 0xE0 then Ok (false, true)
    else if second_byte data =? 0 then Ok (false, false)
    else Halt.

Definition parse_full_buffer (data : Z) (k : keyboard) : outcome (Z * keyboard) :=
  if data =? 0xE11477E1F014E077 then Ok (0, k)
  else if data =? 0xE012E07C then Ok (0, k)
  else if data =? 0xE0F07CE0F012 then Ok (0, k)
  else
    '(is_break, is_extended) ← parse_prefix data;
    if negb is_extended && (first_byte data =? CAPS_LOCK) then
      Ok (0, if is_break : bool then k else Keyboard (negb (capslock k)) (shift k))
    else if ((first_byte data =? LEFT_SHIFT) || (first_byte data =? RIGHT_SHIFT)) && negb is_extended then
      Ok (0, Keyboard (capslock k) (negb is_break))
    else if is_break : bool then Ok (0, k)
    else
      _ ← c_assert (first_byte data <? 128);
      row ← arr_get lookup_nonextended (first_byte data);
      value ← arr_get row (Z.b2z (shift k));
      value ← (if value =? 0 then arr_get row 0 else Ok value);
      if value =? 0 then Ok (0, k)
      else Ok (if shift k || capslock k then s8 (toupper value) else value, k).

(** ** The interrupt handler *)

Record ps2 := Ps2 {
  expected_number_of_bytes : Z;
  buffer_data : Z;
  keys : keyboard;
  terminal : tty
}.

(** The body of the loop once a byte has been read. *)
Definition feed_byte (first : Z) (s : ps2) : outcome ps2 :=
  let data := u64 (Z.lor (Z.shiftl (buffer_data s) 8) first) in
  let expected := expected_number_of_bytes s in
  expected ← (if (first =? 0xE0) || (first =? 0xF0) then c_int (expected + 1) else Ok expected);
  let expected := if first =? 0xE1 then 7 else expected in
  expected ← c_int (expected - 1);
  if expected =? 0 then
    '(c, k) ← parse_full_buffer data (keys s);
    t ← tty_provide_stdin c (terminal s);
    Ok (Ps2 1 0 k t)
  else Ok (Ps2 expected data (keys s) (terminal s)).

Definition handle_incoming_byte {D} `{!PortIO D} (fuel : nat) (s : ps2) : io D ps2 :=
  io_while fuel (λ s,
    st ← read_status_register;
    if output_buffer_status st then
      first ← blocking_read_data fuel;
      s ← lift (feed_byte first s);
      mret (inl s)
    else mret (inr s)) s.
