(* ===== verification/Ps2Spec.v ===== *)
(** * The driver refines a keyboard that reports whole keys *)
From S2P Require Import Prelude KernLibc Bytes Slab Paging Font Arrays Display Idt Hardware Apic ApicSpec Tty TtyInput Ps2.

(** ** The abstract keyboard *)

Inductive key_event :=
  | Press (code : Z) | Release (code : Z) | PressExt (code : Z) | ReleaseExt (code : Z).

Definition event_bytes (e : key_event) : list Z :=
  match e with
  | Press c => [c]
  | Release c => [0xF0; c]
  | PressExt c => [0xE0; c]
  | ReleaseExt c => [0xE0; 0xF0; c]
  end.

Definition event_code (e : key_event) : Z :=
  match e with Press c | Release c | PressExt c | ReleaseExt c => c end.

(** A code is a byte that is no prefix; the table covers the pressed keys below 128. *)
Definition event_ok (e : key_event) : Prop :=
  0 ≤ event_code e < match e with Press _ | PressExt _ => 128 | _ => 0xE0 end.

Definition is_shift (c : Z) : bool := (c =? LEFT_SHIFT) || (c =? RIGHT_SHIFT).

(** The character of a key: 0 when it has none. *)
Definition key_char (k : keyboard) (c : Z) : Z :=
  let row := lookup_nonextended !!! Z.to_nat c in
  let v := row !!! (if shift k then 1%nat else 0%nat) in
  let v := if v =? 0 then row !!! 0%nat else v in
  if shift k || capslock k then toupper v else v.

(** What a key does to the keyboard, and the character it sends. *)
Definition key_step (e : key_event) (k : keyboard) : Z * keyboard :=
  match e with
  | Press c =>
      if c =? CAPS_LOCK then (0, Keyboard (negb (capslock k)) (shift k))
      else if is_shift c then (0, Keyboard (capslock k) true)
      else (key_char k c, k)
  | Release c => if is_shift c then (0, Keyboard (capslock k) false) else (0, k)
  | PressExt c => (key_char k c, k)
  | ReleaseExt _ => (0, k)
  end.

(** Each key in turn changes the keyboard and sends its character to the terminal. *)
Fixpoint do_keys (es : list key_event) (k : keyboard) (t : tty) : outcome (keyboard * tty) :=
  match es with
  | [] => Ok (k, t)
  | e :: es => let '(c, k) := key_step e k in t ← tty_provide_stdin c t; do_keys es k t
  end.

(** ** Decoding a whole key *)

Lemma lookup_row c : 0 ≤ c < 128 → ∃ row, arr_get lookup_nonextended c = Ok row ∧
  row = lookup_nonextended !!! Z.to_nat c ∧ length row = 2%nat ∧ Forall (λ v, 0 ≤ v < 127) row.
Proof.
  intros Hc.
  assert (length lookup_nonextended = 128%nat) as Hl by (vm_compute; reflexivity).
  assert (Forall (λ row, length row = 2%nat ∧ Forall (λ v, 0 ≤ v < 127) row) lookup_nonextended) as Hf.
  { apply (bool_decide_unpack _). vm_compute. exact I. }
  destruct (arr_get_in_range lookup_nonextended c) as (row & Hrow & E); [rewrite Hl; lia|].
  exists row. split; [exact E|]. split; [symmetry; by apply list_lookup_total_correct|].
  exact (Forall_lookup_1 _ _ _ _ Hf Hrow).
Qed.

Lemma toupper_range v : 0 ≤ v < 127 → s8 (toupper v) = toupper v ∧ (toupper v = 0 ↔ v = 0).
Proof.
  intros Hv. unfold toupper. destruct ((97 <=? v) && (v <=? 122)) eqn:E; zbool; (split; [apply signed_small; lia|lia]).
Qed.

Definition key_data (e : key_event) : Z :=
  match e with
  | Press c => c
  | Release c => 0xF000 + c
  | PressExt c => 0xE000 + c
  | ReleaseExt c => 0xE0F000 + c
  end.

Lemma parse_char c k :
  0 ≤ c < 128 →
  (_ ← c_assert (c <? 128);
   row ← arr_get lookup_nonextended c;
   value ← arr_get row (Z.b2z (shift k));
   value ← (if value =? 0 then arr_get row 0 else Ok value);
   if value =? 0 then Ok (0, k)
   else Ok (if shift k || capslock k then s8 (toupper value) else value, k)) = Ok (key_char k c, k).
Proof.
  intros Hc. replace (c <? 128) with true by lia. cbn [c_assert]. rewrite Ok_bind.
  destruct (lookup_row c Hc) as (row & -> & Erow & Hl & Hr). unfold key_char. rewrite <-Erow. clear Erow.
  destruct row as [|v0 [|v1 []]]; try done. rewrite !Forall_cons in Hr. destruct Hr as (H0 & H1 & _).
  rewrite Ok_bind. destruct (toupper_range v0 H0) as [E0 Z0]. destruct (toupper_range v1 H1) as [E1 Z1].
  assert (∀ v, 0 ≤ v < 127 → s8 (toupper v) = toupper v → (toupper v = 0 ↔ v = 0) →
    (if v =? 0 then Ok (0, k) else Ok (if shift k || capslock k then s8 (toupper v) else v, k)) =
    Ok (if shift k || capslock k then toupper v else v, k)) as Hend.
  { intros v Hv Es Ez. rewrite Es. destruct (v =? 0) eqn:E; [|done]. zbool. subst v. by destruct (shift k || capslock k). }
  destruct k as [caps []]; cbn [shift capslock Z.b2z orb] in *;
    change ([v0; v1] !!! 0%nat) with v0; change ([v0; v1] !!! 1%nat) with v1.
  - change (arr_get [v0; v1] 1) with (Ok v1). rewrite Ok_bind. destruct (v1 =? 0) eqn:E.
    + change (arr_get [v0; v1] 0) with (Ok v0). rewrite Ok_bind. exact (Hend v0 H0 E0 Z0).
    + rewrite Ok_bind, E, E1. done.
  - change (arr_get [v0; v1] 0) with (Ok v0). rewrite Ok_bind. destruct (v0 =? 0) eqn:E; rewrite Ok_bind, ?E; specialize (Hend v0 H0 E0 Z0); rewrite E in Hend; exact Hend.
Qed.

Lemma key_data_bytes e : event_ok e →
  first_byte (key_data e) = event_code e ∧
  second_byte (key_data e) = match e with Press _ => 0 | PressExt _ => 0xE0 | _ => 0xF0 end ∧
  third_byte (key_data e) = match e with ReleaseExt _ => 0xE0 | _ => 0 end ∧ 0 ≤ key_data e < 2 ^ 24.
Proof.
  unfold event_ok, first_byte, second_byte, third_byte, bits.
  destruct e as [c|c|c|c]; simpl; intros Hc; Z.to_euclidean_division_equations; lia.
Qed.

Lemma parse_key e k : event_ok e → parse_full_buffer (key_data e) k = Ok (key_step e k).
Proof.
  intros He. destruct (key_data_bytes e He) as (E1 & E2 & E3 & Hr). unfold parse_full_buffer, parse_prefix.
  replace (key_data e =? 0xE11477E1F014E077) with false by lia. replace (key_data e =? 0xE012E07C) with false by lia.
  replace (key_data e =? 0xE0F07CE0F012) with false by lia. rewrite E1, E2, E3. clear E1 E2 E3.
  destruct e as [c|c|c|c]; cbn [event_code key_step] in *.
  - change (0 =? 0xE0) with false. change (negb (0 =? 0)) with false. change (0 =? 0xF0) with false. change (0 =? 0) with true.
    cbn [hcf_if]. rewrite !Ok_bind. cbn [negb andb orb]. rewrite andb_true_r. fold (is_shift c).
    destruct (c =? CAPS_LOCK); [done|]. destruct (is_shift c); [done|]. by apply parse_char.
  - change (0 =? 0xE0) with false. change (negb (0 =? 0)) with false. change (0xF0 =? 0xF0) with true.
    cbn [hcf_if]. rewrite !Ok_bind. cbn [negb andb orb]. rewrite andb_true_r. fold (is_shift c).
    destruct (c =? CAPS_LOCK) eqn:Ec; [|by destruct (is_shift c)]. zbool. by subst c.
  - change (0 =? 0xE0) with false. change (negb (0 =? 0)) with false. change (0xE0 =? 0xF0) with false. change (0xE0 =? 0xE0) with true.
    cbn [hcf_if]. rewrite !Ok_bind. cbn [negb andb orb]. rewrite andb_false_r. by apply parse_char.
  - change (0xE0 =? 0xE0) with true. change (negb (0xF0 =? 0xF0)) with false.
    cbn [hcf_if]. rewrite !Ok_bind. cbn [negb andb orb]. by rewrite andb_false_r.
Qed.

(** ** Feeding bytes *)

Fixpoint feed_bytes (l : list Z) (s : ps2) : outcome ps2 :=
  match l with [] => Ok s | b :: l => s ← feed_byte b s; feed_bytes l s end.

Lemma feed_bytes_app l k s : feed_bytes (l ++ k) s = (s ← feed_bytes l s; feed_bytes k s).
Proof. revert s. induction l as [|b l IH]; intros s; simpl; [done|]. destruct (feed_byte b s); simpl; [apply IH|done..]. Qed.

Definition idle (s : ps2) : Prop := expected_number_of_bytes s = 1 ∧ buffer_data s = 0.

Lemma shift_in data first : 0 ≤ data → 0 ≤ first < 256 → u64 (Z.lor (Z.shiftl data 8) first) = u64 (first + 256 * data).
Proof. intros Hd Hf. rewrite Z.lor_comm, (lor_shiftl _ _ 8) by lia. f_equal. lia. Qed.

(** A byte that leaves more to come. *)
Lemma feed_more first s data n :
  buffer_data s = data → expected_number_of_bytes s = n → 0 ≤ data → 0 ≤ first < 256 → 0 < n < 100 →
  let n' := if first =? 0xE1 then 6 else if (first =? 0xE0) || (first =? 0xF0) then n else n - 1 in
  n' ≠ 0 →
  feed_byte first s = Ok (Ps2 n' (u64 (first + 256 * data)) (keys s) (terminal s)).
Proof.
  intros Hd Hn Hd0 Hf Hn0 n' Hn'. unfold feed_byte. rewrite Hd, Hn, shift_in by lia.
  assert (n' ≠ 0 → (n' =? 0) = false) as Hz by lia. specialize (Hz Hn'). unfold n' in *. clear n'.
  destruct ((first =? 0xE0) || (first =? 0xF0)) eqn:E.
  - rewrite c_int_ok, Ok_bind by lia. destruct (first =? 0xE1) eqn:E1.
    + change (c_int (7 - 1)) with (Ok 6). by rewrite Ok_bind.
    + rewrite c_int_ok, Ok_bind by lia. replace (n + 1 - 1) with n by lia. by rewrite Hz.
  - rewrite Ok_bind. destruct (first =? 0xE1) eqn:E1.
    + change (c_int (7 - 1)) with (Ok 6). by rewrite Ok_bind.
    + rewrite c_int_ok, Ok_bind by lia. by rewrite Hz.
Qed.

(** The byte that completes a key. *)
Lemma feed_last first s data :
  buffer_data s = data → expected_number_of_bytes s = 1 → 0 ≤ data → 0 ≤ first < 0xE0 →
  feed_byte first s =
    ('(c, k) ← parse_full_buffer (u64 (first + 256 * data)) (keys s);
     t ← tty_provide_stdin c (terminal s); Ok (Ps2 1 0 k t)).
Proof.
  intros Hd Hn Hd0 Hf. unfold feed_byte. rewrite Hd, Hn, shift_in by lia.
  replace (first =? 0xE0) with false by lia. replace (first =? 0xF0) with false by lia.
  replace (first =? 0xE1) with false by lia. cbn [orb]. rewrite Ok_bind.
  change (c_int (1 - 1)) with (Ok 0). rewrite Ok_bind. by change (0 =? 0) with true.
Qed.

Lemma feed_event e s : event_ok e → idle s →
  feed_bytes (event_bytes e) s =
    (let '(c, k) := key_step e (keys s) in t ← tty_provide_stdin c (terminal s); Ok (Ps2 1 0 k t)).
Proof.
  intros He [Hn Hd]. destruct (key_data_bytes e He) as (_ & _ & _ & Hr). pose proof (parse_key e (keys s) He) as Hp.
  unfold event_ok in He. destruct e as [c|c|c|c]; cbn [event_bytes feed_bytes event_code key_data] in *.
  - rewrite (feed_last c s 0) by (done || lia). rewrite wrap_small by lia. rewrite Z.mul_0_r, Z.add_0_r, Hp, Ok_bind.
    destruct (key_step _ _). by destruct (tty_provide_stdin _ _).
  - rewrite (feed_more 0xF0 s 0 1) by (done || lia). rewrite Ok_bind, (feed_last c _ 0xF0) by (done || lia).
    rewrite (wrap_small 64 (c + 256 * 0xF0)) by lia. replace (c + 256 * 0xF0) with (0xF000 + c) by lia. cbn [keys terminal].
    rewrite Hp, Ok_bind. destruct (key_step _ _). by destruct (tty_provide_stdin _ _).
  - rewrite (feed_more 0xE0 s 0 1) by (done || lia). rewrite Ok_bind, (feed_last c _ 0xE0) by (done || lia).
    rewrite (wrap_small 64 (c + 256 * 0xE0)) by lia. replace (c + 256 * 0xE0) with (0xE000 + c) by lia. cbn [keys terminal].
    rewrite Hp, Ok_bind. destruct (key_step _ _). by destruct (tty_provide_stdin _ _).
  - rewrite (feed_more 0xE0 s 0 1) by (done || lia). rewrite Ok_bind, (feed_more 0xF0 _ 0xE0 1) by (done || lia).
    rewrite Ok_bind, (feed_last c _ 0xE0F0) by (done || lia). rewrite (wrap_small 64 (c + 256 * 0xE0F0)) by lia.
    replace (c + 256 * 0xE0F0) with (0xE0F000 + c) by lia. cbn [keys terminal].
    rewrite Hp, Ok_bind. destruct (key_step _ _). by destruct (tty_provide_stdin _ _).
Qed.

Lemma feed_events es s : Forall event_ok es → idle s →
  feed_bytes (concat (event_bytes <$> es)) s =
    ('(k, t) ← do_keys es (keys s) (terminal s); Ok (Ps2 1 0 k t)).
Proof.
  intros Hes. revert s. induction Hes as [|e es He Hes IH]; intros s Hi; cbn [fmap list_fmap concat do_keys].
  - simpl. destruct Hi as [H1 H2]. destruct s; simpl in *. by subst.
  - rewrite feed_bytes_app, feed_event by done. destruct (key_step e (keys s)) as [c k].
    destruct (tty_provide_stdin c (terminal s)) as [t| | |]; [|done..]. rewrite !Ok_bind. by rewrite IH.
Qed.

(** ** Interrupts

    What the code relies on of the controller: the status port says whether a byte is waiting and
    the data port hands them out in order. *)
Class KeyboardController (D : Type) `{!PortIO D} := {
  waiting : D → list Z;
  read_status d : ∃ v d', port_in 1 0x64 d = (v, d') ∧ flag 0 (u8 v) = bool_decide (waiting d ≠ []) ∧
    waiting d' = waiting d;
  read_data d b q : waiting d = b :: q → ∃ d', port_in 1 0x60 d = (b, d') ∧ waiting d' = q
}.

Section interrupts.
Context {D : Type} `{!PortIO D} `{!KeyboardController D}.

Lemma read_status_register_eq d : ∃ st d', read_status_register d = Ok (st, d') ∧
  output_buffer_status st = bool_decide (waiting d ≠ []) ∧ waiting d' = waiting d.
Proof.
  destruct (read_status d) as (v & d' & E & Ef & Ew). exists (status_of_byte (u8 v)), d'.
  split; [|done]. unfold read_status_register, in8, mbind, io_bind.
  change (u16 COMMAND_PORT) with 0x64. by rewrite E.
Qed.

Lemma blocking_read_eq fuel d b q : waiting d = b :: q → 0 ≤ b < 256 → (0 < fuel)%nat →
  ∃ d', blocking_read_data fuel d = Ok (b, d') ∧ waiting d' = q.
Proof.
  intros Hw Hb Hf. destruct fuel as [|fuel]; [lia|].
  destruct (read_status_register_eq d) as (st & d1 & E1 & Es & Ew1).
  destruct (read_data d1 b q) as (d2 & E2 & Ew2); [congruence|]. exists d2. split; [|done].
  rewrite Hw in Es. unfold blocking_read_data, mbind, io_bind, io_while. cbn [c_while]. rewrite E1. cbn [mbind outcome_bind fst snd].
  rewrite Es. cbn [bool_decide decide]. unfold mret, io_ret. simpl. unfold in8. change (u16 DATA_PORT) with 0x60.
  rewrite E2. by rewrite wrap_small by lia.
Qed.

Lemma handle_bytes_loop m n s d : Forall is_byte (waiting d) → (0 < m)%nat → (length (waiting d) < n)%nat →
  (p ← io_while n (λ s,
         st ← read_status_register;
         if output_buffer_status st then
           first ← blocking_read_data m; s ← lift (feed_byte first s); mret (inl s)
         else mret (inr s)) s d; Ok p.1) = feed_bytes (waiting d) s.
Proof.
  intros Hb Hm Hn. remember (waiting d) as l eqn:El. symmetry in El. revert n s d El Hn.
  unfold io_while. induction Hb as [|b l Hb Hl IH]; intros n s d El Hn; destruct n as [|n]; simpl in Hn; try lia;
    cbn [c_while feed_bytes]; destruct (read_status_register_eq d) as (st & d1 & E1 & Es & Ew1); rewrite El in Es;
    rewrite (io_bind_Ok _ _ _ _ _ E1), Es.
  - done.
  - destruct (blocking_read_eq m d1 b l) as (d2 & E2 & Ew2); [congruence|done|done|].
    change (bool_decide (b :: l ≠ [])) with true. cbv iota. rewrite (io_bind_Ok _ _ _ _ _ E2), lift_bind.
    destruct (feed_byte b s) as [s'| | |]; [|done..]. rewrite !Ok_bind, io_ret_eq, Ok_bind. by apply IH; [|lia].
Qed.

Lemma handle_bytes fuel s d : Forall is_byte (waiting d) → (length (waiting d) < fuel)%nat →
  (p ← handle_incoming_byte fuel s d; Ok p.1) = feed_bytes (waiting d) s.
Proof. intros Hb Hf. apply handle_bytes_loop; [done|lia|done]. Qed.

(** One interrupt after the other, each with the bytes its controller holds. *)
Fixpoint interrupts (fuel : nat) (ds : list D) (s : ps2) : outcome ps2 :=
  match ds with
  | [] => Ok s
  | d :: ds => p ← handle_incoming_byte fuel s d; interrupts fuel ds p.1
  end.

Lemma interrupts_feed fuel ds s :
  Forall (λ d, Forall is_byte (waiting d) ∧ (length (waiting d) < fuel)%nat) ds →
  interrupts fuel ds s = feed_bytes (concat (waiting <$> ds)) s.
Proof.
  intros Hds. revert s. induction Hds as [|d ds [Hb Hf] Hds IH]; intros s; [done|].
  cbn [interrupts fmap list_fmap concat]. rewrite feed_bytes_app, <-(handle_bytes fuel s d) by done.
  destruct (handle_incoming_byte fuel s d) as [[s' d']| | |]; [|done..]. rewrite !Ok_bind. apply IH.
Qed.

Lemma event_bytes_ok e : event_ok e → Forall is_byte (event_bytes e).
Proof. unfold event_ok, is_byte. destruct e; simpl; intros; repeat constructor; lia. Qed.

(** C12: The driver decodes keys.  However the bytes of a sequence of keys (plain or extended, pressed with a code below 128 or released with one below 0xE0)
    are spread over interrupts, the driver, started between two keys, behaves as the keyboard that changes its shift and caps lock state and sends the terminal one
    character per key, in order, and is again between two keys at the end.  The characters are those of the layout table: shifted when shift is held and the key has
    a shifted form, upper case under caps lock.  (Not F7, whose code is 0x83 and which stops the machine when it is pressed, [f7_stops_machine]; nor Pause, which leaves
    the driver out of step, [pause_desynchronises].) *)
Theorem ps2_refines_keyboard fuel ds es s :
  idle s → Forall event_ok es →
  Forall (λ d, (length (waiting d) < fuel)%nat) ds →
  concat (waiting <$> ds) = concat (event_bytes <$> es) →
  interrupts fuel ds s = ('(k, t) ← do_keys es (keys s) (terminal s); Ok (Ps2 1 0 k t)).
Proof.
  intros Hi Hes Hf E. rewrite interrupts_feed, E; [by apply feed_events|].
  assert (Forall is_byte (concat (waiting <$> ds))) as Hb.
  { rewrite E. apply Forall_concat, Forall_fmap. eapply Forall_impl; [done|]. intros e. apply event_bytes_ok. }
  clear E. induction Hf as [|d ds Hd Hds IH]; [done|]. cbn [fmap list_fmap concat] in Hb.
  apply Forall_app in Hb as [Hb1 Hb2]. constructor; [done|by apply IH].
Qed.
End interrupts.

(** ** Keys that stop the machine *)

(** The F7 key, code 0x83 in this scan code set, fails the assertion that a pressed key is below 128: pressing
    it stops the machine, from any state between two keys. *)
Theorem f7_stops_machine s : idle s → feed_bytes [0x83] s = Halt.
Proof.
  intros [Hn Hd]. cbn [feed_bytes]. rewrite (feed_last _ _ 0) by (done || lia).
  change (u64 (0x83 + 256 * 0)) with 0x83. by destruct (keys s) as [[] []].
Qed.

(** The bytes of the Pause key. *)
Definition pause_bytes : list Z := [0xE1; 0x14; 0x77; 0xE1; 0xF0; 0x14; 0xF0; 0x77].

Lemma feed_pause s : idle s →
  feed_bytes pause_bytes s = Ok (Ps2 4 0xE11477E1F014F077 (keys s) (terminal s)).
Proof.
  intros [Hn Hd]. unfold pause_bytes. cbn [feed_bytes].
  rewrite (feed_more 0xE1 s 0 1) by (done || lia). rewrite Ok_bind.
  repeat (erewrite feed_more; [|reflexivity|reflexivity|vm_compute; discriminate|lia|lia|vm_compute; discriminate];
    rewrite Ok_bind).
  reflexivity.
Qed.

Lemma last_bytes b1 b2 b3 y :
  0 ≤ b1 < 256 → 0 ≤ b2 < 256 → 0 ≤ b3 < 256 →
  let data := u64 (b1 + 256 * u64 (b2 + 256 * u64 (b3 + 256 * y))) in
  first_byte data = b1 ∧ second_byte data = b2 ∧ third_byte data = b3.
Proof.
  intros H1 H2 H3 data. assert (∃ q, data = b1 + 256 * (b2 + 256 * (b3 + 256 * q))) as [q Hq].
  { unfold data, wrap. exists ((b1 + 256 * (b2 + 256 * (b3 + 256 * y))) `mod` 2 ^ 64 `div` 2 ^ 24).
    Z.to_euclidean_division_equations. lia. }
  rewrite Hq. unfold first_byte, second_byte, third_byte, bits. Z.to_euclidean_division_equations. lia.
Qed.

(** Three bytes no key has. *)
Lemma parse_stray data k : second_byte data = 0xF0 → 0 < third_byte data < 128 →
  parse_full_buffer data k = Halt.
Proof.
  intros H2 H3. unfold parse_full_buffer, parse_prefix.
  assert (∀ n, second_byte n ≠ 0xF0 ∨ third_byte n = 0 ∨ 128 ≤ third_byte n → (data =? n) = false) as Hne.
  { intros n Hn. apply Z.eqb_neq. intros ->. lia. }
  rewrite !Hne by first [left; vm_compute; discriminate | right; right; vm_compute; discriminate].
  replace (third_byte data =? 0xE0) with false by lia. by replace (third_byte data =? 0) with false by lia.
Qed.

(** Pause, the key the driver means to ignore, leaves its byte counter at 4 instead of 1 (the second E1 of its
    8 bytes resets the counter to 7): no key is recognised at its end, and typing any two ordinary keys
    afterwards stops the machine. *)
Theorem pause_desynchronises c1 c2 s :
  idle s → 0 < c1 < 128 → 0 < c2 < 128 →
  feed_bytes pause_bytes s = Ok (Ps2 4 0xE11477E1F014F077 (keys s) (terminal s)) ∧
  feed_bytes (pause_bytes ++ concat (event_bytes <$> [Press c1; Release c1; Press c2; Release c2])) s = Halt.
Proof.
  intros Hi H1 H2. rewrite feed_bytes_app, (feed_pause s Hi). split; [done|]. rewrite Ok_bind.
  cbn [fmap list_fmap concat event_bytes app feed_bytes].
  set (y0 := 0xE11477E1F014F077).
  rewrite (feed_more c1 _ y0 4) by (done || lia || (simpl; repeat case_if; lia)). rewrite Ok_bind.
  replace (if c1 =? 0xE1 then 6 else _) with 3 by (repeat case_if; lia). set (y1 := u64 (c1 + 256 * y0)).
  assert (0 ≤ y1) by (by apply wrap_range).
  rewrite (feed_more 0xF0 _ y1 3) by (done || lia || (simpl; repeat case_if; lia)). rewrite Ok_bind.
  replace (if 0xF0 =? 0xE1 then 6 else _) with 3 by done. set (y2 := u64 (0xF0 + 256 * y1)).
  assert (0 ≤ y2) by (by apply wrap_range).
  rewrite (feed_more c1 _ y2 3) by (done || lia || (simpl; repeat case_if; lia)). rewrite Ok_bind.
  replace (if c1 =? 0xE1 then 6 else _) with 2 by (repeat case_if; lia). set (y3 := u64 (c1 + 256 * y2)).
  assert (0 ≤ y3) by (by apply wrap_range).
  rewrite (feed_more c2 _ y3 2) by (done || lia || (simpl; repeat case_if; lia)). rewrite Ok_bind.
  replace (if c2 =? 0xE1 then 6 else _) with 1 by (repeat case_if; lia). set (y4 := u64 (c2 + 256 * y3)).
  assert (0 ≤ y4) by (by apply wrap_range).
  rewrite (feed_more 0xF0 _ y4 1) by (done || lia || (simpl; repeat case_if; lia)). rewrite Ok_bind.
  replace (if 0xF0 =? 0xE1 then 6 else _) with 1 by done. set (y5 := u64 (0xF0 + 256 * y4)).
  assert (0 ≤ y5) by (by apply wrap_range).
  rewrite (feed_last c2 _ y5) by (done || lia). cbn [keys].
  destruct (last_bytes c2 0xF0 c2 y3) as (_ & E2 & E3); [lia..|]. rewrite parse_stray; [done|exact E2|].
  change (third_byte (u64 (c2 + 256 * y5)) = c2) in E3. lia.
Qed.

(** ** Examples: the drivers' theorems at work on concrete devices *)
(** ** Interrupt vectors *)
Lemma idt_allocation_witness :
  ∃ s0 s', setup_idt (H := driver_handler) (replicate 256 0x8000) idt_initial = Ok s0 ∧
    allocate_many 2 s0 = Ok ([33; 34], s').
Proof.
  destruct (idt_allocation (H := driver_handler) (replicate 256 0x8000) idt_initial 2 eq_refl eq_refl eq_refl)
    as (s0 & E & _ & Hk & _).
  destruct (Hk ltac:(lia)) as [s' E']. exists s0, s'. split; [exact E|exact E'].
Defined.

Lemma gate_roundtrip_witness : gate_entry (encode_descriptor (gate 0xffffffff80012340)) = 0xffffffff80012340.
Proof. apply (gate_roundtrip 0xffffffff80012340). lia. Defined.

Lemma setup_idt_reads_past_table_witness :
  setup_idt (H := driver_handler) (replicate 255 0x8000) idt_initial = Undef.
Proof. apply setup_idt_reads_past_table; reflexivity. Defined.

(** ** An I/O APIC: the selected register and the registers *)
Definition toy_ioapic : Type := Z * gmap Z Z.

#[export] Instance toy_ioapic_mmio : Mmio toy_ioapic := {
  mmio_read32 p d := if p =? 0x1010 then Ok (default 0 (d.2 !! d.1), d) else Undef;
  mmio_write32 p v d :=
    if p =? 0x1000 then Ok (v `mod` 256, d.2) else if p =? 0x1010 then Ok (d.1, <[d.1 := v]> d.2) else Undef
}.
#[export] Instance toy_ioapic_ports : PortIO toy_ioapic := { port_in _ _ d := (0, d); port_out _ _ _ d := d }.

#[export, refine] Instance toy_ioapic_device : IoApicDevice toy_ioapic 0x1000 := {
  io_selected d := d.1; io_register d i := default 0 (d.2 !! i)
}.
Proof.
  - intros d v. eexists. split; [reflexivity|]. by split.
  - intros d v Hv. eexists. split; [reflexivity|]. split; [done|]. intros i. simpl. case_decide as E.
    + subst. by rewrite lookup_insert_eq.
    + by rewrite lookup_insert_ne.
Defined.

Definition empty_memory : mm := MM (PhysState 0 0 []) ∅ 0 0 0 0 [].
Definition toy_apic : apic (D := toy_ioapic) := Apic empty_memory (0, ∅) (Ioapic 0x1000 3 23) 0 0 0 0 0 0.

Lemma map_ioapic_interrupt_spec_witness :
  ∃ w', map_ioapic_interrupt 1 33 toy_apic = Ok w' ∧ redirection (device w') 1 = 33 + 2 ^ 56 * 3.
Proof.
  destruct (map_ioapic_interrupt_spec 0x1000 1 33 toy_apic eq_refl ltac:(lia) ltac:(cbn; lia) ltac:(lia) ltac:(cbn; lia))
    as (w' & E & R & _).
  exists w'. split; [exact E|exact R].
Defined.

(** ** A MADT with a processor and an interrupt override *)
Definition toy_records : list madt_record := [(0, [0; 0; 1; 0; 0; 0]); (2, [0; 0; 2; 0; 0; 0; 0; 0])].
Definition toy_madt : list Z :=
  ([65; 80; 73; 67; 62; 0; 0; 0] ++ replicate 36 0 ++ encode_madt_entries toy_records)%list.

Lemma handle_madt_spec_witness :
  handle_madt (λ p, if 0 <=? p then toy_madt !! Z.to_nat p else None) 3 0 toy_apic = Ok toy_apic.
Proof.
  rewrite (handle_madt_spec _ 3 0 (take 44 toy_madt) toy_records toy_apic).
  - reflexivity.
  - reflexivity.
  - intros i b Hi. rewrite Z.add_0_l, Nat2Z.id, (proj2 (Z.leb_le 0 (Z.of_nat i))) by apply Nat2Z.is_nonneg. exact Hi.
  - repeat constructor; unfold is_byte; simpl; lia.
  - reflexivity.
  - reflexivity.
  - simpl. lia.
Defined.

(** ** A keyboard controller: the bytes waiting *)
Definition toy_keyboard : Type := list Z.

#[export] Instance toy_keyboard_ports : PortIO toy_keyboard := {
  port_in _ p q := if p =? 0x64 then (match q with [] => 0 | _ => 1 end, q) 
    else match q with [] => (0, []) | b :: q => (b, q) end;
  port_out _ _ _ q := q
}.

#[export, refine] Instance toy_keyboard_controller : KeyboardController toy_keyboard := { waiting q := q }.
Proof.
  - intros q. eexists _, q. split; [reflexivity|]. split; [|done]. by destruct q.
  - intros d b q ->. by exists q.
Defined.

Definition toy_ps2 : ps2 := Ps2 1 0 (Keyboard false false) (tty_initial small_display).

Lemma ps2_refines_keyboard_witness :
  ∃ s', interrupts 4 ([[0x12]; [0x1C; 0xF0]; [0x1C]] : list toy_keyboard) toy_ps2 = Ok s' ∧ pending (terminal s') = [65].
Proof.
  eexists. split.
  - rewrite (ps2_refines_keyboard 4 ([[0x12]; [0x1C; 0xF0]; [0x1C]] : list toy_keyboard) [Press 0x12; Press 0x1C; Release 0x1C]).
    + vm_compute. reflexivity.
    + split; reflexivity.
    + repeat constructor; unfold event_ok; simpl; lia.
    + repeat constructor; simpl; lia.
    + reflexivity.
  - vm_compute. reflexivity.
Defined.

Lemma f7_stops_machine_witness : feed_bytes [0x83] toy_ps2 = Halt.
Proof. apply f7_stops_machine. split; reflexivity. Defined.

Lemma pause_desynchronises_witness :
  feed_bytes (pause_bytes ++ [0x1C; 0xF0; 0x1C; 0x32; 0xF0; 0x32])%list toy_ps2 = Halt.
Proof. refine (proj2 (pause_desynchronises 0x1C 0x32 toy_ps2 _ _ _)); [split; reflexivity|lia|lia]. Defined.
