(* ===== verification/WideTables.v ===== *)
(** * The character tables of the C library: custom_libc/alpha.h, punct.h, casemap.h

    Two-level bitmaps of the alphabetic and punctuation characters, and the rules of the case mapping. *)
From S2P Require Import Prelude.

Definition alpha_table : list Z := [
  18; 17; 19; 20; 21; 22; 23; 24; 25; 26; 27; 28; 29; 30; 31; 32; 33; 17; 34; 35; 36; 17; 37; 38; 39; 40;
  41; 42; 43; 44; 17; 45; 46; 47; 16; 16; 48; 16; 16; 16; 16; 16; 16; 16; 49; 50; 51; 16; 52; 53; 16; 16;
  17; 17; 17; 17; 17; 17; 17; 17; 17; 17; 17; 17; 17; 17; 17; 17; 17; 17; 17; 17; 17; 17; 17; 17; 17; 54;
  17; 17; 17; 17; 17; 17; 17; 17; 17; 17; 17; 17; 17; 17; 17; 17; 17; 17; 17; 17; 17; 17; 17; 17; 17; 17;
  17; 17; 17; 17; 17; 17; 17; 17; 17; 17; 17; 17; 17; 17; 17; 17; 17; 17; 17; 17; 17; 17; 17; 17; 17; 17;
  17; 17; 17; 17; 17; 17; 17; 17; 17; 17; 17; 17; 17; 17; 17; 17; 17; 17; 17; 17; 17; 17; 17; 17; 17; 17;
  17; 17; 17; 55; 17; 17; 17; 17; 56; 17; 57; 58; 59; 60; 61; 62; 17; 17; 17; 17; 17; 17; 17; 17; 17; 17;
  17; 17; 17; 17; 17; 17; 17; 17; 17; 17; 17; 17; 17; 17; 17; 17; 17; 17; 17; 17; 17; 17; 17; 17; 17; 17;
  17; 17; 17; 17; 17; 17; 17; 63; 16; 16; 16; 16; 16; 16; 16; 16; 16; 16; 16; 16; 16; 16; 16; 16; 16; 16;
  16; 16; 16; 16; 16; 16; 16; 16; 16; 16; 16; 16; 16; 16; 16; 17; 64; 65; 17; 66; 67;
  68; 69; 70; 71; 72; 73; 74; 17; 75; 76; 77; 78; 79; 80; 81; 16; 82; 83; 84; 85; 86; 87; 88; 89; 90; 91;
  92; 93; 16; 94; 95; 96; 16; 17; 17; 17; 97; 98; 99; 16; 16; 16; 16; 16; 16; 16; 16; 16; 16; 17; 17; 17;
  17; 100; 16; 16; 16; 16; 16; 16; 16; 16; 16; 16; 16; 16; 16; 16; 16; 17; 17; 101; 16; 16; 16; 16; 16;
  16; 16; 16; 16; 16; 16; 16; 16; 16; 16; 16; 16; 16; 16; 16; 16; 16; 16; 16; 16; 16; 16; 16; 16; 16; 16;
  16; 16; 17; 17; 102; 103; 16; 16; 104; 105; 17; 17; 17; 17; 17; 17; 17; 17; 17; 17; 17; 17; 17; 17;
  17; 17; 17; 17; 17; 17; 17; 17; 17; 106; 17; 17; 107; 16; 16; 16; 16; 16; 16; 16; 16; 16; 16; 16; 16;
  16; 16; 16; 16; 16; 16; 16; 16; 16; 16; 16; 16; 16; 16; 16; 16; 16; 16; 16; 16; 16; 16; 16; 16; 16; 17;
  108; 109; 16; 16; 16; 16; 16; 16; 16; 16; 16; 110; 16; 16; 16; 16; 16; 16; 16; 16; 16; 16; 16; 16; 16;
  16; 16; 16; 16; 16; 16; 16; 16; 16; 16; 111; 112; 113; 114; 16; 16; 16; 16; 16; 16; 16; 16; 115; 116;
  117; 16; 16; 16; 16; 16; 118; 119; 16; 16; 16; 16; 120; 16; 16; 121; 16; 16; 16; 16; 16; 16; 16; 16;
  16; 16; 16; 16; 16;
  16; 0; 0; 0; 0; 0; 0; 0; 0; 0; 0; 0; 0; 0; 0; 0; 0; 0; 0; 0; 0; 0; 0; 0; 0; 0; 0; 0; 0; 0; 0; 0; 0; 255; 255;
  255; 255; 255; 255; 255; 255; 255; 255; 255; 255; 255; 255; 255; 255; 255; 255; 255; 255; 255;
  255; 255; 255; 255; 255; 255; 255; 255; 255; 255; 255; 0; 0; 0; 0; 0; 0; 0; 0; 254; 255; 255; 7; 254;
  255; 255; 7; 0; 0; 0; 0; 0; 4; 32; 4; 255; 255; 127; 255; 255; 255; 127; 255; 255; 255; 255; 255;
  255; 255; 255; 255; 255; 255; 255; 255; 255; 255; 255; 255; 255; 255; 255; 255; 255; 255; 255;
  255; 195; 255; 3; 0; 31; 80; 0; 0; 0; 0; 0; 0; 0; 0; 0; 0; 32; 0; 0; 0; 0; 0; 223; 188; 64; 215; 255; 255;
  251; 255; 255; 255; 255; 255; 255; 255; 255; 255; 191; 255; 255; 255; 255; 255; 255; 255; 255;
  255; 255; 255; 255; 255; 255; 255; 255; 255; 3; 252; 255; 255; 255; 255; 255; 255; 255; 255; 255;
  255; 255; 255; 255; 255; 255; 255; 255; 255; 255; 255; 254; 255; 255; 255; 127; 2; 255; 255; 255;
  255; 255; 1; 0; 0; 0; 0; 255; 191; 182; 0; 255; 255; 255; 135; 7; 0; 0; 0; 255; 7; 255; 255; 255; 255;
  255; 255; 255; 254; 255; 195; 255; 255; 255; 255; 255; 255; 255; 255; 255; 255; 255; 255; 239;
  31; 254; 225; 255;
  159; 0; 0; 255; 255; 255; 255; 255; 255; 0; 224; 255; 255; 255; 255; 255; 255; 255; 255; 255; 255;
  255; 255; 3; 0; 255; 255; 255; 255; 255; 7; 48; 4; 255; 255; 255; 252; 255; 31; 0; 0; 255; 255; 255;
  1; 255; 7; 0; 0; 0; 0; 0; 0; 255; 255; 223; 63; 0; 0; 240; 255; 248; 3; 255; 255; 255; 255; 255; 255;
  255; 255; 255; 239; 255; 223; 225; 255; 207; 255; 254; 255; 239; 159; 249; 255; 255; 253; 197;
  227; 159; 89; 128; 176; 207; 255; 3; 16; 238; 135; 249; 255; 255; 253; 109; 195; 135; 25; 2; 94;
  192; 255; 63; 0; 238; 191; 251; 255; 255; 253; 237; 227; 191; 27; 1; 0; 207; 255; 0; 30; 238; 159;
  249; 255; 255; 253; 237; 227; 159; 25; 192; 176; 207; 255; 2; 0; 236; 199; 61; 214; 24; 199; 255;
  195; 199; 29; 129; 0; 192; 255; 0; 0; 239; 223; 253; 255; 255; 253; 255; 227; 223; 29; 96; 7; 207;
  255; 0; 0; 239; 223; 253; 255; 255; 253; 239; 227; 223; 29; 96; 64; 207; 255; 6; 0; 239; 223; 253;
  255; 255; 255; 255; 231; 223; 93; 240; 128; 207; 255; 0; 252; 236; 255; 127; 252; 255; 255; 251;
  47; 127; 128; 95; 255; 192; 255; 12; 0; 254; 255; 255; 255; 255; 127; 255; 7; 63; 32; 255; 3; 0; 0;
  0; 0; 214; 247; 255; 255; 175; 255; 255; 59; 95; 32; 255; 243; 0; 0; 0;
  0; 1; 0; 0; 0; 255; 3; 0; 0; 255; 254; 255; 255; 255; 31; 254; 255; 3; 255; 255; 254; 255; 255; 255;
  31; 0; 0; 0; 0; 0; 0; 0; 0; 255; 255; 255; 255; 255; 255; 127; 249; 255; 3; 255; 255; 255; 255; 255;
  255; 255; 255; 255; 63; 255; 255; 255; 255; 191; 32; 255; 255; 255; 255; 255; 247; 255; 255; 255;
  255; 255; 255; 255; 255; 255; 61; 127; 61; 255; 255; 255; 255; 255; 61; 255; 255; 255; 255; 61;
  127; 61; 255; 127; 255; 255; 255; 255; 255; 255; 255; 61; 255; 255; 255; 255; 255; 255; 255; 255;
  7; 0; 0; 0; 0; 255; 255; 0; 0; 255; 255; 255; 255; 255; 255; 255; 255; 255; 255; 63; 63; 254; 255;
  255; 255; 255; 255; 255; 255; 255; 255; 255; 255; 255; 255; 255; 255; 255; 255; 255; 255; 255;
  255; 255; 255; 255; 255; 255; 255; 255; 255; 255; 255; 255; 255; 255; 255; 255; 255; 255; 255;
  255; 255; 255; 255; 255; 159; 255; 255; 254; 255; 255; 7; 255; 255; 255; 255; 255; 255; 255; 255;
  255; 199; 255; 1; 255; 223; 15; 0; 255; 255; 15; 0; 255; 255; 15; 0; 255; 223; 13; 0; 255; 255; 255;
  255; 255; 255; 207; 255; 255; 1; 128; 16; 255; 3; 0; 0; 0; 0; 255; 3; 255; 255; 255; 255; 255; 255;
  255; 255; 255; 255; 255; 1; 255; 255; 255; 255; 255; 7; 255; 255; 255; 255; 255; 255; 255; 255;
  63;
  0; 255; 255; 255; 127; 255; 15; 255; 1; 192; 255; 255; 255; 255; 63; 31; 0; 255; 255; 255; 255;
  255; 15; 255; 255; 255; 3; 255; 3; 0; 0; 0; 0; 255; 255; 255; 15; 255; 255; 255; 255; 255; 255; 255;
  127; 254; 255; 31; 0; 255; 3; 255; 3; 128; 0; 0; 0; 0; 0; 0; 0; 0; 0; 0; 0; 255; 255; 255; 255; 255;
  255; 239; 255; 239; 15; 255; 3; 0; 0; 0; 0; 255; 255; 255; 255; 255; 243; 255; 255; 255; 255; 255;
  255; 191; 255; 3; 0; 255; 255; 255; 255; 255; 255; 127; 0; 255; 227; 255; 255; 255; 255; 255; 63;
  255; 1; 255; 255; 255; 255; 255; 231; 0; 0; 0; 0; 0; 222; 111; 4; 255; 255; 255; 255; 255; 255; 255;
  255; 255; 255; 255; 255; 255; 255; 255; 255; 255; 255; 255; 255; 255; 255; 255; 255; 0; 0; 0; 0;
  128; 255; 31; 0; 255; 255; 63; 63; 255; 255; 255; 255; 63; 63; 255; 170; 255; 255; 255; 63; 255;
  255; 255; 255; 255; 255; 223; 95; 220; 31; 207; 15; 255; 31; 220; 31; 0; 0; 0; 0; 0; 0; 0; 0; 0; 0; 0;
  0; 0; 0; 2; 128; 0; 0; 255; 31; 0; 0; 0; 0; 0; 0; 0; 0; 0; 0; 0; 0; 132; 252; 47; 62; 80; 189; 255; 243;
  224; 67; 0; 0; 255; 255; 255; 255; 255; 1; 0; 0; 0; 0; 0; 0; 0; 0; 0; 0; 0; 0; 0;
  0; 0; 0; 0; 0; 0; 0; 0; 0; 0; 0; 0; 0; 0; 0; 0; 0; 0; 0; 0; 0; 0; 0; 192; 255; 255; 255; 255; 255; 255; 3; 0;
  0; 255; 255; 255; 255; 255; 127; 255; 255; 255; 255; 255; 127; 255; 255; 255; 255; 255; 255; 255;
  255; 255; 255; 255; 255; 255; 255; 255; 255; 31; 120; 12; 0; 255; 255; 255; 255; 191; 32; 255;
  255; 255; 255; 255; 255; 255; 128; 0; 0; 255; 255; 127; 0; 127; 127; 127; 127; 127; 127; 127; 127;
  255; 255; 255; 255; 0; 0; 0; 0; 0; 128; 0; 0; 0; 0; 0; 0; 0; 0; 0; 0; 0; 0; 0; 0; 0; 0; 0; 0; 0; 0; 0; 0; 0; 0;
  0; 0; 224; 0; 0; 0; 254; 3; 62; 31; 254; 255; 255; 255; 255; 255; 255; 255; 255; 255; 127; 224; 254;
  255; 255; 255; 255; 255; 255; 255; 255; 255; 255; 247; 224; 255; 255; 255; 255; 255; 254; 255;
  255; 255; 255; 255; 255; 255; 255; 255; 255; 127; 0; 0; 255; 255; 255; 7; 0; 0; 0; 0; 0; 0; 255; 255;
  255; 255; 255; 255; 255; 255; 255; 255; 255; 255; 255; 255; 255; 255; 255; 255; 255; 255; 255;
  255; 255; 255; 63; 0; 0; 0; 0; 0; 0; 0; 0; 0; 255; 255; 255; 255; 255; 255; 255; 255; 255; 255; 255;
  255; 255; 255; 255; 255; 255; 255; 255; 255; 255; 255; 255; 255; 255; 255; 255; 255; 255; 255; 0;
  0; 255; 255; 255; 255; 255; 255; 255; 255; 255; 255; 255; 255; 255; 255; 255; 255; 255; 31; 0; 0;
  0; 0; 0; 0; 0; 0; 255; 255; 255; 255; 255; 63; 255; 31; 255; 255; 255; 15; 0; 0; 255; 255; 255; 255;
  255; 127; 240; 143; 255; 255; 255; 255; 255; 255; 255; 255; 255; 255; 255; 255; 255; 255; 0; 0; 0;
  0; 128; 255; 252; 255; 255; 255; 255; 255; 255; 255; 255; 255; 255; 255; 255; 249; 255; 255; 255;
  255; 255; 255; 124; 0; 0; 0; 0; 0; 128; 255; 191; 255; 255; 255; 255; 0; 0; 0; 255; 255; 255; 255;
  255; 255; 15; 0; 255; 255; 255; 255; 255; 255; 255; 255; 47; 0; 255; 3; 0; 0; 252; 232; 255; 255;
  255; 255; 255; 7; 255; 255; 255; 255; 7; 0; 255; 255; 255; 31; 255; 255; 255; 255; 255; 255; 247;
  255; 0; 128; 255; 3; 255; 255; 255; 127; 255; 255; 255; 255; 255; 255; 127; 0; 255; 63; 255; 3;
  255; 255; 127; 252; 255; 255; 255; 255; 255; 255; 255; 127; 5; 0; 0; 56; 255; 255; 60; 0; 126; 126;
  126; 0; 127; 127; 255; 255; 255; 255; 255; 247; 255; 0; 255; 255; 255; 255; 255; 255; 255; 255;
  255; 255; 255; 255; 255; 255; 255; 7; 255; 3; 255; 255; 255; 255; 255; 255; 255; 255; 255; 255;
  255; 255; 255; 255; 255; 255; 255; 255; 255; 255; 15; 0; 255; 255; 127; 248; 255; 255; 255; 255;
  255;
  15; 255; 255; 255; 255; 255; 255; 255; 255; 255; 255; 255; 255; 255; 63; 255; 255; 255; 255; 255;
  255; 255; 255; 255; 255; 255; 255; 255; 3; 0; 0; 0; 0; 127; 0; 248; 224; 255; 253; 127; 95; 219;
  255; 255; 255; 255; 255; 255; 255; 255; 255; 255; 255; 255; 255; 3; 0; 0; 0; 248; 255; 255; 255;
  255; 255; 255; 255; 255; 255; 255; 255; 255; 63; 0; 0; 255; 255; 255; 255; 255; 255; 255; 255;
  252; 255; 255; 255; 255; 255; 255; 0; 0; 0; 0; 0; 255; 15; 0; 0; 0; 0; 0; 0; 0; 0; 0; 0; 0; 0; 0; 0; 223;
  255; 255; 255; 255; 255; 255; 255; 255; 255; 255; 255; 255; 255; 255; 255; 255; 31; 0; 0; 255; 3;
  254; 255; 255; 7; 254; 255; 255; 7; 192; 255; 255; 255; 255; 255; 255; 255; 255; 255; 255; 127;
  252; 252; 252; 28; 0; 0; 0; 0; 255; 239; 255; 255; 127; 255; 255; 183; 255; 63; 255; 63; 0; 0; 0; 0;
  255; 255; 255; 255; 255; 255; 255; 255; 255; 255; 255; 255; 255; 255; 255; 7; 0; 0; 0; 0; 0; 0; 0; 0;
  255; 255; 255; 255; 255; 255; 31; 0; 0; 0; 0; 0; 0; 0; 0; 0; 0; 0; 0; 0; 0; 0; 0; 0; 0; 0; 0; 0; 0; 0; 0; 0;
  0; 0; 0; 0; 0; 0; 0; 0; 255; 255; 255; 31; 255; 255; 255; 255; 255; 255; 1; 0; 0; 0; 0;
  0; 255; 255; 255; 255; 0; 224; 255; 255; 255; 7; 255; 255; 255; 255; 255; 7; 255; 255; 255; 63;
  255; 255; 255; 255; 15; 255; 62; 0; 0; 0; 0; 0; 255; 255; 255; 255; 255; 255; 255; 255; 255; 255;
  255; 255; 255; 255; 255; 255; 255; 255; 255; 63; 255; 3; 255; 255; 255; 255; 15; 255; 255; 255;
  255; 15; 255; 255; 255; 255; 255; 0; 255; 255; 255; 255; 255; 255; 15; 0; 0; 0; 0; 0; 0; 0; 0; 0; 0; 0;
  0; 0; 0; 0; 0; 0; 0; 0; 255; 255; 255; 255; 255; 255; 127; 0; 255; 255; 63; 0; 255; 0; 0; 0; 0; 0; 0; 0;
  0; 0; 0; 0; 0; 0; 0; 0; 0; 0; 0; 0; 63; 253; 255; 255; 255; 255; 191; 145; 255; 255; 63; 0; 255; 255;
  127; 0; 255; 255; 255; 127; 0; 0; 0; 0; 0; 0; 0; 0; 255; 255; 55; 0; 255; 255; 63; 0; 255; 255; 255; 3;
  0; 0; 0; 0; 0; 0; 0; 0; 255; 255; 255; 255; 255; 255; 255; 192; 0; 0; 0; 0; 0; 0; 0; 0; 111; 240; 239;
  254; 255; 255; 63; 0; 0; 0; 0; 0; 255; 255; 255; 31; 255; 255; 255; 31; 0; 0; 0; 0; 255; 254; 255;
  255; 31; 0; 0; 0; 255; 255; 255; 255; 255; 255; 63; 0; 255; 255; 63; 0; 255; 255; 7; 0; 255; 255; 3;
  0; 0; 0; 0; 0; 0; 0; 0; 0; 0; 0; 0;
  0; 255; 255; 255; 255; 255; 255; 255; 255; 255; 1; 0; 0; 0; 0; 0; 0; 255; 255; 255; 255; 255; 255; 7;
  0; 255; 255; 255; 255; 255; 255; 7; 0; 255; 255; 255; 255; 255; 0; 255; 3; 0; 0; 0; 0; 0; 0; 0; 0; 0; 0;
  0; 0; 0; 0; 0; 0; 0; 0; 0; 0; 0; 0; 0; 0; 255; 255; 255; 31; 128; 0; 255; 255; 63; 0; 0; 0; 0; 0; 0; 0; 0; 0;
  0; 0; 0; 0; 0; 0; 0; 0; 0; 0; 255; 255; 127; 0; 255; 255; 255; 255; 255; 255; 255; 255; 63; 0; 0; 0;
  192; 255; 0; 0; 252; 255; 255; 255; 255; 255; 255; 1; 0; 0; 255; 255; 255; 1; 255; 3; 255; 255; 255;
  255; 255; 255; 199; 255; 112; 0; 255; 255; 255; 255; 71; 0; 255; 255; 255; 255; 255; 255; 255;
  255; 30; 0; 255; 23; 0; 0; 0; 0; 255; 255; 251; 255; 255; 255; 159; 64; 0; 0; 0; 0; 0; 0; 0; 0; 127;
  189; 255; 191; 255; 1; 255; 255; 255; 255; 255; 255; 255; 1; 255; 3; 239; 159; 249; 255; 255; 253;
  237; 227; 159; 25; 129; 224; 15; 0; 0; 0; 0; 0; 0; 0; 0; 0; 0; 0; 0; 0; 0; 0; 0; 0; 0; 0; 255; 255; 255;
  255; 255; 255; 255; 255; 187; 7; 255; 131; 0; 0; 0; 0; 255; 255; 255; 255; 255; 255; 255; 255; 179;
  0; 255; 3; 0; 0; 0;
  0; 0; 0; 0; 0; 0; 0; 0; 0; 0; 0; 0; 0; 0; 0; 0; 0; 255; 255; 255; 255; 255; 255; 63; 127; 0; 0; 0; 63; 0; 0;
  0; 0; 255; 255; 255; 255; 255; 255; 255; 127; 17; 0; 255; 3; 0; 0; 0; 0; 255; 255; 255; 255; 255;
  255; 63; 1; 255; 3; 0; 0; 0; 0; 0; 0; 255; 255; 255; 231; 255; 7; 255; 3; 0; 0; 0; 0; 0; 0; 0; 0; 0; 0; 0;
  0; 0; 0; 0; 0; 0; 0; 0; 0; 0; 0; 0; 0; 255; 255; 255; 255; 255; 255; 255; 1; 0; 0; 0; 0; 0; 0; 0; 0; 0; 0; 0;
  0; 255; 255; 255; 255; 255; 255; 255; 255; 255; 3; 0; 128; 0; 0; 0; 0; 0; 0; 0; 0; 0; 0; 0; 0; 0; 0; 0; 0;
  0; 0; 0; 0; 255; 252; 255; 255; 255; 255; 255; 252; 26; 0; 0; 0; 255; 255; 255; 255; 255; 255; 231;
  127; 0; 0; 255; 255; 255; 255; 255; 255; 255; 255; 255; 32; 0; 0; 0; 0; 255; 255; 255; 255; 255;
  255; 255; 1; 255; 253; 255; 255; 255; 255; 127; 127; 1; 0; 255; 3; 0; 0; 252; 255; 255; 255; 252;
  255; 255; 254; 127; 0; 0; 0; 0; 0; 0; 0; 0; 0; 127; 251; 255; 255; 255; 255; 127; 180; 203; 0; 255; 3;
  191; 253; 255; 255; 255; 127; 123; 1; 255; 3; 0; 0; 0; 0; 0; 0; 0; 0; 0;
  0; 0; 0; 0; 0; 0; 0; 0; 0; 0; 0; 0; 0; 0; 0; 0; 0; 0; 0; 0; 0; 0; 0; 0; 0; 0; 0; 0; 0; 255; 255; 127; 0; 255;
  255; 255; 255; 255; 255; 255; 255; 255; 255; 255; 255; 255; 255; 255; 255; 255; 255; 255; 3; 0; 0;
  0; 0; 0; 0; 0; 0; 0; 0; 0; 0; 255; 255; 255; 255; 255; 255; 255; 255; 255; 255; 255; 255; 255; 127; 0;
  0; 255; 255; 255; 255; 255; 255; 255; 255; 255; 255; 255; 255; 255; 255; 255; 255; 255; 255; 255;
  255; 255; 255; 255; 255; 15; 0; 0; 0; 0; 0; 0; 0; 0; 0; 0; 0; 0; 0; 0; 0; 0; 0; 0; 0; 0; 0; 0; 0; 255; 255;
  255; 255; 255; 127; 0; 0; 0; 0; 0; 0; 0; 0; 0; 0; 0; 0; 0; 0; 0; 0; 0; 0; 0; 0; 0; 0; 0; 0; 0; 0; 255; 255;
  255; 255; 255; 255; 255; 255; 127; 0; 0; 0; 0; 0; 0; 0; 0; 0; 0; 0; 0; 0; 0; 0; 0; 0; 0; 0; 0; 0; 0; 0; 255;
  255; 255; 255; 255; 255; 255; 1; 255; 255; 255; 127; 255; 3; 0; 0; 0; 0; 0; 0; 0; 0; 0; 0; 0; 0; 255;
  255; 255; 63; 0; 0; 255; 255; 255; 255; 255; 255; 0; 0; 15; 0; 255; 3; 248; 255; 255; 224; 255; 255;
  0; 0; 0; 0; 0; 0; 0; 0; 0; 0; 0; 0; 0;
  0; 0; 0; 0; 0; 0; 0; 0; 0; 255; 255; 255; 255; 255; 255; 255; 255; 0; 0; 0; 0; 0; 0; 0; 0; 0; 0; 0; 0; 0; 0;
  0; 0; 255; 255; 255; 255; 255; 255; 255; 255; 255; 135; 255; 255; 255; 255; 255; 255; 255; 128;
  255; 255; 0; 0; 0; 0; 0; 0; 0; 0; 11; 0; 0; 0; 255; 255; 255; 255; 255; 255; 255; 255; 255; 255; 255;
  255; 255; 255; 255; 255; 255; 255; 255; 255; 255; 255; 255; 255; 255; 255; 255; 255; 255; 255;
  255; 0; 255; 255; 255; 255; 255; 255; 255; 255; 255; 255; 255; 255; 255; 255; 255; 255; 255; 255;
  255; 255; 255; 255; 255; 255; 255; 255; 255; 255; 255; 255; 7; 0; 255; 255; 255; 127; 0; 0; 0; 0; 0;
  0; 7; 0; 240; 0; 255; 255; 255; 255; 255; 255; 255; 255; 255; 255; 255; 255; 255; 255; 255; 255;
  255; 255; 255; 255; 255; 255; 255; 255; 255; 255; 255; 255; 255; 255; 255; 255; 255; 255; 255;
  255; 255; 255; 255; 255; 255; 255; 255; 255; 255; 255; 255; 255; 255; 15; 255; 255; 255; 255;
  255; 255; 255; 255; 255; 255; 255; 255; 255; 7; 255; 31; 255; 1; 255; 67; 0; 0; 0; 0; 0; 0; 0; 0; 0; 0;
  0; 0; 255; 255; 255; 255; 255; 255; 255; 255; 255; 255; 223; 255; 255; 255; 255; 255; 255; 255;
  255; 223; 100; 222; 255; 235; 239; 255; 255; 255; 255; 255; 255;
  255; 191; 231; 223; 223; 255; 255; 255; 123; 95; 252; 253; 255; 255; 255; 255; 255; 255; 255;
  255; 255; 255; 255; 255; 255; 255; 255; 255; 255; 255; 255; 255; 255; 255; 255; 255; 255; 255;
  255; 255; 255; 255; 255; 255; 255; 255; 255; 255; 255; 255; 255; 255; 255; 63; 255; 255; 255;
  253; 255; 255; 247; 255; 255; 255; 247; 255; 255; 223; 255; 255; 255; 223; 255; 255; 127; 255;
  255; 255; 127; 255; 255; 255; 253; 255; 255; 255; 253; 255; 255; 247; 207; 255; 255; 255; 255;
  255; 255; 127; 255; 255; 249; 219; 7; 0; 0; 0; 0; 0; 0; 0; 0; 0; 0; 0; 0; 0; 0; 0; 0; 0; 0; 0; 0; 0; 0; 0; 0;
  0; 0; 255; 255; 255; 255; 255; 31; 128; 63; 255; 67; 0; 0; 0; 0; 0; 0; 0; 0; 0; 0; 0; 0; 0; 0; 0; 0; 0; 0;
  0; 0; 0; 0; 0; 0; 0; 0; 0; 0; 0; 0; 0; 0; 0; 0; 0; 0; 0; 0; 0; 0; 0; 0; 0; 0; 0; 0; 255; 255; 255; 255; 255;
  15; 255; 3; 255; 255; 255; 255; 255; 255; 255; 255; 255; 255; 255; 255; 255; 255; 255; 255; 255;
  255; 255; 255; 255; 255; 255; 255; 31; 0; 0; 0; 0; 0; 0; 0; 255; 255; 255; 255; 255; 255; 255; 255;
  143; 8; 255; 3; 0; 0; 0; 0; 0; 0; 0; 0; 0; 0; 0; 0; 0; 0; 0; 0; 0; 0; 0;
  0; 239; 255; 255; 255; 150; 254; 247; 10; 132; 234; 150; 170; 150; 247; 247; 94; 255; 251; 255;
  15; 238; 251; 255; 15; 0; 0; 0; 0; 0; 0; 0; 0; 0; 0; 0; 0; 0; 0; 255; 255; 255; 3; 255; 255; 255; 3; 255;
  255; 255; 3; 0; 0; 0; 0; 0; 0; 0; 0; 0; 0; 0; 0; 0; 0
].

Definition punct_table : list Z := [
  18; 16; 19; 20; 21; 22; 23; 24; 25; 26; 27; 28; 29; 30; 31; 32; 33; 16; 16; 34; 35; 16; 36; 37; 38; 39;
  40; 41; 42; 43; 16; 44; 45; 46; 17; 17; 47; 17; 17; 17; 17; 17; 17; 48; 49; 50; 51; 52; 53; 54; 55; 17;
  16; 16; 16; 16; 16; 16; 16; 16; 16; 16; 16; 16; 16; 16; 16; 16; 16; 16; 16; 16; 16; 16; 16; 16; 16; 56;
  16; 16; 16; 16; 16; 16; 16; 16; 16; 16; 16; 16; 16; 16; 16; 16; 16; 16; 16; 16; 16; 16; 16; 16; 16; 16;
  16; 16; 16; 16; 16; 16; 16; 16; 16; 16; 16; 16; 16; 16; 16; 16; 16; 16; 16; 16; 16; 16; 16; 16; 16; 16;
  16; 16; 16; 16; 16; 16; 16; 16; 16; 16; 16; 16; 16; 16; 16; 16; 16; 16; 16; 16; 16; 16; 16; 16; 16; 16;
  16; 16; 16; 16; 16; 16; 16; 16; 57; 16; 58; 59; 60; 61; 62; 63; 16; 16; 16; 16; 16; 16; 16; 16; 16; 16;
  16; 16; 16; 16; 16; 16; 16; 16; 16; 16; 16; 16; 16; 16; 16; 16; 16; 16; 16; 16; 16; 16; 16; 16; 16; 16;
  16; 16; 16; 16; 16; 16; 16; 16; 16; 16; 16; 16; 16; 16; 16; 16; 64; 16; 16; 16; 16; 16; 16; 16; 16; 16;
  16; 16; 16; 16; 16; 16; 16; 16; 16; 16; 16; 16; 16; 16; 65; 16; 16; 66; 16; 67; 68;
  69; 16; 70; 71; 72; 16; 73; 16; 16; 74; 75; 76; 77; 78; 16; 79; 80; 81; 82; 83; 84; 85; 86; 87; 88; 89;
  90; 91; 16; 92; 93; 94; 95; 16; 16; 16; 16; 96; 16; 16; 16; 16; 16; 16; 16; 16; 16; 16; 16; 16; 16; 16;
  16; 97; 16; 16; 16; 16; 16; 16; 16; 16; 16; 16; 16; 16; 16; 16; 16; 16; 16; 16; 16; 16; 16; 16; 16; 16;
  16; 16; 16; 16; 16; 16; 16; 16; 16; 16; 16; 16; 16; 16; 16; 16; 16; 16; 16; 16; 16; 16; 16; 16; 16; 16;
  16; 16; 16; 98; 99; 16; 16; 100; 101; 16; 16; 16; 16; 16; 16; 16; 16; 16; 16; 16; 16; 16; 16; 16; 16;
  16; 16; 16; 16; 16; 16; 16; 16; 16; 16; 16; 16; 16; 16; 16; 16; 16; 16; 16; 16; 16; 16; 16; 16; 16; 16;
  16; 16; 16; 16; 16; 16; 16; 16; 16; 16; 16; 16; 16; 16; 16; 16; 16; 16; 16; 16; 16; 16; 16; 16; 16; 16;
  16; 16; 16; 16; 16; 16; 16; 16; 102; 16; 16; 16; 16; 16; 16; 16; 16; 16; 16; 16; 16; 16; 16; 16; 16;
  16; 16; 16; 103; 104; 105; 106; 16; 16; 107; 108; 17; 17; 109; 16; 16; 16; 16; 16; 16; 110; 111; 16;
  16; 16; 16; 16; 112; 113; 16; 16; 114; 115; 116; 16; 117; 118; 119; 17; 17; 17; 120; 121; 122; 123;
  124; 16; 16; 16; 16;
  16; 0; 0; 0; 0; 0; 0; 0; 0; 0; 0; 0; 0; 0; 0; 0; 0; 0; 0; 0; 0; 0; 0; 0; 0; 0; 0; 0; 0; 0; 0; 0; 0; 255; 255;
  255; 255; 255; 255; 255; 255; 255; 255; 255; 255; 255; 255; 255; 255; 255; 255; 255; 255; 255;
  255; 255; 255; 255; 255; 255; 255; 255; 255; 255; 255; 0; 0; 0; 0; 254; 255; 0; 252; 1; 0; 0; 248; 1;
  0; 0; 120; 0; 0; 0; 0; 255; 251; 223; 251; 0; 0; 128; 0; 0; 0; 128; 0; 0; 0; 0; 0; 0; 0; 0; 0; 0; 0; 0; 0; 0;
  0; 0; 0; 0; 0; 0; 0; 0; 0; 0; 0; 60; 0; 252; 255; 224; 175; 255; 255; 255; 255; 255; 255; 255; 255;
  255; 255; 223; 255; 255; 255; 255; 255; 32; 64; 176; 0; 0; 0; 0; 0; 0; 0; 0; 0; 0; 0; 0; 0; 64; 0; 0; 0;
  0; 0; 0; 0; 0; 0; 0; 0; 0; 0; 0; 0; 0; 0; 252; 3; 0; 0; 0; 0; 0; 0; 0; 0; 0; 0; 0; 0; 0; 0; 0; 0; 0; 0; 0; 0; 0; 0;
  0; 0; 0; 252; 0; 0; 0; 0; 0; 230; 254; 255; 255; 255; 0; 64; 73; 0; 0; 0; 0; 0; 24; 0; 255; 255; 0; 216;
  0; 0; 0; 0; 0; 0; 0; 1; 0; 60; 0; 0; 0; 0; 0; 0; 0; 0; 0; 0; 0; 0; 16; 224; 1; 30; 0;
  96; 255; 191; 0; 0; 0; 0; 0; 0; 255; 7; 0; 0; 0; 0; 0; 0; 0; 0; 0; 0; 0; 0; 0; 0; 0; 0; 0; 0; 0; 248; 207;
  227; 0; 0; 0; 3; 0; 32; 255; 127; 0; 0; 0; 78; 0; 0; 0; 0; 0; 0; 0; 0; 0; 0; 0; 0; 0; 0; 8; 0; 7; 252; 0; 0; 0;
  0; 0; 0; 0; 0; 0; 16; 0; 32; 30; 0; 48; 0; 1; 0; 0; 0; 0; 0; 0; 0; 0; 16; 0; 32; 0; 0; 0; 0; 252; 111; 0; 0; 0;
  0; 0; 0; 0; 16; 0; 32; 0; 0; 0; 0; 64; 0; 0; 0; 0; 0; 0; 0; 0; 16; 0; 32; 0; 0; 0; 0; 3; 224; 0; 0; 0; 0; 0; 0;
  0; 16; 0; 32; 0; 0; 0; 0; 253; 0; 0; 0; 0; 0; 0; 0; 0; 0; 0; 32; 0; 0; 0; 0; 255; 7; 16; 0; 0; 0; 0; 0; 0; 0; 0;
  32; 0; 0; 0; 0; 128; 255; 16; 0; 0; 0; 0; 0; 0; 16; 0; 32; 0; 0; 0; 0; 0; 0; 0; 0; 0; 0; 0; 0; 0; 24; 0; 160;
  0; 127; 0; 0; 255; 3; 0; 0; 0; 0; 0; 0; 0; 0; 0; 4; 0; 0; 0; 0; 16; 0; 0; 0; 0; 0; 0; 128; 0; 128; 192; 223;
  0; 12; 0; 0; 0; 0; 0; 0; 0; 0; 0; 0; 0; 4; 0; 31; 0; 0; 0; 0; 0;
  0; 254; 255; 255; 255; 0; 252; 255; 255; 0; 0; 0; 0; 0; 0; 0; 0; 252; 0; 0; 0; 0; 0; 0; 192; 255; 223;
  255; 7; 0; 0; 0; 0; 0; 0; 0; 0; 0; 0; 128; 6; 0; 252; 0; 0; 0; 0; 0; 0; 0; 0; 0; 192; 0; 0; 0; 0; 0; 0; 0; 0; 0;
  0; 0; 8; 0; 0; 0; 0; 0; 0; 0; 0; 0; 0; 0; 224; 255; 255; 255; 31; 0; 0; 255; 3; 0; 0; 0; 0; 0; 0; 0; 0; 0; 0;
  0; 0; 1; 0; 0; 0; 0; 0; 0; 0; 0; 0; 0; 0; 0; 0; 0; 0; 0; 0; 0; 0; 0; 0; 0; 0; 0; 0; 0; 0; 0; 0; 0; 0; 0; 0; 0; 0; 0;
  0; 0; 0; 0; 0; 0; 0; 0; 96; 0; 0; 1; 0; 0; 24; 0; 0; 0; 0; 0; 0; 0; 0; 0; 56; 0; 0; 0; 0; 16; 0; 0; 0; 112; 0; 0;
  0; 0; 0; 0; 0; 0; 0; 0; 0; 0; 0; 0; 0; 48; 0; 0; 254; 127; 47; 0; 0; 255; 3; 255; 127; 0; 0; 0; 0; 0; 0; 0; 0;
  0; 0; 0; 0; 0; 0; 0; 0; 0; 0; 0; 0; 0; 0; 0; 0; 0; 0; 0; 0; 0; 0; 0; 0; 0; 0; 0; 0; 0; 14; 49; 0; 0; 0; 0; 0; 0; 0;
  0; 0; 0; 0; 0; 0; 0; 0; 0; 0; 0; 196; 255; 255; 255;
  255; 0; 0; 0; 192; 0; 0; 0; 0; 0; 0; 0; 0; 1; 0; 224; 159; 0; 0; 0; 0; 127; 63; 255; 127; 0; 0; 0; 0; 0; 0;
  0; 0; 0; 0; 0; 0; 0; 0; 16; 0; 16; 0; 0; 252; 255; 255; 255; 31; 0; 0; 0; 0; 0; 12; 0; 0; 0; 0; 0; 0; 64; 0;
  12; 240; 0; 0; 0; 0; 0; 0; 128; 248; 0; 0; 0; 0; 0; 0; 0; 192; 0; 0; 0; 0; 0; 0; 0; 0; 255; 0; 255; 255;
  255; 33; 144; 3; 0; 0; 0; 0; 0; 0; 0; 0; 0; 0; 0; 0; 0; 0; 0; 0; 0; 0; 0; 0; 0; 0; 0; 0; 255; 255; 255; 255;
  127; 0; 224; 251; 0; 0; 0; 0; 0; 0; 0; 0; 0; 0; 0; 0; 0; 0; 0; 0; 0; 0; 0; 0; 0; 0; 0; 160; 3; 224; 0; 224; 0;
  224; 0; 96; 128; 248; 255; 255; 255; 252; 255; 255; 255; 255; 255; 127; 223; 255; 241; 127; 255;
  127; 0; 0; 255; 255; 255; 255; 0; 0; 255; 255; 255; 255; 1; 0; 123; 3; 208; 193; 175; 66; 0; 12; 31;
  188; 255; 255; 0; 0; 0; 0; 0; 14; 255; 255; 255; 255; 255; 255; 255; 255; 255; 255; 255; 255; 255;
  255; 255; 255; 255; 255; 127; 0; 0; 0; 255; 7; 0; 0; 255; 255; 255; 255; 255; 255; 255; 255; 255;
  255; 63; 0; 0; 0; 0; 0; 0; 252; 255;
  255; 255; 255; 255; 255; 255; 255; 255; 255; 255; 255; 255; 255; 255; 255; 207; 255; 255; 255;
  63; 255; 255; 255; 255; 255; 255; 255; 255; 255; 255; 255; 255; 255; 0; 0; 0; 0; 0; 0; 0; 0; 0; 0; 0;
  0; 0; 0; 0; 0; 0; 0; 0; 0; 0; 0; 0; 0; 0; 0; 0; 0; 224; 135; 3; 254; 0; 0; 0; 0; 0; 0; 0; 0; 0; 0; 0; 0; 0; 0; 1;
  128; 0; 0; 0; 0; 0; 0; 0; 0; 0; 0; 0; 0; 0; 0; 0; 0; 255; 255; 255; 255; 255; 127; 255; 255; 255; 255; 0;
  0; 0; 0; 0; 0; 255; 255; 255; 251; 255; 255; 255; 255; 255; 255; 255; 255; 255; 255; 15; 0; 255;
  255; 255; 255; 255; 255; 255; 255; 255; 255; 255; 255; 255; 255; 255; 255; 255; 255; 255; 255;
  255; 255; 255; 255; 255; 255; 63; 0; 0; 0; 255; 15; 30; 255; 255; 255; 1; 252; 193; 224; 0; 0; 0; 0;
  0; 0; 0; 0; 0; 0; 0; 30; 1; 0; 0; 0; 0; 0; 0; 0; 0; 0; 0; 8; 0; 0; 0; 0; 0; 0; 0; 0; 0; 0; 0; 0; 0; 0; 0; 0; 0; 0;
  255; 255; 0; 0; 0; 0; 255; 255; 255; 255; 15; 0; 0; 0; 255; 255; 255; 127; 255; 255; 255; 255; 255;
  255; 255; 255; 255; 255; 255; 255; 255; 255; 255; 255; 255; 255; 255; 255; 255; 255; 255; 255;
  255; 255; 255;
  255; 0; 0; 0; 0; 0; 0; 0; 0; 0; 0; 0; 0; 0; 0; 0; 0; 0; 0; 0; 0; 0; 0; 0; 0; 255; 255; 255; 255; 255; 255;
  255; 255; 0; 0; 0; 0; 0; 0; 0; 0; 0; 0; 0; 0; 0; 0; 0; 0; 0; 0; 255; 255; 255; 255; 255; 255; 127; 0; 0; 0;
  0; 0; 0; 192; 0; 224; 0; 0; 0; 0; 0; 0; 0; 0; 0; 0; 0; 128; 15; 112; 0; 0; 0; 0; 0; 0; 0; 0; 0; 0; 0; 0; 0; 0;
  255; 0; 255; 255; 127; 0; 3; 0; 0; 0; 0; 0; 0; 0; 0; 0; 0; 0; 0; 6; 0; 0; 0; 0; 0; 0; 0; 0; 0; 0; 0; 0; 0; 0;
  64; 0; 0; 0; 0; 15; 255; 3; 0; 0; 0; 0; 0; 0; 240; 0; 0; 0; 0; 0; 0; 0; 0; 0; 16; 192; 0; 0; 255; 255; 3; 23;
  0; 0; 0; 0; 0; 248; 0; 0; 0; 0; 8; 128; 0; 0; 0; 0; 0; 0; 0; 0; 0; 0; 8; 0; 255; 63; 0; 192; 0; 0; 0; 0; 0; 0;
  0; 0; 0; 0; 0; 0; 0; 0; 0; 240; 0; 0; 128; 3; 0; 0; 0; 0; 0; 0; 0; 128; 2; 0; 0; 192; 0; 0; 67; 0; 0; 0; 0; 0;
  0; 0; 0; 0; 0; 0; 0; 8; 0; 0; 0; 0; 0; 0; 0; 0; 0; 0; 0; 0; 0; 0; 0; 0; 0; 56; 0;
  0; 1; 0; 0; 0; 0; 0; 0; 0; 0; 0; 0; 0; 0; 0; 0; 0; 0; 0; 0; 0; 0; 0; 0; 0; 0; 0; 0; 0; 0; 0; 0; 0; 0; 0; 0; 0; 0; 0;
  0; 0; 0; 0; 0; 0; 0; 0; 0; 0; 0; 0; 0; 0; 0; 0; 0; 0; 0; 0; 0; 0; 0; 0; 0; 128; 0; 0; 0; 0; 0; 2; 0; 0; 0; 0; 0; 0;
  0; 0; 0; 0; 0; 0; 0; 0; 0; 0; 252; 255; 3; 0; 0; 0; 0; 0; 0; 0; 0; 0; 0; 0; 0; 0; 0; 192; 0; 0; 0; 0; 0; 0; 0; 0;
  0; 0; 0; 0; 0; 0; 0; 0; 0; 0; 0; 0; 0; 0; 0; 48; 255; 255; 255; 3; 255; 255; 255; 255; 255; 255; 247;
  255; 127; 15; 0; 0; 0; 0; 0; 0; 0; 0; 0; 0; 0; 0; 0; 0; 0; 0; 0; 128; 254; 255; 0; 252; 1; 0; 0; 248; 1; 0;
  0; 248; 63; 0; 0; 0; 0; 0; 0; 0; 0; 0; 0; 0; 0; 0; 0; 0; 127; 127; 0; 48; 135; 255; 255; 255; 255; 255;
  143; 255; 0; 0; 0; 0; 0; 0; 224; 255; 255; 127; 255; 15; 1; 0; 0; 0; 0; 0; 255; 255; 255; 255; 255; 63;
  0; 0; 0; 0; 0; 0; 0; 0; 0; 0; 0; 0; 0; 0; 0; 0; 0; 0; 0; 0; 0; 0; 0; 0; 0; 0; 0; 0; 255; 255; 255;
  15; 0; 0; 0; 0; 15; 0; 0; 0; 0; 0; 0; 0; 0; 0; 0; 0; 0; 0; 0; 128; 0; 0; 0; 0; 0; 0; 1; 0; 0; 0; 0; 0; 0; 0; 0; 0;
  0; 0; 0; 0; 0; 0; 0; 0; 0; 128; 0; 0; 0; 0; 0; 0; 0; 0; 0; 0; 0; 0; 0; 0; 0; 0; 0; 0; 0; 0; 0; 0; 0; 0; 0; 0; 0; 0;
  128; 255; 0; 0; 128; 255; 0; 0; 0; 0; 128; 255; 0; 0; 0; 0; 0; 0; 0; 0; 0; 248; 0; 0; 192; 143; 0; 0; 0;
  128; 0; 0; 0; 0; 0; 0; 0; 0; 0; 0; 0; 0; 0; 0; 0; 48; 255; 255; 252; 255; 255; 255; 255; 255; 0; 0; 0; 0;
  0; 0; 0; 135; 255; 1; 255; 1; 0; 0; 0; 224; 0; 0; 0; 224; 0; 0; 0; 0; 0; 1; 0; 0; 96; 248; 127; 0; 0; 0; 0;
  0; 0; 0; 0; 254; 0; 0; 0; 255; 0; 0; 0; 255; 0; 0; 0; 30; 0; 254; 0; 0; 0; 0; 0; 0; 0; 0; 0; 0; 0; 0; 0; 0; 0;
  0; 0; 0; 0; 0; 0; 0; 0; 0; 0; 0; 0; 0; 0; 0; 0; 0; 0; 0; 0; 0; 0; 0; 0; 0; 0; 252; 0; 0; 0; 0; 0; 0; 0; 0; 0; 0; 0;
  0; 255; 255; 255; 127; 0; 0; 0; 0; 0; 0; 0; 0; 0; 0; 0; 0; 0; 0; 0;
  0; 0; 0; 0; 224; 127; 0; 0; 0; 192; 255; 255; 3; 0; 0; 0; 0; 0; 0; 0; 0; 0; 0; 0; 0; 0; 0; 0; 0; 0; 0; 0; 0; 0;
  0; 0; 0; 0; 0; 0; 0; 192; 63; 252; 255; 63; 0; 0; 128; 3; 0; 0; 0; 0; 0; 0; 254; 3; 32; 0; 0; 0; 0; 0; 0; 0;
  0; 0; 0; 0; 0; 24; 0; 15; 0; 0; 0; 0; 0; 56; 0; 0; 0; 0; 0; 0; 0; 0; 0; 225; 63; 0; 232; 254; 255; 31; 0; 0;
  0; 0; 0; 0; 0; 96; 63; 0; 0; 0; 0; 0; 0; 0; 0; 0; 0; 0; 0; 0; 2; 0; 0; 0; 0; 0; 0; 0; 6; 0; 0; 0; 0; 0; 0; 0; 0; 0;
  24; 0; 32; 0; 0; 192; 31; 31; 0; 0; 0; 0; 0; 0; 0; 0; 0; 0; 0; 0; 0; 0; 0; 0; 0; 0; 0; 0; 0; 0; 0; 0; 0; 68;
  248; 0; 104; 0; 0; 0; 0; 0; 0; 0; 0; 0; 0; 0; 0; 76; 0; 0; 0; 0; 0; 0; 0; 0; 0; 0; 0; 0; 0; 0; 0; 0; 0; 0; 0; 0;
  0; 0; 0; 0; 0; 0; 0; 0; 0; 0; 128; 255; 255; 255; 0; 0; 0; 0; 0; 0; 0; 0; 0; 0; 0; 0; 128; 14; 0; 0; 0; 255;
  31; 0; 0; 0; 0; 0; 0; 0; 0; 192; 0; 0; 0; 0; 0; 0; 0; 0;
  0; 0; 0; 0; 0; 0; 8; 0; 252; 0; 0; 0; 0; 0; 0; 0; 0; 0; 0; 0; 0; 0; 0; 0; 0; 0; 0; 0; 0; 0; 0; 0; 0; 0; 0; 0; 0; 0;
  0; 0; 14; 0; 0; 0; 0; 0; 0; 0; 0; 0; 0; 0; 0; 0; 0; 0; 0; 0; 0; 0; 0; 0; 252; 7; 0; 0; 0; 0; 0; 0; 0; 0; 0; 0; 0;
  0; 0; 0; 0; 0; 0; 0; 0; 0; 0; 0; 0; 0; 0; 0; 0; 0; 0; 5; 0; 0; 0; 0; 0; 0; 0; 0; 0; 24; 128; 255; 0; 0; 0; 0; 0;
  0; 0; 0; 0; 0; 223; 7; 0; 0; 0; 0; 0; 0; 0; 0; 0; 0; 0; 0; 0; 0; 0; 0; 0; 0; 128; 62; 0; 0; 252; 255; 31; 3; 0;
  0; 0; 0; 0; 0; 0; 0; 0; 0; 0; 0; 0; 0; 0; 0; 0; 0; 0; 0; 0; 0; 0; 0; 0; 52; 0; 0; 0; 0; 0; 0; 0; 0; 0; 128; 0; 0;
  0; 0; 0; 0; 0; 0; 0; 0; 0; 0; 0; 0; 0; 0; 0; 0; 0; 0; 0; 0; 0; 0; 0; 0; 0; 0; 0; 0; 0; 0; 0; 0; 0; 0; 0; 0; 0; 0; 0;
  0; 0; 128; 1; 0; 0; 0; 0; 0; 0; 0; 0; 0; 0; 0; 0; 0; 0; 0; 0; 0; 0; 0; 0; 0; 0; 0; 0; 255; 255; 255; 255; 255;
  255; 3;
  128; 0; 0; 0; 0; 0; 0; 0; 0; 0; 0; 0; 0; 0; 0; 31; 0; 0; 0; 0; 0; 0; 0; 0; 0; 0; 0; 0; 0; 0; 0; 0; 0; 0; 0; 0; 0;
  0; 0; 255; 1; 0; 0; 0; 0; 0; 0; 0; 0; 0; 0; 0; 0; 0; 0; 0; 0; 0; 0; 0; 0; 0; 0; 0; 0; 0; 0; 0; 0; 0; 0; 0; 0; 0; 0;
  0; 0; 0; 192; 0; 0; 0; 0; 0; 0; 0; 0; 0; 0; 0; 0; 0; 0; 0; 0; 63; 0; 0; 0; 0; 0; 0; 0; 255; 255; 48; 0; 0; 248;
  3; 0; 0; 0; 0; 0; 0; 0; 0; 0; 0; 0; 0; 0; 0; 0; 0; 0; 0; 0; 0; 0; 0; 0; 0; 0; 0; 0; 0; 0; 0; 0; 0; 0; 0; 0; 255;
  255; 255; 7; 0; 0; 0; 0; 0; 0; 0; 0; 0; 0; 0; 0; 0; 0; 0; 0; 0; 0; 0; 0; 0; 0; 0; 0; 0; 0; 0; 0; 0; 0; 0; 0; 0; 0;
  0; 0; 0; 0; 0; 0; 4; 0; 0; 0; 0; 0; 0; 0; 0; 0; 0; 0; 0; 0; 0; 0; 0; 0; 0; 0; 0; 0; 0; 176; 15; 0; 0; 0; 0; 0; 0;
  0; 0; 0; 0; 0; 255; 255; 255; 255; 255; 255; 255; 255; 255; 255; 255; 255; 255; 255; 255; 255; 255;
  255; 255; 255; 255; 255; 255; 255; 255; 255; 255; 255; 255; 255; 63;
  0; 255; 255; 255; 255; 127; 254; 255; 255; 255; 255; 255; 255; 255; 255; 255; 255; 255; 255; 255;
  255; 255; 255; 255; 255; 255; 255; 255; 255; 255; 1; 0; 0; 255; 255; 255; 255; 255; 255; 255; 255;
  63; 0; 0; 0; 0; 0; 0; 0; 0; 0; 0; 0; 0; 0; 0; 0; 0; 0; 0; 0; 255; 255; 15; 0; 255; 255; 255; 255; 255; 255;
  255; 255; 255; 255; 127; 0; 255; 255; 255; 1; 0; 0; 0; 0; 0; 0; 0; 0; 0; 0; 0; 0; 0; 0; 0; 0; 0; 0; 0; 0; 0;
  0; 0; 0; 0; 0; 0; 0; 0; 0; 0; 0; 0; 0; 0; 0; 0; 0; 0; 0; 2; 0; 0; 8; 0; 0; 0; 8; 0; 0; 32; 0; 0; 0; 32; 0; 0; 128;
  0; 0; 0; 128; 0; 0; 0; 2; 0; 0; 0; 2; 0; 0; 8; 0; 0; 0; 0; 0; 0; 0; 255; 255; 255; 255; 255; 255; 255; 255;
  255; 255; 255; 255; 255; 255; 255; 255; 255; 15; 0; 248; 254; 255; 0; 0; 0; 0; 0; 0; 0; 0; 0; 0; 0; 0;
  0; 0; 0; 0; 127; 0; 0; 128; 0; 0; 0; 0; 0; 0; 0; 0; 0; 0; 0; 0; 0; 0; 0; 0; 0; 0; 0; 0; 0; 0; 0; 0; 0; 0; 0; 0; 0;
  0; 0; 0; 0; 0; 0; 0; 0; 0; 0; 0; 0; 0; 0; 0; 0; 0; 0; 0; 0; 0; 0; 240; 0;
  128; 0; 0; 0; 0; 0; 0; 0; 0; 0; 0; 0; 0; 0; 0; 0; 0; 0; 0; 0; 0; 0; 0; 0; 0; 128; 255; 127; 0; 0; 0; 0; 0; 0; 0;
  0; 0; 0; 0; 0; 0; 112; 7; 0; 192; 0; 0; 0; 0; 0; 0; 0; 0; 0; 0; 0; 0; 0; 0; 0; 0; 0; 0; 0; 0; 0; 0; 0; 0; 0; 0; 0;
  0; 0; 0; 0; 0; 0; 0; 254; 255; 255; 255; 255; 255; 255; 255; 31; 0; 0; 0; 0; 0; 0; 0; 0; 0; 254; 255;
  255; 255; 255; 255; 255; 63; 0; 0; 0; 0; 0; 0; 0; 0; 0; 0; 0; 0; 0; 0; 0; 0; 0; 0; 0; 0; 0; 0; 0; 0; 0; 0; 0;
  0; 0; 0; 0; 0; 0; 0; 0; 0; 0; 0; 0; 0; 0; 0; 0; 0; 0; 0; 0; 0; 0; 0; 0; 0; 0; 0; 3; 0; 255; 255; 255; 255; 255;
  15; 255; 255; 255; 255; 255; 255; 255; 255; 255; 255; 255; 255; 15; 0; 255; 127; 254; 255; 254;
  255; 254; 255; 255; 255; 63; 0; 255; 31; 255; 255; 255; 255; 0; 0; 0; 252; 0; 0; 0; 28; 0; 0; 0; 252;
  255; 255; 255; 31; 0; 0; 0; 0; 0; 0; 192; 255; 255; 255; 7; 0; 255; 255; 255; 255; 255; 15; 255; 1; 3;
  0; 63; 0; 0; 0; 0; 0; 0; 0; 0; 0; 0; 0; 0; 0; 0; 0; 0; 0; 0;
  0; 255; 255; 255; 255; 255; 255; 255; 255; 255; 255; 255; 255; 255; 255; 255; 255; 255; 255; 255;
  255; 255; 255; 255; 255; 255; 255; 63; 0; 255; 31; 255; 7; 255; 255; 255; 255; 255; 255; 255; 255;
  255; 255; 255; 255; 255; 255; 15; 0; 255; 255; 255; 255; 255; 255; 255; 255; 255; 255; 255; 1;
  255; 15; 0; 0; 255; 15; 255; 255; 255; 255; 255; 255; 255; 0; 255; 3; 255; 255; 255; 255; 255; 0;
  255; 255; 255; 63; 0; 0; 0; 0; 0; 0; 0; 0; 0; 0; 255; 239; 255; 255; 255; 255; 255; 255; 255; 255;
  255; 255; 255; 255; 123; 252; 255; 255; 255; 255; 231; 199; 255; 255; 255; 231; 255; 255; 255;
  255; 255; 255; 255; 255; 255; 255; 255; 255; 255; 255; 255; 255; 15; 0; 255; 63; 15; 7; 7; 0; 63; 0;
  0; 0; 0; 0; 0; 0; 0; 0; 0; 0; 0; 0
].

Definition casemap_tab : list Z := [
  	7; 8; 9; 10; 11; 12; 6; 6; 6; 6; 6; 6; 6; 6; 6; 6;
  	13; 6; 6; 14; 6; 6; 6; 6; 6; 6; 6; 6; 15; 16; 17; 18;
  	6; 19; 6; 6; 6; 6; 6; 6; 6; 6; 6; 6; 20; 21; 6; 6;
  	6; 6; 6; 6; 6; 6; 6; 6; 6; 6; 6; 6; 6; 6; 6; 6;
  	6; 6; 6; 6; 6; 6; 6; 6; 6; 6; 6; 6; 6; 6; 6; 6;
  	6; 6; 6; 6; 6; 6; 6; 6; 6; 6; 6; 6; 6; 6; 6; 6;
  	6; 6; 6; 6; 6; 6; 6; 6; 6; 6; 6; 6; 6; 6; 6; 6;
  	6; 6; 6; 6; 6; 6; 6; 6; 6; 6; 6; 6; 6; 6; 6; 6;
  	6; 6; 6; 6; 6; 6; 6; 6; 6; 6; 6; 6; 6; 6; 6; 6;
  	6; 6; 6; 6; 6; 6; 6; 6; 6; 6; 6; 6; 6; 6; 6; 6;
  	6; 6; 6; 6; 6; 6; 22; 23; 6; 6; 6; 24; 6; 6; 6; 6;
  	6; 6; 6; 6; 6; 6; 6; 6; 6; 6; 6; 6; 6; 6; 6; 6;
  	6; 6; 6; 6; 6; 6; 6; 6; 6; 6; 6; 6; 6; 6; 6; 6;
  	6; 6; 6; 6; 6; 6; 6; 6; 6; 6; 6; 6; 6; 6; 6; 6;
  	6; 6; 6; 6; 6; 6; 6; 6; 6; 6; 6; 6; 6; 6; 6; 6;
  	6; 6; 6; 6; 6; 6; 6; 6; 6; 6; 6; 6; 6; 6; 6; 25;
  	6; 6; 6; 6; 26; 6; 6; 6; 6; 6; 6; 6; 27; 6; 6; 6;
  	6; 6; 6; 6; 6; 6; 6; 6; 28; 6; 6; 6; 6; 6; 6; 6;
  	6; 6; 6; 6; 6; 6; 6; 6; 6; 6; 6; 6; 6; 6; 6; 6;
  	6; 6; 6; 6; 6; 6; 6; 6; 6; 6; 6; 6; 6; 6; 6; 6;
  	6; 6; 6; 6; 6; 6; 6; 6; 6; 6; 6; 6; 6; 6; 6; 6;
  	6; 6; 6; 6; 6; 6; 6; 6; 6; 6; 6; 6; 6; 6; 6; 6;
  	6; 6; 6; 6; 6; 6; 6; 6; 6; 6; 6; 6; 6; 6; 29; 6;
  	6; 6; 6; 6; 6; 6; 6; 6; 6; 6; 6; 6; 6; 6; 6; 6;
  	6; 6; 6; 6; 6; 6; 6; 6; 6; 6; 6; 6; 6; 6; 6; 6;
  	6; 6; 6; 6; 6; 6; 6; 6; 6; 6; 6; 6; 6; 6; 6; 6;
  	6; 6; 6; 6; 6; 6; 6; 6; 6; 6; 6; 6; 6; 6; 6; 6;
  	6; 6; 6; 6; 6; 6; 6; 6; 6; 6; 6; 6; 6; 6; 6; 6;
  	6; 6; 6; 6; 6; 6; 6; 6; 6; 6; 6; 6; 6; 6; 6; 6;
  	6; 6; 6; 6; 6; 6; 6; 6; 6; 6; 6; 6; 6; 6; 6; 6;
  	6; 6; 6; 6; 6; 6; 6; 6; 6; 30; 6; 6; 6; 6; 6; 6;
  	6; 6; 6; 6; 6; 6; 6; 6; 6; 6; 6; 6; 6; 6; 6; 6;
  	0; 0; 0; 0; 0; 0; 0; 0; 0; 0; 0; 0; 0; 0; 0; 0;
  	0; 0; 0; 0; 0; 0; 0; 0; 0; 0; 0; 0; 0; 0; 0; 0;
  	0; 0; 0; 0; 0; 0; 0; 0; 0; 0; 0; 0; 0; 0; 0; 0;
  	0; 0; 0; 0; 0; 0; 0; 0; 0; 0; 0; 0; 0; 0; 0; 0;
  	0; 0; 0; 0; 0; 0; 0; 0; 0; 0; 0; 0; 0; 0; 0; 0;
  	0; 0; 0; 0; 0; 0; 0; 0; 0; 0; 0; 0; 0; 0; 0; 0;
  	0; 0; 0; 0; 0; 0; 0; 0; 0; 0; 0; 0; 0; 0; 0; 36;
  	43; 43; 43; 43; 43; 43; 43; 43; 1; 0; 84; 86; 86; 86; 86; 86;
  	86; 86; 86; 0; 0; 0; 0; 0; 0; 0; 0; 0; 0; 0; 0; 0;
  	0; 0; 0; 0; 0; 0; 24; 0; 0; 0; 43; 43; 43; 43; 43; 43;
  	43; 7; 43; 43; 91; 86; 86; 86; 86; 86; 86; 86; 74; 86; 86; 5;
  	49; 80; 49; 80; 49; 80; 49; 80; 49; 80; 49; 80; 49; 80; 49; 80;
  	36; 80; 121; 49; 80; 49; 80; 49; 56; 80; 49; 80; 49; 80; 49; 80;
  	49; 80; 49; 80; 49; 80; 49; 80; 78; 49; 2; 78; 13; 13; 78; 3;
  	78; 0; 36; 110; 0; 78; 49; 38; 110; 81; 78; 36; 80; 78; 57; 20;
  	129; 27; 29; 29; 83; 49; 80; 49; 80; 13; 49; 80; 49; 80; 49; 80;
  	27; 83; 36; 80; 49; 2; 92; 123; 92; 123; 92; 123; 92; 123; 92; 123;
  	20; 121; 92; 123; 92; 123; 92; 45; 43; 73; 3; 72; 3; 120; 92; 123;
  	20; 0; 150; 10; 1; 43; 40; 6; 6; 0; 42; 6; 42; 42; 43; 7;
  	187; 181; 43; 30; 0; 43; 7; 43; 43; 43; 1; 43; 43; 43; 43; 43;
  	43; 43; 43; 43; 43; 43; 43; 43; 43; 43; 43; 43; 43; 43; 43; 43;
  	43; 43; 43; 43; 43; 43; 43; 43; 43; 43; 43; 1; 43; 43; 43; 43;
  	43; 43; 43; 43; 43; 43; 43; 43; 43; 43; 43; 43; 43; 43; 43; 43;
  	43; 43; 43; 42; 43; 43; 43; 43; 43; 43; 43; 43; 43; 43; 43; 43;
  	43; 205; 70; 205; 43; 0; 37; 43; 7; 1; 6; 1; 85; 86; 86; 86;
  	86; 86; 85; 86; 86; 2; 36; 129; 129; 129; 129; 129; 21; 129; 129; 129;
  	0; 0; 43; 0; 178; 209; 178; 209; 178; 209; 178; 209; 0; 0; 205; 204;
  	1; 0; 215; 215; 215; 215; 215; 131; 129; 129; 129; 129; 129; 129; 129; 129;
  	129; 129; 172; 172; 172; 172; 172; 172; 172; 172; 172; 172; 28; 0; 0; 0;
  	0; 0; 49; 80; 49; 80; 49; 80; 49; 80; 49; 80; 49; 2; 0; 0;
  	49; 80; 49; 80; 49; 80; 49; 80; 49; 80; 49; 80; 49; 80; 49; 80;
  	49; 80; 78; 49; 80; 49; 80; 78; 49; 80; 49; 80; 49; 80; 49; 80;
  	49; 80; 49; 80; 49; 80; 49; 2; 135; 166; 135; 166; 135; 166; 135; 166;
  	135; 166; 135; 166; 135; 166; 135; 166; 42; 43; 43; 43; 43; 43; 43; 43;
  	43; 43; 43; 43; 43; 0; 0; 0; 84; 86; 86; 86; 86; 86; 86; 86;
  	86; 86; 86; 86; 86; 0; 0; 0; 0; 0; 0; 0; 0; 0; 0; 0;
  	0; 0; 0; 0; 0; 0; 0; 0; 0; 0; 0; 0; 0; 0; 0; 0;
  	0; 0; 0; 0; 0; 0; 0; 0; 0; 0; 0; 0; 0; 0; 0; 0;
  	0; 0; 0; 0; 0; 0; 0; 0; 0; 0; 0; 0; 0; 0; 0; 0;
  	0; 0; 0; 0; 0; 0; 0; 0; 0; 0; 0; 0; 0; 0; 0; 0;
  	0; 0; 0; 0; 0; 0; 0; 0; 0; 0; 0; 0; 0; 0; 0; 0;
  	0; 0; 0; 84; 86; 86; 86; 86; 86; 86; 86; 86; 86; 86; 86; 86;
  	12; 0; 12; 42; 43; 43; 43; 43; 43; 43; 43; 43; 43; 43; 43; 43;
  	43; 7; 42; 1; 0; 0; 0; 0; 0; 0; 0; 0; 0; 0; 0; 0;
  	0; 0; 0; 0; 0; 0; 0; 0; 0; 0; 0; 0; 0; 0; 0; 0;
  	0; 0; 0; 0; 0; 0; 0; 0; 0; 0; 0; 0; 0; 0; 0; 0;
  	0; 0; 0; 0; 0; 0; 0; 0; 0; 42; 43; 43; 43; 43; 43; 43;
  	43; 43; 43; 43; 43; 43; 43; 43; 43; 43; 43; 43; 43; 43; 43; 43;
  	43; 43; 43; 43; 86; 86; 108; 129; 21; 0; 43; 43; 43; 43; 43; 43;
  	43; 43; 43; 43; 43; 43; 43; 43; 43; 43; 43; 43; 43; 43; 43; 43;
  	43; 43; 43; 43; 43; 43; 43; 43; 43; 43; 43; 43; 43; 43; 43; 43;
  	43; 43; 43; 43; 7; 108; 3; 65; 43; 43; 86; 86; 86; 86; 86; 86;
  	86; 86; 86; 86; 86; 86; 86; 86; 44; 86; 43; 43; 43; 43; 43; 43;
  	43; 43; 43; 43; 43; 43; 43; 43; 43; 43; 43; 43; 43; 43; 43; 1;
  	0; 0; 0; 0; 0; 0; 0; 0; 0; 0; 0; 0; 0; 0; 0; 0;
  	0; 0; 0; 0; 0; 0; 0; 0; 0; 0; 0; 0; 0; 0; 0; 0;
  	0; 0; 0; 0; 0; 0; 0; 0; 12; 108; 0; 0; 0; 0; 0; 6;
  	0; 0; 0; 0; 0; 0; 0; 0; 0; 0; 0; 0; 0; 0; 0; 0;
  	0; 0; 0; 0; 0; 0; 0; 0; 0; 0; 0; 0; 0; 0; 0; 0;
  	0; 0; 0; 0; 0; 0; 6; 37; 6; 37; 6; 37; 6; 37; 6; 37;
  	6; 37; 6; 37; 6; 37; 6; 37; 6; 37; 6; 37; 6; 37; 6; 37;
  	6; 37; 6; 37; 6; 37; 6; 37; 6; 37; 6; 37; 6; 37; 6; 37;
  	6; 37; 6; 37; 6; 37; 6; 37; 86; 122; 158; 38; 6; 37; 6; 37;
  	6; 37; 6; 37; 6; 37; 6; 37; 6; 37; 6; 37; 6; 37; 6; 37;
  	6; 37; 6; 37; 6; 37; 6; 37; 6; 37; 6; 1; 43; 43; 79; 86;
  	86; 44; 43; 127; 86; 86; 57; 43; 43; 85; 86; 86; 43; 43; 79; 86;
  	86; 44; 43; 127; 86; 86; 129; 55; 117; 91; 123; 92; 43; 43; 79; 86;
  	86; 2; 172; 4; 0; 0; 57; 43; 43; 85; 86; 86; 43; 43; 79; 86;
  	86; 44; 43; 43; 86; 86; 50; 19; 129; 87; 0; 111; 129; 126; 201; 215;
  	126; 45; 129; 129; 14; 126; 57; 127; 111; 87; 0; 129; 129; 126; 21; 0;
  	126; 3; 43; 43; 43; 43; 43; 43; 43; 43; 43; 43; 43; 43; 7; 43;
  	36; 43; 151; 43; 43; 43; 43; 43; 43; 43; 43; 43; 42; 43; 43; 43;
  	43; 43; 86; 86; 86; 86; 86; 128; 129; 129; 129; 129; 57; 187; 42; 43;
  	43; 43; 43; 43; 43; 43; 43; 43; 43; 43; 43; 43; 43; 43; 43; 43;
  	43; 43; 43; 43; 43; 43; 43; 43; 43; 43; 43; 43; 43; 43; 43; 43;
  	43; 43; 43; 43; 43; 43; 43; 1; 129; 129; 129; 129; 129; 129; 129; 129;
  	129; 129; 129; 129; 129; 129; 129; 201; 172; 172; 172; 172; 172; 172; 172; 172;
  	172; 172; 172; 172; 172; 172; 172; 208; 13; 0; 78; 49; 2; 180; 193; 193;
  	215; 215; 36; 80; 49; 80; 49; 80; 49; 80; 49; 80; 49; 80; 49; 80;
  	49; 80; 49; 80; 49; 80; 49; 80; 49; 80; 49; 80; 49; 80; 49; 80;
  	49; 80; 49; 80; 215; 215; 83; 193; 71; 212; 215; 215; 215; 5; 43; 43;
  	43; 43; 43; 43; 43; 43; 43; 43; 43; 43; 7; 1; 0; 1; 0; 0;
  	0; 0; 0; 0; 0; 0; 0; 0; 0; 0; 0; 0; 0; 0; 0; 0;
  	0; 0; 0; 0; 0; 0; 0; 0; 0; 0; 0; 0; 0; 0; 0; 0;
  	0; 0; 0; 0; 0; 0; 0; 0; 0; 0; 0; 0; 0; 0; 0; 0;
  	0; 0; 0; 0; 0; 0; 0; 0; 0; 0; 0; 0; 0; 0; 0; 0;
  	0; 0; 0; 0; 0; 0; 0; 0; 0; 0; 0; 0; 0; 0; 0; 0;
  	0; 0; 0; 0; 0; 0; 0; 0; 0; 78; 49; 80; 49; 80; 49; 80;
  	49; 80; 49; 80; 49; 80; 49; 80; 13; 0; 0; 0; 0; 0; 36; 80;
  	49; 80; 49; 80; 49; 80; 49; 80; 0; 0; 0; 0; 0; 0; 0; 0;
  	0; 0; 0; 0; 0; 0; 0; 0; 0; 0; 0; 0; 0; 0; 0; 0;
  	0; 0; 0; 0; 0; 0; 0; 0; 0; 0; 43; 43; 43; 43; 43; 43;
  	43; 43; 43; 43; 43; 121; 92; 123; 92; 123; 79; 123; 92; 123; 92; 123;
  	92; 123; 92; 123; 92; 123; 92; 123; 92; 123; 92; 123; 92; 123; 92; 45;
  	43; 43; 121; 20; 92; 123; 92; 45; 121; 42; 92; 39; 92; 123; 92; 123;
  	92; 123; 164; 0; 10; 180; 92; 123; 92; 123; 79; 3; 42; 43; 43; 43;
  	43; 43; 43; 43; 43; 43; 43; 43; 43; 43; 43; 43; 43; 43; 43; 1;
  	0; 0; 0; 0; 0; 0; 0; 0; 0; 0; 0; 0; 0; 0; 0; 0;
  	0; 0; 0; 0; 0; 0; 0; 0; 0; 0; 0; 72; 0; 0; 0; 0;
  	0; 0; 0; 0; 0; 42; 43; 43; 43; 43; 43; 43; 43; 43; 43; 43;
  	43; 43; 43; 43; 43; 43; 43; 43; 43; 43; 43; 43; 43; 43; 43; 43;
  	0; 0; 0; 0; 0; 0; 0; 0; 0; 0; 0; 0; 0; 0; 0; 0;
  	0; 0; 0; 0; 0; 0; 0; 0; 0; 0; 0; 0; 0; 0; 0; 0;
  	0; 43; 43; 43; 43; 43; 43; 43; 43; 7; 0; 72; 86; 86; 86; 86;
  	86; 86; 86; 86; 2; 0; 0; 0; 0; 0; 0; 0; 0; 0; 0; 0;
  	0; 0; 0; 0; 0; 0; 0; 0; 0; 0; 0; 0; 0; 0; 0; 0;
  	0; 0; 0; 0; 0; 0; 0; 0; 0; 0; 0; 0; 0; 0; 0; 0;
  	0; 0; 0; 0; 0; 0; 0; 0; 0; 0; 0; 0; 43; 43; 43; 43;
  	43; 43; 43; 43; 43; 43; 43; 43; 43; 85; 86; 86; 86; 86; 86; 86;
  	86; 86; 86; 86; 86; 86; 14; 0; 0; 0; 0; 0; 0; 0; 0; 0;
  	0; 0; 0; 0; 0; 0; 0; 0; 0; 0; 0; 0; 0; 0; 0; 0;
  	0; 0; 0; 0; 0; 0; 36; 43; 43; 43; 43; 43; 43; 43; 43; 43;
  	43; 43; 7; 0; 86; 86; 86; 86; 86; 86; 86; 86; 86; 86; 86; 86;
  	0; 0; 0; 0; 0; 0; 0; 0; 0; 0; 0; 0; 0; 0; 0; 0;
  	0; 0; 0; 0; 0; 0; 0; 0; 0; 0; 0; 0; 0; 0; 0; 0;
  	0; 0; 0; 0; 0; 0; 0; 0; 0; 0; 0; 0; 36; 43; 43; 43;
  	43; 43; 43; 43; 43; 43; 43; 43; 43; 43; 43; 43; 43; 7; 0; 0;
  	0; 0; 86; 86; 86; 86; 86; 86; 86; 86; 86; 86; 86; 86; 86; 86;
  	86; 86; 86; 0; 0; 0; 0; 0; 0; 0; 0; 0; 0; 0; 0; 0;
  	0; 0; 0; 0; 0; 0; 0; 0; 0; 0; 0; 0; 0; 0; 0; 0;
  	0; 0; 0; 0; 0; 0; 0; 0; 0; 0; 0; 0; 0; 0; 0; 0;
  	0; 0; 0; 0; 0; 0; 0; 0; 0; 0; 0; 0; 0; 42; 43; 43;
  	43; 43; 43; 43; 43; 43; 43; 43; 86; 86; 86; 86; 86; 86; 86; 86;
  	86; 86; 14; 0; 0; 0; 0; 0; 0; 0; 0; 0; 0; 0; 0; 0;
  	0; 0; 0; 0; 0; 0; 0; 0; 0; 0; 0; 0; 0; 0; 0; 0;
  	0; 0; 0; 42; 43; 43; 43; 43; 43; 43; 43; 43; 43; 43; 86; 86;
  	86; 86; 86; 86; 86; 86; 86; 86; 14; 0; 0; 0; 0; 0; 0; 0;
  	0; 0; 0; 0; 0; 0; 0; 0; 0; 0; 0; 0; 0; 0; 0; 0;
  	0; 0; 0; 0; 0; 0; 0; 0; 0; 0; 0; 0; 0; 0; 0; 0;
  	0; 0; 0; 0; 43; 43; 43; 43; 43; 43; 43; 43; 43; 43; 43; 85;
  	86; 86; 86; 86; 86; 86; 86; 86; 86; 86; 14; 0; 0; 0; 0; 0;
  	0; 0; 0; 0; 0; 0; 0; 0; 0; 0; 0; 0; 0; 0; 0; 0;
  	0; 0; 0; 0; 0; 0; 0; 0; 0; 0; 0; 0; 0; 0; 0; 0;
  	0; 0; 0; 0; 0; 0; 0; 0; 0; 0; 0; 0; 0; 0; 0; 0;
  	0; 0; 0; 0; 0; 0; 0; 0; 0; 0
].

Definition casemap_rules : list Z := [
  	0x0; 0x2001; -0x2000; 0x1dbf00; 0x2e700; 0x7900;
  	0x2402; 0x101; -0x100; 0x0; 0x201; -0x200;
  -0xc6ff; -0xe800; -0x78ff; -0x12c00; 0xc300; 0xd201;
  	0xce01; 0xcd01; 0x4f01; 0xca01; 0xcb01; 0xcf01;
  	0x6100; 0xd301; 0xd101; 0xa300; 0xd501; 0x8200;
  	0xd601; 0xda01; 0xd901; 0xdb01; 0x3800; 0x3;
  -0x4f00; -0x60ff; -0x37ff; 0x242802; 0x0; 0x101;
  -0x100; -0xcd00; -0xda00; -0x81ff; 0x2a2b01; -0xa2ff;
  	0x2a2801; 0x2a3f00; -0xc2ff; 0x4501; 0x4701; 0x2a1f00;
  	0x2a1c00; 0x2a1e00; -0xd200; -0xce00; -0xca00; -0xcb00;
  	0xa54f00; 0xa54b00; -0xcf00; 0xa52800; 0xa54400; -0xd100;
  -0xd300; 0x29f700; 0xa54100; 0x29fd00; -0xd500; -0xd600;
  	0x29e700; 0xa54300; 0xa52a00; -0x4500; -0xd900; -0x4700;
  -0xdb00; 0xa51500; 0xa51200; 0x4c2402; 0x0; 0x2001;
  -0x2000; 0x101; -0x100; 0x5400; 0x7401; 0x2601;
  	0x2501; 0x4001; 0x3f01; -0x2600; -0x2500; -0x1f00;
  -0x4000; -0x3f00; 0x801; -0x3e00; -0x3900; -0x2f00;
  -0x3600; -0x800; -0x5600; -0x5000; 0x700; -0x7400;
  -0x3bff; -0x6000; -0x6ff; 0x701a02; 0x101; -0x100;
  	0x2001; -0x2000; 0x5001; 0xf01; -0xf00; 0x0;
  	0x3001; -0x3000; 0x101; -0x100; 0x0; 0xbc000;
  	0x1c6001; 0x0; 0x97d001; 0x801; -0x800; 0x8a0502;
  	0x0; -0xbbfff; -0x186200; 0x89c200; -0x182500; -0x186e00;
  -0x186d00; -0x186400; -0x186300; -0x185c00; 0x0; 0x8a3800;
  	0x8a0400; 0xee600; 0x101; -0x100; 0x0; -0x3b00;
  -0x1dbeff; 0x8f1d02; 0x800; -0x7ff; 0x0; 0x5600;
  -0x55ff; 0x4a00; 0x6400; 0x8000; 0x7000; 0x7e00;
  	0x900; -0x49ff; -0x8ff; -0x1c2500; -0x63ff; -0x6fff;
  -0x7fff; -0x7dff; 0xac0502; 0x0; 0x1001; -0x1000;
  	0x1c01; 0x101; -0x1d5cff; -0x20beff; -0x2045ff; -0x1c00;
  	0xb10b02; 0x101; -0x100; 0x3001; -0x3000; 0x0;
  -0x29f6ff; -0xee5ff; -0x29e6ff; -0x2a2b00; -0x2a2800; -0x2a1bff;
  -0x29fcff; -0x2a1eff; -0x2a1dff; -0x2a3eff; 0x0; -0x1c6000;
  	0x0; 0x101; -0x100; 0xbc0c02; 0x0; 0x101;
  -0x100; -0xa543ff; 0x3a001; -0x8a03ff; -0xa527ff; 0x3000;
  -0xa54eff; -0xa54aff; -0xa540ff; -0xa511ff; -0xa529ff; -0xa514ff;
  -0x2fff; -0xa542ff; -0x8a37ff; 0x0; -0x97d000; -0x3a000;
  	0x0; 0x2001; -0x2000; 0x0; 0x2801; -0x2800;
  	0x0; 0x4001; -0x4000; 0x0; 0x2001; -0x2000;
  	0x0; 0x2001; -0x2000; 0x0; 0x2201; -0x2200
].

Definition rulebases : list Z := [
  	0; 6; 39; 81; 111; 119; 0; 0; 0; 0; 0; 0; 0; 0; 0; 0;
  	124; 0; 0; 127; 0; 0; 0; 0; 0; 0; 0; 0; 131; 142; 146; 151;
  	0; 170; 0; 0; 0; 0; 0; 0; 0; 0; 0; 0; 180; 196; 0; 0;
  	0; 0; 0; 0; 0; 0; 0; 0; 0; 0; 0; 0; 0; 0; 0; 0;
  	0; 0; 0; 0; 0; 0; 0; 0; 0; 0; 0; 0; 0; 0; 0; 0;
  	0; 0; 0; 0; 0; 0; 0; 0; 0; 0; 0; 0; 0; 0; 0; 0;
  	0; 0; 0; 0; 0; 0; 0; 0; 0; 0; 0; 0; 0; 0; 0; 0;
  	0; 0; 0; 0; 0; 0; 0; 0; 0; 0; 0; 0; 0; 0; 0; 0;
  	0; 0; 0; 0; 0; 0; 0; 0; 0; 0; 0; 0; 0; 0; 0; 0;
  	0; 0; 0; 0; 0; 0; 0; 0; 0; 0; 0; 0; 0; 0; 0; 0;
  	0; 0; 0; 0; 0; 0; 198; 201; 0; 0; 0; 219; 0; 0; 0; 0;
  	0; 0; 0; 0; 0; 0; 0; 0; 0; 0; 0; 0; 0; 0; 0; 0;
  	0; 0; 0; 0; 0; 0; 0; 0; 0; 0; 0; 0; 0; 0; 0; 0;
  	0; 0; 0; 0; 0; 0; 0; 0; 0; 0; 0; 0; 0; 0; 0; 0;
  	0; 0; 0; 0; 0; 0; 0; 0; 0; 0; 0; 0; 0; 0; 0; 0;
  	0; 0; 0; 0; 0; 0; 0; 0; 0; 0; 0; 0; 0; 0; 0; 222;
  	0; 0; 0; 0; 225; 0; 0; 0; 0; 0; 0; 0; 228; 0; 0; 0;
  	0; 0; 0; 0; 0; 0; 0; 0; 231; 0; 0; 0; 0; 0; 0; 0;
  	0; 0; 0; 0; 0; 0; 0; 0; 0; 0; 0; 0; 0; 0; 0; 0;
  	0; 0; 0; 0; 0; 0; 0; 0; 0; 0; 0; 0; 0; 0; 0; 0;
  	0; 0; 0; 0; 0; 0; 0; 0; 0; 0; 0; 0; 0; 0; 0; 0;
  	0; 0; 0; 0; 0; 0; 0; 0; 0; 0; 0; 0; 0; 0; 0; 0;
  	0; 0; 0; 0; 0; 0; 0; 0; 0; 0; 0; 0; 0; 0; 234; 0;
  	0; 0; 0; 0; 0; 0; 0; 0; 0; 0; 0; 0; 0; 0; 0; 0;
  	0; 0; 0; 0; 0; 0; 0; 0; 0; 0; 0; 0; 0; 0; 0; 0;
  	0; 0; 0; 0; 0; 0; 0; 0; 0; 0; 0; 0; 0; 0; 0; 0;
  	0; 0; 0; 0; 0; 0; 0; 0; 0; 0; 0; 0; 0; 0; 0; 0;
  	0; 0; 0; 0; 0; 0; 0; 0; 0; 0; 0; 0; 0; 0; 0; 0;
  	0; 0; 0; 0; 0; 0; 0; 0; 0; 0; 0; 0; 0; 0; 0; 0;
  	0; 0; 0; 0; 0; 0; 0; 0; 0; 0; 0; 0; 0; 0; 0; 0;
  	0; 0; 0; 0; 0; 0; 0; 0; 0; 237; 0; 0; 0; 0; 0; 0;
  	0; 0; 0; 0; 0; 0; 0; 0; 0; 0; 0; 0; 0; 0; 0; 0
].

Definition exceptions : list (Z * Z) := [
  (48, 12); (49, 13); (120, 14); (127, 15);
  (128, 16); (129, 17); (134, 18); (137, 19);
  (138, 19); (142, 20); (143, 21); (144, 22);
  (147, 19); (148, 23); (149, 24); (150, 25);
  (151, 26); (154, 27); (156, 25); (157, 28);
  (158, 29); (159, 30); (166, 31); (169, 31);
  (174, 31); (177, 32); (178, 32); (183, 33);
  (191, 34); (197, 35); (200, 35); (203, 35);
  (221, 36); (242, 35); (246, 37); (247, 38);
  (32, 45); (58, 46); (61, 47); (62, 48);
  (63, 49); (64, 49); (67, 50); (68, 51);
  (69, 52); (80, 53); (81, 54); (82, 55);
  (83, 56); (84, 57); (89, 58); (91, 59);
  (92, 60); (97, 61); (99, 62); (101, 63);
  (102, 64); (104, 65); (105, 66); (106, 64);
  (107, 67); (108, 68); (111, 66); (113, 69);
  (114, 70); (117, 71); (125, 72); (130, 73);
  (135, 74); (137, 75); (138, 76); (139, 76);
  (140, 77); (146, 78); (157, 79); (158, 80);
  (69, 87); (123, 29); (124, 29); (125, 29);
  (127, 88); (134, 89); (136, 90); (137, 90);
  (138, 90); (140, 91); (142, 92); (143, 92);
  (172, 93); (173, 94); (174, 94); (175, 94);
  (194, 95); (204, 96); (205, 97); (206, 97);
  (207, 98); (208, 99); (209, 100); (213, 101);
  (214, 102); (215, 103); (240, 104); (241, 105);
  (242, 106); (243, 107); (244, 108); (245, 109);
  (249, 110); (253, 45); (254, 45); (255, 45);
  (80, 105); (81, 105); (82, 105); (83, 105);
  (84, 105); (85, 105); (86, 105); (87, 105);
  (88, 105); (89, 105); (90, 105); (91, 105);
  (92, 105); (93, 105); (94, 105); (95, 105);
  (130, 0); (131, 0); (132, 0); (133, 0);
  (134, 0); (135, 0); (136, 0); (137, 0);
  (192, 117); (207, 118); (128, 137); (129, 138);
  (130, 139); (133, 140); (134, 141); (112, 157);
  (113, 157); (118, 158); (119, 158); (120, 159);
  (121, 159); (122, 160); (123, 160); (124, 161);
  (125, 161); (179, 162); (186, 163); (187, 163);
  (188, 164); (190, 165); (195, 162); (204, 164);
  (218, 166); (219, 166); (229, 106); (234, 167);
  (235, 167); (236, 110); (243, 162); (248, 168);
  (249, 168); (250, 169); (251, 169); (252, 164);
  (38, 176); (42, 177); (43, 178); (78, 179);
  (132, 8); (98, 186); (99, 187); (100, 188);
  (101, 189); (102, 190); (109, 191); (110, 192);
  (111, 193); (112, 194); (126, 195); (127, 195);
  (125, 207); (141, 208); (148, 209); (171, 210);
  (172, 211); (173, 212); (176, 213); (177, 214);
  (178, 215); (196, 216); (197, 217); (198, 218)
].
