(* ===== verification/Ctype.v ===== *)
(** * Character classes and case: custom_libc/ctype.c and strings.c

    The C functions return [int]; here each is a [bool] where only its truth is documented, and a number otherwise. *)
From S2P Require Import Prelude Memory CString.

Definition isdigit (c : Z) : bool := (48 <=? c) && (c <=? 57).
Definition islower (c : Z) : bool := (97 <=? c) && (c <=? 122).
Definition isupper (c : Z) : bool := (65 <=? c) && (c <=? 90).
Definition isalpha (c : Z) : bool := isupper c || islower c.
Definition isalnum (c : Z) : bool := isalpha c || isdigit c.
Definition isascii (c : Z) : bool := (0 <=? c) && (c <=? 127).
Definition isblank (c : Z) : bool := (c =? 32) || (c =? 9).
Definition iscntrl (c : Z) : bool := let uc := u32 c in (uc <=? 0x1F) || (uc =? 0x7F).
Definition isgraph (c : Z) : bool := (0x20 <? c) && (c <=? 0x7E).
Definition isprint (c : Z) : bool := (0x20 <=? c) && (c <=? 0x7E).
Definition ispunct (c : Z) : bool := isprint c && negb (c =? 32) && negb (isalnum c).
Definition isspace (c : Z) : bool :=
  (c =? 32) || (c =? 12) || (c =? 10) || (c =? 13) || (c =? 9) || (c =? 11).
Definition isxdigit (c : Z) : bool := isdigit c || ((97 <=? c) && (c <=? 102)) || ((65 <=? c) && (c <=? 70)).

Definition tolower (c : Z) : Z := let uc := u8 c in if (65 <=? uc) && (uc <=? 90) then uc + 32 else c.

(** [c1 = (unsigned char)tolower((unsigned char)*s1)] *)
Definition strcasecmp {M} `{!ByteMemory M} (fuel : nat) (s1 s2 : Z) (m : M) : outcome Z :=
  c_while fuel (λ '(s1, s2),
    a ← load m s1; b ← load m s2;
    if negb (a =? 0) && negb (b =? 0) then
      let c1 := u8 (tolower a) in
      let c2 := u8 (tolower b) in
      if negb (c1 =? c2) then Ok (inr (c1 - c2)) else Ok (inl (s1 + 1, s2 + 1))
    else Ok (inr (a - b))) (s1, s2).

(** ** Reference *)

(** Comparison of two strings letter by letter, whatever their case. *)
Fixpoint casecmp_ref (s1 s2 : list Z) : Z :=
  match s1, s2 with
  | a :: s1, b :: s2 => if tolower a =? tolower b then casecmp_ref s1 s2 else tolower a - tolower b
  | a :: _, [] => a
  | [], b :: _ => - b
  | [], [] => 0
  end.

Lemma tolower_byte c : 0 ≤ c < 256 → 0 ≤ tolower c < 256.
Proof. intros Hc. unfold tolower. rewrite wrap_small by lia. case_if; lia. Qed.

Lemma strcasecmp_wp {M} `{!ByteMemory M} (m : M) s1 : ∀ fuel p q s2,
  cstring m p s1 → cstring m q s2 → (length s1 < fuel)%nat →
  strcasecmp fuel p q m = Ok (casecmp_ref s1 s2).
Proof.
  unfold strcasecmp. induction s1 as [|a s1 IH]; intros fuel p q s2 [Hp Hp'] [Hq Hq'] Hf;
    (destruct fuel as [|fuel]; [lia|]); cbn [c_while]; destruct s2 as [|b s2]; simpl in Hp, Hq, Hf;
    apply bytes_at_cons in Hp as [Hp0 Hp], Hq as [Hq0 Hq]; rewrite (load_Some _ _ _ Hp0), (load_Some _ _ _ Hq0);
    cbn [mbind outcome_bind]; try apply Forall_cons in Hp' as [Ha Hp']; try apply Forall_cons in Hq' as [Hb Hq'].
  - done.
  - replace (b =? 0) with false by lia. simpl. done.
  - replace (a =? 0) with false by lia. simpl. by rewrite Z.sub_0_r.
  - replace (a =? 0) with false by lia. replace (b =? 0) with false by lia. cbn [negb andb].
    pose proof (tolower_byte a ltac:(lia)). pose proof (tolower_byte b ltac:(lia)). rewrite !wrap_small by lia.
    cbn [casecmp_ref]. destruct (tolower a =? tolower b); cbn [negb mbind outcome_bind]; [|done].
    apply IH; [by split|by split|lia].
Qed.
