(* ===== verification/Wchar.v ===== *)
(** * Wide characters and UTF-8: custom_libc/wchar.c and wctype.c

    [wchar_t] and [wint_t] are 32-bit unsigned.  Wide strings and byte strings are
    arrays; a pointer into one is an index. *)
From S2P Require Import Prelude Arrays WideTables.

Definition WEOF : Z := 0xffffffff.
Definition EILSEQ : Z := 84.
Definition SIZE_MAX : Z := 2 ^ 64 - 1.

Definition b2i (b : bool) : outcome Z := Ok (Z.b2z b).

(** ** Wide strings *)
Definition wcslen (fuel : nat) (l : list Z) (s : Z) : outcome Z :=
  a ← c_while fuel (λ a, c ← arr_get l a; Ok (if c =? 0 then inr a else inl (a + 1))) s;
  Ok (a - s).

(** The index found, or nothing for NULL. *)
Definition wcschr (fuel : nat) (l : list Z) (s c : Z) : outcome (option Z) :=
  if c =? 0 then n ← wcslen fuel l s; Ok (Some (s + n))
  else
    s ← c_while fuel (λ s, x ← arr_get l s; Ok (if negb (x =? 0) && negb (x =? c) then inl (s + 1) else inr s)) s;
    x ← arr_get l s;
    Ok (if negb (x =? 0) then Some s else None).

(** ** Character classes *)

(** A bit of a two-level bitmap: [(table[table[wc>>8]*32+((wc&255)>>3)]>>(wc&7))&1] *)
Definition bitmap_bit (table : list Z) (wc : Z) : outcome Z :=
  row ← arr_get table (Z.shiftr wc 8);
  byte ← arr_get table (row * 32 + Z.shiftr (Z.land wc 255) 3);
  Ok (Z.land (Z.shiftr byte (Z.land wc 7)) 1).

Definition spaces : list Z := [
  32; 9; 10; 13; 11; 12; 0x0085;
  0x2000; 0x2001; 0x2002; 0x2003; 0x2004; 0x2005;
  0x2006; 0x2008; 0x2009; 0x200a;
  0x2028; 0x2029; 0x205f; 0x3000; 0].

Definition iswspace (wc : Z) : outcome Z :=
  if wc =? 0 then Ok 0
  else r ← wcschr (length spaces) spaces 0 wc; b2i (bool_decide (is_Some r)).

Definition iswdigit (wc : Z) : outcome Z := b2i (u32 (wc - 48) <? 10).

Definition iswalpha (wc : Z) : outcome Z :=
  if wc <? 0x20000 then bitmap_bit alpha_table wc
  else if wc <? 0x2fffe then Ok 1
  else Ok 0.

Definition iswalnum (wc : Z) : outcome Z :=
  d ← iswdigit wc;
  if negb (d =? 0) then Ok 1 else a ← iswalpha wc; b2i (negb (a =? 0)).

Definition blank_values : list Z := [0x9; 0x20; 0x1680; 0x180E; 0x2000; 0x2006; 0x2008; 0x200A; 0x205F; 0x3000].

Definition iswblank (wc : Z) : outcome Z :=
  r ← c_for 0 (Z.of_nat (length blank_values)) (λ i (_ : ()),
        v ← arr_get blank_values i; Ok (if wc =? v then inr 1 else inl tt)) tt;
  match r with inl _ => Ok 0 | inr x => Ok x end.

Definition iswcntrl (wc : Z) : outcome Z :=
  b2i ((wc <? 32) || (u32 (wc - 0x7f) <? 33) || (u32 (wc - 0x2028) <? 2) || (u32 (wc - 0xfff9) <? 3)).

Definition iswprint (wc : Z) : outcome Z :=
  if wc <? 0xff then b2i (0x21 <=? Z.land (u32 (wc + 1)) 0x7f)
  else if (wc <? 0x2028) || (u32 (wc - 0x202a) <? 0xd800 - 0x202a) || (u32 (wc - 0xe000) <? 0xfff9 - 0xe000) then Ok 1
  else if (0x10ffff - 0xfffc <? u32 (wc - 0xfffc)) || (Z.land wc 0xfffe =? 0xfffe) then Ok 0
  else Ok 1.

Definition iswgraph (wc : Z) : outcome Z :=
  s ← iswspace wc;
  if negb (s =? 0) then Ok 0 else p ← iswprint wc; b2i (negb (p =? 0)).

Definition iswpunct (wc : Z) : outcome Z :=
  if wc <? 0x20000 then bitmap_bit punct_table wc else Ok 0.

Definition iswxdigit (wc : Z) : outcome Z :=
  b2i ((u32 (wc - 48) <? 10) || (u32 (Z.lor wc 32 - 97) <? 6)).

(** ** Case mapping *)

(** [c0 + (rd & -(rt^dir))] *)
Definition apply_delta (c0 r dir : Z) : Z :=
  u32 (c0 + Z.land (u32 (Z.shiftr r 8)) (u32 (- Z.lxor (Z.land r 255) dir))).

Definition mt : list Z := [2048; 342; 57].

(** The binary search among the exceptions of a block: the range starts at [xb] and has [xn] entries. *)
Definition search_exceptions (c c0 dir xb xn : Z) : outcome Z :=
  c_while (S (Z.to_nat xn)) (λ '(xb, xn),
    if xn =? 0 then Ok (inr c0)
    else
      e ← arr_get exceptions (xb + xn `div` 2);
      if e.1 =? c then
        r ← arr_get casemap_rules e.2;
        if Z.land r 255 <? 2 then Ok (inr (apply_delta c0 r dir))
        else Ok (inr (u32 (c0 + (if negb (dir =? 0) then -1 else 1))))
      else if c <? e.1 then Ok (inl (xb, xn `div` 2))
      else Ok (inl (xb + xn `div` 2, xn - xn `div` 2))) (xb, xn).

Definition casemap (c dir : Z) : outcome Z :=
  if 0x20000 <=? c then Ok c
  else
    let c0 := c in
    let b := Z.shiftr c 8 in
    let c := Z.land c 255 in
    let x := c `div` 3 in
    let y := c `mod` 3 in
    t ← arr_get casemap_tab b;
    v ← arr_get casemap_tab (t * 86 + x);
    m ← arr_get mt y;
    let v := Z.shiftr (v * m) 11 `mod` 6 in
    base ← arr_get rulebases b;
    r ← arr_get casemap_rules (base + v);
    let rt := Z.land r 255 in
    let rd := Z.shiftr r 8 in
    if rt <? 2 then Ok (apply_delta c0 r dir)
    else search_exceptions c c0 dir (Z.shiftr (u32 rd) 8) (Z.land rd 0xff).

Definition towlower (wc : Z) : outcome Z := casemap wc 0.
Definition towupper (wc : Z) : outcome Z := casemap wc 1.

Definition iswlower (wc : Z) : outcome Z := u ← towupper wc; b2i (negb (u =? wc)).
Definition iswupper (wc : Z) : outcome Z := l ← towlower wc; b2i (negb (l =? wc)).

(** ** Classes by name *)
Inductive wclass :=
  | Walnum | Walpha | Wblank | Wcntrl | Wdigit | Wgraph | Wlower | Wprint | Wpunct | Wspace | Wupper | Wxdigit.

Definition wctype_names : list (string * wclass) := [
  ("alnum", Walnum); ("alpha", Walpha); ("blank", Wblank); ("cntrl", Wcntrl); ("digit", Wdigit); ("graph", Wgraph);
  ("lower", Wlower); ("print", Wprint); ("punct", Wpunct); ("space", Wspace); ("upper", Wupper); ("xdigit", Wxdigit)
]%string.

Definition wctype (name : string) : option wclass :=
  match list_find (λ p, p.1 = name) wctype_names with Some (_, p) => Some p.2 | None => None end.

Definition class_function (c : wclass) : Z → outcome Z :=
  match c with
  | Walnum => iswalnum | Walpha => iswalpha | Wblank => iswblank | Wcntrl => iswcntrl | Wdigit => iswdigit
  | Wgraph => iswgraph | Wlower => iswlower | Wprint => iswprint | Wpunct => iswpunct | Wspace => iswspace
  | Wupper => iswupper | Wxdigit => iswxdigit
  end.

Definition iswctype (wc : Z) (desc : option wclass) : outcome Z :=
  if wc =? WEOF then Ok 0 else d ← or_undef desc; class_function d wc.

(** ** UTF-8 *)
Record mbstate_t := Mbstate { mb_buffer : Z; expected_length : Z; expected_remaining_bytes : Z }.
Definition mb_initial : mbstate_t := Mbstate 0 0 0.

(** What a conversion gives: the returned value, the character stored through [output],
    the state and errno. *)
Record mb_result := MbResult { mb_ret : Z; mb_output : option Z; mb_state : mbstate_t; mb_errno : Z }.

Definition bad_length (st : mbstate_t) : bool :=
  let b := mb_buffer st in
  match expected_length st with
  | 1 => 0x7F <? b
  | 2 => (b <? 0x80) || (0x7FF <? b)
  | 3 => (b <? 0x800) || (0xFFFF <? b)
  | 4 => (b <? 0x10000) || (0x10FFFF <? b)
  | _ => true
  end.

(** One iteration of the loop over the continuation bytes. *)
Definition continuation_step (output : bool) (input : list Z) (pos input_bytes errno : Z) (s : Z * mbstate_t)
    : outcome ((Z * mbstate_t) + mb_result) :=
  let '(i, st) := s in
  if (i <? input_bytes) && (0 <? expected_remaining_bytes st) then
    next ← arr_get input (pos + i);
    if negb (Z.land next 0xC0 =? 0x80) then Ok (inr (MbResult SIZE_MAX None st EILSEQ))
    else
      let st := Mbstate (Z.lor (u32 (Z.shiftl (mb_buffer st) 6)) (Z.land next 0x3F)) (expected_length st)
                  (expected_remaining_bytes st - 1) in
      if expected_remaining_bytes st =? 0 then
        if bad_length st then Ok (inr (MbResult SIZE_MAX None st EILSEQ))
        else Ok (inr (MbResult (i + 1) (if output then Some (mb_buffer st) else None) st errno))
      else Ok (inl (i + 1, st))
  else Ok (inr (MbResult (SIZE_MAX - 1) None st errno)).

(** Every iteration takes one byte off [expected_remaining_bytes]. *)
Definition handle_continuation_bytes (output : bool) (input : list Z) (pos input_bytes : Z) (st : mbstate_t) (errno : Z)
    : outcome mb_result :=
  c_while (S (Z.to_nat (expected_remaining_bytes st))) (continuation_step output input pos input_bytes errno) (0, st).

(** [for(; next & (0b10000000 >> count); count++)] *)
Definition leading_ones (next : Z) : outcome Z :=
  c_while 9 (λ count, Ok (if Z.land next (Z.shiftr 0x80 count) =? 0 then inr count else inl (count + 1))) 0.

(** [input]: NULL or the bytes from [pos] on; [st]: the state passed, or the function's own. *)
Definition mbrtowc (output : bool) (input : option (list Z)) (pos input_bytes : Z) (st : mbstate_t) (errno : Z)
    : outcome mb_result :=
  match input with
  | None =>
      if expected_remaining_bytes st =? 0 then Ok (MbResult 0 None mb_initial errno)
      else Ok (MbResult SIZE_MAX None st EILSEQ)
  | Some input =>
    if input_bytes =? 0 then Ok (MbResult (SIZE_MAX - 1) None st errno)
    else if 0 <? expected_remaining_bytes st then handle_continuation_bytes output input pos input_bytes st errno
    else
      next ← arr_get input pos;
      if negb (Z.land next 0x80 =? 0) then
        count ← leading_ones next;
        if (count <? 2) || (4 <? count) then Ok (MbResult SIZE_MAX None mb_initial EILSEQ)
        else
          let st := Mbstate (Z.land next (Z.shiftr 0x80 count - 1)) count (count - 1) in
          r ← handle_continuation_bytes output input (pos + 1) (input_bytes - 1) st errno;
          Ok (MbResult (if 0 <? s64 (mb_ret r) then mb_ret r + 1 else mb_ret r) (mb_output r) (mb_state r) (mb_errno r))
      else
        Ok (MbResult (Z.b2z (negb (next =? 0))) (if output then Some next else None) st errno)
  end.

Definition mbrlen (input : option (list Z)) (pos n : Z) (st : mbstate_t) (errno : Z) : outcome mb_result :=
  mbrtowc false input pos n st errno.

(** [*src] after mbsrtowcs: not assigned, NULL, or an index. *)
Inductive src_update := SrcKept | SrcNull | SrcAt (pos : Z).

Record mbs_result := MbsResult {
  mbs_ret : Z; mbs_dest : list Z; mbs_src : src_update; mbs_state : mbstate_t; mbs_errno : Z
}.

Definition mbsrtowcs_step (dest : bool) (input : list Z) (len : Z) (s : Z * Z * list Z * mbstate_t * Z)
    : outcome ((Z * Z * list Z * mbstate_t * Z) + mbs_result) :=
  let '(i, curr, out, ps, errno) := s in
  if i <? len then
    r ← mbrtowc dest (Some input) curr SIZE_MAX ps errno;
    if mb_ret r =? SIZE_MAX then Ok (inr (MbsResult SIZE_MAX out (SrcAt curr) mb_initial EILSEQ))
    else if mb_ret r =? SIZE_MAX - 1 then Halt
    else
      let out := if dest then out ++ option_list (mb_output r) else out in
      if mb_ret r =? 0 then Ok (inr (MbsResult i out (if dest then SrcNull else SrcKept) (mb_state r) (mb_errno r)))
      else Ok (inl (i + 1, curr + mb_ret r, out, mb_state r, mb_errno r))
  else Ok (inr (MbsResult len out (if dest then SrcAt curr else SrcKept) ps errno)).

(** [dest]: whether it is not NULL; the characters written are given in order.  [fuel] bounds the
    characters converted. *)
Definition mbsrtowcs (fuel : nat) (dest : bool) (input : list Z) (pos len : Z) (ps : mbstate_t) (errno : Z)
    : outcome mbs_result :=
  let len := if dest then len else SIZE_MAX in
  c_while fuel (mbsrtowcs_step dest input len) (0, pos, [], ps, errno).
