(* ===== verification/WcharSpec.v ===== *)
(** * UTF-8 conversion is the inverse of the encoding; the case mapping stays inside its tables *)
From S2P Require Import Prelude Memory CString Bytes Arrays WideTables Ctype Wchar.

(** ** The encoding (RFC 3629), for every number up to 0x10FFFF *)
Definition utf8_encode (c : Z) : list Z :=
  if c <? 0x80 then [c]
  else if c <? 0x800 then [0xC0 + c `div` 64; 0x80 + c `mod` 64]
  else if c <? 0x10000 then [0xE0 + c `div` 4096; 0x80 + (c `div` 64) `mod` 64; 0x80 + c `mod` 64]
  else [0xF0 + c `div` 262144; 0x80 + (c `div` 4096) `mod` 64; 0x80 + (c `div` 64) `mod` 64; 0x80 + c `mod` 64].

(** ** Bytes *)

(** What holds of every byte, checked on all 256. *)
Lemma all_bytes (P : Z → bool) : forallb P (seqZ 0 256) = true → ∀ b, is_byte b → P b = true.
Proof.
  intros H b Hb. rewrite forallb_forall in H. apply H, list_elem_of_In, elem_of_seqZ. unfold is_byte in Hb. lia.
Qed.

Lemma continuation_byte b : is_byte b →
  (Z.land b 0xC0 =? 0x80) = (128 <=? b) && (b <? 192) ∧ Z.land b 0x3F = b `mod` 64.
Proof.
  intros Hb. split.
  - apply eqb_prop, (all_bytes (λ b, eqb (Z.land b 0xC0 =? 0x80) ((128 <=? b) && (b <? 192)))); [by vm_compute|done].
  - apply Z.eqb_eq, (all_bytes (λ b, Z.land b 0x3F =? b `mod` 64)); [by vm_compute|done].
Qed.

(** The number of leading ones of a byte above 127. *)
Definition ones_of (b : Z) : Z :=
  if b <? 128 then 0 else if b <? 192 then 1 else if b <? 224 then 2 else if b <? 240 then 3 else if b <? 248 then 4
  else if b <? 252 then 5 else if b <? 254 then 6 else if b <? 255 then 7 else 8.

Lemma leading_ones_eq b : is_byte b → leading_ones b = Ok (ones_of b).
Proof.
  intros Hb. assert ((match leading_ones b with Ok n => n =? ones_of b | _ => false end) = true) as H.
  { apply (all_bytes (λ b, match leading_ones b with Ok n => n =? ones_of b | _ => false end)); [by vm_compute|done]. }
  destruct (leading_ones b); try done. f_equal. by apply Z.eqb_eq.
Qed.

Lemma first_byte_bits b : is_byte b →
  (Z.land b 0x80 =? 0) = (b <? 128) ∧
  (ones_of b ≤ 4 → Z.land b (Z.shiftr 0x80 (ones_of b) - 1) = b `mod` 2 ^ (7 - ones_of b)).
Proof.
  intros Hb. split.
  - apply eqb_prop, (all_bytes (λ b, eqb (Z.land b 0x80 =? 0) (b <? 128))); [by vm_compute|done].
  - intros H4. assert ((4 <? ones_of b) || (Z.land b (Z.shiftr 0x80 (ones_of b) - 1) =? b `mod` 2 ^ (7 - ones_of b)) = true) as H.
    { apply (all_bytes (λ b, (4 <? ones_of b) || (Z.land b (Z.shiftr 0x80 (ones_of b) - 1) =? b `mod` 2 ^ (7 - ones_of b))));
        [by vm_compute|done]. }
    apply orb_true_iff in H as [H|H]; zbool; [lia|done].
Qed.

(** ** The continuation loop *)
Section continuation.
Context (output : bool) (input : list Z) (pos n errno : Z).
Notation step := (continuation_step output input pos n errno).

(** The state after the byte [b]. *)
Definition continued (st : mbstate_t) (b : Z) : mbstate_t :=
  Mbstate (mb_buffer st * 64 + b `mod` 64) (expected_length st) (expected_remaining_bytes st - 1).

Lemma step_stop i st : n ≤ i → step (i, st) = Ok (inr (MbResult (SIZE_MAX - 1) None st errno)).
Proof. intros Hi. unfold continuation_step. by replace (i <? n) with false by lia. Qed.

Lemma step_byte i st b :
  i < n → 0 < expected_remaining_bytes st → arr_get input (pos + i) = Ok b → is_byte b →
  0 ≤ mb_buffer st < 2 ^ 26 →
  step (i, st) =
    if (128 <=? b) && (b <? 192) then
      let st' := continued st b in
      if expected_remaining_bytes st' =? 0 then
        if bad_length st' then Ok (inr (MbResult SIZE_MAX None st' EILSEQ))
        else Ok (inr (MbResult (i + 1) (if output then Some (mb_buffer st') else None) st' errno))
      else Ok (inl (i + 1, st'))
    else Ok (inr (MbResult SIZE_MAX None st EILSEQ)).
Proof.
  intros Hi Hr Hb Hbyte Hbuf. unfold continuation_step. replace (i <? n) with true by lia.
  replace (0 <? expected_remaining_bytes st) with true by lia. cbn [andb]. rewrite Hb, Ok_bind.
  destruct (continuation_byte b Hbyte) as [-> ->].
  destruct ((128 <=? b) && (b <? 192)); [|done]. cbn [negb].
  assert (Z.lor (u32 (Z.shiftl (mb_buffer st) 6)) (b `mod` 64) = mb_buffer st * 64 + b `mod` 64) as ->; [|done].
  rewrite wrap_small by (rewrite Z.shiftl_mul_pow2; lia).
  rewrite Z.lor_comm, (lor_shiftl _ _ 6) by dlia. lia.
Qed.
End continuation.

(** A converted character: what the call returns when the bytes are all there. *)
Definition converted (output : bool) (c : Z) (ret : Z) (st : mbstate_t) (errno : Z) : mb_result :=
  MbResult ret (if output then Some c else None) st errno.

Lemma arr_get_app {A} (pre l : list A) i x : 0 ≤ i → l !! Z.to_nat i = Some x →
  arr_get (pre ++ l) (Z.of_nat (length pre) + i) = Ok x.
Proof.
  intros Hi Hl. apply arr_get_lookup; [lia|]. rewrite lookup_app_r by lia. rewrite <-Hl. f_equal. lia.
Qed.

Definition is_continuation (b : Z) : Prop := 128 ≤ b < 192.

Section continuation_run.
Context (output : bool) (input : list Z) (pos n errno : Z).
Notation step := (continuation_step output input pos n errno).

(** The state after some continuation bytes. *)
Abbreviation continued_all := (foldl continued).

(** The bytes [cs] are found from index [i] on. *)
Definition bytes_from (i : Z) (cs : list Z) : Prop :=
  ∀ j b, cs !! j = Some b → arr_get input (pos + i + Z.of_nat j) = Ok b.

Lemma bytes_from_cons i b cs : bytes_from i (b :: cs) → arr_get input (pos + i) = Ok b ∧ bytes_from (i + 1) cs.
Proof.
  intros H. split; [specialize (H 0%nat b eq_refl); by rewrite Z.add_0_r in H|].
  intros j c Hj. specialize (H (S j) c Hj). rewrite <-H. f_equal. lia.
Qed.

Lemma continuation_loop cs : ∀ fuel i st,
  Forall is_continuation cs → bytes_from i cs → (length cs < fuel)%nat →
  0 ≤ mb_buffer st < 2 ^ (32 - 6 * Z.of_nat (length cs)) → (length cs ≤ 5)%nat →
  0 < expected_remaining_bytes st →
  (Z.of_nat (length cs) = expected_remaining_bytes st ∧ i + Z.of_nat (length cs) ≤ n ∨
   Z.of_nat (length cs) < expected_remaining_bytes st ∧ i + Z.of_nat (length cs) = n) →
  c_while fuel step (i, st) =
    let st' := continued_all st cs in
    if Z.of_nat (length cs) =? expected_remaining_bytes st then
      if bad_length st' then Ok (MbResult SIZE_MAX None st' EILSEQ)
      else Ok (converted output (mb_buffer st') (i + Z.of_nat (length cs)) st' errno)
    else Ok (MbResult (SIZE_MAX - 1) None st' errno).
Proof.
  induction cs as [|b cs IH]; intros fuel i st Hcs Hin Hf Hbuf H5 Hr Hcase; destruct fuel as [|fuel]; simpl in Hf; try lia;
    cbn [c_while length] in *.
  - destruct Hcase as [|[_ Hn]]; [lia|]. rewrite step_stop by lia. rewrite Ok_bind. simpl.
    change (Z.of_nat 0) with 0. by replace (0 =? expected_remaining_bytes st) with false by lia.
  - apply Forall_cons in Hcs as [Hb Hcs]. apply bytes_from_cons in Hin as [Hget Hin].
    assert (2 ^ (32 - 6 * Z.of_nat (S (length cs))) * 64 ≤ 2 ^ 32 ∧
      2 ^ (32 - 6 * Z.of_nat (length cs)) = 2 ^ (32 - 6 * Z.of_nat (S (length cs))) * 64) as [Hp1 Hp2].
    { change 64 with (2 ^ 6). rewrite <-Z.pow_add_r by lia. split; [apply Z.pow_le_mono_r; lia|f_equal; lia]. }
    unfold is_continuation in Hb.
    rewrite (step_byte _ _ _ _ _ i st b) by (done || unfold is_byte; lia).
    replace ((128 <=? b) && (b <? 192)) with true by lia. cbv zeta.
    cbn [foldl]. set (st1 := continued st b). change (expected_remaining_bytes st1) with (expected_remaining_bytes st - 1).
    assert (0 ≤ mb_buffer st1 < 2 ^ (32 - 6 * Z.of_nat (length cs))) as Hb1 by (unfold st1; cbn [continued mb_buffer]; dlia).
    destruct (expected_remaining_bytes st - 1 =? 0) eqn:E; zbool.
    + destruct cs as [|? ?]; [|simpl in *; lia]. cbn [length foldl]. change (Z.of_nat 1) with 1.
      replace (1 =? expected_remaining_bytes st) with true by lia.
      destruct (bad_length st1); by rewrite Ok_bind.
    + rewrite Ok_bind. rewrite IH; [|done|done|lia|done|lia|simpl; lia|simpl; lia].
      change (expected_remaining_bytes st1) with (expected_remaining_bytes st - 1).
      replace (Z.of_nat (length cs) =? expected_remaining_bytes st - 1) with
        (Z.of_nat (S (length cs)) =? expected_remaining_bytes st) by (apply eq_iff_eq_true; rewrite !Z.eqb_eq; lia).
      by replace (i + 1 + Z.of_nat (length cs)) with (i + Z.of_nat (S (length cs))) by lia.
Qed.
End continuation_run.

(** ** Whole characters *)

Definition add_bits (v b : Z) : Z := v * 64 + b `mod` 64.

Lemma continued_fold cs v L r :
  foldl continued (Mbstate v L r) cs = Mbstate (foldl add_bits v cs) L (r - Z.of_nat (length cs)).
Proof.
  revert v r. induction cs as [|b cs IH]; intros v r; cbn [foldl length].
  - by rewrite Z.sub_0_r.
  - change (continued (Mbstate v L r) b) with (Mbstate (add_bits v b) L (r - 1)). rewrite IH. f_equal. lia.
Qed.

Lemma encode_multi c : 0x80 ≤ c ≤ 0x10FFFF → ∃ b0 cs,
  utf8_encode c = b0 :: cs ∧ 128 ≤ b0 < 256 ∧ ones_of b0 = 1 + Z.of_nat (length cs) ∧ (1 ≤ length cs ≤ 3)%nat ∧
  Forall is_continuation cs ∧ foldl add_bits (b0 `mod` 2 ^ (7 - ones_of b0)) cs = c ∧
  ∀ r, bad_length (Mbstate c (ones_of b0) r) = false.
Proof.
  intros Hc. unfold utf8_encode. replace (c <? 0x80) with false by lia.
  assert (∀ b k, ones_of b = k → ones_of b = k) as _ by done.
  destruct (c <? 0x800) eqn:E2; [|destruct (c <? 0x10000) eqn:E3]; zbool; eexists _, _; (split; [reflexivity|]).
  - assert (192 ≤ 0xC0 + c `div` 64 < 224) as Hb by dlia.
    assert (ones_of (0xC0 + c `div` 64) = 2) as -> by (unfold ones_of; repeat case_if; lia).
    split; [lia|]. split; [done|]. split; [simpl; lia|]. split; [repeat constructor; unfold is_continuation; dlia|].
    split; [simpl; unfold add_bits; dlia|]. intros r. unfold bad_length. simpl. apply orb_false_iff. lia.
  - assert (224 ≤ 0xE0 + c `div` 4096 < 240) as Hb by dlia.
    assert (ones_of (0xE0 + c `div` 4096) = 3) as -> by (unfold ones_of; repeat case_if; lia).
    split; [lia|]. split; [done|]. split; [simpl; lia|]. split; [repeat constructor; unfold is_continuation; dlia|].
    split; [simpl; unfold add_bits; dlia|]. intros r. unfold bad_length. simpl. apply orb_false_iff. lia.
  - assert (240 ≤ 0xF0 + c `div` 262144 < 245) as Hb by dlia.
    assert (ones_of (0xF0 + c `div` 262144) = 4) as -> by (unfold ones_of; repeat case_if; lia).
    split; [lia|]. split; [done|]. split; [simpl; lia|]. split; [repeat constructor; unfold is_continuation; dlia|].
    split; [simpl; unfold add_bits; dlia|]. intros r. unfold bad_length. simpl. apply orb_false_iff. lia.
Qed.

Lemma bytes_from_app pre cs rest pos i : pos + i = Z.of_nat (length pre) →
  bytes_from (pre ++ cs ++ rest) pos i cs.
Proof.
  intros Hp j b Hj. replace (pos + i + Z.of_nat j) with (Z.of_nat (length pre) + Z.of_nat j) by lia.
  apply arr_get_app; [lia|]. rewrite Nat2Z.id, lookup_app_l; [done|]. by eapply lookup_lt_Some.
Qed.

(** The first byte of a character of several bytes. *)
Lemma mbrtowc_lead output input pos n st errno b0 k :
  arr_get input pos = Ok b0 → 128 ≤ b0 < 256 → ones_of b0 = k → 2 ≤ k ≤ 4 → n ≠ 0 →
  expected_remaining_bytes st = 0 →
  mbrtowc output (Some input) pos n st errno =
    (r ← handle_continuation_bytes output input (pos + 1) (n - 1) (Mbstate (b0 `mod` 2 ^ (7 - k)) k (k - 1)) errno;
     Ok (MbResult (if 0 <? s64 (mb_ret r) then mb_ret r + 1 else mb_ret r) (mb_output r) (mb_state r) (mb_errno r))).
Proof.
  intros Hget Hb Hk Hk4 Hn Hst. unfold mbrtowc. replace (n =? 0) with false by lia. rewrite Hst. change (0 <? 0) with false.
  rewrite Hget, Ok_bind. destruct (first_byte_bits b0 ltac:(unfold is_byte; lia)) as [-> Hbits]. rewrite Hk in Hbits.
  replace (b0 <? 128) with false by lia. cbn [negb]. rewrite leading_ones_eq by (unfold is_byte; lia).
  rewrite Hk, Ok_bind, Hbits by lia. replace ((k <? 2) || (4 <? k)) with false by lia. done.
Qed.

Lemma mbrtowc_encoded output pre c rest n st errno :
  0 ≤ c ≤ 0x10FFFF → expected_remaining_bytes st = 0 → Z.of_nat (length (utf8_encode c)) ≤ n →
  ∃ st', mbrtowc output (Some (pre ++ utf8_encode c ++ rest)) (Z.of_nat (length pre)) n st errno =
      Ok (converted output c (if c =? 0 then 0 else Z.of_nat (length (utf8_encode c))) st' errno) ∧
    expected_remaining_bytes st' = 0.
Proof.
  intros Hc Hst Hn. destruct (decide (c < 0x80)) as [Hlt|Hge].
  - unfold utf8_encode in *. replace (c <? 0x80) with true in * by lia. cbn [length] in Hn.
    exists st. split; [|done]. unfold mbrtowc. replace (n =? 0) with false by lia. rewrite Hst. change (0 <? 0) with false.
    rewrite (arr_get_lookup _ _ c) by (lia || by rewrite Nat2Z.id, lookup_app_r, Nat.sub_diag by lia). rewrite Ok_bind.
    destruct (first_byte_bits c ltac:(unfold is_byte; lia)) as [-> _]. replace (c <? 128) with true by lia. cbn [negb length].
    unfold converted. by destruct (c =? 0).
  - destruct (encode_multi c ltac:(lia)) as (b0 & cs & Eenc & Hb0 & Hones & Hlen & Hcs & Hval & Hgood).
    rewrite Eenc in *. cbn [length] in *. rewrite (mbrtowc_lead _ _ _ _ _ _ b0 (1 + Z.of_nat (length cs))); try done; try lia.
    2: { apply arr_get_lookup; [lia|]. by rewrite Nat2Z.id, lookup_app_r, Nat.sub_diag by lia. }
    replace (pre ++ (b0 :: cs) ++ rest) with ((pre ++ [b0]) ++ cs ++ rest) by (by rewrite <-!app_assoc).
    unfold handle_continuation_bytes. cbn [expected_remaining_bytes].
    rewrite (continuation_loop _ _ _ _ _ cs) with (st := Mbstate _ _ _); try done; cbn [expected_remaining_bytes mb_buffer]; try lia.
    + rewrite continued_fold, <-Hones, Hval. cbv zeta. rewrite Hgood.
      replace (Z.of_nat (length cs) =? ones_of b0 - 1) with true by lia. rewrite Ok_bind. cbn [converted mb_ret mb_output mb_state mb_errno mb_buffer].
      rewrite signed_small by lia. replace (0 <? 0 + Z.of_nat (length cs)) with true by lia.
      eexists. split; [unfold converted; replace (c =? 0) with false by lia; do 3 f_equal; lia|].
      cbn [expected_remaining_bytes]. lia.
    + apply bytes_from_app. rewrite length_app. simpl. lia.
    + pose proof (Z.mod_pos_bound b0 (2 ^ (7 - (1 + Z.of_nat (length cs)))) ltac:(lia)).
      assert (2 ^ (7 - (1 + Z.of_nat (length cs))) ≤ 2 ^ (32 - 6 * Z.of_nat (length cs))) by (apply Z.pow_le_mono_r; lia). lia.
Qed.

(** C27: mbrtowc decodes what UTF-8 encodes.  For every number up to 0x10FFFF, from a state between two
    characters, converting its encoding gives it back, with the number of bytes used (0 for NUL) as result, errno untouched and the state
    again between two characters, whatever follows and however many bytes are allowed, if they are enough. *)
Theorem utf8_roundtrip output pre c rest n st errno :
  0 ≤ c ≤ 0x10FFFF → expected_remaining_bytes st = 0 → Z.of_nat (length (utf8_encode c)) ≤ n →
  ∃ st', mbrtowc output (Some (pre ++ utf8_encode c ++ rest)) (Z.of_nat (length pre)) n st errno =
      Ok (converted output c (if c =? 0 then 0 else Z.of_nat (length (utf8_encode c))) st' errno) ∧
    expected_remaining_bytes st' = 0.
Proof. apply mbrtowc_encoded. Qed.

(** ** Whole strings *)

Definition utf8_string (cs : list Z) : list Z := concat (utf8_encode <$> cs).

Lemma utf8_length c : 0 ≤ c ≤ 0x10FFFF → 1 ≤ Z.of_nat (length (utf8_encode c)) ≤ 4.
Proof. intros Hc. unfold utf8_encode. repeat case_if; simpl; lia. Qed.

Lemma mbsrtowcs_step_converted input len i curr out ps errno c ret ps' :
  i < len → mbrtowc true (Some input) curr SIZE_MAX ps errno = Ok (converted true c ret ps' errno) → 0 ≤ ret ≤ 4 →
  mbsrtowcs_step true input len (i, curr, out, ps, errno) =
    if ret =? 0 then Ok (inr (MbsResult i (out ++ [c]) SrcNull ps' errno))
    else Ok (inl (i + 1, curr + ret, out ++ [c], ps', errno)).
Proof.
  intros Hi E Hret. unfold mbsrtowcs_step. replace (i <? len) with true by lia. rewrite E, Ok_bind.
  unfold converted. cbn [mb_ret mb_output mb_state mb_errno].
  replace (ret =? SIZE_MAX) with false by (unfold SIZE_MAX; lia).
  by replace (ret =? SIZE_MAX - 1) with false by (unfold SIZE_MAX; lia).
Qed.

Lemma mbsrtowcs_loop cs rest : Forall (λ c, 0 < c ≤ 0x10FFFF) cs → ∀ fuel pre i out len ps errno,
  expected_remaining_bytes ps = 0 → (length cs < fuel)%nat → 0 ≤ i → i + Z.of_nat (length cs) < len →
  ∃ st', c_while fuel (mbsrtowcs_step true (pre ++ utf8_string cs ++ 0 :: rest) len)
      (i, Z.of_nat (length pre), out, ps, errno) =
    Ok (MbsResult (i + Z.of_nat (length cs)) (out ++ cs ++ [0]) SrcNull st' errno).
Proof.
  induction 1 as [|c cs Hc Hcs IH]; intros fuel pre i out len ps errno Hps Hf Hi Hlen;
    (destruct fuel as [|fuel]; simpl in Hf; [lia|]); cbn [c_while length] in *.
  - destruct (mbrtowc_encoded true pre 0 rest SIZE_MAX ps errno ltac:(lia) Hps) as (st' & E & _); [unfold SIZE_MAX; simpl; lia|].
    change (utf8_encode 0) with [0] in E. change (utf8_string []) with (@nil Z). cbn [app] in *.
    rewrite (mbsrtowcs_step_converted _ len i _ _ _ _ _ _ _ ltac:(lia) E) by (simpl; lia).
    exists st'. change (0 =? 0) with true. cbv iota. by rewrite Ok_bind, Z.add_0_r.
  - pose proof (utf8_length c ltac:(lia)) as Hl.
    change (utf8_string (c :: cs)) with (utf8_encode c ++ utf8_string cs). rewrite <-(app_assoc (utf8_encode c)).
    destruct (mbrtowc_encoded true pre c (utf8_string cs ++ 0 :: rest) SIZE_MAX ps errno ltac:(lia) Hps)
      as (ps' & E & Hps'); [unfold SIZE_MAX; lia|]. replace (c =? 0) with false in E by lia.
    rewrite (mbsrtowcs_step_converted _ len i _ _ _ _ _ _ _ ltac:(lia) E) by lia.
    replace (Z.of_nat (length (utf8_encode c)) =? 0) with false by lia. rewrite Ok_bind.
    destruct (IH fuel (pre ++ utf8_encode c) (i + 1) (out ++ [c]) len ps' errno Hps') as (st' & E'); [lia..|].
    exists st'. rewrite length_app, Nat2Z.inj_add, <-!app_assoc in E'.
    rewrite E'. cbn [app]. do 2 f_equal. lia.
Qed.

(** mbsrtowcs converts a whole NUL-terminated UTF-8 string: the characters, in order and with the
    terminator, are stored, their number returned and the source pointer set to NULL, when the destination has room for them all. *)
Theorem mbsrtowcs_roundtrip fuel pre cs rest len ps errno :
  Forall (λ c, 0 < c ≤ 0x10FFFF) cs → expected_remaining_bytes ps = 0 →
  Z.of_nat (length cs) < len → (length cs < fuel)%nat →
  ∃ st', mbsrtowcs fuel true (pre ++ utf8_string cs ++ 0 :: rest) (Z.of_nat (length pre)) len ps errno =
    Ok (MbsResult (Z.of_nat (length cs)) (cs ++ [0]) SrcNull st' errno).
Proof. intros Hcs Hps Hlen Hf. by apply (mbsrtowcs_loop cs rest Hcs fuel pre 0 [] len ps errno Hps Hf). Qed.

(** ** Only encodings are converted *)

Lemma arr_get_Ok {A} (l : list A) i x : arr_get l i = Ok x → 0 ≤ i ∧ l !! Z.to_nat i = Some x.
Proof. unfold arr_get. destruct (0 <=? i) eqn:E; [|done]. zbool. by intros ?%or_undef_Ok. Qed.

Lemma continuation_sound input pos n errno : Forall is_byte input → ∀ m fuel i st r c,
  expected_remaining_bytes st = Z.of_nat m → (1 ≤ m ≤ 3)%nat → 0 ≤ mb_buffer st < 2 ^ (32 - 6 * Z.of_nat m) →
  c_while fuel (continuation_step true input pos n errno) (i, st) = Ok r → mb_output r = Some c →
  ∃ cs, length cs = m ∧ Forall is_continuation cs ∧ bytes_from input pos i cs ∧
    c = foldl add_bits (mb_buffer st) cs ∧ bad_length (foldl continued st cs) = false ∧
    mb_ret r = i + Z.of_nat m ∧ mb_state r = foldl continued st cs.
Proof.
  intros Hin. induction m as [|m IH]; intros fuel i st r c Hrem Hm Hbuf E Hout; [lia|].
  destruct fuel as [|fuel]; [done|]. cbn [c_while] in E. apply bind_Ok in E as (o & Es & E).
  destruct (decide (i < n)) as [Hi|Hi].
  2: { rewrite step_stop in Es by lia. injection Es as <-. by injection E as <-. }
  assert (∃ b, arr_get input (pos + i) = Ok b) as [b Hb].
  { unfold continuation_step in Es. replace (i <? n) with true in Es by lia.
    replace (0 <? expected_remaining_bytes st) with true in Es by lia. cbn [andb] in Es. apply bind_Ok in Es as (b & ? & _). eauto. }
  assert (is_byte b) as Hbyte by (apply arr_get_Ok in Hb as [_ Hb]; exact (Forall_lookup_1 _ _ _ _ Hin Hb)).
  assert (2 ^ (32 - 6 * Z.of_nat m) = 2 ^ (32 - 6 * Z.of_nat (S m)) * 64 ∧ 2 ^ (32 - 6 * Z.of_nat m) ≤ 2 ^ 32) as [Hp1 Hp2].
  { change 64 with (2 ^ 6). rewrite <-Z.pow_add_r by lia. split; [f_equal; lia|apply Z.pow_le_mono_r; lia]. }
  rewrite (step_byte _ _ _ _ _ i st b) in Es by first [done | lia].
  destruct ((128 <=? b) && (b <? 192)) eqn:Eb; [|injection Es as <-; by injection E as <-]. zbool.
  cbv zeta in Es. set (st1 := continued st b) in *.
  assert (expected_remaining_bytes st1 = Z.of_nat m) as Hrem1 by (unfold st1; cbn; lia).
  destruct (expected_remaining_bytes st1 =? 0) eqn:E0; zbool.
  - destruct m; [|lia]. destruct (bad_length st1) eqn:Ebad; injection Es as <-; injection E as <-; [done|].
    injection Hout as <-. exists [b]. split; [done|]. split; [by repeat constructor|]. split; [|by split_and!].
    intros [|j] x Hj; [|done]. injection Hj as ->. by rewrite Z.add_0_r.
  - injection Es as <-. destruct (IH fuel (i + 1) st1 r c) as (cs & Hl & Hcs & Hfrom & Hc & Hbad & Hret & Hst); try done; try lia.
    { unfold st1. cbn [continued mb_buffer]. dlia. }
    exists (b :: cs). split; [by rewrite <-Hl|]. split; [by constructor|]. split.
    { intros [|j] x Hj; [injection Hj as <-; by rewrite Z.add_0_r|]. rewrite <-(Hfrom j x Hj). f_equal. lia. }
    split; [done|]. split; [done|]. split; [lia|done].
Qed.

Lemma encode_decoded b0 cs c r :
  128 ≤ b0 < 256 → 2 ≤ ones_of b0 ≤ 4 → length cs = Z.to_nat (ones_of b0 - 1) → Forall is_continuation cs →
  c = foldl add_bits (b0 `mod` 2 ^ (7 - ones_of b0)) cs → bad_length (Mbstate c (ones_of b0) r) = false →
  utf8_encode c = b0 :: cs ∧ 0 < c ≤ 0x10FFFF.
Proof.
  intros Hb Hk Hl Hcs Hc Hbad.
  assert (ones_of b0 = 2 ∧ 192 ≤ b0 < 224 ∨ ones_of b0 = 3 ∧ 224 ≤ b0 < 240 ∨ ones_of b0 = 4 ∧ 240 ≤ b0 < 248) as Hcase.
  { unfold ones_of in *. repeat case_if; lia. }
  unfold is_continuation in Hcs. unfold utf8_encode.
  destruct Hcase as [[Ek Hb0]|[[Ek Hb0]|[Ek Hb0]]]; rewrite Ek in Hl, Hc, Hbad; unfold bad_length in Hbad;
    cbn [mb_buffer expected_length] in Hbad; zbool;
    repeat (destruct cs as [|? cs]; try discriminate Hl); rewrite !Forall_cons in Hcs; cbn [foldl] in Hc; unfold add_bits in Hc.
  - change (2 ^ (7 - 2)) with 32 in Hc. replace (c <? 0x80) with false by lia. replace (c <? 0x800) with true by lia.
    split; [|lia]. f_equal; [dlia|]. f_equal. dlia.
  - change (2 ^ (7 - 3)) with 16 in Hc. replace (c <? 0x80) with false by lia. replace (c <? 0x800) with false by lia.
    replace (c <? 0x10000) with true by lia. split; [|lia]. repeat f_equal; dlia.
  - change (2 ^ (7 - 4)) with 8 in Hc. replace (c <? 0x80) with false by lia. replace (c <? 0x800) with false by lia.
    replace (c <? 0x10000) with false by lia. split; [|lia]. repeat f_equal; dlia.
Qed.

(** C28: mbrtowc, started between two characters (no continuation byte awaited), converts nothing but encodings: whenever it stores a character,
    the bytes it used are the one encoding of that character, at most 0x10FFFF -- overlong forms, stray
    continuation bytes and numbers beyond the code space are all refused. *)
Theorem utf8_sound input pos n st errno r c :
  Forall is_byte input → expected_remaining_bytes st = 0 →
  mbrtowc true (Some input) pos n st errno = Ok r → mb_output r = Some c →
  0 ≤ c ≤ 0x10FFFF ∧
  take (length (utf8_encode c)) (drop (Z.to_nat pos) input) = utf8_encode c ∧
  mb_ret r = (if c =? 0 then 0 else Z.of_nat (length (utf8_encode c))) ∧ expected_remaining_bytes (mb_state r) = 0.
Proof.
  intros Hin Hst E Hout. unfold mbrtowc in E. destruct (n =? 0); [by injection E as <-|]. rewrite Hst in E.
  change (0 <? 0) with false in E. cbv iota in E. apply bind_Ok in E as (b0 & Hget & E).
  pose proof Hget as [Hpos Hlk]%arr_get_Ok. pose proof (Forall_lookup_1 _ _ _ _ Hin Hlk) as Hb0. simpl in Hb0.
  pose proof (drop_S _ _ _ Hlk) as Hdrop. destruct (first_byte_bits b0 Hb0) as [Hbit Hbits]. rewrite Hbit in E.
  destruct (b0 <? 128) eqn:E128; cbn [negb] in E; zbool.
  { injection E as <-. injection Hout as <-. unfold is_byte in Hb0. unfold utf8_encode. replace (b0 <? 0x80) with true by lia.
    rewrite Hdrop. cbn [mb_ret mb_state length take]. split; [lia|]. split; [done|]. split; [by destruct (b0 =? 0)|done]. }
  rewrite leading_ones_eq, Ok_bind in E by done. destruct ((ones_of b0 <? 2) || (4 <? ones_of b0)) eqn:Ecount;
    [by injection E as <-|]. zbool. rewrite Hbits in E by lia.
  apply bind_Ok in E as (r' & E & E'). injection E' as <-. cbn [mb_output mb_ret mb_state] in *.
  unfold handle_continuation_bytes in E. cbn [expected_remaining_bytes] in E.
  assert (0 ≤ b0 `mod` 2 ^ (7 - ones_of b0) < 2 ^ (32 - 6 * Z.of_nat (Z.to_nat (ones_of b0 - 1)))) as Hbuf.
  { pose proof (Z.mod_pos_bound b0 (2 ^ (7 - ones_of b0)) ltac:(lia)).
    assert (2 ^ (7 - ones_of b0) ≤ 2 ^ (32 - 6 * Z.of_nat (Z.to_nat (ones_of b0 - 1)))) by (apply Z.pow_le_mono_r; lia). lia. }
  destruct (continuation_sound input _ _ _ Hin (Z.to_nat (ones_of b0 - 1)) _ _
    (Mbstate (b0 `mod` 2 ^ (7 - ones_of b0)) (ones_of b0) (ones_of b0 - 1)) r' c ltac:(cbn [expected_remaining_bytes]; lia)
    ltac:(lia) Hbuf E Hout) as (cs & Hl & Hcs & Hfrom & Hc & Hbad & Hret & Hstate).
  rewrite continued_fold in Hbad, Hstate. cbn [mb_buffer] in *. rewrite <-Hc in Hbad, Hstate. unfold is_byte in Hb0.
  destruct (encode_decoded b0 cs c _ ltac:(lia) ltac:(lia) Hl Hcs Hc Hbad) as [-> Hrange].
  split; [lia|]. split; [|split].
  - rewrite Hdrop. cbn [length take]. f_equal. apply list_eq. intros j. destruct (decide (j < length cs)%nat) as [Hj|Hj].
    + destruct (lookup_lt_is_Some_2 cs j Hj) as [b Hbj]. rewrite Hbj, lookup_take_lt, lookup_drop by done.
      pose proof (Hfrom j b Hbj) as [_ Hlkj]%arr_get_Ok. rewrite <-Hlkj. f_equal. lia.
    + rewrite lookup_take_ge by lia. symmetry. apply lookup_ge_None. lia.
  - rewrite Hret, signed_small by lia. replace (c =? 0) with false by lia. cbn [length].
    assert (2 ≤ ones_of b0) as Hones by lia. clear -Hl Hones. case_if; lia.
  - rewrite Hstate. cbn [expected_remaining_bytes]. lia.
Qed.

(** ** The tables *)

(** Every row a bitmap's index refers to lies inside it. *)
Definition bitmap_ok (table : list Z) : bool :=
  forallb (λ b, match table !! Z.to_nat b with
                | Some t => (0 <=? t) && (t * 32 + 31 <? Z.of_nat (length table)) | None => false end) (seqZ 0 512).

Lemma bitmap_bit_total table wc : bitmap_ok table = true → 0 ≤ wc < 0x20000 →
  ∃ x, bitmap_bit table wc = Ok x ∧ (x = 0 ∨ x = 1).
Proof.
  intros Hok Hwc. unfold bitmap_bit. change 255 with (Z.ones 8). rewrite Z.land_ones by lia.
  rewrite (Z.shiftr_div_pow2 wc 8), (Z.shiftr_div_pow2 (wc `mod` 2 ^ 8) 3) by lia.
  change (2 ^ 8) with 256. change (2 ^ 3) with 8.
  unfold bitmap_ok in Hok. rewrite forallb_forall in Hok.
  specialize (Hok (wc `div` 256)). rewrite <-list_elem_of_In, elem_of_seqZ in Hok. specialize (Hok ltac:(dlia)).
  destruct (table !! Z.to_nat (wc `div` 256)) as [t|] eqn:Et; [|done]. zbool.
  rewrite (arr_get_lookup _ _ t) by (done || dlia). rewrite Ok_bind.
  destruct (arr_get_in_range table (t * 32 + (wc `mod` 256) `div` 8)) as (x & _ & ->); [dlia|].
  rewrite Ok_bind. eexists. split; [done|].
  pose proof (Z.land_ones (Z.shiftr x (Z.land wc 7)) 1 ltac:(lia)) as E. change (Z.ones 1) with 1 in E.
  change (2 ^ 1) with 2 in E. rewrite E. dlia.
Qed.

Lemma alpha_table_ok : bitmap_ok alpha_table = true.
Proof. vm_compute. reflexivity. Qed.
Lemma punct_table_ok : bitmap_ok punct_table = true.
Proof. vm_compute. reflexivity. Qed.

Definition is_ok {A} (o : outcome A) : bool := match o with Ok _ => true | _ => false end.

(** A block of 256 characters: its row of [tab] and its rules are inside the tables, and the
    search started by a rule that is no plain delta ends, for each of its characters. *)
Definition block_ok (b : Z) : bool :=
  match casemap_tab !! Z.to_nat b, rulebases !! Z.to_nat b with
  | Some t, Some base =>
      (0 <=? t) && (t * 86 + 85 <? Z.of_nat (length casemap_tab)) && (0 <=? base) &&
      (let row := take 86 (drop (Z.to_nat (t * 86)) casemap_tab) in
      let rules := take 6 (drop (Z.to_nat base) casemap_rules) in
      if forallb (λ r, Z.land r 255 <? 2) rules && (6 <=? Z.of_nat (length rules)) then true else
      forallb (λ c,
        match row !! Z.to_nat (c `div` 3), mt !! Z.to_nat (c `mod` 3) with
        | Some v, Some m =>
            match rules !! Z.to_nat (Z.shiftr (v * m) 11 `mod` 6) with
            | Some r =>
                let rd := Z.shiftr r 8 in
                if Z.land r 255 <? 2 then true else
                forallb (λ dir, is_ok (search_exceptions c (b * 256 + c) dir (Z.shiftr (u32 rd) 8) (Z.land rd 0xff))) [0; 1]
            | None => false
            end
        | _, _ => false
        end) (seqZ 0 256))
  | _, _ => false
  end.

Lemma blocks_ok : forallb block_ok (seqZ 0 512) = true.
Proof. vm_compute. reflexivity. Qed.

Lemma casemap_block b c dir : block_ok b = true → 0 ≤ b < 512 → 0 ≤ c < 256 → dir = 0 ∨ dir = 1 →
  is_ok (casemap (b * 256 + c) dir) = true.
Proof.
  intros Hok Hb Hc Hdir. unfold casemap. replace (0x20000 <=? b * 256 + c) with false by lia. cbv zeta.
  assert (Z.land (b * 256 + c) 255 = c ∧ Z.shiftr (b * 256 + c) 8 = b) as [-> ->].
  { change 255 with (Z.ones 8). rewrite Z.land_ones, Z.shiftr_div_pow2 by lia. change (2 ^ 8) with 256. dlia. }
  unfold block_ok in Hok. destruct (casemap_tab !! Z.to_nat b) as [t|] eqn:Et; [|done].
  destruct (rulebases !! Z.to_nat b) as [base|] eqn:Ebase; [|done]. cbv zeta in Hok.
  apply andb_true_iff in Hok as [[[Ht0 Ht]%andb_true_iff Hbase]%andb_true_iff Hok]. zbool.
  rewrite (arr_get_lookup casemap_tab b t ltac:(lia) Et), Ok_bind.
  assert (0 ≤ c `div` 3 < 86 ∧ 0 ≤ c `mod` 3 < 3) as [Hx Hy] by dlia.
  destruct (lookup_lt_is_Some_2 casemap_tab (Z.to_nat (t * 86 + c `div` 3))) as [v Hv]; [lia|].
  destruct (lookup_lt_is_Some_2 mt (Z.to_nat (c `mod` 3))) as [m Hm]; [simpl; lia|].
  rewrite (arr_get_lookup casemap_tab (t * 86 + c `div` 3) v ltac:(lia) Hv), Ok_bind.
  rewrite (arr_get_lookup mt (c `mod` 3) m ltac:(lia) Hm), Ok_bind.
  rewrite (arr_get_lookup rulebases b base ltac:(lia) Ebase), Ok_bind.
  set (v' := Z.shiftr (v * m) 11 `mod` 6) in *. assert (0 ≤ v' < 6) as Hv' by (apply Z.mod_pos_bound; lia).
  assert (take 86 (drop (Z.to_nat (t * 86)) casemap_tab) !! Z.to_nat (c `div` 3) = Some v) as Hrow.
  { rewrite lookup_take_lt, lookup_drop by lia. rewrite <-Hv. f_equal. lia. }
  assert (∀ r, take 6 (drop (Z.to_nat base) casemap_rules) !! Z.to_nat v' = Some r →
    arr_get casemap_rules (base + v') = Ok r) as Hrule.
  { intros r Hr. rewrite lookup_take_lt, lookup_drop in Hr by lia. apply arr_get_lookup; [lia|].
    rewrite <-Hr. f_equal. lia. }
  set (rules := take 6 (drop (Z.to_nat base) casemap_rules)) in *.
  destruct (forallb (λ r, Z.land r 255 <? 2) rules && (6 <=? Z.of_nat (length rules))) eqn:Eall.
  - apply andb_true_iff in Eall as [Hall Hlen]. zbool.
    destruct (lookup_lt_is_Some_2 rules (Z.to_nat v')) as [r Hr]; [lia|]. rewrite (Hrule r Hr), Ok_bind.
    rewrite forallb_forall in Hall. specialize (Hall r). rewrite <-list_elem_of_In in Hall.
    rewrite Hall; [done|]. by eapply list_elem_of_lookup_2.
  - rewrite forallb_forall in Hok. specialize (Hok c). rewrite <-list_elem_of_In, elem_of_seqZ in Hok.
    specialize (Hok ltac:(lia)). rewrite Hrow, Hm in Hok. fold v' in Hok.
    destruct (rules !! Z.to_nat v') as [r|] eqn:Er; [|done]. rewrite (Hrule r eq_refl), Ok_bind.
    destruct (Z.land r 255 <? 2); [done|]. simpl in Hok. zbool. by destruct Hdir as [-> | ->].
Qed.

Lemma iswspace_total wc : ∃ r, iswspace wc = Ok r.
Proof.
  unfold iswspace. destruct (wc =? 0) eqn:E; [eauto|]. unfold wcschr. rewrite E.
  assert (∃ o, (s ← c_while (length spaces) (λ s, x ← arr_get spaces s;
      Ok (if negb (x =? 0) && negb (x =? wc) then inl (s + 1) else inr s)) 0;
    x ← arr_get spaces s; Ok (if negb (x =? 0) then Some s else None)) = Ok o) as [o ->]; [|rewrite Ok_bind; unfold b2i; eauto].
  match goal with |- ∃ o, ?e = Ok o => destruct (wp_total_1 e (λ _, True)) as (o & Ho & _); [|by exists o] end.
  apply wp_bind. eapply wp_mono; [apply (wp_while False (λ s, Z.to_nat (21 - s)) (λ s, 0 ≤ s ≤ 21) (λ s, 0 ≤ s ≤ 21));
    [lia|simpl; lia|]|].
  - intros s Hs. destruct (arr_get_in_range spaces s) as (x & Hx & ->); [simpl; lia|]. rewrite Ok_bind. simpl.
    destruct (decide (s = 21)) as [->|]; [injection Hx as <-; simpl; lia|].
    destruct (negb (x =? 0) && negb (x =? wc)); simpl; lia.
  - intros s Hs. cbv beta in Hs. destruct (arr_get_in_range spaces s) as (x & _ & ->); [simpl; lia|]. rewrite Ok_bind.
    done.
Qed.

Lemma iswblank_total wc : ∃ r, iswblank wc = Ok r.
Proof.
  unfold iswblank. match goal with |- ∃ o, ?e = Ok o => destruct (wp_total_1 e (λ _, True)) as (o & Ho & _); [|by exists o] end.
  apply wp_bind. eapply wp_mono; [apply (wp_for False (λ _ _, True) (λ _, True)); [simpl; lia|done|]|].
  - intros j [] Hj _. destruct (arr_get_in_range blank_values j) as (x & _ & ->); [simpl in *; lia|]. rewrite Ok_bind.
    simpl. by destruct (wc =? x).
  - by intros [s|r] _.
Qed.

(** Case mapping always ends, inside its tables: towlower and towupper, and with them every character
    class of the library, return a value for every 32-bit character.  (The binary search makes no progress on a
    range of one entry below the character searched for: that the tables never lead there is checked
    here, block by block.) *)
Theorem wide_classes_total wc c : 0 ≤ wc < 2 ^ 32 →
  (∃ l, towlower wc = Ok l) ∧ (∃ u, towupper wc = Ok u) ∧ ∃ r, class_function c wc = Ok r.
Proof.
  intros Hwc.
  assert (∀ dir, dir = 0 ∨ dir = 1 → ∃ r, casemap wc dir = Ok r) as Hmap.
  { intros dir Hdir. destruct (decide (0x20000 ≤ wc)) as [Hge|Hlt].
    - unfold casemap. replace (0x20000 <=? wc) with true by lia. eauto.
    - assert (is_ok (casemap (wc `div` 256 * 256 + wc `mod` 256) dir) = true) as H.
      { apply casemap_block; [|dlia|dlia|done]. pose proof blocks_ok as Hb. rewrite forallb_forall in Hb. apply Hb.
        rewrite <-list_elem_of_In, elem_of_seqZ. dlia. }
      replace (wc `div` 256 * 256 + wc `mod` 256) with wc in H by dlia. destruct (casemap wc dir); try done. eauto. }
  destruct (Hmap 0) as [l Hl]; [by left|]. destruct (Hmap 1) as [u Hu]; [by right|].
  split; [by exists l|]. split; [by exists u|].
  destruct (iswspace_total wc) as [s Hs].
  assert (∃ r, iswalpha wc = Ok r) as [a Ha].
  { unfold iswalpha. case_if; [|case_if; eauto].
    destruct (bitmap_bit_total alpha_table wc alpha_table_ok) as (x & -> & _); [lia|eauto]. }
  assert (∃ r, iswprint wc = Ok r) as [p Hp] by (unfold iswprint, b2i; repeat case_if; eauto).
  destruct c; simpl; unfold iswalnum, iswcntrl, iswdigit, iswgraph, iswlower, iswupper, iswxdigit, towlower, towupper, b2i;
    rewrite ?Hs, ?Ha, ?Hp, ?Hl, ?Hu, ?Ok_bind; eauto using iswblank_total.
  - case_if; eauto.
  - case_if; eauto.
  - unfold iswpunct. case_if; [|eauto].
    destruct (bitmap_bit_total punct_table wc punct_table_ok) as (x & -> & _); [lia|eauto].
Qed.

(** The C library's two families of classes agree on ASCII. *)
Definition ctype_class (c : wclass) : Z → bool :=
  match c with
  | Walnum => isalnum | Walpha => isalpha | Wblank => isblank | Wcntrl => iscntrl | Wdigit => isdigit
  | Wgraph => isgraph | Wlower => islower | Wprint => isprint | Wpunct => ispunct | Wspace => isspace
  | Wupper => isupper | Wxdigit => isxdigit
  end.

(** On ASCII the table-driven wide classes are the plain ones: for each of the twelve classes
    and each character below 128 the wide function returns 1 or 0 as the function of ctype.c holds or not, and
    towlower and towupper are tolower and its converse on letters. *)
Theorem ascii_classes_agree cls c : 0 ≤ c < 128 →
  class_function cls c = Ok (Z.b2z (ctype_class cls c)) ∧ towlower c = Ok (tolower c) ∧
  towupper c = Ok (if islower c then c - 32 else c).
Proof.
  intros Hc.
  assert (forallb (λ c, forallb (λ cls, match class_function cls c with Ok r => r =? Z.b2z (ctype_class cls c) | _ => false end)
      [Walnum; Walpha; Wblank; Wcntrl; Wdigit; Wgraph; Wlower; Wprint; Wpunct; Wspace; Wupper; Wxdigit] &&
    match towlower c with Ok r => r =? tolower c | _ => false end &&
    match towupper c with Ok r => r =? (if islower c then c - 32 else c) | _ => false end) (seqZ 0 128) = true) as H
    by (vm_compute; reflexivity).
  rewrite forallb_forall in H. specialize (H c). rewrite <-list_elem_of_In, elem_of_seqZ in H. specialize (H ltac:(lia)).
  apply andb_true_iff in H as [[Hcls Hlow]%andb_true_iff Hup]. rewrite forallb_forall in Hcls.
  specialize (Hcls cls ltac:(destruct cls; simpl; tauto)).
  destruct (class_function cls c), (towlower c), (towupper c); try discriminate; zbool. by subst.
Qed.

(** ** Examples: the conversions at work on small strings *)
(** The euro sign, three bytes, between two others. *)
Lemma utf8_roundtrip_witness : ∃ st',
  mbrtowc true (Some ([65] ++ utf8_encode 0x20AC ++ [66])) 1 3 mb_initial 0 = Ok (converted true 0x20AC 3 st' 0).
Proof.
  destruct (utf8_roundtrip true [65] 0x20AC [66] 3 mb_initial 0) as (st' & E & _); [lia|reflexivity|vm_compute; discriminate|].
  exists st'. exact E.
Defined.

Lemma utf8_sound_witness : ∃ r,
  mbrtowc true (Some [0xE2; 0x82; 0xAC]) 0 3 mb_initial 0 = Ok r ∧ mb_output r = Some 0x20AC ∧
  take 3 [0xE2; 0x82; 0xAC] = utf8_encode 0x20AC.
Proof.
  eexists. split; [vm_compute; reflexivity|]. split; [reflexivity|].
  eapply (utf8_sound [0xE2; 0x82; 0xAC] 0 3 mb_initial 0 _ 0x20AC).
  - repeat constructor; unfold Bytes.is_byte; lia.
  - reflexivity.
  - vm_compute. reflexivity.
  - reflexivity.
Defined.

Lemma mbsrtowcs_roundtrip_witness : ∃ st',
  mbsrtowcs 4 true ([1] ++ utf8_string [0x20AC; 65] ++ 0 :: [7]) 1 10 mb_initial 0 =
    Ok (MbsResult 2 ([0x20AC; 65] ++ [0]) SrcNull st' 0).
Proof.
  apply (mbsrtowcs_roundtrip 4 [1] [0x20AC; 65] [7] 10 mb_initial 0); [repeat constructor; lia|reflexivity|simpl; lia|simpl; lia].
Defined.

Lemma wide_classes_total_witness : ∃ l, towlower 0x1F88 = Ok l.
Proof. refine (proj1 (wide_classes_total 0x1F88 Walpha _)). lia. Defined.

Lemma ascii_classes_agree_witness : class_function Wpunct 33 = Ok 1.
Proof. refine (proj1 (ascii_classes_agree Wpunct 33 _)). lia. Defined.
