(* ===== verification/Qsort.v ===== *)
(** * Sorting: custom_libc/qsort.c

    The array is a list of elements; the [size] bytes of an element are moved together,
    so an element is a value. *)
From S2P Require Import Prelude Arrays.
From Stdlib Require Import Sorting.Sorted.

Section qsort.
Context {A : Type} (compar : A → A → Z).

(** [while (j > 0 && compar(arr + (j-1)*size, tmp) > 0)] *)
Definition shift_step (tmp : A) (s : Z * list A) : outcome ((Z * list A) + (Z * list A)) :=
  let '(j, arr) := s in
  if 0 <? j then
    x ← arr_get arr (j - 1);
    if 0 <? compar x tmp then arr ← arr_set arr j x; Ok (inl (j - 1, arr))
    else Ok (inr (j, arr))
  else Ok (inr (j, arr)).

Definition insert_element (i : Z) (arr : list A) : outcome (list A) :=
  tmp ← arr_get arr i;
  '(j, arr) ← c_while (S (Z.to_nat i)) (shift_step tmp) (i, arr);
  arr_set arr j tmp.

Definition qsort (nmemb : Z) (base : list A) : outcome (list A) := c_foreach 1 nmemb insert_element base.

(** ** Stable sorting *)

(** What a comparison function has to be. *)
Record comparison : Prop := {
  cmp_sym x y : 0 < compar x y ↔ compar y x < 0;
  cmp_trans x y z : compar x y ≤ 0 → compar y z ≤ 0 → compar x z ≤ 0
}.

Definition cmp_le (x y : A) : Prop := compar x y ≤ 0.
Definition cmp_eq (x y : A) : bool := compar x y =? 0.

(** [b] is [a] sorted: in order, the same elements, and equal ones as they were. *)
Definition stable_sort_of (a b : list A) : Prop :=
  StronglySorted cmp_le b ∧ b ≡ₚ a ∧ ∀ x, filter (cmp_eq x) b = filter (cmp_eq x) a.

Lemma shift_step_pos tmp j arr : 0 < j → shift_step tmp (j, arr) =
  (x ← arr_get arr (j - 1);
   if 0 <? compar x tmp then arr ← arr_set arr j x; Ok (inl (j - 1, arr)) else Ok (inr (j, arr))).
Proof. intros Hj. unfold shift_step. by rewrite (proj2 (Z.ltb_lt 0 j) Hj). Qed.

Lemma shift_loop tmp p rest : ∀ n j fuel hole,
  (j ≤ length p)%nat → n = (length p - j)%nat → (j < fuel)%nat →
  Forall (λ y, 0 < compar y tmp) (drop j p) →
  ∃ k hole', (k ≤ length p)%nat ∧
    c_while fuel (shift_step tmp) (Z.of_nat j, take j p ++ hole :: drop j p ++ rest) =
      Ok (Z.of_nat k, take k p ++ hole' :: drop k p ++ rest) ∧
    Forall (λ y, 0 < compar y tmp) (drop k p) ∧
    (k = 0%nat ∨ ∃ x, p !! (k - 1)%nat = Some x ∧ compar x tmp ≤ 0).
Proof.
  intros n j. revert n. induction j as [|j IH]; intros n fuel hole Hj Hn Hf Hgt; (destruct fuel as [|fuel]; [lia|]);
    cbn [c_while].
  - exists 0%nat, hole. split; [lia|]. split; [done|]. split; [done|by left].
  - rewrite shift_step_pos by lia.
    destruct (lookup_lt_is_Some_2 p j) as [x Hx]; [lia|].
    assert (arr_get (take (S j) p ++ hole :: drop (S j) p ++ rest) (Z.of_nat (S j) - 1) = Ok x) as ->.
    { apply arr_get_lookup; [lia|]. replace (Z.to_nat (Z.of_nat (S j) - 1)) with j by lia.
      rewrite lookup_app_l by (rewrite length_take; lia). rewrite lookup_take_lt by lia. done. }
    rewrite Ok_bind. destruct (0 <? compar x tmp) eqn:Ec; zbool.
    + rewrite arr_set_in_range by (rewrite !length_app, length_take; cbn [length]; lia). rewrite !Ok_bind.
      replace (<[Z.to_nat (Z.of_nat (S j)):=x]> (take (S j) p ++ hole :: drop (S j) p ++ rest))
        with (take j p ++ x :: drop j p ++ rest).
      2: { rewrite (drop_S _ _ _ Hx). erewrite take_S_r by done. rewrite <-app_assoc.
           rewrite insert_app_r_alt by (rewrite length_take; lia). rewrite length_take.
           replace (Z.to_nat (Z.of_nat (S j)) - (j `min` length p))%nat with 1%nat by lia. done. }
      replace (Z.of_nat (S j) - 1) with (Z.of_nat j) by lia.
      destruct (IH (length p - j)%nat fuel x) as (k & hole' & Hk & E & Hall & Hend); [lia|done|lia| |].
      { rewrite (drop_S _ _ _ Hx). by constructor. }
      exists k, hole'. split; [done|]. split; [exact E|]. by split.
    + rewrite Ok_bind. exists (S j), hole. split; [done|]. split; [done|]. split; [done|]. right. exists x.
      split; [by rewrite Nat.sub_succ, Nat.sub_0_r|done].
Qed.

Context (Hcmp : comparison).

Lemma cmp_le_total x y : cmp_le x y ∨ cmp_le y x.
Proof using Hcmp. unfold cmp_le. pose proof (cmp_sym Hcmp x y). lia. Qed.

Lemma sorted_app l k : StronglySorted cmp_le l → StronglySorted cmp_le k →
  (∀ x y, x ∈ l → y ∈ k → cmp_le x y) → StronglySorted cmp_le (l ++ k).
Proof.
  intros Hl Hk Hlk. induction Hl as [|x l Hl IH Hx]; [done|]. cbn [app]. constructor.
  - apply IH. intros a b Ha Hb. apply Hlk; [by right|done].
  - apply Forall_app. split; [done|]. apply Forall_forall. intros y Hy. apply Hlk; [left|done].
Qed.

Lemma sorted_take_drop k p : StronglySorted cmp_le p →
  StronglySorted cmp_le (take k p) ∧ StronglySorted cmp_le (drop k p) ∧ 
  ∀ x y, x ∈ take k p → y ∈ drop k p → cmp_le x y.
Proof.
  intros Hp. revert k. induction Hp as [|x p Hp IH Hx]; intros k; [destruct k; split_and!; (constructor || set_solver)|].
  destruct k as [|k]; cbn [take drop].
  - split_and!; [constructor|by constructor|set_solver].
  - destruct (IH k) as (H1 & H2 & H3). split_and!; [|done|].
    + constructor; [done|]. by apply Forall_take.
    + intros a b [->|Ha]%elem_of_cons Hb; [|by apply H3].
      rewrite Forall_forall in Hx. apply Hx. by eapply (subseteq_drop k).
Qed.

Lemma filter_nothing (P : A → Prop) `{∀ x, Decision (P x)} l : (∀ y, y ∈ l → ¬ P y) → filter P l = [].
Proof.
  induction l as [|y l IH]; intros Hl; [done|]. rewrite filter_cons, decide_False by (apply Hl; by left).
  apply IH. intros z Hz. apply Hl. by right.
Qed.

(** Inserting an element at its place keeps a list stably sorted. *)
Lemma insert_sorted_at k p tmp a :
  stable_sort_of a p → (k ≤ length p)%nat → Forall (λ y, 0 < compar y tmp) (drop k p) →
  (k = 0%nat ∨ ∃ x, p !! (k - 1)%nat = Some x ∧ compar x tmp ≤ 0) →
  stable_sort_of (a ++ [tmp]) (take k p ++ tmp :: drop k p).
Proof using Hcmp.
  intros (Hs & Hperm & Hst) Hk Hgt Hend. destruct (sorted_take_drop k p Hs) as (H1 & H2 & H3).
  assert (∀ y, y ∈ drop k p → cmp_le tmp y) as Htmp.
  { intros y Hy. rewrite Forall_forall in Hgt. specialize (Hgt y Hy). apply (cmp_sym Hcmp) in Hgt. unfold cmp_le. lia. }
  assert (∀ x, x ∈ take k p → cmp_le x tmp) as Hpre.
  { intros x Hx. destruct Hend as [->|(z & Hz & Hle)]; [by apply not_elem_of_nil in Hx|].
    destruct k as [|k]; [by apply not_elem_of_nil in Hx|]. cbn in Hz. rewrite Nat.sub_0_r in Hz.
    erewrite take_S_r in Hx by done. apply elem_of_app in Hx as [Hx|Hx%list_elem_of_singleton]; [|by subst].
    apply (cmp_trans Hcmp x z tmp); [|done]. destruct (sorted_take_drop k p Hs) as (_ & _ & H). apply H; [done|].
    rewrite (drop_S _ _ _ Hz). by left. }
  split; [|split].
  - apply sorted_app; [done| |].
    + constructor; [done|]. by apply Forall_forall.
    + intros x y Hx [->|Hy]%elem_of_cons; [by apply Hpre|by apply H3].
  - rewrite <-Permutation_middle, take_drop, Hperm. apply Permutation_cons_append.
  - intros x. rewrite filter_app, filter_cons, (filter_app _ a), <-Hst. 
    assert (cmp_eq x tmp → filter (cmp_eq x) (drop k p) = []) as Hnone.
    { intros Ex. apply filter_nothing. intros y Hy Ey. unfold cmp_eq in *.
      rewrite Forall_forall in Hgt. specialize (Hgt y Hy). apply Is_true_true, Z.eqb_eq in Ex, Ey.
      pose proof (cmp_sym Hcmp x y). pose proof (cmp_sym Hcmp y x). pose proof (cmp_trans Hcmp y x tmp). lia. }
    rewrite <-(take_drop k p) at 2. rewrite (filter_app _ (take k p) (drop k p)), (filter_cons _ tmp []), filter_nil.
    case_decide as Ex; [rewrite Hnone by done|]; by rewrite !app_nil_r.
Qed.

Lemma insert_element_spec a p tmp rest : stable_sort_of a p →
  ∃ p', insert_element (Z.of_nat (length p)) (p ++ tmp :: rest) = Ok (p' ++ rest) ∧ stable_sort_of (a ++ [tmp]) p'.
Proof using Hcmp.
  intros Hp. unfold insert_element. rewrite (arr_get_lookup _ _ tmp).
  2: lia.
  2: { rewrite Nat2Z.id. apply list_lookup_middle. done. }
  rewrite Ok_bind, Nat2Z.id.
  destruct (shift_loop tmp p rest 0 (length p) (S (length p)) tmp) as (k & hole & Hk & E & Hgt & Hend); try lia.
  { by rewrite drop_all. }
  rewrite firstn_all, drop_all in E. cbn [app] in E. rewrite E, Ok_bind. cbv beta iota.
  rewrite arr_set_in_range by (rewrite length_app, length_take; cbn [length]; lia).
  exists (take k p ++ tmp :: drop k p). split; [|by apply insert_sorted_at].
  rewrite Nat2Z.id, insert_app_r_alt by (rewrite length_take; lia). rewrite length_take.
  replace (k - k `min` length p)%nat with 0%nat by lia. cbn. by rewrite <-app_assoc.
Qed.

(** C17: [qsort] always returns, and the array then holds the same elements in the order of
    [compar], those that compare equal in the order they had. *)
Theorem qsort_stable_sort base : ∃ b, qsort (Z.of_nat (length base)) base = Ok b ∧ stable_sort_of base b.
Proof using Hcmp.
  unfold qsort. destruct base as [|x base].
  { exists []. split; [done|]. repeat split; constructor. }
  apply wp_total_1. set (l := x :: base). eapply wp_mono.
  - apply (wp_foreach False (λ j r, ∃ p, r = p ++ drop (Z.to_nat j) l ∧ stable_sort_of (take (Z.to_nat j) l) p)).
    + cbn [length l]. lia.
    + exists [x]. split; [done|]. repeat split; repeat constructor.
    + intros j r Hj (p & -> & Hp).
      assert (length p = Z.to_nat j) as Ep.
      { destruct Hp as (_ & Hperm & _). rewrite Hperm, length_take. lia. }
      destruct (lookup_lt_is_Some_2 l (Z.to_nat j)) as [y Hy]; [lia|].
      destruct (insert_element_spec _ p y (drop (S (Z.to_nat j)) l) Hp) as (p' & E & Hp').
      rewrite (drop_S _ _ _ Hy). replace j with (Z.of_nat (length p)) at 1 by lia. rewrite E.
      exists p'. replace (Z.to_nat (j + 1)) with (S (Z.to_nat j)) by lia. split; [done|]. by erewrite take_S_r.
  - intros r (p & -> & Hp). rewrite Nat2Z.id, drop_all in *. rewrite firstn_all in Hp. by rewrite app_nil_r.
Qed.
End qsort.

(** Pairs sorted by their first component. *)
Definition by_key (x y : Z * Z) : Z := x.1 - y.1.

Example qsort_stable_sort_witness : ∃ b, qsort by_key 4 [(3, 0); (1, 0); (3, 1); (2, 0)] = Ok b ∧
  stable_sort_of by_key [(3, 0); (1, 0); (3, 1); (2, 0)] b.
Proof. apply (qsort_stable_sort by_key) with (base := [(3, 0); (1, 0); (3, 1); (2, 0)]). split; unfold by_key; intros; lia. Defined.

Example qsort_run : qsort by_key 4 [(3, 0); (1, 0); (3, 1); (2, 0)] = Ok [(1, 0); (2, 0); (3, 0); (3, 1)].
Proof. vm_compute. reflexivity. Qed.
