(* ===== verification/Strtol.v ===== *)
(** * Integer parsing: custom_libc/strtol.c

    A string is read from the byte memory.  The parameter [endptr] is [None] for a null pointer and
    otherwise [Some v], a cell that holds [v]; the functions return the cell as they leave
    it, and [errno] likewise. *)
From S2P Require Import Prelude Memory CString Ctype.

(** uapi/limits.h *)
Definition LONG_MAX : Z := 9223372036854775807.
Definition LONG_MIN : Z := -9223372036854775807 - 1.
Definition ULONG_MAX : Z := 18446744073709551615.

(** uapi/errno.h *)
Definition ERANGE : Z := 34.
Definition EINVAL : Z := 22.

Definition digit_value (c : Z) : Z :=
  let c := s8 (tolower c) in
  if (48 <=? c) && (c <=? 57) then c - 48
  else if (97 <=? c) && (c <=? 122) then c - 97 + 10
  else -1.

Record StrToResult : Type := Strto { overflow : bool; sign : bool; magnitude : Z }.

Section strto.
Context {M : Type} `{!ByteMemory M}.
Implicit Types (m : M) (r : StrToResult) (s ds rest : list Z).

Definition skip_spaces (fuel : nat) (current : Z) m : outcome Z :=
  c_while fuel (λ current, c ← load_char m current; Ok (if isspace c then inl (current + 1) else inr current)) current.

(** The [switch] on the sign. *)
Definition take_sign (current : Z) m : outcome (bool * Z) :=
  c ← load_char m current;
  Ok (if c =? 43 then (false, current + 1) else if c =? 45 then (true, current + 1) else (false, current)).

(** [if(base == 0)] *)
Definition default_base (base current : Z) m : outcome (Z * Z) :=
  if base =? 0 then
    c ← load_char m current;
    if c =? 48 then
      x ← load_char m (current + 1);
      Ok (if tolower x =? 120 then (16, current + 2) else (8, current))
    else Ok (10, current)
  else Ok (base, current).

Definition digit_step (base : Z) m (st : Z * StrToResult) : outcome ((Z * StrToResult) + (Z * StrToResult)) :=
  let '(current, r) := st in
  c ← load_char m current;
  if c =? 0 then Ok (inr (current, r))
  else
    let d := digit_value c in
    let current := current + 1 in
    if (d <? 0) || (base <=? d) then Ok (inr (current, r))
    else if overflow r then Ok (inl (current, r))
    else if (ULONG_MAX - d) / base <? magnitude r then Ok (inl (current, Strto true (sign r) (magnitude r)))
    else Ok (inl (current, Strto (overflow r) (sign r) (u64 (magnitude r * base + d)))).

(** [strto]: the result and the value for [*endptr]. *)
Definition strto (fuel : nat) (nptr base : Z) m : outcome (StrToResult * Z) :=
  current ← skip_spaces fuel nptr m;
  '(neg, current) ← take_sign current m;
  '(base, current) ← default_base base current m;
  let current_checkpoint := current in
  '(current, r) ← c_while fuel (digit_step base m) (current, Strto false neg 0);
  if current =? current_checkpoint then Ok (r, nptr) else Ok (r, current).

Definition strtol (fuel : nat) (nptr : Z) (endptr : option Z) (base errno : Z) m : outcome (Z * option Z * Z) :=
  if 36 <? base then Ok (0, endptr, EINVAL)
  else
    '(r, e) ← strto fuel nptr base m;
    let endptr := (λ _, e) <$> endptr in
    Ok (if sign r then
          if (u64 (LONG_MAX + 1) <? magnitude r) || overflow r then (LONG_MIN, endptr, ERANGE)
          else (s64 (u64 (- magnitude r)), endptr, errno)
        else
          if (LONG_MAX <? magnitude r) || overflow r then (LONG_MAX, endptr, ERANGE)
          else (s64 (magnitude r), endptr, errno)).

Definition strtoll := strtol.

Definition strtoul (fuel : nat) (nptr : Z) (endptr : option Z) (base errno : Z) m : outcome (Z * option Z * Z) :=
  if 36 <? base then Ok (0, endptr, EINVAL)
  else
    '(r, e) ← strto fuel nptr base m;
    let endptr := (λ _, e) <$> endptr in
    Ok (if sign r then
          if overflow r then (ULONG_MAX, endptr, ERANGE) else (u64 (- magnitude r), endptr, errno)
        else
          if overflow r then (ULONG_MAX, endptr, ERANGE) else (magnitude r, endptr, errno)).

Definition strtoull := strtoul.

(** [atoi] of stdlib.c *)
Definition atoi (fuel : nat) (nptr errno : Z) m : outcome (Z * Z) :=
  '(v, _, errno) ← strtol fuel nptr None 10 errno m; Ok (s32 v, errno).

(** ** Reference: the text of an integer *)
Definition is_digit (base c : Z) : Prop := 0 ≤ digit_value (s8 c) < base.

Definition number (base : Z) ds : Z := foldl (λ n c, n * base + digit_value (s8 c)) 0 ds.

(** The text [s] starts with what the digits [s'] in the base [base'] are announced by. *)
Inductive announces (base : Z) : list Z → list Z → Z → Prop :=
  | base_given s : base ≠ 0 → announces base s s base
  | hexadecimal x s : base = 0 → x = 120 ∨ x = 88 → announces base (48 :: x :: s) s 16
  | octal s : base = 0 → head s ≠ Some 120 → head s ≠ Some 88 → announces base (48 :: s) (48 :: s) 8
  | decimal s : base = 0 → head s ≠ Some 48 → announces base s s 10.

(** The characters a conversion consumes once its digits have ended: the end of the string, or the
    first character that is not a digit. *)
Definition stops (base : Z) rest : Prop := ∀ c, head rest = Some c → ¬ is_digit base c.
Definition overrun rest : Z := match rest with [] => 0 | _ :: _ => 1 end.

(** The text [s] of an integer: white space, an optional sign, a base prefix, digits and the rest. *)

Inductive sign_text : list Z → bool → Prop :=
  | no_sign : sign_text [] false
  | plus : sign_text [43] false
  | minus : sign_text [45] true.

(** The text [s] of an integer: white space, an optional sign, a base prefix, digits and the rest. *)
Inductive integer_text (base : Z) : list Z → bool → Z → list Z → list Z → Prop :=
  | integer_text_intro ws sg text neg base' ds rest :
      Forall (λ c, isspace (s8 c) = true) ws → sign_text sg neg → announces base text (ds ++ rest) base' →
      Forall (is_digit base') ds → ds ≠ [] → stops base' rest →
      integer_text base (ws ++ sg ++ text) neg base' ds rest.

Definition value (neg : bool) (n : Z) : Z := if neg then - n else n.

(** ** Characters *)
Lemma s8_high c : 128 ≤ c < 256 → s8 c = c - 256.
Proof.
  intros Hc. unfold signed. change (2 ^ (8 - 1)) with 128. change (2 ^ 8) with 256.
  rewrite <-(Z_mod_plus_full _ (-1)), Z.mod_small; lia.
Qed.

Lemma s8_nonzero c : 0 < c < 256 → s8 c ≠ 0.
Proof. intros Hc. destruct (decide (c < 128)); [rewrite signed_small|rewrite s8_high]; lia. Qed.

Lemma digit_char base c : base ≤ 36 → 0 < c < 256 → is_digit base c →
  (48 ≤ c ≤ 57 ∨ 65 ≤ c ≤ 90 ∨ 97 ≤ c ≤ 122) ∧ s8 c = c.
Proof.
  unfold is_digit, digit_value, tolower. intros Hb Hc Hd. revert Hd. destruct (decide (c < 128)).
  - rewrite (signed_small 8 c), (wrap_small 8 c) by lia.
    destruct ((65 <=? c) && (c <=? 90)) eqn:E; zbool; rewrite signed_small by lia; repeat case_if; zbool; lia.
  - rewrite (s8_high c) by lia. replace (u8 (c - 256)) with c by (unfold wrap; rewrite <-(Z_mod_plus_full _ 1), Z.mod_small; lia).
    replace ((65 <=? c) && (c <=? 90)) with false by lia. rewrite signed_small by lia. repeat case_if; zbool; lia.
Qed.

Lemma not_space_digit base c : base ≤ 36 → 0 < c < 256 → is_digit base c →
  isspace (s8 c) = false ∧ s8 c ≠ 43 ∧ s8 c ≠ 45 ∧ s8 c ≠ 0.
Proof. intros Hb Hc Hd. destruct (digit_char base c Hb Hc Hd) as [H ->]. unfold isspace. lia. Qed.

Lemma load_char_cons m p c s : cstring m p (c :: s) → load_char m p = Ok (s8 c).
Proof. intros [Hc _]%cstring_cons. by apply load_char_Some. Qed.

Lemma load_char_nil m p : cstring m p [] → load_char m p = Ok 0.
Proof. intros [Hc _]. by rewrite (load_char_Some _ _ 0) by (apply bytes_at_cons in Hc; tauto). Qed.

(** ** The loop over the digits *)

(** [r] holds the number [n], or that it is too large. *)
Definition tracks r (n : Z) : Prop :=
  0 ≤ n ∧ overflow r = (ULONG_MAX <? n) ∧ (n ≤ ULONG_MAX → magnitude r = n).

Lemma tracks_digit base r n d : 0 ≤ d < base → base ≤ 36 → tracks r n →
  ∃ r', (if overflow r then r else
         if (ULONG_MAX - d) / base <? magnitude r then Strto true (sign r) (magnitude r)
         else Strto (overflow r) (sign r) (u64 (magnitude r * base + d))) = r' ∧
        sign r' = sign r ∧ tracks r' (n * base + d).
Proof.
  intros Hd Hb (Hn & Ho & Hm). unfold tracks. rewrite Ho in *. destruct (Z.ltb_spec ULONG_MAX n) as [Hu|Hu].
  - exists r. split; [done|]. split; [done|]. split; [nia|]. split; [|nia]. rewrite Ho. symmetry. apply Z.ltb_lt. nia.
  - rewrite (Hm Hu). destruct (Z.ltb_spec ((ULONG_MAX - d) / base) n) as [Hq|Hq]; eexists; (split; [done|]); (split; [done|]); cbn [overflow magnitude].
    + assert (ULONG_MAX - d < n * base).
      { pose proof (Z.mod_pos_bound (ULONG_MAX - d) base). pose proof (Z.div_mod (ULONG_MAX - d) base). nia. }
      split; [nia|]. split; [symmetry; apply Z.ltb_lt; lia|lia].
    + assert (n * base ≤ ULONG_MAX - d).
      { pose proof (Z.mod_pos_bound (ULONG_MAX - d) base). pose proof (Z.div_mod (ULONG_MAX - d) base). nia. }
      split; [nia|]. split; [symmetry; apply Z.ltb_ge; lia|]. intros _. apply wrap_small. unfold ULONG_MAX in *. nia.
Qed.

Lemma digit_step_digit base m p c r n s :
  base ≤ 36 → cstring m p (c :: s) → is_digit base c → tracks r n →
  ∃ r', digit_step base m (p, r) = Ok (inl (p + 1, r')) ∧ sign r' = sign r ∧
        tracks r' (n * base + digit_value (s8 c)).
Proof.
  intros Hb Hc Hd Hr. pose proof Hc as (_ & Hc' & _)%cstring_cons.
  destruct (tracks_digit base r n (digit_value (s8 c)) Hd Hb Hr) as (r' & E & Hs & Ht).
  exists r'. split; [|by split]. unfold digit_step. rewrite (load_char_cons _ _ _ _ Hc), Ok_bind.
  pose proof (s8_nonzero c Hc'). replace (s8 c =? 0) with false by lia. unfold is_digit in Hd.
  replace ((digit_value (s8 c) <? 0) || (base <=? digit_value (s8 c))) with false by lia.
  rewrite <-E. destruct (overflow r); [done|]. by destruct (_ <? magnitude r).
Qed.

Lemma digit_step_stop base m p r rest :
  cstring m p rest → stops base rest → digit_step base m (p, r) = Ok (inr (p + overrun rest, r)).
Proof.
  intros Hc Hs. unfold digit_step. destruct rest as [|c rest].
  - rewrite load_char_nil by done. cbn. by rewrite Z.add_0_r.
  - rewrite (load_char_cons _ _ _ _ Hc), Ok_bind. specialize (Hs c eq_refl). unfold is_digit in Hs.
    apply cstring_cons in Hc as (_ & Hc & _). pose proof (s8_nonzero c Hc). replace (s8 c =? 0) with false by lia.
    by replace ((digit_value (s8 c) <? 0) || (base <=? digit_value (s8 c))) with true by lia.
Qed.

Lemma digits_loop base m rest : base ≤ 36 → stops base rest → ∀ ds p r n fuel,
  cstring m p (ds ++ rest) → Forall (is_digit base) ds → tracks r n → (length ds < fuel)%nat →
  ∃ r', c_while fuel (digit_step base m) (p, r) = Ok (p + Z.of_nat (length ds) + overrun rest, r') ∧
    sign r' = sign r ∧ tracks r' (foldl (λ n c, n * base + digit_value (s8 c)) n ds).
Proof.
  intros Hb Hstop ds. induction ds as [|c ds IH]; intros p r n fuel Hc Hds Hr Hf; (destruct fuel as [|fuel]; [lia|]).
  - exists r. cbn [c_while length foldl app] in *. rewrite (digit_step_stop base m p r rest Hc Hstop), Ok_bind.
    by rewrite Z.add_0_r.
  - apply Forall_cons in Hds as [Hd Hds]. cbn [app length] in *.
    destruct (digit_step_digit base m p c r n _ Hb Hc Hd Hr) as (r1 & E & Hs & Ht).
    cbn [c_while]. rewrite E, Ok_bind. apply cstring_cons in Hc as (_ & _ & Hc).
    destruct (IH (p + 1) r1 _ fuel Hc Hds Ht ltac:(lia)) as (r' & E' & Hs' & Ht').
    exists r'. rewrite E'. split; [do 3 f_equal; lia|]. split; [congruence|done].
Qed.

(** ** White space, sign and base *)
Lemma skip_spaces_spec m text : (∀ c, head text = Some c → isspace (s8 c) = false) → ∀ ws p fuel,
  cstring m p (ws ++ text) → Forall (λ c, isspace (s8 c) = true) ws → (length ws < fuel)%nat →
  skip_spaces fuel p m = Ok (p + Z.of_nat (length ws)).
Proof.
  intros Ht ws. unfold skip_spaces. induction ws as [|c ws IH]; intros p fuel Hc Hws Hf; (destruct fuel as [|fuel]; [lia|]);
    cbn [c_while app length] in *.
  - rewrite Z.add_0_r. destruct text as [|c text]; [by rewrite load_char_nil|].
    rewrite (load_char_cons _ _ _ _ Hc), Ok_bind. by rewrite Ht.
  - apply Forall_cons in Hws as [Hw Hws]. rewrite (load_char_cons _ _ _ _ Hc), Ok_bind, Hw, Ok_bind.
    apply cstring_cons in Hc as (_ & _ & Hc). rewrite IH by (done || lia). f_equal. lia.
Qed.

Definition starts_number base text : Prop :=
  match text with c :: _ => is_digit base c | [] => False end.

(** A text that announces a number starts with a digit, so with neither white space nor a sign. *)
Lemma announces_head base base' text s : announces base text s base' → starts_number base' s → starts_number base' text.
Proof.
  by intros [].
Qed.

Lemma announces_length base base' text s : announces base text s base' → (length s ≤ length text)%nat.
Proof. intros []; cbn [length]; lia. Qed.

Lemma take_sign_spec m p sg text neg base : sign_text sg neg → base ≤ 36 → starts_number base text →
  cstring m p (sg ++ text) → take_sign p m = Ok (neg, p + Z.of_nat (length sg)).
Proof.
  intros Hsg Hb Hs Hc. unfold take_sign. destruct Hsg; cbn [app length] in *.
  - destruct text as [|c text]; [done|]. rewrite (load_char_cons _ _ _ _ Hc), Ok_bind.
    apply cstring_cons in Hc as (_ & Hc & _). destruct (not_space_digit base c Hb Hc Hs) as (_ & H1 & H2 & _).
    replace (s8 c =? 43) with false by lia. replace (s8 c =? 45) with false by lia. by rewrite Z.add_0_r.
  - by rewrite (load_char_cons _ _ _ _ Hc).
  - by rewrite (load_char_cons _ _ _ _ Hc).
Qed.

Lemma s8_ascii c k : 0 < c < 256 → 0 < k < 128 → s8 c = k → c = k.
Proof. intros Hc Hk. destruct (decide (c < 128)); [rewrite signed_small|rewrite s8_high]; lia. Qed.

Lemma tolower_x c : 0 < c < 256 → tolower (s8 c) = 120 → c = 120 ∨ c = 88.
Proof.
  intros Hc. unfold tolower. replace (u8 (s8 c)) with c; [case_if; intros E; [lia|apply s8_ascii in E; lia]|].
  symmetry. destruct (decide (c < 128)); [rewrite signed_small by lia; apply wrap_small; lia|rewrite s8_high by lia].
  unfold wrap. rewrite <-(Z_mod_plus_full _ 1), Z.mod_small; lia.
Qed.

Lemma default_base_spec m p base base' text s : announces base text s base' → s ≠ [] → cstring m p text →
  ∃ q, default_base base p m = Ok (base', q) ∧ q = p + Z.of_nat (length text) - Z.of_nat (length s) ∧ cstring m q s.
Proof.
  intros Ha Hne Hc. unfold default_base. destruct Ha as [s Hb|x s -> Hx|s -> H1 H2|s -> H1].
  - exists p. replace (base =? 0) with false by lia. split; [done|]. split; [lia|done].
  - exists (p + 2). rewrite (load_char_cons _ _ _ _ Hc). apply cstring_cons in Hc as (_ & _ & Hc).
    cbn [Z.eqb]. rewrite Z.eqb_refl, Ok_bind. change (s8 48 =? 48) with true. cbv beta iota.
    rewrite (load_char_cons _ _ _ _ Hc), Ok_bind. apply cstring_cons in Hc as (_ & _ & Hc).
    replace (tolower (s8 x) =? 120) with true by (by destruct Hx as [-> | ->]).
    split; [done|]. cbn [length]. split; [lia|]. by replace (p + 2) with (p + 1 + 1) by lia.
  - exists p. rewrite (load_char_cons _ _ _ _ Hc), Z.eqb_refl, Ok_bind. change (s8 48 =? 48) with true. cbv beta iota.
    pose proof Hc as (_ & _ & Hc')%cstring_cons.
    assert (∃ v, load_char m (p + 1) = Ok v ∧ (tolower v =? 120) = false) as (v & -> & E).
    { destruct s as [|x s]; [by exists 0; rewrite load_char_nil|]. exists (s8 x). split; [by eapply load_char_cons|].
      apply cstring_cons in Hc' as (_ & Hx & _). apply Z.eqb_neq. intros [-> | ->]%tolower_x; [|done..|done]; by simpl in *. }
    rewrite Ok_bind, E. split; [done|]. split; [lia|done].
  - exists p. destruct s as [|c s]; [done|]. rewrite (load_char_cons _ _ _ _ Hc), Z.eqb_refl, Ok_bind.
    pose proof Hc as (_ & Hr & _)%cstring_cons.
    assert (s8 c ≠ 48) by (intros E; apply s8_ascii in E; [by subst|lia..]).
    replace (s8 c =? 48) with false by lia. split; [done|]. split; [lia|done].
Qed.

(** ** The functions *)
Lemma strto_spec m p s base neg base' ds rest fuel :
  integer_text base s neg base' ds rest → 2 ≤ base' ≤ 36 → cstring m p s → (length s < fuel)%nat →
  ∃ r, strto fuel p base m = Ok (r, p + Z.of_nat (length s) - Z.of_nat (length rest) + overrun rest) ∧
    sign r = neg ∧ tracks r (number base' ds).
Proof.
  intros Ht Hb Hc Hf. destruct Ht as [ws sg text neg base' ds rest Hws Hsg Ha Hds Hne Hstop].
  rewrite !length_app in Hf. destruct ds as [|d ds]; [done|]. pose proof Hds as [Hd _]%Forall_cons.
  assert (starts_number base' text) as Hst by (by eapply announces_head).
  unfold strto. rewrite (skip_spaces_spec m (sg ++ text)) with (ws := ws); [| |done|done|lia].
  2: { intros c. destruct Hsg; cbn; try by intros [= <-]. destruct text as [|t text]; [done|]. intros [= <-].
       apply cstring_app, cstring_cons in Hc as (_ & Hc & _). by apply (not_space_digit base'); [lia|..]. }
  apply cstring_app in Hc. rewrite Ok_bind, (take_sign_spec m _ sg text neg base') by (done || lia). rewrite Ok_bind.
  apply cstring_app in Hc.
  destruct (default_base_spec m _ _ _ _ _ Ha ltac:(done) Hc) as (q & -> & -> & Hc'). rewrite Ok_bind.
  destruct (digits_loop base' m rest ltac:(lia) Hstop (d :: ds) _ (Strto false neg 0) 0 fuel Hc' Hds) as (r & E & Hs & Hr).
  { split; [lia|]. split; [done|]. done. }
  { assert (length (d :: ds ++ rest) ≤ length text)%nat; [|cbn [length] in *; rewrite length_app in *; lia].
    by apply announces_length in Ha. }
  exists r. rewrite E, Ok_bind. cbv beta iota. 
  assert (0 ≤ overrun rest) by (destruct rest; cbn; lia). 
  rewrite (proj2 (Z.eqb_neq _ _)) by (cbn [length]; lia). cbv beta iota.
  split; [|by split]. do 3 f_equal. rewrite !length_app. cbn [length]. lia.
Qed.

Lemma signed_wrap w z : 0 < w → - 2 ^ (w - 1) ≤ z < 2 ^ (w - 1) → signed w (wrap w z) = z.
Proof.
  intros Hw Hz. rewrite <-(signed_small w z) at 2 by done. unfold signed, wrap. by rewrite Zplus_mod_idemp_l.
Qed.

Definition clamp (lo hi z : Z) : Z := Z.max lo (Z.min hi z).

Lemma clamp_cases (neg : bool) n : 0 ≤ n → 
  (n ≤ (if neg then 9223372036854775808 else LONG_MAX) ∧ clamp LONG_MIN LONG_MAX (value neg n) = value neg n) ∨
  ((if neg then 9223372036854775808 else LONG_MAX) < n ∧
   clamp LONG_MIN LONG_MAX (value neg n) = (if neg then LONG_MIN else LONG_MAX) ∧ (if neg then LONG_MIN else LONG_MAX) ≠ value neg n).
Proof. intros Hn. unfold value, clamp, LONG_MIN, LONG_MAX. destruct neg; lia. Qed.

Lemma strtol_value m p s base neg base' ds rest fuel endptr errno :
  integer_text base s neg base' ds rest → base ≤ 36 → 2 ≤ base' ≤ 36 → cstring m p s → (length s < fuel)%nat →
  let v := value neg (number base' ds) in
  strtol fuel p endptr base errno m =
    Ok (clamp LONG_MIN LONG_MAX v,
        (λ _, p + Z.of_nat (length s) - Z.of_nat (length rest) + overrun rest) <$> endptr,
        if clamp LONG_MIN LONG_MAX v =? v then errno else ERANGE).
Proof.
  intros Ht Hb Hb' Hc Hf v. unfold strtol. replace (36 <? base) with false by lia.
  destruct (strto_spec m p s base neg base' ds rest fuel Ht Hb' Hc Hf) as (r & -> & Hs & Hn & Ho & Hm).
  rewrite Ok_bind. cbv beta iota zeta. rewrite Hs, Ho. f_equal. unfold v. clear v. set (n := number base' ds) in *.
  change (u64 (LONG_MAX + 1)) with 9223372036854775808. 
  destruct (clamp_cases neg n Hn) as [(Hv & ->)|(Hv & -> & Hne)].
  - rewrite Z.eqb_refl. unfold LONG_MAX, ULONG_MAX in *. rewrite Hm by (destruct neg; lia).
    replace (18446744073709551615 <? n) with false by (destruct neg; lia). rewrite orb_false_r.
    destruct neg; case_if; try lia; [by rewrite signed_wrap by lia|by rewrite signed_small by lia].
  - apply Z.eqb_neq in Hne. rewrite Hne. destruct (Z.ltb_spec ULONG_MAX n) as [Hu|Hu].
    + by destruct neg; rewrite orb_true_r.
    + rewrite (Hm Hu), orb_false_r. by destruct neg; rewrite (proj2 (Z.ltb_lt _ _)) by (unfold LONG_MAX in *; lia).
Qed.


(** C15: [strtol] converts a well-formed text to the nearest [long], says so in [errno] when it is
    out of range, and leaves [*endptr] after the first character that is not of the number. *)
Theorem strtol_spec m p s base neg base' ds rest fuel endptr errno :
  integer_text base s neg base' ds rest → base ≤ 36 → 2 ≤ base' ≤ 36 → cstring m p s → (length s < fuel)%nat →
  let v := value neg (number base' ds) in
  strtol fuel p endptr base errno m =
    Ok (clamp LONG_MIN LONG_MAX v,
        (λ _, p + Z.of_nat (length s) - Z.of_nat (length rest) + overrun rest) <$> endptr,
        if clamp LONG_MIN LONG_MAX v =? v then errno else ERANGE).
Proof. apply strtol_value. Qed.

(** [strtoul] converts a well-formed text modulo [2^64], a minus sign included; a magnitude that
    does not fit is [ULONG_MAX] with [errno] set, whatever the sign. *)
Theorem strtoul_spec m p s base neg base' ds rest fuel endptr errno :
  integer_text base s neg base' ds rest → base ≤ 36 → 2 ≤ base' ≤ 36 → cstring m p s → (length s < fuel)%nat →
  let n := number base' ds in
  strtoul fuel p endptr base errno m =
    Ok (if ULONG_MAX <? n then ULONG_MAX else u64 (value neg n),
        (λ _, p + Z.of_nat (length s) - Z.of_nat (length rest) + overrun rest) <$> endptr,
        if ULONG_MAX <? n then ERANGE else errno).
Proof.
  intros Ht Hb Hb' Hc Hf n. unfold strtoul. replace (36 <? base) with false by lia.
  destruct (strto_spec m p s base neg base' ds rest fuel Ht Hb' Hc Hf) as (r & -> & Hs & Hn & Ho & Hm).
  rewrite Ok_bind. cbv beta iota zeta. rewrite Hs, Ho. f_equal. fold n in Hn, Ho, Hm |- *.
  destruct (Z.ltb_spec ULONG_MAX n) as [Hu|Hu]; [by destruct neg|]. rewrite (Hm Hu). destruct neg; [done|].
  cbn [value]. by rewrite wrap_small by (unfold ULONG_MAX in *; lia).
Qed.

(** ** Round trip *)
Definition digit_text (d : Z) : Z := if d <? 10 then 48 + d else 87 + d.

(** The digits of [n], the least significant first. *)
Fixpoint digits_rev (fuel : nat) (base n : Z) : list Z :=
  match fuel with
  | O => []
  | S fuel => digit_text (n `mod` base) :: if n <? base then [] else digits_rev fuel base (n / base)
  end.

Definition text_of (base z : Z) : list Z := (if z <? 0 then [45] else []) ++ rev (digits_rev 64 base (Z.abs z)).

Lemma digit_text_value base d : 0 ≤ d < base → base ≤ 36 → digit_value (s8 (digit_text d)) = d.
Proof.
  intros Hd Hb. assert (∃ c, digit_text d = c ∧ ((d < 10 ∧ c = 48 + d) ∨ (10 ≤ d ∧ c = 87 + d))) as (c & -> & Hc).
  { unfold digit_text. case_if; eauto. }
  unfold digit_value, tolower. rewrite (signed_small 8 c), (wrap_small 8 c) by lia.
  replace ((65 <=? c) && (c <=? 90)) with false by lia. rewrite signed_small by lia. repeat case_if; lia.
Qed.

Lemma number_app base ds d : number base (ds ++ [d]) = number base ds * base + digit_value (s8 d).
Proof. unfold number. by rewrite foldl_app. Qed.

Lemma digits_rev_spec base : 2 ≤ base ≤ 36 → ∀ fuel n, 0 ≤ n < base ^ Z.of_nat fuel → (0 < fuel)%nat →
  number base (rev (digits_rev fuel base n)) = n ∧ Forall (is_digit base) (digits_rev fuel base n) ∧ digits_rev fuel base n ≠ [].
Proof.
  intros Hb fuel. induction fuel as [|fuel IH]; intros n Hn Hf; [lia|]. cbn [digits_rev rev].
  pose proof (Z.mod_pos_bound n base ltac:(lia)) as Hmod. pose proof (Z.div_mod n base ltac:(lia)).
  assert (is_digit base (digit_text (n `mod` base))) as Hd.
  { unfold is_digit. rewrite (digit_text_value base) by lia. done. }
  rewrite number_app, (digit_text_value base) by lia. destruct (Z.ltb_spec n base).
  - split; [|by split; [constructor; [done|constructor]|]]. cbn [rev]. change (number base []) with 0. rewrite Z.mod_small; lia.
  - destruct fuel as [|fuel]; [change (base ^ Z.of_nat 1) with (base ^ 1) in Hn; lia|].
    destruct (IH (n / base)) as (E & Hall & _); [|lia|].
    { rewrite (Nat2Z.inj_succ (S fuel)), Z.pow_succ_r in Hn by lia. split; [apply Z.div_pos; lia|]. apply Z.div_lt_upper_bound; lia. }
    split; [rewrite E; lia|]. split; [by constructor|done].
Qed.

Lemma text_of_integer base z : 2 ≤ base ≤ 36 → LONG_MIN ≤ z ≤ LONG_MAX →
  ∃ ds, integer_text base (text_of base z) (z <? 0) base ds [] ∧ number base ds = Z.abs z.
Proof.
  intros Hb Hz. exists (rev (digits_rev 64 base (Z.abs z))).
  destruct (digits_rev_spec base Hb 64 (Z.abs z)) as (E & Hall & Hne); [|lia|].
  { split; [lia|]. apply (Z.lt_le_trans _ (2 ^ Z.of_nat 64)); [|apply Z.pow_le_mono_l; lia].
    change (2 ^ Z.of_nat 64) with 18446744073709551616. unfold LONG_MIN, LONG_MAX in Hz. lia. }
  split; [|done]. unfold text_of. apply (integer_text_intro base [] _ (rev (digits_rev 64 base (Z.abs z)))).
  - constructor.
  - destruct (z <? 0); constructor.
  - rewrite app_nil_r. constructor. lia.
  - by apply Forall_rev.
  - intros H. apply (f_equal (@rev Z)) in H. by rewrite rev_involutive in H.
  - by intros c [=].
Qed.

(** [strtol] reads back every [long] that is written in any base, and touches neither [errno] nor a
    null [endptr]. *)
Theorem strtol_roundtrip m p base z fuel errno :
  2 ≤ base ≤ 36 → LONG_MIN ≤ z ≤ LONG_MAX → cstring m p (text_of base z) → (length (text_of base z) < fuel)%nat →
  strtol fuel p None base errno m = Ok (z, None, errno).
Proof.
  intros Hb Hz Hc Hf. destruct (text_of_integer base z Hb Hz) as (ds & Ht & En).
  rewrite (strtol_value m p _ base _ base ds [] fuel None errno Ht) by (done || lia). rewrite En.
  assert (value (z <? 0) (Z.abs z) = z) as -> by (unfold value; case_if; lia).
  assert (clamp LONG_MIN LONG_MAX z = z) as -> by (unfold clamp; lia). by rewrite Z.eqb_refl.
Qed.
End strto.

(** ** Witnesses *)
Module StrtolExamples.
(** " -0x1fz" at 100, "-ff" at 200 *)
Definition mem_ex : gmap Z Z := mem_of [(100, [32; 45; 48; 120; 49; 102; 122; 0]); (200, [45; 102; 102; 0]); (300, [97; 0]); (400, [48; 120; 49; 102; 0])].

Lemma number_ex : integer_text 0 [32; 45; 48; 120; 49; 102; 122] true 16 [49; 102] [122].
Proof.
  apply (integer_text_intro 0 [32] [45] [48; 120; 49; 102; 122]).
  - by repeat constructor.
  - constructor.
  - by apply hexadecimal; [|left].
  - repeat constructor; vm_compute; done.
  - done.
  - intros c [= <-]. unfold is_digit. change (digit_value (s8 122)) with 35. lia.
Defined.

Lemma strtol_spec_witness : strtol 20 100 (Some 0) 0 7 mem_ex = Ok (-31, Some 107, 7).
Proof.
  exact (strtol_spec mem_ex 100 _ 0 true 16 [49; 102] [122] 20 (Some 0) 7 number_ex ltac:(lia) ltac:(lia)
    ltac:(apply cstringb_true; vm_compute; reflexivity) ltac:(simpl; lia)).
Defined.

Lemma strtoul_spec_witness : strtoul 20 100 (Some 0) 0 7 mem_ex = Ok (2 ^ 64 - 31, Some 107, 7).
Proof.
  exact (strtoul_spec mem_ex 100 _ 0 true 16 [49; 102] [122] 20 (Some 0) 7 number_ex ltac:(lia) ltac:(lia)
    ltac:(apply cstringb_true; vm_compute; reflexivity) ltac:(simpl; lia)).
Defined.

Lemma strtol_roundtrip_witness : strtol 20 200 None 16 7 mem_ex = Ok (-255, None, 7).
Proof.
  apply (strtol_roundtrip mem_ex 200 16 (-255) 20 7); [lia|unfold LONG_MIN, LONG_MAX; lia| |vm_compute; lia].
  apply cstringb_true. vm_compute. reflexivity.
Defined.

(** Without a digit the end pointer should be the start of the text; it is one past the first character. *)
Example strtol_no_digits : strtol 20 300 (Some 0) 10 7 mem_ex = Ok (0, Some 301, 7).
Proof. vm_compute. reflexivity. Qed.

(** In base 16 the prefix 0x is optional in C; here it is read as 0 and ends at the x. *)
Example strtol_base16_prefix : strtol 20 400 (Some 0) 16 7 mem_ex = Ok (0, Some 402, 7).
Proof. vm_compute. reflexivity. Qed.
End StrtolExamples.
