(* ===== verification/Trb.v ===== *)
(** * The rings of the USB controller: stuos/src/xhci_trb.h and xhci_trb.c

    A transfer request block (TRB) is two 64-bit words in memory that the controller reads and
    writes as well.  A ring is a page of TRBs reached through the direct map, with the index the
    driver uses next and the value of the cycle bit that marks a block as new. *)
From S2P Require Import Prelude Bytes Arrays Slab Paging Hardware BitFields.
Open Scope string_scope.
Open Scope list_scope.
Open Scope Z_scope.

Definition TRB_TYPE_NORMAL : Z := 1.
Definition TRB_TYPE_SETUP_STAGE : Z := 2.
Definition TRB_TYPE_DATA_STAGE : Z := 3.
Definition TRB_TYPE_STATUS_STAGE : Z := 4.
Definition TRB_TYPE_LINK : Z := 6.
Definition TRB_TYPE_EVENT_DATA : Z := 7.
Definition TRB_TYPE_ENABLE_SLOT : Z := 9.
Definition TRB_TYPE_SET_ADDRESS : Z := 11.
Definition TRB_TYPE_CONFIGURE_ENDPOINT : Z := 12.
Definition TRB_TYPE_EVALUATE_CONTEXT : Z := 13.
Definition TRB_TYPE_TRANSFER : Z := 32.
Definition TRB_TYPE_CMD_COMPLETION : Z := 33.
Definition TRB_TYPE_PORT_STS_CHANGE : Z := 34.
Definition TRB_TYPE_BANDWIDTH_REQUEST : Z := 35.
Definition TRB_TYPE_DOORBELL : Z := 36.
Definition TRB_TYPE_HOST_CONTROLLER : Z := 37.
Definition TRB_TYPE_DEVICE_NOTIFICATION : Z := 38.
Definition TRB_TYPE_MFINDEX_WRAP : Z := 39.

Record TRB := Trb { parameter : Z; status : Z }.
Definition SIZEOF_TRB : Z := 16.

(** ** The views of the two words *)
Definition DeviceRequestPacket : layout :=
  [("recipient", 5); ("type", 2); ("direction", 1); ("request", 8); ("value", 16); ("index", 16); ("length", 16)].

Definition minimal : layout :=
  [("reserved_0", 32); ("cycle_bit", 1); ("reserved_1", 9); ("trb_type", 6); ("reserved_2", 16)].

Definition NormalTRB : layout :=
  [("trb_transfer_length", 17); ("td_size", 5); ("interrupter_target", 10); ("cycle_bit", 1); ("evaluate_next_trb", 1);
   ("interrupt_on_short_packet", 1); ("no_snoop", 1); ("chain_bit", 1); ("interrupt_on_completion", 1);
   ("immediate_data", 1); ("reserved_0", 2); ("block_event_interrupt", 1); ("trb_type", 6); ("reserved_1", 16)].

Definition LinkTRBSts : layout :=
  [("reserved_0", 22); ("interrupter_target", 10); ("cycle_bit", 1); ("toggle_cycle", 1); ("reserved_1", 2);
   ("chain_bit", 1); ("interrupt_on_completion", 1); ("reserved_2", 4); ("trb_type", 6); ("reserved_3", 16)].

Definition CommandCompletionEvent : layout :=
  [("command_completion_parameter", 24); ("completion_code", 8); ("cycle_bit", 1); ("reserved_0", 9);
   ("trb_type", 6); ("vf_id", 8); ("slot_id", 8)].

Definition TypeTransfer : layout :=
  [("trb_transfer_length", 24); ("completion_code", 8); ("cycle_bit", 1); ("reserved_0", 1); ("event_data", 1);
   ("reserved_1", 7); ("trb_type", 6); ("endpoint_id", 5); ("reserved_2", 3); ("slot_id", 8)].

Definition SetAddressCommand : layout :=
  [("reserved_0", 32); ("cycle_bit", 1); ("reserved_1", 8); ("block_set_address_request", 1); ("trb_type", 6);
   ("reserved_2", 8); ("slot_id", 8)].

Definition DeviceRequestSts : layout :=
  [("trb_transfer_length", 17); ("reserved_0", 5); ("interrupter_target", 10); ("cycle_bit", 1); ("reserved_1", 4);
   ("interrupt_on_completion", 1); ("immediate_data", 1); ("reserved_2", 3); ("trb_type", 6); ("transfer_type", 2);
   ("reserved_3", 14)].

Definition DataStage : layout :=
  [("trb_transfer_length", 17); ("td_size", 5); ("interrupter_target", 10); ("cycle_bit", 1); ("evaluate_next_trb", 1);
   ("interrupt_on_short_packet", 1); ("no_snoop", 1); ("chain_bit", 1); ("interrupt_on_completion", 1);
   ("immediate_data", 1); ("reserved_0", 3); ("trb_type", 6); ("direction", 1); ("reserved_1", 15)].

Definition EventData : layout :=
  [("reserved_0", 24); ("interrupt_target", 8); ("cycle_bit", 1); ("evaluate_next_trb", 1); ("reserved_1", 2);
   ("chain_bit", 1); ("interrupt_on_completion", 1); ("reserved_2", 3); ("block_event_interrupt", 1); ("trb_type", 6);
   ("reserved_3", 16)].

Definition StatusStage : layout :=
  [("reserved_0", 22); ("interrupter_target", 10); ("cycle_bit", 1); ("evaluate_next_trb", 1); ("reserved_1", 2);
   ("chain_bit", 1); ("interrupt_on_completion", 1); ("reserved_2", 4); ("trb_type", 6); ("direction", 1);
   ("reserved_3", 15)].

Definition cycle_bit (t : TRB) : Z := get minimal "cycle_bit" (status t).
Definition trb_type (t : TRB) : Z := get minimal "trb_type" (status t).
Definition set_cycle_bit (c : Z) (t : TRB) : TRB := Trb (parameter t) (put minimal "cycle_bit" c (status t)).

(** ** Rings *)
Record Ring := MkRing {
  count : Z;
  idx : Z;
  trbs_phys : Z;
  trbs : Z;
  ring_cycle_state : Z
}.

Definition trb_ptr (arr i : Z) : Z := u64 (arr + SIZEOF_TRB * i).

Definition load_trb (p : Z) (st : mm) : TRB := Trb (load_word st p) (load_word st (u64 (p + 8))).
Definition store_trb (p : Z) (t : TRB) (st : mm) : mm := store_word (u64 (p + 8)) (status t) (store_word p (parameter t) st).

Definition create_ring (st : mm) : outcome (Ring * mm) :=
  let count := PAGE_SIZE `div` SIZEOF_TRB in
  '(trb_phys, s) ← malloc4k_phys (slab st);
  let st := with_slab st s in
  let trb_virt := phys_to_hhdm st trb_phys in
  st ← fill_page trb_virt 0 st;
  let link := Trb trb_phys (encode LinkTRBSts [("cycle_bit", 0); ("trb_type", TRB_TYPE_LINK); ("toggle_cycle", 1)]) in
  let st := store_trb (trb_ptr trb_virt (count - 1)) link st in
  Ok (MkRing count 0 trb_phys trb_virt 1, st).

Definition enqueue_ring (ring : Ring) (trb : TRB) (st : mm) : outcome (Ring * mm) :=
  _ ← c_assert (negb (trbs ring =? 0));
  let trb := set_cycle_bit (ring_cycle_state ring) trb in
  let st := store_trb (trb_ptr (trbs ring) (idx ring)) trb st in
  let i := u64 (idx ring + 1) in
  if i =? u64 (count ring - 1) then
    let p := trb_ptr (trbs ring) i in
    let link := load_trb p st in
    let st := store_word (u64 (p + 8)) (status (set_cycle_bit (Z.lxor (cycle_bit link) 1) link)) st in
    Ok (MkRing (count ring) 0 (trbs_phys ring) (trbs ring) (Z.lxor (ring_cycle_state ring) 1), st)
  else Ok (MkRing (count ring) i (trbs_phys ring) (trbs ring) (ring_cycle_state ring), st).

(** [None]: the return value -1. *)
Definition dequeue_ring (ring : Ring) (st : mm) : option TRB * Ring :=
  let t := load_trb (trb_ptr (trbs ring) (idx ring)) st in
  if negb (cycle_bit t =? ring_cycle_state ring) then (None, ring)
  else
    let i := u64 (idx ring + 1) in
    (Some t, if i =? count ring then MkRing (count ring) 0 (trbs_phys ring) (trbs ring) (Z.lxor (ring_cycle_state ring) 1)
             else MkRing (count ring) i (trbs_phys ring) (trbs ring) (ring_cycle_state ring)).

(** ** Layouts *)
Definition status_layouts : list layout :=
  [minimal; NormalTRB; LinkTRBSts; CommandCompletionEvent; TypeTransfer; SetAddressCommand; DeviceRequestSts; DataStage;
   EventData; StatusStage].

Instance layout_ok_dec n l : Decision (layout_ok n l).
Proof. unfold layout_ok. apply _. Defined.

Lemma status_layouts_ok : Forall (layout_ok 64) (DeviceRequestPacket :: status_layouts).
Proof. eapply bool_decide_unpack. vm_compute. exact I. Qed.
