(* ===== verification/TrbSpec.v ===== *)
(** * The rings as queues

    The two sides of a ring share nothing but its memory: a block is new when its cycle bit is that of
    the lap the reader is on.  The driver's side is compared with a plain list,
    the other side being what section 4.9 of the xHCI specification says the controller does. *)
From S2P Require Import Prelude Bytes Arrays Slab Paging Hardware BitFields Trb.
#[local] Arguments wrap : simpl never.

(** ** Laps: position and cycle bit of the [n]-th block of a ring of [N] *)
Section laps.
Context (N : Z) (HN : 0 < N).

Definition lap_bit (n : Z) : Z := 1 - (n `div` N) `mod` 2.

Lemma lap_bit_range n : lap_bit n = 0 ∨ lap_bit n = 1.
Proof. unfold lap_bit. pose proof (Z.mod_pos_bound (n `div` N) 2). lia. Qed.

Lemma lap_flip n : Z.lxor (lap_bit n) 1 = 1 - lap_bit n.
Proof. by destruct (lap_bit_range n) as [-> | ->]. Qed.

Lemma lap_back n : lap_bit (n - N) = 1 - lap_bit n.
Proof using HN.
  unfold lap_bit. replace (n - N) with (n + (-1) * N) by lia. rewrite Z.div_add by lia.
  generalize (n `div` N). intros a. pose proof (Z.mod_pos_bound a 2). pose proof (Z.mod_pos_bound (a + -1) 2).
  pose proof (Z.div_mod a 2). pose proof (Z.div_mod (a + -1) 2). lia.
Qed.

Lemma lap_next n : n `mod` N < N - 1 → (n + 1) `mod` N = n `mod` N + 1 ∧ lap_bit (n + 1) = lap_bit n.
Proof using HN.
  intros Hn. pose proof (Z.mod_pos_bound n N HN). pose proof (Z.div_mod n N).
  assert ((n + 1) `div` N = n `div` N) as E by (symmetry; apply (Z.div_unique _ _ _ (n `mod` N + 1)); lia).
  split; [symmetry; apply (Z.mod_unique _ _ (n `div` N)); lia|]. unfold lap_bit. by rewrite E.
Qed.

Lemma lap_wrap n : n `mod` N = N - 1 →
  (n + 1) `mod` N = 0 ∧ (n + 1) `div` N = n `div` N + 1 ∧ lap_bit (n + 1) = 1 - lap_bit n.
Proof using HN.
  intros Hn. pose proof (Z.div_mod n N).
  assert ((n + 1) `div` N = n `div` N + 1) as E by (symmetry; apply (Z.div_unique _ _ _ 0); lia).
  split; [symmetry; apply (Z.mod_unique _ _ (n `div` N + 1)); lia|]. split; [done|].
  replace (n + 1) with ((n + 1 + N) - N) by lia. rewrite lap_back. f_equal. unfold lap_bit.
  replace (n + 1 + N) with (n + 1 + 1 * N) by lia. rewrite Z.div_add, E by lia.
  replace (n `div` N + 1 + 1) with (n `div` N + 1 * 2) by lia. by rewrite Z_mod_plus_full.
Qed.

Lemma same_slot n m : n `mod` N = m `mod` N → n - N < m < n + N → n = m.
Proof using HN. 
  intros E H. pose proof (Z.div_mod n N ltac:(lia)) as En. pose proof (Z.div_mod m N ltac:(lia)) as Em.
  rewrite E in En. assert (n `div` N = m `div` N) by nia. nia.
Qed.

Lemma slot_range n : 0 ≤ n `mod` N < N.
Proof using HN. by apply Z.mod_pos_bound. Qed.
End laps.

(** ** The blocks of a ring's page *)
Definition slot (st : mm) (t i : Z) : TRB := Trb (word_at st (t + 16 * i)) (word_at st (t + 16 * i + 8)).

Lemma trb_words st t i : frame_ok t → 0 ≤ i < 256 →
  hhdm_phys st (trb_ptr (phys_to_hhdm st t) i) = t + 16 * i ∧
  hhdm_phys st (u64 (trb_ptr (phys_to_hhdm st t) i + 8)) = t + 16 * i + 8.
Proof.
  intros Ht Hi. 
  assert (trb_ptr (phys_to_hhdm st t) i = entry_ptr (phys_to_hhdm st t) (2 * i)) as ->.
  { unfold trb_ptr, entry_ptr, SIZEOF_TRB. f_equal. lia. }
  assert (u64 (entry_ptr (phys_to_hhdm st t) (2 * i) + 8) = entry_ptr (phys_to_hhdm st t) (2 * i + 1)) as ->.
  { unfold entry_ptr, wrap. rewrite Zplus_mod_idemp_l. f_equal. lia. }
  rewrite !frame_entry by (done || lia). lia.
Qed.

Lemma load_trb_slot st t i : frame_ok t → 0 ≤ i < 256 → load_trb (trb_ptr (phys_to_hhdm st t) i) st = slot st t i.
Proof. intros Ht Hi. unfold load_trb, load_word. by destruct (trb_words st t i Ht Hi) as [-> ->]. Qed.

Lemma store_word_at st p w a : word_at (store_word p w st) a = if decide (a = hhdm_phys st p) then w else word_at st a.
Proof. apply word_at_insert. Qed.

(** Storing a block changes that block and nothing else. *)
Lemma slot_store st t i x j : frame_ok t → 0 ≤ i < 256 → 0 ≤ j < 256 →
  slot (store_trb (trb_ptr (phys_to_hhdm st t) i) x st) t j = if decide (j = i) then x else slot st t j.
Proof.
  intros Ht Hi Hj. destruct (trb_words st t i Ht Hi) as [E1 E2]. unfold slot, store_trb.
  rewrite !store_word_at. change (hhdm_phys (store_word _ _ st)) with (hhdm_phys st). rewrite E1, E2.
  destruct x as [p s]. simpl. destruct (decide (j = i)) as [->|Hji]; f_equal; repeat case_decide; lia || done.
Qed.

(** Only words of the page [t] differ. *)
Definition same_elsewhere (t : Z) (st st' : mm) : Prop :=
  (∃ m, st' = with_ram st m) ∧ ∀ a, ¬ (t ≤ a < t + PAGE_SIZE) → word_at st' a = word_at st a.

Lemma same_elsewhere_trans t st st1 st2 : same_elsewhere t st st1 → same_elsewhere t st1 st2 → same_elsewhere t st st2.
Proof. intros [[m ->] H1] [[m' ->] H2]. split; [by exists m'|]. intros a Ha. by rewrite H2, H1. Qed.

Lemma store_word_elsewhere t st p w : t ≤ hhdm_phys st p < t + PAGE_SIZE → same_elsewhere t st (store_word p w st).
Proof. intros Hp. split; [by eexists|]. intros a Ha. rewrite store_word_at, decide_False; [done|lia]. Qed.

Lemma store_trb_elsewhere st t i x : frame_ok t → 0 ≤ i < 256 →
  same_elsewhere t st (store_trb (trb_ptr (phys_to_hhdm st t) i) x st).
Proof.
  intros Ht Hi. destruct (trb_words st t i Ht Hi) as [E1 E2]. unfold store_trb, PAGE_SIZE.
  eapply same_elsewhere_trans; apply store_word_elsewhere; [rewrite E1|change (hhdm_phys _ ?p) with (hhdm_phys st p); rewrite E2]; unfold PAGE_SIZE; lia.
Qed.

Lemma cycle_bit_set c x : cycle_bit (set_cycle_bit c x) = c `mod` 2.
Proof. apply (get_put_same minimal). repeat constructor. Qed.

Lemma trb_type_set c x : trb_type (set_cycle_bit c x) = trb_type x.
Proof. apply (get_put_other minimal); [repeat constructor|set_solver..|done]. Qed.

Lemma set_cycle_twice a b x : set_cycle_bit a (set_cycle_bit b x) = set_cycle_bit a x.
Proof. unfold set_cycle_bit. simpl. f_equal. apply put_twice. repeat constructor. Qed.

Lemma lap_bit_mod N n : lap_bit N n `mod` 2 = lap_bit N n.
Proof. by destruct (lap_bit_range N n) as [-> | ->]. Qed.

Definition link_trb (t c : Z) : TRB :=
  set_cycle_bit c (Trb t (encode LinkTRBSts [("cycle_bit", 0); ("trb_type", TRB_TYPE_LINK); ("toggle_cycle", 1)])).

Lemma set_cycle_mod a x : set_cycle_bit (a `mod` 2) x = set_cycle_bit a x.
Proof. unfold set_cycle_bit, put, put_bits. change (width_of minimal "cycle_bit") with 1. change (2 ^ 1) with 2. by rewrite Z.mod_mod. Qed.

Lemma flip_link t n : status (set_cycle_bit (Z.lxor (cycle_bit (link_trb t n)) 1) (link_trb t n)) = status (link_trb t (n + 1)).
Proof.
  unfold link_trb. rewrite cycle_bit_set, set_cycle_twice. rewrite <-(set_cycle_mod (n + 1)). do 2 f_equal.
  pose proof (Z.mod_pos_bound n 2 ltac:(lia)). pose proof (Z.div_mod n 2 ltac:(lia)).
  assert (n `mod` 2 = 0 ∨ n `mod` 2 = 1) as [E|E] by lia; rewrite E; [change (Z.lxor 0 1) with 1|change (Z.lxor 1 1) with 0].
  - apply (Z.mod_unique _ _ (n `div` 2)); lia.
  - apply (Z.mod_unique _ _ (n `div` 2 + 1)); lia.
Qed.

Lemma slot_store_status st t i w j : frame_ok t → 0 ≤ i < 256 → 0 ≤ j < 256 →
  slot (store_word (u64 (trb_ptr (phys_to_hhdm st t) i + 8)) w st) t j =
    if decide (j = i) then Trb (parameter (slot st t i)) w else slot st t j.
Proof.
  intros Ht Hi Hj. destruct (trb_words st t i Ht Hi) as [_ E]. unfold slot. rewrite !store_word_at, E. simpl.
  destruct (decide (j = i)) as [->|Hji]; f_equal; repeat case_decide; lia || done.
Qed.

(** ** The driver writes: command and transfer rings

    The reader's side, as the controller follows it: a block whose cycle bit is not the reader's
    is not there yet; a link block takes the reader back to where it points, and changes its cycle bit when it says so. *)
Definition read_block (t : Z) (c : Z * Z) (st : mm) : option TRB * (Z * Z) :=
  let '(i, ccs) := c in
  let x := slot st t i in
  if negb (cycle_bit x =? ccs) then (None, c) else (Some x, (i + 1, ccs)).

Definition read_ring (t : Z) (c : Z * Z) (st : mm) : option TRB * (Z * Z) :=
  match read_block t c st with
  | (Some x, (_, ccs)) =>
      if trb_type x =? TRB_TYPE_LINK then
        read_block t ((parameter x - t) `div` SIZEOF_TRB,
                      if get LinkTRBSts "toggle_cycle" (status x) =? 1 then Z.lxor ccs 1 else ccs) st
      else read_block t c st
  | (None, c) => (None, c)
  end.

Abbreviation RING := 255.

(** The reader has taken [C] blocks: it is at the next one, or at the link before it. *)
Definition reader_at (C : Z) (c : Z * Z) : Prop :=
  c = (C `mod` RING, lap_bit RING C) ∨ (C `mod` RING = 0 ∧ 0 < C ∧ c = (RING, 1 - lap_bit RING C)).

Record ring_holds (st : mm) (r : Ring) (t : Z) (c : Z * Z) (C : Z) (q : list TRB) : Prop := {
  rh_frame : frame_ok t;
  rh_hhdm : phys_to_hhdm st t ≠ 0;
  rh_room : (length q < 255)%nat;
  rh_pos : 0 ≤ C;
  rh_ring : r = MkRing 256 ((C + Z.of_nat (length q)) `mod` RING) t (phys_to_hhdm st t) (lap_bit RING (C + Z.of_nat (length q)));
  rh_reader : reader_at C c;
  rh_pending : ∀ k x, q !! k = Some x → slot st t ((C + Z.of_nat k) `mod` RING) = set_cycle_bit (lap_bit RING (C + Z.of_nat k)) x;
  rh_past : ∀ n, C + Z.of_nat (length q) - RING ≤ n < C → cycle_bit (slot st t (n `mod` RING)) = lap_bit RING n;
  rh_link : slot st t RING = link_trb t ((C + Z.of_nat (length q)) `div` RING)
}.

Lemma slot_ok n : 0 ≤ n `mod` RING < 255.
Proof. apply Z.mod_pos_bound. lia. Qed.

Lemma slot_elsewhere st st' t i : 0 ≤ i < 256 → ram st' = ram st → slot st' t i = slot st t i.
Proof. intros _ E. unfold slot, word_at. by rewrite E. Qed.

Lemma mod_lt_255 n k : 0 ≤ k → (n + k) `mod` RING = n `mod` RING → k < 255 → k = 0.
Proof. intros Hk E Hk'. pose proof (same_slot RING ltac:(lia) (n + k) n). lia. Qed.

(** A block is enqueued behind those that are pending. *)
Lemma enqueue_ring_holds st r t c C q x :
  ring_holds st r t c C q → (length q < 254)%nat →
  ∃ r' st', enqueue_ring r x st = Ok (r', st') ∧ ring_holds st' r' t c C (q ++ [x]) ∧ same_elsewhere t st st'.
Proof.
  intros H Hq. destruct H as [Hf Hh Hroom Hp -> Hc Hpend Hpast Hlink]. set (P := C + Z.of_nat (length q)) in *.
  pose proof (slot_ok P) as Hi. unfold enqueue_ring. cbn [trbs ring_cycle_state idx count trbs_phys].
  rewrite (proj2 (Z.eqb_neq _ _) Hh). cbn [negb c_assert mbind outcome_bind].
  set (y := set_cycle_bit (lap_bit RING P) x). set (st1 := store_trb (trb_ptr (phys_to_hhdm st t) (P `mod` RING)) y st).
  assert (∀ j, 0 ≤ j < 256 → slot st1 t j = if decide (j = P `mod` RING) then y else slot st t j) as Hst1
    by (intros j Hj; apply slot_store; (done || lia)).
  assert (same_elsewhere t st st1) as Hsame by (apply store_trb_elsewhere; (done || lia)).
  rewrite (wrap_small 64 (P `mod` RING + 1)) by lia. change (u64 (256 - 1)) with 255.
  assert (∀ st2, (∀ j, 0 ≤ j < 255 → slot st2 t j = slot st1 t j) →
    (∀ k z, (q ++ [x]) !! k = Some z → slot st2 t ((C + Z.of_nat k) `mod` RING) = set_cycle_bit (lap_bit RING (C + Z.of_nat k)) z) ∧
    (∀ n, P + 1 - RING ≤ n < C → cycle_bit (slot st2 t (n `mod` RING)) = lap_bit RING n)) as Hslots.
  { intros st2 Hst2. split.
    - intros k z Hk. rewrite Hst2, Hst1 by (pose proof (slot_ok (C + Z.of_nat k)); lia).
      apply lookup_app_Some in Hk as [Hk|(Hle & Hk)].
      + pose proof (lookup_lt_Some _ _ _ Hk). rewrite decide_False; [by apply Hpend|].
        intros E. pose proof (same_slot RING ltac:(lia) (C + Z.of_nat k) P). lia.
      + apply list_lookup_singleton_Some in Hk as [Hk ->]. replace (C + Z.of_nat k) with P by lia. by rewrite decide_True.
    - intros n Hn. rewrite Hst2, Hst1 by (pose proof (slot_ok n); lia). rewrite decide_False; [apply Hpast; lia|].
      intros E. pose proof (same_slot RING ltac:(lia) n P). lia. }
  assert (C + Z.of_nat (length (q ++ [x])) = P + 1) as EP by (rewrite length_app; simpl; lia).
  destruct (Z.eqb_spec (P `mod` RING + 1) 255) as [Hw|Hw].
  - destruct (lap_wrap RING ltac:(lia) P ltac:(lia)) as (W1 & W2 & W3). rewrite Hw.
    change (phys_to_hhdm st t) with (phys_to_hhdm st1 t).
    rewrite load_trb_slot by (done || lia). rewrite Hst1, decide_False, Hlink by lia.
    eexists _, _. split; [done|]. rewrite flip_link.
    match goal with |- ring_holds ?s _ _ _ _ _ ∧ _ => set (st2 := s) end.
    assert (∀ j, 0 ≤ j < 256 → slot st2 t j = if decide (j = 255) then link_trb t (P `div` RING + 1) else slot st1 t j) as Hst2.
    { intros j Hj. unfold st2. rewrite slot_store_status by (done || lia). destruct (decide (j = 255)) as [->|]; [|done].
      by rewrite Hst1, decide_False, Hlink by lia. }
    split.
    2: { eapply same_elsewhere_trans; [done|]. apply store_word_elsewhere.
         rewrite (proj2 (trb_words st1 t 255 Hf ltac:(lia))). unfold PAGE_SIZE. lia. }
    destruct (Hslots st2) as [Hs1 Hs2]; [intros j Hj; rewrite Hst2, decide_False by lia; done|].
    constructor; rewrite ?EP; try done.
    + rewrite length_app. simpl. lia.
    + rewrite W1, W3, lap_flip. done.
    + rewrite Hst2, decide_True by lia. by rewrite W2.
  - destruct (lap_next RING ltac:(lia) P ltac:(lia)) as (W1 & W2).
    eexists _, st1. split; [done|]. split; [|done]. destruct (Hslots st1) as [Hs1 Hs2]; [done|].
    destruct Hsame as [[m Em] _].
    constructor; rewrite ?EP; try done.
    + rewrite length_app. simpl. lia.
    + by rewrite W1, W2.
    + rewrite Hst1 by lia. rewrite decide_False by lia. rewrite Hlink. f_equal. 
      apply (Z.div_unique _ _ _ (P `mod` RING + 1)); pose proof (Z.div_mod P RING); lia.
Qed.

Lemma link_facts t n : cycle_bit (link_trb t n) = n `mod` 2 ∧ trb_type (link_trb t n) = TRB_TYPE_LINK ∧
  parameter (link_trb t n) = t ∧ get LinkTRBSts "toggle_cycle" (status (link_trb t n)) = 1.
Proof.
  unfold link_trb. rewrite cycle_bit_set, trb_type_set. split; [done|]. split; [done|]. split; [done|].
  rewrite <-set_cycle_mod. pose proof (Z.mod_pos_bound n 2 ltac:(lia)).
  by assert (n `mod` 2 = 0 ∨ n `mod` 2 = 1) as [-> | ->] by lia.
Qed.

(** The reader takes the oldest pending block, or nothing. *)
Definition taken (C : Z) (q : list TRB) : option TRB := set_cycle_bit (lap_bit RING C) <$> head q.

Lemma read_block_holds st r t c C q :
  ring_holds st r t c C q →
  read_block t (C `mod` RING, lap_bit RING C) st =
    (taken C q, if q is [] then (C `mod` RING, lap_bit RING C) else (C `mod` RING + 1, lap_bit RING C)).
Proof.
  intros []. unfold read_block, taken. destruct q as [|x q].
  - assert (cycle_bit (slot st t (C `mod` RING)) = 1 - lap_bit RING C) as ->.
    { rewrite <-lap_back by lia. rewrite <-rh_past0 by (simpl; lia). do 2 f_equal.
      replace (C - RING) with (C + (-1) * RING) by lia. by rewrite Z_mod_plus_full. }
    by destruct (lap_bit_range RING C) as [-> | ->].
  - assert (slot st t (C `mod` RING) = set_cycle_bit (lap_bit RING C) x) as ->.
    { specialize (rh_pending0 0%nat x eq_refl). by rewrite Z.add_0_r in rh_pending0. }
    by rewrite cycle_bit_set, lap_bit_mod, Z.eqb_refl.
Qed.

Lemma reader_moves C : 0 ≤ C → reader_at (C + 1) (C `mod` RING + 1, lap_bit RING C).
Proof.
  intros HC. pose proof (slot_ok C). destruct (decide (C `mod` RING = RING - 1)) as [E|E].
  - destruct (lap_wrap RING ltac:(lia) C E) as (W1 & _ & W3). right. rewrite E, W1, W3. split; [done|]. split; [lia|]. f_equal. lia.
  - destruct (lap_next RING ltac:(lia) C ltac:(lia)) as (W1 & W2). left. by rewrite W1, W2.
Qed.

(** Both positions of the reader read the same: the link leads to the first block. *)
Lemma read_ring_reader st r t c C q :
  ring_holds st r t c C q → Forall (λ x, trb_type x ≠ TRB_TYPE_LINK) q →
  ∃ c', read_ring t c st = (taken C q, c') ∧ reader_at (if q is [] then C else C + 1) c'.
Proof.
  intros H Hq. pose proof (read_block_holds _ _ _ _ _ _ H) as Hread. pose proof H as [].
  assert (∀ x, taken C q = Some x → trb_type x ≠ TRB_TYPE_LINK) as Hx.
  { intros x. unfold taken. destruct q as [|y q]; [done|]. intros [= <-]. rewrite trb_type_set. by apply Forall_cons in Hq as [? _]. }
  assert (reader_at (if q is [] then C else C + 1)
    (if q is [] then (C `mod` RING, lap_bit RING C) else (C `mod` RING + 1, lap_bit RING C))) as Hr.
  { destruct q; [by left|by apply reader_moves]. }
  destruct rh_reader0 as [-> | (HC & Hpos & ->)].
  - unfold read_ring. rewrite Hread. destruct (taken C q) as [x|] eqn:Ex.
    + destruct q as [|y q]; [done|]. specialize (Hx x eq_refl). apply Z.eqb_neq in Hx. rewrite Hx. by eexists.
    + destruct q as [|y q]; [|done]. by eexists.
  - destruct (link_facts t ((C + Z.of_nat (length q)) `div` RING)) as (F1 & F2 & F3 & F4).
    assert ((C + Z.of_nat (length q)) `div` RING = C `div` RING) as E.
    { symmetry. apply (Z.div_unique _ _ _ (Z.of_nat (length q))); pose proof (Z.div_mod C RING ltac:(lia)); lia. }
    rewrite E in *. unfold read_ring.
    assert (read_block t (RING, 1 - lap_bit RING C) st = (Some (link_trb t (C `div` RING)), (RING + 1, 1 - lap_bit RING C))) as ->.
    { unfold read_block. rewrite rh_link0, F1. by rewrite (proj2 (Z.eqb_eq _ _)) by (unfold lap_bit; lia). }
    cbv beta iota. rewrite F2, F3, F4, !Z.eqb_refl, Z.sub_diag. change (0 `div` SIZEOF_TRB) with 0.
    assert (Z.lxor (1 - lap_bit RING C) 1 = lap_bit RING C) as -> by (by destruct (lap_bit_range RING C) as [-> | ->]).
    rewrite HC in Hread. rewrite Hread. eexists. split; [done|]. by rewrite HC in Hr.
Qed.

Lemma read_ring_holds st r t c C q :
  ring_holds st r t c C q → Forall (λ x, trb_type x ≠ TRB_TYPE_LINK) q →
  ∃ c', read_ring t c st = (taken C q, c') ∧ ring_holds st r t c' (if q is [] then C else C + 1) (tail q).
Proof.
  intros H Hq. destruct (read_ring_reader _ _ _ _ _ _ H Hq) as (c' & E & Hr). exists c'. split; [done|].
  destruct H. destruct q as [|x q]; [by constructor|]. cbn [tail length] in *.
  assert (C + Z.of_nat (S (length q)) = C + 1 + Z.of_nat (length q)) as EP by lia. rewrite EP in *.
  constructor; try done; [lia|lia| |].
  - intros k y Hk. specialize (rh_pending0 (S k) y Hk). by replace (C + Z.of_nat (S k)) with (C + 1 + Z.of_nat k) in rh_pending0 by lia.
  - intros n Hn. destruct (decide (n = C)) as [->|]; [|apply rh_past0; lia].
    specialize (rh_pending0 0%nat x eq_refl). rewrite Z.add_0_r in rh_pending0. by rewrite rh_pending0, cycle_bit_set, lap_bit_mod.
Qed.

(** A new ring: zeros, and a link back to its start. *)
Lemma create_ring_wp st : slab_ok (slab st) →
  wp (free_pages (slab st) = 0%nat) (create_ring st) (λ '(r, st'), ∃ i, let t := page_addr (slab st) i in
    page_is (slab st) i false ∧ slab st' = mark true i 1 (slab st) ∧ hhdm_offset st' = hhdm_offset st ∧
    r = MkRing 256 0 t (phys_to_hhdm st' t) 1 ∧
    (∀ j, 0 ≤ j < 256 → slot st' t j = if decide (j = 255) then link_trb t 0 else Trb 0 0) ∧
    ∀ a, ¬ (t ≤ a < t + PAGE_SIZE) → word_at st' a = word_at st a).
Proof.
  intros Hs. unfold create_ring. apply wp_bind. eapply wp_mono; [apply malloc4k_phys_wp; apply Hs|].
  intros [t s] (i & -> & Hi & -> & _ & _). cbv beta iota zeta. set (t := page_addr (slab st) i).
  assert (frame_ok t) as Ht by (by eapply page_addr_frame).
  set (st0 := with_slab st (mark true i 1 (slab st))). apply wp_bind.
  eapply wp_mono_halt; [apply (fill_page_wp st0 t 0 Ht)|done|].
  intros st1 (m & -> & Hz & Hout). set (st1 := with_ram st0 m) in *. change (PAGE_SIZE `div` SIZEOF_TRB) with 256.
  change (256 - 1) with 255. change (phys_to_hhdm st0 t) with (phys_to_hhdm st1 t).
  set (st2 := store_trb _ _ st1). cbn [wp mret outcome_ret]. exists i. split_and!; try done.
  - intros j Hj. unfold st2. rewrite slot_store by (done || lia). destruct (decide (j = 255)); [done|].
    unfold slot. fold t. replace (t + 16 * j) with (t + 8 * (2 * j)) by lia. rewrite Hz by lia.
    replace (t + 8 * (2 * j) + 8) with (t + 8 * (2 * j + 1)) by lia. by rewrite Hz by lia.
  - intros a Ha. destruct (store_trb_elsewhere st1 t 255 (Trb t (encode LinkTRBSts [("cycle_bit", 0); ("trb_type", TRB_TYPE_LINK); ("toggle_cycle", 1)])) Ht ltac:(lia)) as [_ H].
    unfold st2. rewrite H by done. unfold word_at. simpl. by rewrite Hout.
Qed.

(** A new slot is of the lap before the first. *)
Lemma new_slot_cycle N st t n : 0 < N ≤ 256 →
  (∀ j, 0 ≤ j < 256 → slot st t j = if decide (j = 255) then link_trb t 0 else Trb 0 0) →
  - N ≤ n < 0 → cycle_bit (slot st t (n `mod` N)) = lap_bit N n.
Proof.
  intros HN Hst Hn. pose proof (slot_range N ltac:(lia) n). rewrite Hst by lia.
  assert (lap_bit N n = 0) as ->.
  { replace n with (n + N - N) by lia. rewrite lap_back by lia. unfold lap_bit. by rewrite Z.div_small by lia. }
  by case_decide; [rewrite (proj1 (link_facts t 0))|].
Qed.

Lemma new_ring_holds st t : frame_ok t → phys_to_hhdm st t ≠ 0 →
  (∀ j, 0 ≤ j < 256 → slot st t j = if decide (j = 255) then link_trb t 0 else Trb 0 0) →
  ring_holds st (MkRing 256 0 t (phys_to_hhdm st t) 1) t (0, 1) 0 [].
Proof.
  intros Ht Hp Hst. constructor; try done; cbn [length]; [lia|by left| |by rewrite Hst].
  intros n Hn. apply new_slot_cycle; (done || lia).
Qed.

(** What was read, but for the cycle bits. *)
Definition request (x : TRB) : TRB := set_cycle_bit 0 x.
Definition requests (outs : list (option TRB)) : list (option TRB) := map (option_map request) outs.

(** The blocks a ring is given and the reads of its other side, against a list. *)
Inductive ring_op := Enqueue (x : TRB) | Fetch.

Fixpoint run_ring (t : Z) (ops : list ring_op) (r : Ring) (c : Z * Z) (st : mm) : outcome (list (option TRB)) :=
  match ops with
  | [] => Ok []
  | Enqueue x :: ops => '(r, st) ← enqueue_ring r x st; run_ring t ops r c st
  | Fetch :: ops => let '(o, c) := read_ring t c st in outs ← run_ring t ops r c st; Ok (o :: outs)
  end.

(** [None]: more than 254 blocks would be pending, or a link was enqueued. *)
Fixpoint run_fifo (room : nat) (ops : list ring_op) (q : list TRB) : option (list (option TRB)) :=
  match ops with
  | [] => Some []
  | Enqueue x :: ops =>
      if bool_decide (length q < room)%nat && negb (trb_type x =? TRB_TYPE_LINK) then run_fifo room ops (q ++ [x]) else None
  | Fetch :: ops => cons (head q) <$> run_fifo room ops (tail q)
  end.

Lemma run_ring_holds t ops : ∀ st r c C q outs,
  ring_holds st r t c C q → Forall (λ x, trb_type x ≠ TRB_TYPE_LINK) q → run_fifo 254 ops q = Some outs →
  ∃ outs', run_ring t ops r c st = Ok outs' ∧ requests outs' = requests outs.
Proof.
  induction ops as [|[x|] ops IH]; intros st r c C q outs H Hq E; cbn [run_ring run_fifo] in *.
  - injection E as <-. by exists [].
  - destruct (bool_decide _) eqn:Hl; [|done]. apply bool_decide_eq_true in Hl. destruct (trb_type x =? _) eqn:Hx; [done|]. zbool.
    destruct (enqueue_ring_holds _ _ _ _ _ _ x H Hl) as (r' & st' & -> & H' & _). rewrite Ok_bind.
    apply (IH _ _ _ _ _ _ H'); [|done]. apply Forall_app. by split; [|repeat constructor].
  - destruct (read_ring_holds _ _ _ _ _ _ H Hq) as (c' & -> & H'). destruct (run_fifo 254 ops (tail q)) as [outs1|] eqn:E1; [|done].
    injection E as <-. destruct (IH _ _ _ _ _ _ H' (Forall_tail _ _ Hq) E1) as (outs' & -> & Eo). rewrite Ok_bind.
    eexists. split; [done|]. unfold requests in *. cbn [map]. rewrite Eo. f_equal. unfold taken.
    destruct q as [|y q]; [done|]. simpl. f_equal. apply set_cycle_twice.
Qed.

(** C13: A ring delivers the blocks it is given in order and once each, over any number of laps, as long as at
    most 254 of its 255 places are pending; only the cycle bit of a block changes. *)
Theorem ring_refines_fifo ops outs st :
  slab_ok (slab st) → free_pages (slab st) ≠ 0%nat →
  (∀ i, page_is (slab st) i false → phys_to_hhdm st (page_addr (slab st) i) ≠ 0) →
  run_fifo 254 ops [] = Some outs →
  ∃ r st' outs', create_ring st = Ok (r, st') ∧ run_ring (trbs_phys r) ops r (0, 1) st' = Ok outs' ∧
    requests outs' = requests outs.
Proof.
  intros Hs Hfree Hnull E. pose proof (create_ring_wp st Hs) as Hwp.
  destruct (create_ring st) as [[r st']| | |]; [|done..].
  destruct Hwp as (i & Hi & _ & Hoff & -> & Hslots & _). eexists _, st'. cbn [trbs_phys].
  specialize (Hnull i Hi). assert (phys_to_hhdm st' (page_addr (slab st) i) ≠ 0) by (unfold phys_to_hhdm in *; by rewrite Hoff).
  destruct (run_ring_holds (page_addr (slab st) i) ops _ _ _ _ _ _
    (new_ring_holds st' _ ltac:(by eapply page_addr_frame) ltac:(done) Hslots) ltac:(constructor) E) as (outs' & E' & Eo).
  by exists outs'.
Qed.

(** ** The driver reads: event rings

    The controller's side: it writes the next block of the 256 with the cycle bit of its lap. *)
Definition post_event (t : Z) (w : Z * Z) (x : TRB) (st : mm) : (Z * Z) * mm :=
  let '(i, pcs) := w in
  (if i =? 255 then (0, Z.lxor pcs 1) else (i + 1, pcs),
   store_trb (trb_ptr (phys_to_hhdm st t) i) (set_cycle_bit pcs x) st).

Abbreviation EVENTS := 256.

Record events_hold (st : mm) (r : Ring) (t : Z) (w : Z * Z) (C : Z) (q : list TRB) : Prop := {
  eh_frame : frame_ok t;
  eh_room : (length q ≤ 256)%nat;
  eh_ring : r = MkRing 256 (C `mod` EVENTS) t (phys_to_hhdm st t) (lap_bit EVENTS C);
  eh_writer : w = ((C + Z.of_nat (length q)) `mod` EVENTS, lap_bit EVENTS (C + Z.of_nat (length q)));
  eh_pending : ∀ k x, q !! k = Some x → slot st t ((C + Z.of_nat k) `mod` EVENTS) = set_cycle_bit (lap_bit EVENTS (C + Z.of_nat k)) x;
  eh_past : ∀ n, C + Z.of_nat (length q) - EVENTS ≤ n < C → cycle_bit (slot st t (n `mod` EVENTS)) = lap_bit EVENTS n
}.

(** The position after the one of the [n]-th block, for either side. *)
Lemma next_position n : let i := n `mod` EVENTS in
  (if i + 1 =? 256 then (0, Z.lxor (lap_bit EVENTS n) 1) else (i + 1, lap_bit EVENTS n)) =
    ((n + 1) `mod` EVENTS, lap_bit EVENTS (n + 1)).
Proof.
  intros i. pose proof (slot_range EVENTS ltac:(lia) n). destruct (Z.eqb_spec (i + 1) 256) as [E|E].
  - destruct (lap_wrap EVENTS ltac:(lia) n ltac:(lia)) as (-> & _ & ->). by rewrite lap_flip.
  - by destruct (lap_next EVENTS ltac:(lia) n ltac:(lia)) as [-> ->].
Qed.

Lemma post_event_holds st r t w C q x w' st' :
  events_hold st r t w C q → (length q < 256)%nat → post_event t w x st = (w', st') →
  events_hold st' r t w' C (q ++ [x]).
Proof.
  intros [Hf Hroom -> -> Hpend Hpast] Hq. unfold post_event. intros [= <- <-].
  set (P := C + Z.of_nat (length q)) in *. pose proof (slot_range EVENTS ltac:(lia) P) as Hi.
  assert (C + Z.of_nat (length (q ++ [x])) = P + 1) as EP by (rewrite length_app; simpl; lia).
  set (st1 := store_trb _ _ st).
  assert (∀ j, 0 ≤ j < 256 → slot st1 t j = if decide (j = P `mod` EVENTS) then set_cycle_bit (lap_bit EVENTS P) x else slot st t j) as Hst1
    by (intros j Hj; apply slot_store; (done || lia)).
  constructor; rewrite ?EP; try done.
  - rewrite length_app. simpl. lia.
  - rewrite <-next_position. replace (P `mod` EVENTS =? 255) with (P `mod` EVENTS + 1 =? 256) by lia. done.
  - intros k z Hk. rewrite Hst1 by (apply slot_range; lia). apply lookup_app_Some in Hk as [Hk|(Hle & Hk)].
    + pose proof (lookup_lt_Some _ _ _ Hk). rewrite decide_False; [by apply Hpend|].
      intros E. pose proof (same_slot EVENTS ltac:(lia) (C + Z.of_nat k) P). lia.
    + apply list_lookup_singleton_Some in Hk as [Hk ->]. replace (C + Z.of_nat k) with P by lia. by rewrite decide_True.
  - intros n Hn. rewrite Hst1 by (apply slot_range; lia). rewrite decide_False; [apply Hpast; lia|].
    intros E. pose proof (same_slot EVENTS ltac:(lia) n P). lia.
Qed.

Lemma dequeue_ring_holds st r t w C q :
  events_hold st r t w C q →
  ∃ r', dequeue_ring r st = (set_cycle_bit (lap_bit EVENTS C) <$> head q, r') ∧
    events_hold st r' t w (if q is [] then C else C + 1) (tail q).
Proof.
  intros [Hf Hroom -> -> Hpend Hpast]. unfold dequeue_ring. cbn [trbs idx count trbs_phys ring_cycle_state].
  pose proof (slot_range EVENTS ltac:(lia) C) as Hi. rewrite load_trb_slot by (done || lia). destruct q as [|x q].
  - assert (cycle_bit (slot st t (C `mod` EVENTS)) = 1 - lap_bit EVENTS C) as ->.
    { rewrite <-lap_back by lia. rewrite <-Hpast by (simpl; lia). do 2 f_equal.
      replace (C - EVENTS) with (C + (-1) * EVENTS) by lia. by rewrite Z_mod_plus_full. }
    assert (negb (1 - lap_bit EVENTS C =? lap_bit EVENTS C) = true) as -> by (by destruct (lap_bit_range EVENTS C) as [-> | ->]).
    eexists. split; [done|]. by constructor.
  - pose proof (Hpend 0%nat x eq_refl) as Ex. rewrite Z.add_0_r in Ex.
    rewrite Ex, cycle_bit_set, lap_bit_mod, Z.eqb_refl. cbn [negb]. eexists. split; [done|].
    rewrite (wrap_small 64) by lia. pose proof (next_position C) as En. cbv zeta in En.
    cbn [tail length] in *.
    assert (C + Z.of_nat (S (length q)) = C + 1 + Z.of_nat (length q)) as EP by lia. rewrite EP in *.
    constructor; try done.
    + lia.
    + destruct (C `mod` EVENTS + 1 =? 256); injection En as E1 E2; by rewrite <-E1, <-E2.
    + intros k y Hk. specialize (Hpend (S k) y Hk). by replace (C + Z.of_nat (S k)) with (C + 1 + Z.of_nat k) in Hpend by lia.
    + intros n Hn. destruct (decide (n = C)) as [->|]; [by rewrite Ex, cycle_bit_set, lap_bit_mod|apply Hpast; lia].
Qed.

Fixpoint run_events (t : Z) (ops : list ring_op) (r : Ring) (w : Z * Z) (st : mm) : list (option TRB) :=
  match ops with
  | [] => []
  | Enqueue x :: ops => let '(w, st) := post_event t w x st in run_events t ops r w st
  | Fetch :: ops => let '(o, r) := dequeue_ring r st in o :: run_events t ops r w st
  end.

Lemma run_events_hold t ops : ∀ st r w C q outs,
  events_hold st r t w C q → run_fifo 256 ops q = Some outs → requests (run_events t ops r w st) = requests outs.
Proof.
  induction ops as [|[x|] ops IH]; intros st r w C q outs H E; cbn [run_events run_fifo] in *.
  - by injection E as <-.
  - destruct (bool_decide _) eqn:Hl; [|done]. apply bool_decide_eq_true in Hl. destruct (trb_type x =? _); [done|].
    destruct (post_event t w x st) as [w' st'] eqn:Ep. by eapply IH; [eapply post_event_holds|].
  - destruct (dequeue_ring_holds _ _ _ _ _ _ H) as (r' & -> & H'). destruct (run_fifo 256 ops (tail q)) as [outs1|] eqn:E1; [|done].
    injection E as <-. unfold requests in *. cbn [map]. rewrite (IH _ _ _ _ _ _ H' E1). f_equal.
    destruct q as [|y q]; [done|]. simpl. f_equal. apply set_cycle_twice.
Qed.

(** C14: What [dequeue_ring] returns of a new ring is what the controller posts, in order and once
    each, over any number of laps, as long as at most 256 events are pending. *)
Theorem dequeue_ring_refines_fifo ops outs st :
  slab_ok (slab st) → free_pages (slab st) ≠ 0%nat → run_fifo 256 ops [] = Some outs →
  ∃ r st', create_ring st = Ok (r, st') ∧ requests (run_events (trbs_phys r) ops r (0, 1) st') = requests outs.
Proof.
  intros Hs Hfree E. pose proof (create_ring_wp st Hs) as Hwp. destruct (create_ring st) as [[r st']| | |]; [|done..].
  destruct Hwp as (i & Hi & _ & Hoff & -> & Hslots & _). eexists _, st'. split; [done|]. cbn [trbs_phys].
  apply (run_events_hold _ _ _ _ _ 0 []); [|done].
  constructor; try done; [by eapply page_addr_frame|cbn [length]; lia|].
  intros n Hn. cbn [length] in Hn. apply new_slot_cycle; (done || lia).
Qed.

(** ** Witnesses: a machine with four pages of memory *)
Definition mm_ex : mm := MM (init_physical_memory 4096 (5 * PAGE_SIZE)) ∅ 0 (2 ^ 47) 0 0 [].

Lemma mm_ex_ok : slab_ok (slab mm_ex) ∧ free_pages (slab mm_ex) ≠ 0%nat.
Proof.
  split; [|vm_compute; lia]. split; [|vm_compute; done].
  by apply (init_physical_memory_wf 4096 (5 * PAGE_SIZE)).
Qed.

Lemma mm_ex_hhdm i : page_is (slab mm_ex) i false → phys_to_hhdm mm_ex (page_addr (slab mm_ex) i) ≠ 0.
Proof.
  intros Hi%page_is_range; [|apply mm_ex_ok]. change (physical_memory_pages (slab mm_ex)) with 4 in Hi.
  unfold phys_to_hhdm, page_addr, PAGE_SIZE. change (physical_memory_base (slab mm_ex)) with 8192.
  change (hhdm_offset mm_ex) with (2 ^ 47). rewrite wrap_small; lia.
Qed.

(** ** The views of the status word *)

(** Where the views of the union overlap: the cycle bit and the type are at the same bits of each. *)
Definition shares_head (l : layout) : Prop :=
  Forall (λ f, f ∈ fst <$> l ∧ offsetof l f = offsetof minimal f ∧ width_of l f = width_of minimal f) ["cycle_bit"; "trb_type"].

#[local] Instance shares_head_dec l : Decision (shares_head l).
Proof. unfold shares_head. apply _. Defined.

Lemma views_share_head : Forall shares_head status_layouts.
Proof. eapply bool_decide_unpack. vm_compute. exact I. Qed.

Lemma shared_field l f w : shares_head l → f ∈ ["cycle_bit"; "trb_type"] → f ∈ fst <$> l ∧ get l f w = get minimal f w.
Proof. intros Hl Hf. unfold shares_head in Hl. rewrite Forall_forall in Hl. destruct (Hl f Hf) as (Hin & Ho & Hw). unfold get. by rewrite Ho, Hw. Qed.

Lemma put_cycle_view l c w : shares_head l → put minimal "cycle_bit" c w = put l "cycle_bit" c w.
Proof. intros Hl. unfold shares_head in Hl. apply Forall_cons in Hl as [(_ & Ho & Hw) _]. unfold put. by rewrite Ho, Hw. Qed.

(** C29: every view of a TRB is well formed and the union is typed by [trb_type]: a designated initialiser of any view fills the 64 bits of the status word
    and each field reads back cut to its width; the type and the cycle bit that the driver reads through the minimal view are the ones the initialiser
    gave; setting the cycle bit through that view changes no other field of the view the TRB was made with. *)
Theorem trb_views_typed l i p c (t := Trb p (encode l i)) : l ∈ status_layouts →
  0 ≤ status t < 2 ^ 64 ∧
  (∀ f, f ∈ fst <$> l → get l f (status t) = init_of i f `mod` 2 ^ width_of l f) ∧
  trb_type t = init_of i "trb_type" `mod` 2 ^ 6 ∧ cycle_bit t = init_of i "cycle_bit" `mod` 2 ∧
  cycle_bit (set_cycle_bit c t) = c `mod` 2 ∧
  (∀ f, f ∈ fst <$> l → f ≠ "cycle_bit" → get l f (status (set_cycle_bit c t)) = get l f (status t)).
Proof.
  intros Hl. pose proof views_share_head as Hh. rewrite Forall_forall in Hh. specialize (Hh l Hl).
  pose proof status_layouts_ok as Hok. apply Forall_cons in Hok as [_ Hok]. rewrite Forall_forall in Hok. pose proof (Hok l Hl) as (Hsz & Hw & Hnd).
  destruct (shared_field l "trb_type" (status t) Hh) as [Ht Et]; [set_solver|]. destruct (shared_field l "cycle_bit" (status t) Hh) as [Hc Ec]; [set_solver|].
  assert (Hws : width_of l "trb_type" = 6 ∧ width_of l "cycle_bit" = 1).
  { unfold shares_head in Hh. apply Forall_cons in Hh as [(_ & _ & ->) Hh]. apply Forall_cons in Hh as [(_ & _ & ->) _]. done. }
  split; [|repeat apply conj].
  - apply (encode_range 64 l i). by split_and!.
  - intros f Hf. by apply get_encode.
  - unfold trb_type. rewrite <-Et. cbn. rewrite get_encode by done. by rewrite (proj1 Hws).
  - unfold cycle_bit. rewrite <-Ec. cbn. rewrite get_encode by done. by rewrite (proj2 Hws).
  - apply (get_put_same minimal). eapply bool_decide_unpack. vm_compute. exact I.
  - intros f Hf Hne. cbn. rewrite (put_cycle_view l) by done. by apply get_put_other.
Qed.

(** A status stage of length 0 that the driver has marked as new. *)
Lemma trb_views_typed_witness (t := Trb 0 (encode StatusStage [("trb_type", TRB_TYPE_STATUS_STAGE); ("direction", 1)])) :
  StatusStage ∈ status_layouts ∧ trb_type t = 4 ∧ cycle_bit (set_cycle_bit 1 t) = 1 ∧ get StatusStage "direction" (status (set_cycle_bit 1 t)) = 1.
Proof.
  assert (StatusStage ∈ status_layouts) as H by (repeat constructor).
  destruct (trb_views_typed StatusStage [("trb_type", TRB_TYPE_STATUS_STAGE); ("direction", 1)] 0 1 H) as (_ & Hf & Ht & _ & Hc & Ho).
  split; [exact H|]. split; [exact Ht|]. split; [exact Hc|].
  subst t. rewrite (Ho "direction") by (first [discriminate|repeat constructor]). vm_compute. reflexivity.
Defined.

(** Three hundred commands, each fetched before the next: more than a lap. *)
Definition ops_ex : list ring_op :=
  Fetch :: concat (replicate 300 [Enqueue (Trb 7 (encode NormalTRB [("trb_type", TRB_TYPE_NORMAL)])); Fetch]).

Definition outs_ex (room : nat) : list (option TRB) := default [] (run_fifo room ops_ex []).

Lemma ring_refines_fifo_witness : length (outs_ex 254) = 301%nat ∧
  ∃ r st' outs', create_ring mm_ex = Ok (r, st') ∧ run_ring (trbs_phys r) ops_ex r (0, 1) st' = Ok outs' ∧
    requests outs' = requests (outs_ex 254).
Proof.
  split; [vm_compute; reflexivity|].
  apply ring_refines_fifo; [apply mm_ex_ok|apply mm_ex_ok|apply mm_ex_hhdm|vm_compute; reflexivity].
Defined.

Lemma dequeue_ring_refines_fifo_witness : length (outs_ex 256) = 301%nat ∧
  ∃ r st', create_ring mm_ex = Ok (r, st') ∧ requests (run_events (trbs_phys r) ops_ex r (0, 1) st') = requests (outs_ex 256).
Proof.
  split; [vm_compute; reflexivity|].
  apply dequeue_ring_refines_fifo; [apply mm_ex_ok|apply mm_ex_ok|vm_compute; reflexivity].
Defined.

(** With 255 blocks pending the link is turned twice while the reader is at it: the ring looks empty. *)
Definition full_ex : list ring_op :=
  concat (replicate 255 [Enqueue (Trb 7 0); Fetch]) ++ replicate 255 (Enqueue (Trb 7 0)) ++ [Fetch].

Example full_ring_looks_empty :
  (x ← create_ring mm_ex; outs ← run_ring (trbs_phys x.1) full_ex x.1 (0, 1) x.2; Ok (last outs)) = Ok (Some None).
Proof. vm_compute. reflexivity. Qed.
