(* ===== verification/Pci.v ===== *)
(** * PCI devices: stuos/src/pci.h and pci.c

    Configuration space is behind two ports, a device's registers behind ports or mapped memory.  The
    drivers that [initialise_pci] starts are its arguments. *)
From S2P Require Import Prelude Bytes Arrays Hardware BitFields Slab Paging Idt Apic.
#[local] Open Scope string_scope.
#[local] Open Scope list_scope.
#[local] Open Scope Z_scope.

Definition CONFIG_ADDRESS : Z := 0xCF8.
Definition CONFIG_DATA : Z := 0xCFC.
Definition USE_MSI_MSIX : bool := true.

Record PciDevice := MkPciDevice { function_number : Z; device_number : Z; bus_number : Z }.

Definition ConfigAddress : layout :=
  [("register_offset", 8); ("function_number", 3); ("device_number", 5); ("bus_number", 8); ("reserved", 7); ("enable_bit", 1)].

(** [(union ConfigAddress){.register_offset = o, .device = dev, .reserved = 0, .enable_bit = 1}] *)
Definition config_address (o : Z) (dev : PciDevice) : Z :=
  encode ConfigAddress [("register_offset", o); ("function_number", function_number dev);
    ("device_number", device_number dev); ("bus_number", bus_number dev); ("reserved", 0); ("enable_bit", 1)].

(** The fields the code reads of the first 64 bytes. *)
Record PciConfigurationHeader := MkHeader {
  vendor_id : Z; device_id : Z; command : Z; pci_status : Z; revision_id : Z; prog_if : Z; subclass : Z;
  class_code : Z; header_type : Z; BAR : list Z; subsystem_id : Z
}.

Definition header_layout : layout :=
  [("vendor_id", 2); ("device_id", 2); ("command", 2); ("status", 2); ("revision_id", 1); ("prog_if", 1); ("subclass", 1);
   ("class_code", 1); ("cache_line_size", 1); ("latency_timer", 1); ("header_type", 1); ("bist", 1); ("BAR", 24);
   ("cardbus_cis_pointer", 4); ("subsystem_vendor_id", 2); ("subsystem_id", 2); ("expansion_rom_base_address", 4);
   ("capabilities_pointer", 1); ("reserved0", 1); ("reserved1", 2); ("reserved2", 4); ("interrupt_line", 1);
   ("interrupt_pin", 1); ("min_grant", 1); ("max_latency", 1)].

Definition header_field (b : list Z) (f : string) : Z :=
  field b (Z.to_nat (offsetof header_layout f)) (Z.to_nat (width_of header_layout f)).

(** The first bytes of the buffer, read as the struct. *)
Definition header_of (b : list Z) : PciConfigurationHeader := {|
  vendor_id := header_field b "vendor_id"; device_id := header_field b "device_id"; command := header_field b "command";
  pci_status := header_field b "status"; revision_id := header_field b "revision_id"; prog_if := header_field b "prog_if";
  subclass := header_field b "subclass"; class_code := header_field b "class_code"; header_type := header_field b "header_type";
  BAR := (λ i, field b (Z.to_nat (offsetof header_layout "BAR" + 4 * i)) 4) <$> seqZ 0 6;
  subsystem_id := header_field b "subsystem_id"
|}.

Record BarInfo := MkBar { bar_size : Z; address : Z; virtual_address : Z; is_io_bar : bool }.
Definition no_bar : BarInfo := MkBar 0 0 0 false.

Record PciData := MkPciData { bar_list : list BarInfo; allocated_interrupt : Z }.

(** The message control words of the two capabilities. *)
Definition MSI_control : layout :=
  [("enable", 1); ("multiple_message_capable", 3); ("multiple_message_enable", 3); ("is_64_bit", 1);
   ("per_vector_masking", 1); ("reserved_1", 7)].
Definition MSIX_control : layout := [("table_size", 11); ("reserved_0", 3); ("function_mask", 1); ("enable", 1)].
Definition message_data : layout :=
  [("vector", 8); ("delivery_mode", 3); ("reserved_2", 3); ("level", 1); ("trigger_mode", 1)].

(** [n] bytes of a buffer as an integer, and the store of one. *)
Definition load_buf (b : list Z) (i n : Z) : outcome Z :=
  if (0 <=? i) && (i + n <=? Z.of_nat (length b)) then Ok (field b (Z.to_nat i) (Z.to_nat n)) else Undef.
Definition store_buf (b : list Z) (i n v : Z) : outcome (list Z) :=
  if (0 <=? i) && (i + n <=? Z.of_nat (length b)) then
    Ok (take (Z.to_nat i) b ++ le_bytes (Z.to_nat n) v ++ drop (Z.to_nat (i + n)) b)
  else Undef.

Section pci.
Context {D : Type} `{!PortIO D} `{!Mmio D} {H : Type}.

(** What the code of this file works on: the devices with the local APIC, and the interrupt vectors. *)
Record machine := Machine { hw : @apic D; idt : idt_state (H := H) }.
Definition with_hw (h : apic) (w : machine) : machine := Machine h (idt w).
Definition with_idt (i : idt_state) (w : machine) : machine := Machine (hw w) i.

Definition on_device {A} (m : io D A) : io machine A := λ w,
  '(a, d) ← m (device (hw w)); Ok (a, with_hw (with_device d (hw w)) w).
Definition on_hw {A} (m : io apic A) : io machine A := λ w, '(a, h) ← m (hw w); Ok (a, with_hw h w).
Definition on_idt {A} (m : io (idt_state (H := H)) A) : io machine A := λ w, '(a, i) ← m (idt w); Ok (a, with_idt i w).

(** ** Configuration space *)
Definition config_read (addr : Z) : io D Z := _ ← out32 CONFIG_ADDRESS addr; in32 CONFIG_DATA.
Definition config_write (addr value : Z) : io D () := _ ← out32 CONFIG_ADDRESS addr; out32 CONFIG_DATA value.

Definition io_list {A} (l : list Z) (f : Z → io D A) : io D (list A) :=
  foldr (λ x (rest : io D (list A)), a ← f x; k ← rest; mret (a :: k)) (mret []) l.

(** [for(int i=0; i<256; i += 4)] *)
Definition register_offsets : list Z := (λ k, 4 * k) <$> seqZ 0 64.

Definition read_header (dev : PciDevice) : io D (list Z) :=
  dwords ← io_list register_offsets (λ i, config_read (config_address i dev));
  mret (concat (le_bytes 4 <$> dwords)).

Definition write_header (dev : PciDevice) (input_buffer : list Z) : io D () :=
  _ ← io_list register_offsets (λ i, config_write (config_address i dev) (field input_buffer (Z.to_nat i) 4));
  mret ().

Definition get_bar_size_32 (original_bar addr : Z) : io D Z :=
  _ ← config_write addr 0xFFFFFFFF;
  bar_size ← config_read addr;
  let bar_size := u32 (u32 (Z.lnot bar_size) + 1) in
  _ ← config_write addr original_bar;
  mret bar_size.

Definition get_bar_size_64 (original_bar_low original_bar_high addr_low addr_high : Z) : io D Z :=
  _ ← config_write addr_low 0xFFFFFFFF;
  _ ← config_write addr_high 0xFFFFFFFF;
  high ← config_read addr_high;
  low ← config_read addr_low;
  let bar_size := Z.lor (u64 (Z.shiftl high 32)) low in
  let bar_size := u64 (u64 (Z.lnot bar_size) + 1) in
  _ ← config_write addr_low original_bar_low;
  _ ← config_write addr_high original_bar_high;
  mret bar_size.

(** [bar & ~0xFul] *)
Definition bar_address (bar : Z) : Z := Z.land bar (u64 (Z.lnot 0xF)).

Definition map_bar (phys size : Z) : io machine Z := on_hw (λ h,
  '(p, st) ← setup_mmio phys size (memory h); Ok (p, with_memory st h)).

Definition handle_bar_step (dev : PciDevice) (header : PciConfigurationHeader) (s : Z * list BarInfo)
    : io machine ((Z * list BarInfo) + list BarInfo) :=
  let '(index, output) := s in
  if 6 <=? index then mret (inr output)
  else
    let addr_low := config_address (0x10 + 4 * index) dev in
    let addr_high := config_address (0x14 + 4 * index) dev in
    bar_val_low ← lift (arr_get (BAR header) index);
    if negb (Z.land bar_val_low 1 =? 0) then
      sz ← on_device (get_bar_size_32 bar_val_low addr_low);
      output ← lift (arr_set output index (MkBar sz (bar_address bar_val_low) 0 true));
      mret (inl (index + 1, output))
    else
      let type := Z.land (Z.shiftr bar_val_low 1) 3 in
      if type =? 0 then
        sz ← on_device (get_bar_size_32 bar_val_low addr_low);
        let address := bar_address bar_val_low in
        virtual_address ← map_bar address sz;
        output ← lift (arr_set output index (MkBar sz address virtual_address false));
        mret (inl (index + 1, output))
      else if type =? 2 then
        bar_val_high ← lift (arr_get (BAR header) (index + 1));
        sz ← on_device (get_bar_size_64 bar_val_low bar_val_high addr_low addr_high);
        let address := Z.lor (u64 (Z.shiftl bar_val_high 32)) (bar_address bar_val_low) in
        virtual_address ← map_bar address sz;
        let bar := MkBar sz address virtual_address false in
        output ← lift (arr_set output index bar);
        output ← lift (arr_set output (index + 1) bar);
        mret (inl (index + 2, output))
      else lift Halt.

Definition handle_bar (dev : PciDevice) (header : PciConfigurationHeader) (output_bar_list : list BarInfo) : io machine (list BarInfo) :=
  io_while 7 (handle_bar_step dev header) (0, output_bar_list).

(** ** Device registers *)
Definition read_bar_32 (bar : BarInfo) (offset : Z) : io D Z := λ d,
  _ ← c_assert (offset `mod` 4 =? 0);
  if is_io_bar bar then
    _ ← hcf_if (0xFFFF <? u64 (address bar + offset));
    in32 (u64 (address bar + offset)) d
  else '(v, d) ← mmio_read32 (u64 (virtual_address bar + offset)) d; Ok (u32 v, d).

Definition write_bar_32 (bar : BarInfo) (src offset : Z) : io D () := λ d,
  _ ← c_assert (offset `mod` 4 =? 0);
  if is_io_bar bar then
    _ ← hcf_if (0xFFFF <? u64 (address bar + offset));
    out32 (u64 (address bar + offset)) src d
  else d ← mmio_write32 (u64 (virtual_address bar + offset)) (u32 src) d; Ok ((), d).

(** ** Capabilities *)

(** One entry of the capability list: the pointer, and where the two capabilities were seen. *)
Definition capability_step (b : list Z) (s : Z * Z * Z) : outcome ((Z * Z * Z) + (Z * Z)) :=
  let '(ptr, msi_idx, msix_idx) := s in
  if ptr =? 0 then Ok (inr (msi_idx, msix_idx))
  else
    capability_id ← arr_get b ptr;
    let '(msi_idx, msix_idx) :=
      if capability_id =? 0x05 then (u8 (ptr + 2), msix_idx)
      else if capability_id =? 0x11 then (msi_idx, u8 (ptr + 2))
      else (msi_idx, msix_idx) in
    next ← arr_get b (ptr + 1);
    Ok (inl (next, msi_idx, msix_idx)).

Definition find_capabilities (fuel : nat) (b : list Z) : outcome (Z * Z) :=
  p ← arr_get b 0x34; c_while fuel (capability_step b) (p, 0, 0).

(** The MSI-X branch: the vector, and the bytes written back. *)
Definition setup_msix (dev : PciDevice) (bars : list BarInfo) (b : list Z) (msix_idx : Z) : io machine Z :=
  control ← lift (load_buf b msix_idx 2);
  _ ← lift (c_assert (get MSIX_control "enable" control =? 0));
  let table_size := get MSIX_control "table_size" control + 1 in
  b ← lift (store_buf b msix_idx 2 (put MSIX_control "enable" 1 control));
  table_address ← lift (load_buf b (msix_idx + 2) 4);
  let bar_number := Z.land table_address 7 in
  let table_addr := Z.land table_address (u32 (Z.lnot 7)) in
  allocated_vec ← on_idt allocate_free_idt_entry;
  bar ← lift (arr_get bars bar_number);
  a ← on_hw get_lapic_magic_address;
  _ ← on_device (write_bar_32 bar (Z.land a 0xFFFFFFFF) table_addr);
  a ← on_hw get_lapic_magic_address;
  _ ← on_device (write_bar_32 bar (Z.shiftr a 32) (table_addr + 4));
  _ ← on_device (write_bar_32 bar allocated_vec (table_addr + 8));
  _ ← on_device (write_bar_32 bar 0 (table_addr + 12));
  _ ← on_device (io_list (seqZ 1 (table_size - 1)) (λ i, write_bar_32 bar 1 (table_addr + i * 16 + 12)));
  _ ← on_device (write_header dev b);
  mret allocated_vec.

(** The MSI branch. *)
Definition setup_msi (dev : PciDevice) (b : list Z) (msi_idx : Z) : io machine Z :=
  control ← lift (load_buf b msi_idx 2);
  _ ← lift (c_assert (get MSI_control "enable" control =? 0));
  let control := put MSI_control "enable" 1 (put MSI_control "multiple_message_enable" 0 control) in
  b ← lift (store_buf b msi_idx 2 control);
  allocated_vec ← on_idt allocate_free_idt_entry;
  message_address ← on_hw get_lapic_magic_address;
  b ← (if get MSI_control "is_64_bit" control =? 1 then
         b ← lift (store_buf b (msi_idx + 2) 8 message_address);
         data ← lift (load_buf b (msi_idx + 10) 2);
         lift (store_buf b (msi_idx + 10) 2 (put message_data "vector" allocated_vec data))
       else
         _ ← lift (c_assert (Z.land message_address 0xFFFFFFFF00000000 =? 0));
         b ← lift (store_buf b (msi_idx + 2) 4 message_address);
         data ← lift (load_buf b (msi_idx + 6) 2);
         lift (store_buf b (msi_idx + 6) 2 (put message_data "vector" allocated_vec data)));
  _ ← on_device (write_header dev b);
  mret allocated_vec.

(** ** The scan of the buses *)
Section scan.
Context (initialise_virtio : PciConfigurationHeader → list BarInfo → io machine ())
        (initialise_xhci : PciDevice → PciData → io machine ()).

Definition setup_interrupt (fuel : nat) (dev : PciDevice) (header : PciConfigurationHeader) (bars : list BarInfo) (b : list Z) : io machine Z :=
  if negb (Z.land (pci_status header) (Z.shiftl 1 4) =? 0) then
    caps ← lift (find_capabilities fuel b);
    if negb (caps.2 =? 0) && USE_MSI_MSIX then setup_msix dev bars b caps.2
    else if negb (caps.1 =? 0) && USE_MSI_MSIX then setup_msi dev b caps.1
    else mret 0
  else mret 0.

Definition initialise_function (fuel : nat) (dev : PciDevice) : io machine () :=
  b ← on_device (read_header dev);
  let header := header_of b in
  if vendor_id header =? 0xFFFF then mret ()
  else if negb (header_type header =? 0) then mret ()
  else
    bars ← handle_bar dev header (replicate 6 no_bar);
    vec ← setup_interrupt fuel dev header bars b;
    _ ← (if vendor_id header =? 0x1AF4 then initialise_virtio header bars else mret ());
    if (class_code header =? 0x0C) && (subclass header =? 0x03) && (prog_if header =? 0x30) then
      initialise_xhci dev (MkPciData bars vec)
    else mret ().

(** Every function of every device of every bus. *)
Definition all_functions : list PciDevice :=
  bus ← seqZ 0 256; device ← seqZ 0 32; (λ function, MkPciDevice function device bus) <$> seqZ 0 8.

Definition initialise_pci (fuel : nat) : io machine () :=
  foldr (λ dev (rest : io machine ()), _ ← initialise_function fuel dev; rest) (mret ()) all_functions.
End scan.
End pci.
