(* ===== verification/PciSpec.v ===== *)
(** * What the PCI code does *)
From S2P Require Import Prelude Bytes Arrays Hardware BitFields Slab Paging Idt Apic Pci.
#[local] Open Scope string_scope.
#[local] Open Scope list_scope.
#[local] Open Scope Z_scope.
#[local] Arguments wrap : simpl never.

(** ** Configuration addresses *)
Definition pci_device_ok (dev : PciDevice) : Prop :=
  0 ≤ function_number dev < 8 ∧ 0 ≤ device_number dev < 32 ∧ 0 ≤ bus_number dev < 256.

Lemma config_address_fields o dev : 0 ≤ o < 256 → pci_device_ok dev →
  get ConfigAddress "register_offset" (config_address o dev) = o ∧
  get ConfigAddress "function_number" (config_address o dev) = function_number dev ∧
  get ConfigAddress "device_number" (config_address o dev) = device_number dev ∧
  get ConfigAddress "bus_number" (config_address o dev) = bus_number dev ∧
  get ConfigAddress "enable_bit" (config_address o dev) = 1.
Proof.
  intros Ho (Hf & Hd & Hb). unfold config_address.
  split_and!; (rewrite get_encode; [|repeat constructor|set_solver]); cbn [init_of foldr fst snd String.eqb Ascii.eqb Bool.eqb];
    apply Z.mod_small; done.
Qed.

Lemma config_address_range o dev : 0 ≤ config_address o dev < 2 ^ 32.
Proof. apply encode_range. apply (bool_decide_unpack (layout_ok 32 ConfigAddress)). vm_compute. exact I. Qed.

(** Every register of every function of the 65536 has its own address, and every address is enabled. *)
Theorem config_address_injective o o' dev dev' :
  0 ≤ o < 256 → 0 ≤ o' < 256 → pci_device_ok dev → pci_device_ok dev' →
  config_address o dev = config_address o' dev' → o = o' ∧ dev = dev'.
Proof.
  intros Ho Ho' Hd Hd' E. destruct (config_address_fields o dev Ho Hd) as (E1 & E2 & E3 & E4 & _).
  destruct (config_address_fields o' dev' Ho' Hd') as (F1 & F2 & F3 & F4 & _). rewrite E in *.
  split; [congruence|]. destruct dev, dev'; simpl in *. congruence.
Qed.

(** ** Configuration space as registers

    [cfg d a] is the register that address [a] selects, [writable d a] its writable bits. *)
Class ConfigSpace (D : Type) `{!PortIO D} := {
  cfg : D → Z → Z;
  writable : D → Z → Z;
  cfg_range d a : 0 ≤ cfg d a < 2 ^ 32;
  config_read_law a d : 0 ≤ a < 2 ^ 32 → ∃ d', config_read a d = Ok (cfg d a, d') ∧ cfg d' = cfg d ∧ writable d' = writable d;
  config_write_law a v d : 0 ≤ a < 2 ^ 32 → 0 ≤ v < 2 ^ 32 → ∃ d', config_write a v d = Ok ((), d') ∧ writable d' = writable d ∧
    ∀ b, 0 ≤ b < 2 ^ 32 → cfg d' b = if decide (b = a) then Z.lor (Z.land v (writable d a)) (Z.land (cfg d a) (Z.lnot (writable d a))) else cfg d b
}.
#[global] Hint Mode ConfigSpace + - : typeclass_instances.

Section config.
Context {D : Type} `{!PortIO D} `{!Mmio D} `{!ConfigSpace D} {H : Type}.

Lemma io_list_spec {A} (f : Z → io D A) (g : Z → A) (I : D → Prop) l : ∀ d,
  I d → (∀ x d, x ∈ l → I d → ∃ d', f x d = Ok (g x, d') ∧ I d') →
  ∃ d', io_list l f d = Ok (g <$> l, d') ∧ I d'.
Proof.
  induction l as [|x l IH]; intros d Hd Hf; [by exists d|]. cbn [io_list foldr].
  destruct (Hf x d) as (d1 & E & Hd1); [by left|done|]. rewrite (io_bind_Ok _ _ _ _ _ E).
  destruct (IH d1 Hd1) as (d2 & E2 & Hd2); [intros y d' Hy; apply Hf; by right|].
  exists d2. fold (io_list l f). by rewrite (io_bind_Ok _ _ _ _ _ E2).
Qed.

(** [read_header] returns the 64 registers of the function, each in its four bytes. *)
Lemma read_header_registers dev (d : D) : ∃ d', read_header dev d =
    Ok (concat ((λ i, le_bytes 4 (cfg d (config_address i dev))) <$> register_offsets), d') ∧
  cfg d' = cfg d ∧ writable d' = writable d.
Proof.
  destruct (io_list_spec (λ i, config_read (config_address i dev)) (λ i, cfg d (config_address i dev))
    (λ d', cfg d' = cfg d ∧ writable d' = writable d) register_offsets d) as (d' & E & Hd').
  - done.
  - intros i d1 _ [Hc Hw]. destruct (config_read_law (config_address i dev) d1) as (d2 & E & Hc2 & Hw2); [apply config_address_range|].
    exists d2. rewrite E, Hc, Hc2, Hw2. done.
  - exists d'. split; [|done]. unfold read_header. rewrite (io_bind_Ok _ _ _ _ _ E). unfold mret, io_ret. do 3 f_equal.
Qed.

Lemma concat_field (l : list Z) k o w v : l !! k = Some v → (o + w ≤ 4)%nat →
  field (concat (le_bytes 4 <$> l)) (4 * k + o) w = field (le_bytes 4 v) o w.
Proof.
  revert k. induction l as [|x l IH]; intros k Hk Ho; [done|]. rewrite fmap_cons. cbn [concat].
  destruct k as [|k]; cbn [lookup list_lookup] in Hk.
  - injection Hk as ->. apply field_app_l. rewrite le_bytes_length. lia.
  - rewrite <-(IH k Hk Ho). unfold field. rewrite drop_app_ge by (rewrite le_bytes_length; lia).
    rewrite le_bytes_length. do 3 f_equal. lia.
Qed.

(** The header that the code tests is made of these registers: the words of a register are its halves. *)
Theorem read_header_spec dev (d : D) : ∃ b d', read_header dev d = Ok (b, d') ∧ cfg d' = cfg d ∧ writable d' = writable d ∧
  let r i := cfg d (config_address i dev) in
  length b = 256%nat ∧
  vendor_id (header_of b) = bits 0 16 (r 0) ∧ device_id (header_of b) = bits 16 16 (r 0) ∧
  pci_status (header_of b) = bits 16 16 (r 4) ∧
  revision_id (header_of b) = bits 0 8 (r 8) ∧ prog_if (header_of b) = bits 8 8 (r 8) ∧
  subclass (header_of b) = bits 16 8 (r 8) ∧ class_code (header_of b) = bits 24 8 (r 8) ∧
  header_type (header_of b) = bits 16 8 (r 0xC) ∧
  BAR (header_of b) = (λ i, r (0x10 + 4 * i)) <$> seqZ 0 6.
Proof.
  destruct (read_header_registers dev d) as (d' & E & Hc & Hw). eexists _, d'. split; [exact E|]. split; [done|]. split; [done|].
  intros r. change ((λ i, le_bytes 4 (cfg d (config_address i dev))) <$> register_offsets)
    with (le_bytes 4 ∘ r <$> register_offsets). rewrite list_fmap_compose. set (l := r <$> register_offsets).
  assert (∀ k : nat, (k < 64)%nat → l !! k = Some (r (4 * Z.of_nat k))) as Hl.
  { intros k Hk. unfold l, register_offsets. rewrite !list_lookup_fmap, lookup_seqZ_lt by lia. done. }
  assert (∀ k o w : nat, (k < 64)%nat → (o + w ≤ 4)%nat →
    field (concat (le_bytes 4 <$> l)) (4 * k + o) w = bits (8 * Z.of_nat o) (8 * Z.of_nat w) (r (4 * Z.of_nat k))) as Hf.
  { intros k o w Hk Ho. rewrite (concat_field l k o w _ (Hl k Hk) Ho). by apply field_le_bytes. }
  split; [done|].
  split_and!; [exact (Hf 0%nat 0%nat 2%nat ltac:(lia) ltac:(lia))|exact (Hf 0%nat 2%nat 2%nat ltac:(lia) ltac:(lia))
    |exact (Hf 1%nat 2%nat 2%nat ltac:(lia) ltac:(lia))|exact (Hf 2%nat 0%nat 1%nat ltac:(lia) ltac:(lia))
    |exact (Hf 2%nat 1%nat 1%nat ltac:(lia) ltac:(lia))|exact (Hf 2%nat 2%nat 1%nat ltac:(lia) ltac:(lia))
    |exact (Hf 2%nat 3%nat 1%nat ltac:(lia) ltac:(lia))|exact (Hf 3%nat 2%nat 1%nat ltac:(lia) ltac:(lia))|].
  apply list_eq. intros i. cbn [BAR header_of]. rewrite !list_lookup_fmap. destruct (decide (i < 6)%nat) as [Hi|Hi].
  - rewrite !lookup_seqZ_lt by lia. cbn [fmap option_fmap option_map]. f_equal.
    change (offsetof header_layout "BAR") with 16. replace (Z.to_nat (16 + 4 * (0 + Z.of_nat i))) with (4 * (4 + i) + 0)%nat by lia.
    rewrite Hf by lia. unfold bits. change (2 ^ (8 * Z.of_nat 0)) with 1. rewrite Z.div_1_r, Z.mod_small by apply cfg_range.
    f_equal. lia.
  - by rewrite !lookup_seqZ_ge by lia.
Qed.

(** ** The size of a base address register

    The low bits of such a register are fixed and say what it is; its high bits, from [2^k] on, can be
    written, when the device decodes [2^k] bytes. *)
Definition size_mask (k : Z) : Z := 2 ^ 32 - 2 ^ k.

Lemma size_mask_bit k i : 0 ≤ k ≤ 32 → 0 ≤ i → Z.testbit (size_mask k) i = (k <=? i) && (i <? 32).
Proof.
  intros Hk Hi. replace (size_mask k) with (Z.shiftl (Z.ones (32 - k)) k).
  2: { unfold size_mask. rewrite Z.shiftl_mul_pow2, Z.ones_equiv by lia.
       replace (2 ^ 32) with (2 ^ (32 - k) * 2 ^ k) by (rewrite <-Z.pow_add_r by lia; f_equal; lia). lia. }
  rewrite Z.shiftl_spec by done. destruct (Z.leb_spec k i); [|by rewrite Z.testbit_neg_r by lia].
  rewrite Z.testbit_ones by lia. destruct (Z.ltb_spec i 32); lia.
Qed.

(** Writing [v] over [c]: the high bits of one and the low bits of the other. *)
Lemma masked_write k v c : 0 ≤ k ≤ 32 → 0 ≤ v < 2 ^ 32 → 0 ≤ c < 2 ^ 32 →
  Z.lor (Z.land v (size_mask k)) (Z.land c (Z.lnot (size_mask k))) = v - v `mod` 2 ^ k + c `mod` 2 ^ k.
Proof.
  intros Hk Hv Hc. replace (v - v `mod` 2 ^ k + c `mod` 2 ^ k) with (c `mod` 2 ^ k + (v `div` 2 ^ k) * 2 ^ k).
  2: { pose proof (Z.div_mod v (2 ^ k)). lia. }
  rewrite <-lor_shiftl by (try apply Z.mod_pos_bound; lia). apply Z.bits_inj'. intros i Hi.
  rewrite !Z.lor_spec, !Z.land_spec, Z.lnot_spec, size_mask_bit, Z.shiftl_spec by lia. destruct (Z.leb_spec k i).
  - rewrite (Z.mod_pow2_bits_high c) by lia. rewrite Z.div_pow2_bits by lia. replace (i - k + k) with i by lia.
    destruct (Z.ltb_spec i 32); simpl; [by rewrite !andb_true_r, andb_false_r, orb_false_r|].
    by rewrite (testbit_above v 32), (testbit_above c 32) by lia.
  - rewrite Z.mod_pow2_bits_low by lia. rewrite (Z.testbit_neg_r (v `div` 2 ^ k)) by lia. simpl.
    by rewrite andb_false_r, andb_true_r, orb_false_r.
Qed.

(** A register after all ones were written to it, and after its value was written back. *)
Lemma probed k o : 0 ≤ k ≤ 32 → 0 ≤ o < 2 ^ 32 →
  Z.lor (Z.land 0xFFFFFFFF (size_mask k)) (Z.land o (Z.lnot (size_mask k))) = 2 ^ 32 - 2 ^ k + o `mod` 2 ^ k.
Proof.
  intros Hk Ho. rewrite masked_write by lia. assert (2 ^ 32 = 2 ^ (32 - k) * 2 ^ k) as Hdiv by (rewrite <-Z.pow_add_r by lia; f_equal; lia).
  assert (0xFFFFFFFF `mod` 2 ^ k = 2 ^ k - 1) as ->; [|lia].
  pose proof (Z.pow_pos_nonneg 2 k ltac:(lia) ltac:(lia)). symmetry. apply (Z.mod_unique _ _ (2 ^ (32 - k) - 1)); lia.
Qed.

Lemma probed_range k o : 0 ≤ k ≤ 32 → 0 ≤ 2 ^ 32 - 2 ^ k + o `mod` 2 ^ k < 2 ^ 32.
Proof. intros Hk. pose proof (Z.pow_le_mono_r 2 k 32). pose proof (Z.mod_pos_bound o (2 ^ k) ltac:(lia)). lia. Qed.

Lemma put_back k o : 0 ≤ k ≤ 32 → 0 ≤ o < 2 ^ 32 →
  Z.lor (Z.land o (size_mask k)) (Z.land (2 ^ 32 - 2 ^ k + o `mod` 2 ^ k) (Z.lnot (size_mask k))) = o.
Proof.
  intros Hk Ho. rewrite masked_write by (try apply probed_range; lia).
  assert (2 ^ 32 = 2 ^ (32 - k) * 2 ^ k) as Hdiv by (rewrite <-Z.pow_add_r by lia; f_equal; lia).
  replace (2 ^ 32 - 2 ^ k + o `mod` 2 ^ k) with (o `mod` 2 ^ k + (2 ^ (32 - k) - 1) * 2 ^ k) by lia.
  rewrite Z_mod_plus_full, Z.mod_mod by lia. lia.
Qed.

(** A register of 32 bits and a pair of registers decode [2^k] bytes. *)
Definition decodes_32 (d : D) (addr k : Z) : Prop := 0 ≤ addr < 2 ^ 32 ∧ 0 ≤ k < 32 ∧ writable d addr = size_mask k.
Definition decodes_64 (d : D) (low high k : Z) : Prop :=
  0 ≤ low < 2 ^ 32 ∧ 0 ≤ high < 2 ^ 32 ∧ low ≠ high ∧ 0 ≤ k < 64 ∧
  writable d low = size_mask (k `min` 32) ∧ writable d high = size_mask ((k - 32) `max` 0).
Definition registers_kept (d d' : D) : Prop := writable d' = writable d ∧ ∀ b, 0 ≤ b < 2 ^ 32 → cfg d' b = cfg d b.

Lemma bar_size_32 addr (d : D) k : decodes_32 d addr k →
  ∃ d', get_bar_size_32 (cfg d addr) addr d = Ok (2 ^ k - cfg d addr `mod` 2 ^ k, d') ∧ registers_kept d d'.
Proof.
  intros (Haddr & Hk & Hw). pose proof (cfg_range d addr) as Hr. set (o := cfg d addr) in *.
  pose proof (Z.mod_pos_bound o (2 ^ k) ltac:(lia)) as Hm.
  assert (2 ^ k < 2 ^ 32) as H32 by (apply Z.pow_lt_mono_r; lia).
  unfold get_bar_size_32.
  destruct (config_write_law addr 0xFFFFFFFF d Haddr ltac:(lia)) as (d1 & E1 & Hw1 & Hc1). rewrite (io_bind_Ok _ _ _ _ _ E1).
  destruct (config_read_law addr d1 Haddr) as (d2 & E2 & Hc2 & Hw2). rewrite (io_bind_Ok _ _ _ _ _ E2).
  assert (cfg d1 addr = 2 ^ 32 - 2 ^ k + o `mod` 2 ^ k) as HA by (rewrite Hc1, decide_True, Hw by done; apply probed; lia).
  rewrite HA. destruct (config_write_law addr o d2 Haddr ltac:(lia)) as (d3 & E3 & Hw3 & Hc3). rewrite (io_bind_Ok _ _ _ _ _ E3).
  exists d3. split; [|split].
  - unfold mret, io_ret. do 2 f_equal. unfold wrap, Z.lnot. rewrite Zplus_mod_idemp_l. symmetry.
    apply (Z.mod_unique _ _ (-1)); lia.
  - congruence.
  - intros b Hb'. rewrite Hc3, Hc2, Hw2, Hw1 by done. case_decide as Hb; [subst b|by rewrite Hc1, decide_False].
    rewrite HA, Hw. apply put_back; lia.
Qed.

(** The two halves that are read back, as one number. *)
Lemma probed_64 k low high : 0 ≤ k < 64 → 0 ≤ low < 2 ^ 32 → 0 ≤ high < 2 ^ 32 →
  let kl := k `min` 32 in let kh := (k - 32) `max` 0 in
  (2 ^ 32 - 2 ^ kh + high `mod` 2 ^ kh) * 2 ^ 32 + (2 ^ 32 - 2 ^ kl + low `mod` 2 ^ kl) = 2 ^ 64 - 2 ^ k + (high * 2 ^ 32 + low) `mod` 2 ^ k.
Proof.
  intros Hk Hl Hh kl kh. subst kl kh. destruct (Z.le_ge_cases k 32) as [Hle|Hge].
  - rewrite Z.min_l, Z.max_r by lia. change (2 ^ 0) with 1. rewrite Z.mod_1_r.
    assert (2 ^ 32 = 2 ^ (32 - k) * 2 ^ k) as Hdiv by (rewrite <-Z.pow_add_r by lia; f_equal; lia).
    replace (high * 2 ^ 32 + low) with (low + (high * 2 ^ (32 - k)) * 2 ^ k) by (rewrite Hdiv; ring). rewrite Z_mod_plus_full. lia.
  - rewrite Z.min_r, Z.max_l by lia. rewrite (Z.mod_small low) by lia.
    assert (2 ^ k = 2 ^ (k - 32) * 2 ^ 32) as Hdiv by (rewrite <-Z.pow_add_r by lia; f_equal; lia).
    pose proof (Z.pow_pos_nonneg 2 (k - 32) ltac:(lia) ltac:(lia)) as Hp. pose proof (Z.mod_pos_bound high (2 ^ (k - 32)) Hp) as Hm.
    rewrite <-(Z.mod_unique (high * 2 ^ 32 + low) (2 ^ k) (high `div` 2 ^ (k - 32)) (high `mod` 2 ^ (k - 32) * 2 ^ 32 + low)); [lia|left; nia|].
    pose proof (Z.div_mod high (2 ^ (k - 32)) ltac:(lia)). nia.
Qed.

Lemma bar_size_64 low high (d : D) k : decodes_64 d low high k →
  ∃ d', get_bar_size_64 (cfg d low) (cfg d high) low high d = Ok (2 ^ k - (cfg d high * 2 ^ 32 + cfg d low) `mod` 2 ^ k, d') ∧ registers_kept d d'.
Proof.
  intros (Hl & Hh & Hne & Hk & Hwl & Hwh). pose proof (cfg_range d low) as Hrl. pose proof (cfg_range d high) as Hrh.
  set (kl := k `min` 32) in *. set (kh := (k - 32) `max` 0) in *. pose proof (probed_64 k _ _ Hk Hrl Hrh) as EV. cbv zeta in EV. fold kl kh in EV.
  assert (0 ≤ kl ≤ 32 ∧ 0 ≤ kh ≤ 32) as [Hkl Hkh] by lia. clearbody kl kh.
  unfold get_bar_size_64.
  destruct (config_write_law low 0xFFFFFFFF d Hl ltac:(lia)) as (d1 & E1 & Hw1 & Hc1). rewrite (io_bind_Ok _ _ _ _ _ E1).
  destruct (config_write_law high 0xFFFFFFFF d1 Hh ltac:(lia)) as (d2 & E2 & Hw2 & Hc2). rewrite (io_bind_Ok _ _ _ _ _ E2).
  destruct (config_read_law high d2 Hh) as (d3 & E3 & Hc3 & Hw3). rewrite (io_bind_Ok _ _ _ _ _ E3).
  destruct (config_read_law low d3 Hl) as (d4 & E4 & Hc4 & Hw4). rewrite (io_bind_Ok _ _ _ _ _ E4).
  assert (cfg d2 high = 2 ^ 32 - 2 ^ kh + cfg d high `mod` 2 ^ kh) as HH.
  { rewrite Hc2, decide_True, Hw1, Hwh, Hc1, decide_False by (done || congruence). apply probed; lia. }
  assert (cfg d2 low = 2 ^ 32 - 2 ^ kl + cfg d low `mod` 2 ^ kl) as HL.
  { rewrite Hc2, decide_False, Hc1, decide_True, Hwl by done. apply probed; lia. }
  rewrite Hc3, HH, HL.
  destruct (config_write_law low (cfg d low) d4 Hl Hrl) as (d5 & E5 & Hw5 & Hc5). rewrite (io_bind_Ok _ _ _ _ _ E5).
  destruct (config_write_law high (cfg d high) d5 Hh Hrh) as (d6 & E6 & Hw6 & Hc6). rewrite (io_bind_Ok _ _ _ _ _ E6).
  exists d6. split; [|split].
  - unfold mret, io_ret. do 2 f_equal. pose proof (probed_range kl (cfg d low) Hkl) as RL. pose proof (probed_range kh (cfg d high) Hkh) as RH.
    revert EV RL RH. generalize (2 ^ 32 - 2 ^ kl + cfg d low `mod` 2 ^ kl) (2 ^ 32 - 2 ^ kh + cfg d high `mod` 2 ^ kh). intros vl vh EV RL RH.
    rewrite (wrap_small 64 (Z.shiftl vh 32)) by (rewrite Z.shiftl_mul_pow2 by lia; lia). rewrite Z.lor_comm, lor_shiftl by lia.
    pose proof (Z.pow_pos_nonneg 2 k ltac:(lia) ltac:(lia)). assert (2 ^ k < 2 ^ 64) by (apply Z.pow_lt_mono_r; lia).
    pose proof (Z.mod_pos_bound (cfg d high * 2 ^ 32 + cfg d low) (2 ^ k) ltac:(lia)).
    unfold wrap, Z.lnot. rewrite Zplus_mod_idemp_l. symmetry. apply (Z.mod_unique _ _ (-1)); lia.
  - congruence.
  - intros b Hb. rewrite Hc6, Hc5 by done. rewrite Hw5, Hw4, Hw3, Hw2, Hw1, Hc5, Hc4, Hc3 by done. repeat case_decide; subst; try done.
    + rewrite HH, Hwh. apply put_back; lia.
    + rewrite Hw4, Hw3, Hw2, Hw1, HL, Hwl. apply put_back; lia.
    + by rewrite Hc2, decide_False, Hc1, decide_False.
Qed.

(** C24: The size the code computes for a base address register, of 32 or of 64 bits, that decodes [2^k] bytes is short by what its fixed low bits
    hold (1 for ports, 4 or 12 for 64-bit memory, 8 for prefetchable 32-bit memory, 0 otherwise); every register is left as it was. *)
Theorem get_bar_size_spec (d : D) :
  (∀ addr k, decodes_32 d addr k →
     ∃ d', get_bar_size_32 (cfg d addr) addr d = Ok (2 ^ k - cfg d addr `mod` 2 ^ k, d') ∧ registers_kept d d') ∧
  (∀ low high k, decodes_64 d low high k →
     ∃ d', get_bar_size_64 (cfg d low) (cfg d high) low high d = Ok (2 ^ k - (cfg d high * 2 ^ 32 + cfg d low) `mod` 2 ^ k, d') ∧ registers_kept d d').
Proof. split; intros; [by apply bar_size_32|by apply bar_size_64]. Qed.
End config.

(** ** The capability list *)

(** The list that starts at pointer [p]: the pointers and identifiers of its entries, up to the null pointer. *)
Inductive cap_chain (b : list Z) : Z → list (Z * Z) → Prop :=
  | chain_end : cap_chain b 0 []
  | chain_next p c q l : 0 < p → b !! Z.to_nat p = Some c → b !! Z.to_nat (p + 1) = Some q → cap_chain b q l →
      cap_chain b p ((p, c) :: l).

(** Where the data of the last capability [c] of a list is, 0 when there is none. *)
Definition last_capability (c : Z) (l : list (Z * Z)) (found : Z) : Z :=
  foldl (λ found pc, if pc.2 =? c then u8 (pc.1 + 2) else found) found l.

Lemma cap_chain_fun b p l l' : cap_chain b p l → cap_chain b p l' → l = l'.
Proof.
  intros H. revert l'. induction H as [|p c q l Hp Hc Hq H IH]; intros l' H'; inversion H'; subst; try lia; [done|].
  simplify_eq. f_equal. by apply IH.
Qed.

(** The entries after one of the list are a list of their own. *)
Lemma cap_chain_suffix b p l x : cap_chain b p l → x ∈ l.*1 → ∃ l', cap_chain b x l' ∧ (length l' ≤ length l)%nat ∧ (x = p ∨ length l' < length l)%nat.
Proof.
  intros H. induction H as [|p c q l Hp Hc Hq H IH]; intros Hx; [by apply not_elem_of_nil in Hx|].
  cbn [fmap list_fmap fst] in Hx. apply elem_of_cons in Hx as [->|Hx].
  - exists ((p, c) :: l). split; [by econstructor|]. split; [done|by left].
  - destruct (IH Hx) as (l' & Hl' & Hle & _). exists l'. split; [done|]. simpl. split; [lia|right; lia].
Qed.

(** A list that ends visits no pointer twice, so it has at most 255 entries. *)
Lemma cap_chain_NoDup b p l : cap_chain b p l → NoDup l.*1.
Proof.
  intros H. induction H as [|p c q l Hp Hc Hq H IH]; [constructor|]. cbn [fmap list_fmap fst]. constructor; [|done].
  intros Hin. destruct (cap_chain_suffix b q l p H Hin) as (l' & Hl' & Hle & _).
  assert (cap_chain b p ((p, c) :: l)) as H2 by (by econstructor).
  rewrite (cap_chain_fun _ _ _ _ Hl' H2) in Hle. simpl in Hle. lia.
Qed.

Lemma cap_chain_length b p l : Forall is_byte b → is_byte p → cap_chain b p l → (length l < 256)%nat.
Proof.
  intros Hb Hp H. assert (∀ x, x ∈ l.*1 → x ∈ seqZ 1 255) as Hin.
  { induction H as [|p c q l H0 Hc Hq H IH]; intros x Hx; [by apply not_elem_of_nil in Hx|].
    cbn [fmap list_fmap fst] in Hx. apply elem_of_cons in Hx as [->|Hx]; [apply elem_of_seqZ; unfold is_byte in Hp; lia|].
    apply IH; [|done]. eapply Forall_lookup_1 in Hq; done. }
  pose proof (NoDup_submseteq _ _ (cap_chain_NoDup _ _ _ H) Hin) as Hle%submseteq_length.
  rewrite length_fmap, length_seqZ in Hle. lia.
Qed.

Lemma capability_step_next b p c q msi msix : 0 < p → b !! Z.to_nat p = Some c → b !! Z.to_nat (p + 1) = Some q →
  capability_step b (p, msi, msix) = Ok (inl (q, last_capability 0x05 [(p, c)] msi, last_capability 0x11 [(p, c)] msix)).
Proof.
  intros Hp Hc Hq. unfold capability_step. rewrite (proj2 (Z.eqb_neq p 0)) by lia.
  rewrite (arr_get_lookup b p c ltac:(lia) Hc), Ok_bind. rewrite (arr_get_lookup b (p + 1) q ltac:(lia) Hq).
  unfold last_capability. cbn [foldl fst snd].
  destruct (Z.eqb_spec c 0x05) as [->|H5]; [done|]. by destruct (Z.eqb_spec c 0x11) as [->|H11].
Qed.

Lemma capability_loop b : ∀ l p msi msix fuel, cap_chain b p l → (length l < fuel)%nat →
  c_while fuel (capability_step b) (p, msi, msix) = Ok (last_capability 0x05 l msi, last_capability 0x11 l msix).
Proof.
  intros l. induction l as [|[p' c] l IH]; intros p msi msix fuel H Hf; (destruct fuel as [|fuel]; [lia|]); cbn [c_while].
  - inversion H; subst. done.
  - inversion H as [|? ? q ? Hp Hc Hq Hl]; subst. rewrite (capability_step_next b _ c q) by done.
    rewrite Ok_bind, IH by (done || (cbn [length] in Hf; lia)). done.
Qed.

(** C23: In a header whose capability list ends, the walk returns within 256 steps with the last MSI and the
    last MSI-X capability of the list. *)
Theorem find_capabilities_spec b p l :
  Forall is_byte b → b !! 0x34%nat = Some p → cap_chain b p l →
  find_capabilities 256 b = Ok (last_capability 0x05 l 0, last_capability 0x11 l 0).
Proof.
  intros Hb Hp H. unfold find_capabilities. rewrite (arr_get_lookup b 0x34 p ltac:(lia) Hp), Ok_bind.
  apply capability_loop; [done|]. eapply cap_chain_length; [done| |done]. by eapply Forall_lookup_1 in Hp.
Qed.

(** A device whose list comes back to itself stops the machine: the walk never returns. *)
Theorem find_capabilities_cycle b p (S : Z → Prop) fuel r :
  b !! 0x34%nat = Some p → S p → (∀ x, S x → 0 < x ∧ ∃ q, b !! Z.to_nat (x + 1) = Some q ∧ S q) →
  find_capabilities fuel b ≠ Ok r.
Proof.
  intros Hp HS Hnext E. unfold find_capabilities in E. rewrite (arr_get_lookup b 0x34 p ltac:(lia) Hp), Ok_bind in E.
  apply (c_while_Ok (λ '(x, _, _), S x) (λ _, False)) in E; [done| |done].
  intros [[x a] c] o Hx Ho. destruct (Hnext x Hx) as (Hx0 & q & Hq & HSq). unfold capability_step in Ho.
  rewrite (proj2 (Z.eqb_neq x 0)) in Ho by lia. apply bind_Ok in Ho as (id & _ & Ho).
  rewrite (arr_get_lookup b (x + 1) q ltac:(lia) Hq) in Ho.
  destruct (id =? 0x05), (id =? 0x11); rewrite Ok_bind in Ho; by injection Ho as <-.
Qed.

(** A 64-bit register in the last place has no second half: the code reads past the registers and
    writes past the six places of its output. *)
Theorem handle_bar_64_in_last_place {D} `{!PortIO D} `{!Mmio D} {H} dev header low output (w : @machine D H) :
  length (BAR header) = 6%nat → BAR header !! 5%nat = Some low → Z.land low 1 = 0 → Z.land (Z.shiftr low 1) 3 = 2 →
  handle_bar_step dev header (5, output) w = Undef.
Proof.
  intros Hl Hlow H0 H2. unfold handle_bar_step. change (6 <=? 5) with false. cbv beta iota zeta.
  rewrite lift_bind, (arr_get_lookup (BAR header) 5 low ltac:(lia) Hlow), Ok_bind, H0, H2. cbv beta iota.
  rewrite !Z.eqb_refl. change (2 =? 0) with false. cbn [negb]. cbv beta iota.
  rewrite lift_bind. unfold arr_get. change (Z.to_nat (5 + 1)) with 6%nat. by rewrite lookup_ge_None_2 by lia.
Qed.
