(* ===== verification/PciMsix.v ===== *)
(** * Message-signalled interrupts: the table that [setup_msix] leaves in the device *)
From S2P Require Import Prelude Bytes Slab Paging Arrays Idt Hardware BitFields Apic Pci PciSpec.
#[local] Open Scope string_scope.
#[local] Open Scope list_scope.
#[local] Open Scope Z_scope.
#[local] Arguments wrap : simpl never.

(** Device registers that keep what is written to them, as a table in device memory does; reading them has no
    effect, and neither has a port access. *)
Class DeviceRegisters (D : Type) `{!PortIO D} `{!Mmio D} := {
  reg : D → Z → Z;
  is_reg : Z → Prop;
  reg_read_law p d : is_reg p → mmio_read32 p d = Ok (reg d p, d);
  reg_write_law p v d : is_reg p → ∃ d', mmio_write32 p v d = Ok d' ∧ ∀ q, reg d' q = if decide (q = p) then v else reg d q;
  reg_port_law n p v d : reg (port_out n p v d) = reg d
}.
#[global] Hint Mode DeviceRegisters + - - : typeclass_instances.

Section msix.
Context {D : Type} `{!PortIO D} `{!Mmio D} `{!DeviceRegisters D} {H : Type}.
Abbreviation machine := (@machine D H).
Abbreviation is_reg := (@is_reg D _ _ _).

Lemma wp_on_device {A} (m : io D A) (w : machine) Q :
  wp False (m (device (hw w))) (λ '(a, d), ∀ w' : machine, hw w' = with_device d (hw w) → idt w' = idt w → Q (a, w')) →
  wp False (on_device m w) Q.
Proof. intros Hm. apply wp_bind. eapply wp_mono; [exact Hm|]. intros [a d] HQ. by apply HQ. Qed.

Lemma wp_write_bar bar v o (d : D) Q :
  is_io_bar bar = false → o `mod` 4 = 0 → is_reg (u64 (virtual_address bar + o)) →
  (∀ d' : D, (∀ q, reg d' q = if decide (q = u64 (virtual_address bar + o)) then u32 v else reg d q) → Q ((), d')) →
  wp False (write_bar_32 bar v o d) Q.
Proof.
  intros Hio Ho Hr HQ. unfold write_bar_32. rewrite Ho, Hio. cbn [Z.eqb c_assert mbind outcome_bind].
  destruct (reg_write_law _ (u32 v) d Hr) as (d' & -> & Hd'). by apply HQ.
Qed.

(** Writes of one value to many registers. *)
Lemma wp_write_many bar v (offs : Z → Z) l : ∀ (d : D) Q,
  is_io_bar bar = false → (∀ i, i ∈ l → offs i `mod` 4 = 0 ∧ is_reg (u64 (virtual_address bar + offs i))) →
  (∀ (d' : D) us, (∀ q, reg d' q = if decide (q ∈ (λ i, u64 (virtual_address bar + offs i)) <$> l) then u32 v else reg d q) → Q (us, d')) →
  wp False (io_list l (λ i, write_bar_32 bar v (offs i)) d) Q.
Proof.
  induction l as [|i l IH]; intros d Q Hio Hl HQ; cbn [io_list foldr].
  - apply HQ. intros q. rewrite decide_False; [done|]. apply not_elem_of_nil.
  - fold (io_list l (λ i, write_bar_32 (D:=D) bar v (offs i))). destruct (Hl i) as [Ho Hr]; [by left|].
    apply wp_io_bind, wp_write_bar; [done..|]. intros d1 Hd1. apply wp_io_bind, IH; [done|intros j Hj; apply Hl; by right|].
    intros d2 us Hd2. apply HQ. intros q. rewrite Hd2, Hd1, fmap_cons. 
    destruct (decide (q ∈ (λ i, u64 (virtual_address bar + offs i)) <$> l)) as [Hin|Hin].
    + by rewrite decide_True by (by right).
    + case_decide as Hq; [by rewrite decide_True by (subst; by left)|].
      rewrite decide_False; [done|]. by intros [?|?]%elem_of_cons.
Qed.

Lemma wp_config_write a v (d : D) : wp False (config_write a v d) (λ '(_, d'), reg d' = reg d).
Proof. unfold config_write, out32, mbind, io_bind. simpl. etrans; apply reg_port_law. Qed.

Lemma wp_write_header dev b (d : D) Q : (∀ d' : D, reg d' = reg d → Q ((), d')) → wp False (write_header dev b d) Q.
Proof.
  intros HQ. unfold write_header. apply wp_io_bind. 
  assert (∀ l (d1 : D), reg d1 = reg d → wp False
    (io_list l (λ i, config_write (config_address i dev) (field b (Z.to_nat i) 4)) d1) (λ '(_, d'), reg d' = reg d)) as Hl.
  { induction l as [|i l IH]; intros d1 Hd1; [done|]. cbn [io_list foldr].
    fold (io_list l (λ i, config_write (D:=D) (config_address i dev) (field b (Z.to_nat i) 4))).
    apply wp_io_bind. eapply wp_mono; [apply wp_config_write|]. intros [u d2] Hd2.
    apply wp_io_bind. eapply wp_mono; [apply IH; congruence|]. intros [us d3] Hd3. exact Hd3. }
  eapply wp_mono; [by apply Hl|]. intros [us d'] Hd'. by apply HQ.
Qed.

Lemma wp_lapic_address (w : machine) Q :
  let p := lapic_registers (hw w) + offsetof lapic_layout "lapic_id" in
  is_reg p →
  (∀ a (w' : machine), a = u64 (LAPIC_PHYS_ADDR + u32 (Z.shiftl (u32 (reg (device (hw w)) p)) 12)) →
    hw w' = hw w → idt w' = idt w → Q (a, w')) →
  wp False (on_hw get_lapic_magic_address w) Q.
Proof.
  intros p Hp HQ. unfold on_hw, get_lapic_magic_address, read_reg. fold p.
  rewrite (reg_read_law p _ Hp). cbn [mbind outcome_bind wp]. apply HQ; by destruct w as [[] ?].
Qed.

(** The bytes of a buffer beside a store. *)
Lemma load_store_buf b i n v b' j k : store_buf b i n v = Ok b' → 0 ≤ i → 0 ≤ n → 0 ≤ k → i + n ≤ j →
  load_buf b' j k = load_buf b j k.
Proof.
  unfold store_buf. case_if; [|done]. intros [= <-] Hi Hn Hk Hj. zbool.
  unfold load_buf. rewrite !length_app, length_take, le_bytes_length, length_drop.
  replace (Z.of_nat (Z.to_nat i `min` length b + (Z.to_nat n + (length b - Z.to_nat (i + n))))) with (Z.of_nat (length b)) by lia.
  case_if; [|done]. zbool. f_equal. unfold field. f_equal.
  rewrite drop_app_ge by (rewrite length_take; lia). rewrite length_take.
  rewrite drop_app_ge by (rewrite le_bytes_length; lia). rewrite le_bytes_length, drop_drop. do 2 f_equal. lia.
Qed.

(** The addresses of the entries of the table. *)
Definition entry_addr (va t i : Z) : Z := va + t + 16 * i.

(** ** The writes to the table *)
Section table.
Context (w0 : machine) (bar : BarInfo) (t n : Z).
Abbreviation va := (virtual_address bar).
Abbreviation lapic_id := (lapic_registers (hw w0) + offsetof lapic_layout "lapic_id").
Hypothesis Hio : is_io_bar bar = false.
Hypothesis Ht : 0 ≤ t ∧ t `mod` 4 = 0.
Hypothesis Hva : 0 ≤ va ∧ va + t + 16 * n < 2 ^ 64.
Hypothesis Hreg : ∀ o, t ≤ o < t + 16 * n → is_reg (va + o).

(** Since [w0] only registers changed, to [f]. *)
Definition after (f : Z → Z) (w : machine) : Prop :=
  idt w = idt w0 ∧ memory (hw w) = memory (hw w0) ∧ lapic_registers (hw w) = lapic_registers (hw w0) ∧ ∀ q, reg (device (hw w)) q = f q.

Lemma wp_after_device {A} (m : io D A) f g (w : machine) Q : after f w →
  (∀ d, (∀ q, reg d q = f q) → wp False (m d) (λ '(_, d'), ∀ q, reg d' q = g q)) →
  (∀ x w', after g w' → Q (x, w')) → wp False (on_device m w) Q.
Proof.
  intros (Hi & Hm & Hl & Hf) Hstep HQ. apply wp_on_device. eapply wp_mono; [by apply Hstep|].
  intros [x d] Hd w' Eh Ei. apply HQ. unfold after. rewrite Ei, Eh. by split_and!.
Qed.

Lemma table_address o : t ≤ o < t + 16 * n → u64 (va + o) = va + o.
Proof. intros Ho. apply wrap_small. lia. Qed.

Lemma wp_table_write v o f (w : machine) Q : after f w → t ≤ o < t + 16 * n → o `mod` 4 = 0 →
  (∀ w', after (λ q, if decide (q = va + o) then u32 v else f q) w' → Q ((), w')) → wp False (on_device (write_bar_32 bar v o) w) Q.
Proof.
  intros Hf Ho Ho4 HQ. eapply wp_after_device; [done| |intros [] w'; apply HQ]. intros d Hd.
  apply wp_write_bar; rewrite ?table_address by done; [done..|by apply Hreg|]. intros d' Hd' q. by rewrite Hd', Hd.
Qed.

(** Every entry but the first is masked. *)
Lemma wp_mask_others f (w : machine) Q : after f w →
  (∀ us w', after (λ q, if decide (q ∈ (λ i, va + (t + i * 16 + 12)) <$> seqZ 1 (n - 1)) then 1 else f q) w' → Q (us, w')) →
  wp False (on_device (io_list (seqZ 1 (n - 1)) (λ i, write_bar_32 bar 1 (t + i * 16 + 12))) w) Q.
Proof.
  intros Hf. apply wp_after_device with (f := f); [done|]. intros d Hd. apply (wp_write_many bar 1 (λ i, t + i * 16 + 12)); [done| |].
  - intros i Hi%elem_of_seqZ. rewrite table_address by lia. split; [|apply Hreg; lia].
    replace (t + i * 16 + 12) with (t + (i * 4 + 3) * 4) by lia. rewrite Z_mod_plus_full. apply Ht.
  - intros d' us Hd' q. rewrite Hd', Hd.
    assert ((λ i, u64 (va + (t + i * 16 + 12))) <$> seqZ 1 (n - 1) = (λ i, va + (t + i * 16 + 12)) <$> seqZ 1 (n - 1)) as ->; [|done].
    apply list_fmap_ext. intros k i Ei%list_elem_of_lookup_2%elem_of_seqZ. by rewrite table_address by lia.
Qed.

Lemma wp_after_header dev b f (w : machine) Q : after f w → (∀ w', after f w' → Q ((), w')) → wp False (on_device (write_header dev b) w) Q.
Proof.
  intros Hf HQ. eapply wp_after_device; [done| |intros [] w'; apply HQ]. intros d Hd. apply wp_write_header. intros d' Hd' q. by rewrite Hd', Hd.
Qed.

Definition message_address : Z := u64 (LAPIC_PHYS_ADDR + u32 (Z.shiftl (u32 (reg (device (hw w0)) lapic_id)) 12)).

Lemma wp_message_address f (w : machine) Q : after f w → is_reg lapic_id → f lapic_id = reg (device (hw w0)) lapic_id →
  (∀ w', after f w' → Q (message_address, w')) → wp False (on_hw get_lapic_magic_address w) Q.
Proof.
  intros (Hi & Hm & Hl & Hf) Hr Ef HQ. apply wp_lapic_address; rewrite Hl; [done|]. intros a w' -> Eh Ei.
  rewrite Hf, Ef. apply HQ. unfold after. rewrite Ei, Eh. by split_and!.
Qed.

(** The registers after all the writes. *)
Definition msix_registers (vec : Z) (q : Z) : Z :=
  if decide (q ∈ (λ i, va + (t + i * 16 + 12)) <$> seqZ 1 (n - 1)) then 1
  else if decide (q = va + (t + 12)) then u32 0 else if decide (q = va + (t + 8)) then u32 vec
  else if decide (q = va + (t + 4)) then u32 (Z.shiftr message_address 32)
  else if decide (q = va + t) then u32 (Z.land message_address 0xFFFFFFFF) else reg (device (hw w0)) q.

Lemma in_masks q : q ∈ (λ i, va + (t + i * 16 + 12)) <$> seqZ 1 (n - 1) ↔ ∃ i, 1 ≤ i < n ∧ q = entry_addr va t i + 12.
Proof.
  rewrite list_elem_of_fmap. unfold entry_addr. split.
  - intros (i & -> & Hi%elem_of_seqZ). exists i. lia.
  - intros (i & Hi & ->). exists i. rewrite elem_of_seqZ. lia.
Qed.

(** What the device's table holds: the message of the first entry, and the masks. *)
Definition msix_table (vec : Z) (r : Z → Z) : Prop :=
  r (entry_addr va t 0) = Z.land message_address 0xFFFFFFFF ∧ r (entry_addr va t 0 + 4) = Z.shiftr message_address 32 ∧
  r (entry_addr va t 0 + 8) = vec ∧ r (entry_addr va t 0 + 12) = 0 ∧
  (∀ i, 1 ≤ i < n → r (entry_addr va t i + 12) = 1) ∧
  (∀ q, ¬ (va + t ≤ q < va + t + 16 * n) → r q = reg (device (hw w0)) q).

Lemma msix_registers_table vec r : 1 ≤ n → 0 ≤ vec < 2 ^ 32 → (∀ q, r q = msix_registers vec q) → msix_table vec r.
Proof.
  intros Hn Hv Hr. pose proof (wrap_range 64 (LAPIC_PHYS_ADDR + u32 (Z.shiftl (u32 (reg (device (hw w0)) lapic_id)) 12)) ltac:(done)) as Ha.
  fold message_address in Ha.
  assert (u32 (Z.land message_address 0xFFFFFFFF) = Z.land message_address 0xFFFFFFFF) as Elo.
  { apply wrap_small. rewrite (land_ones_mod message_address 32) by done. by apply Z.mod_pos_bound. }
  assert (u32 (Z.shiftr message_address 32) = Z.shiftr message_address 32) as Ehi.
  { apply wrap_small. rewrite Z.shiftr_div_pow2 by done. split; [apply Z.div_pos; lia|apply Z.div_lt_upper_bound; lia]. }
  assert (∀ q, ¬ (∃ i, 1 ≤ i < n ∧ q = entry_addr va t i + 12) → q ∉ (λ i, va + (t + i * 16 + 12)) <$> seqZ 1 (n - 1)) as Hnot.
  { intros q Hq Hq'%in_masks. done. }
  unfold msix_table, entry_addr in *. repeat apply conj; intros; rewrite Hr; unfold msix_registers.
  5: { rewrite decide_True; [done|]. apply in_masks. unfold entry_addr. eauto. }
  all: rewrite decide_False by (apply Hnot; intros (j & Hj & E); lia).
  1-2: rewrite !decide_False, decide_True by lia; by rewrite ?Elo, ?Ehi.
  1: rewrite decide_False, decide_True by lia; by apply wrap_small.
  1: by rewrite decide_True by lia.
  by rewrite !decide_False by lia.
Qed.

(** From the first write on. *)
Definition write_table (dev : PciDevice) (vec : Z) (b : list Z) : io machine Z :=
  a ← on_hw get_lapic_magic_address;
  _ ← on_device (write_bar_32 bar (Z.land a 0xFFFFFFFF) t);
  a ← on_hw get_lapic_magic_address;
  _ ← on_device (write_bar_32 bar (Z.shiftr a 32) (t + 4));
  _ ← on_device (write_bar_32 bar vec (t + 8));
  _ ← on_device (write_bar_32 bar 0 (t + 12));
  _ ← on_device (io_list (seqZ 1 (n - 1)) (λ i, write_bar_32 bar 1 (t + i * 16 + 12)));
  _ ← on_device (write_header dev b);
  mret vec.

Lemma wp_write_table dev vec b (w : machine) : 1 ≤ n → 0 ≤ vec < 2 ^ 32 → is_reg lapic_id → ¬ (va + t ≤ lapic_id < va + t + 16 * n) →
  after (λ q, reg (device (hw w0)) q) w →
  wp False (write_table dev vec b w) (λ '(v, w'), v = vec ∧ idt w' = idt w0 ∧ memory (hw w') = memory (hw w0) ∧ msix_table vec (λ q, reg (device (hw w')) q)).
Proof.
  intros Hn Hv Hlr Hlo Hw. unfold write_table.
  assert (∀ k, (t + 4 * k) `mod` 4 = 0) as H4 by (intros k; rewrite Z.mul_comm, Z_mod_plus_full; apply Ht).
  apply wp_io_bind. eapply wp_message_address; [done..|]. clear w Hw. intros w Hw.
  apply wp_io_bind. eapply wp_table_write; [done|lia|apply Ht|]. clear w Hw. intros w Hw.
  apply wp_io_bind. eapply wp_message_address; [done|done|cbn beta; by rewrite decide_False by lia|]. clear w Hw. intros w Hw.
  apply wp_io_bind. eapply wp_table_write; [done|lia|apply (H4 1)|]. clear w Hw. intros w Hw.
  apply wp_io_bind. eapply wp_table_write; [done|lia|apply (H4 2)|]. clear w Hw. intros w Hw.
  apply wp_io_bind. eapply wp_table_write; [done|lia|apply (H4 3)|]. clear w Hw. intros w Hw.
  apply wp_io_bind. eapply wp_mask_others; [done|]. clear w Hw. intros us w Hw.
  apply wp_io_bind. eapply wp_after_header; [done|]. clear w Hw. intros w (Hi & Hm & _ & Hr).
  cbn [wp]. split_and!; [done..|]. by apply msix_registers_table.
Qed.
End table.

(** C22: [setup_msix] takes a free vector and leaves the device's table with its first entry addressed to the local APIC with
    that vector and unmasked, and every other entry masked; no other register changes. *)
Theorem setup_msix_spec dev bars b idx (w : machine) control table bar vec i' :
  0 ≤ idx → load_buf b idx 2 = Ok control → get MSIX_control "enable" control = 0 → load_buf b (idx + 2) 4 = Ok table →
  bars !! Z.to_nat (Z.land table 7) = Some bar → is_io_bar bar = false →
  allocate_free_idt_entry (idt w) = Ok (vec, i') → 0 ≤ vec < 2 ^ 32 →
  let n := get MSIX_control "table_size" control + 1 in
  let t := Z.land table (u32 (Z.lnot 7)) in
  let va := virtual_address bar in
  let lapic_id := lapic_registers (hw w) + offsetof lapic_layout "lapic_id" in
  0 ≤ va → va + t + 16 * n < 2 ^ 64 → (∀ o, t ≤ o < t + 16 * n → is_reg (va + o)) →
  is_reg lapic_id → ¬ (va + t ≤ lapic_id < va + t + 16 * n) →
  let a := u64 (LAPIC_PHYS_ADDR + u32 (Z.shiftl (u32 (reg (device (hw w)) lapic_id)) 12)) in
  ∃ w' : machine, setup_msix dev bars b idx w = Ok (vec, w') ∧ idt w' = i' ∧ memory (hw w') = memory (hw w) ∧
    let r := reg (device (hw w')) in
    r (entry_addr va t 0) = Z.land a 0xFFFFFFFF ∧ r (entry_addr va t 0 + 4) = Z.shiftr a 32 ∧
    r (entry_addr va t 0 + 8) = vec ∧ r (entry_addr va t 0 + 12) = 0 ∧
    (∀ i, 1 ≤ i < n → r (entry_addr va t i + 12) = 1) ∧
    (∀ q, ¬ (va + t ≤ q < va + t + 16 * n) → r q = reg (device (hw w)) q).
Proof.
  intros Hidx Hcon Hen Htab Hbar Hio Hvec Hv n t va lapic_id Hva Htop Hreg Hlreg Hlout a.
  assert (0 ≤ get MSIX_control "table_size" control < 2 ^ 11) as Hn by (apply bits_range; done).
  assert (t `mod` 4 = 0) as Ht4.
  { unfold t. rewrite <-(Z.land_ones _ 2) by done. rewrite <-Z.land_assoc. apply Z.land_0_r. }
  assert (0 ≤ t) as Ht0 by (apply Z.land_nonneg; right; done).
  destruct (store_buf b idx 2 (put MSIX_control "enable" 1 control)) as [b'| | |] eqn:Eb.
  2-4: unfold load_buf in Hcon; unfold store_buf in Eb; by destruct (_ && _).
  pose proof (load_store_buf b idx 2 _ b' (idx + 2) 4 Eb) as Htab'. rewrite Htab in Htab'.
  assert (setup_msix dev bars b idx w = write_table bar t n dev vec b' (with_idt i' w)) as ->.
  { unfold setup_msix. rewrite lift_bind, Hcon, Ok_bind, lift_bind, Hen, Z.eqb_refl.
    change (c_assert true) with (Ok ()). rewrite Ok_bind, lift_bind, Eb, Ok_bind, lift_bind, Htab' by lia. rewrite Ok_bind.
    erewrite io_bind_Ok by (unfold on_idt; by rewrite Hvec).
    rewrite lift_bind, (arr_get_lookup bars _ bar), Ok_bind; [done|apply Z.land_nonneg; right; done|done]. }
  pose proof (wp_write_table (with_idt i' w) bar t n Hio (conj Ht0 Ht4) (conj Hva Htop) Hreg dev vec b' (with_idt i' w)) as Hwp.
  apply wp_total_1 in Hwp as ([v w'] & -> & -> & Hi & Hm & Hr); [by exists w'|lia|done..].
Qed.
End msix.

(** ** Examples: a machine with one PCI function, for the theorems on PCI *)
#[local] Arguments wrap : simpl never.

(** The selected configuration register, the registers with their writable bits, and device memory. *)
Record ex_device := ExDevice { selected : Z; registers : Z → Z; masks : Z → Z; device_memory : gmap Z Z }.

#[export] Instance ex_ports : PortIO ex_device := {
  port_in n p d := (if p =? CONFIG_DATA then u32 (registers d (selected d)) else 0, d);
  port_out n p v d :=
    if p =? CONFIG_ADDRESS then ExDevice v (registers d) (masks d) (device_memory d)
    else if p =? CONFIG_DATA then
      ExDevice (selected d) (λ a, if a =? selected d then Z.lor (Z.land v (masks d a)) (Z.land (u32 (registers d a)) (Z.lnot (masks d a))) else registers d a)
        (masks d) (device_memory d)
    else d
}.

#[export] Instance ex_mmio : Mmio ex_device := {
  mmio_read32 p d := Ok (default 0 (device_memory d !! p), d);
  mmio_write32 p v d := Ok (ExDevice (selected d) (registers d) (masks d) (<[p := v]> (device_memory d)))
}.

Lemma lor_masked_small v c m : 0 ≤ v < 2 ^ 32 → 0 ≤ c < 2 ^ 32 →
  u32 (Z.lor (Z.land v m) (Z.land c (Z.lnot m))) = Z.lor (Z.land v m) (Z.land c (Z.lnot m)).
Proof.
  intros Hv Hc. apply Z.bits_inj'. intros i Hi. unfold wrap. destruct (decide (i < 32)).
  - by rewrite Z.mod_pow2_bits_low by lia.
  - rewrite Z.mod_pow2_bits_high by lia. by rewrite Z.lor_spec, !Z.land_spec, (testbit_above v 32), (testbit_above c 32) by lia.
Qed.

#[export] Program Instance ex_config : ConfigSpace ex_device := {
  cfg d a := u32 (registers d a);
  writable d a := masks d a
}.
Next Obligation. intros d a. by apply wrap_range. Qed.
Next Obligation.
  intros a d Ha. unfold config_read, out32, in32, mbind, io_bind. cbn.
  change (u16 CONFIG_ADDRESS =? CONFIG_ADDRESS) with true. change (u16 CONFIG_DATA =? CONFIG_DATA) with true. cbn.
  rewrite (wrap_small 32 a Ha), (wrap_small 32 (u32 _)) by (by apply wrap_range). by eexists.
Qed.
Next Obligation.
  intros a v d Ha Hv. unfold config_write, out32, mbind, io_bind. cbn. rewrite (wrap_small 32 a Ha), (wrap_small 32 v Hv).
  change (u16 CONFIG_ADDRESS =? CONFIG_ADDRESS) with true. change (u16 CONFIG_DATA =? CONFIG_ADDRESS) with false.
  change (u16 CONFIG_DATA =? CONFIG_DATA) with true. cbn.
  eexists. split; [done|]. split; [done|]. intros b Hb. cbn. destruct (Z.eqb_spec b a) as [->|Hne].
  - rewrite decide_True by done. apply lor_masked_small; [done|by apply wrap_range].
  - by rewrite decide_False.
Qed.

#[export] Program Instance ex_device_registers : DeviceRegisters ex_device := {
  reg d p := default 0 (device_memory d !! p);
  is_reg p := True
}.
Next Obligation. done. Qed.
Next Obligation.
  intros p v d _. eexists. split; [done|]. intros q. cbn. case_decide; [subst; by rewrite lookup_insert_eq|].
  by rewrite lookup_insert_ne.
Qed.
Next Obligation.
  intros n p v d. cbn. by destruct (p =? CONFIG_ADDRESS), (p =? CONFIG_DATA).
Qed.

(** ** A network function at device 3 of bus 0: 16 KiB of memory at 0xFEB00000, an MSI-X capability for 4 vectors *)
Definition ex_function : PciDevice := MkPciDevice 0 3 0.
Definition ex_registers (a : Z) : Z :=
  if a =? config_address 0x10 ex_function then 0xFEB00000 else if a =? config_address 0x34 ex_function then 0x40 else 0.
Definition ex_masks (a : Z) : Z := if a =? config_address 0x10 ex_function then size_mask 14 else 0.
Definition ex_pci : ex_device := ExDevice 0 ex_registers ex_masks (<[0xFEE00020 := 1]> ∅).

Lemma config_address_injective_witness :
  ∃ o dev, config_address o dev = 0x80001834 ∧ (o, dev) = (0x34, ex_function).
Proof.
  exists 0x34, ex_function. split; [reflexivity|].
  destruct (config_address_injective 0x34 (0x80001834 mod 256) ex_function ex_function) as [H1 H2];
    [lia|done|unfold pci_device_ok; cbn; lia|unfold pci_device_ok; cbn; lia|reflexivity|]. rewrite H1. reflexivity.
Defined.

(** 32 ports at 0xC000, and 8 GiB of prefetchable memory in a pair of registers. *)
Definition bars_registers (a : Z) : Z :=
  if a =? config_address 0x10 ex_function then 0xC001
  else if a =? config_address 0x14 ex_function then 0xC else if a =? config_address 0x18 ex_function then 0x20 else 0.
Definition bars_masks (a : Z) : Z :=
  if a =? config_address 0x10 ex_function then size_mask 5
  else if a =? config_address 0x14 ex_function then size_mask 32 else if a =? config_address 0x18 ex_function then size_mask 1 else 0.
Definition bars_pci : ex_device := ExDevice 0 bars_registers bars_masks ∅.

Lemma get_bar_size_spec_witness :
  (∃ d', get_bar_size_32 0xC001 (config_address 0x10 ex_function) bars_pci = Ok (31, d') ∧ registers_kept bars_pci d') ∧
  (∃ d', get_bar_size_64 0xC 0x20 (config_address 0x14 ex_function) (config_address 0x18 ex_function) bars_pci = Ok (0x200000000 - 12, d') ∧
     registers_kept bars_pci d').
Proof.
  destruct (get_bar_size_spec (ConfigSpace0 := ex_config) bars_pci) as [H32 H64]. split.
  - apply (H32 (config_address 0x10 ex_function) 5). split; [apply config_address_range|]. split; [lia|reflexivity].
  - apply (H64 (config_address 0x14 ex_function) (config_address 0x18 ex_function) 33).
    split; [apply config_address_range|]. split; [apply config_address_range|]. split; [by vm_compute|]. split; [lia|]. split; reflexivity.
Defined.

(** Two capabilities, MSI-X at 0x40 and MSI at 0x60. *)
Definition ex_header : list Z :=
  replicate 0x34 0 ++ [0x40] ++ replicate 11 0 ++ [0x11; 0x60; 3; 0; 0; 8; 0; 0; 0; 0; 0; 0] ++ replicate 20 0 ++ [0x05; 0] ++ replicate 158 0.

Lemma find_capabilities_spec_witness : find_capabilities 256 ex_header = Ok (0x62, 0x42).
Proof.
  apply (find_capabilities_spec ex_header 0x40 [(0x40, 0x11); (0x60, 0x05)]).
  - apply (bool_decide_unpack (Forall is_byte ex_header)). vm_compute. exact I.
  - reflexivity.
  - apply chain_next with (q := 0x60); [lia|reflexivity..|]. apply chain_next with (q := 0); [lia|reflexivity..|]. constructor.
Defined.

Lemma find_capabilities_cycle_witness : find_capabilities 5000 (<[0x61%nat := 0x40]> ex_header) ≠ Ok (0, 0x42).
Proof.
  apply (find_capabilities_cycle _ 0x40 (λ x, x = 0x40 ∨ x = 0x60)); [reflexivity|by left|].
  intros x [-> | ->]; (split; [lia|eexists; split; [reflexivity|tauto]]).
Defined.

(** ** The MSI-X table of that function *)
Definition ex_memory : mm := MM (PhysState 0 0 []) ∅ 0 0 0 0 [].
Definition ex_apic : apic (D := ex_device) := Apic ex_memory ex_pci (Ioapic 0x1000 3 23) 0xFEE00000 0 0 0 0 0.
Definition ex_bars : list BarInfo := [MkBar 0x4000 0xFEB00000 0xFFFFA00000000000 false].
Definition ex_idt : idt_state (H := ()) := default idt_initial (match setup_idt (replicate 256 0x8000) idt_initial with Ok s => Some s | _ => None end).

Lemma setup_msix_spec_witness : ∃ w',
  setup_msix ex_function ex_bars ex_header 0x42 (Machine ex_apic ex_idt) = Ok (33, w') ∧
  reg (device (hw w')) 0xFFFFA00000000800 = 0xFEE01000 ∧ reg (device (hw w')) 0xFFFFA00000000808 = 33 ∧
  reg (device (hw w')) 0xFFFFA0000000081C = 1.
Proof.
  destruct (setup_msix_spec ex_function ex_bars ex_header 0x42 (Machine ex_apic ex_idt) 3 0x800
    (MkBar 0x4000 0xFEB00000 0xFFFFA00000000000 false) 33
    (match allocate_free_idt_entry ex_idt with Ok (_, i) => i | _ => ex_idt end)) as (w' & E & _ & _ & R0 & R4 & R8 & R12 & Rm & _).
  - lia.
  - reflexivity.
  - reflexivity.
  - reflexivity.
  - reflexivity.
  - reflexivity.
  - vm_compute. reflexivity.
  - lia.
  - cbn. lia.
  - vm_compute. reflexivity.
  - intros o _. exact I.
  - exact I.
  - vm_compute. tauto.
  - exists w'. split; [exact E|]. split; [exact R0|]. split; [exact R8|].
    rewrite <-(Rm 1); [f_equal; vm_compute; reflexivity|]. vm_compute. split; [discriminate|reflexivity].
Defined.

Lemma handle_bar_64_in_last_place_witness :
  handle_bar_step ex_function (header_of (replicate 0x24 0 ++ [4; 0; 0; 0] ++ replicate 216 0)) (5, replicate 6 no_bar)
    (Machine ex_apic ex_idt) = Undef.
Proof. apply (handle_bar_64_in_last_place _ _ 4); reflexivity. Defined.
