(* ===== verification/Virtio.v ===== *)
(** * The virtio block driver: stuos/src/virtio_driver.c

    The driver and the device talk through memory: a queue of buffer descriptors and a packet per request.  That
    memory is bytes at physical addresses, which the processor reaches at [hhdm_offset] (a page of it is one the page
    allocator handed to the driver, never one of the tables of Paging.v). *)
From S2P Require Import Prelude Bytes Arrays Hardware Slab Paging Vfs BlockDev Pci.
#[local] Open Scope list_scope.

(** A device together with the memory it shares: what is in that memory, a store by the processor, and
    what the device does while the processor waits. *)
Class DmaDevice (D : Type) := {
  ram_of : D → Z → Z;
  cpu_store : Z → list Z → D → D;
  device_run : D → D
}.
#[global] Hint Mode DmaDevice + : typeclass_instances.

Record VQBuffer := MkVQBuffer { Address : Z; Length : Z; Flags : Z; Next : Z }.
Definition SIZEOF_VQBuffer : Z := 16.
Definition SIZEOF_VQRing : Z := 8.
Definition encode_buffer (b : VQBuffer) : list Z :=
  le_bytes 8 (Address b) ++ le_bytes 4 (Length b) ++ le_bytes 2 (Flags b) ++ le_bytes 2 (Next b).

Definition QUEUE_ADDRESS_OFF : Z := 8.
Definition QUEUE_SIZE_OFF : Z := 12.
Definition QUEUE_SELECT_OFF : Z := 14.
Definition QUEUE_NOTIFY_OFF : Z := 16.
Definition DEVICE_STATUS_OFF : Z := 18.
Definition DEVICE_STATUS_ACKNOWLEDGE : Z := 1.
Definition DEVICE_STATUS_DRIVER : Z := 2.
Definition DEVICE_STATUS_DRIVER_OK : Z := 4.

Record VirtioQueueMetadata := MkQueue {
  queue_size : Z;
  buffers_arr : Z;
  available_flags : Z;
  available_index : Z;
  available_ring_arr : Z;
  used_flags : Z;
  used_index : Z;
  used_ring_arr : Z
}.

Record VirtioBlockDevice := MkVirtioBlockDevice { bar_port : Z; queue : VirtioQueueMetadata }.

Definition VQBufferFlagsWrite : Z := 2.
Definition VQBufferFlagsNotLast : Z := 1.
Definition VQTypeRead : Z := 0.
Definition VQTypeWrite : Z := 1.
Definition PLACEHOLDER_STATUS : Z := 69.

(** [struct BlockDevicePacket], packed. *)
Definition SIZEOF_PACKET : Z := 16 + BLOCK_DEVICE_READ_SIZE + 1.
Definition packet_data : Z := 16.
Definition packet_status : Z := SIZEOF_PACKET - 1.
Definition encode_packet (type sector : Z) (data : list Z) (status : Z) : list Z :=
  le_bytes 4 type ++ le_bytes 4 0 ++ le_bytes 8 sector ++ data ++ [status].

Section virtio.
Context {D : Type} `{!PortIO D} `{!DmaDevice D}.

(** What the driver works on: the page allocator with [hhdm_offset], and the device. *)
Record dma := Dma { pages : mm; dev : D }.

Definition on_dev {A} (m : io D A) : io dma A := λ w, '(a, d) ← m (dev w); Ok (a, Dma (pages w) d).
Definition on_slab {A} (f : phys_state → outcome (A * phys_state)) : io dma A := λ w,
  '(a, s) ← f (slab (pages w)); Ok (a, Dma (with_slab (pages w) s) (dev w)).
Definition to_hhdm (phys : Z) : io dma Z := λ w, Ok (phys_to_hhdm (pages w) phys, w).

(** The bytes behind an HHDM pointer. *)
Definition load_bytes (p n : Z) : io dma (list Z) := λ w,
  Ok (ram_of (dev w) <$> seqZ (hhdm_phys (pages w) p) n, w).
Definition store_bytes (p : Z) (l : list Z) : io dma () := λ w,
  Ok ((), Dma (pages w) (cpu_store (hhdm_phys (pages w) p) l (dev w))).
Definition load_u16 (p : Z) : io dma Z := l ← load_bytes p 2; mret (le_val l).
Definition spin_wait : io dma () := λ w, Ok ((), Dma (pages w) (device_run (dev w))).

Definition no_queue : VirtioQueueMetadata := MkQueue 0 0 0 0 0 0 0 0.

Definition first_part_size_pages (sz : Z) : Z := round_up_pages (SIZEOF_VQBuffer * sz + 2 + 2 + 2 * sz + 2).
Definition second_part_size_pages (sz : Z) : Z := round_up_pages (2 + 2 + SIZEOF_VQRing * sz + 2).

Definition initialise_queue (bar_port queue_number : Z) : io dma VirtioQueueMetadata :=
  _ ← on_dev (out16 (bar_port + QUEUE_SELECT_OFF) queue_number);
  sz ← on_dev (in16 (bar_port + QUEUE_SIZE_OFF));
  if sz =? 0 then mret no_queue
  else
    let total_pages := first_part_size_pages sz + second_part_size_pages sz in
    first_part_phys ← on_slab (malloc_contiguous_phys total_pages);
    let second_part_phys := u64 (first_part_phys + PAGE_SIZE * first_part_size_pages sz) in
    p ← to_hhdm first_part_phys;
    _ ← store_bytes p (replicate (Z.to_nat (total_pages * PAGE_SIZE)) 0);
    _ ← on_dev (out32 (bar_port + QUEUE_ADDRESS_OFF) (first_part_phys `div` PAGE_SIZE));
    buffers_arr ← to_hhdm first_part_phys;
    let first_part_phys := u64 (first_part_phys + SIZEOF_VQBuffer * sz) in
    available_flags ← to_hhdm first_part_phys;
    let first_part_phys := u64 (first_part_phys + 2) in
    available_index ← to_hhdm first_part_phys;
    let first_part_phys := u64 (first_part_phys + 2) in
    available_ring_arr ← to_hhdm first_part_phys;
    used_flags ← to_hhdm second_part_phys;
    let second_part_phys := u64 (second_part_phys + 2) in
    used_index ← to_hhdm second_part_phys;
    let second_part_phys := u64 (second_part_phys + 2) in
    used_ring_arr ← to_hhdm second_part_phys;
    _ ← store_bytes available_flags (le_bytes 2 1);
    mret (MkQueue sz buffers_arr available_flags available_index available_ring_arr used_flags used_index used_ring_arr).

(** [md.buffers_arr[i] = b] *)
Definition set_buffer (md : VirtioQueueMetadata) (i : Z) (b : VQBuffer) : io dma () :=
  store_bytes (u64 (buffers_arr md + SIZEOF_VQBuffer * i)) (encode_buffer b).

(** The three buffers of a request: the header, the data, the status. *)
Definition set_buffers (md : VirtioQueueMetadata) (packet_phys data_flags : Z) : io dma () :=
  _ ← set_buffer md 0 (MkVQBuffer packet_phys 16 VQBufferFlagsNotLast 1);
  _ ← set_buffer md 1 (MkVQBuffer (u64 (packet_phys + 16)) (SIZEOF_PACKET - 16 - 1) data_flags 2);
  set_buffer md 2 (MkVQBuffer (u64 (packet_phys + SIZEOF_PACKET - 1)) 1 VQBufferFlagsWrite 0).

(** The request goes into the next place of the available ring, and the device is told. *)
Definition post_request (blk : VirtioBlockDevice) : io dma () :=
  let md := queue blk in
  idx ← load_u16 (available_index md);
  let ring_slot := idx `mod` queue_size md in
  _ ← store_bytes (u64 (available_ring_arr md + 2 * ring_slot)) (le_bytes 2 0);
  idx ← load_u16 (available_index md);
  _ ← store_bytes (available_index md) (le_bytes 2 (idx + 1));
  on_dev (out32 (bar_port blk + QUEUE_NOTIFY_OFF) 0).

(** [while(packet_hhdm->Status == PLACEHOLDER_STATUS) spin_wait();] *)
Definition await_status (fuel : nat) (packet_hhdm : Z) : io dma () :=
  io_while fuel (λ _ : (),
    st ← load_bytes (u64 (packet_hhdm + packet_status)) 1;
    if le_val st =? PLACEHOLDER_STATUS then _ ← spin_wait; mret (inl ()) else mret (inr ())) ().

Definition check_status (packet_hhdm : Z) : io dma () :=
  st ← load_bytes (u64 (packet_hhdm + packet_status)) 1; lift (hcf_if (negb (le_val st =? 0))).

Definition free_packet (packet_phys : Z) : io dma () := on_slab (λ s, s ← free4k_phys packet_phys s; Ok ((), s)).

(** The bytes stored in [output] are the result. *)
Definition virtio_block_read (fuel : nat) (blk : VirtioBlockDevice) (sector_number : Z) : io dma (list Z) :=
  _ ← lift (hcf_if (queue_size (queue blk) =? 0));
  packet_phys ← on_slab malloc4k_phys;
  packet_hhdm ← to_hhdm packet_phys;
  _ ← store_bytes packet_hhdm
        (encode_packet VQTypeRead sector_number (replicate (Z.to_nat BLOCK_DEVICE_READ_SIZE) 0) PLACEHOLDER_STATUS);
  _ ← set_buffers (queue blk) packet_phys (Z.lor VQBufferFlagsNotLast VQBufferFlagsWrite);
  _ ← post_request blk;
  _ ← await_status fuel packet_hhdm;
  _ ← check_status packet_hhdm;
  output ← load_bytes (u64 (packet_hhdm + packet_data)) BLOCK_DEVICE_READ_SIZE;
  _ ← free_packet packet_phys;
  mret output.

Definition virtio_block_write (fuel : nat) (blk : VirtioBlockDevice) (sector_number : Z) (input : list Z) : io dma () :=
  _ ← lift (hcf_if (queue_size (queue blk) =? 0));
  packet_phys ← on_slab malloc4k_phys;
  packet_hhdm ← to_hhdm packet_phys;
  _ ← store_bytes packet_hhdm
        (encode_packet VQTypeWrite sector_number (replicate (Z.to_nat BLOCK_DEVICE_READ_SIZE) 0) PLACEHOLDER_STATUS);
  _ ← lift (if Z.of_nat (length input) <? BLOCK_DEVICE_READ_SIZE then Undef else Ok ());
  _ ← store_bytes (u64 (packet_hhdm + packet_data)) (take (Z.to_nat BLOCK_DEVICE_READ_SIZE) input);
  _ ← set_buffers (queue blk) packet_phys VQBufferFlagsNotLast;
  _ ← post_request blk;
  _ ← await_status fuel packet_hhdm;
  _ ← check_status packet_hhdm;
  free_packet packet_phys.

(** [initialise_virtio] up to the registration of the device: [None] for a device that is not a disk. *)
Definition probe_virtio (header : PciConfigurationHeader) (bar_list : list BarInfo) : io dma (option VirtioBlockDevice) :=
  _ ← lift (hcf_if (negb (vendor_id header =? 0x1AF4)));
  _ ← lift (hcf_if ((device_id header <? 0x1000) || (0x103F <? device_id header)));
  _ ← lift (hcf_if (negb (revision_id header =? 0)));
  bar ← lift (arr_get bar_list 0);
  _ ← lift (hcf_if (negb (is_io_bar bar)));
  let bar_port := u16 (address bar) in
  _ ← on_dev (out8 (bar_port + DEVICE_STATUS_OFF) 0);
  _ ← spin_wait;
  _ ← on_dev (in8 (bar_port + DEVICE_STATUS_OFF));
  _ ← on_dev (out8 (bar_port + DEVICE_STATUS_OFF) (Z.lor DEVICE_STATUS_ACKNOWLEDGE DEVICE_STATUS_DRIVER));
  _ ← spin_wait;
  _ ← on_dev (in8 (bar_port + DEVICE_STATUS_OFF));
  if subsystem_id header =? 2 then
    queue ← initialise_queue bar_port 0;
    _ ← lift (hcf_if (queue_size queue =? 0));
    _ ← spin_wait;
    _ ← on_dev (in8 (bar_port + DEVICE_STATUS_OFF));
    _ ← on_dev (out8 (bar_port + DEVICE_STATUS_OFF)
          (Z.lor (Z.lor DEVICE_STATUS_ACKNOWLEDGE DEVICE_STATUS_DRIVER) DEVICE_STATUS_DRIVER_OK));
    _ ← spin_wait;
    mret (Some (MkVirtioBlockDevice bar_port queue))
  else mret None.
End virtio.
Arguments dma : clear implicits.
