(* ===== verification/VirtioSpec.v ===== *)
(** * The virtio driver implements the block driver interface *)
From Stdlib Require Import FunctionalExtensionality.
From S2P Require Import Prelude Bytes Vfs BlockDev Slab Paging Arrays Hardware Pci Virtio.
#[local] Open Scope list_scope.
#[local] Arguments wrap : simpl never.

(** ** Bytes in memory *)
Definition peek (m : Z → Z) (p n : Z) : list Z := m <$> seqZ p n.

(** [m'] is [m] with [l] stored at [p]. *)
Definition stored (m m' : Z → Z) (p : Z) (l : list Z) : Prop := ∀ a, m' a = overwrite m p (Z.of_nat (length l)) l a.

Lemma length_peek m p n : length (peek m p n) = Z.to_nat n.
Proof. unfold peek. by rewrite length_fmap, length_seqZ. Qed.

Lemma peek_ext m m' p n : (∀ a, p ≤ a < p + n → m' a = m a) → peek m' p n = peek m p n.
Proof. intros H. apply list_fmap_ext. intros i a Ha. apply H. apply list_elem_of_lookup_2, elem_of_seqZ in Ha. lia. Qed.

Lemma peek_stored_in m m' p l : stored m m' p l → peek m' p (Z.of_nat (length l)) = l.
Proof.
  intros H. apply list_eq. intros i. unfold peek. rewrite list_lookup_fmap. destruct (decide (i < length l)%nat) as [Hi|Hi].
  - rewrite lookup_seqZ_lt by lia. cbn [fmap option_fmap option_map]. destruct (lookup_lt_is_Some_2 l i Hi) as [x Hx]. rewrite Hx, (H _). f_equal.
    apply overwrite_in; [lia|]. by replace (Z.to_nat (p + Z.of_nat i - p)) with i by lia.
  - rewrite lookup_seqZ_ge by lia. symmetry. apply lookup_ge_None. lia.
Qed.

Lemma peek_stored_out m m' p l q n :
  stored m m' p l → q + n ≤ p ∨ p + Z.of_nat (length l) ≤ q → peek m' q n = peek m q n.
Proof. intros H Hd. apply peek_ext. intros a Ha. rewrite H. apply overwrite_out. lia. Qed.

Lemma stored_out m m' p l a : stored m m' p l → ¬ (p ≤ a < p + Z.of_nat (length l)) → m' a = m a.
Proof. intros H Ha. rewrite H. by apply overwrite_out. Qed.

Lemma peek_app m p a b : 0 ≤ a → 0 ≤ b → peek m p (a + b) = peek m p a ++ peek m (p + a) b.
Proof. intros. unfold peek. by rewrite seqZ_app, fmap_app by lia. Qed.

Lemma peek_take m p n k l : 0 ≤ k ≤ n → peek m p n = l → peek m p k = take (Z.to_nat k) l.
Proof.
  intros Hk <-. replace n with (k + (n - k)) by lia. rewrite peek_app by lia. by rewrite take_app_length' by (by rewrite length_peek).
Qed.

Lemma peek_zeroed m m' p k q n : stored m m' p (replicate k 0) → p ≤ q → q + Z.of_nat n ≤ p + Z.of_nat k →
  peek m' q (Z.of_nat n) = replicate n 0.
Proof.
  intros H Hq Hn. apply list_eq. intros i. unfold peek. rewrite list_lookup_fmap. destruct (decide (i < n)%nat) as [Hi|Hi].
  - rewrite lookup_seqZ_lt, lookup_replicate_2 by lia. cbn [fmap option_fmap option_map]. rewrite (H _). f_equal.
    apply overwrite_in; rewrite ?length_replicate; [lia|]. apply lookup_replicate_2. lia.
  - rewrite lookup_seqZ_ge by lia. symmetry. apply lookup_ge_None. rewrite length_replicate. lia.
Qed.

Lemma peek_1 m p x : peek m p 1 = [x] → m p = x.
Proof. intros E. injection E as <-. f_equal. Qed.

(** ** What a virtio disk does

    The contents, the number of sectors and of queue places, where the queue is, how many requests were taken. *)
Record blk_view := MkView { disk : Z → list Z; capacity : Z; queue_len : Z; queue_base : Z; avail_seen : Z }.

Record request := MkRequest { rq_type : Z; rq_sector : Z; rq_data : Z; rq_status : Z }.

Definition decode_buffer (l : list Z) : VQBuffer := MkVQBuffer (field l 0 8) (field l 8 4) (field l 12 2) (field l 14 2).

(** The next request of the available ring: a chain of a 16-byte header, 512 bytes of data that are written by the device when the
    header says read, and one byte of status. *)
Definition next_request (m : Z → Z) (base len seen : Z) : option request :=
  let buffer i := decode_buffer (peek m (base + 16 * i) 16) in
  if negb (le_val (peek m (base + 16 * len + 2) 2) =? u16 (seen + 1)) then None
  else
    let b0 := buffer (le_val (peek m (base + 16 * len + 4 + 2 * (seen `mod` len)) 2)) in
    let b1 := buffer (Next b0) in
    let b2 := buffer (Next b1) in
    let type := le_val (peek m (Address b0) 4) in
    if (Length b0 =? 16) && (Flags b0 =? 1) && (Length b1 =? 512) && (Flags b1 =? (if type =? 0 then 3 else 1)) &&
       (Length b2 =? 1) && (Flags b2 =? 2) && (type <? 2)
    then Some (MkRequest type (le_val (peek m (Address b0 + 8) 8)) (Address b1) (Address b2))
    else None.

(** The pages of the queue, which [initialise_queue] allocates. *)
Definition queue_pages (len : Z) : Z := first_part_size_pages len + second_part_size_pages len.
Definition queue_bytes (len : Z) : Z := queue_pages len * PAGE_SIZE.

Definition apart (p n q k : Z) : Prop := p + n ≤ q ∨ q + k ≤ p.

(** The data and the status of a request are apart from each other and from the queue. *)
Definition request_apart (r : request) (v : blk_view) : Prop :=
  apart (rq_data r) 512 (rq_status r) 1 ∧ apart (rq_data r) 512 (queue_base v) (queue_bytes (queue_len v)) ∧
  apart (rq_status r) 1 (queue_base v) (queue_bytes (queue_len v)).

Definition take_request (r : request) (m : Z → Z) (v : blk_view) : blk_view := {|
  disk := if rq_type r =? 0 then disk v else λ s, if decide (s = rq_sector r) then peek m (rq_data r) 512 else disk v s;
  capacity := capacity v; queue_len := queue_len v; queue_base := queue_base v; avail_seen := u16 (avail_seen v + 1)
|}.

Section interface.
Context {D : Type} `{!PortIO D} `{!DmaDevice D}.

(** [d'] is [d] after [r] was carried out: the status is 0, the data of a read are there, and beside these only the
    second half of the queue, which the device owns, can have changed. *)
Record served (view : D → blk_view) (idle : D → bool) (r : request) (d d' : D) : Prop := {
  served_view : view d' = take_request r (ram_of d) (view d);
  served_idle : idle d' = true;
  served_status : ram_of d' (rq_status r) = 0;
  served_data : rq_type r = 0 → peek (ram_of d') (rq_data r) 512 = disk (view d) (rq_sector r);
  served_frame a : a ≠ rq_status r → (rq_type r = 0 → ¬ rq_data r ≤ a < rq_data r + 512) →
    let used := queue_base (view d) + first_part_size_pages (queue_len (view d)) * PAGE_SIZE in
    ¬ used ≤ a < queue_base (view d) + queue_bytes (queue_len (view d)) → ram_of d' a = ram_of d a
}.

(** The legacy virtio disk whose registers are at [port], with its first queue; it answers a request while the
    processor waits, after at most [latency] rounds. *)
Class VirtioDisk (port : Z) := {
  view : D → blk_view;
  idle : D → bool;
  latency : nat;
  disk_sector (d : D) s : length (disk (view d) s) = 512%nat ∧ Forall is_byte (disk (view d) s);
  capacity_bound (d : D) : capacity (view d) ≤ 2 ^ 64;
  queue_len_range (d : D) : 0 ≤ queue_len (view d) < 2 ^ 16;
  ram_store_law p l (d : D) : Forall is_byte l → stored (ram_of d) (ram_of (cpu_store p l d)) p l;
  store_view_law p l (d : D) : view (cpu_store p l d) = view d ∧ idle (cpu_store p l d) = idle d;
  idle_run_law (d : D) : idle d = true →
    view (device_run d) = view d ∧ idle (device_run d) = true ∧ ram_of (device_run d) = ram_of d;
  size_law (d : D) : let '(v, d') := port_in 2 (u16 (port + QUEUE_SIZE_OFF)) (port_out 2 (u16 (port + QUEUE_SELECT_OFF)) 0 d) in
    v = queue_len (view d) ∧ view d' = view d ∧ idle d' = idle d ∧ ram_of d' = ram_of d;
  address_law v (d : D) : 0 ≤ v < 2 ^ 32 → let d' := port_out 4 (u16 (port + QUEUE_ADDRESS_OFF)) v d in
    view d' = MkView (disk (view d)) (capacity (view d)) (queue_len (view d)) (PAGE_SIZE * v) 0 ∧
    idle d' = idle d ∧ ram_of d' = ram_of d;
  status_law (d : D) : let d' := (port_in 1 (u16 (port + DEVICE_STATUS_OFF)) d).2 in
    view d' = view d ∧ idle d' = idle d ∧ ram_of d' = ram_of d;
  reset_law (d : D) : let d' := port_out 1 (u16 (port + DEVICE_STATUS_OFF)) 0 d in
    idle d' = true ∧ disk (view d') = disk (view d) ∧ capacity (view d') = capacity (view d) ∧ queue_len (view d') = queue_len (view d);
  status_out_law v (d : D) : 0 < v → let d' := port_out 1 (u16 (port + DEVICE_STATUS_OFF)) v d in
    view d' = view d ∧ idle d' = idle d ∧ ram_of d' = ram_of d;
  notify_law (d : D) r : idle d = true →
    next_request (ram_of d) (queue_base (view d)) (queue_len (view d)) (avail_seen (view d)) = Some r →
    0 ≤ rq_sector r < capacity (view d) → request_apart r (view d) →
    let d1 := port_out 4 (u16 (port + QUEUE_NOTIFY_OFF)) 0 d in
    ∃ k, (k ≤ latency)%nat ∧ (∀ j, (j < k)%nat → ram_of (Nat.iter j device_run d1) (rq_status r) = ram_of d (rq_status r)) ∧
      served view idle r d (Nat.iter k device_run d1)
}.
End interface.
#[global] Hint Mode VirtioDisk + - - - : typeclass_instances.
Arguments VirtioDisk D {_ _} port.

(** ** Decoding what the driver wrote *)
Lemma le_val_peek_bytes n v : le_val (le_bytes n v) = v `mod` 256 ^ Z.of_nat n.
Proof. apply le_val_bytes. Qed.

Lemma decode_encode_buffer a n f x :
  0 ≤ a < 2 ^ 64 → 0 ≤ n < 2 ^ 32 → 0 ≤ f < 2 ^ 16 → 0 ≤ x < 2 ^ 16 →
  decode_buffer (encode_buffer (MkVQBuffer a n f x)) = MkVQBuffer a n f x.
Proof.
  intros Ha Hn Hf Hx. unfold decode_buffer, encode_buffer. cbn [Address Length Flags Next].
  unfold field. cbn [le_bytes app drop take].
  change (MkVQBuffer (le_val (le_bytes 8 a)) (le_val (le_bytes 4 n)) (le_val (le_bytes 2 f)) (le_val (le_bytes 2 x)) = MkVQBuffer a n f x).
  rewrite !le_val_bytes. f_equal; apply Z.mod_small; done.
Qed.

Lemma length_encode_buffer b : length (encode_buffer b) = 16%nat.
Proof. done. Qed.

Lemma length_encode_packet t s l st : length l = 512%nat → length (encode_packet t s l st) = 529%nat.
Proof. intros E. unfold encode_packet. rewrite !length_app, !le_bytes_length, E. done. Qed.

Lemma packet_stored m m' phys t s l st : length l = 512%nat → stored m m' phys (encode_packet t s l st) →
  peek m' phys 16 = le_bytes 4 t ++ le_bytes 4 0 ++ le_bytes 8 s ∧ m' (phys + 528) = st ∧
  ∀ a, ¬ (phys ≤ a < phys + 529) → m' a = m a.
Proof.
  intros Hl S. pose proof (peek_stored_in _ _ _ _ S) as Hpk. rewrite length_encode_packet in Hpk by done. split_and!.
  - rewrite (peek_take _ phys 529 16 _ ltac:(lia) Hpk). unfold encode_packet. rewrite !app_assoc, <-(app_assoc _ _ [_]).
    by rewrite take_app_length' by (by rewrite !length_app, !le_bytes_length).
  - apply peek_1. change (Z.of_nat 529) with (528 + 1) in Hpk. rewrite peek_app in Hpk by lia. unfold encode_packet in Hpk.
    rewrite !app_assoc in Hpk. apply app_inj_2 in Hpk as [_ ->]; [done|]. by rewrite length_peek.
  - intros a Ha. apply (stored_out _ _ _ _ _ S). by rewrite length_encode_packet.
Qed.

Lemma encode_buffer_bytes b : Forall is_byte (encode_buffer b).
Proof. unfold encode_buffer. rewrite !Forall_app. auto using le_bytes_byte. Qed.

Lemma encode_packet_bytes t s l st : Forall is_byte l → is_byte st → Forall is_byte (encode_packet t s l st).
Proof. intros Hl Hst. unfold encode_packet. rewrite !Forall_app, Forall_singleton. auto using le_bytes_byte. Qed.

Lemma zeroes_bytes n : Forall is_byte (replicate n 0).
Proof. by apply Forall_replicate. Qed.

Lemma placeholder_byte : is_byte PLACEHOLDER_STATUS.
Proof. done. Qed.
#[local] Hint Resolve encode_buffer_bytes encode_packet_bytes zeroes_bytes placeholder_byte le_bytes_byte : stuos.

(** ** Sizes *)
Lemma round_up_pages_spec n : 0 ≤ n → n + PAGE_SIZE < 2 ^ 64 →
  n ≤ round_up_pages n * PAGE_SIZE < n + PAGE_SIZE.
Proof. intros H0 H1. unfold round_up_pages. rewrite wrap_small by (unfold PAGE_SIZE in *; lia). dlia. Qed.

Lemma queue_sizes len : 0 ≤ len < 2 ^ 16 →
  18 * len + 6 ≤ first_part_size_pages len * PAGE_SIZE ∧ 8 * len + 6 ≤ second_part_size_pages len * PAGE_SIZE ∧
  queue_bytes len < 26 * len + 12 + 2 * PAGE_SIZE ∧
  queue_bytes len = first_part_size_pages len * PAGE_SIZE + second_part_size_pages len * PAGE_SIZE.
Proof.
  intros Hl. unfold queue_bytes, queue_pages, first_part_size_pages, second_part_size_pages, SIZEOF_VQBuffer, SIZEOF_VQRing.
  pose proof (round_up_pages_spec (16 * len + 2 + 2 + 2 * len + 2)). pose proof (round_up_pages_spec (2 + 2 + 8 * len + 2)).
  unfold PAGE_SIZE in *. lia.
Qed.

(** ** The driver's state *)
Definition queue_at (st : mm) (base len : Z) : VirtioQueueMetadata :=
  let p o := phys_to_hhdm st (base + o) in
  let used := first_part_size_pages len * PAGE_SIZE in
  MkQueue len (p 0) (p (16 * len)) (p (16 * len + 2)) (p (16 * len + 4)) (p used) (p (used + 2)) (p (used + 4)).

(** Every free page is apart from the queue, as far as the page allocator knows. *)
Definition queue_held (s : phys_state) (base len : Z) : Prop :=
  ∀ a, is_free s a → apart a PAGE_SIZE base (queue_bytes len).

#[export] Instance queue_eq_dec : EqDecision VirtioQueueMetadata.
Proof. solve_decision. Defined.

#[export] Instance slab_ok_dec s : Decision (slab_ok s).
Proof.
  refine (cast_if (decide (Z.of_nat (length (slab_flags_base s)) = physical_memory_pages s ∧ 0 ≤ physical_memory_base s ∧
    physical_memory_base s `mod` PAGE_SIZE = 0 ∧ physical_memory_base s + physical_memory_pages s * PAGE_SIZE < 2 ^ 64 ∧
    physical_memory_base s + physical_memory_pages s * PAGE_SIZE ≤ 2 ^ 40)));
    [abstract (destruct_and!; by repeat constructor)|abstract (intros [[] ?]; tauto)].
Defined.

Lemma queue_held_flags s base len :
  queue_held s base len ↔
  Forall (λ i, slab_flags_base s !! i = Some false → apart (page_addr s (Z.of_nat i)) PAGE_SIZE base (queue_bytes len)) (seq 0 (length (slab_flags_base s))).
Proof.
  rewrite Forall_forall. split.
  - intros H i _ Hi. apply H. exists (Z.of_nat i). split; [|done]. split; [lia|by rewrite Nat2Z.id].
  - intros H a (i & [Hi Hf] & ->). rewrite <-(Z2Nat.id i Hi). apply H; [|done]. apply lookup_lt_Some in Hf. apply elem_of_seq. lia.
Qed.

#[export] Instance apart_dec p n q k : Decision (apart p n q k).
Proof. unfold apart. apply _. Defined.

#[export] Instance queue_held_dec s base len : Decision (queue_held s base len).
Proof.
  refine (cast_if (decide (Forall (λ i, slab_flags_base s !! i = Some false → apart (page_addr s (Z.of_nat i)) PAGE_SIZE base (queue_bytes len))
    (seq 0 (length (slab_flags_base s)))))); abstract (by rewrite queue_held_flags).
Defined.

Section driver.
Context {D : Type} `{!PortIO D} `{!DmaDevice D} {port : Z} `{!VirtioDisk D port}.
Abbreviation view := (@view D _ _ port _).
Abbreviation idle := (@idle D _ _ port _).
Abbreviation latency := (@latency D _ _ port _).
Implicit Types (w : dma D) (d : D).

(** The queue is where the device looks for it, as long as the driver holds these pages, and the two agree on how many
    requests there were. *)
Record virtio_ok (blk : VirtioBlockDevice) (w : dma D) : Prop := {
  ok_port : bar_port blk = port;
  ok_queue : queue blk = queue_at (pages w) (queue_base (view (dev w))) (queue_len (view (dev w)));
  ok_len : 3 ≤ queue_len (view (dev w));
  ok_base : 0 ≤ queue_base (view (dev w));
  ok_top : queue_base (view (dev w)) + queue_bytes (queue_len (view (dev w))) ≤ 2 ^ 40;
  ok_seen : le_val (peek (ram_of (dev w)) (queue_base (view (dev w)) + 16 * queue_len (view (dev w)) + 2) 2) = avail_seen (view (dev w));
  ok_idle : idle (dev w) = true;
  ok_slab : slab_ok (slab (pages w));
  ok_held : queue_held (slab (pages w)) (queue_base (view (dev w))) (queue_len (view (dev w)))
}.

(** What a packet at physical address [phys] looks like through the three buffers. *)
Definition buffers_set (m : Z → Z) (base phys data_flags : Z) : Prop :=
  peek m base 16 = encode_buffer (MkVQBuffer phys 16 1 1) ∧
  peek m (base + 16) 16 = encode_buffer (MkVQBuffer (phys + 16) 512 data_flags 2) ∧
  peek m (base + 32) 16 = encode_buffer (MkVQBuffer (phys + 528) 1 2 0).

(** The device has taken [r] in state [d] and finishes it while the processor waits; until then the status is [st]. *)
Definition in_service (r : request) (st : Z) (d d' : D) : Prop :=
  ∃ k, (k ≤ latency)%nat ∧ (∀ j, (j < k)%nat → ram_of (Nat.iter j device_run d') (rq_status r) = st) ∧
    served view idle r d (Nat.iter k device_run d').

(** ** Weakest preconditions of the memory accesses *)
Lemma wp_store_bytes a p l w Q : hhdm_phys (pages w) p = a → Forall is_byte l →
  (∀ w', pages w' = pages w → view (dev w') = view (dev w) → idle (dev w') = idle (dev w) →
     stored (ram_of (dev w)) (ram_of (dev w')) a l → Q ((), w')) →
  wp False (store_bytes p l w) Q.
Proof.
  intros <- Hl HQ. unfold store_bytes. cbn [wp]. apply HQ; cbn [pages dev]; [done|..].
  1,2: apply (store_view_law (port := port)). by apply (ram_store_law (port := port)).
Qed.

Lemma wp_load_bytes a p n w Q : hhdm_phys (pages w) p = a → Q (peek (ram_of (dev w)) a n, w) → wp False (load_bytes p n w) Q.
Proof. by intros <-. Qed.

Lemma wp_load_u16 a p w Q : hhdm_phys (pages w) p = a → Q (le_val (peek (ram_of (dev w)) a 2), w) → wp False (load_u16 p w) Q.
Proof. intros Ha HQ. unfold load_u16. by apply wp_io_bind, (wp_load_bytes a). Qed.

(** ** The parts of a request *)
Lemma wp_set_buffers blk w phys df Q : virtio_ok blk w → 0 ≤ phys → phys + PAGE_SIZE ≤ 2 ^ 40 → 
  (∀ w', pages w' = pages w → view (dev w') = view (dev w) → idle (dev w') = idle (dev w) →
     buffers_set (ram_of (dev w')) (queue_base (view (dev w))) phys df →
     (∀ a, ¬ (queue_base (view (dev w)) ≤ a < queue_base (view (dev w)) + 48) → ram_of (dev w') a = ram_of (dev w) a) →
     Q ((), w')) →
  wp False (set_buffers (queue blk) phys df w) Q.
Proof.
  intros [_ Hq Hl Hb Ht _ _ _ _] Hp0 Hp1 HQ. set (base := queue_base (view (dev w))) in *. set (n := queue_len (view (dev w))) in *.
  pose proof (queue_len_range (port := port) (dev w)) as Hn. pose proof (queue_sizes n Hn). unfold PAGE_SIZE in *.
  assert (∀ i, 0 ≤ i ≤ 32 → hhdm_phys (pages w) (u64 (buffers_arr (queue blk) + i)) = base + i) as Hhp.
  { intros i Hi. rewrite Hq. cbn [queue_at buffers_arr]. rewrite Z.add_0_r. apply hhdm_round_off. lia. }
  unfold set_buffers, set_buffer, SIZEOF_VQBuffer, SIZEOF_PACKET, BLOCK_DEVICE_READ_SIZE.
  apply wp_io_bind, (wp_store_bytes base); [by rewrite Hhp, Z.add_0_r by lia|by auto with stuos|]. intros w1 Ep1 Ev1 Ei1 S1.
  apply wp_io_bind, (wp_store_bytes (base + 16)); [rewrite Ep1; exact (Hhp 16 ltac:(lia))|by auto with stuos|]. intros w2 Ep2 Ev2 Ei2 S2.
  apply (wp_store_bytes (base + 32)); [rewrite Ep2, Ep1; exact (Hhp 32 ltac:(lia))|by auto with stuos|]. intros w3 Ep3 Ev3 Ei3 S3.
  rewrite (wrap_small 64 (phys + 16)) in S2 by lia.
  rewrite (wrap_small 64 (phys + (16 + 512 + 1) - 1)) in S3 by lia. replace (phys + (16 + 512 + 1) - 1) with (phys + 528) in S3 by lia.
  apply HQ; [congruence..| |].
  - split; [|split].
    + rewrite (peek_stored_out _ _ _ _ _ _ S3), (peek_stored_out _ _ _ _ _ _ S2) by (rewrite ?length_encode_buffer; lia).
      exact (peek_stored_in _ _ _ _ S1).
    + rewrite (peek_stored_out _ _ _ _ _ _ S3) by (rewrite ?length_encode_buffer; lia). exact (peek_stored_in _ _ _ _ S2).
    + exact (peek_stored_in _ _ _ _ S3).
  - intros a Ha. rewrite (stored_out _ _ _ _ _ S3), (stored_out _ _ _ _ _ S2), (stored_out _ _ _ _ _ S1); rewrite ?length_encode_buffer; lia || done.
Qed.

(** What the device reads in the queue is the request. *)
Lemma next_request_posted m base n seen phys df type sector :
  buffers_set m base phys df → 0 ≤ phys → phys + PAGE_SIZE ≤ 2 ^ 40 → df = (if type =? 0 then 3 else 1) → 0 ≤ type < 2 → 0 ≤ sector < 2 ^ 64 →
  peek m (base + 16 * n + 2) 2 = le_bytes 2 (seen + 1) →
  peek m (base + 16 * n + 4 + 2 * (seen `mod` n)) 2 = le_bytes 2 0 →
  peek m phys 16 = le_bytes 4 type ++ le_bytes 4 0 ++ le_bytes 8 sector →
  next_request m base n seen = Some (MkRequest type sector (phys + 16) (phys + 528)).
Proof.
  intros (B0 & B1 & B2) Hp0 Hp1 -> Ht Hs Hi Hh Hhd. unfold next_request. rewrite Hi, Hh, !le_val_bytes.
  change (256 ^ Z.of_nat 2) with (2 ^ 16). fold (u16 (seen + 1)). rewrite Z.eqb_refl. cbn [negb].
  change (0 mod 2 ^ 16) with 0. rewrite Z.mul_0_r, Z.add_0_r, B0.
  unfold PAGE_SIZE in *. rewrite decode_encode_buffer by lia. cbn [Next Length Flags Address].
  change (16 * 1) with 16. rewrite B1, decode_encode_buffer by (try case_if; lia). cbn [Next Length Flags Address].
  change (16 * 2) with 32. rewrite B2, decode_encode_buffer by lia. cbn [Next Length Flags Address].
  rewrite (peek_take m phys 16 4 _ ltac:(lia) Hhd). rewrite (take_app_length' _ _ (Z.to_nat 4)) by (by rewrite le_bytes_length).
  assert (peek m (phys + 8) 8 = le_bytes 8 sector) as ->.
  { change 16 with (8 + 8) in Hhd. rewrite peek_app in Hhd by lia. rewrite (app_assoc (le_bytes 4 type)) in Hhd.
    apply app_inj_1 in Hhd as [_ ?]; [done|]. by rewrite length_peek, length_app, !le_bytes_length. }
  rewrite !le_val_bytes. change (256 ^ Z.of_nat 4) with (2 ^ 32). change (256 ^ Z.of_nat 8) with (2 ^ 64).
  rewrite !Z.mod_small by lia. rewrite !Z.eqb_refl. cbn [andb]. by replace (type <? 2) with true by lia.
Qed.

Lemma wp_post_request blk w phys df type sector Q :
  virtio_ok blk w → 0 ≤ phys → phys + PAGE_SIZE ≤ 2 ^ 40 → 
  apart phys PAGE_SIZE (queue_base (view (dev w))) (queue_bytes (queue_len (view (dev w)))) →
  buffers_set (ram_of (dev w)) (queue_base (view (dev w))) phys df →
  df = (if type =? 0 then 3 else 1) → 0 ≤ type < 2 → 0 ≤ sector < capacity (view (dev w)) →
  peek (ram_of (dev w)) phys 16 = le_bytes 4 type ++ le_bytes 4 0 ++ le_bytes 8 sector →
  (∀ w' d, pages w' = pages w → view d = view (dev w) →
     (∀ a, ¬ (queue_base (view d) ≤ a < queue_base (view d) + queue_bytes (queue_len (view d))) → ram_of d a = ram_of (dev w) a) →
     le_val (peek (ram_of d) (queue_base (view d) + 16 * queue_len (view d) + 2) 2) = u16 (avail_seen (view d) + 1) →
     in_service (MkRequest type sector (phys + 16) (phys + 528)) (ram_of (dev w) (phys + 528)) d (dev w') →
     Q ((), w')) →
  wp False (post_request blk w) Q.
Proof.
  intros Hok Hp0 Hp1 Hap Hbs Hdf Hty Hsec Hhd HQ. destruct Hok as [Hpo Hq Hl Hb Ht Hse Hid _ _].
  set (v := view (dev w)) in *. set (base := queue_base v) in *. set (n := queue_len v) in *.
  pose proof (queue_len_range (port := port) (dev w)) as Hn. fold v n in Hn. pose proof (queue_sizes n Hn) as Hsz.
  pose proof (capacity_bound (port := port) (dev w)) as Hcap. fold v in Hcap. unfold PAGE_SIZE in Hsz.
  pose proof (Z.mod_pos_bound (avail_seen v) n ltac:(lia)) as Hslot.
  unfold post_request. rewrite Hq. cbn [queue_at available_index available_ring_arr queue_size]. fold base n.
  set (ia := base + (16 * n + 2)). set (sl := base + (16 * n + 4) + 2 * (avail_seen v `mod` n)).
  assert (le_val (peek (ram_of (dev w)) ia 2) = avail_seen v) as Hse' by (rewrite <-Hse; do 2 f_equal; lia).
  apply wp_io_bind, (wp_load_u16 ia); [apply hhdm_round; lia|]. rewrite Hse'.
  apply wp_io_bind, (wp_store_bytes sl); [apply hhdm_round_off; lia|by auto with stuos|]. intros w1 Ep1 Ev1 Ei1 S1.
  assert (∀ x : Z, Z.of_nat (length (le_bytes 2 x)) = 2) as Hlen by (intros x; by rewrite le_bytes_length).
  apply wp_io_bind, (wp_load_u16 ia); [rewrite Ep1; apply hhdm_round; lia|].
  rewrite (peek_stored_out _ _ _ _ ia 2 S1) by (rewrite Hlen; lia). rewrite Hse'.
  apply wp_io_bind, (wp_store_bytes ia); [rewrite Ep1; apply hhdm_round; lia|by auto with stuos|]. intros w2 Ep2 Ev2 Ei2 S2.
  assert (view (dev w2) = v) as Hv2 by (by rewrite Ev2, Ev1).
  assert (∀ a, ¬ (base + 48 ≤ a < base + queue_bytes n) → ram_of (dev w2) a = ram_of (dev w) a) as Hfr.
  { intros a Ha. rewrite (stored_out _ _ _ _ _ S2), (stored_out _ _ _ _ _ S1); rewrite ?Hlen; lia || done. }
  assert (peek (ram_of (dev w2)) (base + 16 * n + 2) 2 = le_bytes 2 (avail_seen v + 1)) as Hi2.
  { replace (base + 16 * n + 2) with ia by lia. exact (peek_stored_in _ _ _ _ S2). }
  destruct (notify_law (port := port) (dev w2) (MkRequest type sector (phys + 16) (phys + 528))) as (k & Hk & Hj & Hs).
  - congruence.
  - rewrite Hv2. fold base n. apply (next_request_posted _ _ _ _ phys df); try done; [|lia| |].
    + destruct Hbs as (B0 & B1 & B2). unfold buffers_set.
      rewrite (peek_ext (ram_of (dev w)) (ram_of (dev w2)) base), (peek_ext (ram_of (dev w)) (ram_of (dev w2)) (base + 16)),
        (peek_ext (ram_of (dev w)) (ram_of (dev w2)) (base + 32)); [done|intros a Ha; apply Hfr; lia..].
    + rewrite (peek_stored_out _ _ _ _ _ _ S2) by (rewrite Hlen; lia). replace (base + 16 * n + 4 + 2 * (avail_seen v `mod` n)) with sl by lia.
      exact (peek_stored_in _ _ _ _ S1).
    + rewrite <-Hhd. apply peek_ext. intros a Ha. apply Hfr. unfold apart, PAGE_SIZE in *. lia.
  - rewrite Hv2. cbn [rq_sector]. lia.
  - rewrite Hv2. unfold request_apart, apart, PAGE_SIZE in *. cbn [rq_data rq_status]. fold base n. lia.
  - unfold on_dev, out32. rewrite Hpo. cbn [mbind outcome_bind wp]. change (u32 0) with 0.
    apply (HQ _ (dev w2)); cbn [pages dev]; rewrite ?Hv2; fold base n; [congruence|done| | |].
    + intros a Ha. apply Hfr. lia.
    + by rewrite Hi2, le_val_bytes.
    + exists k. split; [done|]. split; [|done]. intros j Hjk. rewrite Hj by done. cbn [rq_status]. apply Hfr.
      unfold apart, PAGE_SIZE in *. lia.
Qed.

Lemma wp_await_status fuel p w r d Q :
  hhdm_phys (pages w) (u64 (p + packet_status)) = rq_status r → (latency < fuel)%nat →
  in_service r PLACEHOLDER_STATUS d (dev w) →
  (∀ w', pages w' = pages w → served view idle r d (dev w') → Q ((), w')) →
  wp False (await_status fuel p w) Q.
Proof.
  intros Hp Hf (k & Hk & Hj & Hs) HQ. unfold await_status, io_while.
  apply (wp_while_rel False (λ n '((), w'), pages w' = pages w ∧
    (∀ j, (j < n)%nat → ram_of (Nat.iter j device_run (dev w')) (rq_status r) = PLACEHOLDER_STATUS) ∧
    served view idle r d (Nat.iter n device_run (dev w'))) _ _ _ k); [done|lia|].
  intros n [[] w1] (Ep & Hj1 & Hs1). apply wp_bind, wp_io_bind, (wp_load_bytes (rq_status r)); [by rewrite Ep|].
  replace (le_val (peek (ram_of (dev w1)) (rq_status r) 1)) with (ram_of (dev w1) (rq_status r)).
  2: { unfold peek. change (seqZ (rq_status r) 1) with [0 + rq_status r]. cbn [fmap list_fmap le_val]. rewrite Z.add_0_l. lia. }
  destruct n as [|n].
  - pose proof (served_status _ _ _ _ _ Hs1) as H0. cbn in H0. rewrite H0. change (0 =? PLACEHOLDER_STATUS) with false. by apply HQ.
  - specialize (Hj1 0%nat ltac:(lia)) as H0. cbn in H0. rewrite H0. change (PLACEHOLDER_STATUS =? PLACEHOLDER_STATUS) with true.
    cbn [wp mbind io_bind outcome_bind mret io_ret fst snd spin_wait]. exists n. split; [lia|]. split; [done|]. cbn [dev]. split.
    + intros j Hjn. specialize (Hj1 (S j) ltac:(lia)). by rewrite Nat.iter_succ_r in Hj1.
    + by rewrite Nat.iter_succ_r in Hs1.
Qed.

Lemma wp_check_status p w a Q : hhdm_phys (pages w) (u64 (p + packet_status)) = a → ram_of (dev w) a = 0 → Q ((), w) →
  wp False (check_status p w) Q.
Proof.
  intros Hp H0 HQ. unfold check_status. apply wp_io_bind, (wp_load_bytes a); [done|].
  unfold peek. change (seqZ a 1) with [0 + a]. cbn [fmap list_fmap le_val]. rewrite Z.add_0_l, H0. exact HQ.
Qed.

(** ** The page of the packet *)
Lemma virtio_ok_frame blk w w' :
  virtio_ok blk w → pages w' = pages w → view (dev w') = view (dev w) → idle (dev w') = idle (dev w) →
  (∀ a, queue_base (view (dev w)) + 48 ≤ a < queue_base (view (dev w)) + queue_bytes (queue_len (view (dev w))) →
     ram_of (dev w') a = ram_of (dev w) a) →
  virtio_ok blk w'.
Proof.
  intros [] Ep Ev Ei Hr. pose proof (queue_sizes _ (queue_len_range (port := port) (dev w))).
  constructor; rewrite ?Ep, ?Ev, ?Ei; try done. rewrite <-ok_seen0. f_equal. apply peek_ext. intros a Ha. apply Hr.
  unfold PAGE_SIZE in *. lia.
Qed.

Lemma is_free_unmarked s i a : is_free (mark true i 1 s) a → is_free s a.
Proof.
  intros (j & Hj & ->). exists j. split; [|done]. apply page_is_mark in Hj. case_decide; [by destruct Hj as [? _]|done].
Qed.

Lemma wp_take_page blk w : virtio_ok blk w →
  wp (free_pages (slab (pages w)) = 0%nat) (on_slab malloc4k_phys w) (λ '(phys, w1),
    virtio_ok blk w1 ∧ dev w1 = dev w ∧ 0 ≤ phys ∧ phys + PAGE_SIZE ≤ 2 ^ 40 ∧
    apart phys PAGE_SIZE (queue_base (view (dev w))) (queue_bytes (queue_len (view (dev w)))) ∧
    ∀ w2, pages w2 = pages w1 → free_packet phys w2 = Ok ((), Dma (pages w) (dev w2))).
Proof.
  intros Hok. destruct (ok_slab _ _ Hok) as [Hwf Htop]. unfold on_slab. apply wp_bind.
  eapply wp_mono; [by apply malloc4k_phys_wp|]. intros [a s1] (i & -> & Hi & -> & Hwf1 & _). cbn [wp dev pages].
  pose proof (page_is_range _ _ _ Hwf Hi) as Hir. pose proof (wf_base _ Hwf) as Hb0.
  assert (is_free (slab (pages w)) (page_addr (slab (pages w)) i)) as Hfree by (by exists i).
  split; [|split; [done|split; [|split; [|split]]]].
  - destruct Hok. constructor; cbn [pages dev with_slab slab]; try done.
    intros a Ha. apply ok_held0. by eapply is_free_unmarked.
  - unfold page_addr, PAGE_SIZE. lia.
  - unfold page_addr, PAGE_SIZE in *. lia.
  - by apply (ok_held _ _ Hok).
  - intros [st2 d2]. cbn [pages dev]. intros ->. unfold free_packet, on_slab. cbn [pages with_slab slab].
    change (page_addr (slab (pages w)) i) with (page_addr (mark true i 1 (slab (pages w))) i).
    rewrite (free4k_phys_page _ i true Hwf1).
    2: { apply page_is_mark. rewrite decide_True by lia. by eauto. }
    rewrite mark_mark_undo; [by destruct w as [[] ?]|]. split; [lia|]. intros j Hj. by replace j with i by lia.
Qed.

(** What is left when a request was served: the driver's state, and the device's as the request says. *)
Lemma served_ok blk w r d w' : virtio_ok blk w → pages w' = pages w → view d = view (dev w) →
  le_val (peek (ram_of d) (queue_base (view d) + 16 * queue_len (view d) + 2) 2) = u16 (avail_seen (view d) + 1) →
  request_apart r (view d) → served view idle r d (dev w') → virtio_ok blk w'.
Proof.
  intros [] Ep Ed Hi (_ & Ha1 & Ha2) [Hv' Hi' _ _ Hfr]. pose proof (queue_len_range (port := port) (dev w)) as Hn.
  pose proof (queue_sizes _ Hn). rewrite Ed in *. unfold apart, PAGE_SIZE in *.
  constructor; rewrite ?Ep, ?Hv'; cbn [take_request queue_base queue_len avail_seen]; rewrite ?Ed; try done. rewrite <-Hi. f_equal. apply peek_ext.
  intros a Ha. apply Hfr; lia.
Qed.

Lemma wp_queue_check blk w Q : virtio_ok blk w → Q ((), w) → wp False (lift (hcf_if (queue_size (queue blk) =? 0)) w) Q.
Proof.
  intros [] HQ. rewrite ok_queue0. cbn [queue_at queue_size]. rewrite (proj2 (Z.eqb_neq _ 0)) by lia. exact HQ.
Qed.

(** The pages given back leave the queue where it was. *)
Lemma virtio_ok_pages blk w w' : virtio_ok blk w → virtio_ok blk w' →
  queue_base (view (dev w')) = queue_base (view (dev w)) → queue_len (view (dev w')) = queue_len (view (dev w)) →
  virtio_ok blk (Dma (pages w) (dev w')).
Proof. intros [] [] Eb El. constructor; cbn [pages dev]; rewrite ?Eb, ?El in *; done. Qed.

(** From the packet in memory to the request served. *)
Lemma wp_request {A} fuel blk w phys df type sector (rest : io (dma D) A) Q :
  virtio_ok blk w → 0 ≤ phys → phys + PAGE_SIZE ≤ 2 ^ 40 → (latency < fuel)%nat →
  apart phys PAGE_SIZE (queue_base (view (dev w))) (queue_bytes (queue_len (view (dev w)))) →
  df = (if type =? 0 then 3 else 1) → 0 ≤ type < 2 → 0 ≤ sector < capacity (view (dev w)) →
  peek (ram_of (dev w)) phys 16 = le_bytes 4 type ++ le_bytes 4 0 ++ le_bytes 8 sector →
  ram_of (dev w) (phys + 528) = PLACEHOLDER_STATUS →
  (∀ w' d, virtio_ok blk w' → pages w' = pages w → view d = view (dev w) →
     (∀ a, phys ≤ a < phys + PAGE_SIZE → ram_of d a = ram_of (dev w) a) →
     served view idle (MkRequest type sector (phys + 16) (phys + 528)) d (dev w') → wp False (rest w') Q) →
  wp False ((_ ← set_buffers (queue blk) phys df; _ ← post_request blk; _ ← await_status fuel (phys_to_hhdm (pages w) phys);
             _ ← check_status (phys_to_hhdm (pages w) phys); rest) w) Q.
Proof.
  intros Hok Hp0 Hp1 Hf Hap Hdf Hty Hsec Hhd Hst HQ.
  pose proof (queue_sizes _ (queue_len_range (port := port) (dev w))) as Hsz. pose proof (ok_len _ _ Hok) as Hl.
  assert (∀ w', pages w' = pages w → hhdm_phys (pages w') (u64 (phys_to_hhdm (pages w) phys + packet_status)) = phys + 528) as Hps.
  { intros w' ->. change packet_status with 528. apply hhdm_round_off. unfold PAGE_SIZE in *. lia. }
  apply wp_io_bind, wp_set_buffers; [done..|]. intros w1 Ep1 Ev1 Ei1 Hb1 Hr1.
  assert (∀ a, phys ≤ a < phys + PAGE_SIZE → ram_of (dev w1) a = ram_of (dev w) a) as Hpg1.
  { intros a Ha. apply Hr1. unfold apart, PAGE_SIZE in *. lia. }
  assert (virtio_ok blk w1) as Hok1 by (apply (virtio_ok_frame blk w); [done..|intros a Ha; apply Hr1; lia]).
  apply wp_io_bind, (wp_post_request blk w1 phys df type sector); rewrite ?Ev1; [done..| |].
  { rewrite <-Hhd. apply peek_ext. intros a Ha. apply Hpg1. unfold PAGE_SIZE. lia. }
  intros w2 d Ep2 Ed Hrd Hid Hsv. rewrite Hpg1, Hst in Hsv by (unfold PAGE_SIZE; lia).
  apply wp_io_bind, (wp_await_status _ _ _ (MkRequest type sector (phys + 16) (phys + 528)) d);
    [apply Hps; congruence|done|exact Hsv|]. intros w3 Ep3 Hs3.
  apply wp_io_bind, (wp_check_status _ _ (phys + 528)); [apply Hps; congruence|by apply served_status in Hs3|].
  apply (HQ w3 d); [|congruence|by rewrite Ed|..|done].
  - apply (served_ok blk w1 (MkRequest type sector (phys + 16) (phys + 528)) d); [done|congruence|by rewrite Ed|done| |done]. rewrite Ed.
    unfold request_apart, apart, PAGE_SIZE in *. cbn [rq_data rq_status]. lia.
  - intros a Ha. rewrite Hrd; [by apply Hpg1|]. rewrite Ed. unfold apart, PAGE_SIZE in *. lia.
Qed.

Definition virtio_state_after (blk : VirtioBlockDevice) (w w' : dma D) (f : Z → list Z) : Prop :=
  virtio_ok blk w' ∧ pages w' = pages w ∧ disk (view (dev w')) = f ∧ capacity (view (dev w')) = capacity (view (dev w)).

Lemma virtio_read_wp fuel blk w sector : virtio_ok blk w → (latency < fuel)%nat → 0 ≤ sector < capacity (view (dev w)) →
  wp (free_pages (slab (pages w)) = 0%nat) (virtio_block_read fuel blk sector w)
    (λ '(l, w'), l = disk (view (dev w)) sector ∧ virtio_state_after blk w w' (disk (view (dev w)))).
Proof.
  intros Hok Hf Hsec. unfold virtio_block_read. apply wp_io_bind.
  eapply wp_mono_halt; [apply (wp_queue_check blk w (λ '(_, w'), w' = w)); done|done|]. intros [_ w0] ->.
  apply wp_io_bind. eapply wp_mono; [by apply wp_take_page|]. intros [phys w1] (Hok1 & Ed1 & Hp0 & Hp1 & Hap & Hfree).
  apply (wp_mono_halt False _ _ (λ '(l, w'), l = disk (view (dev w)) sector ∧ virtio_state_after blk w w' (disk (view (dev w))))); [|done|done].
  apply wp_io_bind. change (to_hhdm phys w1) with (Ok (phys_to_hhdm (pages w1) phys, w1)). cbn [wp].
  apply wp_io_bind, (wp_store_bytes phys); [apply hhdm_round; unfold PAGE_SIZE in *; lia|by auto with stuos|]. intros w2 Ep2 Ev2 Ei2 S2. rewrite <-Ep2.
  destruct (packet_stored _ _ _ _ _ _ _ ltac:(apply length_replicate) S2) as (Hhd & Hst & Hr2).
  rewrite Ed1 in Ev2. apply wp_request with (type := 0) (sector := sector); rewrite ?Ev2; try done.
  - apply (virtio_ok_frame blk w1); rewrite ?Ed1; try done; [by rewrite Ei2, Ed1|].
    intros a Ha. rewrite <-Ed1. apply Hr2. unfold apart, PAGE_SIZE in *. lia.
  - intros w3 d Hok3 Ep3 Ed Hrd Hs. apply wp_io_bind, (wp_load_bytes (phys + 16)).
    { rewrite Ep2. rewrite Ep3, Ep2. change packet_data with 16. apply hhdm_round_off. unfold PAGE_SIZE in *. lia. }
    apply wp_io_bind. rewrite Hfree by congruence. cbn [wp mret io_ret].
    pose proof (served_data _ _ _ _ _ Hs eq_refl) as Hdat. cbn [rq_data rq_sector] in Hdat. rewrite Ed in Hdat.
    split; [exact Hdat|]. pose proof (served_view _ _ _ _ _ Hs) as Hv. rewrite Ed in Hv. unfold virtio_state_after. cbn [pages dev].
    rewrite Hv. split; [|done]. apply (virtio_ok_pages blk w w3); [done..|by rewrite Hv|by rewrite Hv].
Qed.

Lemma virtio_write_wp fuel blk w sector input : virtio_ok blk w → (latency < fuel)%nat → 0 ≤ sector < capacity (view (dev w)) →
  length input = 512%nat → Forall is_byte input →
  wp (free_pages (slab (pages w)) = 0%nat) (virtio_block_write fuel blk sector input w)
    (λ '(_, w'), virtio_state_after blk w w' (λ s, if decide (s = sector) then input else disk (view (dev w)) s)).
Proof.
  intros Hok Hf Hsec Hin Hby. unfold virtio_block_write. apply wp_io_bind.
  eapply wp_mono_halt; [apply (wp_queue_check blk w (λ '(_, w'), w' = w)); done|done|]. intros [_ w0] ->.
  apply wp_io_bind. eapply wp_mono; [by apply wp_take_page|]. intros [phys w1] (Hok1 & Ed1 & Hp0 & Hp1 & Hap & Hfree).
  apply (wp_mono_halt False _ _ (λ '(_, w'), virtio_state_after blk w w' (λ s, if decide (s = sector) then input else disk (view (dev w)) s)));
    [|done|done].
  apply wp_io_bind. change (to_hhdm phys w1) with (Ok (phys_to_hhdm (pages w1) phys, w1)). cbn [wp].
  apply wp_io_bind, (wp_store_bytes phys); [apply hhdm_round; unfold PAGE_SIZE in *; lia|by auto with stuos|]. intros w2 Ep2 Ev2 Ei2 S2. rewrite <-Ep2.
  destruct (packet_stored _ _ _ _ _ _ _ ltac:(apply length_replicate) S2) as (Hhd & Hst & Hr2).
  apply wp_io_bind. rewrite Hin. change (Z.of_nat 512 <? BLOCK_DEVICE_READ_SIZE) with false. cbn [lift wp mbind outcome_bind].
  rewrite take_ge by (rewrite Hin; done).
  apply wp_io_bind, (wp_store_bytes (phys + 16)); [apply hhdm_round_off; unfold PAGE_SIZE in *; lia|by auto with stuos|]. intros w3 Ep3 Ev3 Ei3 S3.
  rewrite <-Ep3. rewrite Ev2, Ed1 in Ev3. rewrite Ei2, Ed1 in Ei3.
  assert (∀ a, ¬ (phys + 16 ≤ a < phys + 528) → ram_of (dev w3) a = ram_of (dev w2) a) as Hr3.
  { intros a Ha. apply (stored_out _ _ _ _ _ S3). rewrite Hin. lia. }
  assert (peek (ram_of (dev w3)) (phys + 16) 512 = input) as Hdat.
  { rewrite <-(peek_stored_in _ _ _ _ S3) at 1. by rewrite Hin. }
  apply wp_request with (type := 1) (sector := sector); rewrite ?Ev3; try done.
  - apply (virtio_ok_frame blk w1); rewrite ?Ed1; try done; [congruence|].
    intros a Ha. rewrite Hr3, Hr2, Ed1 by (unfold apart, PAGE_SIZE in *; lia). done.
  - etrans; [|exact Hhd]. apply peek_ext. intros a Ha. apply Hr3. lia.
  - rewrite Hr3 by lia. done.
  - intros w4 d Hok4 Ep4 Ed Hrd Hs. rewrite Hfree by congruence. cbn [wp].
    pose proof (served_view _ _ _ _ _ Hs) as Hv. rewrite Ed in Hv. unfold virtio_state_after. cbn [pages dev].
    rewrite Hv. split; [apply (virtio_ok_pages blk w w4); [done..|by rewrite Hv|by rewrite Hv]|]. split; [done|]. split; [|done].
    cbn [take_request disk rq_type rq_sector rq_data]. change (1 =? 0) with false. cbv iota.
    rewrite (peek_ext (ram_of (dev w3)) (ram_of d)); [by rewrite Hdat|]. intros a Ha. apply Hrd. unfold PAGE_SIZE. lia.
Qed.

(** ** The driver as a block driver (BlockDev.v)

    A state in which the queue is not set up has no sectors. *)
#[export] Instance virtio_ok_dec blk w : Decision (virtio_ok blk w).
Proof.
  refine (cast_if (decide (bar_port blk = port ∧ queue blk = queue_at (pages w) (queue_base (view (dev w))) (queue_len (view (dev w))) ∧
    3 ≤ queue_len (view (dev w)) ∧ 0 ≤ queue_base (view (dev w)) ∧
    queue_base (view (dev w)) + queue_bytes (queue_len (view (dev w))) ≤ 2 ^ 40 ∧
    le_val (peek (ram_of (dev w)) (queue_base (view (dev w)) + 16 * queue_len (view (dev w)) + 2) 2) = avail_seen (view (dev w)) ∧
    idle (dev w) = true ∧ slab_ok (slab (pages w)) ∧ queue_held (slab (pages w)) (queue_base (view (dev w))) (queue_len (view (dev w))))));
    [abstract (destruct_and!; by constructor)|abstract (intros []; tauto)].
Defined.

Definition driver_ok (bw : VirtioBlockDevice * dma D) : Prop := virtio_ok bw.1 bw.2 ∧ (0 < free_pages (slab (pages bw.2)))%nat.

(** The two functions the driver registers, for the state of the driver. *)
#[export] Program Instance virtio_block_driver : BlockDriver (VirtioBlockDevice * dma D) := {
  block_read s bw := '(l, w) ← virtio_block_read (S latency) bw.1 s bw.2; Ok (l, (bw.1, w));
  block_write s l bw := '(_, w) ← virtio_block_write (S latency) bw.1 s l bw.2; Ok (bw.1, w);
  sector bw := disk (view (dev bw.2));
  num_sectors bw := if decide (driver_ok bw) then capacity (view (dev bw.2)) else 0
}.
Next Obligation. intros [blk w] s. apply (disk_sector (port := port)). Qed.
Next Obligation.
  intros [blk w] s Hs. cbn [fst snd] in *. case_decide as Hok; [|lia]. destruct Hok as [Hok Hfp]. cbn [fst snd] in *.
  apply wp_bind. eapply wp_mono_halt; [apply (virtio_read_wp _ _ _ s Hok); [lia|done]|cbn [fst snd]; lia|].
  intros [l w'] (-> & Hok' & Ep & Ed & Ec). cbn [wp fst snd]. split; [done|]. split; [done|].
  rewrite decide_True; [done|]. split; [done|]. cbn [snd]. by rewrite Ep.
Qed.
Next Obligation.
  intros [blk w] s l Hs Hl Hby. cbn [fst snd] in *. case_decide as Hok; [|lia]. destruct Hok as [Hok Hfp]. cbn [fst snd] in *.
  apply wp_bind. eapply wp_mono_halt; [apply (virtio_write_wp _ _ _ s l Hok); [lia|done..]|cbn [fst snd]; lia|].
  intros [[] w'] (Hok' & Ep & Ed & Ec). cbn [wp fst snd]. split.
  - rewrite decide_True; [done|]. split; [done|]. cbn [snd]. by rewrite Ep.
  - intros s'. rewrite Ed. by destruct (decide (s = s')), (decide (s' = s)).
Qed.

(** C20: A sector that was written reads back, and the others are as they were; both requests leave the driver
    ready for the next one and give back the page they took. *)
Theorem virtio_write_then_read fuel blk w s s' input :
  virtio_ok blk w → (0 < free_pages (slab (pages w)))%nat → (latency < fuel)%nat →
  0 ≤ s < capacity (view (dev w)) → 0 ≤ s' < capacity (view (dev w)) → length input = 512%nat → Forall is_byte input →
  ∃ w1 w2, virtio_block_write fuel blk s input w = Ok ((), w1) ∧
    virtio_block_read fuel blk s' w1 = Ok (if decide (s' = s) then input else disk (view (dev w)) s', w2) ∧
    virtio_ok blk w2 ∧ pages w2 = pages w ∧ ∀ i, disk (view (dev w2)) i = if decide (i = s) then input else disk (view (dev w)) i.
Proof.
  intros Hok Hfp Hf Hs Hs' Hin Hby. pose proof (virtio_write_wp fuel blk w s input Hok Hf Hs Hin Hby) as Hw.
  destruct (virtio_block_write fuel blk s input w) as [[[] w1]| | |]; cbn [wp] in Hw; [|lia|done|done].
  destruct Hw as (Hok1 & Ep1 & Ed1 & Ec1).
  pose proof (virtio_read_wp fuel blk w1 s' Hok1 Hf ltac:(by rewrite Ec1)) as Hr. rewrite Ep1 in Hr.
  destruct (virtio_block_read fuel blk s' w1) as [[l w2]| | |] eqn:Er; cbn [wp] in Hr; [|lia|done|done].
  destruct Hr as (-> & Hok2 & Ep2 & Ed2 & _). exists w1, w2. split; [done|]. rewrite Er, Ed2, Ed1, Ep2. by rewrite Ep1.
Qed.

(** ** Setting up the queue *)
Lemma wp_read_queue_size {A} (f : Z → io (dma D) A) w Q :
  (∀ w', pages w' = pages w → view (dev w') = view (dev w) → idle (dev w') = idle (dev w) →
     wp Q.1 (f (queue_len (view (dev w))) w') Q.2) →
  wp Q.1 ((_ ← on_dev (out16 (port + QUEUE_SELECT_OFF) 0); sz ← on_dev (in16 (port + QUEUE_SIZE_OFF)); f sz) w) Q.2.
Proof.
  intros HQ. pose proof (size_law (port := port) (dev w)) as Hl. pose proof (queue_len_range (port := port) (dev w)) as Hn.
  rewrite (io_bind_Ok _ _ w () (Dma (pages w) (port_out 2 (u16 (port + QUEUE_SELECT_OFF)) 0 (dev w)))) by done.
  destruct (port_in 2 (u16 (port + QUEUE_SIZE_OFF)) (port_out 2 (u16 (port + QUEUE_SELECT_OFF)) 0 (dev w))) as [v d'] eqn:E.
  destruct Hl as (-> & Hv & Hi & _). rewrite (io_bind_Ok _ _ _ (queue_len (view (dev w))) (Dma (pages w) d')); [by apply HQ|].
  unfold on_dev, in16. cbn [dev pages]. rewrite E. cbn [mbind outcome_bind]. by rewrite wrap_small.
Qed.

Lemma wp_set_queue_address v w Q : 0 ≤ v < 2 ^ 32 →
  (∀ w', pages w' = pages w → idle (dev w') = idle (dev w) → ram_of (dev w') = ram_of (dev w) →
     view (dev w') = MkView (disk (view (dev w))) (capacity (view (dev w))) (queue_len (view (dev w))) (PAGE_SIZE * v) 0 → Q ((), w')) →
  wp False (on_dev (out32 (port + QUEUE_ADDRESS_OFF) v) w) Q.
Proof.
  intros Hv HQ. destruct (address_law (port := port) v (dev w) Hv) as (Ev & Ei & Er).
  unfold on_dev, out32. cbn [mbind outcome_bind wp]. rewrite (wrap_small 32 v) by done. by apply HQ.
Qed.

Lemma initialise_queue_wp w : slab_ok (slab (pages w)) → idle (dev w) = true → 0 < queue_len (view (dev w)) →
  wp (∀ i, ¬ free_run (slab (pages w)) i (queue_pages (queue_len (view (dev w))))) (initialise_queue port 0 w) (λ '(md, w'),
    (3 ≤ queue_len (view (dev w)) → virtio_ok (MkVirtioBlockDevice port md) w') ∧ queue_size md = queue_len (view (dev w)) ∧
    idle (dev w') = true ∧ disk (view (dev w')) = disk (view (dev w)) ∧ capacity (view (dev w')) = capacity (view (dev w)) ∧
    ∃ i, free_run (slab (pages w)) i (queue_pages (queue_len (view (dev w)))) ∧
      slab (pages w') = mark true i (queue_pages (queue_len (view (dev w)))) (slab (pages w))).
Proof.
  intros [Hwf Htop] Hid Hpos. pose proof (queue_len_range (port := port) (dev w)) as Hn.
  set (n := queue_len (view (dev w))) in *. pose proof (queue_sizes n Hn) as Hsz.
  match goal with |- wp ?H _ ?Q => apply (wp_read_queue_size _ w (H, Q)) end. cbn [fst snd]. fold n.
  intros w1 Ep1 Ev1 Ei1. rewrite (proj2 (Z.eqb_neq n 0)) by lia. fold (queue_pages n).
  apply wp_io_bind. unfold on_slab at 1. rewrite Ep1. apply wp_bind.
  assert (0 < queue_pages n) as Hqp by (unfold queue_bytes, PAGE_SIZE in *; lia).
  pose proof (malloc_contiguous_phys_spec (slab (pages w)) (queue_pages n) Hwf Hqp) as Hm.
  destruct (malloc_contiguous_phys _ _) as [[a s']| | |]; [|exact Hm|done|done]. destruct Hm as (i & -> & Hrun & _ & -> & Hwf').
  cbn [wp mbind outcome_bind]. set (base := page_addr (slab (pages w)) i) in *. set (w2 := Dma _ _).
  assert (0 ≤ base ∧ base `mod` PAGE_SIZE = 0 ∧ base + queue_bytes n ≤ 2 ^ 40) as (Hb0 & Hb1 & Hb2).
  { destruct Hrun as [Hi0 Hr]. pose proof (page_is_range _ _ _ Hwf (Hr i ltac:(lia))).
    pose proof (page_is_range _ _ _ Hwf (Hr (i + queue_pages n - 1) ltac:(lia))). pose proof (wf_base _ Hwf).
    split; [unfold base, page_addr, PAGE_SIZE; lia|]. split; [by apply page_addr_aligned|].
    unfold base, page_addr, queue_bytes, PAGE_SIZE in *. lia. }
  assert (∀ o, 0 ≤ o ≤ queue_bytes n → u64 (base + o) = base + o) as Hu by (intros o Ho; apply wrap_small; lia).
  eapply (wp_mono_halt False); [|done|intros x Hx; exact Hx].
  apply wp_io_bind. cbn [to_hhdm wp].
  apply wp_io_bind, (wp_store_bytes base); [apply hhdm_round; lia|by auto with stuos|]. intros w3 Ep3 Ev3 Ei3 S3.
  apply wp_io_bind, wp_set_queue_address; [unfold PAGE_SIZE in *; dlia|]. intros w4 Ep4 Ei4 Er4 Ev4.
  change (dev w2) with (dev w1) in *. rewrite Ev3, Ev1 in Ev4. fold n in Ev4.
  replace (PAGE_SIZE * (base `div` PAGE_SIZE)) with base in Ev4 by dlia.
  do 7 (apply wp_io_bind; cbn [to_hhdm wp]). unfold SIZEOF_VQBuffer.
  rewrite (Hu (16 * n)), <-!(Z.add_assoc base), (Hu (16 * n + 2)), <-!(Z.add_assoc base), (Hu (16 * n + 2 + 2)) by lia.
  rewrite (Z.mul_comm PAGE_SIZE), (Hu (first_part_size_pages n * PAGE_SIZE)), <-!(Z.add_assoc base) by lia.
  rewrite (Hu (_ + 2)), <-!(Z.add_assoc base), (Hu (_ + 2 + 2)) by lia.
  apply wp_io_bind, (wp_store_bytes (base + 16 * n)); [rewrite Ep4, Ep3; apply hhdm_round; lia|by auto with stuos|]. intros w5 Ep5 Ev5 Ei5 S5.
  cbn [wp mret io_ret]. cbn [queue_size]. rewrite Ev5, Ev4, Ei5, Ei4, Ei3, Ei1, Hid. cbn [disk capacity].
  rewrite Ep5, Ep4, Ep3. cbn [w2 pages with_slab slab]. split; [|by eauto 10].
  intros H3. constructor; rewrite ?Ep5, ?Ep4, ?Ep3, ?Ev5, ?Ev4; cbn [bar_port queue queue_base queue_len avail_seen w2 pages with_slab slab]; try done.
  - unfold queue_at. rewrite Z.add_0_r, <-!Z.add_assoc. f_equal; by rewrite Ep4, Ep3.
  - rewrite (peek_stored_out _ _ _ _ _ _ S5) by (rewrite le_bytes_length; lia). rewrite Er4.
    by rewrite (peek_zeroed _ _ _ _ _ 2 S3) by (unfold queue_bytes in *; lia).
  - by rewrite Ei5, Ei4, Ei3, Ei1.
  - intros a (j & Hj & ->). apply page_is_mark in Hj. case_decide as Hr; [by destruct Hj as [? _]|].
    unfold apart, base, page_addr, queue_bytes, PAGE_SIZE in *. cbn [mark with_flags physical_memory_base]. lia.
Qed.

(** ** Starting the driver *)

(** [initialise_virtio]: a disk is registered with the driver's functions, another device is left alone. *)
Definition initialise_virtio (header : PciConfigurationHeader) (bar_list : list BarInfo) (cache_data : list Z)
    (st : dev_state (VirtioBlockDevice * dma D)) (w : dma D) : outcome (dma D + dev_state (VirtioBlockDevice * dma D)) :=
  '(r, w) ← probe_virtio header bar_list w;
  match r with
  | None => Ok (inl w)
  | Some blk => st ← fs_dev_add_block_device (blk, w) cache_data st; Ok (inr st)
  end.

(** What every step of the reset keeps. *)
Definition same_disk (w w' : dma D) : Prop :=
  pages w' = pages w ∧ idle (dev w') = true ∧ disk (view (dev w')) = disk (view (dev w)) ∧
  capacity (view (dev w')) = capacity (view (dev w)) ∧ queue_len (view (dev w')) = queue_len (view (dev w)).

(** A step that leaves the queue as well. *)
Definition same_view (w w' : dma D) : Prop :=
  pages w' = pages w ∧ idle (dev w') = true ∧ view (dev w') = view (dev w) ∧ ram_of (dev w') = ram_of (dev w).

Lemma wp_reset_status w Q : (∀ w', same_disk w w' → Q ((), w')) → wp False (on_dev (out8 (port + DEVICE_STATUS_OFF) 0) w) Q.
Proof.
  intros HQ. unfold on_dev, out8. cbn [mbind outcome_bind wp]. apply HQ. change (u8 0) with 0.
  destruct (reset_law (port := port) (dev w)) as (Hi & Hd & Hc & Hl). by split_and!.
Qed.

Lemma wp_set_status v w Q : 0 < v < 256 → idle (dev w) = true → (∀ w', same_view w w' → Q ((), w')) →
  wp False (on_dev (out8 (port + DEVICE_STATUS_OFF) v) w) Q.
Proof.
  intros Hv Hi HQ. unfold on_dev, out8. cbn [mbind outcome_bind wp]. apply HQ. rewrite (wrap_small 8 v) by (change (2 ^ 8) with 256; lia).
  destruct (status_out_law (port := port) v (dev w) ltac:(lia)) as (Hv' & Hi' & Hr'). split_and!; cbn [pages dev]; congruence.
Qed.

Lemma wp_get_status w Q : idle (dev w) = true → (∀ v w', same_view w w' → Q (v, w')) →
  wp False (on_dev (in8 (port + DEVICE_STATUS_OFF)) w) Q.
Proof.
  intros Hi HQ. unfold on_dev, in8. destruct (status_law (port := port) (dev w)) as (Hv' & Hi' & Hr').
  destruct (port_in 1 (u16 (port + DEVICE_STATUS_OFF)) (dev w)) as [v d']. cbn [snd mbind outcome_bind wp] in *.
  apply HQ. split_and!; cbn [pages dev]; congruence.
Qed.

Lemma wp_spin w Q : idle (dev w) = true → (∀ w', same_view w w' → Q ((), w')) → wp False (spin_wait w) Q.
Proof. intros Hi HQ. destruct (idle_run_law (port := port) (dev w) Hi) as (Hv & Hi' & Hr). apply HQ. by split_and!. Qed.

(** The header and the first register of a disk at [port]. *)
Record is_virtio_disk (header : PciConfigurationHeader) (bar_list : list BarInfo) : Prop := {
  virtio_vendor : vendor_id header = 0x1AF4;
  virtio_device : 0x1000 ≤ device_id header ≤ 0x103F;
  virtio_revision : revision_id header = 0;
  virtio_subsystem : subsystem_id header = 2;
  virtio_bar : ∃ bar, bar_list !! 0%nat = Some bar ∧ is_io_bar bar = true ∧ u16 (address bar) = port
}.

Lemma virtio_ok_same_view blk w w' : virtio_ok blk w → same_view w w' → virtio_ok blk w'.
Proof. intros H (Ep & Ei & Ev & Er). destruct H. constructor; rewrite ?Ep, ?Ev, ?Er; done. Qed.

Lemma same_view_disk w w' : same_view w w' → same_disk w w'.
Proof. intros (Ep & Ei & Ev & _). split_and!; by rewrite ?Ev. Qed.

Lemma same_disk_trans w1 w2 w3 : same_disk w1 w2 → same_disk w2 w3 → same_disk w1 w3.
Proof. unfold same_disk. intuition congruence. Qed.

Lemma wp_step {A B} H (m : io (dma D) A) (f : A → io (dma D) B) w Q :
  wp False (m w) (λ '(a, w'), wp H (f a w') Q) → wp H ((m ≫= f) w) Q.
Proof. intros Hm. apply wp_io_bind. by eapply wp_mono_halt. Qed.

Lemma wp_probe_virtio header bars w :
  is_virtio_disk header bars → slab_ok (slab (pages w)) → 3 ≤ queue_len (view (dev w)) →
  let n := queue_pages (queue_len (view (dev w))) in
  wp (∀ i, ¬ free_run (slab (pages w)) i n) (probe_virtio header bars w) (λ '(r, w'), ∃ blk, r = Some blk ∧ virtio_ok blk w' ∧
    disk (view (dev w')) = disk (view (dev w)) ∧ capacity (view (dev w')) = capacity (view (dev w)) ∧
    ∃ i, free_run (slab (pages w)) i n ∧ slab (pages w') = mark true i n (slab (pages w))).
Proof.
  intros [Hv Hd Hr Hs (bar & Hb & Hio & Hport)] Hsl Hn n. unfold probe_virtio.
  rewrite lift_bind, Hv. change (negb (0x1AF4 =? 0x1AF4)) with false. cbn [hcf_if mbind outcome_bind].
  rewrite lift_bind. replace ((device_id header <? 0x1000) || (0x103F <? device_id header)) with false by lia. cbn [hcf_if mbind outcome_bind].
  rewrite lift_bind, Hr. change (negb (0 =? 0)) with false. cbn [hcf_if mbind outcome_bind].
  rewrite lift_bind, (arr_get_lookup bars 0 bar) by done. rewrite Ok_bind, lift_bind, Hio. cbn [negb hcf_if mbind outcome_bind].
  rewrite Hport, Hs. change (2 =? 2) with true. cbv iota.
  apply wp_step, wp_reset_status. intros w1 H1. pose proof H1 as (_ & Hi1 & _).
  apply wp_step, wp_spin; [done|]. intros w2 H2. pose proof H2 as (_ & Hi2 & _).
  apply wp_step, wp_get_status; [done|]. intros _ w3 H3. pose proof H3 as (_ & Hi3 & _).
  apply wp_step, wp_set_status; [done..|]. intros w4 H4. pose proof H4 as (_ & Hi4 & _).
  apply wp_step, wp_spin; [done|]. intros w5 H5. pose proof H5 as (_ & Hi5 & _).
  apply wp_step, wp_get_status; [done|]. intros _ w6 H6. pose proof H6 as (_ & Hi6 & _).
  assert (same_disk w w6) as (Ep & _ & Ed & Ec & El).
  { do 5 (eapply same_disk_trans; [|apply same_view_disk; eassumption]). exact H1. }
  apply wp_io_bind. eapply wp_mono_halt; [apply initialise_queue_wp; [by rewrite Ep|done|by rewrite El; lia]|by rewrite Ep, El|].
  rewrite Ep, El, Ed, Ec. intros [md w7] (Hok & Esz & Hi7 & Ed7 & Ec7 & i & Hrun & Es7). specialize (Hok Hn).
  rewrite lift_bind, Esz, (proj2 (Z.eqb_neq _ 0)) by lia. cbn [hcf_if mbind outcome_bind].
  apply wp_step, wp_spin; [done|]. intros w8 H8. pose proof (virtio_ok_same_view _ _ _ Hok H8) as Ho8.
  apply wp_step, wp_get_status; [apply Ho8|]. intros _ w9 H9. pose proof (virtio_ok_same_view _ _ _ Ho8 H9) as Ho9.
  apply wp_step, wp_set_status; [done|apply Ho9|]. intros w10 H10. pose proof (virtio_ok_same_view _ _ _ Ho9 H10) as Ho10.
  apply wp_step, wp_spin; [apply Ho10|]. intros w11 H11. pose proof (virtio_ok_same_view _ _ _ Ho10 H11) as Ho11.
  assert (same_disk w7 w11) as (Ep11 & _ & Ed11 & Ec11 & _).
  { do 3 (eapply same_disk_trans; [|apply same_view_disk; eassumption]). by apply same_view_disk. }
  eexists. split; [done|]. split; [done|]. rewrite Ed11, Ec11, Ed7, Ec7, Ep11. by eauto.
Qed.

(** C21: The device's disk becomes a block device: its driver is ready, and its sectors are those of the disk. *)
Theorem initialise_virtio_spec header bars cache_data st w :
  is_virtio_disk header bars → slab_ok (slab (pages w)) → 3 ≤ queue_len (view (dev w)) →
  let n := queue_pages (queue_len (view (dev w))) in
  (∃ i, free_run (slab (pages w)) i n) → n < Z.of_nat (free_pages (slab (pages w))) →
  0 < capacity (view (dev w)) → capacity (view (dev w)) * 512 < 2 ^ 64 →
  next_free_block_device st = Z.of_nat (length (block_devices st)) → next_free_block_device st < MAX_BLOCK_DEVICES →
  ∃ st' dv, initialise_virtio header bars cache_data st w = Ok (inr st') ∧
    block_devices st' = block_devices st ++ [dv] ∧ driver_ok (driver dv) ∧
    sector (driver dv) = disk (view (dev w)) ∧ num_sectors (driver dv) = capacity (view (dev w)) ∧
    num_partitions dv = 1 + Z.of_nat (length (mbr_partitions (disk (view (dev w)) 0))).
Proof.
  intros Hhd Hsl Hn n [i0 Hrun] Hfp Hc Hc64 Hst Hmax.
  pose proof (queue_sizes _ (queue_len_range (port := port) (dev w))) as Hsz.
  assert (0 < n) as Hn0 by (unfold n, queue_bytes, PAGE_SIZE in *; lia).
  pose proof (wp_probe_virtio header bars w Hhd Hsl Hn) as Hp. cbv zeta in Hp. fold n in Hp.
  match type of Hp with wp _ ?o ?Q => assert (wp False o Q) as Hp' by
    (eapply wp_mono_halt; [exact Hp|intros H; by apply (H i0)|done]) end.
  apply wp_total_1 in Hp' as ([r w'] & E & blk & -> & Hok & Ed & Ec & i & Hrun' & Es).
  assert (driver_ok (blk, w')) as Hdok.
  { split; [done|]. cbn [snd]. rewrite Es. pose proof (free_pages_mark (slab (pages w)) i (Z.to_nat n) (slab_wf _ Hsl)) as Hm.
    rewrite Z2Nat.id in Hm by lia. specialize (Hm Hrun'). lia. }
  assert (num_sectors (blk, w') = capacity (view (dev w))) as Hns.
  { cbn [num_sectors virtio_block_driver]. by rewrite decide_True. }
  assert (disk_size (blk, w') < 2 ^ 64) as Hsize by (unfold disk_size; by rewrite Hns).
  destruct (wp_total_1 _ _ (add_block_device_wp (blk, w') cache_data st Hst Hmax ltac:(by rewrite Hns) Hsize))
    as (st' & Ea & dv & Hb & _ & Hsec & Hnum & _ & Hnp & _).
  exists st', dv. unfold initialise_virtio. rewrite E. cbn [mbind outcome_bind]. rewrite Ea. cbn [mbind outcome_bind].
  cbn [sector virtio_block_driver snd] in Hsec, Hnp. rewrite Ed in Hsec, Hnp. split; [done|]. split; [done|].
  rewrite Hns in Hnum. split; [|done]. destruct (decide (driver_ok (driver dv))) as [H|H]; [done|].
  cbn [num_sectors virtio_block_driver] in Hnum. rewrite decide_False in Hnum by done. lia.
Qed.
End driver.

(** ** Examples: a virtio disk in memory: the driver's interface has an implementation, and the theorems apply to it *)
#[local] Arguments wrap : simpl never.

Definition ex_port : Z := 0xC000.

(** A disk of 64 sectors with a queue of 8 places, which needs three rounds for a request. *)
Record ex_disk := ExDisk { ex_ram : Z → Z; ex_sectors : Z → list Z; ex_base : Z; ex_seen : Z; ex_pending : option nat }.

Definition sector_of (l : list Z) : list Z := (λ i, u8 (nth i l 0)) <$> seq 0 512.

Definition ex_view (d : ex_disk) : blk_view := MkView (λ s, sector_of (ex_sectors d s)) 64 8 (ex_base d) (ex_seen d).
Definition ex_bytes (d : ex_disk) (a : Z) : Z := u8 (ex_ram d a).

(** The device takes the next request of the ring: the data of a read, the status, the index of the used ring. *)
Definition ex_serve (d : ex_disk) : ex_disk :=
  match next_request (ex_bytes d) (ex_base d) 8 (ex_seen d) with
  | Some r =>
      let m := if rq_type r =? 0 then overwrite (ex_bytes d) (rq_data r) 512 (sector_of (ex_sectors d (rq_sector r))) else ex_bytes d in
      let m := overwrite m (rq_status r) 1 [0] in
      let m := overwrite m (ex_base d + first_part_size_pages 8 * PAGE_SIZE + 2) 2 (le_bytes 2 (ex_seen d + 1)) in
      ExDisk m (if rq_type r =? 0 then ex_sectors d else λ s, if decide (s = rq_sector r) then peek (ex_bytes d) (rq_data r) 512 else ex_sectors d s)
        (ex_base d) (u16 (ex_seen d + 1)) None
  | None => ExDisk (ex_ram d) (ex_sectors d) (ex_base d) (ex_seen d) None
  end.

#[export] Instance ex_disk_ports : PortIO ex_disk := {
  port_in n p d := (if p =? ex_port + QUEUE_SIZE_OFF then 8 else 0, d);
  port_out n p v d :=
    if p =? ex_port + QUEUE_ADDRESS_OFF then ExDisk (ex_ram d) (ex_sectors d) (PAGE_SIZE * v) 0 (ex_pending d)
    else if p =? ex_port + QUEUE_NOTIFY_OFF then ExDisk (ex_ram d) (ex_sectors d) (ex_base d) (ex_seen d) (Some 2%nat)
    else if (p =? ex_port + DEVICE_STATUS_OFF) && (v =? 0) then ExDisk (ex_ram d) (ex_sectors d) 0 0 None
    else d
}.

#[export] Instance ex_disk_dma : DmaDevice ex_disk := {
  ram_of := ex_bytes;
  cpu_store p l d := ExDisk (overwrite (ex_ram d) p (Z.of_nat (length l)) l) (ex_sectors d) (ex_base d) (ex_seen d) (ex_pending d);
  device_run d := match ex_pending d with
    | None => d
    | Some (S k) => ExDisk (ex_ram d) (ex_sectors d) (ex_base d) (ex_seen d) (Some k)
    | Some O => ex_serve d
    end
}.

Lemma u8_byte x : is_byte x → u8 x = x.
Proof. intros Hx. by apply wrap_small. Qed.

Lemma sector_of_bytes l : length l = 512%nat → Forall is_byte l → sector_of l = l.
Proof.
  intros Hl Hb. unfold sector_of. apply list_eq. intros i. rewrite list_lookup_fmap. destruct (decide (i < 512)%nat) as [Hi|Hi].
  - rewrite lookup_seq_lt by done. cbn [fmap option_fmap option_map]. rewrite Nat.add_0_l.
    destruct (lookup_lt_is_Some_2 l i ltac:(lia)) as [x Hx]. rewrite Hx, (nth_lookup_Some _ _ _ _ Hx).
    rewrite u8_byte; [done|]. by eapply Forall_lookup_1 in Hx.
  - rewrite lookup_seq_ge by lia. symmetry. apply lookup_ge_None. lia.
Qed.

Lemma length_sector_of l : length (sector_of l) = 512%nat.
Proof. unfold sector_of. by rewrite length_fmap, length_seq. Qed.

Lemma bytes_sector_of l : Forall is_byte (sector_of l).
Proof. unfold sector_of. apply Forall_fmap, Forall_true. intros i. by apply wrap_range. Qed.

Lemma peek_ex_bytes d p n : Forall is_byte (peek (ex_bytes d) p n).
Proof. apply Forall_fmap, Forall_true. intros a. by apply wrap_range. Qed.

Lemma overwrite_bytes m p n l a : Forall is_byte l → n = Z.of_nat (length l) → u8 (overwrite m p n l a) = overwrite (λ a, u8 (m a)) p n l a.
Proof.
  intros Hl ->. unfold overwrite. case_decide as Ha; [|done].
  destruct (lookup_lt_is_Some_2 l (Z.to_nat (a - p)) ltac:(lia)) as [x Hx]. rewrite Hx. cbn. apply u8_byte. by eapply Forall_lookup_1 in Hx.
Qed.

(** What one round of service leaves in memory. *)
Lemma ex_serve_spec d r :
  next_request (ex_bytes d) (ex_base d) 8 (ex_seen d) = Some r → request_apart r (ex_view d) →
  served ex_view (λ d, bool_decide (ex_pending d = None)) r d (ex_serve d).
Proof.
  intros E (Ha1 & Ha2 & Ha3). unfold ex_serve. rewrite E. unfold apart in *. cbn [ex_view queue_base queue_len] in *.
  change (queue_bytes 8) with 8192 in *. change (first_part_size_pages 8 * PAGE_SIZE) with 4096 in *.
  set (m0 := if rq_type r =? 0 then _ else _).
  set (m2 := overwrite _ _ 2 _).
  assert (∀ a, u8 (m2 a) = overwrite (overwrite (λ a, u8 (m0 a)) (rq_status r) 1 [0]) (ex_base d + 4096 + 2) 2 (le_bytes 2 (ex_seen d + 1)) a) as Hm.
  { intros a. unfold m2. rewrite overwrite_bytes by (apply le_bytes_byte || done). unfold overwrite at 1 3. case_decide; [done|].
    apply overwrite_bytes; [by repeat constructor|done]. }
  assert (∀ a, u8 (m0 a) = if rq_type r =? 0 then overwrite (ex_bytes d) (rq_data r) 512 (sector_of (ex_sectors d (rq_sector r))) a else ex_bytes d a) as Hm0.
  { intros a. unfold m0. destruct (rq_type r =? 0).
    - rewrite overwrite_bytes by (apply bytes_sector_of || by rewrite length_sector_of). unfold overwrite. case_decide; [done|].
      apply wrap_wrap. done.
    - apply wrap_wrap. done. }
  constructor; cbn [ex_pending ram_of ex_disk_dma].
  - unfold ex_view, take_request. cbn [ex_sectors ex_base ex_seen disk capacity queue_len queue_base avail_seen ram_of ex_disk_dma].
    destruct (rq_type r =? 0); [done|]. f_equal. apply functional_extensionality. intros s. case_decide; [|done].
    apply sector_of_bytes; [by rewrite length_peek|apply peek_ex_bytes].
  - done.
  - change (u8 (m2 (rq_status r)) = 0). rewrite Hm, overwrite_out by lia. unfold overwrite. rewrite decide_True by lia. by rewrite Z.sub_diag.
  - intros Ht. rewrite Ht in Hm0. change (0 =? 0) with true in Hm0. cbv iota in Hm0.
    change (peek (λ a, u8 (m2 a)) (rq_data r) 512 = sector_of (ex_sectors d (rq_sector r))).
    rewrite (peek_ext (λ a, u8 (m0 a)) (λ a, u8 (m2 a))).
    2: { intros a Ha. rewrite Hm, !overwrite_out by lia. done. }
    assert (stored (ex_bytes d) (λ a, u8 (m0 a)) (rq_data r) (sector_of (ex_sectors d (rq_sector r)))) as Hs.
    { intros a. rewrite length_sector_of. apply Hm0. }
    apply peek_stored_in in Hs. by rewrite length_sector_of in Hs.
  - intros a H1 H2 H3. change (¬ ex_base d + 4096 ≤ a < ex_base d + 8192) in H3. change (u8 (m2 a) = ex_bytes d a). rewrite Hm, !overwrite_out by lia.
    rewrite Hm0. case_if; [|done]. rewrite overwrite_out; [done|]. by apply H2.
Qed.

#[export] Program Instance ex_virtio_disk : VirtioDisk ex_disk ex_port := {
  view := ex_view;
  idle d := bool_decide (ex_pending d = None);
  latency := 3
}.
Next Obligation. intros d s. split; [apply length_sector_of|apply bytes_sector_of]. Qed.
Next Obligation. intros d. done. Qed.
Next Obligation. intros d. done. Qed.
Next Obligation. intros p l d Hl a. cbn. unfold ex_bytes. cbn [ex_ram]. by apply overwrite_bytes. Qed.
Next Obligation. intros p l d. done. Qed.
Next Obligation.
  intros d Hd%bool_decide_eq_true. cbn. rewrite Hd. split; [done|]. split; [|done]. by apply bool_decide_eq_true.
Qed.
Next Obligation. intros d. done. Qed.
Next Obligation. intros v d Hv. done. Qed.
Next Obligation. intros d. done. Qed.
Next Obligation. intros d. done. Qed.
Next Obligation. intros v d Hv. cbn. change (u16 (ex_port + DEVICE_STATUS_OFF)) with (ex_port + DEVICE_STATUS_OFF).
  rewrite (proj2 (Z.eqb_neq v 0)) by lia. done. Qed.
Next Obligation.
  intros d r Hi E Hs Ha. exists 3%nat. split; [done|]. split.
  - intros j Hj. destruct j as [|[|[|j]]]; [done..|lia].
  - apply (ex_serve_spec (ExDisk (ex_ram d) (ex_sectors d) (ex_base d) (ex_seen d) (Some 0%nat))) in Ha; [|done].
    destruct Ha. by constructor.
Qed.

(** ** The driver on that device *)
Definition ex_mm : mm := MM (init_physical_memory 0x100000 0x10000) ∅ 0 0xFFFF800000000000 0 0 [].
Definition ex_dma : dma ex_disk := Dma ex_mm (ExDisk (λ a, a) (λ s, replicate 512 s) 0 0 None).
Definition ex_disk_header : PciConfigurationHeader := MkHeader 0x1AF4 0x1001 0 0 0 0 0 1 0 [0xC001; 0; 0; 0; 0; 0] 2.
Definition ex_disk_bars : list BarInfo := [MkBar 0x40 0xC000 0 true].

Lemma ex_dma_slab_ok : slab_ok (slab (pages ex_dma)).
Proof. apply (bool_decide_unpack _). vm_compute. exact I. Qed.

Lemma initialise_virtio_spec_witness : ∃ st' dv,
  initialise_virtio (port := ex_port) ex_disk_header ex_disk_bars [] (DevState 0 []) ex_dma = Ok (inr st') ∧
  block_devices st' = [dv] ∧ num_sectors (driver dv) = 64.
Proof.
  destruct (initialise_virtio_spec (port := ex_port) ex_disk_header ex_disk_bars [] (DevState 0 []) ex_dma)
    as (st' & dv & E & Hb & _ & _ & Hn & _).
  - split; [reflexivity|vm_compute; split; discriminate|reflexivity|reflexivity|]. eexists. split; [reflexivity|]. split; reflexivity.
  - exact ex_dma_slab_ok.
  - vm_compute. discriminate.
  - exists 0. split; [lia|]. intros i Hi. change (queue_pages (queue_len (view (dev ex_dma)))) with 2 in Hi. split; [lia|].
    assert (i = 0 ∨ i = 1) as [-> | ->] by lia; vm_compute; reflexivity.
  - vm_compute. reflexivity.
  - vm_compute. reflexivity.
  - vm_compute. reflexivity.
  - reflexivity.
  - reflexivity.
  - exists st', dv. split; [exact E|]. split; [exact Hb|exact Hn].
Defined.

Definition ex_started : VirtioBlockDevice * dma ex_disk :=
  match probe_virtio ex_disk_header ex_disk_bars ex_dma with
  | Ok (Some blk, w) => (blk, w)
  | _ => (MkVirtioBlockDevice 0 no_queue, ex_dma)
  end.

Lemma virtio_write_then_read_witness : ∃ w1 w2,
  virtio_block_write 4 ex_started.1 5 (replicate 512 7) ex_started.2 = Ok ((), w1) ∧
  virtio_block_read 4 ex_started.1 5 w1 = Ok (replicate 512 7, w2).
Proof.
  destruct (virtio_write_then_read (port := ex_port) 4 ex_started.1 ex_started.2 5 5 (replicate 512 7)) as (w1 & w2 & E1 & E2 & _).
  - apply (bool_decide_unpack _). vm_compute. exact I.
  - vm_compute. lia.
  - vm_compute. lia.
  - vm_compute. split; [discriminate|reflexivity].
  - vm_compute. split; [discriminate|reflexivity].
  - reflexivity.
  - apply Forall_replicate. unfold is_byte. lia.
  - exists w1, w2. split; [exact E1|exact E2].
Defined.
