(* ===== verification/UserMemory.v ===== *)
(** * Bytes at user addresses

    An access of the kernel to the user half of the current address space goes through the page
    tables of Paging.v.  [user_space] is the invariant of an address space that is being filled: its pages and its
    tables were free in the state [st0] it was started from, so that filling it changes nothing else. *)
From S2P Require Import Prelude Bytes Hardware BitFields Slab Paging AddressSpace AddressSpaceSpec HeapProviders.
#[local] Open Scope list_scope.
#[local] Arguments c_foreach : simpl never.
#[local] Arguments decode_pte : simpl never.
#[local] Arguments load_pte : simpl never.
#[local] Arguments pte_at : simpl never.
#[local] Arguments wrap : simpl never.

(** The byte at a physical address, in the word that holds it. *)
Definition phys_byte (st : mm) (p : Z) : Z := bits (8 * (p `mod` 8)) 8 (word_at st (p - p `mod` 8)).
Definition set_phys_byte (p b : Z) (st : mm) : mm :=
  with_ram st (<[p - p `mod` 8 := put_bits (8 * (p `mod` 8)) 8 b (word_at st (p - p `mod` 8))]> (ram st)).

(** Loads and stores of a byte; a page fault is undefined. *)
Definition user_byte (st : mm) (v : Z) : option Z := phys_byte st <$> translate st v.
Definition store_byte (v b : Z) (st : mm) : outcome mm := p ← or_undef (translate st v); Ok (set_phys_byte p b st).

(** Stores of consecutive bytes. *)
Fixpoint store_bytes (v : Z) (l : list Z) (st : mm) : outcome mm :=
  match l with
  | [] => Ok st
  | b :: l => st ← store_byte v b st; store_bytes (v + 1) l st
  end.

Definition user_addr (v : Z) : Prop := 0 ≤ v < 2 ^ 47.
Definition page_of (v : Z) : Z := v - v `mod` PAGE_SIZE.

Lemma page_of_user v : user_addr v → user_page (page_of v).
Proof. unfold user_addr, user_page, page_of. intros Hv. split; dlia. Qed.

Lemma page_of_same v : same_vpage v (page_of v).
Proof. apply same_vpage_vpn. unfold vpn_eq, page_of. f_equal. dlia. Qed.

Lemma leaf_at_vpage st T v w : same_vpage v w → leaf_at st T v = leaf_at st T w.
Proof. intros [Ep Ei]. unfold leaf_at. by rewrite Ep, Ei. Qed.

Lemma translate_leaf st T v : tree st (cr3 st) T →
  translate st v = e ← leaf_at st T (page_of v); Some (frame_of e + v `mod` PAGE_SIZE).
Proof.
  intros Ht. unfold translate. rewrite (mmu_entry_leaf _ _ T) by done. rewrite (leaf_at_vpage st T v (page_of v)) by apply page_of_same.
  assert (page_offset (bitmap_of v) = v `mod` PAGE_SIZE) as ->; [|done].
  unfold bitmap_of, bits. cbn [page_offset]. by rewrite Z.div_1_r.
Qed.

(** The word of a page that a byte is in. *)
Lemma phys_byte_page st f o : f `mod` PAGE_SIZE = 0 → 0 ≤ o < PAGE_SIZE →
  phys_byte st (f + o) = bits (8 * (o `mod` 8)) 8 (word_at st (f + 8 * (o `div` 8))) ∧ 0 ≤ o `div` 8 < 512.
Proof.
  intros Hf Ho. assert ((f + o) `mod` 8 = o `mod` 8) as E by dlia. split; [|dlia].
  unfold phys_byte. rewrite E. do 2 f_equal. dlia.
Qed.

Lemma set_phys_byte_word p b st a : word_at (set_phys_byte p b st) a =
  if decide (a = p - p `mod` 8) then put_bits (8 * (p `mod` 8)) 8 b (word_at st (p - p `mod` 8)) else word_at st a.
Proof. apply word_at_insert. Qed.

Lemma phys_byte_set st p b q : 0 ≤ b < 256 → phys_byte (set_phys_byte p b st) q = if decide (q = p) then b else phys_byte st q.
Proof.
  intros Hb. unfold phys_byte. rewrite set_phys_byte_word. pose proof (Z.mod_pos_bound p 8 ltac:(lia)). pose proof (Z.mod_pos_bound q 8 ltac:(lia)).
  case_decide as Hw.
  - case_decide as Hq; [subst q; rewrite bits_put_same by lia; by apply Z.mod_small|].
    rewrite bits_put_other, Hw by lia. done.
  - by rewrite decide_False by (intros ->; done).
Qed.

Lemma same_page_set f p b st a : frame_ok f → f ≤ p < f + PAGE_SIZE → frame_ok a → a ≠ f → same_page st (set_phys_byte p b st) a.
Proof.
  intros Hf Hp Ha Hne i Hi. rewrite set_phys_byte_word, decide_False; [done|]. intros E.
  apply (frames_outside a f i Ha Hf Hne Hi). rewrite E. destruct Hf. dlia.
Qed.

Lemma frame_offset f o f' o' : f `mod` PAGE_SIZE = 0 → f' `mod` PAGE_SIZE = 0 → 0 ≤ o < PAGE_SIZE → 0 ≤ o' < PAGE_SIZE →
  f + o = f' + o' → f = f' ∧ o = o'.
Proof. intros. dlia. Qed.

Record user_space (st0 : mm) (T : gmap (list Z) Z) (st : mm) : Prop := {
  us_aspace : aspace st (cr3 st) T;
  us_hhdm : hhdm_offset st = hhdm_offset st0;
  us_slab0 : slab_ok (slab st0);
  us_keep : in_use_kept st0 st;
  us_free a : is_free (slab st) a → is_free (slab st0) a;
  us_tables p t : p = [] ∨ user_path p → T !! p = Some t → is_free (slab st0) t;
  us_pages v e : user_page v → leaf_at st T v = Some e →
    is_free (slab st0) (frame_of e) ∧ ¬ is_free (slab st) (frame_of e) ∧ ∀ p, T !! p ≠ Some (frame_of e);
  us_distinct v w e e' : user_page v → user_page w → leaf_at st T v = Some e → leaf_at st T w = Some e' →
    frame_of e = frame_of e' → v = w
}.

Lemma is_free_frame s a : slab_ok s → is_free s a → frame_ok a.
Proof. intros Hs (i & Hi & ->). by eapply page_addr_frame. Qed.

Section user.
Context (st0 : mm).

Lemma user_frame T st v e : user_space st0 T st → user_page v → leaf_at st T v = Some e → frame_ok (frame_of e).
Proof. intros H Hv He. eapply is_free_frame; [apply (us_slab0 _ _ _ H)|]. by eapply us_pages. Qed.

Lemma user_byte_leaf T st v : user_space st0 T st → user_byte st v =
  (λ e, phys_byte st (frame_of e + v `mod` PAGE_SIZE)) <$> leaf_at st T (page_of v).
Proof.
  intros H. unfold user_byte. rewrite (translate_leaf _ T) by apply H. by destruct (leaf_at st T (page_of v)).
Qed.

(** A store changes that byte, and no other byte of the user half. *)
Lemma store_byte_wp T st v b : user_space st0 T st → user_addr v → is_Some (user_byte st v) → 0 ≤ b < 256 →
  wp False (store_byte v b st) (λ st', user_space st0 T st' ∧ cr3 st' = cr3 st ∧ slab st' = slab st ∧
    (∀ w, leaf_at st' T w = leaf_at st T w) ∧
    ∀ w, user_addr w → user_byte st' w = if decide (w = v) then Some b else user_byte st w).
Proof.
  intros H Hv Hm Hb. pose proof (aspace_tree _ _ _ (us_aspace _ _ _ H)) as Ht. pose proof (page_of_user v Hv) as Hpv.
  rewrite (user_byte_leaf T) in Hm by done. destruct (leaf_at st T (page_of v)) as [e|] eqn:He; [|by destruct Hm].
  unfold store_byte. rewrite (translate_leaf _ T), He by done. cbn [mbind option_bind or_undef outcome_bind wp].
  set (f := frame_of e). set (p := f + v `mod` PAGE_SIZE).
  pose proof (user_frame _ _ _ _ H Hpv He) as Hf. fold f in Hf.
  destruct (us_pages _ _ _ H _ _ Hpv He) as (Hf0 & Hf1 & Hft). fold f in Hf0, Hf1, Hft.
  assert (f ≤ p < f + PAGE_SIZE) as Hp by (unfold p; pose proof (Z.mod_pos_bound v PAGE_SIZE ltac:(done)); lia).
  assert (∀ a, frame_ok a → a ≠ f → same_page st (set_phys_byte p b st) a) as Hsame by (intros a Ha Hne; by apply (same_page_set f)).
  assert (∀ w, leaf_at (set_phys_byte p b st) T w = leaf_at st T w) as Hleaf.
  { intros w. apply leaf_at_same. intros t Hp'. apply Hsame; [by eapply (tree_frame _ _ _ Ht)|]. intros ->. by eapply Hft. }
  assert (user_space st0 T (set_phys_byte p b st)) as H'.
  { destruct H as [[Hsl _ Hheld] ? ? Hkeep ? ? Hpg Hdis]. constructor; try done.
    - constructor; [done| |done]. eapply tree_same_tables; [exact Ht|]. intros q t Hq. apply Hsame; [by eapply tree_frame|].
      intros ->. by eapply Hft.
    - intros a Ha Hna i Hi. rewrite Hsame; [by apply Hkeep|done| |done]. intros ->. done.
    - intros w e' Hw. rewrite Hleaf. by apply Hpg.
    - intros w w' e1 e2 Hw Hw'. rewrite !Hleaf. by apply Hdis. }
  split; [done|]. split; [done|]. split; [done|]. split; [done|]. intros w Hw.
  rewrite !(user_byte_leaf T) by done. rewrite Hleaf.
  destruct (leaf_at st T (page_of w)) as [e'|] eqn:He'; cbn [fmap option_fmap option_map].
  2: { rewrite decide_False; [done|]. intros ->. congruence. }
  rewrite phys_byte_set by done. destruct (decide (w = v)) as [->|Hne].
  - assert (e' = e) as -> by congruence. by rewrite decide_True.
  - rewrite decide_False; [done|]. unfold p. intros E. apply Hne.
    pose proof (user_frame _ _ _ _ H (page_of_user w Hw) He') as Hf'.
    apply frame_offset in E as [Ef Eo]; [|apply Hf'|apply Hf|by apply Z.mod_pos_bound..].
    pose proof (us_distinct _ _ _ H _ _ _ _ (page_of_user w Hw) Hpv He' He Ef).
    unfold page_of in *. lia.
Qed.

(** What filling memory leaves alone: the mappings, the pages in use. *)
Definition same_maps (T : gmap (list Z) Z) (st st' : mm) : Prop :=
  cr3 st' = cr3 st ∧ slab st' = slab st ∧ ∀ w, leaf_at st' T w = leaf_at st T w.

Lemma same_maps_refl T st : same_maps T st st.
Proof. done. Qed.

Lemma same_maps_trans T st1 st2 st3 : same_maps T st1 st2 → same_maps T st2 st3 → same_maps T st1 st3.
Proof. intros (E1 & E2 & E3) (F1 & F2 & F3). split; [congruence|]. split; [congruence|]. intros w. by rewrite F3, E3. Qed.

(** The bytes of the user half with [l] stored at [v]. *)
Definition user_stored (st st' : mm) (v : Z) (l : list Z) : Prop := ∀ w, user_addr w →
  user_byte st' w = if decide (v ≤ w < v + Z.of_nat (length l)) then l !! Z.to_nat (w - v) else user_byte st w.

Lemma user_stored_cons st st1 st2 v b l : (∀ w, user_addr w → user_byte st1 w = if decide (w = v) then Some b else user_byte st w) →
  user_stored st1 st2 (v + 1) l → user_stored st st2 v (b :: l).
Proof.
  intros H1 H2 w Hw. rewrite H2, H1 by done. cbn [length]. destruct (decide (w = v)) as [->|Hne].
  - rewrite decide_False, decide_True by lia. by rewrite Z.sub_diag.
  - case_decide; case_decide; try lia; [|done]. replace (Z.to_nat (w - v)) with (S (Z.to_nat (w - (v + 1)))) by lia. done.
Qed.

Lemma store_bytes_wp T l : ∀ st v, user_space st0 T st → Forall is_byte l → 0 ≤ v → v + Z.of_nat (length l) ≤ 2 ^ 47 →
  (∀ w, v ≤ w < v + Z.of_nat (length l) → is_Some (user_byte st w)) →
  wp False (store_bytes v l st) (λ st', user_space st0 T st' ∧ same_maps T st st' ∧ user_stored st st' v l).
Proof.
  induction l as [|b l IH]; intros st v H Hl Hv0 Hv Hm; cbn [store_bytes length] in *.
  { split; [done|]. split; [apply same_maps_refl|]. intros w Hw. cbn [length]. by rewrite decide_False by lia. }
  inversion Hl as [|? ? Hb Hl']; subst. apply wp_bind.
  eapply wp_mono; [apply (store_byte_wp T st v b H); [unfold user_addr; lia|apply Hm; lia|done]|].
  intros st1 (H1 & E1 & E2 & E3 & Hb1). eapply wp_mono; [apply (IH st1 (v + 1) H1 Hl'); [lia|lia|]|].
  - intros w Hw. rewrite Hb1 by (unfold user_addr; lia). case_decide; [done|]. apply Hm. lia.
  - intros st2 (H2 & Hs2 & Hst2). split; [done|]. split; [by eapply same_maps_trans|].
    by eapply user_stored_cons.
Qed.

(** A fresh page at an address that is not mapped. *)
Lemma allocate_page_wp T st v x : user_space st0 T st → user_page v → leaf_at st T v = None →
  wp (free_pages (slab st) < 4)%nat (allocate_ram_page v x st) (λ st', ∃ T', user_space st0 T' st' ∧ cr3 st' = cr3 st ∧
    (∃ e, leaf_at st' T' v = Some e ∧ ram_page x e) ∧
    (∀ w, user_page w → w ≠ v → leaf_at st' T' w = leaf_at st T w) ∧
    (∀ w, user_addr w → page_of w ≠ v → user_byte st' w = user_byte st w) ∧
    (∀ w, user_addr w → page_of w = v → is_Some (user_byte st' w)) ∧
    (free_pages (slab st) ≤ 4 + free_pages (slab st'))%nat).
Proof.
  intros H Hv Hnone. pose proof H as [Has Hhh Hs0 Hkeep Hfree Htab Hpg Hdis]. pose proof (aspace_slab _ _ _ Has) as Hs.
  unfold allocate_ram_page. apply wp_bind. eapply wp_mono_halt; [apply malloc4k_phys_wp, Hs|lia|].
  intros [f s'] (n & -> & Hn & -> & _ & Hcnt1). set (st1 := with_slab st _). set (f := page_addr (slab st) n).
  assert (is_free (slab st) f) as Hff by (by apply page_is_free).
  assert (frame_ok f) as Hfok by (by eapply page_addr_frame).
  assert (∀ a, is_free (slab st1) a ↔ is_free (slab st) a ∧ a ≠ f) as Hf1 by (intros a; apply is_free_mark).
  pose proof (aspace_alloc _ _ _ _ Has Hn) as Has1. fold st1 in Has1. change (cr3 st) with (cr3 st1) in Has1.
  eapply wp_mono_halt; [apply (map_page_wp st1 T v f true x Has1)|simpl; lia|]; [by apply user_page_virt|done|done|].
  intros st2 (T2 & Has2 & [Hsub Hgrow] & Hk2 & _ & (e & He & Hlike) & Hother & Hcnt2).
  assert (frame_of e = f) as Ef by apply Hlike.
  assert (∀ p t, T2 !! p = Some t → T !! p = Some t ∨ (is_free (slab st) t ∧ t ≠ f)) as Htab2.
  { intros p t [?|Hf%Hf1]%Hgrow; [by left|by right]. }
  assert (∀ a, on_path T v a → is_free (slab st0) a) as Hpath.
  { intros a (p & Hsuf & Hp). eapply Htab; [|done]. by apply (user_vpath v). }
  assert (cr3 st2 = cr3 st) as Ecr by apply Hk2.
  assert (∀ a, is_free (slab st2) a → is_free (slab st) a ∧ a ≠ f) as Hf2 by (intros a Ha; by apply Hf1, (kept_free _ _ _ Hk2)).
  assert (∀ w, user_page w → w ≠ v → leaf_at st2 T2 w = leaf_at st T w) as Hoth.
  { intros w Hw Hne. change (leaf_at st T w) with (leaf_at st1 T w). apply Hother. by apply user_pages_differ. }
  assert (∀ a, frame_ok a → ¬ is_free (slab st) a → ¬ on_path T v a → same_page st st2 a) as Hsame.
  { intros a Hfa Hnf Hnp. apply (kept_words _ _ _ Hk2); [done|done|]. by intros [? _]%Hf1. }
  assert (∀ w e', user_page w → leaf_at st T w = Some e' → frame_of e' ≠ f ∧ same_page st st2 (frame_of e')) as Hold.
  { intros w e' Hw He'. destruct (Hpg w e' Hw He') as (H0 & H1 & H2). split; [by intros E; apply H1; rewrite E|].
    apply Hsame; [by apply (is_free_frame (slab st0))|done|]. intros (p & _ & Hp). by eapply H2. }
  assert (user_space st0 T2 st2) as H2.
  { constructor; [by rewrite Ecr|by rewrite (kept_hhdm _ _ _ Hk2)|done|..].
    - intros a Ha Hna i Hi. rewrite Hsame; [by apply Hkeep|done|by intros ?%Hfree|by intros ?%Hpath|done].
    - intros a [Ha _]%Hf2. by apply Hfree.
    - intros p t Hp [Ht|[Ht _]]%Htab2; [by eapply Htab|by apply Hfree].
    - intros w e' Hw He'. destruct (decide (w = v)) as [->|Hne].
      + assert (e' = e) as -> by congruence. rewrite Ef. split; [by apply Hfree|]. split; [by intros [_ ?]%Hf2|].
        intros p [Ht|[_ ?]]%Htab2; [|done]. by eapply (aspace_held _ _ _ Has).
      + rewrite Hoth in He' by done. destruct (Hpg w e' Hw He') as (Ha & Hb & Hc). split; [done|]. split; [by intros [? _]%Hf2|].
        intros p [Ht|[Ht _]]%Htab2; [by eapply Hc|done].
    - intros w w' e1 e2 Hw Hw' H1 H2 E. destruct (decide (w = v)) as [->|Hne], (decide (w' = v)) as [->|Hne']; [done|..].
      + rewrite Hoth in H2 by done. destruct (Hold _ _ Hw' H2) as [? _]. congruence.
      + rewrite Hoth in H1 by done. destruct (Hold _ _ Hw H1) as [? _]. congruence.
      + rewrite Hoth in H1, H2 by done. by eapply Hdis. }
  exists T2. split; [done|]. split; [done|]. split; [exists e; unfold ram_page; by rewrite Ef|]. split; [done|]. split; [|split].
  - intros w Hw Hne. rewrite (user_byte_leaf T2), (user_byte_leaf T), Hoth by (done || by apply page_of_user).
    destruct (leaf_at st T (page_of w)) as [e'|] eqn:He'; [|done]. cbn [fmap option_fmap option_map]. f_equal.
    destruct (Hold _ _ (page_of_user w Hw) He') as [_ Hsp]. pose proof (user_frame _ _ _ _ H (page_of_user w Hw) He') as [Hm _].
    destruct (phys_byte_page st2 (frame_of e') (w `mod` PAGE_SIZE) Hm ltac:(by apply Z.mod_pos_bound)) as [-> Hi].
    destruct (phys_byte_page st (frame_of e') (w `mod` PAGE_SIZE) Hm ltac:(by apply Z.mod_pos_bound)) as [-> _]. by rewrite Hsp.
  - intros w Hw E. rewrite (user_byte_leaf T2), E, He by done. by eexists.
  - change (slab st1) with (mark true n 1 (slab st)) in Hcnt2. lia.
Qed.

(** A new address space: nothing of the user half is mapped. *)
Lemma clean_space_wp kroot K : kernel_table st0 kroot K →
  wp (free_pages (slab st0) = 0%nat) (generate_clean_virtual_addressing st0) (λ '(new, st'),
    let st := set_pml4_phys new st' in
    (∃ T, user_space st0 T st ∧ ∀ v, user_addr v → leaf_at st T v = None) ∧
    S (free_pages (slab st)) = free_pages (slab st0)).
Proof.
  intros Hk. pose proof (aspace_slab _ _ _ (kernel_aspace _ _ _ Hk)) as Hs0.
  eapply wp_mono; [by eapply generate_clean_wp|]. intros [new st'] (Has & Hfree & Hnf & Hkeep & Hhh & Hf & Hleaf & Hcnt).
  assert (∀ v, user_page v → leaf_at (set_pml4_phys new st') (<[[] := new]> K) v = None) as Hnone.
  { intros v Hv. change (leaf_at (set_pml4_phys new st') ?R v) with (leaf_at st' R v). rewrite Hleaf. unfold leaf_at.
    destruct (K !! vpath v) eqn:E; [|done]. exfalso. eapply kernel_no_user; [exact Hk|exact E|by apply vpath_user]. }
  split; [|done]. exists (<[[] := new]> K). split.
  - constructor; try done.
    + destruct Has as [? [] ?]. by constructor.
    + intros p t Hp. rewrite lookup_insert_Some. intros [[_ <-]|[Hne Hpt]]; [done|].
      destruct Hp as [->|Hp]; [done|]. exfalso. by eapply kernel_no_user.
    + intros v e Hv. by rewrite Hnone.
    + intros v w e e' Hv _. by rewrite Hnone.
  - intros v Hv. rewrite (leaf_at_vpage _ _ v (page_of v)) by apply page_of_same. by apply Hnone, page_of_user.
Qed.
End user.
