(* ===== verification/Elf.v ===== *)
(** * Starting a program: stuos/src/elf.c

    [instantiate_ELF] builds the address space of a new process: it loads the segments of the executable, gives it a
    stack and copies its arguments.  The list of regions is a list (the nodes are on the kernel's heap and nothing else points
    to them); the executable is a file operation, its result the bytes stored in the buffer and the count returned. *)
From S2P Require Import Prelude Bytes Hardware BitFields Slab Paging UserMemory.
#[local] Open Scope string_scope.
#[local] Open Scope list_scope.
#[local] Open Scope Z_scope.

Definition ElfFile : layout :=
  [("file_header", 4); ("bit_size_flag", 1); ("endianness", 1); ("header_version", 1); ("os_abi", 1); ("padding", 8); ("type", 2);
   ("instruction_set", 2); ("elf_version", 4); ("entry_offset", 8); ("program_header_table_offset", 8);
   ("section_header_table_offset", 8); ("flags", 4); ("header_size", 2); ("program_header_table_entry_size", 2);
   ("program_header_table_num_entries", 2); ("section_header_table_entry_size", 2); ("section_header_table_num_entries", 2);
   ("section_index_header_string_table", 2)].

Definition ElfProgramHeader : layout :=
  [("segment_type", 4); ("flags", 4); ("p_offset", 8); ("p_vaddr", 8); ("ignored", 8); ("p_filesz", 8); ("p_memsz", 8);
   ("required_alignment", 8)].

(** [s.f] for a struct at the start of the bytes [b]. *)
Definition struct_field (l : layout) (b : list Z) (f : string) : Z :=
  field b (Z.to_nat (offsetof l f)) (Z.to_nat (width_of l f)).
Abbreviation elf_field := (struct_field ElfFile).
Abbreviation phdr_field := (struct_field ElfProgramHeader).

Record VirtualMemoryRegion := Region { region_free : bool; start_addr : Z; end_addr : Z }.

(** [p & ~PAGE_MASK] *)
Definition page_down (p : Z) : Z := Z.land p (u64 (Z.lnot PAGE_MASK)).

(** The loop that finds the region around the range, and the two regions put after it. *)
Fixpoint split_region (tracker : list VirtualMemoryRegion) (page_start page_end : Z) : outcome (list VirtualMemoryRegion) :=
  match tracker with
  | [] => Undef
  | curr :: rest =>
      if (start_addr curr <=? page_start) && (page_end <=? end_addr curr) then
        if negb (region_free curr) then Halt
        else Ok (Region true (start_addr curr) page_start :: Region false page_start page_end ::
                 Region true page_end (end_addr curr) :: rest)
      else match rest with
        | [] => Halt
        | next :: _ =>
            if region_free curr && region_free next then Halt
            else rest ← split_region rest page_start page_end; Ok (curr :: rest)
        end
  end.

Definition allocate_virtual_range (tracker : list VirtualMemoryRegion) (page_start page_end : Z) (can_execute : bool) (st : mm)
    : outcome (list VirtualMemoryRegion * mm) :=
  _ ← hcf_if (negb (Z.land page_start PAGE_MASK =? 0) || negb (Z.land page_end PAGE_MASK =? 0));
  tracker ← split_region tracker page_start page_end;
  st ← c_while (S (Z.to_nat ((page_end - page_start + PAGE_SIZE - 1) `div` PAGE_SIZE))) (λ '(page_ptr, st),
    if page_ptr <? page_end then
      st ← allocate_ram_page page_ptr can_execute st; Ok (inl (u64 (page_ptr + PAGE_SIZE), st))
    else Ok (inr st)) (page_start, st);
  Ok (tracker, st).

(** Returns the start of the range, 0 for NULL, and the list with the regions it merged (the code
    reads the [next] of the region it merged after it has freed it). *)
Fixpoint find_range (curr : VirtualMemoryRegion) (rest : list VirtualMemoryRegion) (size_bytes : Z)
    : outcome (Z * list VirtualMemoryRegion) :=
  _ ← c_assert (start_addr curr <=? end_addr curr);
  if region_free curr && (size_bytes <=? end_addr curr - start_addr curr) then Ok (start_addr curr, curr :: rest)
  else match rest with
    | [] => Ok (0, [curr])
    | next :: rest =>
        if (end_addr curr =? start_addr next) && region_free curr && region_free next then
          find_range (Region (region_free curr) (start_addr curr) (end_addr next)) rest size_bytes
        else '(p, rest) ← find_range next rest size_bytes; Ok (p, curr :: rest)
    end.

Definition find_contiguous_virtual_range (tracker : list VirtualMemoryRegion) (size_bytes : Z) : outcome (Z * list VirtualMemoryRegion) :=
  match tracker with [] => Undef | curr :: rest => find_range curr rest size_bytes end.

(** The strings of [argv], a null-terminated array of the kernel, without their terminators. *)
Definition args_bytes (argv : list (list Z)) : Z :=
  let n := foldl (λ n s, u64 (u64 (n + 8) + (Z.of_nat (length s) + 1))) 0 argv in
  page_down (u64 (u64 (n + 8) + PAGE_SIZE - 1)).

(** The loop over the arguments: where the next element of the array and the next string go. *)
Fixpoint store_args (array curr_offset : Z) (argv : list (list Z)) (st : mm) : outcome (Z * mm) :=
  match argv with
  | [] => Ok (array, st)
  | s :: argv =>
      st ← store_bytes array (le_bytes 8 curr_offset) st;
      st ← store_bytes curr_offset (s ++ [0]) st;
      store_args (u64 (array + 8)) (u64 (curr_offset + Z.of_nat (length s) + 2)) argv st
  end.

(** Returns argc and the array, with the list of regions. *)
Definition setup_args_for_new_process (tracker : list VirtualMemoryRegion) (argv : list (list Z)) (st : mm)
    : outcome (Z * Z * list VirtualMemoryRegion * mm) :=
  let argc := Z.of_nat (length argv) in
  let num_bytes := args_bytes argv in
  '(args_data_start, tracker) ← find_contiguous_virtual_range tracker num_bytes;
  let args_data_end := u64 (args_data_start + num_bytes) in
  '(tracker, st) ← allocate_virtual_range tracker args_data_start args_data_end false st;
  '(array, st) ← store_args args_data_start (u64 (args_data_start + (argc + 1) * 8)) argv st;
  st ← store_bytes array (le_bytes 8 0) st;
  Ok (argc, args_data_start, tracker, st).

Definition check_elf_header (header : list Z) : outcome () :=
  _ ← hcf_if (negb (bool_decide (take 4 header = [0x7F; 69; 76; 70])));
  _ ← hcf_if (negb (elf_field header "bit_size_flag" =? 2));
  _ ← hcf_if (negb (elf_field header "endianness" =? 1));
  _ ← hcf_if (negb (elf_field header "header_version" =? 1));
  _ ← hcf_if (negb (elf_field header "os_abi" =? 0));
  _ ← hcf_if (negb (elf_field header "type" =? 2));
  _ ← hcf_if (negb (elf_field header "instruction_set" =? 0x3E));
  _ ← hcf_if (negb (elf_field header "elf_version" =? 1));
  _ ← hcf_if (negb (elf_field header "header_size" =? layout_size ElfFile));
  hcf_if (negb (elf_field header "program_header_table_entry_size" =? layout_size ElfProgramHeader)).

Record ProcessorState := MkProcessorState {
  r15 : Z; r14 : Z; r13 : Z; r12 : Z; r11 : Z; r10 : Z; r9 : Z; r8 : Z;
  rsi : Z; rdi : Z; rbp : Z; rdx : Z; rcx : Z; rbx : Z; rax : Z;
  rip : Z; cs : Z; rflags : Z; rsp : Z; ss : Z }.
Record LoadedProgram := MkLoadedProgram { heap_start : Z; page_table_root : Z; initial_state : ProcessorState }.

Definition STACK_SIZE : Z := 16 * PAGE_SIZE.

Section elf.
Context (read_file : Z → Z → outcome (list Z * Z)).

(** A segment with its pages: the bytes of the file, then zeros. *)
Definition load_segment (curr_header : list Z) (s : list VirtualMemoryRegion * mm) : outcome (list VirtualMemoryRegion * mm) :=
  let '(tracker, st) := s in
  let p_vaddr := phdr_field curr_header "p_vaddr" in
  let p_filesz := phdr_field curr_header "p_filesz" in
  let p_memsz := phdr_field curr_header "p_memsz" in
  let page_alloc_start := page_down p_vaddr in
  let page_alloc_end := page_down (u64 (p_vaddr + p_memsz + PAGE_SIZE - 1)) in
  '(tracker, st) ← allocate_virtual_range tracker page_alloc_start page_alloc_end
     (negb (Z.land (phdr_field curr_header "flags") 1 =? 0)) st;
  '(bytes, read) ← read_file (phdr_field curr_header "p_offset") p_filesz;
  st ← store_bytes p_vaddr bytes st;
  _ ← hcf_if (negb (read =? p_filesz));
  st ← store_bytes (u64 (p_vaddr + p_filesz)) (replicate (Z.to_nat (u64 (p_memsz - p_filesz))) 0) st;
  Ok (tracker, st).

(** One entry of the table of program headers. *)
Definition load_header (header curr_header : list Z) (s : list VirtualMemoryRegion * mm) : outcome (list VirtualMemoryRegion * mm) :=
  let type := phdr_field curr_header "segment_type" in
  if type =? 6 then
    _ ← c_assert (phdr_field curr_header "flags" =? 4);
    _ ← c_assert (phdr_field curr_header "p_offset" =? elf_field header "program_header_table_offset");
    _ ← c_assert (phdr_field curr_header "p_filesz" =?
          layout_size ElfProgramHeader * elf_field header "program_header_table_num_entries");
    _ ← c_assert (phdr_field curr_header "p_memsz" =? phdr_field curr_header "p_filesz");
    load_segment curr_header s
  else if type =? 1 then load_segment curr_header s
  else if type =? 3 then
    _ ← read_file (phdr_field curr_header "p_offset") (phdr_field curr_header "p_filesz"); Halt
  else if (type =? 1685382482) || (type =? 1685382481) then Ok s
  else Halt.

(** [prog_headers[i]] *)
Definition nth_header (prog_headers : list Z) (i : Z) : list Z :=
  take (Z.to_nat (layout_size ElfProgramHeader)) (drop (Z.to_nat (layout_size ElfProgramHeader * i)) prog_headers).

Definition initial_tracker : list VirtualMemoryRegion := [Region true PAGE_SIZE 0x00007FFFFFFFFFFF].

Definition instantiate_ELF (argv envp : list (list Z)) (st : mm) : outcome (LoadedProgram * mm) :=
  '(header, n) ← read_file 0 (layout_size ElfFile);
  _ ← hcf_if (negb (n =? layout_size ElfFile));
  _ ← check_elf_header header;
  let prev_cr3 := get_pml4_phys st in
  '(new_cr3, st) ← generate_clean_virtual_addressing st;
  let st := set_pml4_phys new_cr3 st in
  let num := elf_field header "program_header_table_num_entries" in
  let headers_num_bytes := num * elf_field header "program_header_table_entry_size" in
  '(prog_headers, n) ← read_file (elf_field header "program_header_table_offset") headers_num_bytes;
  _ ← hcf_if (negb (n =? headers_num_bytes));
  '(tracker, st) ← c_foreach 0 num (λ i, load_header header (nth_header prog_headers i)) (initial_tracker, st);
  '(stack_virt_base, tracker) ← find_contiguous_virtual_range tracker STACK_SIZE;
  let stack_start := u64 (stack_virt_base + STACK_SIZE) in
  '(tracker, st) ← allocate_virtual_range tracker stack_virt_base stack_start false st;
  '(argc, argv_in_userspace, tracker, st) ← setup_args_for_new_process tracker argv st;
  '(_, envp_in_userspace, tracker, st) ← setup_args_for_new_process tracker envp st;
  '(heap_virt_base, _) ← find_contiguous_virtual_range tracker (ram_size_bytes (slab st));
  Ok (MkLoadedProgram heap_virt_base new_cr3
        (MkProcessorState 0 0 0 0 0 0 0 0 argv_in_userspace argc stack_start envp_in_userspace 0 0 0
           (elf_field header "entry_offset") 0x1B 0x202 stack_start 0x23),
      set_pml4_phys prev_cr3 st).
End elf.
