(* ===== verification/ElfSpec.v ===== *)
(** * What the program loader does *)
From S2P Require Import Prelude Bytes Hardware BitFields Slab Paging AddressSpace AddressSpaceSpec HeapProviders UserMemory Elf.
#[local] Open Scope list_scope.
#[local] Arguments c_foreach : simpl never.
#[local] Arguments wrap : simpl never.

(** ** Page arithmetic *)
Definition page_up (n : Z) : Z := (n + PAGE_SIZE - 1) `div` PAGE_SIZE * PAGE_SIZE.
Definition aligned (p : Z) : Prop := p `mod` PAGE_SIZE = 0.

Lemma page_down_spec p : 0 ≤ p < 2 ^ 64 → page_down p = p - p `mod` PAGE_SIZE.
Proof.
  intros Hp. unfold page_down. assert (u64 (Z.lnot PAGE_MASK) = Z.shiftl (Z.ones 52) 12) as -> by reflexivity.
  replace (p - p `mod` PAGE_SIZE) with (Z.ldiff p (Z.ones 12)).
  - apply Z.bits_inj'. intros i Hi. rewrite Z.land_spec, Z.ldiff_spec, Z.shiftl_spec by done.
    destruct (Z.ltb_spec i 64); [|by rewrite (testbit_above p 64)].
    f_equal. rewrite (Z.testbit_ones 12) by lia. destruct (Z.ltb_spec i 12).
    + rewrite Z.testbit_neg_r by lia. by replace (0 <=? i) with true by lia.
    + rewrite Z.testbit_ones by lia. replace (0 <=? i - 12) with true by lia. replace (i - 12 <? 52) with true by lia.
      by rewrite andb_false_r.
  - rewrite Z.ldiff_ones_r by done. rewrite Z.shiftr_div_pow2, Z.shiftl_mul_pow2 by done. change (2 ^ 12) with PAGE_SIZE. dlia.
Qed.

Lemma page_up_spec n : n ≤ page_up n < n + PAGE_SIZE ∧ aligned (page_up n).
Proof. unfold page_up, aligned. split; [dlia|]. apply Z_mod_mult. Qed.

Lemma page_down_up n : 0 ≤ n → n + PAGE_SIZE ≤ 2 ^ 64 → page_down (u64 (n + PAGE_SIZE - 1)) = page_up n.
Proof.
  intros Hn Hm. rewrite wrap_small by (unfold PAGE_SIZE in *; lia). rewrite page_down_spec by (unfold PAGE_SIZE in *; lia).
  unfold page_up. dlia.
Qed.

(** ** The list of regions as a list of allocated ranges *)
Definition USER_TOP : Z := 0x00007FFFFFFFFFFF.

Fixpoint regions_of (lo : Z) (rs : list (Z * Z)) : list VirtualMemoryRegion :=
  match rs with
  | [] => [Region true lo USER_TOP]
  | (s, e) :: rs => Region true lo s :: Region false s e :: regions_of e rs
  end.

Fixpoint ranges_ok (lo : Z) (rs : list (Z * Z)) : Prop :=
  match rs with
  | [] => lo ≤ USER_TOP
  | (s, e) :: rs => lo ≤ s < e ∧ aligned s ∧ aligned e ∧ ranges_ok e rs
  end.

Definition in_ranges (rs : list (Z * Z)) (a : Z) : Prop := ∃ s e, (s, e) ∈ rs ∧ s ≤ a < e.

Fixpoint insert_range (s e : Z) (rs : list (Z * Z)) : list (Z * Z) :=
  match rs with
  | [] => [(s, e)]
  | (s', e') :: rs' => if e <=? s' then (s, e) :: rs else (s', e') :: insert_range s e rs'
  end.

Lemma in_ranges_nil a : ¬ in_ranges [] a.
Proof. intros (s & e & H & _). by apply not_elem_of_nil in H. Qed.

Lemma in_ranges_cons s e rs a : in_ranges ((s, e) :: rs) a ↔ s ≤ a < e ∨ in_ranges rs a.
Proof.
  split.
  - intros (s' & e' & [[= -> ->]|H]%elem_of_cons & Ha); [by left|right; by exists s', e'].
  - intros [Ha|(s' & e' & H & Ha)]; [exists s, e; split; [by left|done]|exists s', e'; split; [by right|done]].
Qed.

Lemma in_insert_range s e rs a : in_ranges (insert_range s e rs) a ↔ s ≤ a < e ∨ in_ranges rs a.
Proof.
  induction rs as [|[s' e'] rs IH]; cbn [insert_range]; [by rewrite in_ranges_cons|].
  destruct (e <=? s'); [by rewrite in_ranges_cons|]. rewrite !in_ranges_cons, IH. tauto.
Qed.

Lemma regions_of_head lo rs : ∃ e l, regions_of lo rs = Region true lo e :: l.
Proof. destruct rs as [|[s e] rs]; cbn [regions_of]; by eexists _, _. Qed.

Lemma ranges_ok_lo lo rs : ranges_ok lo rs → lo ≤ USER_TOP.
Proof. revert lo. induction rs as [|[s e] rs IH]; intros lo; cbn [ranges_ok]; [done|]. intros (H & _ & _ & He). apply IH in He. lia. Qed.

Lemma ranges_ok_above lo rs a : ranges_ok lo rs → in_ranges rs a → lo ≤ a < USER_TOP.
Proof.
  revert lo. induction rs as [|[s e] rs IH]; intros lo; [by intros _ ?%in_ranges_nil|]. cbn [ranges_ok].
  intros (H & _ & _ & He) [Ha|Ha]%in_ranges_cons; [apply ranges_ok_lo in He; lia|]. apply (IH e) in Ha; [lia|done].
Qed.

Lemma ranges_ok_aligned lo rs s e : ranges_ok lo rs → (s, e) ∈ rs → aligned s ∧ aligned e ∧ lo ≤ s < e ∧ e ≤ USER_TOP.
Proof.
  revert lo. induction rs as [|[s' e'] rs IH]; intros lo; [by intros _ ?%not_elem_of_nil|]. cbn [ranges_ok].
  intros (H & H1 & H2 & He) [[= -> ->]|Hin]%elem_of_cons; [by apply ranges_ok_lo in He|].
  destruct (IH e' He Hin) as (? & ? & ? & ?). split_and!; try done; lia.
Qed.

(** A range that meets none of the others, and the list it makes. *)
Definition free_range (lo s e : Z) (rs : list (Z * Z)) : Prop := lo ≤ s ∧ e ≤ USER_TOP ∧ ∀ a, s ≤ a < e → ¬ in_ranges rs a.

Lemma free_range_cons lo s e s' e' rs : ranges_ok lo ((s', e') :: rs) → s < e → free_range lo s e ((s', e') :: rs) →
  e ≤ s' ∨ (e' ≤ s ∧ free_range e' s e rs).
Proof.
  intros (H & _ & _ & _) Hse (Hlo & Htop & Hd).
  destruct (decide (e ≤ s')) as [|Hne]; [by left|right]. assert (e' ≤ s) as He'.
  { destruct (decide (e' ≤ s)); [done|]. exfalso. apply (Hd (Z.max s s')); [lia|]. apply in_ranges_cons. left. lia. }
  split; [done|]. split; [done|]. split; [done|]. intros a Ha Hin. apply (Hd a Ha). apply in_ranges_cons. by right.
Qed.

Lemma insert_range_ok lo s e rs : ranges_ok lo rs → s < e → aligned s → aligned e → free_range lo s e rs →
  ranges_ok lo (insert_range s e rs).
Proof.
  revert lo. induction rs as [|[s' e'] rs IH]; intros lo H Hse Hs He Hf; cbn [insert_range].
  - destruct Hf as (Hlo & Htop & _). cbn [ranges_ok]. split_and!; try done.
  - pose proof H as (H1 & H2 & H3 & H4). destruct (free_range_cons _ _ _ _ _ _ H Hse Hf) as [Hle|[Hle Hf']].
    + replace (e <=? s') with true by lia. destruct Hf as (Hlo & _ & _). cbn [ranges_ok]. split_and!; (done || lia).
    + replace (e <=? s') with false by lia. cbn [ranges_ok]. split_and!; try (done || lia). by apply IH.
Qed.

Lemma split_regions lo s e rs : ranges_ok lo rs → s < e → free_range lo s e rs →
  split_region (regions_of lo rs) s e = Ok (regions_of lo (insert_range s e rs)).
Proof.
  revert lo. induction rs as [|[s' e'] rs IH]; intros lo H Hse Hf.
  - destruct Hf as (Hlo & Htop & _). cbn [regions_of split_region start_addr end_addr region_free insert_range].
    replace ((lo <=? s) && (e <=? USER_TOP)) with true by lia. done.
  - pose proof H as (H1 & H2 & H3 & H4). cbn [regions_of split_region start_addr end_addr region_free insert_range negb].
    destruct (free_range_cons _ _ _ _ _ _ H Hse Hf) as [Hle|[Hle Hf']]; destruct Hf as (Hlo & Htop & _).
    + replace ((lo <=? s) && (e <=? s')) with true by lia. by replace (e <=? s') with true by lia.
    + replace (e <=? s') with false by lia. rewrite andb_false_r. cbn [andb].
      replace ((s' <=? s) && (e <=? e')) with false by lia.
      destruct (regions_of_head e' rs) as (e2 & l & E). rewrite E. rewrite <-E, (IH e' H4 Hse Hf'). done.
Qed.

(** Ranges that all end below [M]. *)
Definition ends_below (M : Z) (rs : list (Z * Z)) : Prop := ∀ s e, (s, e) ∈ rs → e ≤ M.

Lemma ends_below_cons M s e rs : ends_below M ((s, e) :: rs) → e ≤ M ∧ ends_below M rs.
Proof. intros H. split; [apply (H s e); by left|]. intros s' e' Hin. apply (H s' e'). by right. Qed.

(** The first gap that is large enough. *)
Lemma find_regions lo rs size : ranges_ok lo rs → 0 ≤ size → aligned lo → ∃ a,
  find_contiguous_virtual_range (regions_of lo rs) size = Ok (a, regions_of lo rs) ∧
  ((a = 0 ∧ ∀ M, lo ≤ M → ends_below M rs → USER_TOP < M + size) ∨
   (aligned a ∧ free_range lo a (a + size) rs ∧ ∀ M, lo ≤ M → ends_below M rs → a ≤ M)).
Proof.
  revert lo. induction rs as [|[s e] rs IH]; intros lo H Hs Hal; cbn [regions_of find_contiguous_virtual_range find_range start_addr end_addr region_free].
  - cbn [ranges_ok] in H. replace (lo <=? USER_TOP) with true by lia. cbn [c_assert mbind outcome_bind andb].
    destruct (size <=? USER_TOP - lo) eqn:E; zbool.
    + exists lo. split; [done|]. right. split; [done|]. split; [|done]. split; [done|]. split; [lia|]. by intros a _ ?%in_ranges_nil.
    + exists 0. split; [done|]. left. split; [done|]. intros M HM _. lia.
  - pose proof H as (H1 & H2 & H3 & H4). replace (lo <=? s) with true by lia. cbn [c_assert mbind outcome_bind andb].
    destruct (size <=? s - lo) eqn:E; zbool.
    + exists lo. split; [done|]. right. split; [done|]. split; [|done]. split; [done|]. pose proof (ranges_ok_lo _ _ H4). split; [lia|].
      intros a Ha [Hin|Hin]%in_ranges_cons; [lia|]. apply (ranges_ok_above e) in Hin; [lia|done].
    + rewrite andb_false_r. cbn [andb]. destruct (IH e H4 Hs H3) as (a & Ea & Ha).
      destruct (regions_of_head e rs) as (e2 & l & Er). rewrite Er in Ea |- *. cbn [find_range start_addr end_addr region_free].
      replace (s <=? e) with true by lia. cbn [c_assert mbind outcome_bind andb]. rewrite andb_false_r. cbn [andb].
      cbn [find_contiguous_virtual_range] in Ea. exists a. rewrite Ea. cbn [mbind outcome_bind]. split; [done|].
      destruct Ha as [[-> Ha]|(Haa & (Hb & Hc & Hd) & Ha)]; [left|right].
      * split; [done|]. intros M HM [Hr1 Hr2]%ends_below_cons. by apply Ha.
      * split; [done|]. split; [|intros M HM [Hr1 Hr2]%ends_below_cons; by apply Ha].
        split; [lia|]. split; [done|]. intros x Hx [Hin|Hin]%in_ranges_cons; [lia|]. by apply (Hd x Hx).
Qed.

(** ** Filling an address space *)
Lemma leaf_at_page st T v : leaf_at st T v = leaf_at st T (page_of v).
Proof. apply leaf_at_vpage, page_of_same. Qed.

Lemma page_of_between s e v : aligned s → aligned e → s ≤ v < e → s ≤ page_of v < e.
Proof. unfold aligned, page_of. intros. dlia. Qed.

Lemma page_of_eq p v : aligned p → page_of v = p ↔ p ≤ v < p + PAGE_SIZE.
Proof. unfold aligned, page_of. intros. dlia. Qed.

(** The pages [s, e) are mapped to RAM, with everything else as it was. *)
Record grown (s e : Z) (x : bool) (T : gmap (list Z) Z) (st : mm) (T' : gmap (list Z) Z) (st' : mm) : Prop := {
  gr_cr3 : cr3 st' = cr3 st;
  gr_new v : user_addr v → s ≤ v < e → ∃ en, leaf_at st' T' v = Some en ∧ ram_page x en;
  gr_leaf v : user_addr v → ¬ s ≤ v < e → leaf_at st' T' v = leaf_at st T v;
  gr_byte v : user_addr v → ¬ s ≤ v < e → user_byte st' v = user_byte st v;
  gr_mapped v : user_addr v → s ≤ v < e → is_Some (user_byte st' v);
  gr_count : Z.of_nat (free_pages (slab st)) ≤ 4 * ((e - s) `div` PAGE_SIZE) + Z.of_nat (free_pages (slab st'))
}.

Record filling (st0 : mm) (rs : list (Z * Z)) (T : gmap (list Z) Z) (st : mm) : Prop := {
  fl_space : user_space st0 T st;
  fl_ranges : ranges_ok PAGE_SIZE rs;
  fl_maps v : user_addr v → is_Some (leaf_at st T v) ↔ in_ranges rs v
}.

Section elf.
Context (st0 : mm).

Lemma filling_byte rs T st v : filling st0 rs T st → user_addr v → is_Some (user_byte st v) ↔ in_ranges rs v.
Proof.
  intros [H _ Hm] Hv. rewrite (user_byte_leaf st0 T) by done. rewrite fmap_is_Some, <-leaf_at_page. by apply Hm.
Qed.

(** One more page at the end of the range. *)
Lemma grown_step s p x T st T1 st1 : user_space st0 T1 st1 → grown s p x T st T1 st1 → aligned s → aligned p → PAGE_SIZE ≤ s ≤ p →
  p + PAGE_SIZE ≤ 2 ^ 47 → leaf_at st T p = None →
  4 * ((p - s) `div` PAGE_SIZE + 1) ≤ Z.of_nat (free_pages (slab st)) →
  wp False (allocate_ram_page p x st1) (λ st2, ∃ T2, user_space st0 T2 st2 ∧ grown s (p + PAGE_SIZE) x T st T2 st2).
Proof.
  intros Hu1 [Ecr Hnew Hleaf Hbyte Hmap Hcnt] Hs Hp Hsp Htop Hnone Hfree.
  assert (user_page p) as Hup by (split; [unfold PAGE_SIZE in *; lia|done]).
  assert (user_addr p) as Hap by apply Hup.
  eapply wp_mono_halt; [apply (allocate_page_wp st0 T1 st1 p x Hu1 Hup)|lia|].
  { rewrite Hleaf by (done || lia). done. }
  intros st2 (T2 & Hu2 & Ecr2 & (e & He & Hr) & Hoth & Hb1 & Hb2 & Hc2). exists T2. split; [done|].
  assert (∀ v, s ≤ v < p + PAGE_SIZE → s ≤ v < p ∨ p ≤ v < p + PAGE_SIZE) as Hcase by lia.
  constructor.
  - congruence.
  - intros v Hv Hin. rewrite leaf_at_page. destruct (decide (page_of v = p)) as [->|Hne]; [by exists e|].
    rewrite Hoth by (done || by apply page_of_user). rewrite <-leaf_at_page. apply Hnew; [done|].
    destruct (Hcase v Hin) as [?|H]; [done|]. by apply page_of_eq in H.
  - intros v Hv Hin. rewrite leaf_at_page, Hoth; [rewrite <-leaf_at_page; apply Hleaf; [done|]; unfold PAGE_SIZE in *; lia|by apply page_of_user|].
    intros E%page_of_eq; [|done]. lia.
  - intros v Hv Hin. rewrite Hb1; [apply Hbyte; [done|unfold PAGE_SIZE in *; lia]|done|]. intros E%page_of_eq; [|done]. lia.
  - intros v Hv Hin. destruct (decide (page_of v = p)) as [E|Hne]; [by apply Hb2|]. rewrite Hb1 by done. apply Hmap; [done|].
    destruct (Hcase v Hin) as [?|H]; [done|]. by apply page_of_eq in H.
  - replace ((p + PAGE_SIZE - s) `div` PAGE_SIZE) with ((p - s) `div` PAGE_SIZE + 1); [lia|].
    replace (p + PAGE_SIZE - s) with (p - s + 1 * PAGE_SIZE) by lia. by rewrite Z.div_add.
Qed.

Lemma grown_refl s x T st : grown s s x T st T st.
Proof. constructor; try done; try lia. rewrite Z.sub_diag. change (0 `div` PAGE_SIZE) with 0. lia. Qed.

Lemma allocate_range_wp rs T st s e x : filling st0 rs T st → s < e → aligned s → aligned e → free_range PAGE_SIZE s e rs →
  4 * ((e - s) `div` PAGE_SIZE) ≤ Z.of_nat (free_pages (slab st)) →
  wp False (allocate_virtual_range (regions_of PAGE_SIZE rs) s e x st) (λ '(tr, st'), tr = regions_of PAGE_SIZE (insert_range s e rs) ∧
    ∃ T', filling st0 (insert_range s e rs) T' st' ∧ grown s e x T st T' st').
Proof.
  intros [Hu Hro Hm] Hse Hs He Hf Hfree. pose proof Hf as (Hlo & Htop & Hd). unfold allocate_virtual_range. unfold USER_TOP in Htop.
  rewrite !land_page_mask, Hs, He. change (hcf_if (negb (0 =? 0) || negb (0 =? 0))) with (Ok ()). rewrite Ok_bind.
  rewrite (split_regions _ _ _ _ Hro Hse Hf), Ok_bind. apply wp_bind.
  eapply wp_mono; [apply (wp_while False (λ '(p, _), Z.to_nat ((e - p) `div` PAGE_SIZE))
    (λ '(p, st1), s ≤ p ≤ e ∧ aligned p ∧ ∃ T1, user_space st0 T1 st1 ∧ grown s p x T st T1 st1)
    (λ st1, ∃ T1, user_space st0 T1 st1 ∧ grown s e x T st T1 st1))|].
  - split; [lia|]. split; [done|]. exists T. split; [done|]. apply grown_refl.
  - apply Nat.lt_succ_r, Z2Nat.inj_le; [dlia|dlia|]. apply Z.div_le_mono; [done|]. unfold PAGE_SIZE. lia.
  - intros [p st1] (Hp & Hpa & T1 & Hu1 & Hg). destruct (Z.ltb_spec p e) as [Hlt|Hge].
    + assert (p + PAGE_SIZE ≤ e) as Hpe by (unfold aligned in *; dlia).
      apply wp_bind. eapply wp_mono; [apply (grown_step s p x T st T1 st1 Hu1 Hg Hs Hpa)|]; [lia|lia| | |].
      * apply eq_None_not_Some. rewrite Hm by (unfold user_addr, PAGE_SIZE in *; lia). apply Hd. lia.
      * assert ((p - s) `div` PAGE_SIZE + 1 ≤ (e - s) `div` PAGE_SIZE); [|lia]. unfold aligned in *. dlia.
      * intros st2 (T2 & Hu2 & Hg2). cbn [wp]. rewrite wrap_small by (unfold PAGE_SIZE in *; lia).
        split; [|apply Z2Nat.inj_lt; [dlia|dlia|]; unfold aligned in *; dlia].
        split; [unfold PAGE_SIZE in *; lia|]. split; [unfold aligned in *; dlia|]. by exists T2.
    + assert (p = e) as -> by lia. cbn [wp]. by exists T1.
  - intros st' (T' & Hu' & Hg). cbn [wp]. split; [done|]. exists T'. split; [|done]. constructor; [done|by apply insert_range_ok|].
    intros v Hv. rewrite in_insert_range. destruct (decide (s ≤ v < e)) as [Hin|Hout].
    + destruct (gr_new _ _ _ _ _ _ _ Hg v Hv Hin) as (en & -> & _). split; [by left|by eexists].
    + rewrite (gr_leaf _ _ _ _ _ _ _ Hg) by done. rewrite Hm by done. tauto.
Qed.

(** Stores inside the range. *)
Lemma grown_stored rs s e x T st T1 st1 st2 : filling st0 rs T1 st1 → grown s e x T st T1 st1 →
  user_space st0 T1 st2 → same_maps T1 st1 st2 → (∀ v, user_addr v → ¬ s ≤ v < e → user_byte st2 v = user_byte st1 v) →
  filling st0 rs T1 st2 ∧ grown s e x T st T1 st2.
Proof.
  intros [Hu Hr Hm] [Ecr Hnew Hleaf Hbyte Hmap Hcnt] Hu2 (E1 & E2 & E3) Hb. split.
  - constructor; [done|done|]. intros v Hv. by rewrite E3, Hm.
  - constructor.
    + congruence.
    + intros v Hv Hin. rewrite E3. by apply Hnew.
    + intros v Hv Hin. rewrite E3. by apply Hleaf.
    + intros v Hv Hin. rewrite Hb by done. by apply Hbyte.
    + intros v Hv Hin. rewrite (user_byte_leaf st0 T1), fmap_is_Some, <-leaf_at_page, E3 by done.
      destruct (Hnew v Hv Hin) as (en & -> & _). by eexists.
    + by rewrite E2.
Qed.

(** The bytes [l] are at [v]. *)
Definition user_bytes (st : mm) (v : Z) (l : list Z) : Prop := ∀ i b, l !! i = Some b → user_byte st (v + Z.of_nat i) = Some b.

Lemma user_stored_bytes st st' v l : user_stored st st' v l → 0 ≤ v → v + Z.of_nat (length l) ≤ 2 ^ 47 → user_bytes st' v l.
Proof.
  intros H H0 H1 i b Hi. pose proof (lookup_lt_Some _ _ _ Hi). rewrite H by (unfold user_addr; lia). rewrite decide_True by lia.
  replace (Z.to_nat (v + Z.of_nat i - v)) with i by lia. done.
Qed.

Lemma user_stored_out st st' v l w : user_stored st st' v l → user_addr w → ¬ (v ≤ w < v + Z.of_nat (length l)) → user_byte st' w = user_byte st w.
Proof. intros H Hw Ho. by rewrite H, decide_False. Qed.

Lemma user_bytes_app st v l k : user_bytes st v (l ++ k) ↔ user_bytes st v l ∧ user_bytes st (v + Z.of_nat (length l)) k.
Proof.
  split.
  - intros H. split; intros i b Hi; [apply H; by apply lookup_app_l_Some|].
    rewrite <-Z.add_assoc, <-Nat2Z.inj_add. apply H. rewrite lookup_app_r by lia. by replace (length l + i - length l)%nat with i by lia.
  - intros [H1 H2] i b [Hi|[Hl Hi]]%lookup_app_Some; [by apply H1|]. rewrite <-(H2 _ _ Hi). f_equal. lia.
Qed.

Lemma user_bytes_same st st' v l : user_bytes st v l → (∀ w, v ≤ w < v + Z.of_nat (length l) → user_byte st' w = user_byte st w) → user_bytes st' v l.
Proof. intros H Hs i b Hi. pose proof (lookup_lt_Some _ _ _ Hi). rewrite Hs by lia. by apply H. Qed.

(** ** Segments *)
Record segment := Seg { seg_vaddr : Z; seg_bytes : list Z; seg_memsz : Z; seg_exec : bool }.
Definition seg_start (g : segment) : Z := seg_vaddr g - seg_vaddr g `mod` PAGE_SIZE.
Definition seg_end (g : segment) : Z := page_up (seg_vaddr g + seg_memsz g).
(** What the segment is in memory. *)
Definition seg_image (g : segment) : list Z := seg_bytes g ++ replicate (Z.to_nat (seg_memsz g) - length (seg_bytes g)) 0.

Record seg_ok (g : segment) : Prop := {
  seg_low : PAGE_SIZE ≤ seg_vaddr g;
  seg_nonempty : 0 < seg_memsz g;
  seg_fits : Z.of_nat (length (seg_bytes g)) ≤ seg_memsz g;
  seg_is_bytes : Forall is_byte (seg_bytes g);
  seg_high : seg_end g ≤ 2 ^ 46
}.

Lemma seg_pages g : seg_ok g → aligned (seg_start g) ∧ aligned (seg_end g) ∧ PAGE_SIZE ≤ seg_start g ∧
  seg_start g ≤ seg_vaddr g ∧ seg_vaddr g + seg_memsz g ≤ seg_end g.
Proof.
  intros []. pose proof (page_up_spec (seg_vaddr g + seg_memsz g)) as [H1 H2]. unfold seg_start, seg_end, aligned in *. split_and!; try done; dlia.
Qed.

Context (read_file : Z → Z → outcome (list Z * Z)).

(** The program header [h] describes the segment [g] of the file. *)
Record header_segment (h : list Z) (g : segment) : Prop := {
  hs_vaddr : phdr_field h "p_vaddr" = seg_vaddr g;
  hs_filesz : phdr_field h "p_filesz" = Z.of_nat (length (seg_bytes g));
  hs_memsz : phdr_field h "p_memsz" = seg_memsz g;
  hs_exec : negb (Z.land (phdr_field h "flags") 1 =? 0) = seg_exec g;
  hs_read : read_file (phdr_field h "p_offset") (phdr_field h "p_filesz") = Ok (seg_bytes g, Z.of_nat (length (seg_bytes g)))
}.

Lemma load_segment_wp rs T st h g : filling st0 rs T st → header_segment h g → seg_ok g →
  (∀ a, seg_start g ≤ a < seg_end g → ¬ in_ranges rs a) →
  4 * ((seg_end g - seg_start g) `div` PAGE_SIZE) ≤ Z.of_nat (free_pages (slab st)) →
  wp False (load_segment read_file h (regions_of PAGE_SIZE rs, st)) (λ '(tr, st'),
    let rs' := insert_range (seg_start g) (seg_end g) rs in tr = regions_of PAGE_SIZE rs' ∧
    ∃ T', filling st0 rs' T' st' ∧ grown (seg_start g) (seg_end g) (seg_exec g) T st T' st' ∧ user_bytes st' (seg_vaddr g) (seg_image g)).
Proof.
  intros Hf [Ev Efz Emz Ex Erd] Hg Hd Hfree. destruct (seg_pages g Hg) as (Ha1 & Ha2 & Hlo & Hsv & Hve). destruct Hg as [Hlow Hne Hfit Hby Hhigh].
  unfold load_segment. rewrite Ev, Emz, Ex, Erd, Efz. unfold PAGE_SIZE in Hlow.
  rewrite page_down_spec by lia. fold (seg_start g). rewrite page_down_up by (unfold PAGE_SIZE; lia). fold (seg_end g).
  apply wp_bind. eapply wp_mono; [apply (allocate_range_wp rs T st); try done; [lia|]|].
  { split; [lia|]. split; [unfold USER_TOP; lia|done]. }
  intros [tr st1] (-> & T1 & Hf1 & Hgr1). cbn [mbind outcome_bind]. set (rs' := insert_range _ _ rs) in *.
  assert (∀ v, seg_start g ≤ v < seg_end g → user_addr v) as Hua by (intros v Hv; unfold user_addr, PAGE_SIZE in *; lia).
  apply wp_bind. eapply wp_mono; [apply (store_bytes_wp st0 T1 (seg_bytes g) st1); [apply Hf1|done|lia|lia|]|].
  { intros w Hw. apply (gr_mapped _ _ _ _ _ _ _ Hgr1); [apply Hua; lia|lia]. }
  intros st2 (Hu2 & Hs2 & Hst2).
  destruct (grown_stored rs' _ _ _ _ _ _ _ st2 Hf1 Hgr1 Hu2 Hs2) as [Hf2 Hgr2].
  { intros v Hv Hout. apply (user_stored_out _ _ _ _ _ Hst2 Hv). lia. }
  rewrite Z.eqb_refl. change (hcf_if (negb true)) with (Ok ()). rewrite Ok_bind.
  rewrite (wrap_small 64 (seg_vaddr g + _)), (wrap_small 64 (seg_memsz g - _)) by lia.
  apply wp_bind. eapply wp_mono; [apply (store_bytes_wp st0 T1 _ st2 _ Hu2); rewrite ?length_replicate; [by apply Forall_replicate|lia|lia|]|].
  { intros w Hw. apply (gr_mapped _ _ _ _ _ _ _ Hgr2); [apply Hua; lia|lia]. }
  intros st3 (Hu3 & Hs3 & Hst3).
  destruct (grown_stored rs' _ _ _ _ _ _ _ st3 Hf2 Hgr2 Hu3 Hs3) as [Hf3 Hgr3].
  { intros v Hv Hout. apply (user_stored_out _ _ _ _ _ Hst3 Hv). rewrite length_replicate. lia. }
  cbn [wp]. split; [done|]. exists T1. split; [done|]. split; [done|].
  apply user_bytes_app. split.
  - apply (user_bytes_same st2); [apply (user_stored_bytes st1); [done|lia|lia]|]. intros w Hw.
    apply (user_stored_out _ _ _ _ _ Hst3); [apply Hua; lia|]. rewrite length_replicate. lia.
  - apply user_stored_bytes in Hst3; [|lia|rewrite length_replicate; lia].
    by replace (Z.to_nat (seg_memsz g) - length (seg_bytes g))%nat with (Z.to_nat (seg_memsz g - Z.of_nat (length (seg_bytes g)))) by lia.
Qed.

(** ** Arguments *)
Definition args_size (argv : list (list Z)) : Z := foldr (λ s n, Z.of_nat (length s) + 9 + n) 8 argv.
(** What the strings take: two bytes more than each one's length. *)
Definition strings_span (argv : list (list Z)) : Z := foldr (λ s n, Z.of_nat (length s) + 2 + n) 0 argv.
(** The strings fit in the pages that are allocated, which have room for one byte more than each one's length. *)
Definition args_fit (argv : list (list Z)) : Prop :=
  8 * (Z.of_nat (length argv) + 1) + strings_span argv - 1 ≤ page_up (args_size argv).

Fixpoint string_addrs (curr : Z) (argv : list (list Z)) : list Z :=
  match argv with [] => [] | s :: argv => curr :: string_addrs (curr + Z.of_nat (length s) + 2) argv end.

Definition pointers (l : list Z) : list Z := concat (le_bytes 8 <$> l).

Lemma length_pointers l : length (pointers l) = (8 * length l)%nat.
Proof. induction l as [|p l IH]; [done|]. unfold pointers in *. cbn [fmap list_fmap concat length]. rewrite length_app, le_bytes_length, IH. lia. Qed.

Lemma length_string_addrs argv : ∀ curr, length (string_addrs curr argv) = length argv.
Proof. induction argv as [|s argv IH]; intros curr; [done|]. cbn [string_addrs length]. by rewrite IH. Qed.

Lemma args_size_nonneg argv : 8 ≤ args_size argv.
Proof. induction argv as [|s argv IH]; cbn [args_size foldr] in *; [done|]. fold (args_size argv). lia. Qed.

Lemma strings_span_nonneg argv : 0 ≤ strings_span argv.
Proof. induction argv as [|s argv IH]; cbn [strings_span foldr] in *; [done|]. fold (strings_span argv). lia. Qed.

Lemma args_count argv : 9 * Z.of_nat (length argv) + 8 ≤ args_size argv.
Proof. induction argv as [|s argv IH]; cbn [args_size foldr length] in *; [done|]. fold (args_size argv). lia. Qed.

Lemma args_bytes_spec argv : args_size argv + PAGE_SIZE ≤ 2 ^ 64 → args_bytes argv = page_up (args_size argv).
Proof.
  intros Hsz. unfold args_bytes.
  assert (∀ n, 0 ≤ n → n + args_size argv ≤ 2 ^ 64 - PAGE_SIZE →
    foldl (λ n s, u64 (u64 (n + 8) + (Z.of_nat (length s) + 1))) n argv = n + args_size argv - 8) as Hl.
  { clear Hsz. induction argv as [|s argv IH]; intros n Hn Hsz; cbn [foldl args_size foldr] in *; [lia|]. fold (args_size argv) in *.
    pose proof (args_size_nonneg argv). unfold PAGE_SIZE in *.
    rewrite (wrap_small 64 (n + 8)), wrap_small by lia. rewrite IH by lia. lia. }
  pose proof (args_size_nonneg argv). rewrite Hl by lia. unfold PAGE_SIZE in Hsz. rewrite (wrap_small 64 (_ + 8)) by lia.
  replace (0 + args_size argv - 8 + 8) with (args_size argv) by lia. by apply page_down_up; unfold PAGE_SIZE; lia.
Qed.

Lemma store_args_wp T argv : ∀ array curr st,
  user_space st0 T st → Forall (Forall is_byte) argv → 0 ≤ array →
  array + 8 * Z.of_nat (length argv) ≤ curr → curr + strings_span argv ≤ 2 ^ 47 →
  (∀ w, array ≤ w < array + 8 * Z.of_nat (length argv) → is_Some (user_byte st w)) →
  (∀ w, curr ≤ w < curr + strings_span argv - 1 → is_Some (user_byte st w)) →
  wp False (store_args array curr argv st) (λ '(array', st'), array' = array + 8 * Z.of_nat (length argv) ∧
    user_space st0 T st' ∧ same_maps T st st' ∧
    (∀ w, user_addr w → ¬ array ≤ w < array + 8 * Z.of_nat (length argv) → ¬ curr ≤ w < curr + strings_span argv - 1 →
       user_byte st' w = user_byte st w) ∧
    user_bytes st' array (pointers (string_addrs curr argv)) ∧
    ∀ i s p, argv !! i = Some s → string_addrs curr argv !! i = Some p →
      curr ≤ p ∧ p + Z.of_nat (length s) + 1 ≤ curr + strings_span argv - 1 ∧ user_bytes st' p (s ++ [0])).
Proof.
  induction argv as [|s argv IH]; intros array curr st Hu Hby Ha Hac Htop Hm1 Hm2; cbn [store_args string_addrs length] in *.
  { cbn [wp]. split; [lia|]. split; [done|]. split; [apply same_maps_refl|]. split; [done|]. split; [intros i b Hi; by destruct i|done]. }
  cbn [strings_span foldr] in *. fold (strings_span argv) in *. pose proof (strings_span_nonneg argv) as Hsp.
  inversion Hby as [|? ? Hbs Hby']; subst. set (n := Z.of_nat (length s)) in *.
  apply wp_bind. eapply wp_mono; [apply (store_bytes_wp st0 T _ st array Hu); rewrite ?le_bytes_length; [apply le_bytes_byte|lia|lia|]|].
  { intros w Hw. apply Hm1. lia. }
  intros st1 (Hu1 & Hs1 & Hst1).
  assert (length (s ++ [0]) = (length s + 1)%nat) as Elen by (by rewrite length_app).
  apply wp_bind. eapply wp_mono; [apply (store_bytes_wp st0 T _ st1 curr Hu1); rewrite ?Elen; [|lia|lia|]|].
  { apply Forall_app. split; [done|]. by repeat constructor. }
  { intros w Hw. rewrite (user_stored_out _ _ _ _ _ Hst1); [apply Hm2; lia|unfold user_addr; lia|]. rewrite le_bytes_length. lia. }
  intros st2 (Hu2 & Hs2 & Hst2).
  assert (∀ w, user_addr w → ¬ array ≤ w < array + 8 → ¬ curr ≤ w < curr + n + 1 → user_byte st2 w = user_byte st w) as Hfr2.
  { intros w Hw H1 H2. rewrite (user_stored_out _ _ _ _ _ Hst2), (user_stored_out _ _ _ _ _ Hst1); try done; rewrite ?Elen, ?le_bytes_length; lia. }
  rewrite (wrap_small 64 (array + 8)), (wrap_small 64 (curr + n + 2)) by lia.
  eapply wp_mono; [apply (IH (array + 8) (curr + n + 2) st2 Hu2 Hby'); try lia|].
  - intros w Hw. rewrite Hfr2; [apply Hm1; lia|unfold user_addr; lia|lia|lia].
  - intros w Hw. rewrite Hfr2; [apply Hm2; lia|unfold user_addr; lia|lia|lia].
  - intros [array' st3] (-> & Hu3 & Hs3 & Hfr3 & Hptr & Hstr). split; [lia|]. split; [done|].
    split; [by eapply same_maps_trans, same_maps_trans|]. split; [|split].
    + intros w Hw H1 H2. rewrite Hfr3, Hfr2; try done; lia.
    + unfold pointers. cbn [fmap list_fmap concat]. apply user_bytes_app. rewrite le_bytes_length. split; [|exact Hptr].
      apply (user_bytes_same st1); [apply (user_stored_bytes st); [done|lia|rewrite le_bytes_length; lia]|].
      rewrite le_bytes_length. intros w Hw. assert (user_addr w) as Hua by (unfold user_addr; lia).
      rewrite Hfr3 by (done || lia). apply (user_stored_out _ _ _ _ _ Hst2 Hua). rewrite Elen. lia.
    + intros [|i] s' p Hs' Hp'; cbn [lookup list_lookup] in *.
      * injection Hs' as <-. injection Hp' as <-. fold n. split; [lia|]. split; [lia|].
        apply (user_bytes_same st2); [apply (user_stored_bytes st1); [done|lia|rewrite Elen; lia]|]. rewrite Elen. intros w Hw.
        apply Hfr3; [unfold user_addr; lia|lia|lia].
      * destruct (Hstr i s' p Hs' Hp') as (H1 & H2 & H3). split; [lia|]. split; [lia|done].
Qed.

(** A null-terminated array at [a] with the strings [argv], all of it below [a + n]. *)
Definition args_at (st : mm) (a n : Z) (argv : list (list Z)) : Prop := ∃ ps, length ps = length argv ∧
  a + 8 * (Z.of_nat (length argv) + 1) ≤ a + n ∧ user_bytes st a (pointers (ps ++ [0])) ∧
  ∀ i s p, argv !! i = Some s → ps !! i = Some p → a ≤ p ∧ p + Z.of_nat (length s) + 1 ≤ a + n ∧ user_bytes st p (s ++ [0]).

Lemma elem_insert_range s e rs p : p ∈ insert_range s e rs → p = (s, e) ∨ p ∈ rs.
Proof.
  induction rs as [|[s' e'] rs IH]; cbn [insert_range]; [by intros ->%list_elem_of_singleton; left|].
  destruct (e <=? s'); [by intros [->|?]%elem_of_cons; [left|right]|].
  intros [->|[->|?]%IH]%elem_of_cons; [right; by left|by left|right; by right].
Qed.

(** A range of [size] bytes found in the address space, and its pages. *)
Lemma find_allocate_wp rs T st size M : filling st0 rs T st → 0 < size → aligned size → PAGE_SIZE ≤ M → ends_below M rs →
  M + size ≤ 2 ^ 46 * 2 - PAGE_SIZE → 4 * (size `div` PAGE_SIZE) ≤ Z.of_nat (free_pages (slab st)) →
  ∃ a, find_contiguous_virtual_range (regions_of PAGE_SIZE rs) size = Ok (a, regions_of PAGE_SIZE rs) ∧
    aligned a ∧ PAGE_SIZE ≤ a ∧ a ≤ M ∧ a + size ≤ 2 ^ 47 - PAGE_SIZE ∧ (∀ v, a ≤ v < a + size → ¬ in_ranges rs v) ∧
    wp False (allocate_virtual_range (regions_of PAGE_SIZE rs) a (a + size) false st) (λ '(tr, st'),
      let rs' := insert_range a (a + size) rs in tr = regions_of PAGE_SIZE rs' ∧
      ∃ T', filling st0 rs' T' st' ∧ grown a (a + size) false T st T' st').
Proof.
  intros Hf Hsz Hal HM He Htop Hfree.
  destruct (find_regions PAGE_SIZE rs size (fl_ranges _ _ _ _ Hf) ltac:(lia) eq_refl) as (a & E & [[-> Hbad]|(Haa & Hfr & HaM)]).
  { specialize (Hbad M HM He). unfold USER_TOP, PAGE_SIZE in *. lia. }
  assert (aligned (a + size)) as Hae by (unfold aligned in *; dlia).
  exists a. split; [done|]. split; [done|]. pose proof Hfr as (H1 & H2 & H3). split; [done|]. split; [by apply HaM|].
  assert (a + size ≤ 2 ^ 47 - PAGE_SIZE) as Hat by (unfold USER_TOP, aligned in *; dlia).
  split; [done|]. split; [done|]. apply allocate_range_wp; try done; [lia|]. by rewrite Z.add_simpl_l.
Qed.

Lemma setup_args_wp rs T st argv M : filling st0 rs T st → Forall (Forall is_byte) argv → args_fit argv → PAGE_SIZE ≤ M → ends_below M rs →
  M + page_up (args_size argv) ≤ 2 ^ 47 - PAGE_SIZE →
  4 * (page_up (args_size argv) `div` PAGE_SIZE) ≤ Z.of_nat (free_pages (slab st)) →
  wp False (setup_args_for_new_process (regions_of PAGE_SIZE rs) argv st) (λ '(argc, a, tr, st'),
    let rs' := insert_range a (a + page_up (args_size argv)) rs in
    argc = Z.of_nat (length argv) ∧ tr = regions_of PAGE_SIZE rs' ∧ PAGE_SIZE ≤ a ≤ M ∧ a + page_up (args_size argv) ≤ 2 ^ 47 - PAGE_SIZE ∧
    (∀ v, a ≤ v < a + page_up (args_size argv) → ¬ in_ranges rs v) ∧
    ∃ T', filling st0 rs' T' st' ∧ grown a (a + page_up (args_size argv)) false T st T' st' ∧ args_at st' a (page_up (args_size argv)) argv).
Proof.
  intros Hf Hby Hfit HM He Htop Hfree. pose proof (args_size_nonneg argv) as Hsz. pose proof (args_count argv) as Hcnt.
  destruct (page_up_spec (args_size argv)) as [Hup Hal]. set (n := page_up (args_size argv)) in *.
  unfold setup_args_for_new_process. rewrite args_bytes_spec by (unfold PAGE_SIZE in *; lia). fold n.
  destruct (find_allocate_wp rs T st n M Hf ltac:(lia) Hal HM He ltac:(lia) Hfree) as (a & -> & Haa & Hlo & HaM & Hhi & Hd & Hwp).
  rewrite Ok_bind. unfold PAGE_SIZE in Hlo, Hhi. rewrite (wrap_small 64 (a + n)) by lia.
  apply wp_bind. eapply wp_mono; [exact Hwp|]. intros [tr st1] (-> & T1 & Hf1 & Hg1). set (rs' := insert_range _ _ rs) in *.
  unfold args_fit in Hfit. fold n in Hfit. pose proof (strings_span_nonneg argv) as Hss. set (k := Z.of_nat (length argv)) in *.
  rewrite (wrap_small 64 (a + (k + 1) * 8)) by lia.
  assert (∀ v, a ≤ v < a + n → user_addr v) as Hua by (intros v Hv; unfold user_addr; lia).
  apply wp_bind. eapply wp_mono; [apply (store_args_wp T1 argv a (a + (k + 1) * 8) st1 (fl_space _ _ _ _ Hf1) Hby); fold k; try lia|].
  { intros w Hw. apply (gr_mapped _ _ _ _ _ _ _ Hg1); [apply Hua; lia|lia]. }
  { intros w Hw. apply (gr_mapped _ _ _ _ _ _ _ Hg1); [apply Hua; lia|lia]. }
  intros [array st2] (-> & Hu2 & Hs2 & Hfr2 & Hptr & Hstr). fold k in Hfr2 |- *.
  destruct (grown_stored rs' _ _ _ _ _ _ _ st2 Hf1 Hg1 Hu2 Hs2) as [Hf2 Hg2].
  { intros v Hv Hout. apply Hfr2; [done|lia|lia]. }
  apply wp_bind. eapply wp_mono; [apply (store_bytes_wp st0 T1 _ st2 (a + 8 * k) Hu2); rewrite ?le_bytes_length; [apply le_bytes_byte|lia|lia|]|].
  { intros w Hw. apply (gr_mapped _ _ _ _ _ _ _ Hg2); [apply Hua; lia|lia]. }
  intros st3 (Hu3 & Hs3 & Hst3).
  destruct (grown_stored rs' _ _ _ _ _ _ _ st3 Hf2 Hg2 Hu3 Hs3) as [Hf3 Hg3].
  { intros v Hv Hout. apply (user_stored_out _ _ _ _ _ Hst3 Hv). rewrite le_bytes_length. lia. }
  cbn [wp]. split; [done|]. split; [done|]. split; [done|]. split; [unfold PAGE_SIZE; lia|]. split; [done|].
  exists T1. split; [done|]. split; [done|]. exists (string_addrs (a + (k + 1) * 8) argv).
  assert (∀ w, a ≤ w < a + n → ¬ a + 8 * k ≤ w < a + 8 * k + 8 → user_byte st3 w = user_byte st2 w) as Hfr3.
  { intros w Hw Ho. apply (user_stored_out _ _ _ _ _ Hst3); [by apply Hua|]. rewrite le_bytes_length. lia. }
  split; [apply length_string_addrs|]. fold k. split; [lia|]. split.
  - unfold pointers. rewrite fmap_app, concat_app. apply user_bytes_app. fold (pointers (string_addrs (a + (k + 1) * 8) argv)).
    rewrite length_pointers, length_string_addrs. split.
    + apply (user_bytes_same st2); [done|]. rewrite length_pointers, length_string_addrs. intros w Hw. apply Hfr3; lia.
    + cbn [fmap list_fmap concat]. rewrite app_nil_r. replace (a + Z.of_nat (8 * length argv)) with (a + 8 * k) by lia.
      apply (user_stored_bytes st2); [done|lia|rewrite le_bytes_length; lia].
  - intros i s p Hs Hp. destruct (Hstr i s p Hs Hp) as (H1 & H2 & H3). split; [lia|]. split; [lia|].
    apply (user_bytes_same st2); [done|]. rewrite length_app. cbn [length]. intros w Hw. apply Hfr3; lia.
Qed.
End elf.
