(* ===== verification/ElfLoad.v ===== *)
(** * Loading a program: the program headers, the stack and the arguments put together *)
From S2P Require Import Prelude Bytes Slab Paging AddressSpace AddressSpaceSpec AddressSpaceExamples HeapProviders Hardware BitFields UserMemory Elf ElfSpec.
#[local] Open Scope string_scope.
#[local] Open Scope list_scope.
#[local] Open Scope Z_scope.
#[local] Arguments c_foreach : simpl never.
#[local] Arguments wrap : simpl never.
#[local] Arguments load_header : simpl never.

(** ** What later allocations leave alone *)
Definition apart (s e s' e' : Z) : Prop := e ≤ s' ∨ e' ≤ s.
(** The segment [g] is in memory, and only its pages may be executable. *)
Definition placed (st : mm) (T : gmap (list Z) Z) (g : segment) : Prop :=
  user_bytes st (seg_vaddr g) (seg_image g) ∧
  ∀ v, user_addr v → seg_start g ≤ v < seg_end g → ∃ e, leaf_at st T v = Some e ∧ ram_page (seg_exec g) e.

Lemma seg_image_length g : seg_ok g → Z.of_nat (length (seg_image g)) = seg_memsz g.
Proof. intros []. unfold seg_image. rewrite length_app, length_replicate. lia. Qed.

Section kept.
Context (s e : Z) (x : bool) (T : gmap (list Z) Z) (st : mm) (T' : gmap (list Z) Z) (st' : mm).
Hypothesis Hgr : grown s e x T st T' st'.

Lemma grown_bytes v l lo hi : apart lo hi s e → 0 ≤ lo → hi ≤ 2 ^ 47 → lo ≤ v → v + Z.of_nat (length l) ≤ hi →
  user_bytes st v l → user_bytes st' v l.
Proof.
  intros Ha Hlo Hhi Hv Hl H. apply (user_bytes_same st); [done|]. intros w Hw. unfold apart in Ha.
  apply (gr_byte _ _ _ _ _ _ _ Hgr); [unfold user_addr; lia|lia].
Qed.

Lemma grown_placed g : seg_ok g → apart (seg_start g) (seg_end g) s e → placed st T g → placed st' T' g.
Proof.
  intros Hg Ha [Hb Hl]. destruct (seg_pages g Hg) as (_ & _ & H1 & H2 & H3). split.
  - apply (grown_bytes _ _ (seg_start g) (seg_end g)); try done; [unfold PAGE_SIZE in *; lia|by pose proof (seg_high g Hg); lia|].
    by rewrite seg_image_length.
  - intros v Hv Hin. rewrite (gr_leaf _ _ _ _ _ _ _ Hgr); [by apply Hl|done|]. unfold apart in Ha. lia.
Qed.

Lemma grown_args a n argv : apart a (a + n) s e → 0 ≤ a → a + n ≤ 2 ^ 47 → args_at st a n argv → args_at st' a n argv.
Proof.
  intros Ha Hlo Hhi (ps & Hps & Hsz & Hp & Hs). exists ps. split; [done|]. split; [done|]. split.
  - eapply grown_bytes; try done. rewrite length_pointers, length_app, Hps. cbn [length]. lia.
  - intros i sv p Hi Hpi. destruct (Hs i sv p Hi Hpi) as (H1 & H2 & H3). split; [done|]. split; [done|].
    eapply grown_bytes; try done. rewrite length_app. cbn [length]. lia.
Qed.

Lemma grown_pages lo hi x' : apart lo hi s e →
  (∀ v, user_addr v → lo ≤ v < hi → ∃ en, leaf_at st T v = Some en ∧ ram_page x' en) →
  ∀ v, user_addr v → lo ≤ v < hi → ∃ en, leaf_at st' T' v = Some en ∧ ram_page x' en.
Proof. intros Ha H v Hv Hin. rewrite (gr_leaf _ _ _ _ _ _ _ Hgr); [by apply H|done|]. unfold apart in Ha. lia. Qed.
End kept.

Lemma ends_below_insert M s e rs : ends_below M rs → e ≤ M → ends_below M (insert_range s e rs).
Proof. intros H He s' e' [[= -> ->]|Hin]%elem_insert_range; [done|by eapply H]. Qed.

Lemma ends_below_mono M M' rs : ends_below M rs → M ≤ M' → ends_below M' rs.
Proof. intros H Hle s e Hin. specialize (H s e Hin). lia. Qed.

(** ** The table of program headers *)
Section program.
Context (read_file : Z → Z → outcome (list Z * Z)).

(** What an entry of the table asks for. *)
Inductive entry_loads (header h : list Z) : option segment → Prop :=
  | loads_segment g : phdr_field h "segment_type" = 1 → header_segment read_file h g → entry_loads header h (Some g)
  | loads_phdr g : phdr_field h "segment_type" = 6 → phdr_field h "flags" = 4 →
      phdr_field h "p_offset" = elf_field header "program_header_table_offset" →
      phdr_field h "p_filesz" = layout_size ElfProgramHeader * elf_field header "program_header_table_num_entries" →
      phdr_field h "p_memsz" = phdr_field h "p_filesz" →
      header_segment read_file h g → entry_loads header h (Some g)
  | loads_nothing : phdr_field h "segment_type" = 1685382482 ∨ phdr_field h "segment_type" = 1685382481 → entry_loads header h None.

Definition seg_count (g : segment) : Z := (seg_end g - seg_start g) `div` PAGE_SIZE.
Definition pages_of (l : list segment) : Z := foldr (λ g n, seg_count g + n) 0 l.

Record valid_exe (header prog_headers : list Z) (segs : list (option segment)) : Prop := {
  ve_header : read_file 0 (layout_size ElfFile) = Ok (header, layout_size ElfFile);
  ve_check : check_elf_header header = Ok ();
  ve_table : let n := elf_field header "program_header_table_num_entries" * elf_field header "program_header_table_entry_size" in
    read_file (elf_field header "program_header_table_offset") n = Ok (prog_headers, n);
  ve_count : Z.of_nat (length segs) = elf_field header "program_header_table_num_entries";
  ve_entries i o : segs !! i = Some o → entry_loads header (nth_header prog_headers (Z.of_nat i)) o;
  ve_ok : Forall seg_ok (omap id segs);
  ve_apart i j g g' : omap id segs !! i = Some g → omap id segs !! j = Some g' → i ≠ j →
    apart (seg_start g) (seg_end g) (seg_start g') (seg_end g')
}.

Lemma load_header_segment header h g s : entry_loads header h (Some g) →
  load_header read_file header h s = load_segment read_file h s ∧ header_segment read_file h g.
Proof.
  intros H. inversion H as [g0 E Hh|g0 E E1 E2 E3 E4 Hh|]; subst; (split; [|done]); unfold load_header; rewrite E.
  - done.
  - change (6 =? 6) with true. cbv iota. rewrite E1, E4, E2, E3, !Z.eqb_refl. done.
Qed.

Lemma load_header_nothing header h s : entry_loads header h None → load_header read_file header h s = Ok s.
Proof. intros H. inversion H as [| |[E|E]]; unfold load_header; by rewrite E. Qed.

(** The address space with the segments [L] loaded. *)
Record loaded (st0 st1 : mm) (L : list segment) (s : list VirtualMemoryRegion * mm) (rs : list (Z * Z)) (T : gmap (list Z) Z) : Prop := {
  ld_tracker : s.1 = regions_of PAGE_SIZE rs;
  ld_filling : filling st0 rs T s.2;
  ld_cr3 : cr3 s.2 = cr3 st1;
  ld_below : ends_below (2 ^ 46) rs;
  ld_ranges a : in_ranges rs a ↔ ∃ g, g ∈ L ∧ seg_start g ≤ a < seg_end g;
  ld_placed : Forall (placed s.2 T) L;
  ld_count : Z.of_nat (free_pages (slab st1)) ≤ 4 * pages_of L + Z.of_nat (free_pages (slab s.2))
}.

Lemma pages_of_app l k : pages_of (l ++ k) = pages_of l + pages_of k.
Proof. induction l as [|g l IH]; [done|]. cbn [pages_of foldr app] in *. fold (pages_of (l ++ k)) (pages_of l). lia. Qed.

Lemma seg_count_nonneg g : seg_ok g → 0 ≤ seg_count g.
Proof. intros Hg. destruct (seg_pages g Hg) as (_ & _ & _ & H1 & H2). pose proof (seg_nonempty g Hg). unfold seg_count. dlia. Qed.

Lemma pages_of_nonneg l : Forall seg_ok l → 0 ≤ pages_of l.
Proof.
  induction 1 as [|g l Hg _ IH]; [done|]. cbn [pages_of foldr]. fold (pages_of l). pose proof (seg_count_nonneg g Hg). lia.
Qed.

Lemma load_one_wp st0 st1 header h L g s rs T : loaded st0 st1 L s rs T → entry_loads header h (Some g) → seg_ok g → Forall seg_ok L →
  (∀ g', g' ∈ L → apart (seg_start g') (seg_end g') (seg_start g) (seg_end g)) →
  4 * (pages_of L + seg_count g) ≤ Z.of_nat (free_pages (slab st1)) →
  wp False (load_header read_file header h s) (λ s', ∃ rs' T', loaded st0 st1 (L ++ [g]) s' rs' T').
Proof.
  intros [Etr Hf Ecr Hb Hr Hp Hc] He Hg HL Ha Hfree. destruct (load_header_segment header h g s He) as [-> Hh].
  destruct s as [tr st]. cbn [fst snd] in *. subst tr. rewrite Forall_forall in HL, Hp.
  eapply wp_mono; [apply (load_segment_wp st0 read_file rs T st h g Hf Hh Hg)|].
  - intros a Hin (g' & Hg' & Hin')%Hr. specialize (Ha g' Hg'). unfold apart in Ha. lia.
  - fold (seg_count g). lia.
  - intros [tr st'] (-> & T' & Hf' & Hgr & Hby). exists (insert_range (seg_start g) (seg_end g) rs), T'. constructor; cbn [fst snd]; try done.
    + by rewrite (gr_cr3 _ _ _ _ _ _ _ Hgr).
    + apply ends_below_insert; [done|]. apply Hg.
    + intros a. rewrite in_insert_range, Hr. setoid_rewrite elem_of_app. split.
      * intros [Hin|(g' & Hg' & Hin)]; [exists g; split; [right; by left|done]|exists g'; split; [by left|done]].
      * intros (g' & [Hg'| ->%list_elem_of_singleton] & Hin); [right; by exists g'|by left].
    + apply Forall_app. split; [|constructor; [|done]].
      * apply Forall_forall. intros g' Hg'. eapply grown_placed; [done|by apply HL|by apply Ha|by apply Hp].
      * split; [done|]. intros v Hv. apply (gr_new _ _ _ _ _ _ _ Hgr v Hv).
    + rewrite pages_of_app. cbn [pages_of foldr]. pose proof (gr_count _ _ _ _ _ _ _ Hgr) as Hc'. fold (seg_count g) in Hc'. lia.
Qed.

Lemma load_headers_wp st0 st1 header prog_headers segs T : valid_exe header prog_headers segs →
  user_space st0 T st1 → (∀ v, user_addr v → leaf_at st1 T v = None) →
  4 * pages_of (omap id segs) ≤ Z.of_nat (free_pages (slab st1)) →
  wp False (c_foreach 0 (Z.of_nat (length segs)) (λ i, load_header read_file header (nth_header prog_headers i)) (initial_tracker, st1))
    (λ s, ∃ rs T', loaded st0 st1 (omap id segs) s rs T').
Proof.
  intros Hve Hu Hn Hfree. pose proof (ve_ok _ _ _ Hve) as Hok.
  eapply wp_mono; [apply (wp_foreach False (λ i s, ∃ rs T', loaded st0 st1 (omap id (take (Z.to_nat i) segs)) s rs T')); [lia|..]|].
  - exists [], T. constructor; cbn [fst snd]; try done.
    + constructor; [done|done|]. intros v Hv. rewrite Hn by done. split; [by intros [? ?]|by intros ?%in_ranges_nil].
    + by intros s e ?%not_elem_of_nil.
    + intros a. split; [by intros ?%in_ranges_nil|by intros (g & ?%not_elem_of_nil & _)].
  - intros i s Hi (rs & T' & Hl). set (k := Z.to_nat i) in *.
    destruct (lookup_lt_is_Some_2 segs k ltac:(lia)) as [o Ho]. pose proof (ve_entries _ _ _ Hve k o Ho) as He.
    replace (Z.of_nat k) with i in He by lia. replace (Z.to_nat (i + 1)) with (S k) by lia.
    pose proof (take_drop_middle _ _ _ Ho) as Esplit.
    rewrite (take_S_r _ _ _ Ho), omap_app. destruct o as [g|]; cbn [omap list_omap id].
    + assert (omap id segs = omap id (take k segs) ++ g :: omap id (drop (S k) segs)) as Eseg.
      { rewrite <-Esplit at 1. by rewrite omap_app. }
      set (L := omap id (take k segs)) in *. rewrite Eseg in Hok, Hfree.
      apply Forall_app in Hok as [HokL Hokg]. inversion Hokg as [|? ? Hg Hrest]; subst.
      rewrite pages_of_app in Hfree. cbn [pages_of foldr] in Hfree. fold (pages_of (omap id (drop (S k) segs))) in Hfree.
      pose proof (pages_of_nonneg _ Hrest).
      apply (load_one_wp st0 st1 header _ L g s rs T'); try done; [|lia].
      intros g' (j & Hj)%list_elem_of_lookup. pose proof (lookup_lt_Some _ _ _ Hj).
      apply (ve_apart _ _ _ Hve j (length L)); [|by rewrite Eseg, list_lookup_middle|lia].
      rewrite Eseg. by apply lookup_app_l_Some.
    + rewrite app_nil_r. rewrite load_header_nothing by done. cbn [wp]. by exists rs, T'.
  - intros s. rewrite Nat2Z.id, firstn_all. done.
Qed.

(** ** The new process *)
Definition user_page_at (st : mm) (v : Z) (x : bool) : Prop := ∃ e, mmu_entry st (cr3 st) v = Some e ∧ ram_page x e.
Definition args_pages (argv : list (list Z)) : Z := page_up (args_size argv).

(** What the address space of the process holds when it starts. *)
Record process_image (st : mm) (header : list Z) (segs : list segment) (argv envp : list (list Z)) (prog : LoadedProgram) : Prop := {
  pi_segments g : g ∈ segs → user_bytes st (seg_vaddr g) (seg_image g);
  pi_exec g v : g ∈ segs → seg_start g ≤ v < seg_end g → user_page_at st v (seg_exec g);
  pi_stack v : rsp (initial_state prog) - STACK_SIZE ≤ v < rsp (initial_state prog) → user_page_at st v false;
  pi_argv : args_at st (rsi (initial_state prog)) (args_pages argv) argv;
  pi_argc : rdi (initial_state prog) = Z.of_nat (length argv);
  pi_envp : args_at st (rdx (initial_state prog)) (args_pages envp) envp;
  pi_entry : rip (initial_state prog) = elf_field header "entry_offset";
  pi_user : cs (initial_state prog) = 0x1B ∧ ss (initial_state prog) = 0x23 ∧ rflags (initial_state prog) = 0x202;
  pi_heap : ram_size_bytes (slab st) ≤ 2 ^ 45 → PAGE_SIZE ≤ heap_start prog ∧
    ∀ v, heap_start prog ≤ v < heap_start prog + ram_size_bytes (slab st) → user_byte st v = None
}.

(** The areas after the segments: the stack, then the two arrays of strings. *)
Definition pages_needed (segs : list (option segment)) (argv envp : list (list Z)) : Z :=
  pages_of (omap id segs) + (STACK_SIZE + args_pages argv + args_pages envp) `div` PAGE_SIZE.

Lemma aligned_div p q : aligned p → aligned q → (p + q) `div` PAGE_SIZE = p `div` PAGE_SIZE + q `div` PAGE_SIZE.
Proof. unfold aligned. intros. dlia. Qed.

Lemma args_pages_bounds argv : args_size argv ≤ 2 ^ 40 → aligned (args_pages argv) ∧ 0 < args_pages argv ≤ 2 ^ 40 + PAGE_SIZE.
Proof.
  intros H. pose proof (args_size_nonneg argv). destruct (page_up_spec (args_size argv)) as [H1 H2].
  split; [done|]. unfold args_pages. lia.
Qed.

Lemma found_apart rs s e a b : (∀ v, a ≤ v < b → ¬ in_ranges rs v) → (∀ v, s ≤ v < e → in_ranges rs v) → a < b → s < e → apart s e a b.
Proof. intros H1 H2 Hab Hse. destruct (decide (e ≤ a)) as [?|?]; [by left|]. right. destruct (decide (b ≤ s)); [done|].
  exfalso. apply (H1 (Z.max a s)); [lia|]. apply H2. lia.
Qed.

Lemma grown_placed_all a b x T st T' st' rs L : grown a b x T st T' st' → Forall seg_ok L →
  (∀ g v, g ∈ L → seg_start g ≤ v < seg_end g → in_ranges rs v) → (∀ v, a ≤ v < b → ¬ in_ranges rs v) → a < b →
  Forall (placed st T) L → Forall (placed st' T') L.
Proof.
  rewrite !Forall_forall. intros Hg HL Hin Hd Hab Hp g Hgl. pose proof (HL g Hgl) as Hgo.
  eapply grown_placed; [exact Hg|done| |by apply Hp]. eapply found_apart; [done|intros v Hv; apply (Hin g v Hgl Hv)|done|].
  destruct (seg_pages g Hgo) as (_ & _ & _ & H1 & H2). pose proof (seg_nonempty g Hgo). lia.
Qed.

(** The stack, the arguments and the environment, after the segments. *)
Lemma areas_wp st0 st1 L s rs T argv envp : loaded st0 st1 L s rs T → Forall seg_ok L →
  Forall (Forall is_byte) argv → Forall (Forall is_byte) envp → args_fit argv → args_fit envp → args_size argv ≤ 2 ^ 40 → args_size envp ≤ 2 ^ 40 →
  4 * (pages_of L + (STACK_SIZE + args_pages argv + args_pages envp) `div` PAGE_SIZE) ≤ Z.of_nat (free_pages (slab st1)) →
  wp False (
    '(stack_virt_base, tracker) ← find_contiguous_virtual_range s.1 STACK_SIZE;
    '(tracker, st) ← allocate_virtual_range tracker stack_virt_base (u64 (stack_virt_base + STACK_SIZE)) false s.2;
    '(argc, a, tracker, st) ← setup_args_for_new_process tracker argv st;
    '(_, e, tracker, st) ← setup_args_for_new_process tracker envp st;
    Ok (stack_virt_base, argc, a, e, tracker, st)) (λ '(stack, argc, a, e, tracker, st), ∃ rs' T',
      tracker = regions_of PAGE_SIZE rs' ∧ filling st0 rs' T' st ∧ ends_below (2 ^ 46 + 2 ^ 43) rs' ∧ cr3 st = cr3 st1 ∧
      0 ≤ stack ∧ stack + STACK_SIZE ≤ 2 ^ 47 ∧ argc = Z.of_nat (length argv) ∧
      Forall (placed st T') L ∧
      (∀ v, user_addr v → stack ≤ v < stack + STACK_SIZE → ∃ en, leaf_at st T' v = Some en ∧ ram_page false en) ∧
      args_at st a (args_pages argv) argv ∧ args_at st e (args_pages envp) envp).
Proof.
  intros [Etr Hf Ecr Hb Hr Hp Hc] HL Hby1 Hby2 Hfit1 Hfit2 Hsz1 Hsz2 Hfree. destruct s as [tr st]. cbn [fst snd] in *. subst tr.
  destruct (args_pages_bounds _ Hsz1) as [Ha1 Hn1], (args_pages_bounds _ Hsz2) as [Ha2 Hn2].
  set (n1 := args_pages argv) in *. set (n2 := args_pages envp) in *.
  assert (aligned STACK_SIZE) as HaS by done.
  assert (aligned (STACK_SIZE + n1)) as HaS1 by (unfold aligned in *; dlia).
  rewrite (aligned_div (STACK_SIZE + n1) n2), (aligned_div STACK_SIZE n1) in Hfree by done.
  pose proof (pages_of_nonneg _ HL) as HpL.
  assert (0 ≤ n1 `div` PAGE_SIZE ∧ 0 ≤ n2 `div` PAGE_SIZE ∧ STACK_SIZE `div` PAGE_SIZE = 16) as (Hd1 & Hd2 & EdS) by (split_and!; [dlia|dlia|done]).
  assert (STACK_SIZE = 65536) as ES by done. assert (PAGE_SIZE = 4096) as EP by done.
  destruct (find_allocate_wp st0 read_file rs T st STACK_SIZE (2 ^ 46) Hf) as (b & -> & Hba & Hblo & HbM & Hbhi & Hbd & Hwp); [lia|done|lia|done|lia|lia|].
  rewrite Ok_bind. rewrite (wrap_small 64 (b + _)) by lia. apply wp_bind. eapply wp_mono; [exact Hwp|].
  intros [tr st2] (-> & T2 & Hf2 & Hg2). pose proof (gr_count _ _ _ _ _ _ _ Hg2) as Hc2. rewrite Z.add_simpl_l in Hc2.
  set (rs2 := insert_range b _ rs) in *. assert (ends_below (2 ^ 46 + 65536) rs2) as Hb2.
  { apply ends_below_insert; [eapply ends_below_mono; [done|lia]|lia]. }
  apply wp_bind. eapply wp_mono; [apply (setup_args_wp st0 read_file rs2 T2 st2 argv (2 ^ 46 + 65536) Hf2 Hby1 Hfit1); [lia|exact Hb2|..]; fold (args_pages argv) n1; lia|].
  fold (args_pages argv) n1. intros [[[argc a] tr] st3] (-> & -> & Halo & Hahi & Had & T3 & Hf3 & Hg3 & Hargs).
  pose proof (gr_count _ _ _ _ _ _ _ Hg3) as Hc3. rewrite Z.add_simpl_l in Hc3.
  set (rs3 := insert_range a _ rs2) in *. assert (ends_below (2 ^ 46 + 65536 + n1) rs3) as Hb3.
  { apply ends_below_insert; [eapply ends_below_mono; [done|lia]|lia]. }
  apply wp_bind. eapply wp_mono; [apply (setup_args_wp st0 read_file rs3 T3 st3 envp (2 ^ 46 + 65536 + n1) Hf3 Hby2 Hfit2); [lia|exact Hb3|..]; fold (args_pages envp) n2; lia|].
  fold (args_pages envp) n2. intros [[[argc' e] tr] st4] (-> & -> & Helo & Hehi & Hed & T4 & Hf4 & Hg4 & Henv). cbn [wp].
  assert (∀ g v, g ∈ L → seg_start g ≤ v < seg_end g → in_ranges rs v) as Hsegs by (intros g v Hg Hv; apply Hr; by exists g).
  assert (∀ v, in_ranges rs v → in_ranges rs2 v) as Hin2 by (intros v Hv; apply in_insert_range; by right).
  assert (∀ v, in_ranges rs2 v → in_ranges rs3 v) as Hin3 by (intros v Hv; apply in_insert_range; by right).
  assert (∀ v, b ≤ v < b + STACK_SIZE → in_ranges rs2 v) as HinS by (intros v Hv; apply in_insert_range; by left).
  assert (apart b (b + STACK_SIZE) a (a + n1)) as HapS1 by (eapply found_apart; [done|done|lia|lia]).
  assert (apart b (b + STACK_SIZE) e (e + n2)) as HapS2 by (eapply found_apart; [done|by intros v Hv; apply Hin3, HinS|lia|lia]).
  assert (apart a (a + n1) e (e + n2)) as HapA.
  { eapply found_apart; [done|intros v Hv; apply in_insert_range; left; exact Hv|lia|lia]. }
  exists (insert_range e (e + n2) rs3), T4. split; [done|]. split; [done|]. split.
  { apply ends_below_insert; [eapply ends_below_mono; [done|lia]|lia]. }
  split; [rewrite (gr_cr3 _ _ _ _ _ _ _ Hg4), (gr_cr3 _ _ _ _ _ _ _ Hg3), (gr_cr3 _ _ _ _ _ _ _ Hg2); done|].
  split; [lia|]. split; [lia|]. split; [done|]. split; [|split; [|split; [|done]]].
  - eapply grown_placed_all; [exact Hg4|done|intros g v Hg Hv; apply Hin3, Hin2, (Hsegs g v Hg Hv)|done|lia|].
    eapply grown_placed_all; [exact Hg3|done|intros g v Hg Hv; apply Hin2, (Hsegs g v Hg Hv)|done|lia|].
    by eapply grown_placed_all; [exact Hg2| |exact Hsegs|exact Hbd|lia|].
  - eapply grown_pages; [exact Hg4|done|]. eapply grown_pages; [exact Hg3|done|]. apply (gr_new _ _ _ _ _ _ _ Hg2).
  - eapply grown_args; [exact Hg4|done|lia|lia|done].
Qed.

(** The heap goes into the first gap that could hold all of RAM. *)
Lemma heap_wp st0 rs T st : filling st0 rs T st → ends_below (2 ^ 46 + 2 ^ 43) rs → ∃ h,
  find_contiguous_virtual_range (regions_of PAGE_SIZE rs) (ram_size_bytes (slab st)) = Ok (h, regions_of PAGE_SIZE rs) ∧
  (ram_size_bytes (slab st) ≤ 2 ^ 45 → PAGE_SIZE ≤ h ∧ ∀ v, h ≤ v < h + ram_size_bytes (slab st) → user_byte st v = None).
Proof.
  intros Hf Hb. assert (0 ≤ ram_size_bytes (slab st)) as H0 by (apply Z.mod_pos_bound; done).
  destruct (find_regions PAGE_SIZE rs _ (fl_ranges _ _ _ _ Hf) H0 eq_refl) as (h & E & Hcase). exists h. split; [done|]. intros Hram.
  destruct Hcase as [[-> Hbad]|(_ & (H1 & H2 & H3) & _)].
  - specialize (Hbad (2 ^ 46 + 2 ^ 43) ltac:(done) Hb). unfold USER_TOP in Hbad. lia.
  - split; [done|]. intros v Hv. apply eq_None_not_Some. unfold USER_TOP in H2.
    rewrite (filling_byte st0 rs T) by (done || (unfold user_addr, PAGE_SIZE in *; lia)). by apply H3.
Qed.

Lemma user_page_leaf st0 rs T st v x : filling st0 rs T st → (∃ e, leaf_at st T v = Some e ∧ ram_page x e) → user_page_at st v x.
Proof.
  intros Hf (e & He & Hr). exists e. split; [|done]. rewrite (mmu_entry_leaf _ _ T); [done|].
  apply (aspace_tree _ _ _ (us_aspace _ _ _ (fl_space _ _ _ _ Hf))).
Qed.

(** C1: [instantiate_ELF] on a valid executable, when there are enough free pages and the strings of the arguments and of the environment fit in the pages the
    loader computes for them ([args_fit], up to 2^40 bytes; what happens when they do not fit is [setup_args_overruns]): the address space holds the segments,
    the stack and the arguments, the registers point at them, and the loader is back in its own address space with its memory untouched. *)
Theorem instantiate_ELF_spec st kroot K header prog_headers segs argv envp :
  kernel_table st kroot K → valid_exe header prog_headers segs →
  Forall (Forall is_byte) argv → Forall (Forall is_byte) envp → args_fit argv → args_fit envp → args_size argv ≤ 2 ^ 40 → args_size envp ≤ 2 ^ 40 →
  1 + 4 * pages_needed segs argv envp ≤ Z.of_nat (free_pages (slab st)) →
  ∃ prog st', instantiate_ELF read_file argv envp st = Ok (prog, st') ∧ cr3 st' = cr3 st ∧ in_use_kept st st' ∧
    process_image (set_pml4_phys (page_table_root prog) st') header (omap id segs) argv envp prog.
Proof.
  intros Hk Hve Hby1 Hby2 Hfit1 Hfit2 Hsz1 Hsz2 Hfree. cut (wp False (instantiate_ELF read_file argv envp st) (λ '(prog, st'),
    cr3 st' = cr3 st ∧ in_use_kept st st' ∧ process_image (set_pml4_phys (page_table_root prog) st') header (omap id segs) argv envp prog)).
  { intros H%wp_total_1. destruct H as ([prog st'] & E & H). by exists prog, st'. }
  pose proof Hve as [Ehd Eck Etab Ecnt _ Hok _]. unfold instantiate_ELF. rewrite Ehd, Ok_bind, Z.eqb_refl.
  change (hcf_if (negb true)) with (Ok ()). rewrite Ok_bind, Eck, Ok_bind. apply wp_bind.
  unfold pages_needed in Hfree. pose proof (pages_of_nonneg _ Hok) as Hpn.
  destruct (args_pages_bounds _ Hsz1) as [Ha1 Hn1], (args_pages_bounds _ Hsz2) as [Ha2 Hn2].
  assert (0 ≤ (STACK_SIZE + args_pages argv + args_pages envp) `div` PAGE_SIZE) as Hdn by (change STACK_SIZE with 65536; dlia).
  eapply wp_mono_halt; [by eapply clean_space_wp|lia|]. intros [new st1] [(T & Hu & Hnone) Hcnt]. set (st2 := set_pml4_phys new st1) in *.
  rewrite Etab, Ok_bind, Z.eqb_refl. change (hcf_if (negb true)) with (Ok ()). rewrite Ok_bind, <-Ecnt.
  apply wp_bind. eapply wp_mono; [apply (load_headers_wp st st2 header prog_headers segs T Hve Hu Hnone); lia|].
  intros [tr st3] (rs & T' & Hl).
  pose proof (areas_wp st st2 _ _ rs T' argv envp Hl Hok Hby1 Hby2 Hfit1 Hfit2 Hsz1 Hsz2 ltac:(lia)) as Hareas. cbn [fst snd] in Hareas.
  apply wp_total_1 in Hareas as ([[[[[stack argc] a] e] tr'] st4] & E & rs' & T4 & -> & Hf & Hb & Ecr & Hs0 & Hs1 & -> & Hp & Hst & Hargv & Henv).
  destruct (heap_wp st rs' T4 st4 Hf Hb) as (h & Eh & Hheap). outcome_inv. rewrite E0, Ok_bind, E1, Ok_bind, E2, Ok_bind, E3, Ok_bind, Eh, Ok_bind.
  cbn [wp cr3 set_pml4_phys]. split; [done|]. split; [apply Hf|]. cbn [page_table_root].
  assert (set_pml4_phys new (set_pml4_phys (get_pml4_phys st) st4) = st4) as -> by (destruct st4; cbn in Ecr |- *; by rewrite Ecr).
  rewrite Forall_forall in Hok, Hp. constructor; cbn [initial_state heap_start rsp rsi rdi rdx rip cs ss rflags]; try done.
  - intros g Hg. by apply Hp.
  - intros g v Hg Hv. eapply user_page_leaf; [done|]. destruct (Hp g Hg) as [_ Hleaf]. apply Hleaf; [|done].
    destruct (seg_pages g (Hok g Hg)) as (_ & _ & H1 & _). pose proof (seg_high g (Hok g Hg)). unfold user_addr, PAGE_SIZE in *. lia.
  - rewrite wrap_small by (change STACK_SIZE with 65536 in *; lia). intros v Hv. eapply user_page_leaf; [done|]. apply Hst; [unfold user_addr|]; lia.
Qed.
End program.

(** ** Arguments that do not fit *)
Section overrun.
Context (st0 : mm).

Lemma store_bytes_cases T l : ∀ st v, user_space st0 T st → Forall is_byte l → 0 ≤ v → v + Z.of_nat (length l) ≤ 2 ^ 47 →
  store_bytes v l st = Undef ∨ ∃ st', store_bytes v l st = Ok st' ∧ user_space st0 T st' ∧ same_maps T st st' ∧ user_stored st st' v l.
Proof.
  induction l as [|b l IH]; intros st v H Hl Hv0 Hv; cbn [length] in *.
  { right. exists st. split; [done|]. split; [done|]. split; [apply same_maps_refl|]. intros w Hw. cbn [length]. by rewrite decide_False by lia. }
  inversion Hl as [|? ? Hb Hl']; subst. cbn [store_bytes]. destruct (user_byte st v) as [b0|] eqn:Eb.
  - assert (is_Some (user_byte st v)) as Hs by (by rewrite Eb).
    destruct (wp_total_1 _ _ (store_byte_wp st0 T st v b H ltac:(unfold user_addr; lia) Hs Hb)) as (st1 & -> & H1 & E1 & E2 & E3 & Hb1).
    rewrite Ok_bind. destruct (IH st1 (v + 1) H1 Hl' ltac:(lia) ltac:(lia)) as [->|(st2 & -> & H2 & Hm & Hst)]; [by left|right].
    exists st2. split; [done|]. split; [done|]. split; [by eapply same_maps_trans|by eapply user_stored_cons].
  - left. unfold store_byte. unfold user_byte in Eb. destruct (translate st v); [discriminate Eb|]. done.
Qed.

(** The last string is stored last, and its terminator is where the count says. *)
Lemma store_args_cases T argv : ∀ array curr st, user_space st0 T st → Forall (Forall is_byte) argv → 0 ≤ array →
  array + 8 * Z.of_nat (length argv) ≤ curr → curr + strings_span argv ≤ 2 ^ 47 →
  store_args array curr argv st = Undef ∨ ∃ st', store_args array curr argv st = Ok (array + 8 * Z.of_nat (length argv), st') ∧
    user_space st0 T st' ∧ same_maps T st st' ∧ (argv = [] → st' = st) ∧ (argv ≠ [] → user_byte st' (curr + strings_span argv - 2) = Some 0).
Proof.
  induction argv as [|s argv IH]; intros array curr st Hu Hby Ha Hac Htop; cbn [store_args length] in *.
  { right. exists st. rewrite Z.mul_0_r, Z.add_0_r. split; [done|]. split; [done|]. split; [apply same_maps_refl|done]. }
  cbn [strings_span foldr] in *. fold (strings_span argv) in *. pose proof (strings_span_nonneg argv) as Hsp.
  inversion Hby as [|? ? Hbs Hby']; subst.
  destruct (store_bytes_cases T (le_bytes 8 curr) st array Hu) as [->|(st1 & -> & Hu1 & Hm1 & _)]; [apply le_bytes_byte|done|rewrite le_bytes_length; lia|by left|].
  rewrite Ok_bind. assert (length (s ++ [0]) = S (length s)) as Elen by (rewrite length_app; simpl; lia).
  destruct (store_bytes_cases T (s ++ [0]) st1 curr Hu1) as [->|(st2 & -> & Hu2 & Hm2 & Hst2)];
    [apply Forall_app; split; [done|by repeat constructor]|lia|rewrite Elen; lia|by left|].
  rewrite Ok_bind, (wrap_small 64 (array + 8)), (wrap_small 64 (curr + _ + 2)) by lia.
  destruct (IH (array + 8) (curr + Z.of_nat (length s) + 2) st2 Hu2 Hby') as [->|(st3 & -> & Hu3 & Hm3 & Hnil & H0)]; [lia|lia|lia|by left|right].
  exists st3. split; [do 2 f_equal; lia|]. split; [done|]. split; [by eapply same_maps_trans, same_maps_trans|]. split; [done|]. intros _.
  destruct argv as [|s' argv].
  - rewrite Hnil by done. cbn [strings_span foldr]. rewrite Hst2 by (unfold user_addr; lia). rewrite decide_True by (rewrite Elen; lia).
    rewrite lookup_app_r by lia. by replace (Z.to_nat _ - length s)%nat with 0%nat by lia.
  - rewrite <-H0 by done. f_equal. lia.
Qed.

(** C35: When the strings do not fit, the last terminator is beyond the pages: the store faults, or it changes another area of
    the new process. *)
Theorem setup_args_overruns rs T st argv M : filling st0 rs T st → Forall (Forall is_byte) argv → ¬ args_fit argv →
  PAGE_SIZE ≤ M → ends_below M rs → M + 2 * args_pages argv ≤ 2 ^ 47 - PAGE_SIZE →
  4 * (args_pages argv `div` PAGE_SIZE) ≤ Z.of_nat (free_pages (slab st)) →
  setup_args_for_new_process (regions_of PAGE_SIZE rs) argv st = Undef ∨
  ∃ a tr st' w, setup_args_for_new_process (regions_of PAGE_SIZE rs) argv st = Ok (Z.of_nat (length argv), a, tr, st') ∧
    a + args_pages argv ≤ w ∧ in_ranges rs w ∧ user_byte st' w = Some 0.
Proof.
  intros Hf Hby Hfit HM He Htop Hfree. unfold args_fit, args_pages in *. pose proof (args_size_nonneg argv) as Hsz. pose proof (args_count argv) as Hcnt.
  destruct (page_up_spec (args_size argv)) as [Hup Hal]. set (n := page_up (args_size argv)) in *. set (k := Z.of_nat (length argv)) in *.
  assert (strings_span argv ≤ n) as Hspan.
  { cut (strings_span argv ≤ args_size argv); [lia|]. clear. induction argv as [|s argv IH]; cbn [strings_span args_size foldr] in *; [done|].
    fold (strings_span argv) (args_size argv) in *. lia. }
  unfold setup_args_for_new_process. rewrite args_bytes_spec by (unfold PAGE_SIZE in *; lia). fold n.
  destruct (find_allocate_wp st0 (λ _ _, Undef) rs T st n M Hf ltac:(lia) Hal HM He ltac:(lia) Hfree) as (a & -> & Haa & Hlo & HaM & Hhi & Hd & Hwp).
  rewrite Ok_bind. unfold PAGE_SIZE in Hlo, Hhi. rewrite (wrap_small 64 (a + n)) by lia.
  destruct (wp_total_1 _ _ Hwp) as ([tr st1] & -> & -> & T1 & Hf1 & Hg1). rewrite Ok_bind. fold k. rewrite (wrap_small 64 (a + _)) by lia.
  destruct (store_args_cases T1 argv a (a + (k + 1) * 8) st1 (fl_space _ _ _ _ Hf1) Hby) as [->|(st2 & -> & Hu2 & Hm2 & _ & H0)]; [lia|fold k; lia|lia|by left|].
  rewrite Ok_bind. fold k.
  destruct (store_bytes_cases T1 (le_bytes 8 0) st2 (a + 8 * k) Hu2) as [->|(st3 & -> & Hu3 & Hm3 & Hst3)]; [apply le_bytes_byte|lia|rewrite le_bytes_length; lia|by left|].
  rewrite Ok_bind. right. assert (argv ≠ []) as Hne by (intros ->; apply Hfit; cbn; lia).
  set (w := a + (k + 1) * 8 + strings_span argv - 2) in *. assert (user_addr w) as Hw by (unfold user_addr; lia).
  assert (user_byte st3 w = Some 0) as Hw0.
  { rewrite (user_stored_out _ _ _ _ _ Hst3 Hw); [by apply H0|]. rewrite le_bytes_length. lia. }
  exists a. eexists. exists st3, w. split; [reflexivity|]. split; [lia|]. split; [|done].
  destruct (same_maps_trans _ _ _ _ Hm2 Hm3) as (_ & _ & Hleaf).
  assert (in_ranges (insert_range a (a + n) rs) w) as [?|?]%in_insert_range; [|lia|done].
  apply (fl_maps _ _ _ _ Hf1 w Hw). rewrite <-Hleaf, leaf_at_page. apply (fmap_is_Some (λ e, phys_byte st3 (frame_of e + w `mod` PAGE_SIZE))).
  rewrite <-(user_byte_leaf st0 T1 st3 w Hu3), Hw0. by eexists.
Qed.
End overrun.

(** ** Examples: a program loaded on a concrete machine

    128 pages of RAM at 1 MiB; the executable has one segment of four bytes of code and four of zeros at 0x400000,
    and a GNU_STACK header. *)
Definition elf_slab : phys_state := PhysState root_ex 128 (replicate 128 false).
Definition elf_mm : mm := MM elf_slab ∅ root_ex 0xffff800000000000 (0xffff800000000000 + 4096) 0 [].

Definition ex_header : list Z :=
  [0x7F; 69; 76; 70; 2; 1; 1; 0] ++ replicate 8 0 ++ le_bytes 2 2 ++ le_bytes 2 0x3E ++ le_bytes 4 1 ++ le_bytes 8 0x400000 ++
  le_bytes 8 64 ++ le_bytes 8 0 ++ le_bytes 4 0 ++ le_bytes 2 64 ++ le_bytes 2 56 ++ le_bytes 2 2 ++ le_bytes 2 0 ++ le_bytes 2 0 ++ le_bytes 2 0.
Definition ex_phdr (type flags offset vaddr filesz memsz : Z) : list Z :=
  le_bytes 4 type ++ le_bytes 4 flags ++ le_bytes 8 offset ++ le_bytes 8 vaddr ++ le_bytes 8 0 ++ le_bytes 8 filesz ++ le_bytes 8 memsz ++ le_bytes 8 4096.
Definition ex_table : list Z := ex_phdr 1 5 176 0x400000 4 8 ++ ex_phdr 1685382481 6 0 0 0 0.
Definition ex_code : list Z := [0x90; 0x0F; 0x05; 0xC3].
Definition ex_file : list Z := ex_header ++ ex_table ++ ex_code.
Definition ex_read (offset size : Z) : outcome (list Z * Z) :=
  let l := take (Z.to_nat size) (drop (Z.to_nat offset) ex_file) in Ok (l, Z.of_nat (length l)).
Definition ex_segs : list (option segment) := [Some (Seg 0x400000 ex_code 8 true); None].
Definition ex_argv : list (list Z) := [[108; 115]; [45; 108]].

Lemma elf_kernel : kernel_table elf_mm 4096 {[ [] := 4096 ]}.
Proof. apply kernel_table_ex; [done| |done|]; [constructor; [constructor|]; done|]. intros i Hi. done. Qed.

Lemma ex_valid : valid_exe ex_read ex_header ex_table ex_segs.
Proof.
  constructor; [done|done|vm_compute; reflexivity|done|..].
  - intros [|[|i]] o Ho; [| |done]; injection Ho as <-.
    + apply loads_segment; [done|]. constructor; vm_compute; reflexivity.
    + apply loads_nothing. by right.
  - repeat constructor; done.
  - intros [|i] [|j] g g' Hi Hj Hne; done.
Qed.

Lemma instantiate_ELF_spec_witness :
  ∃ prog st', instantiate_ELF ex_read ex_argv [] elf_mm = Ok (prog, st') ∧ cr3 st' = root_ex ∧
    (∀ i b, (ex_code ++ [0; 0; 0; 0]) !! i = Some b → user_byte (set_pml4_phys (page_table_root prog) st') (0x400000 + Z.of_nat i) = Some b) ∧
    args_at (set_pml4_phys (page_table_root prog) st') (rsi (initial_state prog)) 4096 ex_argv.
Proof.
  destruct (instantiate_ELF_spec ex_read elf_mm 4096 _ ex_header ex_table ex_segs ex_argv [] elf_kernel ex_valid) as (prog & st' & E & Ecr & _ & [Hsegs _ _ Hargv _ _ _ _ _]).
  - apply (bool_decide_unpack _). vm_compute. exact I.
  - done.
  - apply (bool_decide_unpack _). vm_compute. exact I.
  - apply (bool_decide_unpack _). vm_compute. exact I.
  - done.
  - done.
  - apply (bool_decide_unpack _). vm_compute. exact I.
  - exists prog, st'. split; [exact E|]. split; [exact Ecr|]. split; [|exact Hargv]. apply (Hsegs (Seg 0x400000 ex_code 8 true)). by left.
Defined.

Definition loaded_prog (o : outcome (LoadedProgram * mm)) : option LoadedProgram :=
  match o with Ok (prog, _) => Some prog | _ => None end.

Example instantiate_ELF_runs : loaded_prog (instantiate_ELF ex_read ex_argv [] elf_mm) =
  Some (MkLoadedProgram 77824 1048576 (MkProcessorState 0 0 0 0 0 0 0 0 69632 2 69632 73728 0 0 0 4194304 0x1B 0x202 69632 0x23)).
Proof. vm_compute. reflexivity. Qed.

(** The strings advance by two bytes more than their length and the pages are counted with one: 409 empty arguments
    are counted as 3689 bytes, one page, and the terminator of the last one is the byte just beyond it. *)
Lemma elf_clean : ∃ new st', generate_clean_virtual_addressing elf_mm = Ok (new, st') ∧
  (∃ T, filling elf_mm [] T (set_pml4_phys new st')) ∧ free_pages (slab st') = 127%nat.
Proof.
  destruct (wp_total_1 _ _ (wp_mono_halt _ False _ _ _ (clean_space_wp elf_mm _ _ elf_kernel) ltac:(by vm_compute) (λ _ H, H)))
    as ([new st'] & E & (T & Hu & Hn) & Hc).
  exists new, st'. split; [exact E|]. clear E. split.
  - exists T. constructor; [exact Hu|done|]. intros v Hv. rewrite Hn by done. split; [by intros [? ?]|by intros ?%in_ranges_nil].
  - change (free_pages (slab elf_mm)) with 128%nat in Hc. by injection Hc.
Qed.

Lemma setup_args_overruns_witness :
  args_bytes (replicate 409 []) = PAGE_SIZE ∧ ∃ new st, generate_clean_virtual_addressing elf_mm = Ok (new, st) ∧
    setup_args_for_new_process (regions_of PAGE_SIZE []) (replicate 409 []) (set_pml4_phys new st) = Undef.
Proof.
  split; [vm_compute; reflexivity|]. destruct elf_clean as (new & st & E & (T & Hf) & Hfree). exists new, st. split; [exact E|]. clear E.
  destruct (setup_args_overruns elf_mm [] T _ (replicate 409 []) PAGE_SIZE Hf) as [H|(a & tr & st' & w & _ & _ & Hin & _)].
  - apply (bool_decide_unpack _). vm_compute. exact I.
  - apply (bool_decide_unpack _). vm_compute. exact I.
  - done.
  - by intros s e ?%not_elem_of_nil.
  - done.
  - change (free_pages (slab (set_pml4_phys new st))) with (free_pages (slab st)). rewrite Hfree. done.
  - exact H.
  - by apply in_ranges_nil in Hin.
Defined.
