(* ===== verification/Pipes.v ===== *)
(** * Open files and pipes: stuos/src/pipes_and_files.c

    The objects behind [special_data] are kept by their address; the other end of a pipe is reached through one.
    A buffer is the bytes of its block, [None] for a byte that was never written; a store beyond the
    block is undefined.  [malloc] is the address it returned. *)
From S2P Require Import Prelude Tty Vfs.
#[local] Open Scope list_scope.
#[local] Arguments wrap : simpl never.

Record FopReadResult := FopRead { read_something : bool; bytes_read : Z }.

Record PipeSpecialData := PipeData {
  other_pipe_data : Z;
  pipe_buffer : list (option Z);
  buffer_length : Z;
  reader_next_byte : Z
}.

Record OpenVnodeSpecialData := OpenVnode { file : VNode; offset : Z }.

(** The operation tables of the file. *)
Inductive file_ops := FileOps | PipeOps.
Record FileOperations := MkFileOperations { special_data : Z; fops : file_ops; is_a_tty : bool }.

Definition O_APPEND : Z := 4.

(** A store of consecutive bytes into a block. *)
Definition store_at {A} (b : list A) (off : Z) (l : list A) : outcome (list A) :=
  if (0 <=? off) && (off + Z.of_nat (length l) <=? Z.of_nat (length b)) 
  then Ok (take (Z.to_nat off) b ++ l ++ drop (Z.to_nat off + length l) b) else Undef.

(** ** Pipes *)
Abbreviation pipe_heap := (gmap Z PipeSpecialData).

Definition pipe_write (special_data : Z) (output_buf : list Z) (heap : pipe_heap) : outcome (Z * pipe_heap) :=
  _ ← hcf_if (special_data =? 0);
  self ← or_undef (heap !! special_data);
  let p := other_pipe_data self in
  _ ← hcf_if (p =? 0);
  data ← or_undef (heap !! p);
  let num := Z.of_nat (length output_buf) in
  let new_buffer_length := u64 (num + buffer_length data - reader_next_byte data) in
  let new_buffer := replicate (Z.to_nat new_buffer_length) None in
  new_buffer ← (if buffer_length data =? 0 then Ok new_buffer
                else store_at new_buffer 0 (take (Z.to_nat (buffer_length data)) (pipe_buffer data)));
  new_buffer ← store_at new_buffer (buffer_length data) (Some <$> output_buf);
  Ok (num, <[p := PipeData (other_pipe_data data) new_buffer new_buffer_length 0]> heap).

(** The bytes stored in [output_buf] are returned as well. *)
Definition pipe_read (special_data num : Z) (heap : pipe_heap) : outcome (FopReadResult * list (option Z) * pipe_heap) :=
  _ ← hcf_if (special_data =? 0);
  data ← or_undef (heap !! special_data);
  if (other_pipe_data data =? 0) || (num =? 0) then Ok (FopRead true 0, [], heap)
  else
    let max_bytes_to_read := u64 (buffer_length data - reader_next_byte data) in
    let max_bytes_to_read := if num <? max_bytes_to_read then num else max_bytes_to_read in
    if max_bytes_to_read =? 0 then Ok (FopRead false 0, [], heap)
    else if Z.of_nat (length (pipe_buffer data)) <? max_bytes_to_read then Undef
    else Ok (FopRead true max_bytes_to_read, take (Z.to_nat max_bytes_to_read) (pipe_buffer data),
             <[special_data := PipeData (other_pipe_data data) (pipe_buffer data) (buffer_length data)
                                 (u64 (reader_next_byte data + max_bytes_to_read))]> heap).

Definition pipe_close (special_data : Z) (heap : pipe_heap) : outcome pipe_heap :=
  _ ← hcf_if (special_data =? 0);
  data ← or_undef (heap !! special_data);
  heap ← (if other_pipe_data data =? 0 then Ok heap
          else other ← or_undef (heap !! other_pipe_data data);
               Ok (<[other_pipe_data data := PipeData 0 (pipe_buffer other) (buffer_length other) (reader_next_byte other)]> heap));
  Ok (delete special_data heap).

Definition fop_generate_pipe (a b : Z) (heap : pipe_heap) : FileOperations * FileOperations * pipe_heap :=
  (MkFileOperations a PipeOps false, MkFileOperations b PipeOps false,
   <[b := PipeData a [] 0 0]> (<[a := PipeData b [] 0 0]> heap)).

(** ** The terminal *)
Definition stdout_write (special_data : Z) (output_buf : list Z) (t : tty) : outcome (Z * tty) :=
  _ ← hcf_if (negb (special_data =? 0));
  let num := Z.of_nat (length output_buf) in
  t ← c_foreach 0 num (λ i t, c ← or_undef (output_buf !! Z.to_nat i); tty_write_char c t) t;
  Ok (num, t).

Definition stdin_read (special_data : Z) (output_buf : list Z) (num : Z) (t : tty) : outcome (FopReadResult * list Z * tty) :=
  _ ← hcf_if (negb (special_data =? 0));
  '(bytes_read, out, t) ← tty_read output_buf num t;
  if bytes_read =? 0 then Ok (FopRead false 0, out, t) else Ok (FopRead true bytes_read, out, t).

(** ** Files: the operations [read_file] and [write_file] of a node; the bytes a read stores are its result *)
Section files.
Context {W : Type} (read_file : VNode → Z → Z → W → outcome (list Z * W)) (write_file : VNode → Z → list Z → W → outcome (Z * W)).
Abbreviation file_heap := (gmap Z OpenVnodeSpecialData).

Definition file_write (special_data : Z) (input_buf : list Z) (s : file_heap * W) : outcome (Z * (file_heap * W)) :=
  let '(heap, w) := s in
  data ← or_undef (heap !! special_data);
  '(n, w) ← write_file (file data) (offset data) input_buf w;
  Ok (n, (heap, w)).

Definition file_read (special_data num : Z) (s : file_heap * W) : outcome (FopReadResult * list Z * (file_heap * W)) :=
  let '(heap, w) := s in
  data ← or_undef (heap !! special_data);
  '(bytes, w) ← read_file (file data) (offset data) num w;
  let bytes_read := Z.of_nat (length bytes) in
  Ok (FopRead true bytes_read, bytes, (<[special_data := OpenVnode (file data) (u64 (offset data + bytes_read))]> heap, w)).

Definition file_lseek (special_data off whence : Z) (heap : file_heap) : outcome (Z * file_heap) :=
  data ← or_undef (heap !! special_data);
  if whence =? 0 then Ok (u64 off, <[special_data := OpenVnode (file data) (u64 off)]> heap) else Halt.

(** [vfs_get] is the node it found. *)
Definition fop_generate_file (p : Z) (vfs_get : outcome VNode) (open_flags : Z) (heap : file_heap) : outcome (FileOperations * file_heap) :=
  node ← vfs_get;
  let heap := <[p := OpenVnode node 0]> heap in
  _ ← hcf_if (negb (Z.land open_flags O_APPEND =? 0));
  Ok (MkFileOperations p FileOps false, heap).
End files.

Definition just_free_close {A} (special_data : Z) (heap : gmap Z A) : gmap Z A := delete special_data heap.
