(* ===== verification/PipesSpec.v ===== *)
(** * What pipes and open files do *)
From S2P Require Import Prelude Vfs BlockDev FatVolume FatExamples Pipes.
#[local] Open Scope list_scope.
#[local] Arguments wrap : simpl never.

(** Two ends of a pipe, with what was written to each and not yet touched by a read. *)
Record connected (heap : pipe_heap) (a b : Z) (to_a to_b : list Z) : Prop := {
  cn_ends : a ≠ 0 ∧ b ≠ 0 ∧ a ≠ b;
  cn_small : Z.of_nat (length to_a) < 2 ^ 63 ∧ Z.of_nat (length to_b) < 2 ^ 63;
  cn_a : heap !! a = Some (PipeData b (Some <$> to_a) (Z.of_nat (length to_a)) 0);
  cn_b : heap !! b = Some (PipeData a (Some <$> to_b) (Z.of_nat (length to_b)) 0)
}.

Lemma connected_swap heap a b la lb : connected heap a b la lb → connected heap b a lb la.
Proof. intros [(? & ? & ?) [? ?] ? ?]. constructor; done. Qed.

Lemma generate_pipe_connected a b heap : a ≠ 0 → b ≠ 0 → a ≠ b →
  let '(fa, fb, heap') := fop_generate_pipe a b heap in
  special_data fa = a ∧ special_data fb = b ∧ connected heap' a b [] [].
Proof.
  intros Ha Hb Hab. split; [done|]. split; [done|]. constructor; try done.
  - by rewrite lookup_insert_ne, lookup_insert_eq by done.
  - by rewrite lookup_insert_eq.
Qed.

Lemma store_at_fill {A} (x : A) l k n m : m = length k → store_at (l ++ replicate (m + n) x) (Z.of_nat (length l)) k = Ok (l ++ k ++ replicate n x).
Proof.
  intros ->. unfold store_at. rewrite length_app, length_replicate, Nat2Z.id. rewrite !(proj2 (Z.leb_le _ _)) by lia. cbn [andb].
  rewrite take_app_length, <-drop_drop, drop_app_length, drop_replicate. do 3 f_equal. f_equal. lia.
Qed.

Lemma pipe_write_spec heap a b la lb l : connected heap a b la lb → Z.of_nat (length (lb ++ l)) < 2 ^ 63 →
  ∃ heap', pipe_write a l heap = Ok (Z.of_nat (length l), heap') ∧ connected heap' a b la (lb ++ l).
Proof.
  intros [(Ha & Hb & Hab) [Hla Hlb] Ea Eb] Hl. rewrite length_app in Hl. unfold pipe_write.
  rewrite (proj2 (Z.eqb_neq a 0)) by done. rewrite Ea. cbn [hcf_if or_undef mbind outcome_bind other_pipe_data].
  rewrite (proj2 (Z.eqb_neq b 0)), Eb by done. cbn [hcf_if or_undef mbind outcome_bind buffer_length reader_next_byte pipe_buffer other_pipe_data].
  rewrite wrap_small by lia. rewrite Z.sub_0_r, <-Nat2Z.inj_add, !Nat2Z.id.
  assert ((if Z.of_nat (length lb) =? 0 then Ok (replicate (length l + length lb) None)
    else store_at (replicate (length l + length lb) None) 0 (take (length lb) (Some <$> lb)))
    = Ok ((Some <$> lb) ++ replicate (length l) None)) as ->.
  { destruct lb as [|x lb]; [by rewrite Nat.add_0_r|]. rewrite (proj2 (Z.eqb_neq (Z.of_nat (length (x :: lb))) 0)) by (cbn [length]; lia).
    rewrite take_ge by (rewrite length_fmap; done). rewrite (Nat.add_comm (length l)).
    apply (store_at_fill None [] (Some <$> x :: lb)). by rewrite length_fmap. }
  cbn [mbind outcome_bind]. 
  pose proof (store_at_fill (None : option Z) (Some <$> lb) (Some <$> l) 0 (length l) ltac:(by rewrite length_fmap)) as Est.
  rewrite Nat.add_0_r, length_fmap, app_nil_r in Est. rewrite Est. cbn [mbind outcome_bind]. eexists. split; [reflexivity|]. constructor.
  - done.
  - rewrite length_app. lia.
  - by rewrite lookup_insert_ne by done.
  - rewrite lookup_insert_eq, fmap_app, length_app. do 2 f_equal. lia.
Qed.

Lemma pipe_writes_spec a b la ls : ∀ heap lb, connected heap a b la lb → Z.of_nat (length (lb ++ concat ls)) < 2 ^ 63 →
  ∃ heap', foldl (λ o l, h ← o; '(_, h) ← pipe_write a l h; Ok h) (Ok heap) ls = Ok heap' ∧ connected heap' a b la (lb ++ concat ls).
Proof.
  induction ls as [|l ls IH]; intros heap lb Hc Hsz; cbn [concat foldl] in *; [exists heap; by rewrite app_nil_r|].
  rewrite app_assoc in Hsz. destruct (pipe_write_spec heap a b la lb l Hc) as (h1 & E & Hc1); [rewrite length_app in Hsz; lia|].
  cbn [mbind outcome_bind]. rewrite E. cbn [mbind outcome_bind]. destruct (IH h1 (lb ++ l) Hc1 Hsz) as (h2 & E2 & Hc2).
  exists h2. by rewrite app_assoc.
Qed.

(** The end after a first read of [k] bytes. *)
Record half_read (heap : pipe_heap) (a b : Z) (l : list Z) (k : Z) : Prop := {
  hr_ends : a ≠ 0 ∧ b ≠ 0 ∧ a ≠ b;
  hr_b : heap !! b = Some (PipeData a (Some <$> l) (Z.of_nat (length l)) k);
  hr_k : 0 < k ≤ Z.of_nat (length l);
  hr_small : Z.of_nat (length l) < 2 ^ 63;
  hr_a : ∃ d, heap !! a = Some d ∧ other_pipe_data d = b
}.

Lemma pipe_first_read heap a b la lb n : connected heap a b la lb → lb ≠ [] → 0 < n →
  ∃ heap', pipe_read b n heap = Ok (FopRead true (Z.of_nat (length (take (Z.to_nat n) lb))), Some <$> take (Z.to_nat n) lb, heap') ∧
    half_read heap' a b lb (Z.of_nat (length (take (Z.to_nat n) lb))).
Proof.
  intros [(Ha & Hb & Hab) [Hla Hlb] Ea Eb] Hne Hn. unfold pipe_read. rewrite (proj2 (Z.eqb_neq b 0)), Eb by done.
  cbn [hcf_if or_undef mbind outcome_bind other_pipe_data buffer_length reader_next_byte pipe_buffer].
  rewrite (proj2 (Z.eqb_neq a 0)), (proj2 (Z.eqb_neq n 0)) by lia. cbn [orb]. rewrite Z.sub_0_r, (wrap_small 64 (Z.of_nat _)) by lia.
  assert (0 < length lb)%nat by (destruct lb; simpl; [done|lia]).
  assert ((if n <? Z.of_nat (length lb) then n else Z.of_nat (length lb)) = Z.of_nat (length (take (Z.to_nat n) lb))) as ->.
  { rewrite length_take. destruct (Z.ltb_spec n (Z.of_nat (length lb))); lia. }
  set (k := length (take (Z.to_nat n) lb)). assert (0 < k ≤ length lb)%nat as Hk by (unfold k; rewrite length_take; lia).
  rewrite (proj2 (Z.eqb_neq (Z.of_nat k) 0)) by lia. rewrite length_fmap, (proj2 (Z.ltb_ge _ _)) by lia.
  rewrite Z.add_0_l, (wrap_small 64 (Z.of_nat k)), Nat2Z.id by lia. rewrite <-fmap_take.
  assert (take k lb = take (Z.to_nat n) lb) as ->.
  { unfold k. rewrite length_take. destruct (decide (Z.to_nat n ≤ length lb)%nat); [by rewrite Nat.min_l|]. rewrite !take_ge by lia. done. }
  eexists. split; [reflexivity|]. constructor.
  - done.
  - by rewrite lookup_insert_eq.
  - lia.
  - done.
  - eexists. rewrite lookup_insert_ne by done. by split.
Qed.

Lemma half_read_again heap a b l k n : half_read heap a b l k → 0 < n → k < Z.of_nat (length l) → let m := Z.min n (Z.of_nat (length l) - k) in
  ∃ heap', pipe_read b n heap = Ok (FopRead true m, Some <$> take (Z.to_nat m) l, heap').
Proof.
  intros [(Ha & Hb & Hab) Eb Hk Hsm _] Hn Hkl m. unfold pipe_read. rewrite (proj2 (Z.eqb_neq b 0)), Eb by done.
  cbn [hcf_if or_undef mbind outcome_bind other_pipe_data buffer_length reader_next_byte pipe_buffer].
  rewrite (proj2 (Z.eqb_neq a 0)), (proj2 (Z.eqb_neq n 0)) by lia. cbn [orb]. rewrite (wrap_small 64 (Z.of_nat _ - k)) by lia.
  assert ((if n <? Z.of_nat (length l) - k then n else Z.of_nat (length l) - k) = m) as -> by (destruct (Z.ltb_spec n (Z.of_nat (length l) - k)); lia).
  rewrite (proj2 (Z.eqb_neq m 0)), length_fmap, (proj2 (Z.ltb_ge _ _)) by lia. rewrite <-fmap_take. by eexists.
Qed.

Lemma half_read_write heap a b l k out : half_read heap a b l k → Z.of_nat (length out) < 2 ^ 63 → pipe_write a out heap = Undef.
Proof.
  intros [(Ha & Hb & Hab) Eb Hk Hsm (d & Ed & Hd)] Hout. unfold pipe_write. rewrite (proj2 (Z.eqb_neq a 0)), Ed by done.
  cbn [hcf_if or_undef mbind outcome_bind]. rewrite Hd, (proj2 (Z.eqb_neq b 0)), Eb by done.
  cbn [hcf_if or_undef mbind outcome_bind buffer_length reader_next_byte pipe_buffer other_pipe_data].
  rewrite (proj2 (Z.eqb_neq (Z.of_nat (length l)) 0)) by lia. rewrite (wrap_small 64) by lia.
  rewrite take_ge by (rewrite length_fmap; lia). set (n := Z.of_nat (length out) + Z.of_nat (length l) - k).
  unfold store_at at 2. rewrite length_replicate, length_fmap. rewrite (proj2 (Z.leb_le 0 0)) by done. cbn [andb].
  destruct (Z.leb_spec (0 + Z.of_nat (length l)) (Z.of_nat (Z.to_nat n))) as [Hle|]; [|done]. cbn [mbind outcome_bind].
  unfold store_at. rewrite !length_app, length_take, length_drop, length_replicate, !length_fmap.
  by rewrite (proj2 (Z.leb_gt (Z.of_nat (length l) + Z.of_nat (length out)) _)), andb_false_r by lia.
Qed.

Definition pipe_writes (a : Z) (ls : list (list Z)) (heap : pipe_heap) : outcome pipe_heap :=
  foldl (λ o l, h ← o; '(_, h) ← pipe_write a l h; Ok h) (Ok heap) ls.

(** What is written to one end of a new pipe comes out of the other in order, up to the first read. *)
Theorem pipe_first_read_spec a b heap ls n : a ≠ 0 → b ≠ 0 → a ≠ b → 0 < n → concat ls ≠ [] → Z.of_nat (length (concat ls)) < 2 ^ 63 →
  let '(fa, fb, heap) := fop_generate_pipe a b heap in
  ∃ heap1 heap2, pipe_writes (special_data fa) ls heap = Ok heap1 ∧
    pipe_read (special_data fb) n heap1 = Ok (FopRead true (Z.of_nat (length (take (Z.to_nat n) (concat ls)))), Some <$> take (Z.to_nat n) (concat ls), heap2).
Proof.
  intros Ha Hb Hab Hn Hne Hsz. destruct (fop_generate_pipe a b heap) as [[fa fb] heap0] eqn:E.
  pose proof (generate_pipe_connected a b heap Ha Hb Hab) as H. rewrite E in H. destruct H as (-> & -> & Hc).
  destruct (pipe_writes_spec a b [] ls heap0 [] Hc Hsz) as (heap1 & E1 & Hc1).
  destruct (pipe_first_read heap1 a b [] (concat ls) n Hc1 Hne Hn) as (heap2 & E2 & _). by exists heap1, heap2.
Qed.

(** C40: After a read that takes only a part of what was written the pipe is spoilt: a second read returns the same bytes from the start, and a write puts the
    old bytes into a block that has no room for them. *)
Theorem pipe_spoilt_by_read heap a b la lb n m out : connected heap a b la lb → 0 < n < Z.of_nat (length lb) → 0 < m → Z.of_nat (length out) < 2 ^ 63 →
  ∃ heap1 heap2, pipe_read b n heap = Ok (FopRead true n, Some <$> take (Z.to_nat n) lb, heap1) ∧
    (let k := Z.min m (Z.of_nat (length lb) - n) in pipe_read b m heap1 = Ok (FopRead true k, Some <$> take (Z.to_nat k) lb, heap2)) ∧
    pipe_write a out heap1 = Undef.
Proof.
  intros Hc Hn Hm Hout. assert (length (take (Z.to_nat n) lb) = Z.to_nat n) as El by (rewrite length_take; lia).
  destruct (pipe_first_read heap a b la lb n Hc) as (heap1 & E1 & Hh); [by intros ->; simpl in Hn; lia|lia|].
  rewrite El, Z2Nat.id in E1, Hh by lia. destruct (half_read_again heap1 a b lb n m Hh Hm ltac:(lia)) as (heap2 & E2).
  exists heap1, heap2. split; [done|]. split; [done|]. by eapply half_read_write.
Qed.

(** When one end is closed the other reads the end of the file, and what was still in its buffer is lost. *)
Theorem pipe_close_discards heap a b la lb n : connected heap a b la lb →
  ∃ heap1, pipe_close a heap = Ok heap1 ∧ heap1 !! a = None ∧ pipe_read b n heap1 = Ok (FopRead true 0, [], heap1).
Proof.
  intros [(Ha & Hb & Hab) _ Ea Eb]. unfold pipe_close. rewrite (proj2 (Z.eqb_neq a 0)), Ea by done.
  cbn [hcf_if or_undef mbind outcome_bind other_pipe_data pipe_buffer buffer_length reader_next_byte].
  rewrite (proj2 (Z.eqb_neq b 0)), Eb by done. cbn [or_undef mbind outcome_bind pipe_buffer buffer_length reader_next_byte].
  eexists. split; [reflexivity|]. split; [by rewrite lookup_delete_eq|]. unfold pipe_read. rewrite (proj2 (Z.eqb_neq b 0)) by done.
  by rewrite lookup_delete_ne, lookup_insert_eq by done.
Qed.

(** ** Files *)
Section files.
Context {W : Type} `{!FileDevice W}.
Definition node_read (v : VNode) (off n : Z) (w : W) : outcome (list Z * W) := fread (id v) off n w.
Definition node_write (v : VNode) (off : Z) (l : list Z) (w : W) : outcome (Z * W) := w ← fwrite (id v) off l w; Ok (Z.of_nat (length l), w).
Abbreviation file_heap := (gmap Z OpenVnodeSpecialData).

Definition file_reads (p : Z) (ns : list Z) (s : file_heap * W) : outcome (list Z * (file_heap * W)) :=
  foldl (λ o n, '(l, s) ← o; '(_, k, s) ← file_read node_read p n s; Ok (l ++ k, s)) (Ok ([], s)) ns.

Record open_file (p : Z) (v : VNode) (off : Z) (s : file_heap * W) : Prop := {
  of_entry : s.1 !! p = Some (OpenVnode v off);
  of_ok : fok s.2 (id v);
  of_off : 0 ≤ off ≤ fsize s.2 (id v);
  of_size : fsize s.2 (id v) < 2 ^ 64
}.

Lemma file_read_spec p v off n s : open_file p v off s → 0 < n → off + n ≤ fsize s.2 (id v) →
  ∃ s', file_read node_read p n s = Ok (FopRead true n, fbyte s.2 (id v) <$> seqZ off n, s') ∧ open_file p v (off + n) s' ∧
    fsize s'.2 (id v) = fsize s.2 (id v) ∧ ∀ a, 0 ≤ a < fsize s.2 (id v) → fbyte s'.2 (id v) a = fbyte s.2 (id v) a.
Proof.
  intros [He Hok Hoff Hsz] Hn Hin. destruct s as [heap w]. cbn [fst snd] in *. unfold file_read. rewrite He. cbn [or_undef mbind outcome_bind file offset].
  destruct (wp_total_1 _ _ (fread_law w (id v) off n Hok ltac:(lia) Hn Hin)) as ([l w'] & E & -> & Hok' & Hsz' & Hb).
  unfold node_read. rewrite E. cbn [mbind outcome_bind]. rewrite length_fmap, length_seqZ, Z2Nat.id by lia.
  rewrite (wrap_small 64) by lia. eexists. split; [reflexivity|]. cbn [fst snd]. split; [|done].
  constructor; cbn [fst snd]; [by rewrite lookup_insert_eq|done|lia|lia].
Qed.

(** Successive reads of an open file return successive bytes of it. *)
Theorem file_reads_in_sequence p v off ns s : open_file p v off s → Forall (λ n, 0 < n) ns → off + foldr Z.add 0 ns ≤ fsize s.2 (id v) →
  ∃ s', file_reads p ns s = Ok (fbyte s.2 (id v) <$> seqZ off (foldr Z.add 0 ns), s') ∧ open_file p v (off + foldr Z.add 0 ns) s'.
Proof.
  intros Ho Hns Hin. unfold file_reads.
  cut (∀ pre, ∃ s', foldl (λ o n, '(l, s) ← o; '(_, k, s) ← file_read node_read p n s; Ok (l ++ k, s)) (Ok (pre, s)) ns
    = Ok (pre ++ (fbyte s.2 (id v) <$> seqZ off (foldr Z.add 0 ns)), s') ∧ open_file p v (off + foldr Z.add 0 ns) s'); [intros H; apply (H [])|].
  revert off s Ho Hin. induction Hns as [|n ns Hn Hns IH]; intros off s Ho Hin pre; cbn [foldl foldr] in *.
  { exists s. rewrite Z.add_0_r, app_nil_r. done. }
  assert (0 ≤ foldr Z.add 0 ns) as Hpos by (clear -Hns; induction Hns; cbn [foldr]; lia).
  destruct (file_read_spec p v off n s Ho Hn ltac:(lia)) as (s1 & E & Ho1 & Hsz & Hb). cbn [mbind outcome_bind]. rewrite E. cbn [mbind outcome_bind].
  destruct (IH (off + n) s1 Ho1 ltac:(lia) (pre ++ (fbyte s.2 (id v) <$> seqZ off n))) as (s2 & E2 & Ho2).
  exists s2. rewrite E2. rewrite <-Z.add_assoc in Ho2. split; [|done]. do 2 f_equal. rewrite <-app_assoc. f_equal.
  rewrite seqZ_app by lia. rewrite fmap_app. f_equal. apply list_fmap_ext. intros i a Ha%lookup_seqZ.
  apply Hb. pose proof (of_off _ _ _ _ Ho). lia.
Qed.

(** A write does not move the position: the next one replaces it. *)
Theorem file_writes_overlap p v off l1 l2 s : open_file p v off s → l1 ≠ [] → l2 ≠ [] → Forall (λ x, 0 ≤ x < 256) l1 → Forall (λ x, 0 ≤ x < 256) l2 →
  off + Z.of_nat (length l1) ≤ fsize s.2 (id v) → off + Z.of_nat (length l2) ≤ fsize s.2 (id v) →
  ∃ s1 s2, file_write node_write p l1 s = Ok (Z.of_nat (length l1), s1) ∧ file_write node_write p l2 s1 = Ok (Z.of_nat (length l2), s2) ∧
    ∀ i, (i < length l2)%nat → fbyte s2.2 (id v) (off + Z.of_nat i) = default 0 (l2 !! i).
Proof.
  intros [He Hok Hoff Hsz] Hn1 Hn2 Hb1 Hb2 Hi1 Hi2. destruct s as [heap w]. cbn [fst snd] in *. unfold file_write, node_write.
  rewrite He. cbn [or_undef mbind outcome_bind file offset].
  destruct (wp_total_1 _ _ (fwrite_law w (id v) off l1 Hok ltac:(lia) Hn1 Hb1 Hi1)) as (w1 & -> & Hok1 & Hsz1 & _). cbn [mbind outcome_bind].
  destruct (wp_total_1 _ _ (fwrite_law w1 (id v) off l2 Hok1 ltac:(lia) Hn2 Hb2 ltac:(lia))) as (w2 & E2 & Hok2 & Hsz2 & Hb).
  eexists _, _. split; [reflexivity|]. cbn beta iota. rewrite He. cbn [or_undef mbind outcome_bind file offset]. rewrite E2. split; [reflexivity|].
  intros i Hi. cbn [snd]. rewrite Hb by lia. rewrite decide_True by lia. by replace (Z.to_nat (off + Z.of_nat i - off)) with i by lia.
Qed.
End files.

(** ** Examples: witnesses for pipes and open files: a pipe between two objects, a partition of the disk of FatExamples.v *)
Import BlockDevExamples.

Lemma pipe_first_read_spec_witness : let '(fa, fb, heap) := fop_generate_pipe 16 32 ∅ in
  ∃ heap1 heap2, pipe_writes (special_data fa) [[104; 101]; [108; 108; 111]] heap = Ok heap1 ∧
    pipe_read (special_data fb) 3 heap1 = Ok (FopRead true 3, [Some 104; Some 101; Some 108], heap2).
Proof. by apply (pipe_first_read_spec 16 32 ∅ [[104; 101]; [108; 108; 111]] 3). Defined.

Lemma hello_connected : ∃ heap, connected heap 16 32 [] [104; 101; 108; 108; 111].
Proof.
  pose proof (generate_pipe_connected 16 32 ∅ ltac:(done) ltac:(done) ltac:(done)) as (_ & _ & Hc).
  destruct (pipe_writes_spec 16 32 [] [[104; 101]; [108; 108; 111]] _ [] Hc ltac:(done)) as (heap & _ & H). by exists heap.
Qed.

Lemma pipe_spoilt_by_read_witness : ∃ heap heap1 heap2, connected heap 16 32 [] [104; 101; 108; 108; 111] ∧
  pipe_read 32 3 heap = Ok (FopRead true 3, [Some 104; Some 101; Some 108], heap1) ∧
  pipe_read 32 9 heap1 = Ok (FopRead true 2, [Some 104; Some 101], heap2) ∧ pipe_write 16 [33] heap1 = Undef.
Proof.
  destruct hello_connected as (heap & Hc).
  destruct (pipe_spoilt_by_read heap 16 32 [] [104; 101; 108; 108; 111] 3 9 [33] Hc ltac:(done) ltac:(done) ltac:(done)) as (heap1 & heap2 & E1 & E2 & E3).
  exists heap, heap1, heap2. split; [exact Hc|]. split; [exact E1|]. split; [exact E2|exact E3].
Defined.

Lemma pipe_close_discards_witness : ∃ heap heap1, connected heap 16 32 [] [104; 101; 108; 108; 111] ∧
  pipe_close 16 heap = Ok heap1 ∧ pipe_read 32 5 heap1 = Ok (FopRead true 0, [], heap1).
Proof.
  destruct hello_connected as (heap & Hc). destruct (pipe_close_discards heap 16 32 [] _ 5 Hc) as (heap1 & E1 & _ & E2).
  exists heap, heap1. split; [exact Hc|]. split; [exact E1|exact E2].
Defined.

(** ** A partition opened as a file *)
Definition part_node : VNode := MkVNode (VNodeId 0 0) BlockdevOps.
Definition part_open : gmap Z OpenVnodeSpecialData * dev_state (gmap Z (list Z)) := ({[48 := OpenVnode part_node 1024]}, fat_world).

Lemma part_open_file : open_file 48 part_node 1024 part_open.
Proof.
  destruct fat_dev as (Hok & _ & _). constructor; [done|exact Hok|split; [done|vm_compute; discriminate]|vm_compute; reflexivity].
Qed.

Lemma file_reads_in_sequence_witness : ∃ s', file_reads 48 [2; 3] part_open =
  Ok (fbyte fat_world (VNodeId 0 0) <$> [1024; 1025; 1026; 1027; 1028], s') ∧ open_file 48 part_node 1029 s'.
Proof.
  apply (file_reads_in_sequence 48 part_node 1024 [2; 3] part_open part_open_file ltac:(by repeat constructor) ltac:(vm_compute; discriminate)).
Defined.

Lemma file_writes_overlap_witness : ∃ s1 s2, file_write node_write 48 [1; 2] part_open = Ok (2, s1) ∧
  file_write node_write 48 [3] s1 = Ok (1, s2) ∧ fbyte s2.2 (VNodeId 0 0) 1024 = 3.
Proof.
  destruct (file_writes_overlap 48 part_node 1024 [1; 2] [3] part_open part_open_file ltac:(done) ltac:(done)
    ltac:(by repeat constructor) ltac:(by repeat constructor) ltac:(vm_compute; discriminate) ltac:(vm_compute; discriminate))
    as (s1 & s2 & E1 & E2 & Hb).
  exists s1, s2. split; [exact E1|]. split; [exact E2|]. apply (Hb 0%nat). apply Nat.lt_0_1.
Defined.
