(* ===== verification/UsbDescriptors.v ===== *)
(** * USB descriptors: stuos/src/xhci_driver.c and xhci_driver.h

    The answer of a device to GET_DESCRIPTOR is a block of bytes; the configuration is a sequence of descriptors in it,
    each with its length and type first.  Pointers into the block are offsets. *)
From S2P Require Import Prelude Bytes Arrays Hardware BitFields.
#[local] Open Scope string_scope.
#[local] Open Scope list_scope.
#[local] Open Scope Z_scope.

Definition DESCRIPTOR_TYPE_DEVICE : Z := 1.
Definition DESCRIPTOR_TYPE_CONFIGURATION : Z := 2.
Definition DESCRIPTOR_TYPE_INTERFACE : Z := 4.
Definition DESCRIPTOR_TYPE_ENDPOINT : Z := 5.

(** Packed structs: the fields with their sizes in bytes. *)
Definition ConfigurationDescriptor : layout :=
  [("length", 1); ("type", 1); ("total_length", 2); ("num_interfaces", 1); ("config_val", 1); ("config_string", 1);
   ("attributes", 1); ("max_power", 1)].
Definition InterfaceDescriptor : layout :=
  [("length", 1); ("type", 1); ("interface_num", 1); ("alternate_set", 1); ("num_endpoints", 1); ("class_code", 1);
   ("sub_class", 1); ("protocol", 1); ("interface_str", 1)].
(** The bytes of [struct EndpointDescriptor] and its bit-fields. *)
Definition EndpointDescriptor : layout :=
  [("length", 1); ("type", 1); ("address", 1); ("attributes", 1); ("max_packet_size", 2); ("interval", 1)].
Definition endpoint_address : layout := [("endpoint_num", 4); ("reserved_0", 3); ("direction", 1)].
Definition endpoint_attributes : layout := [("transfer_type", 2); ("reserved_1", 6)].
Definition DeviceDescriptor : layout :=
  [("length", 1); ("type", 1); ("release_bcd_min", 1); ("release_bcd_maj", 1); ("device_class", 1); ("sub_class", 1);
   ("protocol", 1); ("max_packet_size", 1); ("vendor_id", 2); ("product_id", 2); ("device_release", 2); ("manufacturer", 1);
   ("product", 1); ("serial_num", 1); ("configurations", 1)].

(** [p->f] for a pointer at offset [p] of the block; undefined outside it. *)
Definition desc_field (l : layout) (b : list Z) (p : Z) (f : string) : outcome Z :=
  let o := p + offsetof l f in
  if (0 <=? o) && (o + width_of l f <=? Z.of_nat (length b)) then Ok (field b (Z.to_nat o) (Z.to_nat (width_of l f))) else Undef.

Record ExternEpDesc := MkEpDesc { endpoint_num : Z; is_in : Z; transfer_type : Z; max_packet_size : Z; interval : Z }.
Definition no_endpoint : ExternEpDesc := MkEpDesc 0 0 0 0 0.
Record ExternIfDesc := MkIfDesc { num_endpoints : Z; class_code : Z; sub_class : Z; protocol : Z; endpoints : list ExternEpDesc }.
Definition no_interface : ExternIfDesc := MkIfDesc 0 0 0 0 (replicate 16 no_endpoint).
Record ExternConfigDesc := MkConfigDesc { num_interfaces : Z; configuration_value : Z; interfaces : list ExternIfDesc }.

Definition with_interfaces (l : list ExternIfDesc) (c : ExternConfigDesc) : ExternConfigDesc :=
  MkConfigDesc (num_interfaces c) (configuration_value c) l.
Definition with_endpoints (l : list ExternEpDesc) (i : ExternIfDesc) : ExternIfDesc :=
  MkIfDesc (num_endpoints i) (class_code i) (sub_class i) (protocol i) l.

Section parse.
Context (data : list Z).
Definition data_end : Z := Z.of_nat (length data).

Definition read_endpoint (p : Z) : outcome ExternEpDesc :=
  a ← desc_field EndpointDescriptor data p "address";
  t ← desc_field EndpointDescriptor data p "attributes";
  m ← desc_field EndpointDescriptor data p "max_packet_size";
  i ← desc_field EndpointDescriptor data p "interval";
  Ok (MkEpDesc (get endpoint_address "endpoint_num" a) (get endpoint_address "direction" a)
        (get endpoint_attributes "transfer_type" t) m i).

(** An endpoint is stored, other descriptors are not. *)
Definition take_descriptor (curr_interface curr_endpoint endpoint_index : Z) (ifs : list ExternIfDesc) (type : Z)
    : outcome (Z * list ExternIfDesc) :=
  if type =? DESCRIPTOR_TYPE_ENDPOINT then
    n ← desc_field InterfaceDescriptor data curr_interface "num_endpoints";
    _ ← c_assert (endpoint_index <? n);
    num ← desc_field InterfaceDescriptor data curr_interface "interface_num";
    i ← arr_get ifs num;
    ep ← read_endpoint curr_endpoint;
    l ← arr_set (endpoints i) endpoint_index ep;
    ifs ← arr_set ifs num (with_endpoints l i);
    Ok (u8 (endpoint_index + 1), ifs)
  else Ok (endpoint_index, ifs).

(** One turn of the loop over the descriptors of an interface. *)
Definition endpoint_step (curr_interface : Z) (s : Z * Z * list ExternIfDesc) : outcome ((Z * Z * list ExternIfDesc) + (Z * list ExternIfDesc)) :=
  let '(curr_endpoint, endpoint_index, ifs) := s in
  if data_end <=? curr_endpoint + 2 then Ok (inr (curr_endpoint, ifs))
  else
    type ← desc_field EndpointDescriptor data curr_endpoint "type";
    if type =? DESCRIPTOR_TYPE_INTERFACE then Ok (inr (curr_endpoint, ifs))
    else
      '(endpoint_index, ifs) ← take_descriptor curr_interface curr_endpoint endpoint_index ifs type;
      len ← desc_field EndpointDescriptor data curr_endpoint "length";
      Ok (inl (curr_endpoint + len, endpoint_index, ifs)).

(** One turn of the loop over the interfaces. *)
Definition interface_step (fuel : nat) (s : Z * list ExternIfDesc) : outcome ((Z * list ExternIfDesc) + list ExternIfDesc) :=
  let '(curr_interface, ifs) := s in
  if data_end <=? curr_interface + 2 then Ok (inr ifs)
  else
    type ← desc_field InterfaceDescriptor data curr_interface "type";
    _ ← c_assert (type =? DESCRIPTOR_TYPE_INTERFACE);
    n ← desc_field InterfaceDescriptor data curr_interface "num_endpoints";
    _ ← c_assert (n <=? 16);
    num ← desc_field InterfaceDescriptor data curr_interface "interface_num";
    class ← desc_field InterfaceDescriptor data curr_interface "class_code";
    sub ← desc_field InterfaceDescriptor data curr_interface "sub_class";
    proto ← desc_field InterfaceDescriptor data curr_interface "protocol";
    ifs ← arr_set ifs num (MkIfDesc n class sub proto (replicate 16 no_endpoint));
    len ← desc_field InterfaceDescriptor data curr_interface "length";
    '(next, ifs) ← c_while fuel (endpoint_step curr_interface) (curr_interface + len, 0, ifs);
    Ok (inl (next, ifs)).

Definition parse_interfaces (fuel : nat) (first : Z) : outcome (list ExternIfDesc) :=
  c_while fuel (interface_step fuel) (first, replicate 256 no_interface).
End parse.

(** [read_configuration_descriptor] without the two transfers: the first nine bytes, then all of the block. *)
Definition check_configuration (initial_config : list Z) : outcome (Z * Z * ExternConfigDesc) :=
  len ← desc_field ConfigurationDescriptor initial_config 0 "length";
  _ ← c_assert (len =? layout_size ConfigurationDescriptor);
  type ← desc_field ConfigurationDescriptor initial_config 0 "type";
  _ ← c_assert (type =? DESCRIPTOR_TYPE_CONFIGURATION);
  total ← desc_field ConfigurationDescriptor initial_config 0 "total_length";
  _ ← c_assert (len <=? total);
  n ← desc_field ConfigurationDescriptor initial_config 0 "num_interfaces";
  v ← desc_field ConfigurationDescriptor initial_config 0 "config_val";
  Ok (len, total, MkConfigDesc n v (replicate 256 no_interface)).
