(* ===== verification/UsbDescriptorsSpec.v ===== *)
(** * What the descriptor parser reads: the configuration a device encodes, and the blocks on which it never ends *)
From S2P Require Import Prelude Bytes Arrays Hardware BitFields UsbDescriptors.
#[local] Open Scope string_scope.
#[local] Open Scope list_scope.
#[local] Open Scope Z_scope.

(** ** A configuration and its bytes *)
Record endpoint := Ep { ep_address : Z; ep_attributes : Z; ep_packet : Z; ep_interval : Z; ep_extra : list Z }.
(** An endpoint, or a descriptor of another type with its other bytes. *)
Inductive sub_descriptor := SubEndpoint (e : endpoint) | SubOther (type : Z) (body : list Z).
Record usb_interface := UsbIf {
  ui_num : Z; ui_alternate : Z; ui_class : Z; ui_sub_class : Z; ui_protocol : Z; ui_string : Z; ui_extra : list Z;
  ui_subs : list sub_descriptor
}.

Definition sub_endpoint (s : sub_descriptor) : option endpoint := match s with SubEndpoint e => Some e | _ => None end.
Definition ui_endpoints (u : usb_interface) : list endpoint := omap sub_endpoint (ui_subs u).

Definition encode_endpoint (e : endpoint) : list Z :=
  [7 + Z.of_nat (length (ep_extra e)); 5; ep_address e; ep_attributes e] ++ le_bytes 2 (ep_packet e) ++ [ep_interval e] ++ ep_extra e.
Definition encode_sub (s : sub_descriptor) : list Z :=
  match s with SubEndpoint e => encode_endpoint e | SubOther t b => [2 + Z.of_nat (length b); t] ++ b end.
Definition interface_head (u : usb_interface) : list Z :=
  [9 + Z.of_nat (length (ui_extra u)); 4; ui_num u; ui_alternate u; Z.of_nat (length (ui_endpoints u)); ui_class u; ui_sub_class u;
   ui_protocol u; ui_string u] ++ ui_extra u.
Definition encode_interface (u : usb_interface) : list Z := interface_head u ++ concat (encode_sub <$> ui_subs u).

Definition sub_ok (s : sub_descriptor) : Prop :=
  match s with
  | SubEndpoint e => is_byte (ep_address e) ∧ is_byte (ep_attributes e) ∧ 0 ≤ ep_packet e < 2 ^ 16 ∧ is_byte (ep_interval e)
  | SubOther t _ => t ≠ 4 ∧ t ≠ 5
  end.
Record interface_ok (u : usb_interface) : Prop := {
  io_num : is_byte (ui_num u);
  io_count : (length (ui_endpoints u) ≤ 16)%nat;
  io_subs : Forall sub_ok (ui_subs u)
}.

(** What the driver keeps. *)
Definition kept_endpoint (e : endpoint) : ExternEpDesc :=
  MkEpDesc (get endpoint_address "endpoint_num" (ep_address e)) (get endpoint_address "direction" (ep_address e))
    (get endpoint_attributes "transfer_type" (ep_attributes e)) (ep_packet e) (ep_interval e).
Definition kept_endpoints (l : list endpoint) : list ExternEpDesc := (kept_endpoint <$> l) ++ replicate (16 - length l) no_endpoint.
Definition kept_interface (u : usb_interface) : ExternIfDesc :=
  MkIfDesc (Z.of_nat (length (ui_endpoints u))) (ui_class u) (ui_sub_class u) (ui_protocol u) (kept_endpoints (ui_endpoints u)).
(** An alternate setting of an interface replaces the one before it. *)
Definition kept_interfaces (us : list usb_interface) : list ExternIfDesc :=
  foldl (λ l u, <[Z.to_nat (ui_num u) := kept_interface u]> l) (replicate 256 no_interface) us.

(** ** Reading a field of a descriptor in the middle of the block *)
Lemma desc_field_in l pre d post f : 0 ≤ offsetof l f → 0 ≤ width_of l f →
  (Z.to_nat (offsetof l f) + Z.to_nat (width_of l f) ≤ length d)%nat →
  desc_field l (pre ++ d ++ post) (Z.of_nat (length pre)) f = Ok (field d (Z.to_nat (offsetof l f)) (Z.to_nat (width_of l f))).
Proof.
  intros Ho Hw Hl. unfold desc_field. set (o := Z.to_nat (offsetof l f)) in *. set (w := Z.to_nat (width_of l f)) in *.
  replace (offsetof l f) with (Z.of_nat o) by lia. replace (width_of l f) with (Z.of_nat w) by lia.
  rewrite !length_app. rewrite (proj2 (Z.leb_le _ _)), (proj2 (Z.leb_le _ _)) by lia. cbn [andb].
  f_equal. rewrite <-Nat2Z.inj_add, !Nat2Z.id. unfold field. rewrite <-drop_drop, drop_app_length.
  rewrite drop_app_le by lia. rewrite take_app_le; [done|]. rewrite length_drop. lia.
Qed.

(** Read a field, the numbers of the layout computed. *)
Ltac desc_field :=
  match goal with |- context [desc_field ?l _ _ ?f] =>
    rewrite (desc_field_in l _ _ _ f) by (done || (cbn; lia));
    let o := eval vm_compute in (Z.to_nat (offsetof l f)) in
    let w := eval vm_compute in (Z.to_nat (width_of l f)) in
    change (Z.to_nat (offsetof l f)) with o; change (Z.to_nat (width_of l f)) with w; cbn [mbind outcome_bind]
  end.

Section parse.
Context (data : list Z).

Lemma read_endpoint_spec pre e post : data = pre ++ encode_endpoint e ++ post → sub_ok (SubEndpoint e) →
  read_endpoint data (Z.of_nat (length pre)) = Ok (kept_endpoint e).
Proof.
  intros -> (H1 & H2 & H3 & H4). unfold read_endpoint, encode_endpoint. do 4 desc_field.
  unfold kept_endpoint, is_byte in *.
  do 2 f_equal; unfold field; cbn -[Z.mul Z.add]; rewrite ?take_0; cbn [le_val]; rewrite ?Z.mul_0_r, ?Z.add_0_r; [done..| |done].
  dlia.
Qed.

(** The two fields every descriptor starts with. *)
Lemma sub_head pre s post : data = pre ++ encode_sub s ++ post →
  desc_field EndpointDescriptor data (Z.of_nat (length pre)) "type" = Ok (match s with SubEndpoint _ => 5 | SubOther t _ => t end) ∧
  desc_field EndpointDescriptor data (Z.of_nat (length pre)) "length" = Ok (Z.of_nat (length (encode_sub s))).
Proof.
  intros ->. destruct s as [e|t b]; unfold encode_sub, encode_endpoint.
  - split; desc_field; f_equal; unfold field; cbn -[Z.mul Z.add]. lia.
  - split; desc_field; f_equal; unfold field; cbn -[Z.mul Z.add]; rewrite ?take_0; cbn [le_val]; lia.
Qed.

Lemma interface_fields pre u post : data = pre ++ interface_head u ++ post → let p := Z.of_nat (length pre) in
  desc_field InterfaceDescriptor data p "length" = Ok (Z.of_nat (length (interface_head u))) ∧
  desc_field InterfaceDescriptor data p "type" = Ok 4 ∧
  desc_field InterfaceDescriptor data p "interface_num" = Ok (ui_num u) ∧
  desc_field InterfaceDescriptor data p "num_endpoints" = Ok (Z.of_nat (length (ui_endpoints u))) ∧
  desc_field InterfaceDescriptor data p "class_code" = Ok (ui_class u) ∧
  desc_field InterfaceDescriptor data p "sub_class" = Ok (ui_sub_class u) ∧
  desc_field InterfaceDescriptor data p "protocol" = Ok (ui_protocol u).
Proof.
  intros -> p. unfold p, interface_head. split_and!; desc_field; f_equal; unfold field; cbn -[Z.mul Z.add]; rewrite ?Z.mul_0_r, ?Z.add_0_r; try done.
  lia.
Qed.

Lemma encode_sub_length s : (2 ≤ length (encode_sub s))%nat.
Proof. destruct s; unfold encode_sub, encode_endpoint; rewrite !length_app; cbn [length]; lia. Qed.

Lemma no_subs l : length (concat (encode_sub <$> l)) = 0%nat → l = [].
Proof. destruct l as [|s l]; [done|]. cbn [fmap list_fmap concat]. rewrite length_app. pose proof (encode_sub_length s). lia. Qed.

(** What the interface at [num] becomes when the endpoints [l] are added to the [k] it has. *)
Lemma kept_endpoints_snoc l e : (length l < 16)%nat →
  <[length l := kept_endpoint e]> (kept_endpoints l) = kept_endpoints (l ++ [e]).
Proof.
  intros Hl. unfold kept_endpoints. rewrite fmap_app, length_app, <-app_assoc. rewrite insert_app_r_alt by (by rewrite length_fmap).
  rewrite length_fmap, Nat.sub_diag. f_equal. cbn [length]. replace (16 - length l)%nat with (S (16 - (length l + 1))) by lia. done.
Qed.

Lemma endpoint_step_eq ci c k ifs : endpoint_step data ci (c, k, ifs) =
  if data_end data <=? c + 2 then Ok (inr (c, ifs))
  else
    type ← desc_field EndpointDescriptor data c "type";
    if type =? DESCRIPTOR_TYPE_INTERFACE then Ok (inr (c, ifs))
    else '(k, ifs) ← take_descriptor data ci c k ifs type;
         len ← desc_field EndpointDescriptor data c "length";
         Ok (inl (c + len, k, ifs)).
Proof. reflexivity. Qed.

Definition kept_with (u : usb_interface) (l : list endpoint) : ExternIfDesc :=
  MkIfDesc (Z.of_nat (length (ui_endpoints u))) (ui_class u) (ui_sub_class u) (ui_protocol u) (kept_endpoints l).

Lemma take_descriptor_spec pre0 u post0 pre s post l ifs : data = pre0 ++ interface_head u ++ post0 → interface_ok u →
  data = pre ++ encode_sub s ++ post → sub_ok s → (length (l ++ omap sub_endpoint [s]) ≤ length (ui_endpoints u))%nat →
  (Z.to_nat (ui_num u) < length ifs)%nat →
  take_descriptor data (Z.of_nat (length pre0)) (Z.of_nat (length pre)) (Z.of_nat (length l)) (<[Z.to_nat (ui_num u) := kept_with u l]> ifs)
    (match s with SubEndpoint _ => 5 | SubOther t _ => t end) =
  Ok (Z.of_nat (length (l ++ omap sub_endpoint [s])), <[Z.to_nat (ui_num u) := kept_with u (l ++ omap sub_endpoint [s])]> ifs).
Proof.
  intros Hdata Hok Hd Hs Hl Hifs. pose proof (interface_fields pre0 u post0 Hdata) as (_ & _ & Enum & En & _). destruct Hok as [Hnum Hcnt _].
  unfold take_descriptor. destruct s as [e|t b]; cbn [omap list_omap sub_endpoint] in *.
  - change (5 =? DESCRIPTOR_TYPE_ENDPOINT) with true. cbv iota. rewrite En. cbn [mbind outcome_bind]. rewrite length_app in *. cbn [length] in *.
    rewrite (proj2 (Z.ltb_lt _ _)) by lia. cbn [c_assert mbind outcome_bind]. rewrite Enum. cbn [mbind outcome_bind].
    unfold is_byte in Hnum. rewrite (arr_get_lookup _ _ (kept_with u l)) by (lia || by rewrite list_lookup_insert_eq).
    cbn [mbind outcome_bind]. rewrite (read_endpoint_spec pre e post Hd Hs). cbn [mbind outcome_bind endpoints kept_with].
    assert (length (kept_endpoints l) = 16%nat) as E16 by (unfold kept_endpoints; rewrite length_app, length_fmap, length_replicate; lia).
    rewrite arr_set_in_range by lia. rewrite Nat2Z.id, kept_endpoints_snoc by lia. cbn [mbind outcome_bind].
    rewrite arr_set_in_range by (rewrite length_insert; lia). cbn [mbind outcome_bind]. rewrite list_insert_insert_eq.
    rewrite wrap_small by lia. do 2 f_equal. lia.
  - destruct Hs as [Hs4 Hs5]. unfold DESCRIPTOR_TYPE_ENDPOINT. rewrite (proj2 (Z.eqb_neq t 5)) by done. by rewrite app_nil_r.
Qed.

(** The descriptors of an interface, up to the next one or the end. *)
Lemma endpoints_loop pre0 u post0 : data = pre0 ++ interface_head u ++ post0 → interface_ok u →
  ∀ subs pre post l ifs fuel, data = pre ++ concat (encode_sub <$> subs) ++ post →
  (post = [] ∨ ∃ u' post', post = interface_head u' ++ post') →
  Forall sub_ok subs → ui_endpoints u = l ++ omap sub_endpoint subs →
  (length subs < fuel)%nat → (Z.to_nat (ui_num u) < length ifs)%nat →
  ∃ p, c_while fuel (endpoint_step data (Z.of_nat (length pre0)))
         (Z.of_nat (length pre), Z.of_nat (length l), <[Z.to_nat (ui_num u) := kept_with u l]> ifs)
       = Ok (p, <[Z.to_nat (ui_num u) := kept_with u (ui_endpoints u)]> ifs) ∧
    (if decide (post = []) then data_end data ≤ p + 2 else p = Z.of_nat (length pre + length (concat (encode_sub <$> subs)))).
Proof.
  intros Hdata Hok. pose proof (interface_fields pre0 u post0 Hdata) as (_ & _ & Enum & En & _). destruct Hok as [Hnum Hcnt Hus].
  induction subs as [|s subs IH]; intros pre post l ifs fuel Hd Hpost Hsubs Hl Hfuel Hifs; (destruct fuel as [|fuel]; [cbn [length] in Hfuel; lia|]).
  - cbn [omap list_omap fmap list_fmap concat app] in *. rewrite app_nil_r in Hl. rewrite Hl. exists (Z.of_nat (length pre)).
    assert (data_end data = Z.of_nat (length pre + length post)) as Eend by (unfold data_end; rewrite Hd, length_app; lia).
    cbn [c_while endpoint_step]. rewrite Eend. destruct Hpost as [->|(u' & post' & Epost)].
    + rewrite (proj2 (Z.leb_le _ _)) by (cbn [length]; lia). cbn [mbind outcome_bind length]. rewrite decide_True by done. split; [done|lia].
    + subst post. pose proof (interface_fields pre u' post' Hd) as (_ & Et & _).
      change (desc_field EndpointDescriptor data (Z.of_nat (length pre)) "type") with (desc_field InterfaceDescriptor data (Z.of_nat (length pre)) "type").
      rewrite Et. assert (length (interface_head u') ≥ 9)%nat by (unfold interface_head; rewrite length_app; simpl; lia).
      rewrite (proj2 (Z.leb_gt _ _)) by (rewrite length_app; lia). cbn [mbind outcome_bind]. split; [done|].
      rewrite decide_False by (intros E; apply (f_equal length) in E; rewrite length_app in E; simpl in E; lia). cbn [length]. lia.
  - cbn [fmap list_fmap concat] in *. rewrite <-app_assoc in Hd. apply Forall_cons in Hsubs as [Hs Hsubs'].
    destruct (sub_head pre s _ Hd) as [Et El].
    assert (data_end data = Z.of_nat (length pre + (length (encode_sub s) + (length (concat (encode_sub <$> subs)) + length post)))) as Eend.
    { unfold data_end. by rewrite Hd, !length_app. }
    pose proof (encode_sub_length s) as Hlen. cbn [c_while]. rewrite endpoint_step_eq, Eend.
    destruct (Z.leb_spec (Z.of_nat (length pre + (length (encode_sub s) + (length (concat (encode_sub <$> subs)) + length post)))) (Z.of_nat (length pre) + 2)) as [Hstop|Hgo].
    { assert (length (encode_sub s) = 2%nat ∧ length (concat (encode_sub <$> subs)) = 0%nat ∧ length post = 0%nat) as (E1 & E2 & E3) by lia.
      apply length_zero_iff_nil in E3. subst post. exists (Z.of_nat (length pre)). cbn [mbind outcome_bind].
      rewrite decide_True by done. split; [|cbn [length] in *; lia].
      rewrite Hl, (no_subs _ E2). destruct s as [e|t b]; [|cbn [omap list_omap sub_endpoint]; by rewrite app_nil_r]. 
      unfold encode_sub, encode_endpoint in E1. rewrite !length_app, le_bytes_length in E1. cbn [length] in E1. lia. }
    rewrite Et. cbn [mbind outcome_bind].
    assert ((match s with SubEndpoint _ => 5 | SubOther t _ => t end =? DESCRIPTOR_TYPE_INTERFACE) = false) as ->.
    { apply Z.eqb_neq. destruct s; [done|]. by destruct Hs. }
    assert (omap sub_endpoint (s :: subs) = omap sub_endpoint [s] ++ omap sub_endpoint subs) as Eo by (by destruct s).
    rewrite Eo, app_assoc in Hl.
    rewrite (take_descriptor_spec pre0 u post0 pre s _ l ifs Hdata (Build_interface_ok _ Hnum Hcnt Hus) Hd Hs); [|rewrite Hl, (length_app _ (omap _ subs)); lia|done].
    cbn [mbind outcome_bind]. rewrite El. cbn [mbind outcome_bind]. rewrite <-Nat2Z.inj_add, <-length_app.
    destruct (IH (pre ++ encode_sub s) post (l ++ omap sub_endpoint [s]) ifs fuel) as (p & E & Hp); try done.
    + by rewrite <-app_assoc.
    + cbn [length] in Hfuel. lia.
    + exists p. split; [exact E|]. destruct (decide (post = [])); [by rewrite <-Eend|]. rewrite Hp, !length_app. lia.
Qed.

Lemma interface_step_eq fuel c ifs : interface_step data fuel (c, ifs) =
  if data_end data <=? c + 2 then Ok (inr ifs)
  else
    type ← desc_field InterfaceDescriptor data c "type";
    _ ← c_assert (type =? DESCRIPTOR_TYPE_INTERFACE);
    n ← desc_field InterfaceDescriptor data c "num_endpoints";
    _ ← c_assert (n <=? 16);
    num ← desc_field InterfaceDescriptor data c "interface_num";
    class ← desc_field InterfaceDescriptor data c "class_code";
    sub ← desc_field InterfaceDescriptor data c "sub_class";
    proto ← desc_field InterfaceDescriptor data c "protocol";
    ifs ← arr_set ifs num (MkIfDesc n class sub proto (replicate 16 no_endpoint));
    len ← desc_field InterfaceDescriptor data c "length";
    '(next, ifs) ← c_while fuel (endpoint_step data c) (c + len, 0, ifs);
    Ok (inl (next, ifs)).
Proof. reflexivity. Qed.

Lemma interfaces_loop fuel' us : ∀ pre ifs fuel, data = pre ++ concat (encode_interface <$> us) → Forall interface_ok us →
  Forall (λ u, length (ui_subs u) < fuel')%nat us → (length us < fuel)%nat → length ifs = 256%nat →
  c_while fuel (interface_step data fuel') (Z.of_nat (length pre), ifs) =
  Ok (foldl (λ l u, <[Z.to_nat (ui_num u) := kept_interface u]> l) ifs us).
Proof.
  induction us as [|u us IH]; intros pre ifs fuel Hd Hok Hsubs Hfuel Hifs; (destruct fuel as [|fuel]; [cbn [length] in Hfuel; lia|]);
    cbn [c_while fmap list_fmap concat foldl] in *; rewrite interface_step_eq.
  { rewrite (proj2 (Z.leb_le _ _)); [done|]. unfold data_end. rewrite Hd, app_nil_r. lia. }
  apply Forall_cons in Hok as [Hu Hok]. apply Forall_cons in Hsubs as [Hsu Hsubs]. unfold encode_interface in Hd at 1. rewrite <-!app_assoc in Hd.
  set (post := concat (encode_sub <$> ui_subs u) ++ concat (encode_interface <$> us)) in *.
  destruct (interface_fields pre u post Hd) as (El & Et & Enum & En & Ec & Es & Ep).
  assert (9 ≤ length (interface_head u))%nat as Hhead by (unfold interface_head; rewrite length_app; cbn [length]; lia).
  rewrite (proj2 (Z.leb_gt _ _)) by (unfold data_end; rewrite Hd, !length_app; lia).
  pose proof (io_num u Hu) as Hnum. pose proof (io_count u Hu) as Hcnt. unfold is_byte in Hnum.
  rewrite Et, En, Enum, Ec, Es, Ep. cbn [mbind outcome_bind].
  change (c_assert (4 =? DESCRIPTOR_TYPE_INTERFACE)) with (Ok ()). cbn [mbind outcome_bind]. rewrite (proj2 (Z.leb_le _ _)) by lia. cbn [c_assert mbind outcome_bind].
  rewrite arr_set_in_range by lia. cbn [mbind outcome_bind]. rewrite El. cbn [mbind outcome_bind]. rewrite <-Nat2Z.inj_add, <-length_app.
  assert (concat (encode_interface <$> us) = [] ∨ ∃ u' post', concat (encode_interface <$> us) = interface_head u' ++ post') as Hpost.
  { destruct us as [|u' us]; [by left|right]. exists u'. eexists. cbn [fmap list_fmap concat]. unfold encode_interface at 1. by rewrite <-app_assoc. }
  destruct (endpoints_loop pre u post Hd Hu (ui_subs u) (pre ++ interface_head u) (concat (encode_interface <$> us)) [] ifs fuel') as (p & E & Hp);
    [by rewrite <-app_assoc|done|apply Hu|done|done|lia|].
  change (kept_with u []) with (MkIfDesc (Z.of_nat (length (ui_endpoints u))) (ui_class u) (ui_sub_class u) (ui_protocol u) (replicate 16 no_endpoint)) in E.
  change (Z.of_nat (length [])) with 0 in E. rewrite E. cbn [mbind outcome_bind]. change (kept_with u (ui_endpoints u)) with (kept_interface u).
  destruct us as [|u' us].
  - destruct fuel as [|fuel]; [cbn [length] in Hfuel; lia|]. cbn [c_while]. rewrite interface_step_eq.
    rewrite decide_True in Hp by done. by rewrite (proj2 (Z.leb_le _ _)) by done.
  - rewrite decide_False in Hp.
    2: { cbn [fmap list_fmap concat]. unfold encode_interface at 1, interface_head. by intros ?%(f_equal length). }
    rewrite Hp, <-length_app. apply IH; try done.
    + by rewrite <-!app_assoc.
    + cbn [length] in *. lia.
    + by rewrite length_insert.
Qed.
End parse.

Lemma concat_length_ge {A} (f : A → list Z) n l : (∀ x, n ≤ length (f x))%nat → (n * length l ≤ length (concat (f <$> l)))%nat.
Proof. intros Hf. induction l as [|x l IH]; cbn [fmap list_fmap concat length]; [lia|]. rewrite length_app. specialize (Hf x). lia. Qed.

Lemma elem_concat_length {A} (f : A → list Z) l x : x ∈ l → (length (f x) ≤ length (concat (f <$> l)))%nat.
Proof.
  induction 1 as [x l|x y l _ IH]; cbn [fmap list_fmap concat]; rewrite length_app; lia.
Qed.

(** C33: What a device describes is what the driver keeps: the parser inverts the encoding of a configuration of interfaces with at most 16 endpoints each, whatever
    descriptors of other types stand after an interface or an endpoint; a later alternate setting of an interface replaces an earlier one.  (Another descriptor before
    the first interface stops the machine: [other_descriptor_first].) *)
Theorem parse_configuration_roundtrip config us fuel : let data := config ++ concat (encode_interface <$> us) in
  Forall interface_ok us → (length data < fuel)%nat →
  parse_interfaces data fuel (Z.of_nat (length config)) = Ok (kept_interfaces us).
Proof.
  intros data Hok Hfuel. assert (length data = length config + length (concat (encode_interface <$> us)))%nat as El by apply length_app.
  assert (∀ u, 9 + length (concat (encode_sub <$> ui_subs u)) ≤ length (encode_interface u))%nat as Hi.
  { intros u. unfold encode_interface, interface_head. rewrite !length_app. cbn [length]. lia. }
  apply (interfaces_loop data fuel us config); try done.
  - apply Forall_forall. intros u Hu. pose proof (elem_concat_length encode_interface us u Hu). specialize (Hi u).
    pose proof (concat_length_ge encode_sub 2 (ui_subs u) encode_sub_length). lia.
  - pose proof (concat_length_ge encode_interface 1 us ltac:(intros u; specialize (Hi u); lia)). lia.
Qed.

(** A descriptor of another type (an interface association, for one) before the first interface fails an assertion. *)
Lemma other_descriptor_first data p t fuel : p + 2 < data_end data → desc_field InterfaceDescriptor data p "type" = Ok t → t ≠ DESCRIPTOR_TYPE_INTERFACE →
  (0 < fuel)%nat → parse_interfaces data fuel p = Halt.
Proof.
  intros Hp Et Ht Hf. unfold parse_interfaces. destruct fuel as [|fuel]; [lia|]. cbn [c_while].
  rewrite interface_step_eq, (proj2 (Z.leb_gt _ _)) by lia. rewrite Et. cbn [mbind outcome_bind]. by rewrite (proj2 (Z.eqb_neq _ _)).
Qed.

(** A descriptor of length 0 is read again for ever: a device can stop the machine. *)
Theorem zero_length_descriptor_never_ends data p n num class sub proto : p + 2 < data_end data →
  desc_field InterfaceDescriptor data p "length" = Ok 0 → desc_field InterfaceDescriptor data p "type" = Ok DESCRIPTOR_TYPE_INTERFACE →
  desc_field InterfaceDescriptor data p "num_endpoints" = Ok n → n ≤ 16 → desc_field InterfaceDescriptor data p "interface_num" = Ok num →
  0 ≤ num < 256 → desc_field InterfaceDescriptor data p "class_code" = Ok class → desc_field InterfaceDescriptor data p "sub_class" = Ok sub →
  desc_field InterfaceDescriptor data p "protocol" = Ok proto →
  ∀ fuel, parse_interfaces data fuel p = OutOfFuel.
Proof.
  intros Hp El Et En Hn Enum Hnum Ec Es Epr fuel. unfold parse_interfaces.
  assert (length (replicate 256 no_interface) = 256%nat) as Hifs by apply length_replicate.
  revert Hifs. generalize (replicate 256 no_interface). generalize fuel at 1. intros k. induction k as [|k IH]; intros ifs Hifs; [done|].
  cbn [c_while]. rewrite interface_step_eq, (proj2 (Z.leb_gt _ _)) by lia. rewrite Et, En, Enum, Ec, Es, Epr. cbn [mbind outcome_bind].
  rewrite Z.eqb_refl, (proj2 (Z.leb_le n 16)) by done. cbn [c_assert mbind outcome_bind]. rewrite arr_set_in_range by lia. cbn [mbind outcome_bind].
  rewrite El. cbn [mbind outcome_bind]. rewrite Z.add_0_r. destruct fuel as [|fuel]; [done|]. cbn [c_while].
  rewrite endpoint_step_eq, (proj2 (Z.leb_gt _ _)) by lia.
  change (desc_field EndpointDescriptor data p "type") with (desc_field InterfaceDescriptor data p "type"). rewrite Et. cbn [mbind outcome_bind].
  rewrite Z.eqb_refl. cbn [mbind outcome_bind]. apply IH. by rewrite length_insert.
Qed.
