(* ===== verification/Xhci.v ===== *)
(** * The USB controller: stuos/src/xhci_driver.h and the registers, rings and events of xhci_driver.c

    The driver and the controller share memory (rings, contexts and buffers, pages of the allocator behind the direct
    map) and registers (BAR 0).  [UsbController] is what the controller does by itself: it changes memory and may
    raise its interrupt, whose handler runs while the driver waits.  A handler and the data it is given are an enumeration of
    those the code installs; the data on the stack of a function that waits is kept in the slot that points to it, and
    is [DeadFrame] once the function has returned: the pointer stays, what it points to is gone. *)
From S2P Require Import Prelude Bytes Arrays Hardware BitFields Slab Paging UserMemory Tty Pci Trb UsbDescriptors.
#[local] Open Scope string_scope.
#[local] Open Scope list_scope.
#[local] Open Scope Z_scope.

(** ** Memory behind the direct map: 32-bit words and bytes *)
Definition load_dword (p : Z) (st : mm) : Z :=
  let q := hhdm_phys st p in bits (8 * (q `mod` 8)) 32 (word_at st (q - q `mod` 8)).
Definition store_dword (p v : Z) (st : mm) : mm :=
  let q := hhdm_phys st p in
  with_ram st (<[q - q `mod` 8 := put_bits (8 * (q `mod` 8)) 32 v (word_at st (q - q `mod` 8))]> (ram st)).
Definition load_buffer (p n : Z) (st : mm) : list Z := (λ i, phys_byte st (hhdm_phys st (u64 (p + i)))) <$> seqZ 0 n.
Fixpoint store_buffer (p : Z) (l : list Z) (st : mm) : mm :=
  match l with [] => st | b :: l => store_buffer (u64 (p + 1)) l (set_phys_byte (hhdm_phys st p) b st) end.

(** ** Registers *)
Definition CAPLENGTH_AND_VERSION_OFFSET : Z := 0.
Definition CAPLENGTH_CAPLENGTH (v : Z) : Z := Z.land v 0xFF.
Definition HCSPARAMS1_OFFSET : Z := 4.
Definition HCSPARAMS1_MAXPORTS (v : Z) : Z := Z.land (Z.shiftr v 24) 0xFF.
Definition HCSPARAMS2_OFFSET : Z := 8.
Definition HCSPARAMS2_required_scratchpad_buffers (v : Z) : Z :=
  u16 (Z.lor (Z.land (Z.shiftr v 27) 0x1F) (Z.land (Z.shiftr v 21) 0x3E0)).
Definition HCCPARAMS1_OFFSET : Z := 0x10.
Definition HCCPARAMS1_xecp (v : Z) : Z := u32 (Z.shiftl (Z.shiftr v 16) 2).
Definition HCCPARAMS1_64BIT (v : Z) : bool := negb (Z.land v 1 =? 0).
Definition HCCPARAMS1_csz (v : Z) : bool := negb (Z.land v (Z.shiftl 1 2) =? 0).
Definition DBOFF : Z := 0x14.
Definition RTSOFF_OFFSET : Z := 0x18.

Definition USBCMD_OFFSET : Z := 0.
Definition USBSTS_OFFSET : Z := 4.
Definition USBSTS_hchalted (v : Z) : bool := negb (Z.land v 1 =? 0).
Definition USBSTS_cnr (v : Z) : bool := negb (Z.land v (Z.shiftl 1 11) =? 0).
Definition DNCTRL_OFFSET : Z := 0x14.
Definition CRCR_OFFSET : Z := 0x18.
Definition CONFIG_OFFSET : Z := 0x38.
Definition DCBAAP_OFFSET : Z := 0x30.
Definition PORTSC_OFFSET (port_index : Z) : Z := 0x400 + 0x10 * port_index.
Definition PORTSC_speed (v : Z) : Z := Z.land (Z.shiftr v 10) 0xF.

Definition IR_IMAN_OFFSET (i : Z) : Z := 0x20 + 32 * i.
Definition IR_IMOD_OFFSET (i : Z) : Z := 0x24 + 32 * i.
Definition IR_ERSTSZ_OFFSET (i : Z) : Z := 0x28 + 32 * i.
Definition IR_ERSTBA_OFFSET (i : Z) : Z := 0x30 + 32 * i.
Definition IR_ERDP_OFFSET (i : Z) : Z := 0x38 + 32 * i.
Definition DOORBELL_OFFSET (i : Z) : Z := 4 * i.

Definition USBSTS_EINT : Z := Z.shiftl 1 3.
Definition USBCMD_RS : Z := 1.
Definition USBCMD_HCRST : Z := Z.shiftl 1 1.
Definition USBCMD_IE : Z := Z.shiftl 1 2.
Definition PORTSC_CCS : Z := 1.
Definition PORTSC_PED : Z := Z.shiftl 1 1.
Definition PORTSC_PR : Z := Z.shiftl 1 4.
Definition PORTSC_PP : Z := Z.shiftl 1 9.
Definition PORTSC_CSC : Z := Z.shiftl 1 17.
Definition PORTSC_PEC : Z := Z.shiftl 1 18.
Definition PORTSC_WRC : Z := Z.shiftl 1 19.
Definition PORTSC_PRC : Z := Z.shiftl 1 21.
Definition PORTSC_WPR : Z := Z.shiftl 1 31.
Definition IMAN_INTERRUPT_ENABLE : Z := Z.shiftl 1 1.
Definition IMAN_INTERRUPT_PENDING : Z := 1.
Definition ERDP_EHB : Z := Z.shiftl 1 3.
Definition USBLEGSUP_BIOS_OWNED_SEMAPHORE : Z := Z.shiftl 1 16.
Definition USBLEGSUP_OS_OWNED_SEMAPHORE : Z := Z.shiftl 1 24.

(** ** Contexts: eight 32-bit words for the slot, then eight for each endpoint *)
Definition slot_context_0 : layout :=
  [("route_string", 20); ("speed", 4); ("reserved_2", 1); ("mtt", 1); ("hub", 1); ("context_entries", 5)].
Definition slot_context_1 : layout := [("max_exit_latency", 16); ("root_hub_port_num", 8); ("number_of_ports", 8)].
Definition slot_context_2 : layout :=
  [("tt_hub_slot_id", 8); ("tt_port_num", 8); ("ttt", 2); ("reserved_3", 4); ("interrupt_target", 10)].
Definition slot_context_3 : layout := [("device_address", 8); ("reserved_4", 19); ("slot_state", 5)].
Definition endpoint_context_0 : layout :=
  [("ep_state", 3); ("reserved_0", 5); ("mult", 2); ("max_p_streams", 5); ("lsa", 1); ("interval", 8); ("max_esit_payload_hi", 8)].
Definition endpoint_context_1 : layout :=
  [("reserved_1", 1); ("cerr", 2); ("ep_type", 3); ("reserved_2", 1); ("hid", 1); ("max_burst_size", 8); ("max_packet_size", 16)].
Definition endpoint_context_2 : layout := [("dcs", 1); ("reserved_3", 3); ("tr_dequeue_pointer_lo", 28)].
Definition endpoint_context_4 : layout := [("average_trb_length", 16); ("max_esit_payload_lo", 16)].
Definition SIZEOF_DeviceContext : Z := 32 + 31 * 32.
Definition SIZEOF_InputContext : Z := 32 + SIZEOF_DeviceContext.

(** [&c->endpoint_context[i]] and [&input->device_context] *)
Definition endpoint_context (c i : Z) : Z := u64 (c + 32 + 32 * i).
Definition ic_device_context (input : Z) : Z := u64 (input + 32).

Definition get_ctx (l : layout) (f : string) (p : Z) (st : mm) : Z := get l f (load_dword p st).
Definition put_ctx (l : layout) (f : string) (v p : Z) (st : mm) : mm := store_dword p (put l f v (load_dword p st)) st.

(** ** Data *)
Record PacketRecvState := MkPacketRecvState {
  rep_phys : Z; in_index : Z; previous_report : list Z; shift_currently_pressed : bool; capslock_on : bool
}.

Inductive trb_handler := NoHandler | FetchAndCopy | FetchAndCopyToSlot0 | PacketRecv.
Inductive handler_data := NoData | FetchAndCopyData (result : TRB) (done : bool) | DeadFrame | KeyboardData (s : PacketRecvState).

Record XHCIDevice := MkXHCIDevice {
  endpoint_rings : list Ring;
  input_context_phys : Z;
  input_context : Z;
  device_context : Z;
  interrupt_trb_handler : trb_handler;
  interrupt_handler_data : handler_data
}.
Definition no_ring : Ring := MkRing 0 0 0 0 0.
Definition no_device : XHCIDevice := MkXHCIDevice (replicate 15 no_ring) 0 0 0 NoHandler NoData.

(** [slots] is indexed by a uint8_t. *)
Record xHCIData := MkXHCIData {
  command_ring : Ring;
  event_ring : Ring;
  bar : BarInfo;
  cap_length : Z;
  rts_offset : Z;
  db_offset : Z;
  dcbaa_virt : Z;
  slots : Z → XHCIDevice;
  port_is_usb3 : list bool
}.

Definition with_command_ring (r : Ring) (x : xHCIData) : xHCIData :=
  MkXHCIData r (event_ring x) (bar x) (cap_length x) (rts_offset x) (db_offset x) (dcbaa_virt x) (slots x) (port_is_usb3 x).
Definition with_event_ring (r : Ring) (x : xHCIData) : xHCIData :=
  MkXHCIData (command_ring x) r (bar x) (cap_length x) (rts_offset x) (db_offset x) (dcbaa_virt x) (slots x) (port_is_usb3 x).
Definition with_dcbaa (p : Z) (x : xHCIData) : xHCIData :=
  MkXHCIData (command_ring x) (event_ring x) (bar x) (cap_length x) (rts_offset x) (db_offset x) p (slots x) (port_is_usb3 x).
Definition with_port_is_usb3 (l : list bool) (x : xHCIData) : xHCIData :=
  MkXHCIData (command_ring x) (event_ring x) (bar x) (cap_length x) (rts_offset x) (db_offset x) (dcbaa_virt x) (slots x) l.
Definition with_slot (i : Z) (f : XHCIDevice → XHCIDevice) (x : xHCIData) : xHCIData :=
  MkXHCIData (command_ring x) (event_ring x) (bar x) (cap_length x) (rts_offset x) (db_offset x) (dcbaa_virt x)
    (λ j, if decide (j = i) then f (slots x i) else slots x j) (port_is_usb3 x).
Definition with_rings (l : list Ring) (d : XHCIDevice) : XHCIDevice :=
  MkXHCIDevice l (input_context_phys d) (input_context d) (device_context d) (interrupt_trb_handler d) (interrupt_handler_data d).
Definition with_contexts (phys input device : Z) (d : XHCIDevice) : XHCIDevice :=
  MkXHCIDevice (endpoint_rings d) phys input device (interrupt_trb_handler d) (interrupt_handler_data d).
Definition with_handler (h : trb_handler) (d : XHCIDevice) : XHCIDevice :=
  MkXHCIDevice (endpoint_rings d) (input_context_phys d) (input_context d) (device_context d) h (interrupt_handler_data d).
Definition with_handler_data (h : handler_data) (d : XHCIDevice) : XHCIDevice :=
  MkXHCIDevice (endpoint_rings d) (input_context_phys d) (input_context d) (device_context d) (interrupt_trb_handler d) h.
