(* ===== verification/XhciWorld.v ===== *)
(** * What the USB driver works on: memory, the controller, the driver's data and the terminal *)
From S2P Require Import Prelude Bytes Arrays Hardware BitFields Slab Paging Tty Pci Trb Xhci.
#[local] Open Scope string_scope.
#[local] Open Scope list_scope.
#[local] Open Scope Z_scope.

(** What the controller does by itself while the processor waits: its state and memory after it, and whether it
    raised its interrupt. *)
Class UsbController (D : Type) := { usb_run : D → mm → D * mm * bool }.
#[global] Hint Mode UsbController + : typeclass_instances.

Record usb (D : Type) := Usb { usb_memory : mm; usb_ctrl : D; usb_data : xHCIData; usb_tty : tty }.
Arguments Usb {D}. Arguments usb_memory {D}. Arguments usb_ctrl {D}. Arguments usb_data {D}. Arguments usb_tty {D}.

Section world.
Context {D : Type} `{!PortIO D} `{!Mmio D} `{!UsbController D}.

Definition on_ctrl {A} (m : io D A) : io (usb D) A := λ w,
  '(a, d) ← m (usb_ctrl w); Ok (a, Usb (usb_memory w) d (usb_data w) (usb_tty w)).
Definition on_memory {A} (f : mm → outcome (A * mm)) : io (usb D) A := λ w,
  '(a, m) ← f (usb_memory w); Ok (a, Usb m (usb_ctrl w) (usb_data w) (usb_tty w)).
Definition get_memory {A} (f : mm → A) : io (usb D) A := λ w, Ok (f (usb_memory w), w).
Definition set_memory (f : mm → mm) : io (usb D) () := λ w, Ok ((), Usb (f (usb_memory w)) (usb_ctrl w) (usb_data w) (usb_tty w)).
Definition get_data : io (usb D) xHCIData := λ w, Ok (usb_data w, w).
Definition set_data (f : xHCIData → xHCIData) : io (usb D) () := λ w, Ok ((), Usb (usb_memory w) (usb_ctrl w) (f (usb_data w)) (usb_tty w)).
Definition on_tty (f : tty → outcome tty) : io (usb D) () := λ w,
  t ← f (usb_tty w); Ok ((), Usb (usb_memory w) (usb_ctrl w) (usb_data w) t).
Definition get_slot (i : Z) : io (usb D) XHCIDevice := x ← get_data; mret (slots x i).

(** The pages of the allocator. *)
Definition usb_malloc4k : io (usb D) Z := on_memory (λ st, '(p, s) ← malloc4k_phys (slab st); Ok (p, with_slab st s)).
Definition usb_malloc_contiguous (n : Z) : io (usb D) Z :=
  on_memory (λ st, '(p, s) ← malloc_contiguous_phys n (slab st); Ok (p, with_slab st s)).
Definition usb_free4k (p : Z) : io (usb D) () := on_memory (λ st, s ← free4k_phys p (slab st); Ok ((), with_slab st s)).
Definition usb_free_contiguous (p n : Z) : io (usb D) () :=
  on_memory (λ st, s ← free_contiguous_phys p n (slab st); Ok ((), with_slab st s)).
Definition to_virt (phys : Z) : io (usb D) Z := get_memory (λ st, phys_to_hhdm st phys).
(** [memset(p, 0, n)] of whole words. *)
Definition zero_memory (p n : Z) : io (usb D) () := set_memory (store_buffer p (replicate (Z.to_nat n) 0)).
Definition new_ring : io (usb D) Ring := on_memory create_ring.

(** [read_bar_32(data->bar, o)] and [write_bar_32(data->bar, v, o)] *)
Definition read_reg (o : Z) : io (usb D) Z := x ← get_data; on_ctrl (read_bar_32 (bar x) o).
Definition write_reg (v o : Z) : io (usb D) () := x ← get_data; on_ctrl (write_bar_32 (bar x) v o).

(** [mfence] and a fixed number of [nop]s. *)
Definition delay : io (usb D) () := mret ().

(** ** Interrupts and doorbells *)
Definition ack_irq (interrupt_index : Z) : io (usb D) () :=
  x ← get_data;
  usbsts ← read_reg (cap_length x + USBSTS_OFFSET);
  _ ← write_reg (Z.lor usbsts USBSTS_EINT) (cap_length x + USBSTS_OFFSET);
  iman ← read_reg (rts_offset x + IR_IMAN_OFFSET interrupt_index);
  write_reg (Z.lor iman IMAN_INTERRUPT_PENDING) (rts_offset x + IR_IMAN_OFFSET interrupt_index).

Definition update_erdp (clear_ehb : bool) : io (usb D) () :=
  x ← get_data;
  let erdp := Z.lor (if clear_ehb then ERDP_EHB else 0) (u64 (trbs_phys (event_ring x) + SIZEOF_TRB * idx (event_ring x))) in
  _ ← write_reg (Z.land erdp 0xFFFFFFFF) (rts_offset x + IR_ERDP_OFFSET 0);
  _ ← write_reg (Z.shiftr erdp 32) (rts_offset x + IR_ERDP_OFFSET 0 + 4);
  delay.

(** 1 for endpoint 1 out, 2 for endpoint 1 in, and so on. *)
Definition calculate_endpoint_index (endpoint_num is_in : Z) : outcome Z :=
  _ ← c_assert (negb (endpoint_num =? 0));
  _ ← c_assert (endpoint_num <=? 15);
  Ok (2 * endpoint_num + is_in - 1).

Definition ring_doorbell (port endpoint_index : Z) : io (usb D) () :=
  _ ← lift (c_assert (endpoint_index <? 31));
  x ← get_data;
  _ ← write_reg (endpoint_index + 1) (db_offset x + DOORBELL_OFFSET port);
  delay.

Definition ring_command_doorbell : io (usb D) () :=
  x ← get_data;
  _ ← write_reg 0 (db_offset x + DOORBELL_OFFSET 0);
  delay.

(** [enqueue_ring(&xhci->command_ring, trb)] and [enqueue_ring(&xhci->slots[slot].endpoint_rings[ep], trb)] *)
Definition enqueue_command (trb : TRB) : io (usb D) () :=
  x ← get_data;
  r ← on_memory (enqueue_ring (command_ring x) trb);
  set_data (with_command_ring r).

Definition enqueue_endpoint (slot ep : Z) (trb : TRB) : io (usb D) () :=
  d ← get_slot slot;
  r ← lift (arr_get (endpoint_rings d) ep);
  r ← on_memory (enqueue_ring r trb);
  l ← lift (arr_set (endpoint_rings d) ep r);
  set_data (with_slot slot (with_rings l)).

(** ** The handlers that hand an event to the function that waits *)
Definition completion_slot (trb : TRB) : outcome Z :=
  if trb_type trb =? TRB_TYPE_CMD_COMPLETION then Ok (get CommandCompletionEvent "slot_id" (status trb))
  else if trb_type trb =? TRB_TYPE_TRANSFER then Ok (get TypeTransfer "slot_id" (status trb))
  else Halt.

(** [result->result = trb; result->done = true] through the slot's data pointer. *)
Definition store_result (slot_id : Z) (trb : TRB) : io (usb D) () :=
  d ← get_slot slot_id;
  match interrupt_handler_data d with
  | FetchAndCopyData _ _ => set_data (with_slot slot_id (with_handler_data (FetchAndCopyData trb true)))
  | _ => lift Undef
  end.

Definition fetch_and_copy (trb : TRB) : io (usb D) () := slot_id ← lift (completion_slot trb); store_result slot_id trb.
Definition fetch_and_copy_to_slot_0 (trb : TRB) : io (usb D) () := store_result 0 trb.
End world.
