(* ===== verification/XhciKeyboard.v ===== *)
(** * The USB keyboard: stuos/src/xhci_keyboard.c *)
From S2P Require Import Prelude Bytes Arrays Hardware BitFields Paging Tty KernLibc Trb Xhci XhciWorld.
#[local] Open Scope string_scope.
#[local] Open Scope list_scope.
#[local] Open Scope Z_scope.

(** The characters of the keys from 0x04 on, without and with shift; the other keys have none. *)
Definition key_pairs : list (Z * Z) :=
  ((λ i, (97 + i, 65 + i)) <$> seqZ 0 26) ++
  [(49, 33); (50, 64); (51, 35); (52, 36); (53, 37); (54, 94); (55, 38); (56, 42); (57, 40); (48, 41);
   (10, 10); (0, 0); (8, 8); (9, 9); (32, 32); (45, 95); (61, 43); (91, 123); (93, 125); (92, 124); (35, 126);
   (59, 58); (39, 34); (96, 126); (44, 60); (46, 62); (47, 63)].
Definition key_map (keycode : Z) (shift : bool) : Z :=
  let p := if 4 <=? keycode then default (0, 0) (key_pairs !! Z.to_nat (keycode - 4)) else (0, 0) in
  if shift then p.2 else p.1.

Definition with_shift (b : bool) (s : PacketRecvState) : PacketRecvState :=
  MkPacketRecvState (rep_phys s) (in_index s) (previous_report s) b (capslock_on s).
Definition with_capslock (b : bool) (s : PacketRecvState) : PacketRecvState :=
  MkPacketRecvState (rep_phys s) (in_index s) (previous_report s) (shift_currently_pressed s) b.
Definition with_report (l : list Z) (s : PacketRecvState) : PacketRecvState :=
  MkPacketRecvState (rep_phys s) (in_index s) l (shift_currently_pressed s) (capslock_on s).

Definition handle_keypress (keycode : Z) (is_break : bool) (state : PacketRecvState) : Z * PacketRecvState :=
  let state := if (keycode =? 0xE1) || (keycode =? 0xE5) then with_shift (negb is_break) state else state in
  let state := if keycode =? 0x39 then with_capslock (negb is_break) state else state in
  if is_break then (0, state)
  else
    let character := key_map keycode (shift_currently_pressed state) in
    (if capslock_on state then toupper character else character, state).

(** [rep->keycodes] of a report of eight bytes. *)
Definition keycodes (report : list Z) : list Z := take 6 (drop 2 report).

(** The three loops over the key codes. *)
Definition mark_new (codes : list Z) (sparse : list Z) : outcome (list Z) :=
  foldl (λ o k, l ← o; if k =? 0 then Ok l else arr_set l k 1) (Ok sparse) codes.

Definition release_key (s : outcome (list Z * PacketRecvState * tty)) (old_keycode : Z) : outcome (list Z * PacketRecvState * tty) :=
  '(sparse, state, t) ← s;
  if old_keycode =? 0 then Ok (sparse, state, t)
  else
    c ← arr_get sparse old_keycode;
    '(state, t) ← (if c =? 0 then
      let '(x, state) := handle_keypress old_keycode true state in t ← tty_provide_stdin x t; Ok (state, t)
    else Ok (state, t));
    sparse ← arr_set sparse old_keycode 2;
    Ok (sparse, state, t).

Definition press_key (sparse : list Z) (s : outcome (PacketRecvState * tty)) (keycode : Z) : outcome (PacketRecvState * tty) :=
  '(state, t) ← s;
  if keycode =? 0 then Ok (state, t)
  else
    c ← arr_get sparse keycode;
    if c =? 1 then
      let '(x, state) := handle_keypress keycode false state in t ← tty_provide_stdin x t; Ok (state, t)
    else Ok (state, t).

(** A report: the keys that were released, then the keys that were pressed. *)
Definition handle_report (report : list Z) (state : PacketRecvState) (t : tty) : outcome (PacketRecvState * tty) :=
  sparse ← mark_new (keycodes report) (replicate 256 0);
  '(sparse, state, t) ← foldl release_key (Ok (sparse, state, t)) (keycodes (previous_report state));
  '(state, t) ← foldl (press_key sparse) (Ok (state, t)) (keycodes report);
  Ok (with_report report state, t).

Definition SIZEOF_InputReport : Z := 8.

Section keyboard.
Context {D : Type} `{!PortIO D} `{!Mmio D} `{!UsbController D}.

Definition report_trb (phys : Z) : TRB := Trb phys (encode NormalTRB
  [("trb_transfer_length", SIZEOF_InputReport); ("trb_type", TRB_TYPE_NORMAL); ("interrupt_on_completion", 1)]).

Definition packet_recv (recv : TRB) : io (usb D) () :=
  _ ← lift (c_assert (get TypeTransfer "trb_type" (status recv) =? TRB_TYPE_TRANSFER));
  _ ← lift (c_assert (get TypeTransfer "completion_code" (status recv) =? 1));
  _ ← lift (c_assert (get TypeTransfer "trb_transfer_length" (status recv) =? 0));
  let slot_number := get TypeTransfer "slot_id" (status recv) in
  device ← get_slot slot_number;
  match interrupt_handler_data device with
  | KeyboardData state =>
      rep ← to_virt (rep_phys state);
      report ← get_memory (load_buffer rep SIZEOF_InputReport);
      state ← (λ w, '(state, t) ← handle_report report state (usb_tty w); Ok (state, Usb (usb_memory w) (usb_ctrl w) (usb_data w) t));
      _ ← set_data (with_slot slot_number (with_handler_data (KeyboardData state)));
      _ ← enqueue_endpoint slot_number (in_index state) (report_trb (rep_phys state));
      ring_doorbell slot_number (in_index state)
  | _ => lift Undef
  end.
End keyboard.
