(* ===== verification/XhciKeyboardSpec.v ===== *)
(** * What the USB keyboard driver types *)
From S2P Require Import Prelude KernLibc Bytes Arrays Tty TtyInput UsbDescriptors UsbDescriptorsSpec Xhci XhciKeyboard.
#[local] Open Scope list_scope.

(** The keys of a report that were not in the one before, and those of the one before that are gone. *)
Definition new_keys (old cur : list Z) : list Z := filter (λ k, k ≠ 0 ∧ k ∉ old) cur.
Definition gone_keys (old cur : list Z) : list Z := filter (λ k, k ≠ 0 ∧ k ∉ cur) old.

(** The modifiers after some keys are gone. *)
Definition released (ks : list Z) (s : PacketRecvState) : PacketRecvState :=
  MkPacketRecvState (rep_phys s) (in_index s) (previous_report s)
    (shift_currently_pressed s && negb (bool_decide (0xE1 ∈ ks ∨ 0xE5 ∈ ks))) (capslock_on s && negb (bool_decide (0x39 ∈ ks))).
(** Type the keys in order, each with the modifiers of that moment. *)
Fixpoint type_keys (ks : list Z) (s : PacketRecvState) (t : tty) : outcome (PacketRecvState * tty) :=
  match ks with
  | [] => Ok (s, t)
  | k :: ks => let '(c, s) := handle_keypress k false s in t ← tty_provide_stdin c t; type_keys ks s t
  end.

(** What the array of codes says of a key. *)
Definition sparse_is (sparse : list Z) (f : Z → Z) : Prop := length sparse = 256%nat ∧ ∀ k, 0 ≤ k < 256 → sparse !! Z.to_nat k = Some (f k).

Lemma sparse_set sparse f k v : sparse_is sparse f → 0 ≤ k < 256 →
  ∃ sparse', arr_set sparse k v = Ok sparse' ∧ sparse_is sparse' (λ j, if decide (j = k) then v else f j).
Proof.
  intros [Hl Hf] Hk. eexists. split; [apply arr_set_in_range; lia|]. split; [by rewrite length_insert|]. intros j Hj.
  case_decide as Hjk; [subst j; by rewrite list_lookup_insert_eq by lia|]. rewrite list_lookup_insert_ne by lia. by apply Hf.
Qed.

Lemma sparse_get sparse f k : sparse_is sparse f → 0 ≤ k < 256 → arr_get sparse k = Ok (f k).
Proof. intros [_ Hf] Hk. apply arr_get_lookup; [lia|by apply Hf]. Qed.

Lemma sparse_ext sparse f g : sparse_is sparse f → (∀ k, 0 ≤ k < 256 → f k = g k) → sparse_is sparse g.
Proof. intros [Hl Hf] E. split; [done|]. intros k Hk. by rewrite Hf, E. Qed.

Lemma mark_new_spec codes sparse f : Forall is_byte codes → sparse_is sparse f →
  ∃ sparse', mark_new codes sparse = Ok sparse' ∧ sparse_is sparse' (λ k, if decide (k ≠ 0 ∧ k ∈ codes) then 1 else f k).
Proof.
  unfold mark_new. intros Hc. revert sparse f. induction Hc as [|c codes Hc _ IH]; intros sparse f Hs; cbn [foldl].
  { exists sparse. split; [done|]. apply (sparse_ext _ _ _ Hs). intros k _. rewrite decide_False; [done|]. by intros [_ ?%not_elem_of_nil]. }
  cbn [mbind outcome_bind]. destruct (Z.eqb_spec c 0) as [->|Hc0].
  - destruct (IH sparse f Hs) as (s' & E & Hs'). exists s'. split; [done|]. apply (sparse_ext _ _ _ Hs'). intros k _.
    destruct (decide (k ≠ 0 ∧ k ∈ codes)) as [[Hk Hin]|Hn]; [rewrite decide_True; [done|]; set_solver|].
    rewrite decide_False; [done|]. set_solver.
  - destruct (sparse_set sparse f c 1 Hs Hc) as (s1 & -> & Hs1). destruct (IH s1 _ Hs1) as (s' & E & Hs'). exists s'. split; [done|].
    apply (sparse_ext _ _ _ Hs'). intros k _. destruct (decide (k ≠ 0 ∧ k ∈ codes)) as [[Hk Hin]|Hn]; [rewrite decide_True; [done|]; set_solver|].
    destruct (decide (k = c)) as [->|Hne]; [rewrite decide_True; [done|]; set_solver|]. rewrite decide_False; [done|]. set_solver.
Qed.

(** Releasing a key types nothing. *)
Lemma release_key_step sparse f s t k : sparse_is sparse f → is_byte k → k ≠ 0 →
  ∃ sparse', release_key (Ok (sparse, s, t)) k = Ok (sparse', if decide (f k = 0) then (handle_keypress k true s).2 else s, t) ∧
    sparse_is sparse' (λ j, if decide (j = k) then 2 else f j).
Proof.
  intros Hs Hk Hk0. unfold release_key. cbn [mbind outcome_bind]. rewrite (proj2 (Z.eqb_neq k 0)) by done.
  rewrite (sparse_get _ _ _ Hs Hk). cbn [mbind outcome_bind]. destruct (sparse_set sparse f k 2 Hs Hk) as (s' & E & Hs').
  exists s'. split; [|done]. destruct (Z.eqb_spec (f k) 0) as [E0|E0].
  - rewrite decide_True by done. destruct (handle_keypress k true s) as [c st] eqn:Eh.
    assert (c = 0) as -> by (unfold handle_keypress in Eh; congruence). cbn [mbind outcome_bind snd].
    change (tty_provide_stdin 0 t) with (Ok t). cbn [mbind outcome_bind]. by rewrite E.
  - rewrite decide_False by done. cbn [mbind outcome_bind]. by rewrite E.
Qed.

Lemma released_ext A B s : (∀ k, k ∈ A ↔ k ∈ B) → released A s = released B s.
Proof. intros E. unfold released. do 3 f_equal; apply bool_decide_ext; rewrite !E; done. Qed.

Lemma released_app A B s : released (A ++ B) s = released B (released A s).
Proof.
  unfold released. cbn [rep_phys in_index previous_report shift_currently_pressed capslock_on]. f_equal; rewrite <-andb_assoc; f_equal; rewrite <-negb_orb; f_equal.
  - rewrite <-bool_decide_or. apply bool_decide_ext. rewrite !elem_of_app. tauto.
  - rewrite <-bool_decide_or. apply bool_decide_ext. rewrite !elem_of_app. tauto.
Qed.

Lemma release_one k s : (handle_keypress k true s).2 = released [k] s.
Proof.
  unfold handle_keypress, released. destruct s as [p i r sh ca]. cbn [negb].
  assert (bool_decide (0xE1 ∈ [k] ∨ 0xE5 ∈ [k]) = (k =? 0xE1) || (k =? 0xE5)) as ->.
  { apply eq_true_iff_eq. rewrite bool_decide_eq_true, orb_true_iff, !Z.eqb_eq, !list_elem_of_singleton. intuition congruence. }
  assert (bool_decide (0x39 ∈ [k]) = (k =? 0x39)) as ->.
  { apply eq_true_iff_eq. rewrite bool_decide_eq_true, Z.eqb_eq, list_elem_of_singleton. intuition congruence. }
  destruct ((k =? 0xE1) || (k =? 0xE5)), (k =? 0x39); cbn; by rewrite ?andb_false_r, ?andb_true_r.
Qed.

Lemma release_keys_spec cur old : ∀ (done_keys : list Z) sparse s t, Forall is_byte old →
  sparse_is sparse (λ k, if decide (k ∈ done_keys) then 2 else if decide (k ≠ 0 ∧ k ∈ cur) then 1 else 0) →
  ∃ sparse', foldl release_key (Ok (sparse, s, t)) old = Ok (sparse', released (filter (λ k, k ∉ done_keys) (gone_keys old cur)) s, t) ∧
    sparse_is sparse' (λ k, if decide (k ∈ done_keys ∨ k ≠ 0 ∧ k ∈ old) then 2 else if decide (k ≠ 0 ∧ k ∈ cur) then 1 else 0).
Proof.
  induction old as [|k old IH]; intros dn sparse s t Hold Hs; cbn [foldl].
  { exists sparse. split; [unfold released; rewrite !bool_decide_false, !andb_true_r by set_solver; by destruct s|].
    apply (sparse_ext _ _ _ Hs). intros j _. apply decide_ext. set_solver. }
  apply Forall_cons in Hold as [Hk Hold]. destruct (Z.eqb_spec k 0) as [->|Hk0].
  - change (release_key (Ok (sparse, s, t)) 0) with (Ok (sparse, s, t)). destruct (IH dn sparse s t Hold Hs) as (sparse' & E & Hs').
    exists sparse'. rewrite E. split; [do 3 f_equal; apply released_ext; intros j; unfold gone_keys; rewrite !list_elem_of_filter; set_solver|].
    apply (sparse_ext _ _ _ Hs'). intros j _. apply decide_ext. set_solver.
  - destruct (release_key_step sparse _ s t k Hs Hk Hk0) as (s1 & -> & Hs1).
    destruct (IH (k :: dn) s1 (if decide (k ∈ dn ∨ k ∈ cur) then s else released [k] s) t Hold) as (sparse' & E & Hs').
    { apply (sparse_ext _ _ _ Hs1). intros j _. destruct (decide (j = k)) as [->|Hne]; [rewrite decide_True; [done|by left]|].
      apply decide_ext. set_solver. }
    exists sparse'. rewrite release_one.
    assert ((if decide ((if decide (k ∈ dn) then 2 else if decide (k ≠ 0 ∧ k ∈ cur) then 1 else 0) = 0) then released [k] s else s)
      = (if decide (k ∈ dn ∨ k ∈ cur) then s else released [k] s)) as ->.
    { destruct (decide (k ∈ dn)); [rewrite decide_False by done; rewrite decide_True; [done|by left]|].
      destruct (decide (k ≠ 0 ∧ k ∈ cur)) as [[_ ?]|Hn]; [rewrite decide_False by done; rewrite decide_True; [done|by right]|].
      rewrite decide_True by done. rewrite decide_False; [done|]. intros [?|?]; [done|]. by apply Hn. }
    rewrite E. split; [do 2 f_equal; f_equal|].
    + destruct (decide (k ∈ dn ∨ k ∈ cur)) as [Hin|Hn].
      * apply released_ext. intros j. unfold gone_keys. rewrite !list_elem_of_filter, not_elem_of_cons, elem_of_cons.
        destruct (decide (j = k)) as [->|]; tauto.
      * rewrite <-released_app. apply released_ext. intros j. unfold gone_keys.
        rewrite elem_of_app, list_elem_of_singleton, !list_elem_of_filter, not_elem_of_cons, elem_of_cons.
        destruct (decide (j = k)) as [->|]; tauto.
    + apply (sparse_ext _ _ _ Hs'). intros j _. apply decide_ext. set_solver.
Qed.

Lemma press_keys_stop sparse ks (o : outcome (PacketRecvState * tty)) : (∀ x, o ≠ Ok x) → foldl (press_key sparse) o ks = o.
Proof.
  intros Ho. induction ks as [|k ks IH]; [done|]. cbn [foldl]. assert (press_key sparse o k = o) as ->; [|done].
  destruct o as [x| | |]; [by destruct (Ho x)|done..].
Qed.

Lemma press_keys_spec sparse f ks : sparse_is sparse f → Forall is_byte ks → ∀ s t,
  foldl (press_key sparse) (Ok (s, t)) ks = type_keys (filter (λ k, k ≠ 0 ∧ f k = 1) ks) s t.
Proof.
  intros Hs Hks. induction Hks as [|k ks Hk _ IH]; intros s t; [done|]. cbn [foldl]. rewrite filter_cons.
  destruct (Z.eqb_spec k 0) as [->|Hk0].
  { change (press_key sparse (Ok (s, t)) 0) with (Ok (s, t)). rewrite decide_False by (by intros [? _]). apply IH. }
  unfold press_key at 2. cbn [mbind outcome_bind]. rewrite (proj2 (Z.eqb_neq k 0)), (sparse_get _ _ _ Hs Hk) by done. cbn [mbind outcome_bind].
  destruct (Z.eqb_spec (f k) 1) as [E1|E1]; [|rewrite decide_False by (by intros [_ ?]); apply IH].
  rewrite decide_True by done. cbn [type_keys]. destruct (handle_keypress k false s) as [c s'].
  destruct (tty_provide_stdin c t) as [t'| | |]; cbn [mbind outcome_bind]; [apply IH|by apply press_keys_stop..].
Qed.

Lemma filter_elem_ext (P Q : Z → Prop) `{!∀ x, Decision (P x), !∀ x, Decision (Q x)} (l : list Z) : (∀ x, x ∈ l → P x ↔ Q x) → filter P l = filter Q l.
Proof.
  induction l as [|x l IH]; intros HPQ; [done|]. rewrite !filter_cons, IH by (intros y Hy; apply HPQ; by right).
  destruct (HPQ x ltac:(by left)). destruct (decide (P x)), (decide (Q x)); tauto.
Qed.

(** A report types the keys that were not in the report before it, in its order, after the modifiers that are gone are
    turned off; it is then the one the next is compared with. *)
Theorem handle_report_spec report state t :
  Forall is_byte (keycodes report) → Forall is_byte (keycodes (previous_report state)) →
  let cur := keycodes report in let old := keycodes (previous_report state) in
  handle_report report state t =
    '(s, t) ← type_keys (new_keys old cur) (released (gone_keys old cur) state) t; Ok (with_report report s, t).
Proof.
  intros Hcur Hold cur old. unfold handle_report. fold cur. fold old.
  destruct (mark_new_spec cur (replicate 256 0) (λ _, 0) Hcur) as (s1 & -> & Hs1).
  { split; [apply length_replicate|]. intros k Hk. apply lookup_replicate_2. lia. }
  cbn [mbind outcome_bind].
  destruct (release_keys_spec cur old [] s1 state t Hold) as (s2 & -> & Hs2).
  { apply (sparse_ext _ _ _ Hs1). intros k _. by rewrite (decide_False (P := k ∈ [])) by apply not_elem_of_nil. }
  cbn [mbind outcome_bind]. rewrite (press_keys_spec _ _ cur Hs2 Hcur).
  rewrite (released_ext (filter (λ k, k ∉ []) (gone_keys old cur)) (gone_keys old cur)).
  2: { intros k. rewrite list_elem_of_filter. split; [by intros [_ ?]|]. intros ?. split; [apply not_elem_of_nil|done]. }
  rewrite (filter_elem_ext _ (λ k, k ≠ 0 ∧ k ∉ old) cur); [done|]. intros k Hk.
  destruct (decide (k ∈ [] ∨ k ≠ 0 ∧ k ∈ old)) as [[?%not_elem_of_nil|[? ?]]|Hn]; [done|by split; [intros [_ ?]|intros [_ ?]]|].
  destruct (decide (k = 0)) as [->|Hk0]; [by split; intros [? _]|]. rewrite decide_True by done. split; intros _; (split; [done|]); [|done].
  intros Hin. apply Hn. by right.
Qed.

(** ** Examples: witnesses for the USB: the configuration of a keyboard, a descriptor of length 0, a report *)
#[local] Open Scope string_scope.
#[local] Open Scope Z_scope.

(** A boot keyboard: one interface with a HID descriptor between it and its endpoint. *)
Definition keyboard_config : list Z := [9; 2; 34; 0; 1; 1; 0; 160; 50].
Definition keyboard_interfaces : list usb_interface :=
  [UsbIf 0 0 3 1 1 0 [] [SubOther 33 [17; 1; 0; 1; 34; 63; 0]; SubEndpoint (Ep 129 3 8 10 [])]].

Lemma parse_configuration_roundtrip_witness :
  parse_interfaces (keyboard_config ++ concat (encode_interface <$> keyboard_interfaces)) 100 9 = Ok (kept_interfaces keyboard_interfaces).
Proof.
  apply (parse_configuration_roundtrip keyboard_config keyboard_interfaces 100); [|by vm_compute; lia].
  repeat constructor; vm_compute; (lia || done || (intros ?; done)).
Defined.

Definition stuck_config : list Z := [9; 2; 18; 0; 1; 1; 0; 160; 50; 0; 4; 0; 0; 1; 8; 6; 80; 0].

Lemma zero_length_descriptor_never_ends_witness : parse_interfaces stuck_config 1000 9 = OutOfFuel.
Proof. by apply (zero_length_descriptor_never_ends stuck_config 9 1 0 8 6 80). Defined.

(** "a" and the left shift key are held; the next report has "a" and "b": a small "b" is typed. *)
Definition held_state : PacketRecvState := MkPacketRecvState 0x5000 2 [0; 0; 4; 225; 0; 0; 0; 0] true false.
Definition next_report : list Z := [0; 0; 4; 5; 0; 0; 0; 0].

Lemma handle_report_spec_witness : let t := tty_initial small_display in
  handle_report next_report held_state t =
    ('(s, t) ← type_keys [5] (MkPacketRecvState 0x5000 2 [0; 0; 4; 225; 0; 0; 0; 0] false false) t; Ok (with_report next_report s, t)) ∧
  (handle_keypress 5 false (MkPacketRecvState 0x5000 2 [0; 0; 4; 225; 0; 0; 0; 0] false false)).1 = 98.
Proof.
  intros t. split; [|reflexivity]. rewrite (handle_report_spec next_report held_state t).
  - generalize t. intros t'. reflexivity.
  - apply (bool_decide_unpack _). vm_compute. exact I.
  - apply (bool_decide_unpack _). vm_compute. exact I.
Defined.
