(* ===== verification/XhciEvents.v ===== *)
(** * Events, commands and requests of the USB driver: stuos/src/xhci_driver.c *)
From S2P Require Import Prelude Bytes Arrays Hardware BitFields Slab Paging Tty Pci Trb UsbDescriptors Xhci XhciWorld XhciKeyboard.
#[local] Open Scope string_scope.
#[local] Open Scope list_scope.
#[local] Open Scope Z_scope.

(** [struct RequestTemplate]; [value] is also [descriptor_index] with [descriptor_type] above it. *)
Record RequestTemplate := MkRequest {
  slot_number : Z; direction : Z; request_type : Z; recipient : Z; request : Z; value : Z; index : Z; rq_length : Z;
  setup_transfer_type : Z
}.
Definition HostToDevice : Z := 0.
Definition DeviceToHost : Z := 1.
Definition RequestTypeStandard : Z := 0.
Definition RequestTypeClass : Z := 1.
Definition RecipientDevice : Z := 0.
Definition RecipientInterface : Z := 1.
Definition GET_DESCRIPTOR : Z := 6.
Definition SET_CONFIGURATION : Z := 9.
Definition GET_MAX_LUN : Z := 0xFE.
Definition SET_IDLE : Z := 0xA.
Definition SET_PROTOCOL : Z := 0xB.
Definition NoDataStage : Z := 0.
Definition InDataStage : Z := 3.

Section events.
Context {D : Type} `{!PortIO D} `{!Mmio D} `{!UsbController D}.

(** ** Events *)
Definition call_handler (slot_id : Z) (recv : TRB) : io (usb D) () :=
  dev ← get_slot slot_id;
  match interrupt_trb_handler dev with
  | NoHandler => lift Halt
  | FetchAndCopy => fetch_and_copy recv
  | FetchAndCopyToSlot0 => fetch_and_copy_to_slot_0 recv
  | PacketRecv => packet_recv recv
  end.

Definition dispatch_event (recv : TRB) : io (usb D) () :=
  let type := trb_type recv in
  if type =? TRB_TYPE_TRANSFER then call_handler (get TypeTransfer "slot_id" (status recv)) recv
  else if type =? TRB_TYPE_CMD_COMPLETION then call_handler (get CommandCompletionEvent "slot_id" (status recv)) recv
  else if type =? TRB_TYPE_PORT_STS_CHANGE then mret ()
  else lift Halt.

Definition handle_incoming_event : io (usb D) () :=
  x ← get_data;
  '(recv, r) ← get_memory (dequeue_ring (event_ring x));
  match recv with
  | None => mret ()
  | Some recv =>
      _ ← set_data (with_event_ring r);
      _ ← update_erdp true;
      _ ← dispatch_event recv;
      ack_irq 0
  end.

(** ** Waiting: the controller runs, and its interrupt is handled *)
Definition usb_step : io (usb D) () := λ w,
  let '(d, m, irq) := usb_run (usb_ctrl w) (usb_memory w) in
  let w := Usb m d (usb_data w) (usb_tty w) in
  if irq then handle_incoming_event w else Ok ((), w).

(** [while(!handler_data.done) {}] of the function whose data slot [i] points to. *)
Definition wait_done (fuel : nat) (i : Z) : io (usb D) TRB :=
  io_while fuel (λ _ : (),
    d ← get_slot i;
    match interrupt_handler_data d with
    | FetchAndCopyData result true => mret (inr result)
    | FetchAndCopyData _ false => _ ← usb_step; mret (inl ())
    | _ => lift Undef
    end) ().

Definition expect_completion (i : Z) (h : trb_handler) : io (usb D) () :=
  _ ← set_data (with_slot i (with_handler_data (FetchAndCopyData (Trb 0 0) false)));
  set_data (with_slot i (with_handler h)).

(** The function that waited returns. *)
Definition frame_ends (i : Z) : io (usb D) () := set_data (with_slot i (with_handler_data DeadFrame)).

(** ** Commands *)
Definition send_command_ring_trb (fuel : nat) (slot_id : Z) (trb : TRB) : io (usb D) () :=
  _ ← enqueue_command trb;
  _ ← expect_completion slot_id FetchAndCopy;
  _ ← ring_command_doorbell;
  result ← wait_done fuel slot_id;
  _ ← lift (c_assert (get CommandCompletionEvent "trb_type" (status result) =? TRB_TYPE_CMD_COMPLETION));
  _ ← lift (c_assert (get CommandCompletionEvent "completion_code" (status result) =? 1));
  frame_ends slot_id.

Definition set_input_context (fuel : nat) (slot_id block_set_address_request : Z) : io (usb D) () :=
  dev ← get_slot slot_id;
  send_command_ring_trb fuel slot_id (Trb (input_context_phys dev) (encode SetAddressCommand
    [("block_set_address_request", block_set_address_request); ("trb_type", TRB_TYPE_SET_ADDRESS); ("slot_id", slot_id)])).

Definition update_input_context (fuel : nat) (slot_id : Z) (am_modifying_existing_endpoints : bool) : io (usb D) () :=
  dev ← get_slot slot_id;
  send_command_ring_trb fuel slot_id (Trb (input_context_phys dev) (encode SetAddressCommand
    [("trb_type", if am_modifying_existing_endpoints then TRB_TYPE_EVALUATE_CONTEXT else TRB_TYPE_CONFIGURE_ENDPOINT);
     ("slot_id", slot_id)])).

(** ** Requests on endpoint 0 *)
Definition setup_trb (r : RequestTemplate) : TRB :=
  Trb (encode DeviceRequestPacket [("recipient", recipient r); ("type", request_type r); ("direction", direction r);
         ("request", request r); ("value", value r); ("index", index r); ("length", rq_length r)])
      (encode DeviceRequestSts [("trb_transfer_length", 8); ("immediate_data", 1); ("trb_type", TRB_TYPE_SETUP_STAGE);
         ("transfer_type", setup_transfer_type r)]).

Definition data_trb (r : RequestTemplate) (data_buffer_phys : Z) : TRB :=
  Trb data_buffer_phys (encode DataStage [("trb_transfer_length", rq_length r); ("td_size", 0); ("evaluate_next_trb", 1);
    ("chain_bit", 1); ("trb_type", TRB_TYPE_DATA_STAGE); ("direction", direction r)]).

Definition status_trb (r : RequestTemplate) : TRB :=
  let status_direction :=
    if setup_transfer_type r =? NoDataStage then DeviceToHost else if direction r =? 0 then 1 else 0 in
  Trb 0 (encode StatusStage [("interrupter_target", 0); ("chain_bit", 1); ("trb_type", TRB_TYPE_STATUS_STAGE);
    ("direction", status_direction); ("evaluate_next_trb", 0)]).

Definition EVENT_PARAMETER : Z := 0xBEEFBEEFBEEFBEEF.
Definition event_trb : TRB :=
  Trb EVENT_PARAMETER (encode EventData [("interrupt_target", 0); ("interrupt_on_completion", 1); ("trb_type", TRB_TYPE_EVENT_DATA)]).

(** The buffer of the data stage: its physical address and pages. *)
Definition data_stage (r : RequestTemplate) : io (usb D) (Z * Z) :=
  _ ← lift (c_assert (negb (rq_length r =? 0)));
  _ ← lift (c_assert (negb (setup_transfer_type r =? NoDataStage)));
  let num_pages := round_up_pages (rq_length r) in
  data_buffer_phys ← usb_malloc_contiguous num_pages;
  data_buffer_virt ← to_virt data_buffer_phys;
  _ ← zero_memory data_buffer_virt (PAGE_SIZE * num_pages);
  _ ← enqueue_endpoint (slot_number r) 0 (data_trb r data_buffer_phys);
  mret (data_buffer_phys, num_pages).

(** [output] says whether there is a place for the answer; its bytes are the result. *)
Definition make_request (fuel : nat) (output : bool) (r : RequestTemplate) : io (usb D) (list Z) :=
  _ ← enqueue_endpoint (slot_number r) 0 (setup_trb r);
  buffer ← (if output then b ← data_stage r; mret (Some b) else mret None);
  _ ← enqueue_endpoint (slot_number r) 0 (status_trb r);
  _ ← enqueue_endpoint (slot_number r) 0 event_trb;
  _ ← expect_completion (slot_number r) FetchAndCopy;
  _ ← ring_doorbell (slot_number r) 0;
  result ← wait_done fuel (slot_number r);
  _ ← lift (c_assert (negb (get TypeTransfer "trb_type" (status result) =? 0)));
  _ ← lift (c_assert (get TypeTransfer "completion_code" (status result) =? 1));
  _ ← lift (c_assert (get TypeTransfer "slot_id" (status result) =? slot_number r));
  _ ← lift (c_assert (negb (get TypeTransfer "event_data" (status result) =? 0)));
  _ ← lift (c_assert (parameter result =? EVENT_PARAMETER));
  _ ← frame_ends (slot_number r);
  match buffer with
  | None => mret []
  | Some (data_buffer_phys, num_pages) =>
      data_buffer_virt ← to_virt data_buffer_phys;
      l ← get_memory (load_buffer data_buffer_virt (rq_length r));
      _ ← usb_free_contiguous data_buffer_phys num_pages;
      mret l
  end.

Definition send_control_transfer (fuel : nat) (slot descriptor_type descriptor_index num_bytes : Z) : io (usb D) (list Z) :=
  make_request fuel true (MkRequest slot 1 RequestTypeStandard RecipientDevice GET_DESCRIPTOR
    (descriptor_index + 256 * descriptor_type) 0 (u16 num_bytes) InDataStage).

Definition read_configuration_descriptor (fuel : nat) (slot_id configuration_index : Z) : io (usb D) ExternConfigDesc :=
  initial_config ← send_control_transfer fuel slot_id DESCRIPTOR_TYPE_CONFIGURATION configuration_index (layout_size ConfigurationDescriptor);
  '(len, total_length, result) ← lift (check_configuration initial_config);
  data ← send_control_transfer fuel slot_id DESCRIPTOR_TYPE_CONFIGURATION configuration_index total_length;
  ifs ← lift (parse_interfaces data fuel len);
  mret (with_interfaces ifs result).

(** ** Contexts *)

(** Counts down over the unused entries at the end. *)
Definition set_context_entries (device_context : Z) : io (usb D) () :=
  i ← io_while 31 (λ i : Z,
    m ← get_memory (get_ctx endpoint_context_1 "max_packet_size" (u64 (endpoint_context device_context i + 4)));
    if m =? 0 then _ ← lift (c_assert (negb (i =? 0))); mret (inl (i - 1)) else mret (inr i)) 30;
  set_memory (put_ctx slot_context_0 "context_entries" (i + 1) device_context).

(** [c->endpoint_context[i] = (struct EndpointContext){...}] *)
Definition write_endpoint_context (c i ep_type max_packet_size trbs_phys : Z) : io (usb D) () :=
  let p := endpoint_context c i in
  let w (k v : Z) : io (usb D) () := set_memory (store_dword (u64 (p + 4 * k)) v) in
  _ ← w 0 0;
  _ ← w 1 (encode endpoint_context_1 [("ep_type", ep_type); ("cerr", 3); ("max_packet_size", max_packet_size)]);
  _ ← w 2 (encode endpoint_context_2 [("tr_dequeue_pointer_lo", Z.shiftr trbs_phys 4); ("dcs", 1)]);
  _ ← w 3 (u32 (Z.shiftr trbs_phys 32));
  _ ← w 4 (encode endpoint_context_4 [("average_trb_length", 8)]);
  _ ← w 5 0; _ ← w 6 0; w 7 0.

(** The ring of an endpoint, in its place of the slot. *)
Definition create_endpoint_ring (slot ep : Z) : io (usb D) Ring :=
  r ← new_ring;
  d ← get_slot slot;
  l ← lift (arr_set (endpoint_rings d) ep r);
  _ ← set_data (with_slot slot (with_rings l));
  mret r.

(** [assert(device->device_context->endpoint_context[i].ep_state == 1)] and the same of [dcs]. *)
Definition check_endpoint (slot i : Z) : io (usb D) () :=
  d ← get_slot slot;
  s ← get_memory (get_ctx endpoint_context_0 "ep_state" (endpoint_context (device_context d) i));
  _ ← lift (c_assert (s =? 1));
  c ← get_memory (get_ctx endpoint_context_2 "dcs" (u64 (endpoint_context (device_context d) i + 8)));
  lift (c_assert (c =? 1)).
End events.
