(* ===== verification/XhciDevices.v ===== *)
(** * The devices on the USB: the rest of stuos/src/xhci_keyboard.c, and stuos/src/xhci_msd.c *)
From S2P Require Import Prelude Bytes Arrays Hardware BitFields Slab Paging Tty BlockDev Pci Trb UsbDescriptors Xhci XhciWorld XhciKeyboard XhciEvents.
#[local] Open Scope string_scope.
#[local] Open Scope list_scope.
#[local] Open Scope Z_scope.

(** [struct CommandBlockWrapper], packed, and the fields read of [struct CommandStatusWrapper]. *)
Record CommandBlockWrapper := MkCBW {
  cbw_signature : Z; tag : Z; transfer_length : Z; cbw_direction : Z; lun : Z; command_len : Z; command : list Z
}.
Definition CBW_SIGNATURE : Z := 0x43425355.
Definition CSW_SIGNATURE : Z := 0x53425355.
Definition SIZEOF_CBW : Z := 31.
Definition SIZEOF_CSW : Z := 13.
(** [command] is 16 bytes, those the initialiser does not name zero. *)
Definition encode_cbw (c : CommandBlockWrapper) : list Z :=
  le_bytes 4 (cbw_signature c) ++ le_bytes 4 (tag c) ++ le_bytes 4 (transfer_length c) ++ [128 * cbw_direction c] ++ [lun c] ++
  [command_len c] ++ command c ++ replicate (16 - length (command c)) 0.
Definition with_tag (t : Z) (c : CommandBlockWrapper) : CommandBlockWrapper :=
  MkCBW (cbw_signature c) t (transfer_length c) (cbw_direction c) (lun c) (command_len c) (command c).
Definition CommandStatusWrapper : layout := [("signature", 4); ("tag", 4); ("data_residue", 4); ("status", 1)].
Definition csw_field (b : list Z) (f : string) : Z :=
  field b (Z.to_nat (offsetof CommandStatusWrapper f)) (Z.to_nat (width_of CommandStatusWrapper f)).

(** [(bytes[0] << 24) | (bytes[1] << 16) | (bytes[2] << 8) | bytes[3]] *)
Definition flip_endianness (val : Z) : Z :=
  let bytes := le_bytes 4 val in
  let b (i : nat) := default 0 (bytes !! i) in
  u32 (Z.lor (Z.lor (Z.lor (Z.shiftl (b 0%nat) 24) (Z.shiftl (b 1%nat) 16)) (Z.shiftl (b 2%nat) 8)) (b 3%nat)).

Record MassStorageDeviceXHCI := MkMassStorage { size_class : Z; slot_of : Z; in_of : Z; out_of : Z; last_lba : Z }.

(** READ(10) and WRITE(10) of one block. *)
Definition block_cbw (opcode dir sector_number : Z) : CommandBlockWrapper :=
  let bytes := le_bytes 8 sector_number in
  let b (i : nat) := default 0 (bytes !! i) in
  MkCBW CBW_SIGNATURE 0 BLOCK_DEVICE_READ_SIZE dir 0 0x0A [opcode; 0; b 3%nat; b 2%nat; b 1%nat; b 0%nat; 0; 0; 1; 0].
Definition capacity_cbw : CommandBlockWrapper := MkCBW CBW_SIGNATURE 0 8 1 0 0x0A [0x25; 0; 0; 0; 0; 0; 0; 0; 0; 0].

Section devices.
Context {D : Type} `{!PortIO D} `{!Mmio D} `{!UsbController D}.

(** ** The keyboard *)
Definition keyboard_request (slot type recip req val ind : Z) : RequestTemplate :=
  MkRequest slot HostToDevice type recip req val ind 0 NoDataStage.

Definition initialise_keyboard (fuel : nat) (slot_number : Z) (config : ExternConfigDesc) (interface_num : Z) : io (usb D) () :=
  if_descriptor ← lift (arr_get (interfaces config) interface_num);
  _ ← make_request fuel false (keyboard_request slot_number RequestTypeStandard RecipientDevice SET_CONFIGURATION (configuration_value config) 0);
  _ ← make_request fuel false (keyboard_request slot_number RequestTypeClass RecipientInterface SET_IDLE 0 interface_num);
  _ ← make_request fuel false (keyboard_request slot_number RequestTypeClass RecipientInterface SET_PROTOCOL 0 interface_num);
  _ ← lift (c_assert (num_endpoints if_descriptor =? 1));
  ep ← lift (arr_get (endpoints if_descriptor) 0);
  in_index ← lift (calculate_endpoint_index (endpoint_num ep) 1);
  ring ← create_endpoint_ring slot_number in_index;
  device ← get_slot slot_number;
  _ ← set_memory (store_dword (u64 (input_context device + 4)) (Z.lor 1 (u32 (Z.shiftl 1 (in_index + 1)))));
  let ctx := ic_device_context (input_context device) in
  _ ← write_endpoint_context ctx in_index 6 (max_packet_size ep) (trbs_phys ring);
  _ ← set_context_entries ctx;
  _ ← update_input_context fuel slot_number false;
  _ ← check_endpoint slot_number in_index;
  rep_phys ← usb_malloc4k;
  _ ← set_data (with_slot slot_number (with_handler_data
        (KeyboardData (MkPacketRecvState rep_phys in_index (replicate 8 0) false false))));
  _ ← set_data (with_slot slot_number (with_handler PacketRecv));
  _ ← enqueue_endpoint slot_number in_index (report_trb rep_phys);
  ring_doorbell slot_number in_index.

(** ** Mass storage: the bulk-only transport *)

(** One transfer: the block for it, the doorbell, the wait and the checks of the event; the first one installs the handler. *)
Definition normal_trb (phys len short : Z) : TRB :=
  Trb phys (encode NormalTRB [("trb_transfer_length", len); ("trb_type", TRB_TYPE_NORMAL); ("interrupt_on_completion", 1);
    ("interrupt_on_short_packet", short)]).

Definition bulk_transfer (fuel : nat) (slot_number ep : Z) (trb : TRB) (first : bool) : io (usb D) () :=
  _ ← enqueue_endpoint slot_number ep trb;
  _ ← set_data (with_slot slot_number (with_handler_data (FetchAndCopyData (Trb 0 0) false)));
  _ ← (if first then set_data (with_slot slot_number (with_handler FetchAndCopy)) else mret ());
  _ ← ring_doorbell slot_number ep;
  result ← wait_done fuel slot_number;
  _ ← lift (c_assert (get TypeTransfer "trb_type" (status result) =? TRB_TYPE_TRANSFER));
  _ ← lift (c_assert (get TypeTransfer "completion_code" (status result) =? 1));
  lift (c_assert (get TypeTransfer "trb_transfer_length" (status result) =? 0)).

(** The tag counter is the [static] of the function. [response_out] is the data to send, and the result the data
    received (of [response_len] bytes less the residue) with the new tag. *)
Definition send_bbb (fuel : nat) (next_free_tag slot_number in_index out_index : Z) (cbw : CommandBlockWrapper)
    (response_out : list Z) (response_len : Z) (is_read : bool) : io (usb D) (Z * list Z * Z) :=
  command_phys ← usb_malloc4k;
  command ← to_virt command_phys;
  _ ← set_memory (store_buffer command (encode_cbw (with_tag next_free_tag cbw)));
  _ ← lift (c_assert (0 <? response_len));
  let response_num_pages := round_up_pages response_len in
  response_phys ← usb_malloc_contiguous response_num_pages;
  response ← to_virt response_phys;
  _ ← (if is_read then mret ()
       else _ ← lift (if Z.of_nat (length response_out) <? response_len then Undef else Ok ());
            set_memory (store_buffer response (take (Z.to_nat response_len) response_out)));
  status_phys ← usb_malloc4k;
  status ← to_virt status_phys;
  _ ← bulk_transfer fuel slot_number out_index (normal_trb command_phys SIZEOF_CBW 0) true;
  _ ← bulk_transfer fuel slot_number (if is_read then in_index else out_index) (normal_trb response_phys response_len 1) false;
  _ ← bulk_transfer fuel slot_number in_index (normal_trb status_phys SIZEOF_CSW 0) false;
  csw ← get_memory (load_buffer status SIZEOF_CSW);
  command_tag ← get_memory (load_buffer (u64 (command + 4)) 4);
  _ ← lift (c_assert (csw_field csw "signature" =? CSW_SIGNATURE));
  _ ← lift (c_assert (csw_field csw "tag" =? le_val command_tag));
  _ ← lift (c_assert (csw_field csw "status" =? 0));
  let n := u32 (response_len - csw_field csw "data_residue") in
  data ← (if is_read then get_memory (load_buffer response n) else mret []);
  _ ← usb_free4k command_phys;
  _ ← usb_free_contiguous response_phys response_num_pages;
  _ ← usb_free4k status_phys;
  _ ← set_data (with_slot slot_number (with_handler NoHandler));
  _ ← frame_ends slot_number;
  mret (n, data, u32 (next_free_tag + 1)).

Definition msd_block_read (fuel : nat) (msd : MassStorageDeviceXHCI) (t sector_number : Z) : io (usb D) (list Z * Z) :=
  _ ← lift (c_assert (sector_number <=? last_lba msd));
  if size_class msd =? 10 then
    _ ← lift (c_assert (sector_number <=? 0xFFFFFFFF));
    '(n, data, t) ← send_bbb fuel t (slot_of msd) (in_of msd) (out_of msd) (block_cbw 0x28 1 sector_number) [] BLOCK_DEVICE_READ_SIZE true;
    _ ← lift (c_assert (n =? BLOCK_DEVICE_READ_SIZE));
    mret (data, t)
  else lift Halt.

Definition msd_block_write (fuel : nat) (msd : MassStorageDeviceXHCI) (t sector_number : Z) (input : list Z) : io (usb D) Z :=
  _ ← lift (c_assert (sector_number <=? last_lba msd));
  if size_class msd =? 10 then
    _ ← lift (c_assert (sector_number <=? 0xFFFFFFFF));
    '(n, _, t) ← send_bbb fuel t (slot_of msd) (in_of msd) (out_of msd) (block_cbw 0x2A 0 sector_number) input BLOCK_DEVICE_READ_SIZE false;
    _ ← lift (c_assert (n =? BLOCK_DEVICE_READ_SIZE));
    mret t
  else lift Halt.

(** The in and the out endpoint of the interface; the two asserts on the transfer type assign it and always hold. *)
Definition msd_endpoints (if_descriptor : ExternIfDesc) : outcome (ExternEpDesc * ExternEpDesc) :=
  _ ← c_assert (num_endpoints if_descriptor =? 2);
  _ ← c_assert (protocol if_descriptor =? 0x50);
  _ ← c_assert (class_code if_descriptor =? 0x08);
  _ ← c_assert (sub_class if_descriptor =? 0x06);
  e0 ← arr_get (endpoints if_descriptor) 0;
  e1 ← arr_get (endpoints if_descriptor) 1;
  let '(ein, eout) := if is_in e0 =? 0 then (e1, e0) else (e0, e1) in
  _ ← c_assert (negb (is_in ein =? 0));
  _ ← c_assert (is_in eout =? 0);
  _ ← c_assert (interval ein =? 0);
  _ ← c_assert (interval eout =? 0);
  Ok (ein, eout).

(** Up to the registration with the block devices: the device and the new tag. *)
Definition initialise_msd (fuel : nat) (t slot_number : Z) (config : ExternConfigDesc) (interface_num : Z) : io (usb D) (MassStorageDeviceXHCI * Z) :=
  if_descriptor ← lift (arr_get (interfaces config) interface_num);
  '(ein, eout) ← lift (msd_endpoints if_descriptor);
  in_index ← lift (calculate_endpoint_index (endpoint_num ein) 1);
  in_ring ← create_endpoint_ring slot_number in_index;
  out_index ← lift (calculate_endpoint_index (endpoint_num eout) 0);
  out_ring ← create_endpoint_ring slot_number out_index;
  device ← get_slot slot_number;
  _ ← set_memory (store_dword (u64 (input_context device + 4))
        (Z.lor (Z.lor 1 (u32 (Z.shiftl 1 (in_index + 1)))) (u32 (Z.shiftl 1 (out_index + 1)))));
  let ctx := ic_device_context (input_context device) in
  _ ← write_endpoint_context ctx in_index 6 (max_packet_size ein) (trbs_phys in_ring);
  _ ← write_endpoint_context ctx out_index 2 (max_packet_size ein) (trbs_phys out_ring);
  _ ← set_context_entries ctx;
  _ ← update_input_context fuel slot_number false;
  _ ← check_endpoint slot_number in_index;
  _ ← check_endpoint slot_number out_index;
  _ ← make_request fuel false (MkRequest slot_number HostToDevice RequestTypeStandard RecipientDevice SET_CONFIGURATION
        (configuration_value config) 0 0 NoDataStage);
  l ← make_request fuel true (MkRequest slot_number DeviceToHost RequestTypeClass RecipientInterface GET_MAX_LUN 0 0 1 InDataStage);
  let max_lun := le_val l in
  let max_lun := if max_lun =? 0xFF then 0 else max_lun in
  _ ← lift (c_assert (max_lun <=? 15));
  _ ← lift (c_assert (max_lun + 1 =? 1));
  '(n, capacity, t) ← send_bbb fuel t slot_number in_index out_index capacity_cbw [] 8 true;
  _ ← lift (c_assert (n =? 8));
  let last_valid_lba := field capacity 0 4 in
  _ ← lift (c_assert (negb (last_valid_lba =? 0xFFFFFFFF)));
  _ ← lift (c_assert (flip_endianness (field capacity 4 4) =? BLOCK_DEVICE_READ_SIZE));
  _ ← set_data (with_slot slot_number (with_handler NoHandler));
  mret (MkMassStorage 10 slot_number in_index out_index (flip_endianness last_valid_lba), t).
End devices.
