(* ===== verification/XhciInit.v ===== *)
(** * Starting the USB controller and its ports: the rest of stuos/src/xhci_driver.c

    The controller's own state after [initialise_xhci] is the driver's data; the drivers of the devices are those of XhciDevices.v.
    The disks that are found are the result; registering them is fs_dev.c's. *)
From S2P Require Import Prelude Bytes Arrays Hardware BitFields Slab Paging Idt Tty Pci Trb UsbDescriptors Xhci XhciWorld XhciKeyboard XhciEvents XhciDevices.
#[local] Open Scope string_scope.
#[local] Open Scope list_scope.
#[local] Open Scope Z_scope.

Definition device_field (b : list Z) (f : string) : Z :=
  field b (Z.to_nat (offsetof DeviceDescriptor f)) (Z.to_nat (width_of DeviceDescriptor f)).

(** [(const uint16_t[]){8,64,8,64,512,512}[speed]] *)
Definition ep0_packet_size (speed : Z) : outcome Z := arr_get [8; 64; 8; 64; 512; 512] speed.

(** [1<<n] *)
Definition shift_one (n : Z) : outcome Z := if (0 <=? n) && (n <? 31) then Ok (Z.shiftl 1 n) else Undef.

Section init.
Context {D : Type} `{!PortIO D} `{!Mmio D} `{!UsbController D}.

(** ** A port *)

(** The reset, up to the check that the port is enabled; [None] for an empty port. *)
Definition reset_port (fuel : nat) (port_idx : Z) : io (usb D) (option Z) :=
  x ← get_data;
  let reg := cap_length x + PORTSC_OFFSET port_idx in
  portsc ← read_reg reg;
  _ ← lift (c_assert (negb (Z.land portsc PORTSC_PP =? 0)));
  if (Z.land portsc PORTSC_CCS =? 0) || (Z.land portsc PORTSC_CSC =? 0) then mret None
  else
    is_usb3 ← lift (arr_get (port_is_usb3 x) port_idx);
    let portsc := Z.lor portsc (Z.lor (Z.lor PORTSC_CSC PORTSC_PEC) PORTSC_PRC) in
    let portsc := Z.lor portsc (if is_usb3 : bool then PORTSC_WPR else PORTSC_PR) in
    _ ← write_reg portsc reg;
    _ ← delay;
    portsc ← read_reg reg;
    portsc ← io_while fuel (λ portsc,
      if (is_usb3 && (Z.land portsc PORTSC_WRC =? 0)) || (negb is_usb3 && (Z.land portsc PORTSC_PRC =? 0)) then
        portsc ← read_reg reg; mret (inl portsc)
      else mret (inr portsc)) portsc;
    _ ← delay;
    let portsc := Z.lor portsc (Z.lor (Z.lor (Z.lor PORTSC_PRC PORTSC_WRC) PORTSC_CSC) PORTSC_PEC) in
    let portsc := Z.land portsc (u32 (Z.lnot PORTSC_PED)) in
    _ ← write_reg portsc reg;
    _ ← delay;
    portsc ← read_reg reg;
    _ ← lift (c_assert (negb (Z.land portsc PORTSC_PED =? 0)));
    mret (Some portsc).

(** A slot of the controller, its number in the event that slot 0 waits for. *)
Definition enable_slot (fuel : nat) : io (usb D) Z :=
  _ ← enqueue_command (Trb 0 (encode minimal [("trb_type", TRB_TYPE_ENABLE_SLOT)]));
  _ ← set_data (with_slot 0 (with_handler_data (FetchAndCopyData (Trb 0 0) false)));
  _ ← ring_command_doorbell;
  result ← wait_done fuel 0;
  _ ← set_data (with_slot 0 (with_handler_data NoData));
  _ ← lift (c_assert (get CommandCompletionEvent "trb_type" (status result) =? TRB_TYPE_CMD_COMPLETION));
  _ ← lift (c_assert (get CommandCompletionEvent "completion_code" (status result) =? 1));
  let slot_number := get CommandCompletionEvent "slot_id" (status result) in
  _ ← lift (c_assert (negb (slot_number =? 0)));
  mret slot_number.

(** The ring of endpoint 0 and the two contexts of the slot; returns the input context. *)
Definition create_contexts (slot_number port_idx portsc : Z) : io (usb D) Z :=
  ring ← create_endpoint_ring slot_number 0;
  device_context_phys ← usb_malloc4k;
  device_context ← to_virt device_context_phys;
  _ ← zero_memory device_context SIZEOF_DeviceContext;
  x ← get_data;
  _ ← set_memory (store_word (u64 (dcbaa_virt x + 8 * slot_number)) device_context_phys);
  input_context_phys ← usb_malloc4k;
  input_context ← to_virt input_context_phys;
  _ ← zero_memory input_context SIZEOF_InputContext;
  _ ← set_data (with_slot slot_number (with_contexts input_context_phys input_context device_context));
  let ctx := ic_device_context input_context in
  _ ← set_memory (λ st, store_dword (u64 (input_context + 4)) (Z.lor (load_dword (u64 (input_context + 4)) st) 3) st);
  _ ← set_memory (put_ctx slot_context_0 "speed" (PORTSC_speed portsc) ctx);
  _ ← set_memory (put_ctx slot_context_1 "root_hub_port_num" (port_idx + 1) (u64 (ctx + 4)));
  _ ← set_memory (put_ctx slot_context_2 "interrupt_target" 0 (u64 (ctx + 8)));
  size ← lift (ep0_packet_size (PORTSC_speed portsc));
  _ ← write_endpoint_context ctx 0 4 size (trbs_phys ring);
  _ ← set_context_entries ctx;
  mret input_context.

(** [c->endpoint_context[0] = d->endpoint_context[0]] *)
Definition copy_endpoint_context (c d : Z) : io (usb D) () :=
  l ← get_memory (λ st, (λ k, load_dword (u64 (endpoint_context d 0 + 4 * k)) st) <$> seqZ 0 8);
  set_memory (λ st, foldl (λ st p, store_dword (u64 (endpoint_context c 0 + 4 * p.1)) p.2 st) st (zip (seqZ 0 8) l)).

(** The address of the device and its descriptor. *)
Definition address_device (fuel : nat) (slot_number input_context : Z) : io (usb D) () :=
  x ← get_data;
  let dctx := device_context (slots x slot_number) in
  _ ← set_input_context fuel slot_number 1;
  s ← get_memory (get_ctx slot_context_3 "slot_state" (u64 (dctx + 12)));
  _ ← lift (c_assert (s =? 1));
  a ← get_memory (get_ctx slot_context_3 "device_address" (u64 (dctx + 12)));
  _ ← lift (c_assert (a =? 0));
  e ← get_memory (get_ctx endpoint_context_0 "ep_state" (endpoint_context dctx 0));
  _ ← lift (c_assert (e =? 1));
  _ ← set_input_context fuel slot_number 0;
  s ← get_memory (get_ctx slot_context_3 "slot_state" (u64 (dctx + 12)));
  _ ← lift (c_assert (s =? 2));
  first ← send_control_transfer fuel slot_number DESCRIPTOR_TYPE_DEVICE 0 8;
  let ctx := ic_device_context input_context in
  _ ← copy_endpoint_context ctx dctx;
  _ ← set_memory (store_dword (u64 (input_context + 4)) 2);
  size ← lift (if 3 <=? device_field first "release_bcd_maj" then shift_one (device_field first "max_packet_size")
               else Ok (device_field first "max_packet_size"));
  _ ← set_memory (put_ctx endpoint_context_1 "max_packet_size" size (u64 (endpoint_context ctx 0 + 4)));
  _ ← update_input_context fuel slot_number true;
  _ ← lift (c_assert (device_field first "length" =? 18));
  descriptor ← send_control_transfer fuel slot_number DESCRIPTOR_TYPE_DEVICE 0 18;
  _ ← lift (c_assert (device_field descriptor "device_class" =? 0));
  lift (c_assert (device_field descriptor "configurations" =? 1)).

(** The first interface that a driver knows; a disk is returned with the new tag. *)
Definition start_interface (fuel : nat) (slot_number : Z) (config : ExternConfigDesc) (i : Z) (t : Z)
    : io (usb D) (Z + (option MassStorageDeviceXHCI * Z)) :=
  desc ← lift (arr_get (interfaces config) i);
  if (protocol desc =? 0x50) && (sub_class desc =? 0x06) then
    '(msd, t) ← initialise_msd fuel t slot_number config i; mret (inr (Some msd, t))
  else if (protocol desc =? 1) && (class_code desc =? 3) && (sub_class desc =? 1) then
    _ ← initialise_keyboard fuel slot_number config i; mret (inr (None, t))
  else mret (inl t).

Definition set_up_port (fuel : nat) (port_idx t : Z) : io (usb D) (option MassStorageDeviceXHCI * Z) :=
  enabled ← reset_port fuel port_idx;
  match enabled with
  | None => mret (None, t)
  | Some portsc =>
      slot_number ← enable_slot fuel;
      input_context ← create_contexts slot_number port_idx portsc;
      _ ← address_device fuel slot_number input_context;
      config ← read_configuration_descriptor fuel slot_number 0;
      _ ← lift (c_assert (0 <? num_interfaces config));
      r ← io_for 0 (num_interfaces config) (start_interface fuel slot_number config) t;
      mret (match r with inl t => (None, t) | inr r => r end)
  end.

(** ** The controller *)

(** One entry of the list of extended capabilities. *)
Definition extended_capability (fuel : nat) (xecp : Z) : io (usb D) (Z + ()) :=
  if xecp =? 0 then mret (inr ())
  else
    data ← read_reg xecp;
    let id := Z.land data 0xFF in
    _ ← (if id =? 1 then
           if negb (Z.land data USBLEGSUP_BIOS_OWNED_SEMAPHORE =? 0) then
             _ ← write_reg (Z.lor data USBLEGSUP_OS_OWNED_SEMAPHORE) xecp;
             io_while fuel (λ _ : (), v ← read_reg xecp;
               mret (if Z.land v USBLEGSUP_BIOS_OWNED_SEMAPHORE =? 0 then inr () else inl ())) ()
           else mret ()
         else if id =? 2 then
           second_dword ← read_reg (u32 (xecp + 4));
           third_dword ← read_reg (u32 (xecp + 8));
           _ ← lift (c_assert (bool_decide (le_bytes 4 second_dword = [85; 83; 66; 32])));
           let port_index := u8 (Z.land third_dword 0xFF - 1) in
           let port_count := Z.land (Z.shiftr third_dword 8) 0xFF in
           io_while fuel (λ i,
             if i <? port_index + port_count then
               x ← get_data;
               l ← lift (arr_set (port_is_usb3 x) i (Z.shiftr data 24 =? 3));
               _ ← set_data (with_port_is_usb3 l);
               mret (inl (u8 (i + 1)))
             else mret (inr ())) port_index
         else mret ());
    mret (inl (Z.shiftl (Z.land (Z.shiftr data 8) 0xFF) 2)).

(** The command register, and the status the controller answers with. *)
Definition halt_and_reset (fuel : nat) : io (usb D) () :=
  x ← get_data;
  _ ← write_reg 0 (cap_length x + USBCMD_OFFSET);
  _ ← io_while fuel (λ _ : (), v ← read_reg (cap_length x + USBSTS_OFFSET); mret (if USBSTS_hchalted v then inr () else inl ())) ();
  _ ← write_reg USBCMD_HCRST (cap_length x + USBCMD_OFFSET);
  io_while fuel (λ _ : (), v ← read_reg (cap_length x + USBCMD_OFFSET); mret (if Z.land v USBCMD_HCRST =? 0 then inr () else inl ())) ().

(** The device context base address array, with the scratchpad pages in its first place. *)
Definition create_dcbaa (scratchpad_required : Z) : io (usb D) Z :=
  dcbaa_phys ← usb_malloc4k;
  dcbaa ← to_virt dcbaa_phys;
  _ ← set_data (with_dcbaa dcbaa);
  _ ← zero_memory dcbaa PAGE_SIZE;
  _ ← (if negb (scratchpad_required =? 0) then
         _ ← lift (c_assert (scratchpad_required * 8 <? PAGE_SIZE));
         pointers_phys ← usb_malloc4k;
         pointers ← to_virt pointers_phys;
         _ ← zero_memory pointers PAGE_SIZE;
         _ ← io_for (R := Empty_set) 0 scratchpad_required (λ i _,
           scratchpad ← usb_malloc4k;
           p ← to_virt scratchpad;
           _ ← zero_memory p PAGE_SIZE;
           _ ← set_memory (store_word (u64 (pointers + 8 * i)) scratchpad);
           mret (inl tt)) tt;
         set_memory (store_word dcbaa pointers_phys)
       else set_memory (store_word dcbaa 0));
  mret dcbaa_phys.

(** The event ring and the table with its one segment. *)
Definition create_event_ring : io (usb D) Z :=
  r ← new_ring;
  _ ← set_data (with_event_ring r);
  table_phys ← usb_malloc4k;
  table ← to_virt table_phys;
  _ ← zero_memory table PAGE_SIZE;
  _ ← set_memory (store_word table (trbs_phys r));
  _ ← set_memory (store_word (u64 (table + 8)) (u16 (count r)));
  mret table_phys.

Definition write_reg_64 (v o : Z) : io (usb D) () :=
  _ ← write_reg (Z.land v 0xFFFFFFFF) o; write_reg (Z.shiftr v 32) (o + 4).

Definition all_ports (fuel : nat) (max_ports t : Z) : io (usb D) (list MassStorageDeviceXHCI * Z) :=
  r ← io_for (R := Empty_set) 0 max_ports (λ port_idx '(disks, t),
    '(disk, t) ← set_up_port fuel port_idx t;
    mret (inl (disks ++ match disk with Some m => [m] | None => [] end, t))) ([], t);
  match r with inl s => mret s | inr v => Empty_set_rect (λ _, io (usb D) (list MassStorageDeviceXHCI * Z)) v end.

(** [irq] is the function [handle_incoming_event], and [controller_i_found] whether the pointer of that name is set. Returns the disks that were found with the tag counter, and the interrupt vectors. *)
Definition initialise_xhci {H} (irq : H) (controller_i_found : bool) (fuel : nat) (dev : PciDevice) (dev_data : PciData) (t : Z) (vectors : idt_state (H := H))
    : io (usb D) (list MassStorageDeviceXHCI * Z * idt_state (H := H)) :=
  vectors ← lift (initialise_idt_entry (allocated_interrupt dev_data) irq vectors);
  b ← lift (arr_get (bar_list dev_data) 0);
  v ← on_ctrl (read_bar_32 b CAPLENGTH_AND_VERSION_OFFSET);
  let caplen := CAPLENGTH_CAPLENGTH v in
  rts ← on_ctrl (read_bar_32 b RTSOFF_OFFSET);
  db ← on_ctrl (read_bar_32 b DBOFF);
  hccparams1 ← on_ctrl (read_bar_32 b HCCPARAMS1_OFFSET);
  hcsparams1 ← on_ctrl (read_bar_32 b HCSPARAMS1_OFFSET);
  hcsparams2 ← on_ctrl (read_bar_32 b HCSPARAMS2_OFFSET);
  let max_ports := HCSPARAMS1_MAXPORTS hcsparams1 in
  let scratchpad_required := HCSPARAMS2_required_scratchpad_buffers hcsparams2 in
  _ ← lift (c_assert (negb controller_i_found));
  _ ← set_data (λ _, MkXHCIData no_ring no_ring b caplen rts db 0
        (λ _, with_handler FetchAndCopyToSlot0 no_device) (replicate 64 false));
  _ ← io_while fuel (extended_capability fuel) (HCCPARAMS1_xecp hccparams1);
  _ ← lift (c_assert (HCCPARAMS1_64BIT hccparams1));
  _ ← lift (c_assert (negb (HCCPARAMS1_csz hccparams1)));
  _ ← halt_and_reset fuel;
  _ ← write_reg 2 (caplen + DNCTRL_OFFSET);
  _ ← write_reg max_ports (caplen + CONFIG_OFFSET);
  _ ← lift (c_assert (max_ports * 8 <? PAGE_SIZE));
  dcbaa_phys ← create_dcbaa scratchpad_required;
  _ ← write_reg_64 dcbaa_phys (caplen + DCBAAP_OFFSET);
  cr ← new_ring;
  _ ← set_data (with_command_ring cr);
  _ ← write_reg (Z.lor (Z.land (trbs_phys cr) 0xFFFFFFFF) (ring_cycle_state cr)) (caplen + CRCR_OFFSET);
  _ ← write_reg (Z.shiftr (trbs_phys cr) 32) (caplen + CRCR_OFFSET + 4);
  iman ← read_reg (IR_IMAN_OFFSET 0 + rts);
  _ ← write_reg (Z.lor iman IMAN_INTERRUPT_ENABLE) (IR_IMAN_OFFSET 0 + rts);
  _ ← write_reg 0 (IR_IMOD_OFFSET 0 + rts);
  table_phys ← create_event_ring;
  _ ← write_reg 1 (IR_ERSTSZ_OFFSET 0 + rts);
  _ ← update_erdp true;
  _ ← write_reg_64 table_phys (IR_ERSTBA_OFFSET 0 + rts);
  _ ← ack_irq 0;
  _ ← on_ctrl (config_write (config_address 0xD0 dev) 0xFFFFFFFF);
  _ ← on_ctrl (config_write (config_address 0xD8 dev) 0xFFFFFFFF);
  _ ← write_reg (Z.lor USBCMD_RS USBCMD_IE) (caplen + USBCMD_OFFSET);
  _ ← io_while fuel (λ _ : (), v ← read_reg (caplen + USBSTS_OFFSET);
    mret (if negb (USBSTS_hchalted v) && negb (USBSTS_cnr v) then inr () else inl ())) ();
  _ ← delay;
  found ← all_ports fuel max_ports t;
  mret (found, vectors).
End init.
