(* ===== verification/XhciMemory.v ===== *)
(** * Memory the USB controller and the driver share: bytes of pages, and rings in other pages *)
From S2P Require Import Prelude Bytes Arrays Slab Paging UserMemory Trb TrbSpec Xhci.
#[local] Open Scope list_scope.
#[local] Arguments wrap : simpl never.

(** Consecutive bytes of the physical memory, as the controller reads and writes them. *)
Definition dma_read (m : mm) (p n : Z) : list Z := phys_byte m <$> seqZ p n.
Fixpoint dma_write (p : Z) (l : list Z) (m : mm) : mm :=
  match l with [] => m | b :: l => dma_write (p + 1) l (set_phys_byte p b m) end.

Lemma length_dma_read m p n : length (dma_read m p n) = Z.to_nat n.
Proof. unfold dma_read. by rewrite length_fmap, length_seqZ. Qed.

Lemma dma_read_ext m m' p n : (∀ a, p ≤ a < p + n → phys_byte m' a = phys_byte m a) → dma_read m' p n = dma_read m p n.
Proof. intros H. apply list_fmap_ext. intros i a Ha%list_elem_of_lookup_2%elem_of_seqZ. apply H. lia. Qed.

(** What the driver's accesses through the direct map are of physical memory. *)
Lemma load_buffer_dma st p n : 0 ≤ p → p + n ≤ 2 ^ 64 → load_buffer (phys_to_hhdm st p) n st = dma_read st p n.
Proof.
  intros Hp Hn. unfold load_buffer, dma_read. destruct (decide (0 ≤ n)) as [H0|H0].
  2: { rewrite !seqZ_nil by lia. done. }
  apply fmap_seqZ_shift. intros k Hk. rewrite Z.add_0_l, hhdm_round_off by lia. done.
Qed.

Lemma load_buffer_dma_off st p o n : 0 ≤ p → 0 ≤ o → p + o + n ≤ 2 ^ 64 →
  load_buffer (u64 (phys_to_hhdm st p + o)) n st = dma_read st (p + o) n.
Proof.
  intros Hp Ho Hn. replace (u64 (phys_to_hhdm st p + o)) with (phys_to_hhdm st (p + o)); [apply load_buffer_dma; lia|].
  unfold phys_to_hhdm, wrap. rewrite Zplus_mod_idemp_l. f_equal. lia.
Qed.

Lemma store_buffer_dma l : ∀ st p, 0 ≤ p → p + Z.of_nat (length l) ≤ 2 ^ 64 → store_buffer (phys_to_hhdm st p) l st = dma_write p l st.
Proof.
  induction l as [|b l IH]; intros st p Hp Hl; [done|]. cbn [store_buffer dma_write length] in *.
  rewrite hhdm_round by lia. rewrite <-IH by lia. f_equal. unfold phys_to_hhdm, wrap. cbn [hhdm_offset set_phys_byte with_ram].
  rewrite Zplus_mod_idemp_l. f_equal. lia.
Qed.

Lemma dma_write_byte l : ∀ m p q, Forall is_byte l →
  phys_byte (dma_write p l m) q = if decide (p ≤ q < p + Z.of_nat (length l)) then default 0 (l !! Z.to_nat (q - p)) else phys_byte m q.
Proof.
  induction l as [|b l IH]; intros m p q Hl; cbn [dma_write length].
  { rewrite decide_False by lia. done. }
  apply Forall_cons in Hl as [Hb Hl]. rewrite IH, phys_byte_set by done. destruct (decide (q = p)) as [->|Hne].
  - rewrite decide_False, decide_True by lia. by rewrite Z.sub_diag.
  - destruct (decide (p ≤ q < p + Z.of_nat (S (length l)))) as [Hq|Hq]; [|by rewrite decide_False by lia].
    rewrite decide_True by lia. by replace (Z.to_nat (q - p)) with (S (Z.to_nat (q - (p + 1)))) by lia.
Qed.

Lemma dma_read_write m p l : Forall is_byte l → dma_read (dma_write p l m) p (Z.of_nat (length l)) = l.
Proof.
  intros Hl. apply list_eq. intros i. unfold dma_read. rewrite list_lookup_fmap. destruct (decide (i < length l)%nat) as [Hi|Hi].
  - rewrite lookup_seqZ_lt by lia. cbn [fmap option_fmap option_map]. rewrite dma_write_byte, decide_True by (done || lia).
    destruct (lookup_lt_is_Some_2 l i Hi) as [x Hx]. replace (Z.to_nat (p + Z.of_nat i - p)) with i by lia. by rewrite Hx.
  - rewrite lookup_seqZ_ge by lia. symmetry. apply lookup_ge_None. lia.
Qed.

Lemma dma_write_rest p l m : slab (dma_write p l m) = slab m ∧ hhdm_offset (dma_write p l m) = hhdm_offset m.
Proof. revert p m. induction l as [|b l IH]; intros p m; [done|]. cbn [dma_write]. destruct (IH (p + 1) (set_phys_byte p b m)) as [-> ->]. done. Qed.

(** ** Pages *)
Lemma page_word t q : frame_ok t → ¬ (t ≤ q < t + PAGE_SIZE) → ¬ (t ≤ q - q `mod` 8 < t + PAGE_SIZE).
Proof. intros [Ht _] Hq. unfold PAGE_SIZE in *. dlia. Qed.

Lemma word_page t q : frame_ok t → t ≤ q < t + PAGE_SIZE → t ≤ q - q `mod` 8 < t + PAGE_SIZE.
Proof. intros [Ht _] Hq. unfold PAGE_SIZE in *. dlia. Qed.

Lemma same_elsewhere_byte t st st' q : same_elsewhere t st st' → frame_ok t → ¬ (t ≤ q < t + PAGE_SIZE) → phys_byte st' q = phys_byte st q.
Proof. intros [_ H] Ht Hq. unfold phys_byte. by rewrite H by (by apply page_word). Qed.

Lemma same_elsewhere_refl t st : same_elsewhere t st st.
Proof. split; [exists (ram st); by destruct st|done]. Qed.

Lemma set_byte_elsewhere t st q b : frame_ok t → t ≤ q < t + PAGE_SIZE → same_elsewhere t st (set_phys_byte q b st).
Proof.
  intros Ht Hq. split; [by eexists|]. intros a Ha. rewrite set_phys_byte_word, decide_False; [done|]. intros ->.
  apply Ha. by apply word_page.
Qed.

Lemma dma_write_elsewhere t l : ∀ st q, frame_ok t → t ≤ q → q + Z.of_nat (length l) ≤ t + PAGE_SIZE → same_elsewhere t st (dma_write q l st).
Proof.
  induction l as [|b l IH]; intros st q Ht Hq Hl; cbn [dma_write length] in *; [apply same_elsewhere_refl|].
  eapply same_elsewhere_trans; [|apply IH; (done || lia)]. apply set_byte_elsewhere; [done|lia].
Qed.

(** A ring in another page is as it was. *)
Lemma slot_other t t' st st' i : same_elsewhere t st st' → frame_ok t → frame_ok t' → t ≠ t' → 0 ≤ i < 256 → slot st' t' i = slot st t' i.
Proof.
  intros [_ H] [Ht _] [Ht' _] Hne Hi. unfold slot. rewrite !H; [done|unfold PAGE_SIZE in *; dlia..].
Qed.

Lemma ring_holds_elsewhere t st st' r t' c C q : same_elsewhere t st st' → frame_ok t → t ≠ t' → ring_holds st r t' c C q → ring_holds st' r t' c C q.
Proof.
  intros Hs Ht Hne [Hf]. pose proof Hs as [[m ->] _]. constructor; try done; intros;
    rewrite (slot_other t t' st) by (done || (pose proof (slot_ok (C + Z.of_nat k)); lia) || (pose proof (slot_ok n); lia)); auto.
Qed.

Lemma events_hold_elsewhere t st st' r t' w C q : same_elsewhere t st st' → frame_ok t → t ≠ t' → events_hold st r t' w C q → events_hold st' r t' w C q.
Proof.
  intros Hs Ht Hne [Hf]. pose proof Hs as [[m ->] _]. constructor; try done; intros;
    rewrite (slot_other t t' st) by (done || apply slot_range; lia); auto.
Qed.

(** A ring that fits is enqueued to whatever else was stored in it. *)
Lemma page_managed s i a : slab_ok s → page_is s i false → ¬ is_free s a → page_addr s i ≠ a.
Proof. intros Hs Hi Ha <-. apply Ha. by exists i. Qed.
