(* ===== verification/UsbStick.v ===== *)
(** * A USB disk as the driver sees it

    The interface that the mass storage driver is verified against: a controller that serves one bulk-only SCSI disk. [bot] is
    the disk and where it is in the command, data and status stages of a request; [serve] is what the controller does when the
    doorbell of an endpoint rings: it takes the next block of the ring, moves its bytes and posts an event. *)
From S2P Require Import Prelude Bytes Arrays Hardware BitFields Slab Paging Pci Trb TrbSpec Xhci XhciWorld XhciMemory XhciEvents XhciDevices.
#[local] Open Scope string_scope.
#[local] Open Scope list_scope.
#[local] Open Scope Z_scope.

Definition be_bytes (n : nat) (v : Z) : list Z := reverse (le_bytes n v).
Definition be_val (l : list Z) : Z := le_val (reverse l).

(** ** The disk: the bulk-only transport and three SCSI commands *)
Inductive stage := Ready | DataIn (l : list Z) (tag : Z) | DataOut (lba tag : Z) | StatusStage (tag : Z).
Record bot := Bot { bot_disk : Z → list Z; bot_last : Z; bot_stage : stage }.
Definition with_stage (s : stage) (d : bot) : bot := Bot (bot_disk d) (bot_last d) s.

(** READ(10), WRITE(10) and READ CAPACITY(10), wrapped as command block wrappers. *)
Definition accept_command (d : bot) (l : list Z) : option stage :=
  let b (i : nat) := default 0 (l !! i) in
  let tag := field l 4 4 in
  let len := field l 8 4 in
  let lba := be_val (take 4 (drop 17 l)) in
  let one_block := (len =? 512) && (be_val (take 2 (drop 22 l)) =? 1) && (lba <=? bot_last d) in
  if (field l 0 4 =? CBW_SIGNATURE) && (b 13%nat =? 0) && (b 14%nat =? 10) then
    if (b 15%nat =? 0x28) && (b 12%nat =? 128) && one_block then Some (DataIn (bot_disk d lba) tag)
    else if (b 15%nat =? 0x2A) && (b 12%nat =? 0) && one_block then Some (DataOut lba tag)
    else if (b 15%nat =? 0x25) && (b 12%nat =? 128) && (len =? 8) then Some (DataIn (be_bytes 4 (bot_last d) ++ be_bytes 4 512) tag)
    else None
  else None.

Definition csw_bytes (tag : Z) : list Z := le_bytes 4 CSW_SIGNATURE ++ le_bytes 4 tag ++ le_bytes 4 0 ++ [0].

(** A transfer on one endpoint; [sent] is what the memory holds where the transfer is. The result is what the disk stores there, and the disk. *)
Definition bot_transfer (is_in : bool) (sent : list Z) (d : bot) : option (list Z * bot) :=
  match bot_stage d, is_in with
  | Ready, false => if bool_decide (length sent = 31%nat) then s ← accept_command d sent; Some ([], with_stage s d) else None
  | DataIn l tag, true => if bool_decide (length sent = length l) then Some (l, with_stage (StatusStage tag) d) else None
  | DataOut lba tag, false =>
      if bool_decide (length sent = 512%nat) then
        Some ([], Bot (λ s, if decide (s = lba) then sent else bot_disk d s) (bot_last d) (StatusStage tag))
      else None
  | StatusStage tag, true => if bool_decide (length sent = 13%nat) then Some (csw_bytes tag, with_stage Ready d) else None
  | _, _ => None
  end.

(** ** The controller *)

(** Where the registers are, the slot and the endpoints of the disk, and the pages of the rings. *)
Record place := Place {
  p_bar : BarInfo; p_cap : Z; p_rts : Z; p_db : Z; p_slot : Z; p_in : Z; p_out : Z; p_in_ring : Z; p_out_ring : Z; p_events : Z
}.
Definition ep_of (c : place) (is_in : bool) : Z := if is_in then p_in c else p_out c.
Definition ring_of (c : place) (is_in : bool) : Z := if is_in then p_in_ring c else p_out_ring c.

(** Where the controller is in the rings of the endpoints and in the event ring. *)
Record stick := Stick { st_bot : bot; st_in : Z * Z; st_out : Z * Z; st_event : Z * Z }.
Definition reader_of (s : stick) (is_in : bool) : Z * Z := if is_in then st_in s else st_out s.
Definition moved (is_in : bool) (d : bot) (pos w : Z * Z) (s : stick) : stick :=
  Stick d (if is_in then pos else st_in s) (if is_in then st_out s else pos) w.

(** A block that is a transfer by itself and asks for an event. *)
Definition plain_block (x : TRB) : bool :=
  (trb_type x =? TRB_TYPE_NORMAL) && (get NormalTRB "interrupt_on_completion" (status x) =? 1) &&
  (get NormalTRB "immediate_data" (status x) =? 0) && (get NormalTRB "chain_bit" (status x) =? 0) &&
  (get NormalTRB "interrupter_target" (status x) =? 0) && (get NormalTRB "block_event_interrupt" (status x) =? 0).

Definition transfer_event (ptr ep slot_id : Z) : TRB :=
  Trb ptr (encode TypeTransfer [("trb_transfer_length", 0); ("completion_code", 1); ("trb_type", TRB_TYPE_TRANSFER);
    ("endpoint_id", ep + 1); ("slot_id", slot_id)]).

Definition serve (c : place) (is_in : bool) (m : mm) (s : stick) : option (mm * stick) :=
  let t := ring_of c is_in in
  let '(x, pos) := read_ring t (reader_of s is_in) m in
  x ← x;
  if plain_block x then
    '(l, d) ← bot_transfer is_in (dma_read m (parameter x) (get NormalTRB "trb_transfer_length" (status x))) (st_bot s);
    let '(w, m) := post_event (p_events c) (st_event s) (transfer_event (t + SIZEOF_TRB * (pos.1 - 1)) (ep_of c is_in) (p_slot c))
                     (dma_write (parameter x) l m) in
    Some (m, moved is_in d pos w s)
  else None.

(** The registers the interrupt handler uses. *)
Definition event_registers (c : place) : list Z :=
  [p_cap c + USBSTS_OFFSET; p_rts c + IR_IMAN_OFFSET 0; p_rts c + IR_ERDP_OFFSET 0; p_rts c + IR_ERDP_OFFSET 0 + 4].

Section interface.
Context {D : Type} `{!PortIO D} `{!Mmio D} `{!UsbController D}.

(** The registers of the handler leave the disk alone; a doorbell asks for an endpoint to be served, which happens while the
    driver waits, after at most [stick_latency] rounds, and raises the interrupt. *)
Class UsbStick (c : place) := {
  stick_view : D → stick;
  bell : D → option bool;
  patience : D → nat;
  stick_latency : nat;
  stick_sector (d : D) s : length (bot_disk (st_bot (stick_view d)) s) = 512%nat ∧ Forall is_byte (bot_disk (st_bot (stick_view d)) s);
  patience_bound (d : D) : (patience d ≤ stick_latency)%nat;
  read_register_law (d : D) o : o ∈ event_registers c →
    ∃ v d', read_bar_32 (p_bar c) o d = Ok (v, d') ∧ stick_view d' = stick_view d ∧ bell d' = bell d;
  write_register_law (d : D) o v : o ∈ event_registers c →
    ∃ d', write_bar_32 (p_bar c) v o d = Ok ((), d') ∧ stick_view d' = stick_view d ∧ bell d' = bell d;
  doorbell_law (d : D) is_in : bell d = None →
    ∃ d', write_bar_32 (p_bar c) (ep_of c is_in + 1) (p_db c + DOORBELL_OFFSET (p_slot c)) d = Ok ((), d') ∧
      stick_view d' = stick_view d ∧ bell d' = Some is_in;
  run_law (d : D) m is_in m' s' : bell d = Some is_in → serve c is_in m (stick_view d) = Some (m', s') →
    let '(d', m1, irq) := usb_run d m in
    if irq then m1 = m' ∧ stick_view d' = s' ∧ bell d' = None
    else m1 = m ∧ stick_view d' = stick_view d ∧ bell d' = Some is_in ∧ (patience d' < patience d)%nat
}.
End interface.
#[global] Hint Mode UsbStick + - - - - : typeclass_instances.
Arguments UsbStick D {_ _ _} c.

(** ** The blocks and events of a transfer *)
Lemma get_set_cycle l f c x : l ∈ status_layouts → f ∈ fst <$> l → f ≠ "cycle_bit" → get l f (status (set_cycle_bit c x)) = get l f (status x).
Proof.
  intros Hl Hf Hne. pose proof status_layouts_ok as Hok. apply Forall_cons in Hok as [_ Hok].
  pose proof (proj1 (Forall_forall _ _) Hok l Hl) as (_ & Hw & Hnd).
  assert (Forall (λ l : layout, offsetof l "cycle_bit" = 32 ∧ width_of l "cycle_bit" = 1 ∧ "cycle_bit" ∈ fst <$> l) status_layouts) as Hc
    by (eapply bool_decide_unpack; vm_compute; exact I).
  destruct (proj1 (Forall_forall _ _) Hc l Hl) as (Eo & Ew & Hin). cbn [status set_cycle_bit].
  replace (put minimal "cycle_bit" c (status x)) with (put l "cycle_bit" c (status x)) by (unfold put; by rewrite Eo, Ew).
  by apply get_put_other.
Qed.

Lemma normal_block phys n short c : 0 ≤ n < 2 ^ 17 → let x := set_cycle_bit c (normal_trb phys n short) in
  plain_block x = true ∧ get NormalTRB "trb_transfer_length" (status x) = n ∧ parameter x = phys.
Proof.
  intros Hn x. unfold plain_block, x. rewrite trb_type_set, !get_set_cycle by (done || (eapply bool_decide_unpack; vm_compute; exact I)).
  unfold normal_trb, trb_type. cbn [status parameter set_cycle_bit].
  change (get minimal "trb_type") with (get NormalTRB "trb_type").
  rewrite !get_encode by (repeat constructor || (eapply bool_decide_unpack; vm_compute; exact I)).
  split; [reflexivity|]. split; [|done]. change (n `mod` 2 ^ 17 = n). by apply Z.mod_small.
Qed.

Lemma transfer_event_fields ptr ep s c : 0 ≤ s < 256 → let x := set_cycle_bit c (transfer_event ptr ep s) in
  trb_type x = TRB_TYPE_TRANSFER ∧ get TypeTransfer "trb_type" (status x) = TRB_TYPE_TRANSFER ∧
  get TypeTransfer "completion_code" (status x) = 1 ∧ get TypeTransfer "trb_transfer_length" (status x) = 0 ∧
  get TypeTransfer "slot_id" (status x) = s.
Proof.
  intros Hs x. unfold x. rewrite trb_type_set, !get_set_cycle by (done || (eapply bool_decide_unpack; vm_compute; exact I)).
  unfold transfer_event, trb_type. cbn [status].
  change (get minimal "trb_type") with (get TypeTransfer "trb_type").
  rewrite !get_encode by (repeat constructor || (eapply bool_decide_unpack; vm_compute; exact I)).
  split; [reflexivity|]. split; [reflexivity|]. split; [reflexivity|]. split; [reflexivity|].
  change (s `mod` 2 ^ 8 = s). by apply Z.mod_small.
Qed.
