(* ===== verification/XhciMsdSpec.v ===== *)
(** * The mass storage driver against a USB disk: one bulk transfer *)
From S2P Require Import Prelude Bytes Arrays Hardware BitFields Slab Paging UserMemory BlockDev Pci Trb TrbSpec Xhci XhciWorld XhciMemory XhciEvents XhciDevices UsbStick.
#[local] Open Scope string_scope.
#[local] Open Scope list_scope.
#[local] Open Scope Z_scope.
#[local] Arguments wrap : simpl never.

Lemma slots_with_slot i f x : slots (with_slot i f x) i = f (slots x i).
Proof. cbn. by rewrite decide_True. Qed.

Section driver.
Context {D : Type} `{!PortIO D} `{!Mmio D} `{!UsbController D} {c : place} `{!UsbStick D c}.
Abbreviation stick_view := (@stick_view D _ _ _ c _).
Abbreviation bell := (@bell D _ _ _ c _).
Abbreviation patience := (@patience D _ _ _ c _).
Abbreviation stick_latency := (@stick_latency D _ _ _ c _).
Implicit Types (w : usb D) (x : xHCIData) (d : D) (b : bool).

(** The driver knows where the registers, the slot and the endpoints are. *)
Record placed (x : xHCIData) : Prop := {
  pl_bar : bar x = p_bar c; pl_cap : cap_length x = p_cap c; pl_rts : rts_offset x = p_rts c; pl_db : db_offset x = p_db c;
  pl_slot : 0 ≤ p_slot c < 256;
  pl_eps b : 0 ≤ ep_of c b < 15;
  pl_two : p_in c ≠ p_out c;
  pl_rings : length (endpoint_rings (slots x (p_slot c))) = 15%nat
}.

(** The pages of the rings are three, and the page allocator does not hand them out. *)
Record rings_apart : Prop := {
  ra_frames b : frame_ok (ring_of c b);
  ra_events : frame_ok (p_events c);
  ra_in_out : p_in_ring c ≠ p_out_ring c;
  ra_ring_events b : ring_of c b ≠ p_events c
}.
Definition not_a_ring (t : Z) : Prop := (∀ b, t ≠ ring_of c b) ∧ t ≠ p_events c.
Definition off_rings (a : Z) : Prop :=
  (∀ b, ¬ (ring_of c b ≤ a < ring_of c b + PAGE_SIZE)) ∧ ¬ (p_events c ≤ a < p_events c + PAGE_SIZE).

(** The driver's ring of an endpoint, with [q] pending. *)
Definition ring_pending (m : mm) (x : xHCIData) (s : stick) (b : bool) (q : list TRB) : Prop :=
  ∃ r C, endpoint_rings (slots x (p_slot c)) !! Z.to_nat (ep_of c b) = Some r ∧ ring_holds m r (ring_of c b) (reader_of s b) C q.
Definition events_pending (m : mm) (x : xHCIData) (s : stick) (q : list TRB) : Prop :=
  ∃ C, events_hold m (event_ring x) (p_events c) (st_event s) C q.

Record stick_ok (w : usb D) : Prop := {
  so_placed : placed (usb_data w);
  so_apart : rings_apart;
  so_rings b : ring_pending (usb_memory w) (usb_data w) (stick_view (usb_ctrl w)) b [];
  so_events : events_pending (usb_memory w) (usb_data w) (stick_view (usb_ctrl w)) [];
  so_bell : bell (usb_ctrl w) = None;
  so_slab : slab_ok (slab (usb_memory w));
  so_held a : is_free (slab (usb_memory w)) a → not_a_ring a
}.

(** ** Registers *)
Lemma wp_read_reg o w Q : placed (usb_data w) → o ∈ event_registers c →
  (∀ v d, stick_view d = stick_view (usb_ctrl w) → bell d = bell (usb_ctrl w) → Q (v, Usb (usb_memory w) d (usb_data w) (usb_tty w))) →
  wp False (read_reg o w) Q.
Proof.
  intros Hp Ho HQ. destruct (read_register_law (usb_ctrl w) o Ho) as (v & d & E & Ev & Eb).
  unfold read_reg. rewrite (io_bind_Ok get_data _ w (usb_data w) w eq_refl). unfold on_ctrl. rewrite (pl_bar _ Hp), E. cbn [mbind outcome_bind wp].
  by apply HQ.
Qed.

Lemma wp_write_reg v o w Q : placed (usb_data w) → o ∈ event_registers c →
  (∀ d, stick_view d = stick_view (usb_ctrl w) → bell d = bell (usb_ctrl w) → Q ((), Usb (usb_memory w) d (usb_data w) (usb_tty w))) →
  wp False (write_reg v o w) Q.
Proof.
  intros Hp Ho HQ. destruct (write_register_law (usb_ctrl w) o v Ho) as (d & E & Ev & Eb).
  unfold write_reg. rewrite (io_bind_Ok get_data _ w (usb_data w) w eq_refl). unfold on_ctrl. rewrite (pl_bar _ Hp), E. cbn [mbind outcome_bind wp].
  by apply HQ.
Qed.

(** The handler's register accesses leave everything but the controller's registers. *)
Definition only_registers (w w' : usb D) : Prop :=
  stick_view (usb_ctrl w') = stick_view (usb_ctrl w) ∧ bell (usb_ctrl w') = bell (usb_ctrl w) ∧
  usb_memory w' = usb_memory w ∧ usb_data w' = usb_data w.

Lemma wp_ack_irq w Q : placed (usb_data w) → (∀ w', only_registers w w' → Q ((), w')) → wp False (ack_irq 0 w) Q.
Proof.
  intros Hp HQ. unfold ack_irq. rewrite (io_bind_Ok get_data _ w (usb_data w) w eq_refl), (pl_cap _ Hp), (pl_rts _ Hp).
  apply wp_io_bind, wp_read_reg; [done|set_solver|]. intros v d Ev Eb.
  apply wp_io_bind, wp_write_reg; [done|set_solver|]. cbn [usb_ctrl usb_memory usb_data usb_tty]. intros d1 Ev1 Eb1.
  apply wp_io_bind, wp_read_reg; [done|set_solver|]. cbn [usb_ctrl usb_memory usb_data usb_tty]. intros v2 d2 Ev2 Eb2.
  apply wp_write_reg; [done|set_solver|]. cbn [usb_ctrl usb_memory usb_data usb_tty]. intros d3 Ev3 Eb3.
  apply HQ. split_and!; cbn [usb_ctrl usb_memory usb_data usb_tty]; congruence.
Qed.

Lemma wp_update_erdp clear w Q : placed (usb_data w) → (∀ w', only_registers w w' → Q ((), w')) → wp False (update_erdp clear w) Q.
Proof.
  intros Hp HQ. unfold update_erdp. rewrite (io_bind_Ok get_data _ w (usb_data w) w eq_refl), (pl_rts _ Hp).
  apply wp_io_bind, wp_write_reg; [done|set_solver|]. intros d1 Ev1 Eb1.
  apply wp_io_bind, wp_write_reg; [done|set_solver|]. cbn [usb_ctrl usb_memory usb_data usb_tty]. intros d2 Ev2 Eb2.
  apply HQ. split_and!; cbn [usb_ctrl usb_memory usb_data usb_tty]; congruence.
Qed.

(** ** The interrupt: the event goes to the function that waits *)
Lemma wp_handle_event w ptr ep res Q : placed (usb_data w) →
  interrupt_trb_handler (slots (usb_data w) (p_slot c)) = FetchAndCopy →
  interrupt_handler_data (slots (usb_data w) (p_slot c)) = FetchAndCopyData res false →
  events_pending (usb_memory w) (usb_data w) (stick_view (usb_ctrl w)) [transfer_event ptr ep (p_slot c)] →
  (∀ w' r k, let ev := set_cycle_bit k (transfer_event ptr ep (p_slot c)) in
     usb_data w' = with_slot (p_slot c) (with_handler_data (FetchAndCopyData ev true)) (with_event_ring r (usb_data w)) →
     usb_memory w' = usb_memory w → stick_view (usb_ctrl w') = stick_view (usb_ctrl w) → bell (usb_ctrl w') = bell (usb_ctrl w) →
     events_pending (usb_memory w') (usb_data w') (stick_view (usb_ctrl w')) [] → Q ((), w')) →
  wp False (handle_incoming_event w) Q.
Proof.
  intros Hp Hh Hd (C & He) HQ. destruct (dequeue_ring_holds _ _ _ _ _ _ He) as (r & Ed & Hr). cbn [head fmap option_fmap option_map tail] in *.
  set (ev := set_cycle_bit (lap_bit EVENTS C) (transfer_event ptr ep (p_slot c))) in *.
  destruct (transfer_event_fields ptr ep (p_slot c) (lap_bit EVENTS C) (pl_slot _ Hp)) as (F1 & F2 & F3 & F4 & F5). fold ev in F1, F2, F3, F4, F5.
  unfold handle_incoming_event. rewrite (io_bind_Ok get_data _ w (usb_data w) w eq_refl).
  rewrite (io_bind_Ok (get_memory _) _ w (Some ev, r) w) by (unfold get_memory; by rewrite Ed).
  apply wp_io_bind. cbn [set_data wp]. set (w1 := Usb _ _ _ _).
  assert (placed (with_event_ring r (usb_data w))) as Hp1 by (destruct Hp; by constructor).
  apply wp_io_bind, wp_update_erdp; [done|]. intros w2 (Ev2 & Eb2 & Em2 & Ex2).
  apply wp_io_bind. unfold dispatch_event. rewrite F1, Z.eqb_refl, F5. unfold call_handler, get_slot.
  rewrite !(io_bind_Ok _ _ w2 (slots (usb_data w2) (p_slot c)) w2) by done.
  assert (interrupt_trb_handler (slots (usb_data w2) (p_slot c)) = FetchAndCopy) as -> by (by rewrite Ex2).
  unfold fetch_and_copy, completion_slot. rewrite F1. change (TRB_TYPE_TRANSFER =? TRB_TYPE_CMD_COMPLETION) with false. rewrite Z.eqb_refl, F5.
  rewrite lift_bind. cbn [mbind outcome_bind]. unfold store_result, get_slot.
  change (wp False ((d ← (x ← get_data; mret (slots x (p_slot c))); match interrupt_handler_data d with FetchAndCopyData _ _ =>
    set_data (with_slot (p_slot c) (with_handler_data (FetchAndCopyData ev true))) | _ => lift Undef end) w2) (λ '(_, w'), wp False (ack_irq 0 w') Q)).
  rewrite (io_bind_Ok _ _ w2 (slots (usb_data w2) (p_slot c)) w2) by done.
  assert (interrupt_handler_data (slots (usb_data w2) (p_slot c)) = FetchAndCopyData res false) as -> by (by rewrite Ex2).
  cbn [set_data wp]. apply wp_ack_irq.
  { cbn [usb_data]. rewrite Ex2. cbn [usb_data w1]. destruct Hp1. constructor; try done. by rewrite slots_with_slot. }
  intros w3 (Ev3 & Eb3 & Em3 & Ex3). cbn [usb_ctrl usb_memory usb_data] in *. apply (HQ w3 r (lap_bit EVENTS C)).
  - rewrite Ex3, Ex2. done.
  - by rewrite Em3, Em2.
  - by rewrite Ev3, Ev2.
  - by rewrite Eb3, Eb2.
  - exists (C + 1). rewrite Em3, Em2, Ex3, Ev3, Ev2, Ex2. exact Hr.
Qed.
(** The memory and the disk after the controller served the endpoint, and what the function that waited finds. *)
Definition delivered (w : usb D) (m' : mm) (s' : stick) (ptr ep : Z) (Q : TRB → usb D → Prop) : Prop :=
  ∀ w' r k, let ev := set_cycle_bit k (transfer_event ptr ep (p_slot c)) in
    usb_data w' = with_slot (p_slot c) (with_handler_data (FetchAndCopyData ev true)) (with_event_ring r (usb_data w)) →
    usb_memory w' = m' → stick_view (usb_ctrl w') = s' → bell (usb_ctrl w') = None →
    events_pending (usb_memory w') (usb_data w') (stick_view (usb_ctrl w')) [] → Q ev w'.

Lemma wp_wait_done fuel w b m' s' ptr ep res Q : placed (usb_data w) →
  interrupt_trb_handler (slots (usb_data w) (p_slot c)) = FetchAndCopy →
  interrupt_handler_data (slots (usb_data w) (p_slot c)) = FetchAndCopyData res false →
  bell (usb_ctrl w) = Some b → serve c b (usb_memory w) (stick_view (usb_ctrl w)) = Some (m', s') →
  events_pending m' (usb_data w) s' [transfer_event ptr ep (p_slot c)] → (S stick_latency < fuel)%nat →
  delivered w m' s' ptr ep (λ ev w', Q (ev, w')) →
  wp False (wait_done fuel (p_slot c) w) Q.
Proof.
  intros Hp Hh Hd Hb Hs He Hf HQ. unfold wait_done, io_while.
  apply (wp_while_rel False (λ n '((), w'),
    (∃ ev, interrupt_handler_data (slots (usb_data w') (p_slot c)) = FetchAndCopyData ev true ∧ Q (ev, w')) ∨
    (∃ k, n = S k ∧ (patience (usb_ctrl w') ≤ k)%nat ∧ usb_memory w' = usb_memory w ∧ usb_data w' = usb_data w ∧
      stick_view (usb_ctrl w') = stick_view (usb_ctrl w) ∧ bell (usb_ctrl w') = Some b)) _ _ _ (S stick_latency)); [|done|].
  { right. exists stick_latency. split; [done|]. split; [apply patience_bound|done]. }
  intros n [[] w1] [(ev & Ed & Hev)|(k & -> & Hk & Em & Ex & Ev & Eb)]; apply wp_bind.
  - rewrite (io_bind_Ok (get_slot _) _ w1 (slots (usb_data w1) (p_slot c)) w1) by done. rewrite Ed. exact Hev.
  - rewrite (io_bind_Ok (get_slot _) _ w1 (slots (usb_data w1) (p_slot c)) w1) by done. rewrite Ex, Hd. apply wp_io_bind.
    unfold usb_step. pose proof (run_law (usb_ctrl w1) (usb_memory w1) b m' s' Eb ltac:(by rewrite Ev, Em)) as Hr.
    destruct (usb_run (usb_ctrl w1) (usb_memory w1)) as [[d1 m1] irq]. destruct irq.
    + destruct Hr as (-> & Ev1 & Eb1). set (w2 := Usb m' d1 (usb_data w1) (usb_tty w1)).
      apply (wp_handle_event w2 ptr ep res); unfold w2; cbn [usb_data usb_memory usb_ctrl]; rewrite ?Ex, ?Ev1; try done.
      intros w3 r q Ex3 Em3 Ev3 Eb3 He3. cbn [wp mret io_ret]. exists 0%nat. split; [lia|]. left.
      eexists. rewrite Ex3, slots_with_slot. split; [done|]. apply (HQ w3 r q); try done; congruence.
    + destruct Hr as (-> & Ev1 & Eb1 & Hlt). cbn [wp mret io_ret]. destruct k as [|k]; [lia|]. exists (S k). split; [lia|]. right. exists k.
      cbn [usb_memory usb_data usb_ctrl]. split; [done|]. split; [lia|]. split; [done|]. split; [done|]. split; [congruence|done].
Qed.

(** ** Putting a block on the ring of an endpoint *)
Lemma wp_enqueue b trb w Q : placed (usb_data w) → rings_apart →
  ring_pending (usb_memory w) (usb_data w) (stick_view (usb_ctrl w)) b [] →
  (∀ m r, same_elsewhere (ring_of c b) (usb_memory w) m →
     let x := with_slot (p_slot c) (with_rings (<[Z.to_nat (ep_of c b) := r]> (endpoint_rings (slots (usb_data w) (p_slot c))))) (usb_data w) in
     ring_pending m x (stick_view (usb_ctrl w)) b [trb] → Q ((), Usb m (usb_ctrl w) x (usb_tty w))) →
  wp False (enqueue_endpoint (p_slot c) (ep_of c b) trb w) Q.
Proof.
  intros Hp Ha (r & C & Er & Hr) HQ. destruct (enqueue_ring_holds _ _ _ _ _ _ trb Hr ltac:(simpl; lia)) as (r' & m & E & Hr' & Hm).
  pose proof (pl_eps _ Hp b) as Hep. pose proof (pl_rings _ Hp) as Hlen. unfold enqueue_endpoint.
  rewrite (io_bind_Ok (get_slot _) _ w (slots (usb_data w) (p_slot c)) w) by done.
  rewrite lift_bind, (arr_get_lookup _ _ r) by (done || lia). cbn [mbind outcome_bind].
  change (wp False ((r0 ← on_memory (enqueue_ring r trb); l ← lift (arr_set (endpoint_rings (slots (usb_data w) (p_slot c))) (ep_of c b) r0);
    set_data (with_slot (p_slot c) (with_rings l))) w) Q).
  apply wp_io_bind. unfold on_memory. rewrite E. cbn [mbind outcome_bind wp].
  rewrite lift_bind, arr_set_in_range by lia. cbn [mbind outcome_bind set_data wp usb_memory usb_ctrl usb_data usb_tty].
  apply HQ; [done|]. exists r', C. rewrite slots_with_slot. cbn [endpoint_rings with_rings]. split; [|exact Hr'].
  apply list_lookup_insert_eq. lia.
Qed.

(** ** What the controller does with it *)
Record served (b : bool) (p : Z) (l : list Z) (db : bot) (m : mm) (s : stick) (x : xHCIData) (m' : mm) (s' : stick) (ptr : Z) : Prop := {
  sv_serve : serve c b m s = Some (m', s');
  sv_bot : st_bot s' = db;
  sv_ring : ring_pending m' x s' b [];
  sv_other : ring_pending m x s (negb b) [] → ring_pending m' x s' (negb b) [];
  sv_events : events_pending m' x s' [transfer_event ptr (ep_of c b) (p_slot c)];
  sv_slab : slab m' = slab m;
  sv_hhdm : hhdm_offset m' = hhdm_offset m;
  sv_bytes a : off_rings a → phys_byte m' a = phys_byte (dma_write p l m) a
}.

Lemma serve_transfer b p n short l db m s x : rings_apart → ring_pending m x s b [normal_trb p n short] → events_pending m x s [] →
  frame_ok p → not_a_ring p → 0 ≤ n → Z.of_nat (length l) ≤ PAGE_SIZE → n < 2 ^ 17 →
  bot_transfer b (dma_read m p n) (st_bot s) = Some (l, db) →
  ∃ m' s' ptr, served b p l db m s x m' s' ptr.
Proof.
  intros Ha (r & C & Er & Hr) (E & He) Hp [Hpr Hpe] Hn Hl Hn17 Hb.
  destruct (read_ring_holds _ _ _ _ _ _ Hr) as (pos & Erd & Hr').
  { apply Forall_singleton. destruct (normal_block p n short 0 ltac:(lia)) as (Hpl & _ & _). unfold plain_block in Hpl.
    rewrite trb_type_set in Hpl. destruct (trb_type (normal_trb p n short) =? TRB_TYPE_NORMAL) eqn:Et; [|done]. zbool. by rewrite Et. }
  cbn [taken head fmap option_fmap option_map tail] in *. set (k := lap_bit RING C) in *.
  destruct (normal_block p n short k ltac:(lia)) as (N1 & N2 & N3).
  set (ptr := ring_of c b + SIZEOF_TRB * (pos.1 - 1)). set (ev := transfer_event ptr (ep_of c b) (p_slot c)).
  set (m1 := dma_write p l m). destruct (post_event (p_events c) (st_event s) ev m1) as [w2 m2] eqn:Epost.
  exists m2, (moved b db pos w2 s), ptr.
  assert (same_elsewhere p m m1) as Hs1 by (apply dma_write_elsewhere; [done|lia|lia]).
  assert (events_hold m1 (event_ring x) (p_events c) (st_event s) E []) as He1 by (by eapply events_hold_elsewhere).
  pose proof (post_event_holds _ _ _ _ _ _ ev _ _ He1 ltac:(simpl; lia) Epost) as He2. cbn [app] in He2.
  assert (same_elsewhere (p_events c) m1 m2) as Hs2.
  { unfold post_event in Epost. pose proof (eh_writer _ _ _ _ _ _ He1) as Ew. rewrite Ew in Epost. injection Epost as _ <-.
    apply store_trb_elsewhere; [apply Ha|apply slot_range; lia]. }
  pose proof (ra_frames Ha) as Hfr. pose proof (ra_events Ha) as Hfe.
  assert (∀ b' r' t pos C q, t = ring_of c b' → ring_holds m r' t pos C q → ring_holds m2 r' t pos C q) as Hkeep.
  { intros b' r' t pos' C' q -> H. eapply ring_holds_elsewhere; [exact Hs2|done|symmetry; apply Ha|].
    eapply ring_holds_elsewhere; [exact Hs1|done|by apply Hpr|exact H]. }
  constructor.
  - unfold serve. rewrite Erd. cbn [mbind option_bind]. rewrite N1, N2, N3, Hb. cbn [mbind option_bind]. fold m1. fold ptr. fold ev. by rewrite Epost.
  - done.
  - exists r, (C + 1). split; [done|]. destruct b; apply (Hkeep _ _ _ _ _ _ eq_refl), Hr'.
  - intros (r2 & C2 & Er2 & Hr2). exists r2, C2. split; [done|]. destruct b; by apply (Hkeep _ _ _ _ _ _ eq_refl), Hr2.
  - exists E. destruct b; exact He2.
  - destruct Hs1 as [[? ->] _], Hs2 as [[? ->] _]. done.
  - destruct Hs1 as [[? ->] _], Hs2 as [[? ->] _]. done.
  - intros a [_ Hoff]. by rewrite (same_elsewhere_byte _ _ _ _ Hs2 Hfe Hoff).
Qed.
(** ** One transfer *)

(** The parts of the driver's data a transfer looks at. *)
Definition same_rings (x x' : xHCIData) : Prop :=
  endpoint_rings (slots x' (p_slot c)) = endpoint_rings (slots x (p_slot c)).

Lemma ring_pending_data m x x' s b q : same_rings x x' → ring_pending m x s b q → ring_pending m x' s b q.
Proof. intros E (r & C & Er & Hr). exists r, C. by rewrite E. Qed.

Lemma events_pending_data m x x' s q : event_ring x' = event_ring x → events_pending m x s q → events_pending m x' s q.
Proof. intros E (C & H). exists C. by rewrite E. Qed.

Lemma placed_data x x' : bar x' = bar x → cap_length x' = cap_length x → rts_offset x' = rts_offset x → db_offset x' = db_offset x →
  length (endpoint_rings (slots x' (p_slot c))) = length (endpoint_rings (slots x (p_slot c))) → placed x → placed x'.
Proof. intros E1 E2 E3 E4 E5 []. constructor; (done || congruence). Qed.

Lemma ring_pending_elsewhere t m m' x s b q : same_elsewhere t m m' → frame_ok t → t ≠ ring_of c b → ring_pending m x s b q → ring_pending m' x s b q.
Proof. intros Hs Ht Hne (r & C & Er & Hr). exists r, C. split; [done|]. by eapply ring_holds_elsewhere. Qed.

Lemma events_pending_elsewhere t m m' x s q : same_elsewhere t m m' → frame_ok t → t ≠ p_events c → events_pending m x s q → events_pending m' x s q.
Proof. intros Hs Ht Hne (C & H). exists C. by eapply events_hold_elsewhere. Qed.

Lemma ring_other b : rings_apart → ring_of c b ≠ ring_of c (negb b).
Proof. intros []. by destruct b. Qed.

Lemma wp_ring_doorbell b w Q : placed (usb_data w) → bell (usb_ctrl w) = None →
  (∀ d, stick_view d = stick_view (usb_ctrl w) → bell d = Some b → Q ((), Usb (usb_memory w) d (usb_data w) (usb_tty w))) →
  wp False (ring_doorbell (p_slot c) (ep_of c b) w) Q.
Proof.
  intros Hp Hb HQ. destruct (doorbell_law (usb_ctrl w) b Hb) as (d & E & Ev & Eb). unfold ring_doorbell. pose proof (pl_eps _ Hp b).
  rewrite lift_bind, (proj2 (Z.ltb_lt _ _)) by lia. cbn [c_assert mbind outcome_bind].
  change (wp False ((x ← get_data; _ ← write_reg (ep_of c b + 1) (db_offset x + DOORBELL_OFFSET (p_slot c)); delay) w) Q).
  rewrite (io_bind_Ok get_data _ w (usb_data w) w eq_refl). apply wp_io_bind. unfold write_reg.
  rewrite (io_bind_Ok get_data _ w (usb_data w) w eq_refl). unfold on_ctrl. rewrite (pl_bar _ Hp), (pl_db _ Hp), E. cbn [mbind outcome_bind wp].
  by apply HQ.
Qed.

(** The driver is ready again, the disk is [db], and beside the rings memory is what the disk stored. *)
Record transferred (p : Z) (l : list Z) (db : bot) (w w' : usb D) : Prop := {
  tr_ok : stick_ok w';
  tr_slab : slab (usb_memory w') = slab (usb_memory w);
  tr_hhdm : hhdm_offset (usb_memory w') = hhdm_offset (usb_memory w);
  tr_bot : st_bot (stick_view (usb_ctrl w')) = db;
  tr_handler : interrupt_trb_handler (slots (usb_data w') (p_slot c)) = FetchAndCopy;
  tr_bytes a : off_rings a → phys_byte (usb_memory w') a = phys_byte (dma_write p l (usb_memory w)) a
}.

Definition buffer_page (p n : Z) : Prop := frame_ok p ∧ not_a_ring p ∧ 0 ≤ n ≤ PAGE_SIZE.

Lemma off_page p a : rings_apart → frame_ok p → not_a_ring p → p ≤ a < p + PAGE_SIZE → off_rings a.
Proof.
  intros Ha [Hp _] [Hr He] Hin. split; [intros b|]; intros H.
  - apply (Hr b). destruct (ra_frames Ha b) as [Hf _]. unfold PAGE_SIZE in *. dlia.
  - apply He. destruct (ra_events Ha) as [Hf _]. unfold PAGE_SIZE in *. dlia.
Qed.

Lemma dma_write_same p l m m' a : frame_ok p → Forall is_byte l → phys_byte m' a = phys_byte m a → phys_byte (dma_write p l m') a = phys_byte (dma_write p l m) a.
Proof. intros _ Hl E. rewrite !dma_write_byte by done. by rewrite E. Qed.

(** What the driver stores before it rings the doorbell. *)
Definition started (first : bool) (x : xHCIData) : xHCIData :=
  let x := with_slot (p_slot c) (with_handler_data (FetchAndCopyData (Trb 0 0) false)) x in
  if first then with_slot (p_slot c) (with_handler FetchAndCopy) x else x.

Lemma started_spec first x : first = true ∨ interrupt_trb_handler (slots x (p_slot c)) = FetchAndCopy →
  same_rings x (started first x) ∧ event_ring (started first x) = event_ring x ∧ (placed x → placed (started first x)) ∧
  interrupt_trb_handler (slots (started first x) (p_slot c)) = FetchAndCopy ∧
  interrupt_handler_data (slots (started first x) (p_slot c)) = FetchAndCopyData (Trb 0 0) false.
Proof.
  intros Hh. assert (same_rings x (started first x)) as Hs by (unfold same_rings, started; destruct first; by rewrite !slots_with_slot).
  split; [done|]. split; [by destruct first|]. split; [|split].
  - apply placed_data; try (by destruct first). by rewrite Hs.
  - unfold started. destruct first; rewrite !slots_with_slot; [done|]. by destruct Hh.
  - unfold started. destruct first; by rewrite !slots_with_slot.
Qed.

(** A ring that is replaced: the driver stays as it is, and so does the other ring. *)
Lemma placed_ring x i r : placed x → placed (with_slot (p_slot c) (with_rings (<[i := r]> (endpoint_rings (slots x (p_slot c))))) x).
Proof. apply placed_data; try done. rewrite slots_with_slot. apply length_insert. Qed.

Lemma ring_pending_replaced m x s b r q : placed x → ring_pending m x s (negb b) q →
  ring_pending m (with_slot (p_slot c) (with_rings (<[Z.to_nat (ep_of c b) := r]> (endpoint_rings (slots x (p_slot c))))) x) s (negb b) q.
Proof.
  intros Hp (r2 & C & Er & Hr). exists r2, C. split; [|done]. rewrite slots_with_slot. cbn [endpoint_rings with_rings].
  rewrite list_lookup_insert_ne; [done|]. pose proof (pl_eps _ Hp b). pose proof (pl_eps _ Hp (negb b)). pose proof (pl_two _ Hp).
  destruct b; cbn [negb ep_of] in *; lia.
Qed.

Lemma wp_bulk_transfer fuel b p n short first w l db Q : stick_ok w → (S stick_latency < fuel)%nat →
  (first = true ∨ interrupt_trb_handler (slots (usb_data w) (p_slot c)) = FetchAndCopy) →
  buffer_page p n → Z.of_nat (length l) ≤ PAGE_SIZE → Forall is_byte l →
  bot_transfer b (dma_read (usb_memory w) p n) (st_bot (stick_view (usb_ctrl w))) = Some (l, db) →
  (∀ w', transferred p l db w w' → Q ((), w')) →
  wp False (bulk_transfer fuel (p_slot c) (ep_of c b) (normal_trb p n short) first w) Q.
Proof.
  intros [Hp Ha Hrings Hev Hbell Hslab Hheld] Hf Hh (Hfp & Hnr & Hn) Hl Hlb Hb HQ. pose proof (ra_frames Ha) as Hfr.
  unfold bulk_transfer. apply wp_io_bind, wp_enqueue; [done|done|apply Hrings|]. intros m r Hm x1 Hr1.
  apply wp_io_bind. cbn [set_data wp usb_memory usb_ctrl usb_data usb_tty]. apply wp_io_bind. set (x3 := started first x1).
  match goal with |- wp _ ?o _ => replace o with (Ok ((), Usb m (usb_ctrl w) x3 (usb_tty w))) by (unfold x3, started; by destruct first) end.
  cbn [wp]. destruct (started_spec first x1) as (Hsr & Hev3 & Hp3 & Hh3 & Hd3); [unfold x1; by rewrite slots_with_slot|]. fold x3 in Hsr, Hev3, Hp3, Hh3, Hd3.
  specialize (Hp3 (placed_ring _ _ _ Hp)). apply wp_io_bind, wp_ring_doorbell; [done|done|]. cbn [usb_memory usb_ctrl usb_data usb_tty]. intros d Ev Eb.
  assert (dma_read m p n = dma_read (usb_memory w) p n) as Hread.
  { apply dma_read_ext. intros a Hin. apply (same_elsewhere_byte (ring_of c b)); [done|done|].
    apply (off_page p a Ha Hfp Hnr). unfold PAGE_SIZE in *. lia. }
  destruct (serve_transfer b p n short l db m (stick_view d) x3 Ha) as (m' & s' & ptr & Hsv); try done.
  { rewrite Ev. by apply (ring_pending_data m x1). }
  { rewrite Ev. apply (events_pending_data m (usb_data w)); [done|]. eapply events_pending_elsewhere; [exact Hm|done|by apply Ha|done]. }
  { lia. } { unfold PAGE_SIZE in *. lia. } { by rewrite Hread, Ev. }
  destruct Hsv as [Hserve Hbot Hring Hother Hevs Hsl Hhh Hbytes].
  apply wp_io_bind, (wp_wait_done _ _ b m' s' ptr (ep_of c b) (Trb 0 0)); [exact Hp3|exact Hh3|exact Hd3|exact Eb|exact Hserve|exact Hevs|exact Hf|].
  intros w4 r4 k ev Ex4 Em4 Ev4 Eb4 Hev4. cbn [usb_data] in Ex4.
  destruct (transfer_event_fields ptr (ep_of c b) (p_slot c) k (pl_slot _ Hp)) as (_ & F2 & F3 & F4 & _). fold ev in F2, F3, F4.
  rewrite F2, F3, F4, !Z.eqb_refl. change (Q ((), w4)).
  assert (same_rings x3 (usb_data w4)) as Hsr4 by (unfold same_rings; rewrite Ex4; by rewrite slots_with_slot).
  assert (slab (usb_memory w4) = slab (usb_memory w)) as Es4 by (rewrite Em4, Hsl; by destruct Hm as [[? ->] _]).
  apply HQ. constructor; [constructor|..]; rewrite ?Es4; try done.
  - rewrite Ex4. apply (placed_data x3); try done. by rewrite slots_with_slot.
  - intros b'. rewrite Em4, Ev4. apply (ring_pending_data m' x3); [done|].
    destruct (decide (b' = b)) as [->|Hne]; [done|]. assert (b' = negb b) as -> by (by destruct b', b).
    apply Hother. rewrite Ev. apply (ring_pending_elsewhere (ring_of c b) (usb_memory w)); [done|done|by apply ring_other|].
    apply (ring_pending_data _ x1); [done|]. by apply ring_pending_replaced.
  - rewrite Em4, Hhh. by destruct Hm as [[? ->] _].
  - by rewrite Ev4.
  - rewrite Ex4, slots_with_slot. cbn. done.
  - intros a Hoff. rewrite Em4, Hbytes by done. apply dma_write_same; [done|done|]. apply (same_elsewhere_byte (ring_of c b)); [done|done|]. apply Hoff.
Qed.
End driver.
