(* ===== verification/XhciBlockSpec.v ===== *)
(** * The mass storage driver against a USB disk: requests, and the block driver interface *)
From S2P Require Import Prelude Bytes BlockDev Slab Paging Arrays Hardware BitFields Tty TtyInput Trb TrbSpec Pci UserMemory Xhci XhciWorld XhciEvents XhciDevices XhciMemory UsbStick XhciMsdSpec.
From Stdlib Require Import ClassicalDescription.
#[local] Open Scope string_scope.
#[local] Open Scope list_scope.
#[local] Open Scope Z_scope.
#[local] Arguments wrap : simpl never.

(** ** Pages *)
Lemma no_run_no_page s : wf s → (∀ i, ¬ free_run s i 1) → free_pages s = 0%nat.
Proof.
  intros Hwf H. unfold free_pages. destruct (filter _ _) as [|b l] eqn:Ef; [done|exfalso].
  assert (b ∈ b :: l) as Hb by left. rewrite <-Ef in Hb. apply list_elem_of_filter in Hb as [-> [i Hi]%list_elem_of_lookup].
  apply (H (Z.of_nat i)). split; [lia|]. intros j Hj. replace j with (Z.of_nat i) by lia. split; [lia|by rewrite Nat2Z.id].
Qed.

Lemma malloc_one_page_wp st : wf st →
  wp (free_pages st = 0%nat) (malloc_contiguous_phys 1 st) (λ '(a, st'), ∃ i, a = page_addr st i ∧ page_is st i false ∧
    st' = mark true i 1 st ∧ wf st' ∧ S (free_pages st') = free_pages st).
Proof.
  intros Hwf. pose proof (malloc_contiguous_phys_spec st 1 Hwf ltac:(lia)) as Hs.
  destruct (malloc_contiguous_phys 1 st) as [[a st']| | |]; cbn [wp]; [|by apply no_run_no_page|done|done].
  destruct Hs as (i & -> & [Hi Hf] & _ & -> & Hwf'). exists i. assert (page_is st i false) as Hp by (apply Hf; lia).
  split_and!; try done. by apply free_pages_alloc.
Qed.

(** Pages that were taken and are given back in another order. *)
Lemma page_exists_mark c j n s k : (∃ b, page_is (mark c j n s) k b) ↔ ∃ b, page_is s k b.
Proof.
  split; intros [b Hb].
  - apply page_is_mark in Hb. case_decide; [by destruct Hb|by exists b].
  - exists (if decide (j ≤ k < j + n) then c else b). apply page_is_mark. case_decide; [split; [done|by exists b]|done].
Qed.

Lemma mark_swap i j s : i ≠ j → mark false i 1 (mark true j 1 s) = mark true j 1 (mark false i 1 s).
Proof.
  intros Hne. apply phys_state_eq; [done..|]. intros k a. rewrite (page_is_mark _ i), (page_is_mark (mark false i 1 s) j).
  destruct (decide (i ≤ k < i + 1)), (decide (j ≤ k < j + 1)); try lia; rewrite ?page_exists_mark; repeat (rewrite page_is_mark; case_decide; try lia); done.
Qed.

Lemma mark_undo_one i s : page_is s i false → mark false i 1 (mark true i 1 s) = s.
Proof. intros H. apply mark_mark_undo. split; [destruct H; lia|]. intros j Hj. by replace j with i by lia. Qed.

Lemma give_back_three s i j k : page_is s i false → page_is (mark true i 1 s) j false → page_is (mark true j 1 (mark true i 1 s)) k false →
  let s3 := mark true k 1 (mark true j 1 (mark true i 1 s)) in
  mark false k 1 (mark false j 1 (mark false i 1 s3)) = s.
Proof.
  intros Hi Hj Hk s3. assert (j ≠ i) as Hji.
  { intros ->. apply page_is_mark in Hj. rewrite decide_True in Hj by lia. by destruct Hj. }
  apply page_is_mark in Hk as Hk'. destruct (decide (j ≤ k < j + 1)) as [|Hkj]; [by destruct Hk'|].
  assert (k ≠ i) as Hki. { intros ->. apply page_is_mark in Hk'. rewrite decide_True in Hk' by lia. by destruct Hk'. }
  unfold s3. rewrite (mark_swap i k), (mark_swap i j), (mark_undo_one i s) by (done || lia).
  apply page_is_mark in Hj. rewrite decide_False in Hj by lia. rewrite (mark_swap j k), (mark_undo_one j s) by (done || lia).
  apply page_is_mark in Hk'. rewrite decide_False in Hk' by lia. by apply mark_undo_one.
Qed.

(** ** The bytes of a request *)
Lemma length_encode_cbw t cbw : (length (command cbw) ≤ 16)%nat → length (encode_cbw (with_tag t cbw)) = 31%nat.
Proof. intros H. unfold encode_cbw. rewrite !length_app, !le_bytes_length, length_replicate. cbn [with_tag command length]. lia. Qed.

Lemma accepted_tag d l s : accept_command d l = Some s →
  match s with DataIn _ tag | DataOut _ tag => tag = field l 4 4 | _ => False end.
Proof. unfold accept_command. repeat case_match; intros; by simplify_eq. Qed.

Lemma csw_bytes_fields tag : 0 ≤ tag < 2 ^ 32 → csw_field (csw_bytes tag) "signature" = CSW_SIGNATURE ∧ csw_field (csw_bytes tag) "tag" = tag ∧
  csw_field (csw_bytes tag) "status" = 0 ∧ csw_field (csw_bytes tag) "data_residue" = 0.
Proof.
  intros Ht. split; [reflexivity|]. split; [|by split].
  transitivity (le_val (le_bytes 4 tag)); [reflexivity|]. rewrite le_val_bytes. by apply Z.mod_small.
Qed.

Lemma csw_bytes_byte tag : Forall is_byte (csw_bytes tag).
Proof. unfold csw_bytes. rewrite !Forall_app, Forall_singleton. repeat split; try apply le_bytes_byte; lia. Qed.

Lemma field_byte_range l o n : Forall is_byte l → 0 ≤ field l o n < 256 ^ Z.of_nat n.
Proof.
  intros Hl. unfold field. assert (Forall is_byte (take n (drop o l))) as H by (by apply Forall_take, Forall_drop).
  apply le_val_range in H. split; [lia|]. eapply Z.lt_le_trans; [apply H|]. apply Z.pow_le_mono_r; [lia|]. rewrite length_take. lia.
Qed.

Lemma field_dma_read m p n o k : 0 ≤ n → (o + k ≤ Z.to_nat n)%nat → field (dma_read m p n) o k = le_val (dma_read m (p + Z.of_nat o) (Z.of_nat k)).
Proof.
  intros Hn Hk. unfold field, dma_read. f_equal. rewrite <-fmap_drop, <-fmap_take. f_equal.
  replace n with (Z.of_nat o + (Z.of_nat k + (n - Z.of_nat o - Z.of_nat k))) by lia. rewrite seqZ_app, (seqZ_app _ (Z.of_nat k)) by lia.
  rewrite drop_app_length' by (rewrite length_seqZ; lia). rewrite take_app_length' by (rewrite length_seqZ; lia). done.
Qed.

Lemma page_disjoint p q a : frame_ok p → frame_ok q → p ≠ q → p ≤ a < p + PAGE_SIZE → ¬ (q ≤ a < q + PAGE_SIZE).
Proof. intros [Hp _] [Hq _] Hne Ha H. unfold PAGE_SIZE in *. dlia. Qed.

Lemma dma_write_other_page p q l n m a : frame_ok p → frame_ok q → p ≠ q → Forall is_byte l → Z.of_nat (length l) ≤ PAGE_SIZE → n ≤ PAGE_SIZE →
  p ≤ a < p + n → phys_byte (dma_write q l m) a = phys_byte m a.
Proof.
  intros Hp Hq Hne Hl Hlen Hn Ha. rewrite dma_write_byte by done. rewrite decide_False; [done|].
  pose proof (page_disjoint p q a Hp Hq Hne). lia.
Qed.

Section driver.
Context {D : Type} `{!PortIO D} `{!Mmio D} `{!UsbController D} {c : place} `{!UsbStick D c}.
Abbreviation stick_view := (@stick_view D _ _ _ c _).
Abbreviation stick_latency := (@stick_latency D _ _ _ c _).
Abbreviation not_a_ring := (not_a_ring (c := c)).
Abbreviation buffer_page := (buffer_page (c := c)).
Implicit Types (w : usb D).

(** ** What keeps the driver ready *)
Lemma stick_ok_slab w s : stick_ok w → slab_ok s → (∀ a, is_free s a → not_a_ring a) →
  stick_ok (Usb (with_slab (usb_memory w) s) (usb_ctrl w) (usb_data w) (usb_tty w)).
Proof.
  intros [? ? Hr He] Hs Hh. constructor; try done.
  - intros b. destruct (Hr b) as (r & C & Er & H). exists r, C. split; [done|]. destruct H. by constructor.
  - destruct He as (C & H). exists C. destruct H. by constructor.
Qed.

Lemma stick_ok_store w p l : stick_ok w → buffer_page p (Z.of_nat (length l)) →
  stick_ok (Usb (dma_write p l (usb_memory w)) (usb_ctrl w) (usb_data w) (usb_tty w)).
Proof.
  intros [] (Hp & [Hr He] & Hl). assert (same_elsewhere p (usb_memory w) (dma_write p l (usb_memory w))) as Hs
    by (apply dma_write_elsewhere; [done|lia|lia]).
  constructor; cbn [usb_memory usb_ctrl usb_data]; try done.
  - intros b. by eapply ring_pending_elsewhere.
  - by eapply events_pending_elsewhere.
  - by destruct Hs as [[? ->] _].
  - by destruct Hs as [[? ->] _].
Qed.

Lemma stick_ok_slot w f : (∀ d, endpoint_rings (f d) = endpoint_rings d) → stick_ok w →
  stick_ok (Usb (usb_memory w) (usb_ctrl w) (with_slot (p_slot c) f (usb_data w)) (usb_tty w)).
Proof.
  intros Hf []. assert (same_rings (usb_data w) (with_slot (p_slot c) f (usb_data w))) as Hs by (unfold same_rings; by rewrite slots_with_slot, Hf).
  constructor; cbn [usb_memory usb_ctrl usb_data]; try done.
  - apply (placed_data (usb_data w)); try done. by rewrite Hs.
  - intros b. by apply (ring_pending_data _ (usb_data w)).
Qed.

(** ** Pages for the buffers *)
Definition took_page (w : usb D) (p i : Z) (w1 : usb D) : Prop :=
  p = page_addr (slab (usb_memory w)) i ∧ page_is (slab (usb_memory w)) i false ∧
  w1 = Usb (with_slab (usb_memory w) (mark true i 1 (slab (usb_memory w)))) (usb_ctrl w) (usb_data w) (usb_tty w) ∧
  stick_ok w1 ∧ frame_ok p ∧ not_a_ring p ∧ S (free_pages (slab (usb_memory w1))) = free_pages (slab (usb_memory w)).

Lemma wp_usb_page (f : phys_state → outcome (Z * phys_state)) w : stick_ok w →
  (∀ s, wf s → wp (free_pages s = 0%nat) (f s) (λ '(a, s'), ∃ i, a = page_addr s i ∧ page_is s i false ∧
    s' = mark true i 1 s ∧ wf s' ∧ S (free_pages s') = free_pages s)) →
  wp (free_pages (slab (usb_memory w)) = 0%nat) (on_memory (λ st, '(p, s) ← f (slab st); Ok (p, with_slab st s)) w)
    (λ '(p, w1), ∃ i, took_page w p i w1).
Proof.
  intros Hok Hf. destruct (so_slab _ Hok) as [Hwf Htop]. unfold on_memory. do 2 apply wp_bind.
  eapply wp_mono; [by apply Hf|]. intros [a s1] (i & -> & Hi & -> & Hwf1 & Hn). cbn [wp]. exists i.
  assert (is_free (slab (usb_memory w)) (page_addr (slab (usb_memory w)) i)) as Hfree by (by exists i).
  split; [done|]. split; [done|]. split; [done|]. split.
  { apply stick_ok_slab; [done|by constructor|]. intros a (j & Hj & ->). apply (so_held _ Hok). exists j. split; [|done].
    apply page_is_mark in Hj. case_decide; [by destruct Hj|done]. }
  split; [eapply page_addr_frame; [apply (so_slab _ Hok)|done]|]. split; [by apply (so_held _ Hok)|done].
Qed.

(** ** Command, data and status *)
Lemma wp_three_transfers {A} fuel w is_read cp rp sp len sent stg l db (rest : io (usb D) A) Q :
  stick_ok w → (S stick_latency < fuel)%nat → buffer_page cp 31 → buffer_page rp len → buffer_page sp 13 →
  cp ≠ rp → cp ≠ sp → rp ≠ sp → bot_stage (st_bot (stick_view (usb_ctrl w))) = Ready →
  dma_read (usb_memory w) cp 31 = sent → accept_command (st_bot (stick_view (usb_ctrl w))) sent = Some stg →
  bot_transfer is_read (dma_read (usb_memory w) rp len) (with_stage stg (st_bot (stick_view (usb_ctrl w)))) =
    Some (l, with_stage (StatusStage (field sent 4 4)) db) →
  Z.of_nat (length l) ≤ len → Forall is_byte l →
  (∀ w', stick_ok w' → slab (usb_memory w') = slab (usb_memory w) → hhdm_offset (usb_memory w') = hhdm_offset (usb_memory w) →
     st_bot (stick_view (usb_ctrl w')) = with_stage Ready db → dma_read (usb_memory w') cp 31 = sent →
     dma_read (usb_memory w') rp (Z.of_nat (length l)) = l → dma_read (usb_memory w') sp 13 = csw_bytes (field sent 4 4) →
     wp False (rest w') Q) →
  wp False ((_ ← bulk_transfer fuel (p_slot c) (p_out c) (normal_trb cp SIZEOF_CBW 0) true;
             _ ← bulk_transfer fuel (p_slot c) (if is_read then p_in c else p_out c) (normal_trb rp len 1) false;
             _ ← bulk_transfer fuel (p_slot c) (p_in c) (normal_trb sp SIZEOF_CSW 0) false; rest) w) Q.
Proof.
  intros Hok Hf Hcp Hrp Hsp H1 H2 H3 Hready Hsent Hacc Hdata Hl Hlb HQ. set (tag := field sent 4 4) in *.
  pose proof (so_apart _ Hok) as Ha. destruct Hcp as (Fc & Rc & Nc), Hrp as (Fr & Rr & Nr), Hsp as (Fs & Rs & Ns).
  assert (length sent = 31%nat) as Elen by (rewrite <-Hsent; by rewrite length_dma_read).
  apply wp_io_bind, (wp_bulk_transfer fuel false cp SIZEOF_CBW 0 true w [] (with_stage stg (st_bot (stick_view (usb_ctrl w)))));
    [done|done|by left|done|done|done| |].
  { change SIZEOF_CBW with 31. rewrite Hsent. unfold bot_transfer. rewrite Hready, bool_decide_true, Hacc by done. done. }
  intros w1 [Ok1 S1 O1 B1 G1 M1]. cbn [dma_write] in M1.
  assert (∀ p n, frame_ok p → not_a_ring p → n ≤ PAGE_SIZE → dma_read (usb_memory w1) p n = dma_read (usb_memory w) p n) as Rd1.
  { intros p n Fp Rp Np. apply dma_read_ext. intros a Hin. apply M1. apply (off_page p a Ha Fp Rp). lia. }
  apply wp_io_bind. apply (wp_bulk_transfer fuel is_read rp len 1 false w1 l (with_stage (StatusStage tag) db));
    [done|done|by right|done|lia|done|by rewrite B1, Rd1 by (done || lia)|].
  intros w2 [Ok2 S2 O2 B2 G2 M2].
  apply wp_io_bind, (wp_bulk_transfer fuel true sp SIZEOF_CSW 0 false w2 (csw_bytes tag) (with_stage Ready db));
    [done|done|by right|done|done|apply csw_bytes_byte| |].
  { rewrite B2. unfold bot_transfer. cbn [with_stage bot_stage]. by rewrite bool_decide_true by (by rewrite length_dma_read). }
  intros w3 [Ok3 S3 O3 B3 G3 M3]. pose proof (csw_bytes_byte tag) as Hcb.
  assert (∀ p n, frame_ok p → not_a_ring p → n ≤ PAGE_SIZE → p ≠ sp → dma_read (usb_memory w3) p n = dma_read (usb_memory w2) p n) as Rd3.
  { intros p n Fp Rp Np Hne. apply dma_read_ext. intros a Hin. rewrite M3 by (apply (off_page p a Ha Fp Rp); lia).
    by apply (dma_write_other_page p sp _ n). }
  apply HQ; [done|congruence|congruence|done| | |].
  - rewrite Rd3 by (done || lia). etrans; [|exact Hsent]. rewrite <-(Rd1 cp 31) by (done || lia). apply dma_read_ext. intros a Hin.
    rewrite M2 by (apply (off_page cp a Ha Fc Rc); unfold PAGE_SIZE; lia). apply (dma_write_other_page cp rp _ 31); (done || lia).
  - rewrite Rd3 by (done || lia). etrans; [|apply (dma_read_write (usb_memory w1) rp l Hlb)]. apply dma_read_ext. intros a Hin.
    apply M2. apply (off_page rp a Ha Fr Rr). lia.
  - etrans; [|apply (dma_read_write (usb_memory w2) sp (csw_bytes tag) Hcb)]. apply dma_read_ext. intros a Hin.
    apply M3. apply (off_page sp a Ha Fs Rs). unfold PAGE_SIZE. change (Z.of_nat (length (csw_bytes tag))) with 13 in Hin. lia.
Qed.
(** ** The pages are given back *)
Lemma wp_free_page (f : Z → phys_state → outcome phys_state) w i b Q : slab_ok (slab (usb_memory w)) →
  (∀ s, wf s → page_is s i b → f (page_addr s i) s = Ok (mark false i 1 s)) →
  page_is (slab (usb_memory w)) i b →
  Q ((), Usb (with_slab (usb_memory w) (mark false i 1 (slab (usb_memory w)))) (usb_ctrl w) (usb_data w) (usb_tty w)) →
  wp False (on_memory (λ st, s ← f (page_addr (slab (usb_memory w)) i) (slab st); Ok ((), with_slab st s)) w) Q.
Proof. intros [Hwf _] Hf Hi HQ. unfold on_memory. rewrite Hf by done. exact HQ. Qed.

Lemma free_one_page s i b : wf s → page_is s i b → free_contiguous_phys (page_addr s i) 1 s = Ok (mark false i 1 s).
Proof. intros Hwf Hi. apply free_contiguous_phys_page; [done|lia|]. intros j Hj. replace j with i by lia. by exists b. Qed.

Lemma stick_ok_finished w : stick_ok w →
  stick_ok (Usb (usb_memory w) (usb_ctrl w) (with_slot (p_slot c) (with_handler_data DeadFrame)
    (with_slot (p_slot c) (with_handler NoHandler) (usb_data w))) (usb_tty w)).
Proof.
  intros Hok. apply (stick_ok_slot (Usb _ _ _ _)); [done|]. by apply (stick_ok_slot w).
Qed.

(** Three pages that were taken in this order. *)
Record three_pages (s : phys_state) (i j k : Z) : Prop := {
  tp_i : page_is s i false;
  tp_j : page_is (mark true i 1 s) j false;
  tp_k : page_is (mark true j 1 (mark true i 1 s)) k false
}.
Definition all_taken (s : phys_state) (i j k : Z) : phys_state := mark true k 1 (mark true j 1 (mark true i 1 s)).

Lemma three_pages_differ s i j k : three_pages s i j k → i ≠ j ∧ i ≠ k ∧ j ≠ k.
Proof.
  intros [Hi Hj Hk]. assert (∀ a n st, page_is (mark true n 1 st) a false → n ≠ a) as H.
  { intros a n st Ha ->. apply page_is_mark in Ha. rewrite decide_True in Ha by lia. by destruct Ha. }
  assert (j ≠ k) by by eapply H. split; [by eapply H|]. split; [|done].
  apply page_is_mark in Hk. rewrite decide_False in Hk by lia. by eapply H.
Qed.

Lemma page_marked n m s : (∃ b, page_is s n b) → n = m ∨ page_is s n true → page_is (mark true m 1 s) n true.
Proof. intros He Hn. apply page_is_mark. case_decide; [done|]. destruct Hn as [->|?]; [lia|done]. Qed.

Lemma page_taken s i j k n : three_pages s i j k → n = i ∨ n = j ∨ n = k → page_is (all_taken s i j k) n true.
Proof.
  intros [Hi Hj Hk] Hn. assert (∃ b, page_is s n b) as He.
  { destruct Hn as [->|[->| ->]]; [by exists false|apply (page_exists_mark true i 1); by exists false|].
    apply (page_exists_mark true i 1), (page_exists_mark true j 1). by exists false. }
  unfold all_taken. apply page_marked; [by do 2 apply page_exists_mark|]. destruct Hn as [->|[->| ->]]; [right|right|by left].
  - apply page_marked; [by apply page_exists_mark|]. right. apply page_marked; [done|by left].
  - apply page_marked; [by apply page_exists_mark|by left].
Qed.

Lemma wp_free_three {A} w s i j k (f : io (usb D) A) Q : slab_ok s → three_pages s i j k → slab (usb_memory w) = all_taken s i j k →
  wp False (f (Usb (with_slab (usb_memory w) s) (usb_ctrl w) (usb_data w) (usb_tty w))) Q →
  wp False ((_ ← usb_free4k (page_addr s i); _ ← usb_free_contiguous (page_addr s j) 1; _ ← usb_free4k (page_addr s k); f) w) Q.
Proof.
  intros [Hwf Htop] Htp Es HQ. pose proof (three_pages_differ _ _ _ _ Htp) as (? & ? & ?).
  assert (∀ b n st, slab_ok st → slab_ok (mark b n 1 st)) as Hmark by (intros b n st [? ?]; constructor; [by apply wf_mark|done]).
  assert (slab_ok (all_taken s i j k)) as Hok by (do 3 apply Hmark; by constructor).
  pose proof (page_taken s i j k i Htp ltac:(auto)) as Hi. pose proof (page_taken s i j k j Htp ltac:(auto)) as Hj.
  pose proof (page_taken s i j k k Htp ltac:(auto)) as Hk.
  assert (∀ a b st, page_is st a true → b ≠ a → page_is (mark false b 1 st) a true) as Hkeep
    by (intros a b st Hp Hne; apply page_is_mark; by rewrite decide_False by lia).
  apply wp_io_bind. unfold usb_free4k at 1. replace (page_addr s i) with (page_addr (slab (usb_memory w)) i) by (by rewrite Es).
  apply (wp_free_page free4k_phys w i true); [by rewrite Es|intros; by eapply free4k_phys_page|by rewrite Es|].
  apply wp_io_bind. unfold usb_free_contiguous.
  set (w1 := Usb _ _ _ _). assert (slab (usb_memory w1) = mark false i 1 (all_taken s i j k)) as E1 by (unfold w1; cbn; by rewrite Es).
  replace (page_addr s j) with (page_addr (slab (usb_memory w1)) j) by (by rewrite E1).
  apply (wp_free_page (λ p, free_contiguous_phys p 1) w1 j true); [rewrite E1; by apply Hmark|intros; by eapply free_one_page|rewrite E1; by apply Hkeep|].
  apply wp_io_bind. unfold usb_free4k. set (w2 := Usb _ _ _ _).
  assert (slab (usb_memory w2) = mark false j 1 (mark false i 1 (all_taken s i j k))) as E2 by (unfold w2; cbn -[mark]; by rewrite <-E1).
  replace (page_addr s k) with (page_addr (slab (usb_memory w2)) k) by (by rewrite E2).
  apply (wp_free_page free4k_phys w2 k true); [rewrite E2; by do 2 apply Hmark|intros; by eapply free4k_phys_page|rewrite E2; apply Hkeep; [by apply Hkeep|done]|].
  rewrite E2. unfold all_taken. destruct Htp. rewrite give_back_three by done. exact HQ.
Qed.
(** ** A request *)

(** What is left by a request: its result, and the driver ready for the next one with the same pages free. *)
Record request_done (w : usb D) (db : bot) (w' : usb D) : Prop := {
  rd_ok : stick_ok w';
  rd_slab : slab (usb_memory w') = slab (usb_memory w);
  rd_bot : st_bot (stick_view (usb_ctrl w')) = with_stage Ready db
}.

Lemma round_up_one n : 0 < n ≤ PAGE_SIZE → round_up_pages n = 1.
Proof. intros Hn. unfold round_up_pages, PAGE_SIZE in *. rewrite wrap_small by lia. symmetry. apply (Z.div_unique _ _ _ (n - 1)); lia. Qed.

Lemma load_buffer_later st st' p n : hhdm_offset st' = hhdm_offset st → 0 ≤ p → p + n ≤ 2 ^ 64 →
  load_buffer (phys_to_hhdm st p) n st' = dma_read st' p n.
Proof.
  intros E Hp Hn. replace (phys_to_hhdm st p) with (phys_to_hhdm st' p) by (unfold phys_to_hhdm; by rewrite E). by apply load_buffer_dma.
Qed.

Lemma load_buffer_later_off st st' p o n : hhdm_offset st' = hhdm_offset st → 0 ≤ p → 0 ≤ o → p + o + n ≤ 2 ^ 64 →
  load_buffer (u64 (phys_to_hhdm st p + o)) n st' = dma_read st' (p + o) n.
Proof.
  intros E Hp Ho Hn. replace (phys_to_hhdm st p) with (phys_to_hhdm st' p) by (unfold phys_to_hhdm; by rewrite E). by apply load_buffer_dma_off.
Qed.

(** The checks of the status block, and the end of the function. *)
Lemma wp_bbb_end w0 w st cp rp sp i j k sent len is_read l db t Q : stick_ok w → three_pages (slab (usb_memory w0)) i j k → stick_ok w0 →
  cp = page_addr (slab (usb_memory w0)) i → rp = page_addr (slab (usb_memory w0)) j → sp = page_addr (slab (usb_memory w0)) k →
  frame_ok cp → frame_ok rp → frame_ok sp → hhdm_offset (usb_memory w) = hhdm_offset st →
  slab (usb_memory w) = all_taken (slab (usb_memory w0)) i j k → st_bot (stick_view (usb_ctrl w)) = with_stage Ready db →
  Forall is_byte sent → dma_read (usb_memory w) cp 31 = sent → dma_read (usb_memory w) rp (Z.of_nat (length l)) = l →
  dma_read (usb_memory w) sp 13 = csw_bytes (field sent 4 4) → 0 < len ≤ PAGE_SIZE → (is_read = true → Z.of_nat (length l) = len) →
  (∀ w', request_done w0 db w' → Q (len, if is_read then l else [], u32 (t + 1), w')) →
  wp False ((csw ← get_memory (load_buffer (phys_to_hhdm st sp) SIZEOF_CSW);
    command_tag ← get_memory (load_buffer (u64 (phys_to_hhdm st cp + 4)) 4);
    _ ← lift (c_assert (csw_field csw "signature" =? CSW_SIGNATURE));
    _ ← lift (c_assert (csw_field csw "tag" =? le_val command_tag));
    _ ← lift (c_assert (csw_field csw "status" =? 0));
    data ← (if is_read then get_memory (load_buffer (phys_to_hhdm st rp) (u32 (len - csw_field csw "data_residue"))) else mret []);
    _ ← usb_free4k cp; _ ← usb_free_contiguous rp 1; _ ← usb_free4k sp;
    _ ← set_data (with_slot (p_slot c) (with_handler NoHandler)); _ ← frame_ends (p_slot c);
    mret (u32 (len - csw_field csw "data_residue"), data, u32 (t + 1))) w) Q.
Proof.
  intros Hok Htp Hok0 Ecp Erp Esp Fc Fr Fs Eh Es Eb Hsb Rc Rr Rs Hlen Hl HQ. change SIZEOF_CSW with 13.
  assert (∀ p, frame_ok p → 0 ≤ p ∧ p + PAGE_SIZE ≤ 2 ^ 64) as Hb by (intros p [? ?]; unfold PAGE_SIZE; lia).
  pose proof (Hb _ Fc). pose proof (Hb _ Fr). pose proof (Hb _ Fs). unfold PAGE_SIZE in *.
  rewrite (io_bind_Ok (get_memory _) _ w (csw_bytes (field sent 4 4)) w) by (unfold get_memory; rewrite load_buffer_later by (done || lia); by rewrite Rs).
  rewrite (io_bind_Ok (get_memory _) _ w (dma_read (usb_memory w) (cp + 4) 4) w) by (unfold get_memory; by rewrite load_buffer_later_off by (done || lia)).
  pose proof (field_byte_range sent 4 4 Hsb) as Htag. destruct (csw_bytes_fields (field sent 4 4) Htag) as (F1 & F2 & F3 & F4).
  assert (le_val (dma_read (usb_memory w) (cp + 4) 4) = field sent 4 4) as Et by (rewrite <-Rc; symmetry; apply (field_dma_read _ cp 31 4 4); lia).
  rewrite !lift_bind, F1, F2, F3, F4, Et, !Z.eqb_refl. cbn [c_assert mbind outcome_bind]. rewrite Z.sub_0_r, wrap_small by lia.
  change (wp False ((data ← (if is_read then get_memory (load_buffer (phys_to_hhdm st rp) len) else mret []);
    _ ← usb_free4k cp; _ ← usb_free_contiguous rp 1; _ ← usb_free4k sp;
    _ ← set_data (with_slot (p_slot c) (with_handler NoHandler)); _ ← frame_ends (p_slot c); mret (len, data, u32 (t + 1))) w) Q).
  rewrite (io_bind_Ok _ _ w (if is_read then l else []) w).
  2: { destruct is_read; [|done]. unfold get_memory. rewrite load_buffer_later by (done || lia). by rewrite <-(Hl eq_refl), Rr. }
  subst cp rp sp. apply wp_free_three; [apply (so_slab _ Hok0)|done|done|].
  set (w1 := Usb _ _ _ _). assert (stick_ok w1) as Hok1 by (apply stick_ok_slab; [done|apply (so_slab _ Hok0)|apply (so_held _ Hok0)]).
  apply (HQ (Usb (usb_memory w1) (usb_ctrl w1) (with_slot (p_slot c) (with_handler_data DeadFrame)
    (with_slot (p_slot c) (with_handler NoHandler) (usb_data w1))) (usb_tty w1))). constructor; [by apply stick_ok_finished|done|exact Eb].
Qed.
(** The three pages, with the command and the data to send in the first two. *)
Record bbb_ready (w : usb D) (sent input : list Z) (cp rp sp i j k : Z) (w5 : usb D) : Prop := {
  br_ok : stick_ok w5;
  br_pages : three_pages (slab (usb_memory w)) i j k;
  br_addrs : cp = page_addr (slab (usb_memory w)) i ∧ rp = page_addr (slab (usb_memory w)) j ∧ sp = page_addr (slab (usb_memory w)) k;
  br_apart : cp ≠ rp ∧ cp ≠ sp ∧ rp ≠ sp;
  br_frames : (frame_ok cp ∧ not_a_ring cp) ∧ (frame_ok rp ∧ not_a_ring rp) ∧ (frame_ok sp ∧ not_a_ring sp);
  br_slab : slab (usb_memory w5) = all_taken (slab (usb_memory w)) i j k;
  br_ctrl : usb_ctrl w5 = usb_ctrl w;
  br_command : dma_read (usb_memory w5) cp (Z.of_nat (length sent)) = sent;
  br_input : dma_read (usb_memory w5) rp (Z.of_nat (length input)) = input
}.

Definition put_page (w : usb D) (p : Z) (l : list Z) : usb D := Usb (dma_write p l (usb_memory w)) (usb_ctrl w) (usb_data w) (usb_tty w).

(** Data written to a page that was just taken. *)
Lemma put_page_ok w p i w1 l : took_page w p i w1 → Forall is_byte l → Z.of_nat (length l) ≤ PAGE_SIZE →
  stick_ok (put_page w1 p l) ∧ slab (usb_memory (put_page w1 p l)) = mark true i 1 (slab (usb_memory w)) ∧
  hhdm_offset (usb_memory (put_page w1 p l)) = hhdm_offset (usb_memory w).
Proof.
  intros (_ & _ & Ew & Hok & Hp & Hr & _) Hl Hlen. split; [|split].
  - apply stick_ok_store; [done|]. split; [done|]. split; [done|lia].
  - unfold put_page. cbn [usb_memory]. destruct (dma_write_elsewhere p l (usb_memory w1) p Hp ltac:(lia) ltac:(lia)) as [[g ->] _]. by rewrite Ew.
  - etrans; [apply (dma_write_rest p l)|]. by rewrite Ew.
Qed.

Lemma bbb_ready_intro w sent input cp rp sp i j k w1 w3 w5 : Forall is_byte sent → Z.of_nat (length sent) ≤ PAGE_SIZE → Forall is_byte input →
  Z.of_nat (length input) ≤ PAGE_SIZE →
  took_page w cp i w1 → took_page (put_page w1 cp sent) rp j w3 → took_page (put_page w3 rp input) sp k w5 →
  bbb_ready w sent input cp rp sp i j k w5 ∧ phys_to_hhdm (usb_memory w1) cp = phys_to_hhdm (usb_memory w5) cp ∧
    phys_to_hhdm (usb_memory w3) rp = phys_to_hhdm (usb_memory w5) rp.
Proof.
  intros Hsb Hsl Hib Hil T1 T3 T5. destruct (put_page_ok _ _ _ _ sent T1 Hsb Hsl) as (_ & E2 & O2). destruct (put_page_ok _ _ _ _ input T3 Hib Hil) as (_ & E4 & O4).
  destruct T1 as (Ecp & Hi & Ew1 & Ok1 & Fc & Rc & _). destruct T3 as (Erp & Hj & Ew3 & Ok3 & Fr & Rr & _). destruct T5 as (Esp & Hk & Ew5 & Ok5 & Fs & Rs & _).
  rewrite E2 in Erp, Hj, E4. rewrite E4 in Esp, Hk. set (s := slab (usb_memory w)) in *. change (rp = page_addr s j) in Erp. change (sp = page_addr s k) in Esp.
  assert (three_pages s i j k) as Htp by done. destruct (three_pages_differ _ _ _ _ Htp) as (Hij & Hik & Hjk).
  assert (cp ≠ rp ∧ cp ≠ sp ∧ rp ≠ sp) as (H1 & H2 & H3) by (rewrite Ecp, Erp, Esp; unfold page_addr, PAGE_SIZE; lia).
  assert (∀ a, phys_byte (usb_memory w5) a = phys_byte (dma_write rp input (usb_memory w3)) a) as M5 by (by rewrite Ew5).
  assert (∀ a, phys_byte (usb_memory w3) a = phys_byte (dma_write cp sent (usb_memory w1)) a) as M3 by (by rewrite Ew3).
  assert (hhdm_offset (usb_memory w5) = hhdm_offset (usb_memory (put_page w3 rp input))) as O5 by (by rewrite Ew5).
  assert (hhdm_offset (usb_memory w3) = hhdm_offset (usb_memory (put_page w1 cp sent))) as O3 by (by rewrite Ew3).
  split; [|by unfold phys_to_hhdm; rewrite O5, O4, O2, O3, O2, Ew1].
  constructor; try done.
  - rewrite Ew5. cbn [usb_memory with_slab slab]. by rewrite E4.
  - by rewrite Ew5; cbn [usb_ctrl put_page]; rewrite Ew3; cbn [usb_ctrl put_page]; rewrite Ew1.
  - etrans; [|apply (dma_read_write (usb_memory w1) cp sent Hsb)]. apply dma_read_ext. intros a Ha. rewrite M5, <-M3.
    by apply (dma_write_other_page cp rp input (Z.of_nat (length sent))).
  - etrans; [|apply (dma_read_write (usb_memory w3) rp input Hib)]. apply dma_read_ext. intros a _. apply M5.
Qed.

Lemma store_input w3 rp out len (is_read : bool) (input := if is_read then [] else take (Z.to_nat len) out) :
  frame_ok rp → 0 < len ≤ PAGE_SIZE → (is_read = false → len ≤ Z.of_nat (length out) ∧ Forall is_byte out) →
  (Z.of_nat (length input) ≤ len ∧ Forall is_byte input) ∧
  (if is_read then mret () else _ ← lift (if Z.of_nat (length out) <? len then Undef else Ok ());
     set_memory (store_buffer (phys_to_hhdm (usb_memory w3) rp) (take (Z.to_nat len) out))) w3 = Ok ((), put_page w3 rp input).
Proof.
  intros [Hr Hr64] Hlen Hout. unfold input. destruct is_read; [split; [split; [cbn; lia|done]|by destruct w3]|]. destruct (Hout eq_refl) as [Ho Hb].
  split; [split; [rewrite length_take; lia|by apply Forall_take]|]. rewrite lift_bind, (proj2 (Z.ltb_ge _ _)) by done.
  cbn [mbind outcome_bind]. unfold set_memory. rewrite store_buffer_dma; [done|lia|]. rewrite length_take. unfold PAGE_SIZE in *. lia.
Qed.

Lemma wp_bbb_start {A} w sent out len (is_read : bool) (rest : Z → Z → Z → Z → Z → Z → io (usb D) A) Q : stick_ok w → length sent = 31%nat → Forall is_byte sent →
  0 < len ≤ PAGE_SIZE → (is_read = false → len ≤ Z.of_nat (length out) ∧ Forall is_byte out) →
  let input := if is_read then [] else take (Z.to_nat len) out in
  (∀ cp rp sp i j k w5, bbb_ready w sent input cp rp sp i j k w5 →
    wp False (rest cp (phys_to_hhdm (usb_memory w5) cp) rp (phys_to_hhdm (usb_memory w5) rp) sp (phys_to_hhdm (usb_memory w5) sp) w5) Q) →
  wp (free_pages (slab (usb_memory w)) < 3)%nat ((command_phys ← usb_malloc4k;
    command ← to_virt command_phys;
    _ ← set_memory (store_buffer command sent);
    _ ← lift (c_assert (0 <? len));
    response_phys ← usb_malloc_contiguous 1;
    response ← to_virt response_phys;
    _ ← (if is_read then mret ()
         else _ ← lift (if Z.of_nat (length out) <? len then Undef else Ok ());
              set_memory (store_buffer response (take (Z.to_nat len) out)));
    status_phys ← usb_malloc4k;
    status ← to_virt status_phys;
    rest command_phys command response_phys response status_phys status) w) Q.
Proof.
  intros Hok Els Hsb Hlen Hout input Hrest. assert (Z.of_nat (length sent) ≤ PAGE_SIZE) as Hsl by (rewrite Els; done).
  apply wp_io_bind. eapply wp_mono_halt; [by apply (wp_usb_page malloc4k_phys), malloc4k_phys_wp|lia|].
  intros [cp w1] (i & T1). rewrite (io_bind_Ok (to_virt cp) _ w1 (phys_to_hhdm (usb_memory w1) cp) w1) by done.
  destruct (put_page_ok _ _ _ _ sent T1 Hsb Hsl) as (Ok2 & E2 & _). pose proof T1 as (_ & _ & _ & _ & [Fc Fc64] & _ & N1).
  apply wp_io_bind. cbn [set_memory wp]. rewrite store_buffer_dma by (rewrite ?Els; lia). fold (put_page w1 cp sent).
  rewrite assert_bind by (apply Z.ltb_lt; lia).
  assert (slab (usb_memory (put_page w1 cp sent)) = slab (usb_memory w1)) as S2 by (rewrite E2; by destruct T1 as (_ & _ & -> & _)). rewrite <-S2 in N1.
  apply wp_io_bind. eapply wp_mono_halt; [by apply (wp_usb_page (malloc_contiguous_phys 1)), malloc_one_page_wp|lia|].
  intros [rp w3] (j & T3). rewrite (io_bind_Ok (to_virt rp) _ w3 (phys_to_hhdm (usb_memory w3) rp) w3) by done.
  pose proof T3 as (_ & _ & _ & _ & Fr & _ & N3). destruct (store_input w3 rp out len is_read Fr Hlen Hout) as [[Hil Hib] Es]. fold input in Hil, Hib, Es.
  rewrite (io_bind_Ok _ _ _ _ _ Es). destruct (put_page_ok _ _ _ _ input T3 Hib ltac:(lia)) as (Ok4 & E4 & _).
  assert (slab (usb_memory (put_page w3 rp input)) = slab (usb_memory w3)) as S4 by (rewrite E4; by destruct T3 as (_ & _ & -> & _)). rewrite <-S4 in N3.
  apply wp_io_bind. eapply wp_mono_halt; [by apply (wp_usb_page malloc4k_phys), malloc4k_phys_wp|lia|].
  intros [sp w5] (k & T5). rewrite (io_bind_Ok (to_virt sp) _ w5 (phys_to_hhdm (usb_memory w5) sp) w5) by done.
  destruct (bbb_ready_intro w sent input cp rp sp i j k w1 w3 w5 Hsb Hsl Hib ltac:(lia) T1 T3 T5) as (Hr & -> & ->).
  eapply wp_mono_halt; [by apply (Hrest cp rp sp i j k w5)|done|done].
Qed.

Lemma wp_send_bbb fuel w t cbw out len is_read stg l db : stick_ok w → (S stick_latency < fuel)%nat →
  bot_stage (st_bot (stick_view (usb_ctrl w))) = Ready → let sent := encode_cbw (with_tag t cbw) in
  (length (command cbw) ≤ 16)%nat → Forall is_byte sent → accept_command (st_bot (stick_view (usb_ctrl w))) sent = Some stg →
  0 < len ≤ PAGE_SIZE → (is_read = false → len ≤ Z.of_nat (length out) ∧ Forall is_byte out) →
  (∀ there, length there = Z.to_nat len → (is_read = false → there = take (Z.to_nat len) out) →
     bot_transfer is_read there (with_stage stg (st_bot (stick_view (usb_ctrl w)))) = Some (l, with_stage (StatusStage (field sent 4 4)) db)) →
  Z.of_nat (length l) ≤ len → Forall is_byte l → (is_read = true → Z.of_nat (length l) = len) →
  wp (free_pages (slab (usb_memory w)) < 3)%nat (send_bbb fuel t (p_slot c) (p_in c) (p_out c) cbw out len is_read w)
    (λ '(r, w'), r = (len, if is_read then l else [], u32 (t + 1)) ∧ request_done w db w').
Proof.
  intros Hok Hf Hready sent Hcmd Hsb Hacc Hlen Hout Hdata Hl Hlb Hlr. assert (length sent = 31%nat) as Els by (by apply length_encode_cbw).
  unfold send_bbb. cbv zeta. rewrite round_up_one by done. fold sent.
  eapply wp_bbb_start; [done..|]. intros cp rp sp i j k w5 [Ok5 Htp (Ecp & Erp & Esp) (H1 & H2 & H3) ((Fc & Rc) & (Fr & Rr) & (Fs & Rs)) E5 Ec5 Mc Mi].
  rewrite Els in Mc. apply (wp_three_transfers fuel w5 is_read cp rp sp len sent stg l db); rewrite ?Ec5; try done.
  - by split; [|split; [|lia]].
  - apply Hdata; [by rewrite length_dma_read|]. intros ->. destruct (Hout eq_refl) as [Ho _]. cbn iota in Mi. rewrite length_take in Mi.
    by replace (Z.of_nat (Z.to_nat len `min` length out)) with len in Mi by lia.
  - intros w6 Ok6 Es6 Eh6 Eb6 Rc6 Rr6 Rs6. apply (wp_bbb_end w w6 (usb_memory w5) cp rp sp i j k sent len is_read l db t); try done.
    by rewrite Es6.
Qed.
End driver.

(** ** The commands *)
Lemma le_bytes_8 v : le_bytes 8 v = le_bytes 4 v ++ le_bytes 4 (v `div` 2 ^ 32).
Proof. cbn [le_bytes app]. rewrite !Z.div_div by lia. done. Qed.

Lemma four_bytes v : 0 ≤ v < 2 ^ 32 → ∃ a b c d, le_bytes 4 v = [a; b; c; d] ∧ le_val [a; b; c; d] = v.
Proof.
  intros Hv. pose proof (le_val_bytes 4 v) as E. rewrite Z.mod_small in E by done. do 4 eexists. split; [cbn [le_bytes]; reflexivity|exact E].
Qed.

Lemma block_cbw_bytes t opcode dir s : 0 ≤ opcode < 256 → 0 ≤ dir < 2 → Forall is_byte (encode_cbw (with_tag t (block_cbw opcode dir s))).
Proof.
  intros Ho Hd. pose proof (le_bytes_byte 8 s) as Hs. rewrite le_bytes_8 in Hs. apply Forall_app in Hs as [Hs _].
  assert (∀ i : nat, (i < 4)%nat → is_byte (default 0 (le_bytes 8 s !! i))) as Hb.
  { intros i Hi. rewrite le_bytes_8, lookup_app_l by (by rewrite le_bytes_length).
    destruct (lookup_lt_is_Some_2 (le_bytes 4 s) i ltac:(by rewrite le_bytes_length)) as [x Hx]. rewrite Hx. by eapply Forall_lookup_1. }
  unfold encode_cbw, block_cbw. cbn [with_tag cbw_signature tag transfer_length cbw_direction lun command_len command].
  rewrite !Forall_app. repeat split; try apply le_bytes_byte; repeat constructor; try lia; try (apply Hb; lia); unfold is_byte; lia.
Qed.

Lemma accept_block d t s opcode dir : 0 ≤ t < 2 ^ 32 → 0 ≤ s < 2 ^ 32 → s ≤ bot_last d → (opcode = 0x28 ∧ dir = 1) ∨ (opcode = 0x2A ∧ dir = 0) →
  accept_command d (encode_cbw (with_tag t (block_cbw opcode dir s))) = Some (if dir =? 1 then DataIn (bot_disk d s) t else DataOut s t).
Proof.
  intros Ht Hs Hl Hop. unfold encode_cbw, block_cbw. rewrite le_bytes_8.
  destruct (four_bytes t Ht) as (t0 & t1 & t2 & t3 & Et & Ht'), (four_bytes s Hs) as (s0 & s1 & s2 & s3 & Es & Hs').
  cbn [with_tag cbw_signature tag transfer_length cbw_direction lun command_len command]. rewrite Et, Es. unfold accept_command.
  match goal with |- context [field ?l 0 4] => set (l0 := l) end.
  change (field l0 0 4) with CBW_SIGNATURE. change (field l0 8 4) with 512. change (field l0 4 4) with (le_val [t0; t1; t2; t3]).
  change (be_val (take 4 (drop 17 l0))) with (le_val [s0; s1; s2; s3]). change (be_val (take 2 (drop 22 l0))) with 1.
  change (default 0 (l0 !! 13%nat)) with 0. change (default 0 (l0 !! 14%nat)) with 10. rewrite Ht', Hs', (proj2 (Z.leb_le _ _) Hl).
  destruct Hop as [[-> ->]|[-> ->]]; reflexivity.
Qed.

Lemma accept_capacity d t : 0 ≤ t < 2 ^ 32 →
  accept_command d (encode_cbw (with_tag t capacity_cbw)) = Some (DataIn (be_bytes 4 (bot_last d) ++ be_bytes 4 512) t).
Proof.
  intros Ht. unfold encode_cbw, capacity_cbw. destruct (four_bytes t Ht) as (t0 & t1 & t2 & t3 & Et & Ht').
  cbn [with_tag cbw_signature tag transfer_length cbw_direction lun command_len command]. rewrite Et. unfold accept_command.
  match goal with |- context [field ?l 0 4] => set (l0 := l) end.
  change (field l0 0 4) with CBW_SIGNATURE. change (field l0 8 4) with 8. change (field l0 4 4) with (le_val [t0; t1; t2; t3]). by rewrite Ht'.
Qed.

(** The driver's byte swap is the inverse of big-endian order. *)
Lemma flip_four a b c d : is_byte a → is_byte b → is_byte c → is_byte d → flip_endianness (le_val [d; c; b; a]) = le_val [a; b; c; d].
Proof.
  intros Ha Hb Hc Hd. unfold flip_endianness. assert (le_bytes 4 (le_val [d; c; b; a]) = [d; c; b; a]) as -> by (apply (le_bytes_val [d; c; b; a]); rewrite !Forall_cons; split_and!; try done; by apply Forall_nil). cbn [lookup list_lookup default].
  unfold is_byte, id in *. rewrite (Z.lor_comm (Z.shiftl d 24)), (lor_shiftl (Z.shiftl c 16)) by (rewrite ?Z.shiftl_mul_pow2; lia).
  rewrite (Z.lor_comm _ (Z.shiftl b 8)), (Z.shiftl_mul_pow2 c 16) by lia.
  replace (c * 2 ^ 16 + d * 2 ^ 24) with (Z.shiftl (c + d * 256) 16) by (rewrite Z.shiftl_mul_pow2; lia).
  rewrite lor_shiftl by (rewrite ?Z.shiftl_mul_pow2; lia). rewrite (Z.shiftl_mul_pow2 b 8) by lia.
  replace (b * 2 ^ 8 + (c + d * 256) * 2 ^ 16) with (Z.shiftl (b + c * 256 + d * 65536) 8) by (rewrite Z.shiftl_mul_pow2; lia).
  rewrite Z.lor_comm, lor_shiftl by lia. rewrite wrap_small by lia. cbn [le_val]. lia.
Qed.

Lemma flip_big_endian v : 0 ≤ v < 2 ^ 32 → flip_endianness (le_val (be_bytes 4 v)) = v.
Proof.
  intros Hv. destruct (four_bytes v Hv) as (a & b & c & d & E & Ev). unfold be_bytes. pose proof (le_bytes_byte 4 v) as Hb. rewrite E in *.
  change (reverse [a; b; c; d]) with [d; c; b; a]. rewrite !Forall_cons in Hb. rewrite flip_four by tauto. done.
Qed.

Section block_device.
Context {D : Type} `{!PortIO D} `{!Mmio D} `{!UsbController D} {c : place} `{!UsbStick D c}.
Abbreviation stick_view := (@stick_view D _ _ _ c _).
Abbreviation stick_latency := (@stick_latency D _ _ _ c _).
Implicit Types (w : usb D).

(** The driver's record of the disk. *)
Record msd_ok (msd : MassStorageDeviceXHCI) (t : Z) (w : usb D) : Prop := {
  mo_class : size_class msd = 10; mo_slot : slot_of msd = p_slot c; mo_in : in_of msd = p_in c; mo_out : out_of msd = p_out c;
  mo_last : last_lba msd = bot_last (st_bot (stick_view (usb_ctrl w)));
  mo_range : last_lba msd < 2 ^ 32;
  mo_tag : 0 ≤ t < 2 ^ 32;
  mo_ready : bot_stage (st_bot (stick_view (usb_ctrl w))) = Ready;
  mo_ok : stick_ok (c := c) w
}.

Definition disk_of w : Z → list Z := bot_disk (st_bot (stick_view (usb_ctrl w))).

Lemma msd_ok_after msd t w w' f : msd_ok msd t w → request_done (c := c) w (Bot f (bot_last (st_bot (stick_view (usb_ctrl w)))) (bot_stage (st_bot (stick_view (usb_ctrl w'))))) w' →
  msd_ok msd (u32 (t + 1)) w' ∧ disk_of w' = f ∧ slab (usb_memory w') = slab (usb_memory w).
Proof.
  intros [] [Hok Hs Hb]. split; [constructor; try done|split; [unfold disk_of; by rewrite Hb|done]].
  - by rewrite Hb.
  - by apply Z.mod_pos_bound.
  - by rewrite Hb.
Qed.

Lemma msd_read_wp fuel msd t w s : msd_ok msd t w → (S stick_latency < fuel)%nat → 0 ≤ s ≤ last_lba msd →
  wp (free_pages (slab (usb_memory w)) < 3)%nat (msd_block_read fuel msd t s w)
    (λ '(r, w'), r = (disk_of w s, u32 (t + 1)) ∧ msd_ok msd (u32 (t + 1)) w' ∧ disk_of w' = disk_of w ∧ slab (usb_memory w') = slab (usb_memory w)).
Proof.
  intros Hm Hf Hs. pose proof Hm as []. set (d := st_bot (stick_view (usb_ctrl w))) in *.
  destruct (stick_sector (usb_ctrl w) s) as [Hl Hb]. change (bot_disk (st_bot (UsbStick.stick_view (usb_ctrl w))) s) with (disk_of w s) in Hl, Hb.
  unfold msd_block_read. rewrite assert_bind by (apply Z.leb_le; lia). rewrite mo_class0, Z.eqb_refl. rewrite assert_bind by (apply Z.leb_le; lia).
  rewrite mo_slot0, mo_in0, mo_out0. pose proof (accept_block d t s 0x28 1 mo_tag0 ltac:(lia) ltac:(lia) ltac:(by left)) as Ha.
  assert (t = field (encode_cbw (with_tag t (block_cbw 0x28 1 s))) 4 4) as Htag by exact (accepted_tag _ _ _ Ha). apply wp_io_bind.
  eapply wp_mono; [apply (wp_send_bbb fuel w t (block_cbw 0x28 1 s) [] 512 true (DataIn (disk_of w s) t) (disk_of w s) d); try done|].
  - cbn [block_cbw command length]. lia.
  - by apply block_cbw_bytes.
  - intros there Hlen _. unfold bot_transfer. cbn [with_stage bot_stage]. rewrite bool_decide_true by (by rewrite Hl). by rewrite <-Htag.
  - rewrite Hl. done.
  - intros _. by rewrite Hl.
  - intros [r w'] [-> Hd]. cbv beta iota. rewrite assert_bind by done. cbn [wp mret io_ret]. split; [done|].
    apply (msd_ok_after _ _ w w' (disk_of w)); [done|]. destruct Hd as [H1 H2 H3]. by constructor.
Qed.

Lemma msd_write_wp fuel msd t w s input : msd_ok msd t w → (S stick_latency < fuel)%nat → 0 ≤ s ≤ last_lba msd →
  length input = 512%nat → Forall is_byte input →
  wp (free_pages (slab (usb_memory w)) < 3)%nat (msd_block_write fuel msd t s input w)
    (λ '(r, w'), r = u32 (t + 1) ∧ msd_ok msd (u32 (t + 1)) w' ∧
      disk_of w' = (λ i, if decide (i = s) then input else disk_of w i) ∧ slab (usb_memory w') = slab (usb_memory w)).
Proof.
  intros Hm Hf Hs Hl Hb. pose proof Hm as []. set (d := st_bot (stick_view (usb_ctrl w))) in *.
  unfold msd_block_write. rewrite assert_bind by (apply Z.leb_le; lia). rewrite mo_class0, Z.eqb_refl. rewrite assert_bind by (apply Z.leb_le; lia).
  rewrite mo_slot0, mo_in0, mo_out0. pose proof (accept_block d t s 0x2A 0 mo_tag0 ltac:(lia) ltac:(lia) ltac:(by right)) as Ha.
  assert (t = field (encode_cbw (with_tag t (block_cbw 0x2A 0 s))) 4 4) as Htag by exact (accepted_tag _ _ _ Ha). apply wp_io_bind.
  set (f := λ i, if decide (i = s) then input else disk_of w i).
  eapply wp_mono; [apply (wp_send_bbb fuel w t (block_cbw 0x2A 0 s) input 512 false (DataOut s t) [] (Bot f (bot_last d) Ready)); try done|].
  - cbn [block_cbw command length]. lia.
  - by apply block_cbw_bytes.
  - intros _. rewrite Hl. done.
  - intros there Hlen Ht. unfold bot_transfer. cbn [with_stage bot_stage]. rewrite bool_decide_true by done. rewrite <-Htag, Ht by done.
    rewrite take_ge by (rewrite Hl; done). done.
  - intros [r w'] [-> Hd]. cbv beta iota. rewrite assert_bind by done. cbn [wp mret io_ret]. split; [done|].
    apply (msd_ok_after _ _ w w' f); [done|]. destruct Hd as [H1 H2 H3]. by constructor.
Qed.
(** The capacity the driver asks for when it starts. *)
Lemma read_capacity_wp fuel w t : stick_ok (c := c) w → (S stick_latency < fuel)%nat → 0 ≤ t < 2 ^ 32 →
  bot_stage (st_bot (stick_view (usb_ctrl w))) = Ready → 0 ≤ bot_last (st_bot (stick_view (usb_ctrl w))) < 2 ^ 32 →
  wp (free_pages (slab (usb_memory w)) < 3)%nat (send_bbb fuel t (p_slot c) (p_in c) (p_out c) capacity_cbw [] 8 true w)
    (λ '(n, l, t', w'), n = 8 ∧ t' = u32 (t + 1) ∧ flip_endianness (field l 0 4) = bot_last (st_bot (stick_view (usb_ctrl w))) ∧
      flip_endianness (field l 4 4) = BLOCK_DEVICE_READ_SIZE ∧ request_done (c := c) w (st_bot (stick_view (usb_ctrl w))) w').
Proof.
  intros Hok Hf Ht Hr Hl. pose proof (accept_capacity (st_bot (stick_view (usb_ctrl w))) t Ht) as Ha.
  assert (t = field (encode_cbw (with_tag t capacity_cbw)) 4 4) as Htag by exact (accepted_tag _ _ _ Ha).
  assert (∀ v, length (be_bytes 4 v) = 4%nat ∧ Forall is_byte (be_bytes 4 v)) as Hbe.
  { intros v. unfold be_bytes. split; [by rewrite length_reverse, le_bytes_length|apply Forall_reverse, le_bytes_byte]. }
  destruct (Hbe (bot_last (st_bot (stick_view (usb_ctrl w))))) as [Hl1 Hb1], (Hbe 512) as [Hl2 Hb2].
  set (l := be_bytes 4 (bot_last (st_bot (stick_view (usb_ctrl w)))) ++ be_bytes 4 512) in *.
  eapply wp_mono; [apply (wp_send_bbb fuel w t capacity_cbw [] 8 true (DataIn l t) l (st_bot (stick_view (usb_ctrl w))) Hok Hf Hr); [cbn; lia| |exact Ha|done|done| |..]|].
  - unfold encode_cbw, capacity_cbw. cbn [with_tag cbw_signature tag transfer_length cbw_direction lun command_len command].
    rewrite !Forall_app. repeat split; try apply le_bytes_byte; repeat constructor; lia.
  - intros there Hlen _. unfold bot_transfer. cbn [with_stage bot_stage]. rewrite bool_decide_true by (unfold l; rewrite length_app, Hl1, Hl2, Hlen; done).
    by rewrite <-Htag.
  - unfold l. rewrite length_app, Hl1, Hl2. done.
  - by apply Forall_app.
  - intros _. unfold l. by rewrite length_app, Hl1, Hl2.
  - intros [r w'] [-> Hd]. cbv beta iota. split; [done|]. split; [done|].
    unfold l. rewrite field_app_l, field_app_r by (rewrite ?Hl1; lia). unfold field. rewrite !drop_0, !take_ge by lia. split; [by apply flip_big_endian|]. split; [|done].
    by apply flip_big_endian.
Qed.

(** ** The driver as a block driver (BlockDev.v)

    A state that is not ready has no sectors. *)
Definition disk_ready (s : MassStorageDeviceXHCI * Z * usb D) : Prop :=
  msd_ok s.1.1 s.1.2 s.2 ∧ (3 ≤ free_pages (slab (usb_memory s.2)))%nat.

(** The two functions [initialise_msd] registers. *)
Definition usb_read (i : Z) (s : MassStorageDeviceXHCI * Z * usb D) : outcome (list Z * (MassStorageDeviceXHCI * Z * usb D)) :=
  let '(msd, t, w) := s in '(l, t, w) ← msd_block_read (S (S stick_latency)) msd t i w; Ok (l, (msd, t, w)).
Definition usb_write (i : Z) (l : list Z) (s : MassStorageDeviceXHCI * Z * usb D) : outcome (MassStorageDeviceXHCI * Z * usb D) :=
  let '(msd, t, w) := s in '(t, w) ← msd_block_write (S (S stick_latency)) msd t i l w; Ok (msd, t, w).

#[export] Program Instance usb_block_driver : BlockDriver (MassStorageDeviceXHCI * Z * usb D) := {
  block_read := usb_read;
  block_write := usb_write;
  sector s := disk_of s.2;
  num_sectors s := if excluded_middle_informative (disk_ready s) then last_lba s.1.1 + 1 else 0
}.
Next Obligation. intros [[msd t] w] i. apply (stick_sector (c := c)). Qed.
Next Obligation.
  intros [[msd t] w] i Hi. cbn [fst snd] in *. destruct (excluded_middle_informative _) as [[Hok Hfp]|]; [|lia]. cbn [fst snd] in *.
  apply wp_bind. eapply wp_mono_halt; [apply (msd_read_wp _ _ _ _ i Hok); lia|lia|].
  intros [[l t'] w'] ([= -> ->] & Hok' & Ed & Es). cbn [wp fst snd]. split; [done|]. split; [done|].
  destruct (excluded_middle_informative _) as [|Hn]; [done|]. destruct Hn. split; [done|]. cbn [snd]. by rewrite Es.
Qed.
Next Obligation.
  intros [[msd t] w] i l Hi Hl Hb. cbn [fst snd] in *. destruct (excluded_middle_informative _) as [[Hok Hfp]|]; [|lia]. cbn [fst snd] in *.
  apply wp_bind. eapply wp_mono_halt; [apply (msd_write_wp _ _ _ _ i l Hok); (done || lia)|lia|].
  intros [t' w'] (-> & Hok' & Ed & Es). cbn [wp fst snd]. split.
  - destruct (excluded_middle_informative _) as [|Hn]; [done|]. destruct Hn. split; [done|]. cbn [snd]. by rewrite Es.
  - intros j. rewrite Ed. by destruct (decide (i = j)), (decide (j = i)).
Qed.

(** C18: A sector that was written to a USB disk reads back and the others are as they were; every page taken for a
    request is given back, the rings are empty again, and the driver is ready for the next request. *)
Theorem usb_write_then_read fuel msd t w s s' input :
  msd_ok msd t w → (3 ≤ free_pages (slab (usb_memory w)))%nat → (S stick_latency < fuel)%nat →
  0 ≤ s ≤ last_lba msd → 0 ≤ s' ≤ last_lba msd → length input = 512%nat → Forall is_byte input →
  ∃ w1 w2, msd_block_write fuel msd t s input w = Ok (u32 (t + 1), w1) ∧
    msd_block_read fuel msd (u32 (t + 1)) s' w1 = Ok (if decide (s' = s) then input else disk_of w s', u32 (u32 (t + 1) + 1), w2) ∧
    msd_ok msd (u32 (u32 (t + 1) + 1)) w2 ∧ slab (usb_memory w2) = slab (usb_memory w) ∧
    ∀ i, disk_of w2 i = if decide (i = s) then input else disk_of w i.
Proof.
  intros Hok Hfp Hf Hs Hs' Hin Hby. pose proof (msd_write_wp fuel msd t w s input Hok Hf Hs Hin Hby) as Hw.
  destruct (msd_block_write fuel msd t s input w) as [[t1 w1]| | |]; cbn [wp] in Hw; [|lia|done|done].
  destruct Hw as (-> & Hok1 & Ed1 & Es1).
  pose proof (msd_read_wp fuel msd (u32 (t + 1)) w1 s' Hok1 Hf Hs') as Hr. rewrite Es1 in Hr.
  destruct (msd_block_read fuel msd (u32 (t + 1)) s' w1) as [[r w2]| | |] eqn:Er; cbn [wp] in Hr; [|lia|done|done].
  destruct Hr as (-> & Hok2 & Ed2 & Es2). exists w1, w2. rewrite Er, Ed2, Ed1, Es2. done.
Qed.

(** The capacity a disk reports is the number the driver keeps: READ CAPACITY(10) returns its last block and the
    block size, big-endian, and [flip_endianness] gives both back. *)
Theorem read_capacity_spec fuel w t : stick_ok (c := c) w → (3 ≤ free_pages (slab (usb_memory w)))%nat → (S stick_latency < fuel)%nat →
  0 ≤ t < 2 ^ 32 → bot_stage (st_bot (stick_view (usb_ctrl w))) = Ready → 0 ≤ bot_last (st_bot (stick_view (usb_ctrl w))) < 2 ^ 32 →
  ∃ l w', send_bbb fuel t (p_slot c) (p_in c) (p_out c) capacity_cbw [] 8 true w = Ok (8, l, u32 (t + 1), w') ∧
    flip_endianness (field l 0 4) = bot_last (st_bot (stick_view (usb_ctrl w))) ∧ flip_endianness (field l 4 4) = BLOCK_DEVICE_READ_SIZE ∧
    stick_ok (c := c) w' ∧ slab (usb_memory w') = slab (usb_memory w).
Proof.
  intros Hok Hfp Hf Ht Hr Hl. pose proof (read_capacity_wp fuel w t Hok Hf Ht Hr Hl) as H.
  destruct (send_bbb fuel t (p_slot c) (p_in c) (p_out c) capacity_cbw [] 8 true w) as [[[[n l] t'] w']| | |]; cbn [wp] in H; [|lia|done|done].
  destruct H as (-> & -> & E1 & E2 & [H1 H2 _]). by exists l, w'.
Qed.
End block_device.

(** ** Examples: a USB disk in memory: the interface of UsbStick.v has an implementation, and the theorems apply to it *)
(** Slot 1 with endpoint 1 in and endpoint 2 out; the rings are the first three pages. *)
Definition ex_place : place := Place (MkBar 0x10000 0xFE000000 0xFE000000 false) 0x20 0x1000 0x2000 1 2 3 8192 12288 16384.

Definition sectors_ok (d : bot) : Prop := ∀ s, length (bot_disk d s) = 512%nat ∧ Forall is_byte (bot_disk d s).

(** The controller with its disk; it lets one round pass before it serves an endpoint. *)
Record ex_stick := ExStick { ex_state : stick; ex_sectors_ok : sectors_ok (st_bot ex_state); ex_bell : option bool; ex_late : bool }.

Lemma dma_read_bytes m p n : Forall is_byte (dma_read m p n).
Proof. apply Forall_fmap, Forall_true. intros a. apply bits_range. lia. Qed.

Lemma bot_transfer_sectors b sent d l d' : sectors_ok d → Forall is_byte sent → bot_transfer b sent d = Some (l, d') → sectors_ok d'.
Proof.
  intros Hd Hs. unfold bot_transfer. destruct (bot_stage d), b; try done; case_bool_decide as Hl; try done.
  - destruct (accept_command d sent); [|done]. intros [= <- <-]. exact Hd.
  - intros [= <- <-]. exact Hd.
  - intros [= <- <-] s. cbn [bot_disk]. case_decide; [by split|apply Hd].
  - intros [= <- <-]. exact Hd.
Qed.

Lemma serve_sectors b m s m' s' : sectors_ok (st_bot s) → serve ex_place b m s = Some (m', s') → sectors_ok (st_bot s').
Proof.
  intros Hs. unfold serve. destruct (read_ring _ _ _) as [[x|] pos]; cbn [mbind option_bind]; [|done]. destruct (plain_block x); [|done].
  destruct (bot_transfer _ _ _) as [[l d]|] eqn:E; cbn [mbind option_bind]; [|done]. destruct (post_event _ _ _ _) as [w m2].
  intros [= <- <-]. cbn [moved st_bot]. by apply (bot_transfer_sectors _ _ _ _ _ Hs (dma_read_bytes _ _ _) E).
Qed.

Definition served (d : ex_stick) (b : bool) (m : mm) (o : option (mm * stick)) : serve ex_place b m (ex_state d) = o → ex_stick * mm * bool :=
  match o with
  | Some (m', s') => λ E, (ExStick s' (serve_sectors b m (ex_state d) m' s' (ex_sectors_ok d) E) None false, m', true)
  | None => λ _, (d, m, false)
  end.

Definition ex_run (d : ex_stick) (m : mm) : ex_stick * mm * bool :=
  match ex_bell d with
  | None => (d, m, false)
  | Some b =>
      if ex_late d then (ExStick (ex_state d) (ex_sectors_ok d) (Some b) false, m, false) else served d b m _ eq_refl
  end.

Lemma served_some d b m o E m' s' : o = Some (m', s') →
  let '(d', m1, irq) := served d b m o E in irq = true ∧ m1 = m' ∧ ex_state d' = s' ∧ ex_bell d' = None.
Proof. intros ->. done. Qed.

#[export] Instance ex_stick_ports : PortIO ex_stick := { port_in n p d := (0, d); port_out n p v d := d }.
#[export] Instance ex_stick_mmio : Mmio ex_stick := {
  mmio_read32 a d := Ok (0, d);
  mmio_write32 a v d := Ok (if a =? 0xFE002004 then ExStick (ex_state d) (ex_sectors_ok d) (Some (v =? 3)) true else d)
}.
#[export] Instance ex_stick_run : UsbController ex_stick := { usb_run := ex_run }.

Lemma ex_event_registers o : o ∈ event_registers ex_place → o = 36 ∨ o = 4128 ∨ o = 4152 ∨ o = 4156.
Proof. unfold event_registers. cbn. set_solver. Qed.

#[export] Program Instance ex_usb_stick : UsbStick ex_stick ex_place := {
  stick_view := ex_state;
  bell := ex_bell;
  patience d := if ex_late d then 1%nat else 0%nat;
  stick_latency := 1%nat
}.
Next Obligation. intros d s. apply (ex_sectors_ok d). Qed.
Next Obligation. intros d. cbn. destruct (ex_late d); lia. Qed.
Next Obligation. intros d o [-> |[-> |[-> | ->]]]%ex_event_registers; by exists 0, d. Qed.
Next Obligation. intros d o v [-> |[-> |[-> | ->]]]%ex_event_registers; by exists d. Qed.
Next Obligation. intros d b Hb. destruct b; eexists; split; [reflexivity|by split|reflexivity|by split]. Qed.
Next Obligation.
  intros d m b m' s' Hb Hs. cbn [usb_run ex_stick_run]. unfold ex_run. rewrite Hb. destruct (ex_late d); [cbn; split_and!; [done|done|done|lia]|].
  pose proof (served_some d b m _ eq_refl m' s' Hs) as H. destruct (served d b m _ eq_refl) as [[d' m1] irq]. by destruct H as (-> & -> & -> & ->).
Qed.

(** ** A machine with 7 pages of memory, three of them the rings of a disk of 16 sectors *)
Definition ex_slab : phys_state := mark true 0 3 (init_physical_memory 4096 (8 * PAGE_SIZE)).
Definition ex_links : gmap Z Z := list_to_map ([8192; 12288; 16384] ≫= λ t, [(t + 4080, parameter (link_trb t 0)); (t + 4088, status (link_trb t 0))]).
Definition ex_memory : mm := MM ex_slab ex_links 0 (2 ^ 47) 0 0 [].
Definition ex_ring (t : Z) : Ring := MkRing 256 0 t (phys_to_hhdm ex_memory t) 1.
Definition ex_device : XHCIDevice := with_rings (replicate 2 no_ring ++ [ex_ring 8192; ex_ring 12288] ++ replicate 11 no_ring) no_device.
Definition ex_data : xHCIData :=
  MkXHCIData no_ring (ex_ring 16384) (p_bar ex_place) 0x20 0x1000 0x2000 0 (λ i, if decide (i = 1) then ex_device else no_device) [].
Definition ex_disk : bot := Bot (λ s, replicate 512 (s `mod` 256)) 15 Ready.

Lemma ex_disk_sectors : sectors_ok ex_disk.
Proof. intros s. split; [done|]. apply Forall_replicate. apply Z.mod_pos_bound. lia. Qed.

Definition ex_world : usb ex_stick :=
  Usb ex_memory (ExStick (Stick ex_disk (0, 1) (0, 1) (0, 1)) ex_disk_sectors None false) ex_data (tty_initial small_display).
Definition ex_msd : MassStorageDeviceXHCI := MkMassStorage 10 1 2 3 15.

Lemma ex_slots t : t ∈ [8192; 12288; 16384] → ∀ j, 0 ≤ j < 256 → slot ex_memory t j = if decide (j = 255) then link_trb t 0 else Trb 0 0.
Proof.
  intros Ht j Hj.
  assert (Forall (λ t, Forall (λ j, parameter (slot ex_memory t j) = (if decide (j = 255) then parameter (link_trb t 0) else 0) ∧
    status (slot ex_memory t j) = (if decide (j = 255) then status (link_trb t 0) else 0)) (seqZ 0 256)) [8192; 12288; 16384]) as H
    by (apply (bool_decide_unpack _); vm_compute; exact I).
  rewrite Forall_forall in H. specialize (H t Ht). rewrite Forall_forall in H. destruct (H j) as [E1 E2]; [by apply elem_of_seqZ|].
  destruct (slot ex_memory t j) as [a b]. cbn [parameter status] in *. subst. by case_decide; [destruct (link_trb t 0)|].
Qed.

Lemma ex_stick_ok : stick_ok (c := ex_place) ex_world.
Proof.
  constructor.
  - constructor; try done. by intros [].
  - constructor; try done; by intros [].
  - intros []; eexists _, 0; (split; [reflexivity|]); apply new_ring_holds; try done; by apply ex_slots; set_solver.
  - exists 0. constructor; try done; [cbn [length]; lia|]. intros n Hn. cbn [length] in Hn.
    apply (new_slot_cycle EVENTS _ 16384); [lia|apply ex_slots; set_solver|lia].
  - done.
  - split; [|vm_compute; done]. apply wf_mark. by apply (init_physical_memory_wf 4096 (8 * PAGE_SIZE)).
  - intros a (i & [Hi Hf] & ->).
    assert (3 ≤ i) as Hi3. { destruct (decide (3 ≤ i)) as [|Hn]; [done|]. assert (i = 0 ∨ i = 1 ∨ i = 2) as [-> |[-> | ->]] by lia; done. }
    unfold page_addr. change (physical_memory_base (slab (usb_memory ex_world))) with 8192. change PAGE_SIZE with 4096.
    split; [intros []; cbn|cbn]; lia.
Qed.

Lemma ex_msd_ok : msd_ok (c := ex_place) ex_msd 0 ex_world.
Proof. constructor; try done. apply ex_stick_ok. Qed.

(** Block 5 is written with zeros; blocks 5 and 6 read back what they should. *)
Lemma usb_write_then_read_witness :
  (∃ w1 w2, msd_block_write 3 ex_msd 0 5 (replicate 512 0) ex_world = Ok (1, w1) ∧ msd_block_read 3 ex_msd 1 5 w1 = Ok (replicate 512 0, 2, w2)) ∧
  (∃ w1 w2, msd_block_write 3 ex_msd 0 5 (replicate 512 0) ex_world = Ok (1, w1) ∧ msd_block_read 3 ex_msd 1 6 w1 = Ok (replicate 512 6, 2, w2)).
Proof.
  split.
  - destruct (usb_write_then_read 3 ex_msd 0 ex_world 5 5 (replicate 512 0) ex_msd_ok ltac:(vm_compute; lia) ltac:(cbn; lia)
      ltac:(cbn; lia) ltac:(cbn; lia) ltac:(done) ltac:(apply Forall_replicate; unfold is_byte; lia)) as (w1 & w2 & E1 & E2 & _).
    exists w1, w2. split; [exact E1|exact E2].
  - destruct (usb_write_then_read 3 ex_msd 0 ex_world 5 6 (replicate 512 0) ex_msd_ok ltac:(vm_compute; lia) ltac:(cbn; lia)
      ltac:(cbn; lia) ltac:(cbn; lia) ltac:(done) ltac:(apply Forall_replicate; unfold is_byte; lia)) as (w1 & w2 & E1 & E2 & _).
    exists w1, w2. split; [exact E1|exact E2].
Defined.

Lemma read_capacity_spec_witness : ∃ l w', send_bbb 3 7 1 2 3 capacity_cbw [] 8 true ex_world = Ok (8, l, 8, w') ∧
  flip_endianness (field l 0 4) = 15 ∧ flip_endianness (field l 4 4) = 512.
Proof.
  destruct (read_capacity_spec (c := ex_place) 3 ex_world 7 ex_stick_ok ltac:(vm_compute; lia) ltac:(cbn; lia) ltac:(lia) ltac:(done) ltac:(cbn; lia))
    as (l & w' & E & E1 & E2 & _).
  exists l, w'. split; [exact E|]. split; [exact E1|exact E2].
Defined.
