(* ===== verification/Syscalls.v ===== *)
(** * The system call interface and a process: abi/uapi/syscalls.h

    A system call is its number and the fields of its data structure that the kernel reads; its result is the fields the
    kernel writes.  The kernel, which is entered through the assembly stub [do_syscall], acts on the memory of the process and on
    its own state.  A pointer to a local variable that only receives a result is the result. *)
From S2P Require Import Prelude Memory CString Bytes Vfs.
#[local] Open Scope list_scope.

(** abi/uapi/termios.h and resource.h *)
Record termios := Termios { c_iflag : Z; c_oflag : Z; c_cflag : Z; c_lflag : Z; c_cc : list Z }.
Record rlimit := Rlimit { rlim_cur : Z; rlim_max : Z }.

(** HALT does not return: it has no result. *)
Inductive syscall : Type → Type :=
  | HALT (exit_code : Z) : syscall Empty_set
  | GET_UPTIME_MS : syscall Z
  | WRITE_FD (file_descriptor_number buffer num_bytes : Z) : syscall Z
  | OPEN_FILE (path open_flags : Z) : syscall Z
  | READ_FD (file_descriptor_number buffer num_bytes : Z) : syscall Z
  | LSEEK_FD (file_descriptor_number offset whence : Z) : syscall Z
  | CLOSE_FD (file_descriptor_number : Z) : syscall unit
  | FORK : syscall Z
  | GET_PGRP : syscall Z
  | GET_PID : syscall Z
  | DUPFD (fildes min_new_fd : Z) : syscall Z
  | GET_CWD (buf size : Z) : syscall unit
  | CHDIR (path : Z) : syscall unit
  | EXECVE (filename argv envp : Z) : syscall unit
  | WAIT (pid status options : Z) : syscall Z
  | ISATTY (fd : Z) : syscall Z
  | PIPE : syscall (Z * Z)
  | STAT (path : Z) : syscall stat
  | SIGPROCMASK (how set : Z) : syscall Z
  | SETSIGNALHANDLER (signal_number handler : Z) : syscall Z
  | KILL (pid sig : Z) : syscall unit
  | TCGETATTR (fd : Z) : syscall (termios * Z)
  | SETRLIMIT (resource : Z) (limit : rlimit) : syscall unit
  | GETRLIMIT (resource : Z) : syscall rlimit
  | YIELD : syscall unit.

Class Kernel (M K : Type) := do_syscall : ∀ {A}, syscall A → io (M * K) A.
#[global] Hint Mode Kernel + + : typeclass_instances.

(** A process: its memory, the kernel's part, and the globals of the C library. *)
Record process (M K : Type) := Process {
  u_mem : M; u_kernel : K; errno : Z; current_gid : Z; current_uid : Z; file_mode_creation_mask : Z; environ : Z
}.
Arguments Process {M K}. Arguments u_mem {M K}. Arguments u_kernel {M K}. Arguments errno {M K}. Arguments current_gid {M K}.
Arguments current_uid {M K}. Arguments file_mode_creation_mask {M K}. Arguments environ {M K}.

Section process.
Context {M K : Type}.

Definition with_mem_kernel (m : M) (k : K) (p : process M K) : process M K :=
  Process m k (errno p) (current_gid p) (current_uid p) (file_mode_creation_mask p) (environ p).
Definition with_errno (e : Z) (p : process M K) : process M K :=
  Process (u_mem p) (u_kernel p) e (current_gid p) (current_uid p) (file_mode_creation_mask p) (environ p).
Definition with_gid (g : Z) (p : process M K) : process M K :=
  Process (u_mem p) (u_kernel p) (errno p) g (current_uid p) (file_mode_creation_mask p) (environ p).
Definition with_uid (u : Z) (p : process M K) : process M K :=
  Process (u_mem p) (u_kernel p) (errno p) (current_gid p) u (file_mode_creation_mask p) (environ p).
Definition with_mode_mask (x : Z) (p : process M K) : process M K :=
  Process (u_mem p) (u_kernel p) (errno p) (current_gid p) (current_uid p) x (environ p).

Definition get {A} (f : process M K → A) : io (process M K) A := λ p, Ok (f p, p).
Definition update (f : process M K → process M K) : io (process M K) () := λ p, Ok ((), f p).
Definition set_errno (e : Z) : io (process M K) () := update (with_errno e).

(** Code that reads or changes the memory of the process. *)
Definition in_memory {A} (f : M → outcome A) : io (process M K) A := λ p, a ← f (u_mem p); Ok (a, p).
Definition on_mem {A} (f : M → outcome (A * M)) : io (process M K) A := λ p,
  '(a, m) ← f (u_mem p); Ok (a, with_mem_kernel m (u_kernel p) p).

Definition sys `{!Kernel M K} {A} (s : syscall A) : io (process M K) A := λ p,
  '(a, (m, k)) ← do_syscall s (u_mem p, u_kernel p); Ok (a, with_mem_kernel m k p).
End process.

Section memory.
Context {M : Type} `{!ByteMemory M}.

(** A little-endian number of [n] bytes; pointers have 8. *)
Fixpoint load_le (n : nat) (a : Z) (m : M) : outcome Z :=
  match n with
  | 0%nat => Ok 0
  | S n => b ← load m a; v ← load_le n (a + 1) m; Ok (b + 256 * v)
  end.
Fixpoint store_list (a : Z) (l : list Z) (m : M) : outcome M :=
  match l with
  | [] => Ok m
  | b :: l => m ← store m a b; store_list (a + 1) l m
  end.
Definition store_le (n : nat) (a v : Z) (m : M) : outcome M := store_list a (le_bytes n v) m.
Definition load_pointer (a : Z) (m : M) : outcome Z := load_le 8 a m.
End memory.

(** ** The heap of the process: [malloc] and [free] of custom_malloc

    The addresses of a block are mapped while it is allocated. [fits m n]: there is room for [n] more bytes below the top of the
    address space. *)
Class CHeap (M : Type) `{!ByteMemory M} := {
  block : M → Z → Z → Prop;
  fits : M → Z → Prop;
  malloc : Z → M → outcome (Z * M);
  free : Z → M → outcome M;
  malloc_law m n : 0 ≤ n → fits m n →
    wp False (malloc n m) (λ '(p, m'), (∀ q k, block m q k → block m' q k) ∧
      if p =? 0 then ∀ a, mload m' a = mload m a
      else 0 < p ∧ block m' p n ∧ mapped m' p n ∧ (∀ a, p ≤ a < p + n → mload m a = None) ∧ same_except m m' p n);
  free_law m p n : block m p n → wp False (free p m) (λ m', same_except m m' p n ∧ ∀ q k, block m q k → q ≠ p → block m' q k);
  block_store m a v m' q k : mstore m a v = Some m' → block m q k → block m' q k
}.
#[global] Hint Mode CHeap + - : typeclass_instances.
