(* ===== verification/Unistd.v ===== *)
(** * Processes and descriptors in the C library: custom_libc/unistd.c, fcntl.c, stat.c, wait.c, signal.c, resource.c, sched.c,
    termios.c, libc.c and the rest of stdlib.c

    A function of the C library that asks the kernel is a computation on the process.  Results of type [int] and [ssize_t] are signed. *)
From S2P Require Import Prelude Memory CString Vfs Syscalls Strtol Wchar.
#[local] Open Scope list_scope.

(** abi/uapi/errno.h, limits.h, fcntl.h, include/fcntl.h *)
Definition ENOENT : Z := 2.
Definition ENOEXEC : Z := 8.
Definition EBADF : Z := 9.
Definition EACCES : Z := 13.
Definition ENOTDIR : Z := 20.
Definition ENOTTY : Z := 25.
Definition OPEN_MAX : Z := 10.
Definition O_CREAT : Z := 8.
Definition O_DIRECTORY : Z := 16.
Definition O_TRUNC : Z := 32.
Definition F_DUPFD : Z := 0.

Section unistd.
Context {M K : Type} `{!ByteMemory M} `{!Kernel M K}.
Abbreviation prog := (io (process M K)).

(** ** stdlib.c; [exit] does not return, since the system call does not *)
Definition exit {A} (status : Z) : prog A := x ← sys (HALT (u8 status)); match x : Empty_set with end.
Definition abort {A} : prog A := exit 0.

(** The negation of the least number overflows, which is undefined. *)
Definition abs (j : Z) : outcome Z := if j <? 0 then c_int (- j) else Ok j.
Definition labs (j : Z) : outcome Z := if j <? 0 then (if - j <? 2 ^ 63 then Ok (- j) else Undef) else Ok j.
Definition llabs (j : Z) : outcome Z := if j <? 0 then (if - j <? 2 ^ 63 then Ok (- j) else Undef) else Ok j.

Definition calloc `{!CHeap M} (nmemb sz : Z) : prog Z :=
  region ← on_mem (malloc (u64 (nmemb * sz)));
  if region =? 0 then mret 0
  else _ ← on_mem (memset region 0 (u64 (nmemb * sz))); mret region.

(** The environment is an array of pointers to [name=value] that ends with a null pointer. *)
Definition getenv_step (name len env : Z) : prog (Z + Z) :=
  if env =? 0 then mret (inr 0)
  else
    e ← in_memory (load_pointer env);
    if e =? 0 then mret (inr 0)
    else
      d ← in_memory (strncmp e name len);
      if d =? 0 then c ← in_memory (λ m, load_char m (e + len)); mret (if c =? 61 then inr (e + len + 1) else inl (env + 8))
      else mret (inl (env + 8)).

Definition getenv (fuel : nat) (name : Z) : prog Z :=
  _ ← lift (c_assert (negb (name =? 0)));
  eq ← in_memory (strchr fuel name 61);
  _ ← lift (c_assert (eq =? 0));
  len ← in_memory (strlen fuel name);
  env ← get environ;
  io_while fuel (getenv_step name len) env.

(** ** unistd.c: identity *)
Definition fork : prog Z := sys FORK.
Definition vfork : prog Z := fork.
Definition getgid : prog Z := get current_gid.
Definition getegid : prog Z := get current_gid.
Definition setgid (gid : Z) : prog Z := _ ← update (with_gid gid); mret 0.
Definition getuid : prog Z := get current_uid.
Definition geteuid : prog Z := get current_uid.
Definition setuid (uid : Z) : prog Z := _ ← update (with_uid uid); mret 0.
Definition getpgrp : prog Z := sys GET_PGRP.
Definition getpid : prog Z := sys GET_PID.

(** ** fcntl.c; the variable arguments are lists *)

(** [mode] is read and not used; a caller that passes none has whatever the register of the argument held. *)
Definition open (pathname flags : Z) (args : list Z) : prog Z := sys (OPEN_FILE pathname flags).
Definition open64 (pathname flags : Z) (args : list Z) : prog Z :=
  open pathname flags [if Z.land flags O_CREAT =? 0 then 0 else default 0 (head args)].
Definition fcntl (fildes cmd : Z) (args : list Z) : prog Z :=
  if cmd =? F_DUPFD then
    fd ← lift (or_undef (head args));
    sys (DUPFD fildes fd)
  else abort.

(** ** unistd.c: descriptors *)
Definition read (fd buf count : Z) : prog Z := n ← sys (READ_FD fd buf count); mret (s64 n).
Definition write (fd buf count : Z) : prog Z := n ← sys (WRITE_FD fd buf count); mret (s64 n).
Definition lseek (fd offset whence : Z) : prog Z := sys (LSEEK_FD fd offset whence).
Definition close (fd : Z) : prog Z := _ ← sys (CLOSE_FD fd); mret 0.

Definition dup2 (fildes fildes2 : Z) : prog Z :=
  if (fildes2 <? 0) || (OPEN_MAX <? fildes2) then _ ← set_errno EBADF; mret (-1)
  else
    _ ← close fildes2;
    fcntl fildes F_DUPFD [fildes2].
Definition dup (fildes : Z) : prog Z := fcntl fildes F_DUPFD [0].

Definition isatty (fd : Z) : prog Z :=
  result ← sys (ISATTY fd);
  _ ← (if result =? 0 then set_errno ENOTTY else mret ());
  mret result.

(** [pipefd] is an array of two [int]. *)
Definition pipe (pipefd : Z) : prog Z :=
  '(a, b) ← sys PIPE;
  _ ← on_mem (λ m, m ← store_le 4 pipefd a m; m ← store_le 4 (pipefd + 4) b m; Ok ((), m));
  mret 0.

(** ** unistd.c: programs *)
Definition getcwd (buf size : Z) : prog Z := _ ← sys (GET_CWD buf size); mret buf.
Definition chdir (path : Z) : prog Z := _ ← sys (CHDIR path); mret 0.
Definition execve (filename argv envp : Z) : prog Z := _ ← sys (EXECVE filename argv envp); mret (-1).
Definition execv (path argv : Z) : prog Z := environ ← get environ; execve path argv environ.

(** The name to try in the component of PATH from [p] to [endp]. *)
Definition candidate_name `{!CHeap M} (fuel : nat) (file p endp : Z) : prog Z :=
  let dirlen := endp - p in
  filelen ← in_memory (strlen fuel file);
  candidate ← on_mem (malloc (u64 (dirlen + 1 + filelen + 1)));
  _ ← lift (c_assert (negb (candidate =? 0)));
  _ ← (if negb (dirlen =? 0) then
         _ ← on_mem (memcpy candidate p dirlen);
         _ ← on_mem (λ m, m ← store m (candidate + dirlen) 47; Ok ((), m));
         on_mem (memcpy (candidate + dirlen + 1) file (filelen + 1))
       else on_mem (memcpy candidate file (filelen + 1)));
  mret candidate.

(** One turn of the loop over PATH. *)
Definition execvp_step `{!CHeap M} (fuel : nat) (file argv : Z) (s : Z * bool) : prog ((Z * bool) + Z) :=
  let '(p, found_file_failed_access) := s in
  endp ← in_memory (strchrnul fuel p 58);
  candidate ← candidate_name fuel file p endp;
  _ ← execv candidate argv;
  err ← get errno;
  _ ← lift (c_assert (negb (err =? ENOEXEC)));
  _ ← on_mem (λ m, m ← free candidate m; Ok ((), m));
  if (negb (err =? EACCES) && negb (err =? ENOENT)) && negb (err =? ENOTDIR) then
    _ ← set_errno err; mret (inr (-1))
  else
    let found := (err =? EACCES) || found_file_failed_access in
    if endp =? 0 then _ ← set_errno (if found then EACCES else ENOENT); mret (inr (-1))
    else mret (inl (endp + 1, found)).

(** [PATH] is the address of the literal. *)
Definition execvp `{!CHeap M} (fuel : nat) (PATH file argv : Z) : prog Z :=
  empty ← (if file =? 0 then mret true else c ← in_memory (λ m, load_char m file); mret (c =? 0));
  if (empty : bool) || (argv =? 0) then _ ← set_errno ENOENT; mret (-1)
  else
    slash ← in_memory (strchr fuel file 47);
    if negb (slash =? 0) then _ ← execv file argv; mret (-1)
    else
      path ← getenv fuel PATH;
      _ ← lift (c_assert (negb (path =? 0)));
      io_while fuel (execvp_step fuel file argv) (path, false).

(** ** libc.c and unistd.c: time *)
Definition get_uptime_ms : prog Z := sys GET_UPTIME_MS.
Definition mssleep (fuel : nat) (ms : Z) : prog () :=
  start ← get_uptime_ms;
  io_while fuel (λ _, now ← get_uptime_ms; mret (if u64 (now - start) <=? ms then inl () else inr ())) ().
Definition usleep (fuel : nat) (usec : Z) : prog Z := _ ← mssleep fuel (usec `div` 1000); mret 0.
Definition sleep (fuel : nat) (seconds : Z) : prog Z := _ ← mssleep fuel (u64 (seconds * 1000)); mret 0.
Definition _exit {A} (status : Z) : prog A := exit status.

(** ** stat.c *)
Definition umask (mask : Z) : prog Z :=
  prev ← get file_mode_creation_mask;
  _ ← update (with_mode_mask (Z.land mask 0x1FF)); mret prev.
(** [*buf] is the second result *)
Definition stat_path (path : Z) : prog (Z * stat) := r ← sys (STAT path); mret (0, r).
Definition lstat (path : Z) : prog (Z * stat) := stat_path path.

(** ** wait.c, and the macros of include/sys/wait.h *)
Definition waitpid (pid status options : Z) : prog Z := sys (WAIT pid status options).
Definition wait (status : Z) : prog Z := waitpid (-1) status 0.
Definition WEXITSTATUS_MASK : Z := 0xFF.
Definition WEXITSTATUS (status : Z) : Z := Z.land status WEXITSTATUS_MASK.
Definition WIFEXITED (status : Z) : bool := Z.land status WEXITSTATUS_MASK =? 0.

(** ** signal.c; a signal set is its 32 bits, [oldset] is whether the pointer is not null and what is stored there *)
Definition sigfillset : Z * Z := (0, 0xFFFFFFFF).
Definition sigemptyset : Z * Z := (0, 0).
Definition sigprocmask (how set : Z) (oldset : bool) : prog (Z * option Z) :=
  old ← sys (SIGPROCMASK how set); mret (0, if oldset then Some old else None).
Definition signal (signum handler : Z) : prog Z := sys (SETSIGNALHANDLER signum handler).
Definition kill (pid sig : Z) : prog Z := _ ← sys (KILL pid sig); mret 0.
Definition raise (sig : Z) : prog Z := pid ← getpid; kill pid sig.

(** ** resource.c, sched.c, termios.c; a structure that is filled is a result *)
Definition getrlimit (resource : Z) : prog (Z * rlimit) := r ← sys (GETRLIMIT resource); mret (0, r).
Definition setrlimit (resource : Z) (rlim : rlimit) : prog Z := _ ← sys (SETRLIMIT resource rlim); mret 0.
Definition sched_yield : prog Z := _ ← sys YIELD; mret 0.
Definition tcgetattr (fd : Z) : prog (Z * option termios) :=
  '(output, err) ← sys (TCGETATTR fd);
  if negb (err =? 0) then _ ← set_errno err; mret (-1, None) else mret (0, Some output).
End unistd.
