(* ===== verification/Stdio.v ===== *)
(** * Streams: custom_libc/stdio.c, include/stdio.h and dirent.c

    A [FILE] is an [int], the descriptor; there is no buffer.  printf and the functions built on it (perror) are not modelled. *)
From S2P Require Import Prelude Memory CString Bytes Syscalls Unistd.
#[local] Open Scope list_scope.

Definition EOF : Z := -1.
Definition SIZEOF_FILE : Z := 4.
(** [struct dirent]: the inode, the type and 256 characters, and padding *)
Definition SIZEOF_DIRENT : Z := 272.
(** [DIR]: the descriptor, padding and the entry *)
Definition DIR_CURRENT : Z := 8.
Definition SIZEOF_DIR : Z := DIR_CURRENT + SIZEOF_DIRENT.

Section stdio.
Context {M K : Type} `{!ByteMemory M} `{!Kernel M K}.
Abbreviation prog := (io (process M K)).

(** [stream->file_descriptor_number] *)
Definition descriptor_of (stream : Z) : prog Z := v ← in_memory (load_le 4 stream); mret (s32 v).

(** The flags for a mode string; a character that is not expected aborts. *)
Definition mode_flag (c : Z) : option Z :=
  if c =? 119 then Some (Z.lor O_CREAT O_TRUNC)
  else if c =? 97 then Some (Z.lor O_CREAT 4)
  else if (c =? 114) || (c =? 98) || (c =? 43) then Some 0
  else None.

Definition mode_flags (fuel : nat) (mode : Z) : prog Z :=
  io_while fuel (λ '(curr, flags),
    c ← in_memory (λ m, load_char m curr);
    if c =? 0 then mret (inr flags)
    else match mode_flag c with
         | Some f => mret (inl (curr + 1, Z.lor flags f))
         | None => abort
         end) (mode, 0).

Definition fopen `{!CHeap M} (fuel : nat) (pathname mode : Z) : prog Z :=
  flags ← mode_flags fuel mode;
  fd ← open pathname flags [];
  output ← on_mem (malloc SIZEOF_FILE);
  _ ← on_mem (λ m, m ← store_le 4 output fd m; Ok ((), m));
  mret output.

Definition fclose `{!CHeap M} (stream : Z) : prog Z :=
  fd ← descriptor_of stream;
  _ ← sys (CLOSE_FD fd);
  _ ← on_mem (λ m, m ← free stream m; Ok ((), m));
  mret 0.

Definition fseek (stream offset whence : Z) : prog Z := fd ← descriptor_of stream; r ← lseek fd offset whence; mret (s32 r).

(** The number of whole items; the remainder by 0 is undefined. *)
Definition whole_items {A} (bytes sz : Z) (k : Z → prog A) : prog A :=
  if sz =? 0 then lift Undef else if negb (bytes `mod` sz =? 0) then abort else k (bytes `div` sz).

Definition fread (ptr sz nmemb stream : Z) : prog Z :=
  fd ← descriptor_of stream;
  num_bytes_actually_read ← sys (READ_FD fd ptr (u64 (sz * nmemb)));
  whole_items num_bytes_actually_read sz mret.

Definition fwrite (ptr sz nmemb stream : Z) : prog Z :=
  fd ← descriptor_of stream;
  num_bytes_actually_written ← sys (WRITE_FD fd ptr (u64 (sz * nmemb)));
  whole_items num_bytes_actually_written sz mret.

Definition fputs (fuel : nat) (s stream : Z) : prog Z :=
  bytes_to_write ← in_memory (strlen fuel s);
  num_written ← fwrite s bytes_to_write 1 stream;
  if negb (num_written =? 1) then abort else mret 0.

(** [buffer] is the address of the local array. *)
Definition fgetc (buffer stream : Z) : prog Z :=
  fd ← descriptor_of stream;
  num_bytes_actually_read ← sys (READ_FD fd buffer 1);
  if num_bytes_actually_read =? 0 then mret EOF else in_memory (λ m, load m buffer).

Definition fgets_step (start sz stream curr : Z) : prog (Z + Z) :=
  if curr - start =? sz - 1 then mret (inr curr)
  else
    fd ← descriptor_of stream;
    num_bytes_actually_read ← sys (READ_FD fd curr 1);
    c ← in_memory (λ m, load m curr);
    mret (if (c =? 10) || (num_bytes_actually_read =? 0) then inr curr else inl (curr + 1)).

Definition fgets (fuel : nat) (s sz stream : Z) : prog Z :=
  if sz =? 0 then _ ← on_mem (λ m, m ← store m s 0; Ok ((), m)); mret s
  else
    curr ← io_while fuel (fgets_step s sz stream) s;
    _ ← on_mem (λ m, m ← store m (curr + 1) 0; Ok ((), m));
    mret s.

Definition fflush (stream : Z) : prog Z := mret 0.
Definition fileno (stream : Z) : prog Z := descriptor_of stream.

(** [arr] is the address of the local array. *)
Definition fputc (arr c stream : Z) : prog Z :=
  _ ← on_mem (λ m, m ← store m arr (u8 c); Ok ((), m));
  fd ← descriptor_of stream;
  _ ← sys (WRITE_FD fd arr 1);
  mret c.
Definition puts (stdout s : Z) : prog Z :=
  fd ← descriptor_of stdout;
  _ ← sys (WRITE_FD fd s 1);
  mret 1.

(** ** dirent.c *)
Definition opendir `{!CHeap M} (name : Z) : prog Z :=
  fd ← open name O_DIRECTORY [];
  output ← on_mem (malloc SIZEOF_DIR);
  _ ← on_mem (λ m, m ← store_le 4 output fd m; m ← store_list (output + DIR_CURRENT) (replicate (Z.to_nat SIZEOF_DIRENT) 0) m; Ok ((), m));
  mret output.

Definition closedir `{!CHeap M} (dirp : Z) : prog Z :=
  fd ← descriptor_of dirp;
  _ ← sys (CLOSE_FD fd);
  _ ← on_mem (λ m, m ← free dirp m; Ok ((), m));
  mret 0.

Definition readdir (dirp : Z) : prog Z :=
  fd ← descriptor_of dirp;
  num_bytes_actually_read ← sys (READ_FD fd (dirp + DIR_CURRENT) SIZEOF_DIRENT);
  mret (if negb (num_bytes_actually_read =? SIZEOF_DIRENT) then NULL else dirp + DIR_CURRENT).
Definition readdir64 (dirp : Z) : prog Z := readdir dirp.

(** ** strdup of string.c, which checks nothing *)
Definition strdup `{!CHeap M} (fuel : nat) (s : Z) : prog Z :=
  n ← in_memory (strlen fuel s);
  new ← on_mem (malloc (u64 (n + 1)));
  _ ← on_mem (strcpy fuel new s);
  mret new.
End stdio.
