(* ===== verification/UnistdSpec.v ===== *)
(** * What the C library does with its system calls: sleeping and the environment *)
From Stdlib Require Import Relation_Operators Wellfounded.
From S2P Require Import Prelude Memory CString Bytes Syscalls Unistd.
#[local] Open Scope list_scope.
#[local] Arguments wrap : simpl never.

(** ** The clock

    The kernel's clock may show the same time for a while, but not for ever; it never goes back and does not
    jump by more than half its range. *)
Class Clock (M K : Type) `{!Kernel M K} := {
  now : K → Z;
  stutter : K → nat;
  uptime_law (m : M) k : ∃ k', do_syscall GET_UPTIME_MS (m, k) = Ok (u64 (now k), (m, k')) ∧
    (now k' = now k ∧ (stutter k' < stutter k)%nat ∨ now k < now k' ≤ now k + 2 ^ 62)
}.
#[global] Hint Mode Clock + + - : typeclass_instances.

Section clock.
Context {M K : Type} `{!Kernel M K} `{!Clock M K}.
Abbreviation now := (@now M K _ _).
Abbreviation stutter := (@stutter M K _ _).
Abbreviation time p := (now (u_kernel p)).

(** Nearer to the time [t]: later, or as late with less to wait. *)
Definition nearer (t : Z) (a b : unit * process M K) : Prop :=
  slexprod nat nat lt lt (Z.to_nat (t - time a.2), stutter (u_kernel a.2)) (Z.to_nat (t - time b.2), stutter (u_kernel b.2)).

Lemma nearer_wf t : well_founded (nearer t).
Proof.
  apply (wf_inverse_image _ _ (slexprod nat nat lt lt) (λ a, (Z.to_nat (t - time a.2), stutter (u_kernel a.2)))).
  apply wf_slexprod; apply lt_wf.
Qed.

Lemma uptime_step (p : process M K) : ∃ k', get_uptime_ms p = Ok (u64 (time p), with_mem_kernel (u_mem p) k' p) ∧
  (now k' = time p ∧ (stutter k' < stutter (u_kernel p))%nat ∨ time p < now k' ≤ time p + 2 ^ 62).
Proof.
  destruct (uptime_law (u_mem p) (u_kernel p)) as (k' & E & Hk). exists k'. split; [|done].
  unfold get_uptime_ms, sys. by rewrite E.
Qed.

Lemma mssleep_ends ms (p : process M K) : 0 ≤ ms < 2 ^ 62 → ∃ n k', time p + ms < now k' ∧
  ∀ fuel, (n ≤ fuel)%nat → mssleep fuel ms p = Ok ((), with_mem_kernel (u_mem p) k' p).
Proof.
  intros Hms. destruct (uptime_step p) as (k0 & E0 & H0). set (start := time p) in *.
  assert (start ≤ now k0 ≤ start + 2 ^ 62) as Hk0 by lia. clear H0.
  destruct (io_while_ends (nearer (start + ms + 1))
    (λ '() q, ∃ k, q = with_mem_kernel (u_mem p) k p ∧ start ≤ now k ≤ start + ms + 2 ^ 62)
    (λ '() q, ∃ k, q = with_mem_kernel (u_mem p) k p ∧ start + ms < now k)
    (λ _, t ← get_uptime_ms; mret (if u64 (t - u64 start) <=? ms then inl () else inr ())) (nearer_wf _)) with () (with_mem_kernel (u_mem p) k0 p)
    as (n & [] & q & (k & -> & Hk) & Hf).
  - intros [] q (k & -> & Hk). destruct (uptime_step (with_mem_kernel (u_mem p) k p)) as (k' & E & Hk'). cbn [u_kernel u_mem with_mem_kernel] in *.
    rewrite (io_bind_Ok _ _ _ _ _ E).
    assert (u64 (u64 (now k) - u64 start) = now k - start) as ->.
    { unfold wrap. rewrite <-Zminus_mod. apply Z.mod_small. lia. }
    destruct (Z.leb_spec (now k - start) ms).
    + left. eexists (), _. split; [reflexivity|]. split; [exists k'; split; [done|lia]|].
      unfold nearer. cbn [snd u_kernel with_mem_kernel]. destruct Hk' as [[-> Hs]|Hs]; [by apply right_slex|]. apply left_slex. lia.
    + right. eexists (), _. split; [reflexivity|]. exists k'. split; [done|lia].
  - exists k0. split; [done|lia].
  - exists n, k. split; [done|]. intros fuel Hfuel. unfold mssleep. rewrite (io_bind_Ok _ _ _ _ _ E0). by apply Hf.
Qed.

(** C38: [sleep] returns: whatever the clock does as long as it goes on, there is a time after which the call
    has come back, and then more than the given number of seconds have passed. *)
Theorem sleep_returns seconds (p : process M K) : 0 ≤ seconds < 2 ^ 32 → ∃ n p', time p + 1000 * seconds < time p' ∧ u_mem p' = u_mem p ∧
  ∀ fuel, (n ≤ fuel)%nat → sleep fuel seconds p = Ok (0, p').
Proof.
  intros Hs. destruct (mssleep_ends (seconds * 1000) p ltac:(lia)) as (n & k & Hk & Hf).
  exists n, (with_mem_kernel (u_mem p) k p). cbn [u_kernel u_mem with_mem_kernel]. split; [lia|]. split; [done|].
  intros fuel Hfuel. unfold sleep. rewrite wrap_small by lia. by rewrite (io_bind_Ok _ _ _ _ _ (Hf fuel Hfuel)).
Qed.
End clock.

(** ** The environment *)
Section environment.
Context {M K : Type} `{!ByteMemory M}.
Implicit Types (p : process M K) (s nm : list Z).

(** An array of pointers to strings, which ends with a null pointer. *)
Fixpoint env_at (m : M) (env : Z) (l : list (list Z)) : Prop :=
  0 < env ∧ match l with
  | [] => load_pointer env m = Ok 0
  | s :: l => ∃ e, load_pointer env m = Ok e ∧ 0 < e ∧ cstring m e s ∧ env_at m (env + 8) l
  end.

(** The value of the first entry [nm=value]. *)
Definition names nm s : bool := bool_decide (take (Datatypes.S (length nm)) s = nm ++ [61]).
Fixpoint env_value nm (l : list (list Z)) : option (list Z) :=
  match l with
  | [] => None
  | s :: l => if names nm s then Some (drop (Datatypes.S (length nm)) s) else env_value nm l
  end.

Lemma in_memory_Ok {A} (f : M → outcome A) p a : f (u_mem p) = Ok a → in_memory f p = Ok (a, p).
Proof. intros E. unfold in_memory. by rewrite E. Qed.

(** The two tests of [getenv] on an entry. *)
Lemma entry_names (m : M) e name s nm : cstring m e s → cstring m name nm →
  strncmp e name (Z.of_nat (length nm)) m = Ok (strcmp_ref (take (length nm) s) nm) ∧
  (strcmp_ref (take (length nm) s) nm = 0 → load_char m (e + Z.of_nat (length nm)) = Ok (s8 (chr s (Z.of_nat (length nm))))) ∧
  names nm s = (strcmp_ref (take (length nm) s) nm =? 0) && (s8 (chr s (Z.of_nat (length nm))) =? 61).
Proof.
  intros Hs Hn. assert (strcmp_ref (take (length nm) s) nm = 0 ↔ take (length nm) s = nm) as Heq.
  { apply strcmp_ref_0; [|apply Hn]. apply Forall_take, Hs. }
  split; [|split].
  - rewrite (strncmp_spec m e name s nm) by (done || lia). by rewrite Nat2Z.id, firstn_all.
  - intros E%Heq. apply load_char_chr; [done|]. apply (f_equal length) in E. rewrite length_take in E. lia.
  - unfold names. destruct (Z.eqb_spec (strcmp_ref (take (length nm) s) nm) 0) as [E%Heq|E]; cbn [andb].
    + destruct (cstring_chr m e s (Z.of_nat (length nm)) Hs ltac:(lia)) as [Hc _].
      replace (s8 (chr s (Z.of_nat (length nm))) =? 61) with (chr s (Z.of_nat (length nm)) =? 61) by (symmetry; apply (s8_eqb _ 61); lia).
      unfold chr. rewrite Nat2Z.id.
      destruct (s !! length nm) as [c|] eqn:Ec; cbn [default from_option id].
      * rewrite (take_S_r _ _ c) by done. rewrite E. case_bool_decide as Hb.
        -- apply app_inj_tail in Hb as [_ ->]. done.
        -- symmetry. apply Z.eqb_neq. intros ->. done.
      * rewrite bool_decide_false; [done|]. intros Hb. apply lookup_ge_None in Ec. apply (f_equal length) in Hb.
        rewrite length_app, length_take in Hb. cbn [length] in Hb. lia.
    + apply bool_decide_false. intros Hb. apply E, Heq. apply (f_equal (take (length nm))) in Hb.
      by rewrite take_take, Nat.min_l, take_app_length in Hb by lia.
Qed.

Lemma getenv_loop name nm l p : ∀ env fuel, cstring (u_mem p) name nm → env_at (u_mem p) env l → (length l < fuel)%nat →
  ∃ r, io_while fuel (getenv_step name (Z.of_nat (length nm))) env p = Ok (r, p) ∧
    match env_value nm l with Some v => 0 < r ∧ cstring (u_mem p) r v | None => r = 0 end.
Proof.
  induction l as [|s l IH]; intros env [|fuel] Hn He Hf; cbn [length] in Hf; try lia.
  - destruct He as [He E0]. exists 0. split; [|done]. unfold io_while. cbn [c_while]. unfold getenv_step.
    rewrite (proj2 (Z.eqb_neq _ _)) by lia. by rewrite (io_bind_Ok _ _ p 0 p (in_memory_Ok _ _ _ E0)).
  - destruct He as (He & e & Ee & He0 & Hs & Hl). destruct (entry_names _ _ _ _ _ Hs Hn) as (E1 & E2 & E3).
    destruct (IH (env + 8) fuel Hn Hl ltac:(lia)) as (r & Er & Hr).
    cut (getenv_step name (Z.of_nat (length nm)) env p = Ok (if names nm s then inr (e + Z.of_nat (length nm) + 1) else inl (env + 8), p)).
    { intros E. unfold io_while. cbn [c_while]. rewrite E. cbn [mbind outcome_bind env_value]. destruct (names nm s) eqn:En; [|by exists r].
      eexists. split; [reflexivity|]. split; [lia|]. apply bool_decide_eq_true in En.
      rewrite <-(take_drop (Datatypes.S (length nm)) s), En in Hs. apply cstring_app in Hs. rewrite length_app in Hs. cbn [length] in Hs.
      by replace (e + Z.of_nat (length nm) + 1) with (e + Z.of_nat (length nm + 1)) by lia. }
    unfold getenv_step. rewrite (proj2 (Z.eqb_neq _ _)) by lia.
    rewrite (io_bind_Ok _ _ p e p (in_memory_Ok _ _ _ Ee)), (proj2 (Z.eqb_neq _ _)) by lia.
    rewrite (io_bind_Ok _ _ p _ p (in_memory_Ok _ _ _ E1)), E3. destruct (Z.eqb_spec (strcmp_ref (take (length nm) s) nm) 0) as [E0|E0]; [|done].
    by rewrite (io_bind_Ok _ _ p _ p (in_memory_Ok (λ m, load_char m _) p _ (E2 E0))).
Qed.

(** [getenv] finds the first entry of the environment that is the name, an equals sign and a value, and returns
    a string that is the value; a name that only begins an entry does not count. It returns a null pointer when there is no
    such entry. *)
Theorem getenv_spec fuel name nm l p : 0 < name → cstring (u_mem p) name nm → 61 ∉ nm → env_at (u_mem p) (environ p) l →
  (length nm < fuel)%nat → (length l < fuel)%nat →
  ∃ r, getenv fuel name p = Ok (r, p) ∧ match env_value nm l with Some v => 0 < r ∧ cstring (u_mem p) r v | None => r = 0 end.
Proof.
  intros Hname Hn H61 He Hf1 Hf2. unfold getenv. rewrite assert_bind by (by rewrite (proj2 (Z.eqb_neq _ _)) by lia).
  assert (strchr fuel name 61 (u_mem p) = Ok 0) as E.
  { rewrite (strchr_spec _ _ _ _ _ Hn Hf1). do 2 f_equal. destruct (index_of _ _) eqn:Ei; [exfalso|done].
    assert (existsb (λ x, s8 x =? 61) (nm ++ [0]) = true) as Hx by (apply index_of_is_Some; eauto).
    apply existsb_exists in Hx as (x & Hx & E%Z.eqb_eq). apply in_app_iff in Hx as [Hx|[<-|[]]]; [|done]. apply list_elem_of_In in Hx.
    assert (0 < x < 256) as Hr by (destruct Hn as [_ Hn]; rewrite Forall_forall in Hn; by apply Hn).
    apply (s8_inj x 61) in E; [by subst|lia|lia]. }
  rewrite (io_bind_Ok _ _ p _ p (in_memory_Ok _ _ _ E)), assert_bind by done.
  rewrite (io_bind_Ok _ _ p _ p (in_memory_Ok _ _ _ (strlen_spec _ _ _ _ Hn Hf1))).
  rewrite (io_bind_Ok _ _ p _ p (eq_refl : get environ p = Ok (environ p, p))). by apply getenv_loop.
Qed.
End environment.
