(* ===== verification/SyscallHandlers.v ===== *)
(** * The kernel's side of the calls on descriptors: stuos/src/syscall_handlers.rs, processes.rs and syscall_handlers.c

    The part of a process that the calls on descriptors read and change: its ten descriptors, which share open files by
    reference among themselves and with other processes, its working directory, and behind them the objects of Pipes.v, the terminal and a file system [W].
    An index out of the table and a descriptor that is not open make the Rust code panic, which is [Halt].
    The calls that are not about descriptors are an argument. *)
From S2P Require Import Prelude Memory CString Bytes Vfs Tty Pipes Syscalls Unistd.
#[local] Open Scope list_scope.
#[local] Arguments wrap : simpl never.

(** The operation tables of a descriptor: the two of default_fd and those of pipes_and_files.c. *)
Inductive fop := StdinFop | StdoutFop | ObjectFop (f : FileOperations).

#[export] Instance file_ops_eq_dec : EqDecision file_ops.
Proof. solve_decision. Defined.
#[export] Instance FileOperations_eq_dec : EqDecision FileOperations.
Proof. solve_decision. Defined.
#[export] Instance fop_eq_dec : EqDecision fop.
Proof. solve_decision. Defined.

(** [other_references]: the references to open files that the tables of the other processes hold; a child has a copy of its parent's table. *)
Record kernel_part (W : Type) := KernelPart {
  file_descriptors : list (option fop); other_references : list fop; cwd : list Z; open_files : gmap Z OpenVnodeSpecialData; pipes : gmap Z PipeSpecialData;
  terminal : tty; filesystem : W
}.
Arguments KernelPart {W}. Arguments file_descriptors {W}. Arguments other_references {W}. Arguments cwd {W}. Arguments open_files {W}. Arguments pipes {W}.
Arguments terminal {W}. Arguments filesystem {W}.

Definition default_fd : list (option fop) := [Some StdinFop; Some StdoutFop; Some StdoutFop] ++ replicate 7 None.

Section handlers.
Context {M W : Type} `{!ByteMemory M} (read_file : VNode → Z → Z → W → outcome (list Z * W))
  (write_file : VNode → Z → list Z → W → outcome (Z * W)) (vfs_get : list Z → list Z → Z → W → outcome VNode)
  (new_object : kernel_part W → Z) (others : M * kernel_part W → outcome (M * kernel_part W)) (fuel : nat).
Abbreviation world := (M * kernel_part W)%type.
Implicit Types (k : kernel_part W).

Definition with_fds (l : list (option fop)) k : kernel_part W := KernelPart l (other_references k) (cwd k) (open_files k) (pipes k) (terminal k) (filesystem k).
Definition with_cwd (l : list Z) k : kernel_part W := KernelPart (file_descriptors k) (other_references k) l (open_files k) (pipes k) (terminal k) (filesystem k).
Definition with_files (h : gmap Z OpenVnodeSpecialData) (w : W) k : kernel_part W :=
  KernelPart (file_descriptors k) (other_references k) (cwd k) h (pipes k) (terminal k) w.
Definition with_pipes (h : gmap Z PipeSpecialData) k : kernel_part W :=
  KernelPart (file_descriptors k) (other_references k) (cwd k) (open_files k) h (terminal k) (filesystem k).
Definition with_terminal (t : tty) k : kernel_part W := KernelPart (file_descriptors k) (other_references k) (cwd k) (open_files k) (pipes k) t (filesystem k).

(** [file_descriptors[fd as usize].as_ref().unwrap()] *)
Definition descriptor (fd : Z) k : outcome fop :=
  if fd <? 0 then Halt else match file_descriptors k !! Z.to_nat fd with Some (Some f) => Ok f | _ => Halt end.

Definition find_free_fd (minimum : Z) k : outcome Z :=
  match list_find (λ '(i, x), x = None ∧ minimum ≤ Z.of_nat i) (imap pair (file_descriptors k)) with
  | Some (i, _) => Ok (Z.of_nat i) | None => Halt
  end.
Definition set_fd (fd : Z) (x : option fop) k : kernel_part W := with_fds (<[Z.to_nat fd := x]> (file_descriptors k)) k.

(** Bytes of the memory of the process. *)
Fixpoint load_list (n : nat) (a : Z) (m : M) : outcome (list Z) :=
  match n with 0%nat => Ok [] | S n => b ← load m a; l ← load_list n (a + 1) m; Ok (b :: l) end.

Definition fop_write (f : fop) (l : list Z) k : outcome (Z * kernel_part W) :=
  match f with
  | StdinFop => Halt
  | StdoutFop => '(n, t) ← stdout_write 0 l (terminal k); Ok (n, with_terminal t k)
  | ObjectFop f => match fops f with
      | FileOps => '(n, (h, w)) ← file_write write_file (special_data f) l (open_files k, filesystem k); Ok (n, with_files h w k)
      | PipeOps => '(n, h) ← pipe_write (special_data f) l (pipes k); Ok (n, with_pipes h k)
      end
  end.

Definition syscall_write_fd (file_descriptor_number buffer num_bytes : Z) : io world Z := λ '(m, k),
  f ← descriptor file_descriptor_number k;
  l ← load_list (Z.to_nat num_bytes) buffer m;
  '(n, k) ← fop_write f l k; Ok (n, (m, k)).

(** What [read_nonblocking] stores at the buffer: [None] for a byte a pipe never wrote. *)
Definition fop_read (f : fop) (buffer num : Z) : io world FopReadResult := λ '(m, k),
  match f with
  | StdinFop =>
      l ← load_list (Z.to_nat num) buffer m;
      '(r, l, t) ← stdin_read 0 l num (terminal k); m ← store_list buffer l m; Ok (r, (m, with_terminal t k))
  | StdoutFop => Halt
  | ObjectFop f => match fops f with
      | FileOps =>
          '(r, l, (h, w)) ← file_read read_file (special_data f) num (open_files k, filesystem k);
          m ← store_list buffer l m; Ok (r, (m, with_files h w k))
      | PipeOps =>
          '(r, l, h) ← pipe_read (special_data f) num (pipes k);
          m ← store_list buffer (default 0 <$> l) m; Ok (r, (m, with_pipes h k))
      end
  end.

Definition the_descriptor (fd : Z) : io world fop := λ w, f ← descriptor fd w.2; Ok (f, w).
Definition run_others : io world () := λ w, w ← others w; Ok ((), w).

(** The thread waits; it is polled at each of its turns, and [others] is what runs between two of them. *)
Definition syscall_read_fd (file_descriptor_number buffer num_bytes : Z) : io world Z :=
  _ ← lift (if file_descriptor_number <? 0 then Halt else Ok ());
  io_while fuel (λ _,
    f ← the_descriptor file_descriptor_number;
    r ← fop_read f buffer num_bytes;
    if read_something r then mret (inr (bytes_read r)) else _ ← run_others; mret (inl ())) ().

Definition syscall_lseek_fd (file_descriptor_number offset whence : Z) : io world Z := λ '(m, k),
  f ← descriptor file_descriptor_number k;
  match f with
  | ObjectFop f => match fops f with
      | FileOps => '(n, h) ← file_lseek (special_data f) offset whence (open_files k);
                   if n <? 2 ^ 63 then Ok (n, (m, with_files h (filesystem k) k)) else Halt
      | PipeOps => Halt
      end
  | _ => Halt
  end.

(** The open file is closed with the last descriptor that refers to it, of this process or of another. *)
Definition drop_fop (f : fop) k : outcome (kernel_part W) :=
  if bool_decide (Some f ∈ file_descriptors k) || bool_decide (f ∈ other_references k) then Ok k
  else match f with
       | ObjectFop f => match fops f with
           | FileOps => Ok (with_files (just_free_close (special_data f) (open_files k)) (filesystem k) k)
           | PipeOps => h ← pipe_close (special_data f) (pipes k); Ok (with_pipes h k)
           end
       | _ => Ok k
       end.

Definition syscall_close_fd (file_descriptor_number : Z) : io world () := λ '(m, k),
  f ← descriptor file_descriptor_number k;
  k ← drop_fop f (set_fd file_descriptor_number None k); Ok ((), (m, k)).

Definition syscall_open_file (path open_flags : Z) : io world Z := λ '(m, k),
  n ← strlen fuel path m;
  p ← load_list (Z.to_nat n) path m;
  '(f, h) ← fop_generate_file (new_object k) (vfs_get (cwd k) p open_flags (filesystem k)) open_flags (open_files k);
  fd ← find_free_fd 0 k;
  Ok (fd, (m, set_fd fd (Some (ObjectFop f)) (with_files h (filesystem k) k))).

Definition syscall_dupfd (fildes min_new_fd : Z) : io world Z := λ '(m, k),
  _ ← c_assert ((0 <=? min_new_fd) && (min_new_fd <? OPEN_MAX));
  _ ← c_assert ((0 <=? fildes) && (fildes <? OPEN_MAX));
  f ← descriptor fildes k;
  fd ← find_free_fd min_new_fd k;
  Ok (fd, (m, set_fd fd (Some f) k)).

Definition syscall_isatty (fd : Z) : io world Z := λ '(m, k),
  f ← descriptor fd k;
  Ok (match f with ObjectFop f => if is_a_tty f then 1 else 0 | _ => 1 end, (m, k)).

Definition syscall_pipe : io world (Z * Z) := λ '(m, k),
  let a := new_object k in
  let b := new_object (with_pipes (<[a := PipeData 0 [] 0 0]> (pipes k)) k) in
  let '(fa, fb, h) := fop_generate_pipe a b (pipes k) in
  let k := with_pipes h k in
  fd_a ← find_free_fd 0 k;
  let k := set_fd fd_a (Some (ObjectFop fa)) k in
  fd_b ← find_free_fd (fd_a + 1) k;
  Ok ((fd_a, fd_b), (m, set_fd fd_b (Some (ObjectFop fb)) k)).

(** processes.rs: the child's table is a copy of the parent's.  What the child sees, and the parent as well: the references of the other table are added. *)
Definition create_with_parent k : kernel_part W :=
  KernelPart (file_descriptors k) (omap (λ x, x) (file_descriptors k) ++ other_references k) (cwd k) (open_files k) (pipes k) (terminal k) (filesystem k).

(** syscall_handlers.c *)
Definition syscall_getcwd (buf size : Z) : io world () := λ '(m, k),
  _ ← hcf_if (size <? Z.of_nat (length (cwd k)) + 1);
  m ← store_list buf (cwd k ++ [0]) m; Ok ((), (m, k)).
Definition syscall_chdir (path : Z) : io world () := λ '(m, k),
  n ← strlen fuel path m; p ← load_list (Z.to_nat n) path m; Ok ((), (m, with_cwd p k)).
End handlers.

(** The handlers and, for the calls that are not about descriptors, an argument. *)
Definition process_syscall {M W : Type} `{!ByteMemory M} read_file write_file vfs_get new_object others fuel
    (rest : ∀ A, syscall A → io (M * kernel_part W) A) {A} (s : syscall A) : io (M * kernel_part W) A :=
  match s in syscall A return io (M * kernel_part W) A with
  | WRITE_FD fd buffer n => syscall_write_fd write_file fd buffer n
  | READ_FD fd buffer n => syscall_read_fd read_file others fuel fd buffer n
  | LSEEK_FD fd offset whence => syscall_lseek_fd fd offset whence
  | CLOSE_FD fd => syscall_close_fd fd
  | OPEN_FILE path flags => syscall_open_file vfs_get new_object fuel path flags
  | DUPFD fildes min_new_fd => syscall_dupfd fildes min_new_fd
  | ISATTY fd => syscall_isatty fd
  | PIPE => syscall_pipe new_object
  | GET_CWD buf size => syscall_getcwd buf size
  | CHDIR path => syscall_chdir fuel path
  | s => rest _ s
  end.
