(* ===== verification/SyscallSpec.v ===== *)
(** * Descriptors and streams: the C library on top of the kernel's handlers *)
From S2P Require Import Prelude Memory CString Bytes Vfs Tty Pipes PipesSpec Syscalls Unistd Stdio SyscallHandlers.
#[local] Open Scope list_scope.
#[local] Arguments wrap : simpl never.

(** ** Runs of bytes *)
Section runs.
Context {M : Type} `{!ByteMemory M}.
Implicit Types (m : M) (l : list Z).

Lemma load_list_bytes m l : ∀ a, bytes_at m a l → load_list (length l) a m = Ok l.
Proof.
  induction l as [|x l IH]; intros a; [done|]. intros [Hx Hl]%bytes_at_cons. cbn [length load_list].
  rewrite (load_Some _ _ _ Hx), Ok_bind, (IH _ Hl). done.
Qed.

Lemma store_list_spec m l : ∀ a, mapped m a (Z.of_nat (length l)) →
  ∃ m', store_list a l m = Ok m' ∧ bytes_at m' a l ∧ same_except m m' a (Z.of_nat (length l)).
Proof.
  revert m. induction l as [|x l IH]; intros m a Ha; cbn [length store_list] in *.
  { exists m. split; [done|]. split; [by intros ? ?|by intros ? ?]. }
  assert (is_Some (mload m a)) as Hx by (apply Ha; lia).
  destruct (wp_total_1 _ _ (wp_store False m a x (λ m', ∀ b, mload m' b = if decide (a = b) then Some x else mload m b) Hx (λ m' H, H)))
    as (m1 & -> & H1). rewrite Ok_bind.
  assert (mapped m1 (a + 1) (Z.of_nat (length l))) as Hm1 by (intros b Hbr; rewrite H1; case_decide; [done|apply Ha; lia]).
  destruct (IH m1 (a + 1) Hm1) as (m2 & E & Hb & Hs).
  exists m2. split; [done|]. split.
  - apply bytes_at_cons. split; [|done]. rewrite (Hs a) by lia. by rewrite H1, decide_True.
  - intros b Hbr. rewrite (Hs b) by lia. by rewrite H1, decide_False by lia.
Qed.

Lemma load_le_same m m' n : ∀ a, (∀ b, a ≤ b < a + Z.of_nat n → mload m' b = mload m b) → load_le n a m' = load_le n a m.
Proof.
  induction n as [|n IH]; intros a H; [done|]. cbn [load_le]. unfold load. rewrite H by lia.
  destruct (mload m a); [|done]. cbn [or_undef]. rewrite !Ok_bind. rewrite (IH (a + 1)); [done|]. intros b Hb. apply H. lia.
Qed.
End runs.
#[local] Arguments load_le : simpl never.

Section descriptors.
Context {M W : Type} `{!ByteMemory M} `{!FileDevice W} (vfs_get : list Z → list Z → Z → W → outcome VNode)
  (new_object : kernel_part W → Z) (others : M * kernel_part W → outcome (M * kernel_part W)) (fuel : nat)
  (rest : ∀ A, syscall A → io (M * kernel_part W) A).

(** The kernel, on files that are nodes of a device. *)
#[local] Instance stuos_kernel : Kernel M (kernel_part W) :=
  λ A s, process_syscall node_read node_write vfs_get new_object others fuel rest s.
Implicit Types (p : process M (kernel_part W)) (k : kernel_part W).

(** ** Duplicating a descriptor *)
Definition open_at k (fd : Z) : option fop := if fd <? 0 then None else mjoin (file_descriptors k !! Z.to_nat fd).

Lemma descriptor_open k fd : descriptor fd k = match open_at k fd with Some f => Ok f | None => Halt end.
Proof. unfold descriptor, open_at. destruct (fd <? 0); [done|]. by destruct (file_descriptors k !! Z.to_nat fd) as [[]|]. Qed.

Lemma open_at_range k fd f : open_at k fd = Some f → 0 ≤ fd ∧ (Z.to_nat fd < length (file_descriptors k))%nat.
Proof.
  unfold open_at. destruct (Z.ltb_spec fd 0); [done|]. destruct (file_descriptors k !! Z.to_nat fd) eqn:E; [|done].
  apply lookup_lt_Some in E. auto.
Qed.

Lemma drop_fop_fds f k k' : drop_fop f k = Ok k' → file_descriptors k' = file_descriptors k.
Proof.
  unfold drop_fop. destruct (_ || _); [by intros [= ->]|]. destruct f as [| |f]; [by intros [= ->]..|].
  destruct (fops f); [by intros [= <-]|]. intros (h & _ & E)%bind_Ok. by injection E as <-.
Qed.

Lemma find_free_fd_here k fd : 0 ≤ fd → file_descriptors k !! Z.to_nat fd = Some None → find_free_fd fd k = Ok fd.
Proof.
  intros Hfd E. unfold find_free_fd.
  assert (list_find (λ '(i, x), x = None ∧ fd ≤ Z.of_nat i) (imap pair (file_descriptors k)) = Some (Z.to_nat fd, (Z.to_nat fd, None))) as ->.
  { apply list_find_Some. rewrite list_lookup_imap, E. split; [done|]. split; [split; [done|lia]|].
    intros j [i x] Ej Hj. rewrite list_lookup_imap in Ej. destruct (file_descriptors k !! j); [|done]. injection Ej as <- <-. lia. }
  by rewrite Z2Nat.id.
Qed.

Lemma io_bind_outcome {X A B} (m : io X A) (f : A → io X B) x : (m ≫= f) x = ('(a, x) ← m x; f a x).
Proof. unfold mbind at 1, io_bind. by destruct (m x) as [[]| | |]. Qed.

Lemma close_eq fd p : close fd p =
  (f ← descriptor fd (u_kernel p); k ← drop_fop f (set_fd fd None (u_kernel p)); Ok (0, with_mem_kernel (u_mem p) k p)).
Proof.
  unfold close. rewrite io_bind_outcome. unfold sys, do_syscall, stuos_kernel. cbn [process_syscall]. unfold syscall_close_fd.
  destruct (descriptor fd (u_kernel p)) as [f| | |]; [|done..]. cbn [mbind outcome_bind]. by destruct (drop_fop _ _).
Qed.

Lemma dupfd_eq fildes fd p : fcntl fildes F_DUPFD [fd] p =
  (_ ← c_assert ((0 <=? fd) && (fd <? OPEN_MAX)); _ ← c_assert ((0 <=? fildes) && (fildes <? OPEN_MAX));
   f ← descriptor fildes (u_kernel p); n ← find_free_fd fd (u_kernel p);
   Ok (n, with_mem_kernel (u_mem p) (set_fd n (Some f) (u_kernel p)) p)).
Proof.
  unfold fcntl. change (F_DUPFD =? F_DUPFD) with true. cbv iota. rewrite io_bind_outcome. cbn [head lift or_undef mbind outcome_bind].
  unfold sys, do_syscall, stuos_kernel. cbn [process_syscall]. unfold syscall_dupfd.
  destruct ((0 <=? fd) && (fd <? OPEN_MAX)); [|done]. destruct ((0 <=? fildes) && (fildes <? OPEN_MAX)); [|done]. cbn [c_assert mbind outcome_bind].
  destruct (descriptor fildes (u_kernel p)); [|done..]. cbn [mbind outcome_bind]. by destruct (find_free_fd _ _).
Qed.

(** After a fork the file stays open when one of the two processes closes its descriptor. *)
Lemma fork_keeps_open k fd f : open_at k fd = Some f →
  let k' := create_with_parent k in drop_fop f (set_fd fd None k') = Ok (set_fd fd None k').
Proof.
  intros Ho k'. unfold drop_fop. rewrite (bool_decide_true (f ∈ _)); [by rewrite orb_true_r|].
  cbn [set_fd with_fds other_references create_with_parent]. apply elem_of_app. left.
  unfold open_at in Ho. destruct (fd <? 0); [done|]. destruct (file_descriptors k !! Z.to_nat fd) as [[]|] eqn:E; [|done..]. injection Ho as ->.
  apply list_elem_of_omap. exists (Some f). split; [by eapply list_elem_of_lookup_2|done].
Qed.

(** C31: [dup2] on every input: a number that cannot be a descriptor gives EBADF; otherwise the second descriptor must be open and is
    closed first, and then the first one must be open still and is copied to it.  In all other cases the machine stops: when the second
    descriptor is not open, is OPEN_MAX, or is the same as the first.  The file behind the second descriptor is closed if no descriptor
    of this or of another process refers to it any more, and is untouched otherwise. *)
Theorem dup2_spec fildes fildes2 p : length (file_descriptors (u_kernel p)) = Z.to_nat OPEN_MAX →
  dup2 fildes fildes2 p =
    if (fildes2 <? 0) || (OPEN_MAX <? fildes2) then Ok (-1, with_errno EBADF p)
    else match open_at (u_kernel p) fildes2 with
         | Some old =>
             k ← drop_fop old (set_fd fildes2 None (u_kernel p));
             match open_at k fildes with
             | Some f => Ok (fildes2, with_mem_kernel (u_mem p) (set_fd fildes2 (Some f) k) p)
             | None => Halt
             end
         | None => Halt
         end.
Proof.
  intros Hlen. unfold dup2. destruct (Z.ltb_spec fildes2 0) as [|H0]; cbn [orb]; [done|].
  destruct (Z.ltb_spec OPEN_MAX fildes2) as [|H1]; [done|].
  rewrite (io_bind_outcome (close fildes2) _ p), close_eq, descriptor_open.
  destruct (open_at (u_kernel p) fildes2) as [old|] eqn:Eo; [|done]. cbn [mbind outcome_bind].
  destruct (drop_fop old (set_fd fildes2 None (u_kernel p))) as [k| | |] eqn:Ed; [|done..]. cbn [mbind outcome_bind fst snd].
  pose proof (drop_fop_fds _ _ _ Ed) as Ef. cbn [set_fd with_fds file_descriptors] in Ef.
  destruct (open_at_range _ _ _ Eo) as [_ Hlt].
  rewrite dupfd_eq. cbn [u_kernel u_mem with_mem_kernel].
  assert ((0 <=? fildes2) && (fildes2 <? OPEN_MAX) = true) as -> by (apply andb_true_iff; split; [by apply Z.leb_le|apply Z.ltb_lt; lia]).
  rewrite descriptor_open. cbn [c_assert mbind outcome_bind]. destruct (open_at k fildes) as [f|] eqn:Ek.
  - destruct (open_at_range _ _ _ Ek) as [Hf0 Hf]. rewrite Ef, length_insert in Hf.
    assert ((0 <=? fildes) && (fildes <? OPEN_MAX) = true) as -> by (apply andb_true_iff; split; [by apply Z.leb_le|apply Z.ltb_lt; lia]).
    cbn [c_assert mbind outcome_bind]. by rewrite find_free_fd_here by (rewrite ?Ef, ?list_lookup_insert_eq by done; done).
  - by destruct ((0 <=? fildes) && (fildes <? OPEN_MAX)).
Qed.

(** ** A stream on an open file *)
Record stream_on p (stream fd q : Z) (v : VNode) (off : Z) : Prop := {
  so_desc : load_le 4 stream (u_mem p) = Ok fd;
  so_small : 0 ≤ fd < 2 ^ 31;
  so_open : ∃ t, open_at (u_kernel p) fd = Some (ObjectFop (MkFileOperations q FileOps t));
  so_file : open_file q v off (open_files (u_kernel p), filesystem (u_kernel p))
}.
Abbreviation byte p v := (fbyte (filesystem (u_kernel p)) (id v)).
Abbreviation size_of p v := (fsize (filesystem (u_kernel p)) (id v)).

Lemma descriptor_of_stream p stream fd q v off : stream_on p stream fd q v off → descriptor_of stream p = Ok (fd, p).
Proof.
  intros [E Hfd _ _]. unfold descriptor_of. rewrite io_bind_outcome. unfold in_memory. rewrite E. cbn [mbind outcome_bind]. rewrite io_ret_eq.
  do 2 f_equal. unfold signed. change (2 ^ (32 - 1)) with (2 ^ 31). rewrite Z.mod_small by lia. lia.
Qed.

Lemma sys_write_file p stream fd q v off buf l : stream_on p stream fd q v off → bytes_at (u_mem p) buf l → l ≠ [] → Forall is_byte l →
  off + Z.of_nat (length l) ≤ size_of p v →
  ∃ k', sys (WRITE_FD fd buf (Z.of_nat (length l))) p = Ok (Z.of_nat (length l), with_mem_kernel (u_mem p) k' p) ∧
    stream_on (with_mem_kernel (u_mem p) k' p) stream fd q v off ∧ fsize (filesystem k') (id v) = size_of p v ∧
    ∀ a, 0 ≤ a < size_of p v → fbyte (filesystem k') (id v) a =
      if decide (off ≤ a < off + Z.of_nat (length l)) then default 0 (l !! Z.to_nat (a - off)) else byte p v a.
Proof.
  intros [Hd Hs (t & Ho) [He Hok Hoff Hsz]] Hl Hne Hb Hin. cbn [fst snd] in *.
  destruct (wp_total_1 _ _ (fwrite_law (filesystem (u_kernel p)) (id v) off l Hok ltac:(lia) Hne Hb Hin)) as (w & Ew & Hok' & Hsz' & Hby).
  exists (with_files (open_files (u_kernel p)) w (u_kernel p)). split; [|split; [|by split]].
  - unfold sys, do_syscall, stuos_kernel. cbn [process_syscall]. unfold syscall_write_fd. rewrite descriptor_open, Ho, Ok_bind.
    rewrite Nat2Z.id, (load_list_bytes _ _ _ Hl), Ok_bind. unfold fop_write, file_write, node_write. cbn [fops special_data]. rewrite He.
    cbn [or_undef mbind outcome_bind Pipes.file Pipes.offset]. by rewrite Ew.
  - split; [done|done|by exists t|]. cbn [u_kernel with_mem_kernel open_files filesystem with_files]. constructor; cbn [fst snd]; [done|done|lia|lia].
Qed.

Lemma sys_read_file p stream fd q v off buf n : stream_on p stream fd q v off → 0 < n → off + n ≤ size_of p v → mapped (u_mem p) buf n →
  buf + n ≤ stream ∨ stream + 4 ≤ buf → (0 < fuel)%nat →
  ∃ m' k', sys (READ_FD fd buf n) p = Ok (n, with_mem_kernel m' k' p) ∧ bytes_at m' buf (byte p v <$> seqZ off n) ∧
    same_except (u_mem p) m' buf n ∧ stream_on (with_mem_kernel m' k' p) stream fd q v (off + n) ∧ fsize (filesystem k') (id v) = size_of p v ∧
    ∀ a, 0 ≤ a < size_of p v → fbyte (filesystem k') (id v) a = byte p v a.
Proof.
  intros [Hd Hs (t & Ho) Hf] Hn Hin Hm Hdisj Hfuel.
  destruct (file_read_spec q v off n _ Hf Hn Hin) as ([h w] & Er & Hf' & Hsz & Hb). cbn [fst snd] in *.
  destruct (store_list_spec (u_mem p) (byte p v <$> seqZ off n) buf) as (m' & Em & Hbs & Hsame).
  { rewrite length_fmap, length_seqZ, Z2Nat.id by lia. done. }
  rewrite length_fmap, length_seqZ, Z2Nat.id in Hsame by lia.
  exists m', (with_files h w (u_kernel p)). split; [|split; [done|]; split; [done|]; split; [|done]].
  - unfold sys, do_syscall, stuos_kernel. cbn [process_syscall]. unfold syscall_read_fd. rewrite (proj2 (Z.ltb_ge _ _)) by lia.
    cbn [lift]. unfold io_while. destruct fuel as [|fuel']; [lia|]. rewrite io_bind_outcome. cbn [lift mbind outcome_bind c_while].
    rewrite io_bind_outcome. unfold the_descriptor. cbn [snd]. rewrite descriptor_open, Ho. cbn [mbind outcome_bind]. rewrite io_bind_outcome.
    unfold fop_read. cbn [fops special_data]. rewrite Er. cbn [mbind outcome_bind]. by rewrite Em.
  - split; [|done|by exists t|done]. rewrite <-Hd. apply load_le_same. intros b Hb2. apply Hsame. change (Z.of_nat 4) with 4 in Hb2. lia.
Qed.

Lemma sys_lseek_file p stream fd q v off off' : stream_on p stream fd q v off → 0 ≤ off' ≤ size_of p v → off' < 2 ^ 63 →
  ∃ k', sys (LSEEK_FD fd off' 0) p = Ok (off', with_mem_kernel (u_mem p) k' p) ∧ stream_on (with_mem_kernel (u_mem p) k' p) stream fd q v off' ∧
    filesystem k' = filesystem (u_kernel p).
Proof.
  intros [Hd Hs (t & Ho) [He Hok Hoff Hsz]] Hin Hr. cbn [fst snd] in *.
  exists (with_files (<[q := OpenVnode v off']> (open_files (u_kernel p))) (filesystem (u_kernel p)) (u_kernel p)). split; [|split; [|done]].
  - unfold sys, do_syscall, stuos_kernel. cbn [process_syscall]. unfold syscall_lseek_fd. rewrite descriptor_open, Ho, Ok_bind.
    unfold file_lseek. cbn [fops special_data]. rewrite He. cbn [or_undef mbind outcome_bind Pipes.file]. change (0 =? 0) with true. cbv iota.
    cbn [mbind outcome_bind]. rewrite wrap_small by lia. by rewrite (proj2 (Z.ltb_lt _ _)) by lia.
  - split; [done|done|by exists t|]. cbn [u_kernel with_mem_kernel open_files filesystem with_files].
    constructor; cbn [fst snd]; [by rewrite lookup_insert_eq|done|lia|lia].
Qed.

(** ** fwrite, fseek, fread and fputs *)
Lemma whole_items_1 n (f : Z → io (process M (kernel_part W)) Z) p : whole_items n 1 f p = f n p.
Proof. unfold whole_items. rewrite Z.mod_1_r, Z.div_1_r. done. Qed.
Lemma whole_items_all n (f : Z → io (process M (kernel_part W)) Z) p : 0 < n → whole_items n n f p = f 1 p.
Proof. intros Hn. unfold whole_items. rewrite (proj2 (Z.eqb_neq _ _)) by lia. rewrite Z.mod_same, Z.div_same by lia. done. Qed.

(** [fwrite] of [l], as items of [sz] bytes. *)
Lemma fwrite_file p stream fd q v off buf sz nmemb l : stream_on p stream fd q v off → bytes_at (u_mem p) buf l → l ≠ [] → Forall is_byte l →
  off + Z.of_nat (length l) ≤ size_of p v → 0 < sz → sz * nmemb = Z.of_nat (length l) →
  ∃ k', fwrite buf sz nmemb stream p = Ok (nmemb, with_mem_kernel (u_mem p) k' p) ∧
    stream_on (with_mem_kernel (u_mem p) k' p) stream fd q v off ∧ fsize (filesystem k') (id v) = size_of p v ∧
    ∀ a, 0 ≤ a < size_of p v → fbyte (filesystem k') (id v) a =
      if decide (off ≤ a < off + Z.of_nat (length l)) then default 0 (l !! Z.to_nat (a - off)) else byte p v a.
Proof.
  intros Hs Hl Hne Hb Hin Hsz Hn. destruct (sys_write_file _ _ _ _ _ _ _ _ Hs Hl Hne Hb Hin) as (k' & E & H).
  exists k'. split; [|done]. unfold fwrite. rewrite io_bind_outcome, (descriptor_of_stream _ _ _ _ _ _ Hs). cbn [mbind outcome_bind].
  assert (Z.of_nat (length l) < 2 ^ 64) by (pose proof (of_size _ _ _ _ (so_file _ _ _ _ _ _ Hs)); pose proof (of_off _ _ _ _ (so_file _ _ _ _ _ _ Hs)); cbn [fst snd] in *; lia).
  rewrite (wrap_small 64) by lia. rewrite io_bind_outcome, Hn, E. cbn [mbind outcome_bind].
  unfold whole_items. rewrite (proj2 (Z.eqb_neq sz 0)) by lia. rewrite <-Hn, Z.mul_comm, Z.mod_mul, Z.div_mul by lia. done.
Qed.

(** C34: What [fwrite] puts into a file, within its size, [fread] gives back after an [fseek] to the place where it was written: through the descriptor, the open
    file and the device, down to its bytes and back. ([fseek] returns the place and not 0.) *)
Theorem fwrite_fseek_fread p stream fd q v off src dst sz nmemb l : stream_on p stream fd q v off → bytes_at (u_mem p) src l →
  l ≠ [] → Forall is_byte l → 0 < sz → sz * nmemb = Z.of_nat (length l) → off + Z.of_nat (length l) ≤ size_of p v → off < 2 ^ 63 →
  mapped (u_mem p) dst (Z.of_nat (length l)) → dst + Z.of_nat (length l) ≤ stream ∨ stream + 4 ≤ dst → (0 < fuel)%nat →
  ∃ p1 p2 p3, fwrite src sz nmemb stream p = Ok (nmemb, p1) ∧ fseek stream off 0 p1 = Ok (s32 off, p2) ∧
    fread dst sz nmemb stream p2 = Ok (nmemb, p3) ∧ bytes_at (u_mem p3) dst l ∧ same_except (u_mem p) (u_mem p3) dst (Z.of_nat (length l)) ∧
    stream_on p3 stream fd q v (off + Z.of_nat (length l)).
Proof.
  intros Hs Hl Hne Hb Hsz Hn Hin Hoff Hm Hdisj Hfuel.
  pose proof (of_size _ _ _ _ (so_file _ _ _ _ _ _ Hs)) as Hsz64. pose proof (of_off _ _ _ _ (so_file _ _ _ _ _ _ Hs)) as Hoff0. cbn [fst snd] in *.
  destruct (fwrite_file _ _ _ _ _ _ _ _ _ _ Hs Hl Hne Hb Hin Hsz Hn) as (k1 & E1 & Hs1 & Esz & Hby).
  destruct (sys_lseek_file _ _ _ _ _ _ off Hs1) as (k2 & E2 & Hs2 & Ef); [cbn [u_kernel with_mem_kernel]; lia|done|].
  cbn [u_mem u_kernel with_mem_kernel] in *. rewrite <-Ef in Esz, Hby.
  destruct (sys_read_file _ _ _ _ _ _ dst (Z.of_nat (length l)) Hs2) as (m3 & k3 & E3 & Hb3 & Hsame & Hs3 & _);
    cbn [u_mem u_kernel with_mem_kernel]; try (done || lia).
  { destruct l; [done|cbn [length]; lia]. }
  cbn [u_mem u_kernel with_mem_kernel] in *.
  eexists _, _, (with_mem_kernel m3 k3 _). split; [exact E1|]. split; [|split; [|split; [|split; [exact Hsame|exact Hs3]]]].
  - unfold fseek. rewrite io_bind_outcome, (descriptor_of_stream _ _ _ _ _ _ Hs1). cbn [mbind outcome_bind].
    rewrite io_bind_outcome. unfold lseek. rewrite E2. cbn [mbind outcome_bind]. by rewrite io_ret_eq.
  - unfold fread. rewrite io_bind_outcome, (descriptor_of_stream _ _ _ _ _ _ Hs2). cbn [mbind outcome_bind].
    rewrite (wrap_small 64) by lia. rewrite io_bind_outcome, Hn, E3. cbn [mbind outcome_bind].
    unfold whole_items. rewrite (proj2 (Z.eqb_neq sz 0)) by lia. rewrite <-Hn, Z.mul_comm, Z.mod_mul, Z.div_mul by lia. done.
  - cbn [u_mem with_mem_kernel]. replace l with (fbyte (filesystem k2) (id v) <$> seqZ off (Z.of_nat (length l))); [done|].
    rewrite (fmap_seqZ_shift _ (λ i, fbyte (filesystem k2) (id v) (off + i)) off 0) by (intros; f_equal; lia).
    apply fmap_seqZ_list; [done|]. intros i Hi. rewrite Hby, decide_True by lia. replace (off + i - off) with i by lia.
    destruct (lookup_lt_is_Some_2 l (Z.to_nat i)) as [x ->]; [lia|done].
Qed.

(** C39: Two strings written to a stream one after the other are not one after the other in the file: [fputs] does not move the position, so
    that the second string is written over the beginning of the first. *)
Theorem fputs_overwrites p stream fd q v off s1 s2 l1 l2 : stream_on p stream fd q v off → cstring (u_mem p) s1 l1 → cstring (u_mem p) s2 l2 →
  l1 ≠ [] → l2 ≠ [] → off + Z.of_nat (length l1) ≤ size_of p v → off + Z.of_nat (length l2) ≤ size_of p v → (length l1 < fuel)%nat → (length l2 < fuel)%nat →
  ∃ p1 p2, fputs fuel s1 stream p = Ok (0, p1) ∧ fputs fuel s2 stream p1 = Ok (0, p2) ∧ stream_on p2 stream fd q v off ∧
    ∀ i, 0 ≤ i < Z.of_nat (length l1 `max` length l2) → byte p2 v (off + i) = default 0 ((l2 ++ drop (length l2) l1) !! Z.to_nat i).
Proof.
  assert (∀ p s l, stream_on p stream fd q v off → cstring (u_mem p) s l → l ≠ [] → off + Z.of_nat (length l) ≤ size_of p v → (length l < fuel)%nat →
    ∃ k', fputs fuel s stream p = Ok (0, with_mem_kernel (u_mem p) k' p) ∧ stream_on (with_mem_kernel (u_mem p) k' p) stream fd q v off ∧
      fsize (filesystem k') (id v) = size_of p v ∧ ∀ a, 0 ≤ a < size_of p v → fbyte (filesystem k') (id v) a =
        if decide (off ≤ a < off + Z.of_nat (length l)) then default 0 (l !! Z.to_nat (a - off)) else byte p v a) as Hputs.
  { intros p0 s l Hs [Hl Hc] Hne Hin Hf. apply bytes_at_app in Hl as [Hl H0].
    assert (Forall is_byte l) as Hb by (eapply Forall_impl; [exact Hc|]; unfold is_byte; intros; lia).
    assert (0 < Z.of_nat (length l)) as Hpos by (destruct l; [done|cbn [length]; lia]).
    destruct (fwrite_file _ _ _ _ _ _ s (Z.of_nat (length l)) 1 _ Hs Hl Hne Hb Hin Hpos ltac:(lia)) as (k' & E & H).
    exists k'. split; [|done]. unfold fputs. rewrite io_bind_outcome. unfold in_memory. rewrite (strlen_spec _ _ l) by (split; [by apply bytes_at_app|done] || done).
    cbn [mbind outcome_bind]. rewrite io_bind_outcome, E. done. }
  intros Hs H1 H2 Hn1 Hn2 Hi1 Hi2 Hf1 Hf2. pose proof (of_off _ _ _ _ (so_file _ _ _ _ _ _ Hs)) as Hoff0. cbn [fst snd] in *.
  destruct (Hputs p s1 l1 Hs H1 Hn1 Hi1 Hf1) as (k1 & E1 & Hs1 & Ez1 & Hb1).
  destruct (Hputs _ s2 l2 Hs1 H2 Hn2 ltac:(cbn [u_kernel with_mem_kernel]; lia) Hf2) as (k2 & E2 & Hs2 & Ez2 & Hb2).
  cbn [u_mem u_kernel with_mem_kernel] in *. eexists _, _. split; [exact E1|]. split; [exact E2|]. split; [exact Hs2|].
  intros i Hi. cbn [u_kernel with_mem_kernel]. rewrite Hb2 by lia. case_decide as Hd.
  - replace (off + i - off) with i by lia. by rewrite lookup_app_l by lia.
  - rewrite Hb1 by lia. rewrite decide_True by lia. rewrite lookup_app_r, lookup_drop by lia. f_equal. f_equal. lia.
Qed.
End descriptors.
