(* ===== verification/StdioSpec.v ===== *)
(** * What fgets reads from a file *)
From S2P Require Import Prelude Memory CString Bytes Vfs Tty Pipes PipesSpec Syscalls Unistd Stdio SyscallHandlers SyscallSpec.
#[local] Open Scope list_scope.
#[local] Arguments wrap : simpl never.
#[local] Arguments load_le : simpl never.

Section fgets.
Context {M W : Type} `{!ByteMemory M} `{!FileDevice W} (vfs_get : list Z → list Z → Z → W → outcome VNode)
  (new_object : kernel_part W → Z) (others : M * kernel_part W → outcome (M * kernel_part W)) (polls : nat)
  (rest : ∀ A, syscall A → io (M * kernel_part W) A) (Hpolls : (0 < polls)%nat).
#[local] Instance the_kernel : Kernel M (kernel_part W) := stuos_kernel vfs_get new_object others polls rest.
Context (stream fd q : Z) (v : VNode).
Implicit Types (p : process M (kernel_part W)) (l : list Z).
Abbreviation byte p := (fbyte (filesystem (u_kernel p)) (id v)).
Abbreviation size_of p := (fsize (filesystem (u_kernel p)) (id v)).
Abbreviation on p off := (stream_on p stream fd q v off).

(** The next bytes of the file are [l]. *)
Definition next_bytes p (off : Z) l : Prop :=
  off + Z.of_nat (length l) ≤ size_of p ∧ ∀ i x, l !! i = Some x → byte p (off + Z.of_nat i) = x.
Definition apart (a n : Z) : Prop := a + n ≤ stream ∨ stream + 4 ≤ a.
Definition same_file p p' : Prop := size_of p' = size_of p ∧ ∀ a, 0 ≤ a < size_of p → byte p' a = byte p a.

Lemma next_bytes_cons p off x l : next_bytes p off (x :: l) → off < size_of p ∧ byte p off = x ∧ next_bytes p (off + 1) l.
Proof.
  intros [Hs Hb]. cbn [length] in Hs. split; [lia|]. split; [by rewrite <-(Hb 0%nat x eq_refl), Z.add_0_r|]. split; [lia|].
  intros i y Hi. rewrite <-(Hb (S i) y Hi). f_equal. lia.
Qed.

Lemma next_bytes_same p p' off l : 0 ≤ off → same_file p p' → next_bytes p off l → next_bytes p' off l.
Proof.
  intros Ho [Es Eb] [Hs Hb]. split; [by rewrite Es|]. intros i x Hi. rewrite <-(Hb i x Hi). apply Eb. apply lookup_lt_Some in Hi. lia.
Qed.

(** One turn of the loop reads one byte. *)
Lemma fgets_step_byte p off start sz curr x : on p off → off < size_of p → byte p off = x → is_Some (mload (u_mem p) curr) → apart curr 1 →
  curr - start < sz - 1 →
  ∃ p', fgets_step start sz stream curr p = Ok (if x =? 10 then inr curr else inl (curr + 1), p') ∧ on p' (off + 1) ∧ same_file p p' ∧
    mload (u_mem p') curr = Some x ∧ same_except (u_mem p) (u_mem p') curr 1.
Proof.
  intros Hon Hoff Hx Hm Ha Hlt.
  destruct (sys_read_file vfs_get new_object others polls rest p stream fd q v off curr 1 Hon) as (m' & k' & E & Hb & Hs & Hon' & Hsz & Hby); try (done || lia).
  { intros a Har. by replace a with curr by lia. }
  change (seqZ off 1) with [0 + off] in Hb. rewrite Z.add_0_l in Hb.
  assert (mload m' curr = Some x) as Hl by (rewrite <-Hx, <-(Hb 0%nat _ eq_refl); f_equal; lia).
  exists (with_mem_kernel m' k' p). split; [|by split_and!].
  unfold fgets_step. rewrite (proj2 (Z.eqb_neq _ _)) by lia. rewrite io_bind_outcome, (descriptor_of_stream _ _ _ _ _ _ Hon). cbn [mbind outcome_bind].
  rewrite io_bind_outcome. unfold the_kernel. rewrite E. cbn [mbind outcome_bind]. rewrite io_bind_outcome. unfold in_memory at 1. cbn [u_mem with_mem_kernel].
  rewrite (load_Some _ _ _ Hl). cbn [mbind outcome_bind]. rewrite io_ret_eq. change (1 =? 0) with false. by rewrite orb_false_r.
Qed.

Lemma fgets_loop start sz l : ∀ p off curr, on p off → next_bytes p off l → 10 ∉ l → mapped (u_mem p) curr (Z.of_nat (length l)) →
  apart curr (Z.of_nat (length l)) → curr + Z.of_nat (length l) - start ≤ sz - 1 →
  ∃ p', (∀ fuel, io_while (length l + fuel) (fgets_step start sz stream) curr p =
           io_while fuel (fgets_step start sz stream) (curr + Z.of_nat (length l)) p') ∧
    on p' (off + Z.of_nat (length l)) ∧ same_file p p' ∧ bytes_at (u_mem p') curr l ∧ same_except (u_mem p) (u_mem p') curr (Z.of_nat (length l)).
Proof.
  induction l as [|x l IH]; intros p off curr Hon Hb Hnl Hm Ha Hlt; cbn [length] in *.
  { exists p. rewrite !Z.add_0_r. split; [done|]. split; [done|]. split; [by split|]. split; [by intros ? ?|by intros ? ?]. }
  apply not_elem_of_cons in Hnl as [Hx Hnl]. apply next_bytes_cons in Hb as (Hoff & Hbx & Hb). pose proof (of_off _ _ _ _ (so_file _ _ _ _ _ _ Hon)) as Ho. cbn [snd] in Ho.
  destruct (fgets_step_byte p off start sz curr x Hon Hoff Hbx) as (p1 & E1 & Hon1 & Hf1 & Hl1 & Hs1); [apply Hm; lia|unfold apart in *; lia|lia|].
  rewrite (proj2 (Z.eqb_neq _ _)) in E1 by lia.
  destruct (IH p1 (off + 1) (curr + 1) Hon1) as (p2 & E2 & Hon2 & Hf2 & Hb2 & Hs2); [by apply (next_bytes_same p); [lia|..]|done| |unfold apart in *; lia|lia|].
  { intros a Har. rewrite Hs1 by lia. apply Hm. lia. }
  exists p2. split; [|split; [|split; [|split]]].
  - intros fuel. cbn [Nat.add]. unfold io_while at 1. cbn [c_while]. rewrite E1. cbn [mbind outcome_bind].
    change (io_while (length l + fuel) (fgets_step start sz stream) (curr + 1) p1 = io_while fuel (fgets_step start sz stream) (curr + Z.of_nat (S (length l))) p2).
    rewrite E2. f_equal. lia.
  - by replace (off + Z.of_nat (S (length l))) with (off + 1 + Z.of_nat (length l)) by lia.
  - destruct Hf1 as [Ea Eb], Hf2 as [Ec Ed]. split; [congruence|]. intros a Har. rewrite Ed, Eb by lia. done.
  - apply bytes_at_cons. split; [|done]. by rewrite (Hs2 curr) by lia.
  - intros a Har. rewrite (Hs2 a), (Hs1 a) by lia. done.
Qed.

Lemma wp_store_at p a x : is_Some (mload (u_mem p) a) →
  ∃ m', on_mem (λ m, m ← store m a x; Ok ((), m)) p = Ok ((), with_mem_kernel m' (u_kernel p) p) ∧
    mload m' a = Some x ∧ same_except (u_mem p) m' a 1.
Proof.
  intros Ha. destruct (store_list_spec (u_mem p) [x] a) as (m' & E & Hb & Hs).
  { intros b Hb. cbn [length] in Hb. by replace b with a by lia. }
  exists m'. split; [|split; [|exact Hs]].
  - unfold on_mem. cbn [store_list] in E. destruct (store (u_mem p) a x); [|done..]. cbn [mbind outcome_bind] in *. by injection E as ->.
  - by apply bytes_at_cons in Hb as [? _].
Qed.

Lemma stream_on_mem p off m' : on p off → (∀ a, stream ≤ a < stream + 4 → mload m' a = mload (u_mem p) a) →
  on (with_mem_kernel m' (u_kernel p) p) off.
Proof. intros [Hd Hs Ho Hf] Hm. split; [|done..]. rewrite <-Hd. by apply load_le_same. Qed.

(** A line that fits is read with its newline and a terminator, and the next read goes on behind it. *)
Theorem fgets_line p off s sz line fuel : on p off → next_bytes p off (line ++ [10]) → 10 ∉ line → Z.of_nat (length line) + 2 ≤ sz →
  mapped (u_mem p) s sz → apart s sz → (length line < fuel)%nat →
  ∃ p', fgets fuel s sz stream p = Ok (s, p') ∧ bytes_at (u_mem p') s (line ++ [10; 0]) ∧ same_except (u_mem p) (u_mem p') s sz ∧
    on p' (off + Z.of_nat (length line) + 1) ∧ same_file p p'.
Proof.
  intros Hon [Hsz Hb] Hnl Hlen Hm Ha Hf. rewrite length_app in Hsz. cbn [length] in Hsz.
  pose proof (of_off _ _ _ _ (so_file _ _ _ _ _ _ Hon)) as Ho. cbn [snd] in Ho.
  destruct (fgets_loop s sz line p off s Hon) as (p1 & E1 & Hon1 & Hf1 & Hb1 & Hs1); [|done|intros a Har; apply Hm; lia|unfold apart in *; lia|lia|].
  { split; [lia|]. intros i x Hi. apply Hb. by apply lookup_app_l_Some. }
  set (n := Z.of_nat (length line)) in *.
  destruct (fgets_step_byte p1 (off + n) s sz (s + n) 10 Hon1) as (p2 & E2 & Hon2 & Hf2 & Hl2 & Hs2).
  { destruct Hf1 as [-> _]. lia. }
  { destruct Hf1 as [_ ->]; [|lia]. apply (Hb (length line)). by rewrite list_lookup_middle. }
  { rewrite Hs1 by lia. apply Hm. lia. }
  { unfold apart in *. lia. }
  { lia. }
  destruct (wp_store_at p2 (s + n + 1) 0) as (m3 & E3 & Hl3 & Hs3); [rewrite Hs2, Hs1 by lia; apply Hm; lia|].
  exists (with_mem_kernel m3 (u_kernel p2) p2). split; [|split; [|split; [|split]]].
  - unfold fgets. rewrite (proj2 (Z.eqb_neq _ _)) by lia. rewrite io_bind_outcome.
    replace fuel with (length line + S (fuel - S (length line)))%nat by lia. rewrite E1. unfold io_while. cbn [c_while]. rewrite E2.
    change (10 =? 10) with true. cbn [mbind outcome_bind]. rewrite io_bind_outcome, E3. done.
  - cbn [u_mem with_mem_kernel]. apply bytes_at_app. fold n. split; [|apply bytes_at_cons; split; [|apply bytes_at_cons; split; [done|by intros ? ?]]].
    + apply (bytes_at_same (u_mem p2) m3 (s + n + 1) 1); [done| |lia]. apply (bytes_at_same (u_mem p1) (u_mem p2) (s + n) 1); [done|done|lia].
    + by rewrite (Hs3 (s + n)) by lia.
  - intros a Har. cbn [u_mem with_mem_kernel]. rewrite (Hs3 a), (Hs2 a), (Hs1 a) by lia. done.
  - apply stream_on_mem; [done|]. intros a Har. apply Hs3. unfold apart in *. lia.
  - destruct Hf1 as [Ea Eb], Hf2 as [Ec Ed]. split; [cbn [u_kernel with_mem_kernel]; congruence|]. intros a Har. cbn [u_kernel with_mem_kernel]. rewrite Ed, Eb by lia. done.
Qed.

(** A line that does not fit in [sz] bytes runs over the end: [sz - 1] bytes of it are stored, the last byte of the buffer is not touched, so that the
    string does not end there, and the byte behind the buffer is set to zero; where that byte is not the program's, the access is undefined. *)
Theorem fgets_overruns p off s sz l fuel : on p off → next_bytes p off l → 10 ∉ l → Z.of_nat (length l) = sz - 1 → mapped (u_mem p) s sz → apart s sz →
  (length l < fuel)%nat →
  match mload (u_mem p) (s + sz) with
  | None => fgets fuel s sz stream p = Undef
  | Some _ => ∃ p', fgets fuel s sz stream p = Ok (s, p') ∧ bytes_at (u_mem p') s l ∧
      mload (u_mem p') (s + sz - 1) = mload (u_mem p) (s + sz - 1) ∧ mload (u_mem p') (s + sz) = Some 0
  end.
Proof.
  intros Hon Hb Hnl Hlen Hm Ha Hf.
  destruct (fgets_loop s sz l p off s Hon Hb Hnl) as (p1 & E1 & Hon1 & Hf1 & Hb1 & Hs1); [intros a Har; apply Hm; lia|unfold apart in *; lia|lia|].
  assert (mload (u_mem p1) (s + sz) = mload (u_mem p) (s + sz)) as Em by (apply Hs1; lia).
  assert (io_while fuel (fgets_step s sz stream) s p = Ok (s + (sz - 1), p1)) as E.
  { replace fuel with (length l + S (fuel - S (length l)))%nat by lia. rewrite E1, Hlen. unfold io_while. cbn [c_while].
    assert (fgets_step s sz stream (s + (sz - 1)) p1 = Ok (inr (s + (sz - 1)), p1)) as ->; [|done].
    unfold fgets_step. replace (s + (sz - 1) - s) with (sz - 1) by lia. by rewrite Z.eqb_refl. }
  unfold fgets. rewrite (proj2 (Z.eqb_neq sz 0)) by lia. rewrite io_bind_outcome, E. cbn [mbind outcome_bind]. rewrite io_bind_outcome.
  replace (s + (sz - 1) + 1) with (s + sz) by lia. destruct (mload (u_mem p) (s + sz)) eqn:Ex.
  - destruct (wp_store_at p1 (s + sz) 0) as (m2 & E2 & Hl2 & Hs2); [by rewrite Em|]. rewrite E2. eexists. split; [reflexivity|].
    cbn [u_mem with_mem_kernel]. split; [|split; [|done]].
    + apply (bytes_at_same (u_mem p1) m2 (s + sz) 1); [done|done|lia].
    + rewrite (Hs2 (s + sz - 1)), (Hs1 (s + sz - 1)) by lia. done.
  - unfold on_mem, store. assert (mstore (u_mem p1) (s + sz) 0 = None) as ->; [|done].
    destruct (mstore (u_mem p1) (s + sz) 0) eqn:Es; [|done]. exfalso.
    assert (is_Some (mload (u_mem p1) (s + sz))) as Hx by (apply (mstore_mapped _ _ 0); eauto). rewrite Em in Hx. by destruct Hx.
Qed.
End fgets.
