(* ===== verification/LibcExamples.v ===== *)
(** * A program on a concrete kernel: witnesses for the C library's calls

    The file is a partition of a disk in memory, opened as descriptor 3. *)
From S2P Require Import Prelude Memory CString Bytes Vfs BlockDev FatVolume FatExamples Tty TtyInput Pipes PipesSpec Syscalls Unistd Stdio UnistdSpec SyscallHandlers SyscallSpec StdioSpec.
Import BlockDevExamples.
#[local] Open Scope list_scope.

(** ** A clock that shows each time for three calls, in steps of 3 ms *)
Record clock := ClockAt { shown : Z; turns : nat }.
Definition clock_call : io (gmap Z Z * clock) Z := λ '(m, k),
  Ok (u64 (shown k), (m, match turns k with 0%nat => ClockAt (shown k + 3) 2 | S n => ClockAt (shown k) n end)).
#[export] Instance clock_kernel : Kernel (gmap Z Z) clock := λ A s,
  match s in syscall A return io (gmap Z Z * clock) A with GET_UPTIME_MS => clock_call | _ => λ _, Halt end.
#[export, refine] Instance clock_runs : Clock (gmap Z Z) clock := { now := shown; stutter := turns }.
Proof.
  intros m [t [|n]]; eexists; (split; [reflexivity|]); cbn [shown turns]; [right; lia|left; split; [done|lia]].
Defined.

Lemma sleep_returns_witness : ∃ n p', 1000 < shown (u_kernel p') ∧
  ∀ fuel, (n ≤ fuel)%nat → sleep fuel 1 (Process (∅ : gmap Z Z) (ClockAt 0 2) 0 0 0 0 0) = Ok (0, p').
Proof.
  destruct (sleep_returns 1 (Process (∅ : gmap Z Z) (ClockAt 0 2) 0 0 0 0 0) ltac:(lia)) as (n & p' & Ht & _ & Hf). exists n, p'. split; [exact Ht|exact Hf].
Defined.

(** ** The environment PATHS=x, PATH=/bin *)
Definition env_memory : gmap Z Z := mem_of [
  (1000, le_bytes 8 2000 ++ le_bytes 8 3000 ++ le_bytes 8 0); (2000, [80; 65; 84; 72; 83; 61; 120; 0]); (3000, [80; 65; 84; 72; 61; 47; 98; 105; 110; 0]);
  (4000, [80; 65; 84; 72; 0])].
Definition env_process : process (gmap Z Z) clock := Process env_memory (ClockAt 0 0) 0 0 0 0 1000.

Lemma getenv_spec_witness : ∃ r, getenv 9 4000 env_process = Ok (r, env_process) ∧ 0 < r ∧ cstring env_memory r [47; 98; 105; 110].
Proof.
  apply (getenv_spec 9 4000 [80; 65; 84; 72] [[80; 65; 84; 72; 83; 61; 120]; [80; 65; 84; 72; 61; 47; 98; 105; 110]] env_process).
  - lia.
  - apply cstringb_true. vm_compute. reflexivity.
  - apply (bool_decide_unpack _). vm_compute. exact I.
  - split; [done|]. exists 2000. split; [vm_compute; reflexivity|]. split; [done|]. split; [apply cstringb_true; vm_compute; reflexivity|].
    split; [done|]. exists 3000. split; [vm_compute; reflexivity|]. split; [done|]. split; [apply cstringb_true; vm_compute; reflexivity|].
    split; [done|]. vm_compute. reflexivity.
  - cbn. lia.
  - cbn. lia.
Defined.

(** ** A stream on a partition whose byte 2048 begins the line "hi" *)
Abbreviation disk_world := (dev_state (gmap Z (list Z))).
Definition text_disk : gmap Z (list Z) := <[4 := pad_sector [104; 105; 10; 120]]> fat_disk.
Definition text_world : disk_world := DevState 1 [MkDevice text_disk (MkCache [] 0 false) 1 (replicate 9 (Partition 0 0))].
Definition text_node : VNode := MkVNode (VNodeId 0 0) BlockdevOps.

(** The FILE is at 500; "ab", "cde" and room for 8 and 3 bytes are at 600, 700, 800 and 900. *)
Definition text_memory : gmap Z Z := mem_of [
  (500, [3; 0; 0; 0]); (600, [97; 98; 0]); (700, [99; 100; 101; 0]); (800, replicate 8 255); (900, replicate 3 255)].
Definition text_fds : list (option fop) :=
  [Some StdinFop; Some StdoutFop; Some StdoutFop; Some (ObjectFop (MkFileOperations 48 FileOps false))] ++ replicate 6 None.
Definition text_kernel : kernel_part disk_world :=
  KernelPart text_fds [] [47] {[48 := OpenVnode text_node 2048]} ∅ (tty_initial small_display) text_world.
Definition text_process : process (gmap Z Z) (kernel_part disk_world) := Process text_memory text_kernel 0 0 0 0 0.

Definition no_path (_ _ : list Z) (_ : Z) (_ : disk_world) : outcome VNode := Halt.
Definition object_64 (_ : kernel_part disk_world) : Z := 64.
Definition nothing_else (w : gmap Z Z * kernel_part disk_world) : outcome (gmap Z Z * kernel_part disk_world) := Ok w.
Definition no_call (A : Type) (_ : syscall A) : io (gmap Z Z * kernel_part disk_world) A := λ _, Halt.
Abbreviation text_run := (stuos_kernel no_path object_64 nothing_else 9 no_call).

Lemma text_dev : fok text_world (VNodeId 0 0) ∧ fsize text_world (VNodeId 0 0) = 512 * 512.
Proof.
  split; [|vm_compute; reflexivity]. split; [constructor; [by split|constructor]|]. eexists 0, _, (Partition 0 0).
  split_and!; [vm_compute; reflexivity|done..].
Qed.

Lemma text_stream : stream_on text_process 500 3 48 text_node 2048.
Proof.
  destruct text_dev as [Hok Hs]. split; [vm_compute; reflexivity|lia|by exists false|].
  change (fsize text_world (id text_node) = 512 * 512) in Hs.
  constructor; cbn [fst snd text_process u_kernel text_kernel filesystem open_files]; [done|exact Hok|rewrite Hs; lia|rewrite Hs; lia].
Qed.

(** Descriptor 1 is closed and made a copy of descriptor 3. *)
Lemma dup2_spec_witness : dup2 (Kernel0 := text_run) 3 1 text_process =
  Ok (1, with_mem_kernel text_memory (set_fd 1 (Some (ObjectFop (MkFileOperations 48 FileOps false))) (set_fd 1 None text_kernel)) text_process).
Proof. rewrite (dup2_spec no_path object_64 nothing_else 9 no_call 3 1 text_process eq_refl). reflexivity. Defined.

(** With descriptor 3 the file is closed, but not in a process that was just forked. *)
Definition text_forked : process (gmap Z Z) (kernel_part disk_world) := Process text_memory (create_with_parent text_kernel) 0 0 0 0 0.
Definition open_after (r : outcome (Z * process (gmap Z Z) (kernel_part disk_world))) : option (gmap Z OpenVnodeSpecialData) :=
  match r with Ok (_, p) => Some (open_files (u_kernel p)) | _ => None end.
Example dup2_closes : open_after (dup2 (Kernel0 := text_run) 1 3 text_process) = Some ∅.
Proof. vm_compute. reflexivity. Qed.
Example dup2_after_fork : open_after (dup2 (Kernel0 := text_run) 1 3 text_forked) = Some {[48 := OpenVnode text_node 2048]}.
Proof. vm_compute. reflexivity. Qed.

Lemma text_size : fsize (filesystem (u_kernel text_process)) (id text_node) = 512 * 512.
Proof. apply text_dev. Qed.

Lemma fwrite_fseek_fread_witness : ∃ p1 p2 p3, fwrite (Kernel0 := text_run) 700 1 3 500 text_process = Ok (3, p1) ∧
  fseek (Kernel0 := text_run) 500 2048 0 p1 = Ok (2048, p2) ∧ fread (Kernel0 := text_run) 800 1 3 500 p2 = Ok (3, p3) ∧
  bytes_at (u_mem p3) 800 [99; 100; 101].
Proof.
  destruct (fwrite_fseek_fread no_path object_64 nothing_else 9 no_call text_process 500 3 48 text_node 2048 700 800 1 3 [99; 100; 101] text_stream)
    as (p1 & p2 & p3 & E1 & E2 & E3 & Hb & _).
  - apply bytes_atb_true. vm_compute. reflexivity.
  - done.
  - by repeat constructor.
  - lia.
  - reflexivity.
  - rewrite text_size. cbn [length]. lia.
  - lia.
  - apply (mapped_bytes _ _ [255; 255; 255]); [reflexivity|]. vm_compute. reflexivity.
  - right. lia.
  - lia.
  - exists p1, p2, p3. split; [exact E1|]. split; [exact E2|]. split; [exact E3|exact Hb].
Defined.

(** "cde" and then "ab": the file has "abe". *)
Lemma fputs_overwrites_witness : ∃ p1 p2, fputs (Kernel0 := text_run) 9 700 500 text_process = Ok (0, p1) ∧
  fputs (Kernel0 := text_run) 9 600 500 p1 = Ok (0, p2) ∧
  ∀ i, 0 ≤ i < 3 → fbyte (filesystem (u_kernel p2)) (id text_node) (2048 + i) = default 0 ([97; 98; 101] !! Z.to_nat i).
Proof.
  destruct (fputs_overwrites no_path object_64 nothing_else 9 no_call text_process 500 3 48 text_node 2048 700 600 [99; 100; 101] [97; 98] text_stream)
    as (p1 & p2 & E1 & E2 & _ & Hb).
  - apply cstringb_true. vm_compute. reflexivity.
  - apply cstringb_true. vm_compute. reflexivity.
  - done.
  - done.
  - rewrite text_size. cbn [length]. lia.
  - rewrite text_size. cbn [length]. lia.
  - cbn. lia.
  - cbn. lia.
  - exists p1, p2. split; [exact E1|]. split; [exact E2|exact Hb].
Defined.

Lemma text_bytes l : l ∈ [[104; 105; 10]; [104; 105]] → next_bytes text_node text_process 2048 l.
Proof.
  intros Hl. split; [rewrite text_size; apply elem_of_cons in Hl as [->|Hl%list_elem_of_singleton]; [|subst]; cbn [length]; lia|].
  intros i x Hi. assert (∃ y, [104; 105; 10] !! i = Some y ∧ y = x) as (y & Ey & <-).
  { apply elem_of_cons in Hl as [->|Hl%list_elem_of_singleton]; [by exists x|subst]. exists x. split; [|done].
    apply (lookup_app_l_Some [104; 105] [10] i x Hi). }
  destruct i as [|[|[|i]]]; [injection Ey as <-|injection Ey as <-|injection Ey as <-|done]; vm_compute; reflexivity.
Qed.

Lemma fgets_line_witness : ∃ p', fgets (Kernel0 := text_run) 9 800 8 500 text_process = Ok (800, p') ∧ bytes_at (u_mem p') 800 [104; 105; 10; 0].
Proof.
  destruct (fgets_line no_path object_64 nothing_else 9 no_call ltac:(lia) 500 3 48 text_node text_process 2048 800 8 [104; 105] 9 text_stream)
    as (p' & E & Hb & _).
  - apply text_bytes. set_solver.
  - apply (bool_decide_unpack _). vm_compute. exact I.
  - cbn. lia.
  - apply (mapped_bytes _ _ (replicate 8 255)); [reflexivity|]. vm_compute. reflexivity.
  - right. lia.
  - cbn. lia.
  - exists p'. split; [exact E|exact Hb].
Defined.

(** "hi" is read into three bytes: the byte behind them is not the program's. *)
Lemma fgets_overruns_witness : fgets (Kernel0 := text_run) 9 900 3 500 text_process = Undef.
Proof.
  apply (fgets_overruns no_path object_64 nothing_else 9 no_call ltac:(lia) 500 3 48 text_node text_process 2048 900 3 [104; 105] 9 text_stream).
  - apply text_bytes. set_solver.
  - apply (bool_decide_unpack _). vm_compute. exact I.
  - reflexivity.
  - apply (mapped_bytes _ _ (replicate 3 255)); [reflexivity|]. vm_compute. reflexivity.
  - right. lia.
  - cbn. lia.
Defined.
