(* ===== verification/LibcHeap.v ===== *)
(** * The heap of the C library: custom_malloc implements the interface [CHeap], calloc and strdup use it

    The memory of a process is its allocator, the blocks it holds and the bytes of its program; the bytes of a block are
    mapped while it is held. *)
From S2P Require Import Prelude Memory CString Malloc Syscalls Unistd Stdio.
#[local] Open Scope list_scope.
#[local] Arguments wrap : simpl never.

Section heap.
Context {W : Type} `{!HeapProvider W}.
Implicit Types (st : allocator W) (live : list (Z * Z)).

Record heap_memory := HeapMemory {
  hm_heap : allocator W;
  hm_live : list (Z * Z);
  hm_static : gmap Z Z;
  hm_inv : heap_inv (hm_heap, hm_live);
  hm_sizes : Forall (λ x : Z * Z, 0 < x.2) hm_live;
  hm_below : map_Forall (λ a _, a < head hm_heap) hm_static
}.

Definition in_live live (a : Z) : bool := existsb (λ x : Z * Z, (x.1 <=? a) && (a <? x.1 + x.2)) live.

Lemma in_live_spec live a : in_live live a = true ↔ ∃ p n, (p, n) ∈ live ∧ p ≤ a < p + n.
Proof.
  unfold in_live. rewrite existsb_exists. split.
  - intros ([p n] & Hin%list_elem_of_In & Ha). cbn [fst snd] in Ha. exists p, n. split; [done|lia].
  - intros (p & n & Hin & Ha). exists (p, n). split; [by apply list_elem_of_In|]. cbn [fst snd]. lia.
Qed.

Definition hm_load (m : heap_memory) (a : Z) : option Z := if in_live (hm_live m) a then Some (data_byte (hm_heap m) a) else hm_static m !! a.

Lemma heap_inv_data st live d : heap_inv (st, live) → heap_inv (with_data st d, live).
Proof. intros (l & u & Hinv & Hu & Hg). exists l, u. split; [by apply inv_with_data|]. by split. Qed.

Lemma below_insert st (static : gmap Z Z) (a v x : Z) : map_Forall (λ a (_ : Z), a < head st) static → static !! a = Some x → map_Forall (λ a _, a < head st) (<[a := v]> static).
Proof. intros H E. apply map_Forall_insert_2; [by apply (H a x)|done]. Qed.

Definition hm_store_static (m : heap_memory) (a v : Z) (o : option Z) : hm_static m !! a = o → option heap_memory :=
  match o with
  | Some x => λ E, Some (HeapMemory (hm_heap m) (hm_live m) (<[a := v]> (hm_static m)) (hm_inv m) (hm_sizes m) (below_insert _ _ a v x (hm_below m) E))
  | None => λ _, None
  end.
Definition hm_store (m : heap_memory) (a v : Z) : option heap_memory :=
  if in_live (hm_live m) a
  then Some (HeapMemory (with_data (hm_heap m) (<[a := v]> (data (hm_heap m)))) (hm_live m) (hm_static m) (heap_inv_data _ _ _ (hm_inv m)) (hm_sizes m) (hm_below m))
  else hm_store_static m a v _ eq_refl.

Lemma hm_store_static_is_Some m a v o E : is_Some (hm_store_static m a v o E) ↔ is_Some o.
Proof. destruct o; split; intros []; eauto; done. Qed.
Lemma hm_store_static_Some m a v o E m' : hm_store_static m a v o E = Some m' →
  hm_heap m' = hm_heap m ∧ hm_live m' = hm_live m ∧ hm_static m' = <[a := v]> (hm_static m).
Proof. destruct o; [|done]. by intros [= <-]. Qed.

#[export, refine] Instance heap_byte_memory : ByteMemory heap_memory := { mload := hm_load; mstore := hm_store }.
Proof.
  - intros m a v. unfold hm_load, hm_store. destruct (in_live (hm_live m) a); [by split; eauto|].
    by rewrite hm_store_static_is_Some.
  - intros m a v m' b. unfold hm_load, hm_store. destruct (in_live (hm_live m) a) eqn:Ea.
    + intros [= <-]. cbn [hm_live hm_heap hm_static]. destruct (in_live (hm_live m) b) eqn:Eb.
      * unfold data_byte. cbn [data with_data]. rewrite lookup_insert. by destruct (decide (a = b)).
      * rewrite decide_False; [done|]. intros ->. congruence.
    + intros E. apply hm_store_static_Some in E as (-> & -> & ->). destruct (in_live (hm_live m) b) eqn:Eb.
      * rewrite decide_False; [done|]. intros ->. congruence.
      * rewrite lookup_insert. by destruct (decide (a = b)).
Defined.

(** ** malloc and free *)
#[export] Instance room_dec st n : Decision (room st n).
Proof. unfold room. apply _. Defined.

Lemma malloc_sizes st live n p st' : Forall (λ x : Z * Z, 0 < x.2) live → room st n → Malloc.malloc n st = Ok (p, st') →
  Forall (λ x : Z * Z, 0 < x.2) (if p =? 0 then live else (p, n) :: live).
Proof.
  intros Hl [Hn _] E. destruct (Z.eqb_spec p 0); [done|]. constructor; [cbn [snd]|done]. destruct (decide (n = 0)) as [->|]; [|lia].
  unfold Malloc.malloc in E. cbn in E. by injection E as <- _.
Qed.

Lemma malloc_head st live n p st' : heap_inv (st, live) → room st n → Malloc.malloc n st = Ok (p, st') → head st' = head st ∧ data st' = data st.
Proof.
  intros (l & u & Hinv & _) [H1 H2] E. eapply wp_Ok in E; [|by eapply malloc_wp]. by destruct E as ((-> & _ & -> & _) & _).
Qed.

Lemma malloc_below (st st' : allocator W) (static : gmap Z Z) : head st' = head st → map_Forall (λ a _, a < head st) static → map_Forall (λ a _, a < head st') static.
Proof. by intros ->. Qed.

Definition hm_malloc_result (m : heap_memory) (n : Z) (Hr : room (hm_heap m) n) (o : outcome (Z * allocator W)) :
    Malloc.malloc n (hm_heap m) = o → outcome (Z * heap_memory) :=
  match o with
  | Ok (p, st') => λ E, Ok (p, HeapMemory st' (if p =? 0 then hm_live m else (p, n) :: hm_live m) (hm_static m)
      (heap_step_inv _ _ (step_malloc _ _ _ _ _ Hr E) (hm_inv m)) (malloc_sizes _ _ _ _ _ (hm_sizes m) Hr E)
      (malloc_below _ _ _ (proj1 (malloc_head _ _ _ _ _ (hm_inv m) Hr E)) (hm_below m)))
  | Halt => λ _, Halt
  | Undef => λ _, Undef
  | OutOfFuel => λ _, OutOfFuel
  end.

(** Beyond the room that the theorems of Malloc.v need, nothing is claimed. *)
Definition hm_malloc (n : Z) (m : heap_memory) : outcome (Z * heap_memory) :=
  match decide (room (hm_heap m) n) with left Hr => hm_malloc_result m n Hr _ eq_refl | right _ => Undef end.

Lemma free_keeps st live1 live2 p n st' : heap_inv (st, live1 ++ (p, n) :: live2) → Malloc.free p st = Ok st' →
  heap_inv (st', live1 ++ live2) ∧ head st' = head st ∧ data st' = data st.
Proof.
  intros Hi E. pose proof (heap_step_inv _ _ (step_free _ _ _ _ _ _ E) Hi) as H. split; [done|].
  destruct Hi as (l & u & Hinv & Hu & Hg). cbn [fst snd] in *. apply grows_middle in Hg as (k & u' & _ & Hu' & _).
  eapply wp_Ok in E; [|apply (free_wp st l p k Hinv); rewrite Hu, Hu'; left]. by destruct E as ((? & _ & _ & _ & ?) & _).
Qed.

Lemma live_split p live i x : list_find (λ x : Z * Z, x.1 = p) live = Some (i, x) → live = take i live ++ (p, x.2) :: drop (S i) live.
Proof. intros (E & <- & _)%list_find_Some. destruct x. by rewrite take_drop_middle. Qed.

Definition hm_free_result (m : heap_memory) (p n : Z) (l1 l2 : list (Z * Z)) (Hl : hm_live m = l1 ++ (p, n) :: l2) (o : outcome (allocator W)) :
    Malloc.free p (hm_heap m) = o → outcome heap_memory :=
  match o with
  | Ok st' => λ E,
      let H := free_keeps _ _ _ _ _ _ (eq_rect _ (λ l, heap_inv (hm_heap m, l)) (hm_inv m) _ Hl) E in
      Ok (HeapMemory st' (l1 ++ l2) (hm_static m) (proj1 H)
        (proj2 (Forall_app _ _ _) (conj (proj1 (proj1 (Forall_app _ _ _) (eq_rect _ (λ l, Forall _ l) (hm_sizes m) _ Hl)))
                             (Forall_inv_tail (proj2 (proj1 (Forall_app _ _ _) (eq_rect _ (λ l, Forall _ l) (hm_sizes m) _ Hl))))))
        (malloc_below _ _ _ (proj1 (proj2 H)) (hm_below m)))
  | Halt => λ _, Halt
  | Undef => λ _, Undef
  | OutOfFuel => λ _, OutOfFuel
  end.

(** Freeing what is not held is undefined. *)
Definition hm_free_found (m : heap_memory) (p : Z) (o : option (nat * (Z * Z))) :
    list_find (λ x : Z * Z, x.1 = p) (hm_live m) = o → outcome heap_memory :=
  match o with
  | Some (i, x) => λ E, hm_free_result m p x.2 _ _ (live_split _ _ _ _ E) _ eq_refl
  | None => λ _, Undef
  end.
Definition hm_free (p : Z) (m : heap_memory) : outcome heap_memory := if p =? 0 then Ok m else hm_free_found m p _ eq_refl.

Lemma live_at m p n k : (p, n) ∈ hm_live m → (p, k) ∈ hm_live m → n = k.
Proof.
  intros [i Ei]%list_elem_of_lookup [j Ej]%list_elem_of_lookup. destruct (decide (i = j)) as [->|Hne]; [congruence|].
  pose proof (proj2 (heap_inv_disjoint _ _ (hm_inv m)) i j _ _ Ei Ej Hne) as Hd. unfold disjoint_regions in Hd. cbn [fst snd] in Hd.
  pose proof (Forall_lookup_1 _ _ _ _ (hm_sizes m) Ei). pose proof (Forall_lookup_1 _ _ _ _ (hm_sizes m) Ej). cbn [snd] in *. lia.
Qed.

Lemma hm_malloc_result_Ok m n Hr o E p st' : o = Ok (p, st') → ∃ m', hm_malloc_result m n Hr o E = Ok (p, m') ∧ hm_heap m' = st' ∧
  hm_live m' = (if p =? 0 then hm_live m else (p, n) :: hm_live m) ∧ hm_static m' = hm_static m.
Proof. intros ->. eexists. done. Qed.
Lemma hm_free_result_Ok m p n l1 l2 Hl o E st' : o = Ok st' → ∃ m', hm_free_result m p n l1 l2 Hl o E = Ok m' ∧ hm_heap m' = st' ∧
  hm_live m' = l1 ++ l2 ∧ hm_static m' = hm_static m.
Proof. intros ->. eexists. done. Qed.
Lemma hm_free_found_Ok m p o E i x : o = Some (i, x) → ∃ Hl, hm_free_found m p o E = hm_free_result m p x.2 (take i (hm_live m)) (drop (S i) (hm_live m)) Hl _ eq_refl.
Proof. intros ->. by eexists. Qed.

Lemma hm_load_same m m' a : in_live (hm_live m') a = in_live (hm_live m) a → data (hm_heap m') = data (hm_heap m) → hm_static m' = hm_static m →
  hm_load m' a = hm_load m a.
Proof. intros E1 E2 E3. unfold hm_load, data_byte. by rewrite E1, E2, E3. Qed.

Lemma hm_malloc_spec m n : ¬ provider_may_halt W → room (hm_heap m) n → ∃ p m', hm_malloc n m = Ok (p, m') ∧
  hm_live m' = (if p =? 0 then hm_live m else (p, n) :: hm_live m) ∧ data (hm_heap m') = data (hm_heap m) ∧ hm_static m' = hm_static m ∧ head (hm_heap m') = head (hm_heap m).
Proof.
  intros Hh Hr. pose proof (hm_inv m) as (l & u & Hinv & Hu & Hg). cbn [fst snd] in *. pose proof Hr as [H1 H2].
  destruct (wp_total_1 _ _ (wp_mono_halt _ False _ _ _ (malloc_wp _ _ _ Hinv H1 H2) Hh (λ _ H, H))) as ([p st'] & E & _).
  unfold hm_malloc. destruct (decide (room (hm_heap m) n)) as [Hr'|]; [|done].
  destruct (hm_malloc_result_Ok m n Hr' _ eq_refl p st' E) as (m' & E' & Eh & El & Es). destruct (malloc_head _ _ _ _ _ (hm_inv m) Hr E) as [Ehd Ed].
  exists p, m'. rewrite Eh. by split_and!.
Qed.

Lemma in_live_cons live p n a : in_live ((p, n) :: live) a = (p <=? a) && (a <? p + n) || in_live live a.
Proof. done. Qed.
Lemma in_live_middle l1 l2 p n a : in_live (l1 ++ (p, n) :: l2) a = (p <=? a) && (a <? p + n) || in_live (l1 ++ l2) a.
Proof. unfold in_live. rewrite !existsb_app. cbn [existsb fst snd]. destruct (existsb _ l1), ((p <=? a) && (a <? p + n)), (existsb _ l2); done. Qed.

Lemma inv_head_pos st l : inv st l → 0 < head st.
Proof.
  intros Hinv. destruct (inv_tail _ _ Hinv) as (l' & f & ->). rewrite (inv_head _ _ Hinv). destruct l' as [|[a g] l']; cbn [app first_addr].
  - by destruct (inv_bounds _ [] _ _ _ Hinv) as (? & _).
  - by destruct (inv_bounds _ [] _ _ _ Hinv) as (? & _).
Qed.

(** A block that was just handed out holds no address of another one, nor of the program. *)
Lemma hm_fresh m p n live : hm_live m = (p, n) :: live → ∀ a, p ≤ a < p + n → in_live live a = false ∧ hm_static m !! a = None.
Proof.
  intros El a Ha. destruct (heap_inv_disjoint _ _ (hm_inv m)) as [Hb Hd]. rewrite El in Hb, Hd. split.
  - destruct (in_live live a) eqn:E; [exfalso|done]. apply in_live_spec in E as (q & k & [j Ej]%list_elem_of_lookup & Hq).
    specialize (Hd 0%nat (S j) (p, n) (q, k) eq_refl Ej ltac:(done)). unfold disjoint_regions in Hd. cbn [fst snd] in Hd. lia.
  - destruct (hm_static m !! a) eqn:E; [exfalso|done]. pose proof (hm_below m a _ E) as Hlt. cbn in Hlt.
    destruct (Hb p n ltac:(left)) as (? & _). unfold SIZEOF_LLI in *. lia.
Qed.

Lemma malloc_law_holds m n : ¬ provider_may_halt W → 0 ≤ n → room (hm_heap m) n →
  wp False (hm_malloc n m) (λ '(p, m'), (∀ q k, (q, k) ∈ hm_live m → (q, k) ∈ hm_live m') ∧
    if p =? 0 then ∀ a, hm_load m' a = hm_load m a
    else 0 < p ∧ (p, n) ∈ hm_live m' ∧ mapped m' p n ∧ (∀ a, p ≤ a < p + n → hm_load m a = None) ∧ same_except m m' p n).
Proof.
  intros Hh Hn Hr. destruct (hm_malloc_spec m n Hh Hr) as (p & m' & -> & El & Ed & Es & _). cbn [wp].
  destruct (Z.eqb_spec p 0) as [|Hp0]; [split; [by intros q k; rewrite El|]; intros a; by apply hm_load_same; rewrite ?El|].
  pose proof (hm_fresh m' p n (hm_live m) El) as Hf. split; [intros q k; rewrite El; by right|].
  split; [|split; [rewrite El; left|split; [|split]]].
  - destruct (heap_inv_disjoint _ _ (hm_inv m')) as [Hb _]. destruct (Hb p n) as (H1 & _); [rewrite El; left|].
    destruct (hm_inv m') as (l & u & Hinv & _). cbn [fst] in Hinv. pose proof (inv_head_pos _ _ Hinv). unfold SIZEOF_LLI in *. lia.
  - intros a Ha. unfold mload, heap_byte_memory, hm_load. rewrite El, in_live_cons.
    rewrite (proj2 (andb_true_iff _ _)) by (split; [apply Z.leb_le|apply Z.ltb_lt]; lia). cbn [orb]. eauto.
  - intros a Ha. destruct (Hf a Ha) as [E1 E2]. unfold hm_load. by rewrite E1, <-Es, E2.
  - intros a Ha. apply hm_load_same; [|done|done]. rewrite El, in_live_cons.
    by rewrite (proj2 (andb_false_iff _ _)) by (destruct (Z.leb_spec p a); [right; apply Z.ltb_ge; lia|by left]).
Qed.

Lemma free_law_holds m p n : (p, n) ∈ hm_live m → wp False (hm_free p m) (λ m', same_except m m' p n ∧ ∀ q k, (q, k) ∈ hm_live m → q ≠ p → (q, k) ∈ hm_live m').
Proof.
  intros Hin. destruct (list_find (λ x : Z * Z, x.1 = p) (hm_live m)) as [[i x]|] eqn:Ef.
  2: { exfalso. apply list_find_None in Ef. rewrite Forall_forall in Ef. by apply (Ef _ Hin). }
  assert (p ≠ 0) as Hp0.
  { destruct (heap_inv_disjoint _ _ (hm_inv m)) as [Hb _]. destruct (Hb p n Hin) as (H1 & _). destruct (hm_inv m) as (l & u & Hinv & _).
    cbn [fst] in Hinv. pose proof (inv_head_pos _ _ Hinv). unfold SIZEOF_LLI in *. lia. }
  unfold hm_free. rewrite (proj2 (Z.eqb_neq _ _)) by done.
  destruct (hm_free_found_Ok m p _ eq_refl i x Ef) as (Hl & ->).
  assert (x.2 = n) as En by (apply (live_at m p); [rewrite Hl; apply elem_of_app; right; left|done]).
  pose proof (hm_inv m) as Hi. rewrite Hl in Hi. pose proof Hi as (l & u & Hinv & Hu & Hg). cbn [fst snd] in *.
  apply grows_middle in Hg as (k & u' & _ & Hu' & _).
  destruct (wp_total_1 _ _ (free_wp _ _ p k Hinv ltac:(rewrite Hu, Hu'; left))) as (st' & E & _).
  destruct (free_keeps _ _ _ _ _ _ Hi E) as (_ & _ & Ed).
  destruct (hm_free_result_Ok m p x.2 _ _ Hl _ eq_refl st' E) as (m' & -> & Eh & El & Es). cbn [wp]. split.
  - intros a Ha. apply hm_load_same; [|by rewrite Eh|done]. rewrite El.
    transitivity (in_live (take i (hm_live m) ++ (p, x.2) :: drop (S i) (hm_live m)) a); [|by rewrite <-Hl]. rewrite in_live_middle, En.
    rewrite (proj2 (andb_false_iff _ _)); [done|]. destruct (Z.leb_spec p a); [right; apply Z.ltb_ge; lia|by left].
  - intros q k' Hq Hne. rewrite El. rewrite Hl in Hq. apply elem_of_app in Hq as [Hq|[Hq|Hq]%elem_of_cons]; apply elem_of_app; [by left|congruence|by right].
Qed.

Lemma hm_block_store m a v m' q k : hm_store m a v = Some m' → (q, k) ∈ hm_live m → (q, k) ∈ hm_live m'.
Proof.
  unfold hm_store. destruct (in_live (hm_live m) a); [by intros [= <-]|]. by intros (_ & -> & _)%hm_store_static_Some.
Qed.
End heap.
Arguments heap_memory W {_}.

(** A page provider that never stops the machine; the one of the C library returns what it could get. *)
Class NeverHalts (W : Type) `{!HeapProvider W} := never_halts : ¬ provider_may_halt W.

#[export] Instance heap_cheap {W} `{!HeapProvider W} `{!NeverHalts W} : CHeap (heap_memory W) := {
  block m p n := (p, n) ∈ hm_live m;
  fits m n := room (hm_heap m) n;
  malloc n m := hm_malloc n m;
  free p m := hm_free p m;
  malloc_law m n H1 H2 := malloc_law_holds m n never_halts H1 H2;
  free_law := free_law_holds;
  block_store := hm_block_store
}.

(** ** calloc *)
Section calloc.
Context {M K : Type} `{!ByteMemory M} `{!CHeap M}.
Implicit Types (p : process M K).

Lemma on_mem_eq {A} (f : M → outcome (A * M)) p : on_mem f p = ('(a, m) ← f (u_mem p); Ok (a, with_mem_kernel m (u_kernel p) p)).
Proof. done. Qed.

Lemma memset_block (m m' : M) s c n r q k : memset s c n m = Ok (r, m') → block m q k → block m' q k.
Proof.
  intros (m1 & E & E2)%bind_Ok Hb. injection E2 as _ <-. eapply (c_foreach_Ok (λ m, block m q k)); [|exact Hb|exact E].
  intros j m2 m3 H2 E3%or_undef_Ok. by eapply block_store.
Qed.

(** [calloc] returns a null pointer, or a fresh block whose bytes are all zero; the block has as many bytes as the
    product of the sizes has modulo 2^64, so that a product that does not fit gives a block that is too small. *)
Theorem calloc_spec nmemb sz p : let n := u64 (nmemb * sz) in fits (u_mem p) n →
  ∃ r p', calloc nmemb sz p = Ok (r, p') ∧
    if r =? 0 then ∀ a, mload (u_mem p') a = mload (u_mem p) a
    else block (u_mem p') r n ∧ bytes_at (u_mem p') r (replicate (Z.to_nat n) 0) ∧ same_except (u_mem p) (u_mem p') r n ∧
      ∀ a, r ≤ a < r + n → mload (u_mem p) a = None.
Proof.
  intros n Hfits. assert (0 ≤ n) as Hn by (apply Z.mod_pos_bound; lia). unfold calloc. fold n.
  destruct (wp_total_1 _ _ (malloc_law (u_mem p) n Hn Hfits)) as ([r m1] & E1 & _ & H1).
  rewrite (io_bind_Ok (on_mem (malloc n)) _ p r (with_mem_kernel m1 (u_kernel p) p)) by (by rewrite on_mem_eq, E1).
  destruct (Z.eqb_spec r 0) as [->|Hr]; [eexists 0, _; split; [done|exact H1]|]. destruct H1 as (Hr0 & Hb & Hm & Hfresh & Hs).
  destruct (wp_total_1 _ _ (memset_spec m1 r 0 n Hn Hm)) as ([r' m2] & E2 & -> & H2).
  rewrite (io_bind_Ok (on_mem (memset r 0 n)) _ _ r (with_mem_kernel m2 (u_kernel p) p)) by (by rewrite on_mem_eq; cbn [u_mem with_mem_kernel]; rewrite E2).
  eexists r, _. split; [done|]. rewrite (proj2 (Z.eqb_neq _ _)) by done. cbn [u_mem with_mem_kernel].
  split; [by eapply memset_block|]. split; [|split; [|done]].
  - intros i v Hi. pose proof (lookup_lt_Some _ _ _ Hi) as Hlt. rewrite length_replicate in Hlt. apply lookup_replicate in Hi as [-> _].
    by rewrite H2, decide_True by lia.
  - intros a Ha. rewrite H2, decide_False by lia. by apply Hs.
Qed.
End calloc.

(** ** A process with one page of heap at 8192 *)
Module LibcHeapExamples.
Import MallocExamples.
#[export] Instance pages_always : NeverHalts () := all_pages_run.

Lemma init_inv : heap_inv (init_ex, []).
Proof.
  exists [(8192, true)], []. split; [|split; [done|constructor]]. constructor; try done. by exists [], true.
Qed.

Lemma static_below : map_Forall (λ a (_ : Z), a < head init_ex) ({[100 := 7]} : gmap Z Z).
Proof. apply map_Forall_singleton. vm_compute. reflexivity. Qed.

Definition heap_process : process (heap_memory ()) () :=
  Process (HeapMemory init_ex [] {[100 := 7]} init_inv (Forall_nil_2 _) static_below) () 0 0 0 0 0.

Lemma calloc_spec_witness : ∃ r p', calloc 3 5 heap_process = Ok (r, p') ∧
  if r =? 0 then ∀ a, mload (u_mem p') a = mload (u_mem heap_process) a
  else block (u_mem p') r 15 ∧ bytes_at (u_mem p') r (replicate 15 0) ∧ same_except (u_mem heap_process) (u_mem p') r 15 ∧
    ∀ a, r ≤ a < r + 15 → mload (u_mem heap_process) a = None.
Proof. apply (calloc_spec 3 5 heap_process). split; vm_compute; done. Defined.
End LibcHeapExamples.
