(* ===== verification/Path.v ===== *)
(** * Paths and mounts: stuos/src/fs.c

    [vfs_get] walks a path from the root. fs.c calls [directory_lookup], [is_eq_vnode] and [is_null_vnode], whose source is in fs2.rs.  What no file declares
    is an argument: [path_segment_len], the number of characters up to the next slash; the enumeration [StepPathResult]; the array of mounts.  The operations
    of a node go through its table; they are arguments as well. *)
From S2P Require Import Prelude Vfs Syscalls Unistd Pipes.
#[local] Open Scope list_scope.

Definition ROOT_INODE_NUM : Z := 69.
Definition TMPFS_DEV : Z := 70.
Definition O_NONBLOCK : Z := 64.

#[export] Instance vnode_ops_eq_dec : EqDecision vnode_ops.
Proof. solve_decision. Defined.
#[export] Instance VNode_eq_dec : EqDecision VNode.
Proof. solve_decision. Defined.

(** fs2.rs *)
Definition is_eq_vnode (a b : VNode) : bool := bool_decide (a = b).
Definition is_null_vnode (v : VNode) : bool := (inode (id v) =? 0) && (mount_id (id v) =? 0) && bool_decide (ops v = NoOps).

(** ** The file system at the root: one directory, dev *)
Definition tmpfs_stat_file (id : VNodeData) : outcome stat :=
  _ ← hcf_if (negb (mount_id id =? 0));
  if (inode id =? ROOT_INODE_NUM) || (inode id =? TMPFS_DEV) then Ok (Stat (inode id) S_IFDIR 0 0 0) else Halt.

Definition tmpfs_entries : list (dirent * VNode) := [(Dirent TMPFS_DEV [100; 101; 118], MkVNode (VNodeId TMPFS_DEV 0) TmpDirOps)].
(** The entries that are stored in the two buffers. *)
Definition tmpfs_read_dirents (dirent_index dirent_count : Z) : list (dirent * VNode) :=
  take (Z.to_nat dirent_count) (drop (Z.to_nat dirent_index) tmpfs_entries).

Definition vfs_get_root : VNode := MkVNode (VNodeId ROOT_INODE_NUM 0) TmpRootOps.

(** ** Mounts: an array; the part that is filled ends with an entry whose replacement is the null node *)
Record MountPoint := MkMountPoint { mp_parent : VNode; mp_replacement : VNode }.

(** The loop of [vfs_add_mount]; [mounts - curr] is never positive, so that the test for the end of the array never holds. *)
Fixpoint add_mount (MAX_MOUNTS : Z) (curr : Z) (mounts : list MountPoint) (m : MountPoint) : outcome (list MountPoint) :=
  match mounts with
  | [] => Undef
  | x :: rest =>
      if is_null_vnode (mp_replacement x) then Ok (m :: rest)
      else
        _ ← hcf_if (is_eq_vnode (mp_parent x) (mp_parent m));
        _ ← hcf_if (- curr =? MAX_MOUNTS);
        rest ← add_mount MAX_MOUNTS (curr + 1) rest m; Ok (x :: rest)
  end.
Definition vfs_add_mount (mounts : list MountPoint) (mount_against filesystem_root : VNode) : outcome (list MountPoint) :=
  add_mount (Z.of_nat (length mounts)) 0 mounts (MkMountPoint mount_against filesystem_root).

(** The enumeration is declared outside the tree. Its four constants are the case labels of one switch in [vfs_get]: C requires that they differ. *)
Class StepPathResult := {
  STEPPATH_COMPLETE : Z; STEPPATH_INPROGRESS : Z; STEPPATH_NOTEXIST_LAST : Z; STEPPATH_NOTEXIST : Z;
  steppath_distinct : NoDup [STEPPATH_COMPLETE; STEPPATH_INPROGRESS; STEPPATH_NOTEXIST_LAST; STEPPATH_NOTEXIST]
}.

(** ** [CStr::to_str]: the bytes must be UTF-8 *)
Definition utf8_between (lo hi b : Z) : bool := (lo <=? b) && (b <=? hi).
Definition utf8_continuation : Z → bool := utf8_between 0x80 0xBF.
(** The bytes that may follow the first byte of a sequence of three or of four: no encoding that is too long, no surrogate, nothing above 0x10FFFF. *)
Definition utf8_second_of_3 (a : Z) : Z → bool :=
  utf8_between (if a =? 0xE0 then 0xA0 else 0x80) (if a =? 0xED then 0x9F else 0xBF).
Definition utf8_second_of_4 (a : Z) : Z → bool :=
  utf8_between (if a =? 0xF0 then 0x90 else 0x80) (if a =? 0xF4 then 0x8F else 0xBF).

Fixpoint from_utf8_ok (l : list Z) : bool :=
  match l with
  | [] => true
  | a :: l1 => if a <? 0x80 then from_utf8_ok l1 else
    match l1 with
    | [] => false
    | b :: l2 => if utf8_between 0xC2 0xDF a then utf8_continuation b && from_utf8_ok l2 else
      match l2 with
      | [] => false
      | c :: l3 => if utf8_between 0xE0 0xEF a then utf8_second_of_3 a b && utf8_continuation c && from_utf8_ok l3 else
        match l3 with
        | [] => false
        | d :: l4 => utf8_between 0xF0 0xF4 a && utf8_second_of_4 a b && utf8_continuation c && utf8_continuation d && from_utf8_ok l4
        end
      end
    end
  end.

(** [to_str().unwrap()]; a [&str] is its bytes. *)
Definition to_str_unwrap (l : list Z) : outcome (list Z) := if from_utf8_ok l then Ok l else Halt.

Section path.
Context {W : Type} `{spr : !StepPathResult} (stat_file : VNode → io W stat) (read_dirents : VNode → Z → Z → io W (list (dirent * VNode)))
  (create_inode : VNode → Z → list Z → io W Z) (ftruncate : VNode → Z → io W ()) (path_segment_len : list Z → Z)
  (fuel : nat) (mounts : list MountPoint).

(** fs2.rs: the entries are read one by one; [name] is a [&str]. *)
Definition directory_lookup (dir : VNode) (name : list Z) : io W (option VNode) :=
  io_while fuel (λ offset,
    l ← read_dirents dir offset 1;
    match l with
    | [] => mret (inr None)
    | [(d, v)] =>
        item_name ← lift (to_str_unwrap (until_nul (d_name d)));
        mret (if bool_decide (item_name = name) then inr (Some v) else inl (offset + 1))
    | _ => lift Halt
    end) 0.

(** The loop over the mounts. *)
Definition find_mount (current : VNode) : option VNode :=
  mp_replacement <$> head (filter (λ m, mp_parent m = current) mounts).

(** [path] is the characters up to the terminator; the result has the new node and [path_start], which may be a null pointer. *)
Definition step_path2 (current : VNode) (path : list Z) : io W (Z * VNode * option (list Z)) :=
  if bool_decide (head path = Some 47) then mret (STEPPATH_INPROGRESS, vfs_get_root, Some (tail path))
  else
    match find_mount current with
    | Some replacement => mret (STEPPATH_INPROGRESS, replacement, Some path)
    | None =>
        if bool_decide (path = []) then mret (STEPPATH_COMPLETE, current, None)
        else
          let segment_len := path_segment_len path in
          let rest := drop (Z.to_nat segment_len) path in
          let must_be_folder := bool_decide (rest = [47]) in
          let was_last_segment := bool_decide (rest = []) || must_be_folder in
          result ← directory_lookup current (take (Z.to_nat segment_len) path);
          match result with
          | None => mret (if was_last_segment then STEPPATH_NOTEXIST_LAST else STEPPATH_NOTEXIST, current, Some path)
          | Some result =>
              _ ← (if must_be_folder then st ← stat_file result; lift (hcf_if (negb (S_ISDIR (st_mode st)))) else mret ());
              mret (if was_last_segment then (STEPPATH_COMPLETE, result, None)
                    else (STEPPATH_INPROGRESS, result, Some (drop (Z.to_nat (segment_len + 1)) path)))
          end
    end.

(** [while(cwd_path)] *)
Definition cwd_step (s : VNode * option (list Z)) : io W (VNode * option (list Z) + VNode) :=
  let '(location, path) := s in
  match path with
  | None => mret (inr location)
  | Some path =>
      '(r, location, path) ← step_path2 location path;
      if (r =? STEPPATH_COMPLETE) || (r =? STEPPATH_INPROGRESS) then mret (inl (location, path))
      else if (r =? STEPPATH_NOTEXIST_LAST) || (r =? STEPPATH_NOTEXIST) then lift Halt
      else mret (inl (location, path))
  end.
Definition walk_cwd (location : VNode) (cwd_path : list Z) : io W VNode := io_while fuel cwd_step (location, Some cwd_path).

(** [while(path)] *)
Definition path_step (open_flags : Z) (s : VNode * option (list Z) * bool) : io W (VNode * option (list Z) * bool + VNode) :=
  let '(location, path, dbg_have_created_inode) := s in
  match path with
  | None => mret (inr location)
  | Some path =>
      '(r, location, path) ← step_path2 location path;
      if (r =? STEPPATH_COMPLETE) || (r =? STEPPATH_INPROGRESS) then mret (inl (location, path, dbg_have_created_inode))
      else if r =? STEPPATH_NOTEXIST_LAST then
          if negb (Z.land open_flags O_CREAT =? 0) then
            _ ← lift (hcf_if (negb (Z.land open_flags O_DIRECTORY =? 0)));
            _ ← lift (c_assert (negb dbg_have_created_inode));
            _ ← create_inode location S_IFREG (default [] path);
            mret (inl (location, path, true))
          else lift Halt
      else lift Halt
  end.
Definition walk_path (open_flags : Z) (location : VNode) (path : list Z) : io W VNode :=
  io_while fuel (path_step open_flags) (location, Some path, false).

(** What [vfs_get] checks and does when it has found the node. *)
Definition open_checks (open_flags : Z) (location : VNode) : io W () :=
  st ← stat_file location;
  let location_mode := st_mode st in
  let flag f := negb (Z.land open_flags f =? 0) in
  _ ← lift (hcf_if (negb (S_ISDIR location_mode) && flag O_DIRECTORY));
  _ ← lift (hcf_if (S_ISDIR location_mode && negb (flag O_DIRECTORY)));
  _ ← lift (hcf_if (flag O_NONBLOCK));
  _ ← (if flag O_TRUNC then _ ← lift (hcf_if (negb (S_ISREG location_mode))); ftruncate location 0 else mret ());
  lift (hcf_if (flag O_APPEND)).

Definition vfs_get (cwd_path path : list Z) (open_flags : Z) : io W VNode :=
  location ← walk_cwd vfs_get_root cwd_path;
  location ← walk_path open_flags location path;
  _ ← open_checks open_flags location;
  mret location.
End path.
