(* ===== verification/PathSpec.v ===== *)
(** * What a path names *)
From S2P Require Import Prelude Bytes Wchar WcharSpec Vfs Pipes Syscalls Unistd Path.
#[local] Open Scope list_scope.

(** ** UTF-8: what [to_str] accepts are the encodings that mbrtowc decodes, but for the surrogates *)
Definition scalar_value (c : Z) : Prop := 0 ≤ c < 0xD800 ∨ 0xE000 ≤ c ≤ 0x10FFFF.

Lemma between_spec lo hi b : utf8_between lo hi b = true ↔ lo ≤ b ≤ hi.
Proof. unfold utf8_between. lia. Qed.

Lemma between_false lo hi b : hi < b → utf8_between lo hi b = false.
Proof. unfold utf8_between. lia. Qed.

Lemma from_utf8_encode c l : scalar_value c → from_utf8_ok (utf8_encode c ++ l) = from_utf8_ok l.
Proof.
  unfold scalar_value, utf8_encode. intros Hc. destruct (Z.ltb_spec c 0x80); [|destruct (Z.ltb_spec c 0x800); [|destruct (Z.ltb_spec c 0x10000)]];
    cbn [app from_utf8_ok]; unfold utf8_second_of_3, utf8_second_of_4, utf8_continuation.
  - by rewrite (proj2 (Z.ltb_lt _ _)) by lia.
  - rewrite (proj2 (Z.ltb_ge _ _)) by dlia. by rewrite !(proj2 (between_spec _ _ _)) by dlia.
  - rewrite (proj2 (Z.ltb_ge _ _)) by dlia. rewrite (between_false 0xC2) by dlia.
    destruct (Z.eqb_spec (0xE0 + c `div` 4096) 0xE0), (Z.eqb_spec (0xE0 + c `div` 4096) 0xED); by rewrite !(proj2 (between_spec _ _ _)) by dlia.
  - rewrite (proj2 (Z.ltb_ge _ _)) by dlia. rewrite (between_false 0xC2), (between_false 0xE0) by dlia.
    destruct (Z.eqb_spec (0xF0 + c `div` 262144) 0xF0), (Z.eqb_spec (0xF0 + c `div` 262144) 0xF4); by rewrite !(proj2 (between_spec _ _ _)) by dlia.
Qed.

Lemma from_utf8_string cs : Forall scalar_value cs → from_utf8_ok (utf8_string cs) = true.
Proof.
  induction 1 as [|c cs Hc Hcs IH]; [done|]. change (utf8_string (c :: cs)) with (utf8_encode c ++ utf8_string cs). by rewrite from_utf8_encode.
Qed.

Lemma from_utf8_first a l : is_byte a → from_utf8_ok (a :: l) = true → ∃ c l', scalar_value c ∧ a :: l = utf8_encode c ++ l' ∧ from_utf8_ok l' = true.
Proof.
  unfold is_byte, scalar_value. intros Ha H. cbn [from_utf8_ok] in H. destruct (Z.ltb_spec a 0x80).
  { exists a, l. unfold utf8_encode. rewrite (proj2 (Z.ltb_lt a 0x80)) by lia. split; [lia|]. done. }
  destruct l as [|b l]; [done|]. destruct (utf8_between 0xC2 0xDF a) eqn:E2.
  { unfold utf8_continuation in H. zbool. rewrite !between_spec in *. exists ((a - 0xC0) * 64 + (b - 0x80)), l. unfold utf8_encode.
    split; [lia|]. split; [|done]. repeat (case_if; try lia). cbn [app]. repeat f_equal; dlia. }
  destruct l as [|c l]; [done|]. destruct (utf8_between 0xE0 0xEF a) eqn:E3.
  { unfold utf8_continuation, utf8_second_of_3 in H. zbool. rewrite !between_spec in *.
    exists ((a - 0xE0) * 4096 + (b - 0x80) * 64 + (c - 0x80)), l. unfold utf8_encode.
    destruct (Z.eqb_spec a 0xE0), (Z.eqb_spec a 0xED); (split; [lia|]; split; [|done]; repeat (case_if; try lia); cbn [app]; repeat f_equal; dlia). }
  destruct l as [|d l]; [done|]. unfold utf8_continuation, utf8_second_of_4 in H. zbool. rewrite !between_spec in *.
  exists ((a - 0xF0) * 262144 + (b - 0x80) * 4096 + (c - 0x80) * 64 + (d - 0x80)), l. unfold utf8_encode.
  destruct (Z.eqb_spec a 0xF0), (Z.eqb_spec a 0xF4); (split; [lia|]; split; [|done]; repeat (case_if; try lia); cbn [app]; repeat f_equal; dlia).
Qed.

(** [from_utf8_ok] accepts the encodings of Unicode scalar values, and nothing else. *)
Lemma from_utf8_ok_spec l : Forall is_byte l → from_utf8_ok l = true ↔ ∃ cs, Forall scalar_value cs ∧ l = utf8_string cs.
Proof.
  intros Hl. split; [|intros (cs & Hcs & ->); by apply from_utf8_string].
  revert l Hl. apply (well_founded_ind (well_founded_ltof _ length) (λ l, Forall is_byte l → from_utf8_ok l = true → ∃ cs, Forall scalar_value cs ∧ l = utf8_string cs)).
  intros [|a l] IH Hl H; [by exists []|]. pose proof Hl as [Ha _]%Forall_cons.
  destruct (from_utf8_first a l Ha H) as (c & l' & Hc & E & H'). rewrite E in Hl. apply Forall_app in Hl as [_ Hl'].
  destruct (IH l') as (cs & Hcs & ->); [|done|done|exists (c :: cs); rewrite E; split; [by constructor|done]].
  unfold ltof. rewrite E, length_app. pose proof (utf8_length c ltac:(unfold scalar_value in Hc; lia)). lia.
Qed.

Section walk.
Context {W : Type} `{spr : !StepPathResult} (stat_file : VNode → io W stat) (read_dirents : VNode → Z → Z → io W (list (dirent * VNode)))
  (create_inode : VNode → Z → list Z → io W Z) (ftruncate : VNode → Z → io W ()) (path_segment_len : list Z → Z)
  (fuel : nat) (mounts : list MountPoint).

(** The nodes that are directories with their entries, and the modes; reading them may change the state (the cache of a disk) but not these. *)
Context (dir : VNode → option (list (dirent * VNode))) (mode : VNode → option Z) (I : W → Prop).
Hypothesis read_law : ∀ v l i w, dir v = Some l → I w → ∃ w', read_dirents v (Z.of_nat i) 1 w = Ok (take 1 (drop i l), w') ∧ I w'.
Hypothesis stat_law : ∀ v m w, mode v = Some m → I w → ∃ st w', stat_file v w = Ok (st, w') ∧ st_mode st = m ∧ I w'.
Hypothesis segment_law : ∀ s rest, 47 ∉ s → path_segment_len (s ++ 47 :: rest) = Z.of_nat (length s).
Hypothesis segment_end_law : ∀ s, 47 ∉ s → path_segment_len s = Z.of_nat (length s).

Abbreviation find_mount := (find_mount mounts).
Abbreviation step_path2 := (step_path2 stat_file read_dirents path_segment_len fuel mounts).
Abbreviation cwd_step := (cwd_step stat_file read_dirents path_segment_len fuel mounts).
Abbreviation path_step := (path_step stat_file read_dirents create_inode path_segment_len fuel mounts).
Abbreviation vfs_get := (vfs_get stat_file read_dirents create_inode ftruncate path_segment_len fuel mounts).

(** ** Directories *)

(** What the scan of the entries finds. It stops at the name, and the kernel stops at a name that is not UTF-8 if that comes first. *)
Fixpoint find_entry (l : list (dirent * VNode)) (name : list Z) : outcome (option VNode) :=
  match l with
  | [] => Ok None
  | (d, v) :: l =>
      item_name ← to_str_unwrap (until_nul (d_name d));
      if bool_decide (item_name = name) then Ok (Some v) else find_entry l name
  end.
Definition entry (v : VNode) (name : list Z) : outcome (option VNode) := match dir v with Some l => find_entry l name | None => Undef end.

Lemma directory_lookup_spec v name w l0 : I w → dir v = Some l0 → (length l0 < fuel)%nat →
  ∃ w', directory_lookup read_dirents fuel v name w = (r ← entry v name; Ok (r, w')) ∧ I w'.
Proof.
  intros Hw Hv Hf. unfold directory_lookup, entry. rewrite Hv.
  cut (∀ l i fuel' w, drop i l0 = l → (length l < fuel')%nat → I w → ∃ w',
    io_while fuel' (λ offset, l ← read_dirents v offset 1;
      match l with
      | [] => mret (inr None)
      | [(d, x)] => item_name ← lift (to_str_unwrap (until_nul (d_name d)));
          mret (if bool_decide (item_name = name) then inr (Some x) else inl (offset + 1))
      | _ => lift Halt
      end) (Z.of_nat i) w = (r ← find_entry l name; Ok (r, w')) ∧ I w').
  { intros H. by apply (H l0 0%nat fuel w). }
  clear w Hw Hf. induction l as [|[d x] l IH]; intros i [|fuel'] w Hl Hf Hw; cbn [length] in Hf; try lia;
    destruct (read_law v l0 i w Hv Hw) as (w1 & E & Hw1); rewrite Hl in E; unfold io_while; cbn [c_while]; rewrite (io_bind_Ok _ _ _ _ _ E).
  - exists w1. by split; [reflexivity|].
  - change (take 1 ((d, x) :: l)) with [(d, x)]. cbn [find_entry].
    destruct (to_str_unwrap _) as [a| | |]; [|exists w1; by split; [reflexivity|]..].
    rewrite (io_bind_Ok (lift (Ok a)) _ w1 a w1 eq_refl). cbn [mbind outcome_bind]. case_bool_decide; [exists w1; by split; [reflexivity|]|].
    destruct (IH (S i) fuel' w1) as (w2 & E2 & Hw2); [|lia|done|].
    { rewrite <-Nat.add_1_r, <-drop_drop, Hl. done. }
    exists w2. split; [|done]. replace (Z.of_nat (S i)) with (Z.of_nat i + 1) in E2 by lia. exact E2.
Qed.

(** Where every name is UTF-8 the scan is the first entry of that name. *)
Definition readable (x : dirent * VNode) : Prop := from_utf8_ok (until_nul (d_name x.1)) = true.
Lemma find_entry_readable l name : Forall readable l → find_entry l name = Ok (snd <$> head (filter (λ x, until_nul (d_name x.1) = name) l)).
Proof.
  induction 1 as [|[d v] l Hr Hl IH]; [done|]. cbn [find_entry]. unfold to_str_unwrap. unfold readable in Hr. cbn [fst] in Hr. rewrite Hr. cbn [mbind outcome_bind].
  case_bool_decide as E; [by rewrite filter_cons_True by done|rewrite filter_cons_False by done; apply IH].
Qed.

Lemma utf8_ascii l : Forall (λ b, 0 ≤ b < 128) l → from_utf8_ok l = true.
Proof. induction 1 as [|b l Hb Hl IH]; [done|]. cbn [from_utf8_ok]. by rewrite (proj2 (Z.ltb_lt _ _)) by lia. Qed.

(** A name that is not UTF-8 before the one that is looked for, and the kernel panics. *)
Lemma unreadable_name_halts l1 x l2 name : Forall readable l1 → Forall (λ y, until_nul (d_name y.1) ≠ name) l1 →
  from_utf8_ok (until_nul (d_name x.1)) = false → find_entry (l1 ++ x :: l2) name = Halt.
Proof.
  intros Hr Hn Hx. induction Hr as [|[d v] l1 Hd Hr IH]; cbn [app find_entry]; unfold to_str_unwrap.
  - destruct x. cbn [fst] in Hx. by rewrite Hx.
  - apply Forall_cons in Hn as [Hne Hn]. unfold readable in Hd. cbn [fst] in Hd, Hne. rewrite Hd. cbn [mbind outcome_bind]. rewrite bool_decide_false by done. by apply IH.
Qed.

Lemma entry_dir v name r : entry v name = Ok r → ∃ l, dir v = Some l.
Proof. unfold entry. destruct (dir v); [eauto|done]. Qed.

(** ** Steps and walks *)

(** Mounts are followed until a node carries none. *)
Inductive settles : VNode → VNode → nat → Prop :=
  | settled v : find_mount v = None → settles v v 0
  | settles_mount v r u n : find_mount v = Some r → settles r u n → settles v u (S n).

(** The node that the components lead to: mounts are followed before a component is looked up, and at the end of a path without components, but not at the
    last component. The number is that of the steps. *)
Inductive walks : VNode → list (list Z) → VNode → nat → Prop :=
  | walks_end v u n : settles v u n → walks v [] u (S n)
  | walks_last v u n s x : settles v u n → entry u s = Ok (Some x) → walks v [s] x (S n)
  | walks_step v u n s x segs y k : settles v u n → entry u s = Ok (Some x) → segs ≠ [] → walks x segs y k → walks v (s :: segs) y (S n + k).

Definition segment_ok (s : list Z) : Prop := s ≠ [] ∧ 47 ∉ s.
Fixpoint text (segs : list (list Z)) : list Z :=
  match segs with [] => [] | [s] => s | s :: segs => s ++ 47 :: text segs end.

Lemma text_head s segs : segment_ok s → head (text (s :: segs)) ≠ Some 47 ∧ text (s :: segs) ≠ [].
Proof.
  intros [Hne Hs]. destruct s as [|c s]; [done|]. apply not_elem_of_cons in Hs as [Hc _].
  destruct segs; cbn; (split; [by intros [= ->]|done]).
Qed.

Lemma step_root v path w : step_path2 v (47 :: path) w = Ok ((STEPPATH_INPROGRESS, vfs_get_root, Some path), w).
Proof. done. Qed.

Lemma step_mount v r path w : head path ≠ Some 47 → find_mount v = Some r → step_path2 v path w = Ok ((STEPPATH_INPROGRESS, r, Some path), w).
Proof. intros Hp Hm. unfold Path.step_path2. by rewrite bool_decide_false, Hm. Qed.

Lemma step_end v w : find_mount v = None → step_path2 v [] w = Ok ((STEPPATH_COMPLETE, v, None), w).
Proof. intros Hm. unfold Path.step_path2. by rewrite bool_decide_false, Hm. Qed.

(** A component and what follows it. *)
Lemma step_segment v l s rest w : I w → dir v = Some l → (length l < fuel)%nat → find_mount v = None → segment_ok s →
  (rest = [] ∨ ∃ t, rest = 47 :: t ∧ t ≠ []) → ∃ w', I w' ∧
  step_path2 v (s ++ rest) w = r ← entry v s; Ok (match r with
    | Some x => if bool_decide (rest = []) then (STEPPATH_COMPLETE, x, None) else (STEPPATH_INPROGRESS, x, Some (tail rest))
    | None => (if bool_decide (rest = []) then STEPPATH_NOTEXIST_LAST else STEPPATH_NOTEXIST, v, Some (s ++ rest))
    end, w').
Proof.
  intros Hw Hv Hf Hm [Hne Hs] Hrest. destruct (directory_lookup_spec v s w l Hw Hv Hf) as (w' & E & Hw'). exists w'. split; [done|].
  assert (path_segment_len (s ++ rest) = Z.of_nat (length s)) as El.
  { destruct Hrest as [->|(t & -> & _)]; [rewrite app_nil_r; by apply segment_end_law|by apply segment_law]. }
  unfold Path.step_path2. rewrite bool_decide_false by (destruct s as [|c s]; [done|]; apply not_elem_of_cons in Hs as [Hc _]; cbn; by intros [= ->]).
  rewrite Hm, bool_decide_false by (by destruct s). rewrite El, Nat2Z.id, take_app_length, drop_app_length.
  assert (rest ≠ [47]) as H47 by (destruct Hrest as [->|(t & -> & Ht)]; [done|by intros [= ->]]).
  rewrite (bool_decide_false (rest = [47])) by done. rewrite orb_false_r. destruct (entry v s) as [[x|]| | |] eqn:He; cbn [mbind outcome_bind] in E |- *;
    [rewrite (io_bind_Ok _ _ _ _ _ E)|rewrite (io_bind_Ok _ _ _ _ _ E); by case_bool_decide|unfold mbind at 1, io_bind; by rewrite E..]. replace (Z.to_nat (Z.of_nat (length s) + 1)) with (S (length s)) by lia.
  destruct Hrest as [->|(t & -> & _)]; [done|]. rewrite bool_decide_false by done. cbn [tail].
  assert (drop (S (length s)) (s ++ 47 :: t) = t) as ->; [|done].
  rewrite cons_middle, app_assoc. apply drop_app_length'. rewrite length_app. cbn. lia.
Qed.

(** ** The loops: a path is used up in a number of steps *)
Hypothesis small_dirs : ∀ v l, dir v = Some l → (length l < fuel)%nat.

Definition steps_to (v : VNode) (p : list Z) (r : Z) (v' : VNode) (p' : option (list Z)) : Prop :=
  ∀ w, I w → ∃ w', I w' ∧ step_path2 v p w = Ok ((r, v', p'), w').

Inductive resolves : VNode → list Z → VNode → nat → Prop :=
  | resolves_last v p x : steps_to v p STEPPATH_COMPLETE x None → resolves v p x 1
  | resolves_more v p v' p' x n : steps_to v p STEPPATH_INPROGRESS v' (Some p') → resolves v' p' x n → resolves v p x (S n).

Lemma steps_to_pure v p r v' p' : (∀ w, step_path2 v p w = Ok ((r, v', p'), w)) → steps_to v p r v' p'.
Proof. intros H w Hw. exists w. by rewrite H. Qed.

Lemma resolves_root v p x n : resolves vfs_get_root p x n → resolves v (47 :: p) x (S n).
Proof. apply resolves_more, steps_to_pure. intros w. apply step_root. Qed.

Lemma resolves_mounts v u n p x k : head p ≠ Some 47 → settles v u n → resolves u p x k → resolves v p x (n + k).
Proof.
  intros Hp Hs Hr. induction Hs as [|v r u n Hm Hs IH]; [done|]. cbn [Nat.add].
  eapply resolves_more; [|by apply IH]. apply steps_to_pure. intros w. by apply step_mount.
Qed.

Lemma settles_none v u n : settles v u n → find_mount u = None.
Proof. induction 1; done. Qed.

Lemma steps_last v s x : find_mount v = None → segment_ok s → entry v s = Ok (Some x) → steps_to v s STEPPATH_COMPLETE x None.
Proof.
  intros Hm Hs He w Hw. destruct (entry_dir _ _ _ He) as [l Hl].
  destruct (step_segment v l s [] w Hw Hl (small_dirs v l Hl) Hm Hs (or_introl eq_refl)) as (w' & Hw' & E).
  exists w'. split; [done|]. by rewrite app_nil_r, He in E.
Qed.

Lemma steps_more v s t x : find_mount v = None → segment_ok s → entry v s = Ok (Some x) → t ≠ [] → steps_to v (s ++ 47 :: t) STEPPATH_INPROGRESS x (Some t).
Proof.
  intros Hm Hs He Ht w Hw. destruct (entry_dir _ _ _ He) as [l Hl].
  destruct (step_segment v l s (47 :: t) w Hw Hl (small_dirs v l Hl) Hm Hs) as (w' & Hw' & E); [by right; exists t|].
  exists w'. split; [done|]. by rewrite He in E.
Qed.

Lemma text_cons s segs : segs ≠ [] → text (s :: segs) = s ++ 47 :: text segs.
Proof. by destruct segs. Qed.

Lemma walks_resolves v segs x n : Forall segment_ok segs → walks v segs x n → resolves v (text segs) x n.
Proof.
  intros Hok Hw. induction Hw as [v u n Hs|v u n s x Hs He|v u n s x segs y k Hs He Hne Hw IH].
  - rewrite <-Nat.add_1_r. apply (resolves_mounts v u); [done..|]. apply resolves_last, steps_to_pure. intros w. apply step_end. by eapply settles_none.
  - apply Forall_cons in Hok as [Hs1 _]. rewrite <-Nat.add_1_r. apply (resolves_mounts v u); [by apply (text_head s [])|done|].
    apply resolves_last, steps_last; [by eapply settles_none|done..].
  - apply Forall_cons in Hok as [Hs1 Hok]. rewrite Nat.add_succ_comm. apply (resolves_mounts v u); [by apply text_head|done|].
    rewrite text_cons by done. eapply resolves_more; [|by apply IH]. apply steps_more; [by eapply settles_none|done..|].
    destruct segs as [|s2 segs]; [done|]. apply Forall_cons in Hok as [Hs2 _]. by apply text_head.
Qed.

(** A loop body that goes on from a node that was found; [f] is the state of the loop. *)
Definition follows {S} (f : VNode → option (list Z) → S) (step : S → io W (S + VNode)) : Prop :=
  (∀ v w, step (f v None) w = Ok (inr v, w)) ∧
  (∀ v p r v' p' w w', step_path2 v p w = Ok ((r, v', p'), w') → r = STEPPATH_COMPLETE ∨ r = STEPPATH_INPROGRESS →
    step (f v (Some p)) w = Ok (inl (f v' p'), w')).

Lemma loop_resolves {S} f (step : S → io W (S + VNode)) v p x n fuel' w : follows f step → resolves v p x n → (n < fuel')%nat → I w →
  ∃ w', io_while fuel' step (f v (Some p)) w = Ok (x, w') ∧ I w'.
Proof.
  intros [Hend Hstep] Hr. revert fuel' w. induction Hr as [v p x Hs|v p v' p' x n Hs Hr IH]; intros [|fuel'] w Hf Hw; [lia| |lia|];
    destruct (Hs w Hw) as (w1 & Hw1 & E); unfold io_while; cbn [c_while].
  - rewrite (Hstep _ _ _ _ _ _ _ E) by auto. cbn. destruct fuel' as [|fuel']; [lia|]. cbn [c_while]. rewrite Hend. by exists w1.
  - rewrite (Hstep _ _ _ _ _ _ _ E) by auto. apply IH; [lia|done].
Qed.

Lemma cwd_follows : follows pair cwd_step.
Proof.
  split; [done|]. intros v p r v' p' w w' E Hr. unfold Path.cwd_step. rewrite (io_bind_Ok _ _ _ _ _ E). destruct Hr as [->| ->]; by rewrite Z.eqb_refl, ?orb_true_r.
Qed.

Lemma path_follows flags b : follows (λ v p, (v, p, b)) (path_step flags).
Proof.
  split; [done|]. intros v p r v' p' w w' E Hr. unfold Path.path_step. rewrite (io_bind_Ok _ _ _ _ _ E). destruct Hr as [->| ->]; by rewrite Z.eqb_refl, ?orb_true_r.
Qed.

(** ** vfs_get *)

(** The flags ask for nothing but the node, and agree with its kind. *)
Definition plain_open (flags m : Z) : Prop :=
  Z.land flags O_TRUNC = 0 ∧ Z.land flags O_APPEND = 0 ∧ Z.land flags O_NONBLOCK = 0 ∧ (Z.land flags O_DIRECTORY ≠ 0 ↔ S_ISDIR m = true).

Lemma open_checks_pass flags v m w : I w → mode v = Some m → plain_open flags m → ∃ w', I w' ∧ open_checks stat_file ftruncate flags v w = Ok ((), w').
Proof.
  intros Hw Hv (Ht & Ha & Hn & Hd). destruct (stat_law v m w Hv Hw) as (st & w' & E & Hm & Hw'). exists w'. split; [done|].
  unfold open_checks. rewrite (io_bind_Ok _ _ _ _ _ E), Hm, Ht, Ha, Hn.
  destruct (S_ISDIR m), (Z.eqb_spec (Z.land flags O_DIRECTORY) 0) as [H|H]; try done.
  - destruct (proj2 Hd eq_refl). done.
  - discriminate (proj1 Hd H).
Qed.

Lemma vfs_get_ok cs p flags cwd x m n k w : I w → Forall segment_ok cs → walks vfs_get_root cs cwd n → resolves cwd p x k →
  (S n < fuel)%nat → (k < fuel)%nat → mode x = Some m → plain_open flags m → ∃ w', I w' ∧ vfs_get (47 :: text cs) p flags w = Ok (x, w').
Proof.
  intros Hw Hcs Hc Hr Hn Hk Hm Hp. unfold Path.vfs_get, walk_cwd, walk_path.
  destruct (loop_resolves pair cwd_step vfs_get_root (47 :: text cs) cwd (S n) fuel w) as (w1 & E1 & Hw1);
    [apply cwd_follows|by apply resolves_root, walks_resolves|done..|].
  rewrite (io_bind_Ok _ _ _ _ _ E1).
  destruct (loop_resolves _ (path_step flags) cwd p x k fuel w1 (path_follows flags false) Hr Hk Hw1) as (w2 & E2 & Hw2).
  rewrite (io_bind_Ok _ _ _ _ _ E2).
  destruct (open_checks_pass flags x m w2 Hw2 Hm Hp) as (w3 & Hw3 & E3). exists w3. split; [done|]. by rewrite (io_bind_Ok _ _ _ _ _ E3).
Qed.

Lemma absolute_resolves v ps x k : Forall segment_ok ps → walks vfs_get_root ps x k → resolves v (47 :: text ps) x (S k).
Proof. intros Hps Hw. by apply resolves_root, walks_resolves. Qed.

Lemma settles_trans v u t n m : settles v u n → settles u t m → settles v t (n + m).
Proof. intros Hs Ht. induction Hs; [done|]. eapply settles_mount; eauto. Qed.

Lemma settles_walks v u ps x n k : settles v u n → walks u ps x k → walks v ps x (n + k).
Proof.
  intros Hs Hw. destruct Hw; rewrite ?Nat.add_assoc, <-?plus_n_Sm; cbn [Nat.add]; econstructor; eauto using settles_trans.
Qed.

Lemma walks_app v cs u n ps x k : walks v cs u n → walks u ps x k → ps ≠ [] → ∃ m, (m ≤ n + k)%nat ∧ walks v (cs ++ ps) x m.
Proof.
  intros Hw Hk Hne. revert Hk. induction Hw as [v u n Hs|v u n s y Hs He|v u n s y segs z m Hs He Hne' Hw IH]; intros Hk.
  - exists (n + k)%nat. split; [lia|by eapply settles_walks].
  - exists (S n + k)%nat. split; [done|]. by eapply walks_step.
  - destruct (IH Hk) as (j & Hj & Hw2). exists (S n + j)%nat. split; [lia|]. cbn. eapply walks_step; [done..| |done]. by destruct segs.
Qed.

Lemma walks_root v segs x n : walks v segs x n → ∃ u j, (j ≤ n)%nat ∧ walks v [] u j.
Proof. intros Hw. destruct Hw; eexists _, _; (split; [|by apply walks_end]); lia. Qed.


(** C36: a relative path names the same node as the absolute path made of the components of the working directory and its own, when the components are found (the
    names listed before each are UTF-8). *)
Theorem relative_is_absolute cs ps flags cwd x m n k w w' : I w → I w' → Forall segment_ok cs → Forall segment_ok ps → ps ≠ [] →
  walks vfs_get_root cs cwd n → walks cwd ps x k → (S (n + k) < fuel)%nat → mode x = Some m → plain_open flags m →
  (∃ w1, vfs_get (47 :: text cs) (text ps) flags w = Ok (x, w1)) ∧
  (∃ w2, vfs_get [47] (47 :: text (cs ++ ps)) flags w' = Ok (x, w2)).
Proof.
  intros Hw Hw' Hcs Hps Hne Hc Hp Hf Hmode Hpl. split.
  - destruct (vfs_get_ok cs (text ps) flags cwd x m n k w) as (w1 & _ & E); [done|done|done|by apply walks_resolves|lia|lia|done|done|eauto].
  - destruct (walks_app _ _ _ _ _ _ _ Hc Hp Hne) as (q & Hm & Ha).
    destruct (walks_root _ _ _ _ Hc) as (u & j & Hj & Hr).
    destruct (vfs_get_ok [] (47 :: text (cs ++ ps)) flags u x m j (S q) w') as (w2 & _ & E); [done|by constructor|done| |lia|lia|done|done|eauto].
    apply absolute_resolves; [by apply Forall_app|done].
Qed.

(** A second slash restarts the walk at the root: in "s//q" the part before it has no effect. *)
Lemma double_slash_restarts v s t x ps k : find_mount v = None → segment_ok s → entry v s = Ok (Some t) → Forall segment_ok ps → walks vfs_get_root ps x k →
  resolves v (s ++ 47 :: 47 :: text ps) x (S (S k)).
Proof. intros Hm Hs He Hps Hw. eapply resolves_more; [by apply steps_more|by apply absolute_resolves]. Qed.

Lemma not_found_differs r : r = STEPPATH_NOTEXIST_LAST ∨ r = STEPPATH_NOTEXIST → (r =? STEPPATH_COMPLETE) || (r =? STEPPATH_INPROGRESS) = false.
Proof.
  pose proof steppath_distinct as H. rewrite !NoDup_cons, !not_elem_of_cons in H.
  intros Hr. apply orb_false_iff. rewrite !Z.eqb_neq. destruct Hr as [->| ->]; naive_solver.
Qed.

(** A component that does not exist: nothing is opened. *)
Lemma missing_component flags v l s rest w : I w → dir v = Some l → find_mount v = None → segment_ok s → entry v s = Ok None → Z.land flags O_CREAT = 0 →
  (rest = [] ∨ ∃ t, rest = 47 :: t ∧ t ≠ []) → path_step flags (v, Some (s ++ rest), false) w = Halt.
Proof.
  intros Hw Hv Hm Hs He Hf Hr. destruct (step_segment v l s rest w Hw Hv (small_dirs v l Hv) Hm Hs Hr) as (w' & _ & E). rewrite He in E.
  cbn [mbind outcome_bind] in E. unfold Path.path_step. rewrite (io_bind_Ok _ _ _ _ _ E), Hf.
  rewrite not_found_differs by (case_bool_decide; auto). by destruct (_ =? _).
Qed.
End walk.

(** ** Examples: a tree with two mounts *)
Lemma the_steps_distinct : NoDup [0; 1; 2; 3].
Proof. by apply (bool_decide_unpack _). Qed.
Definition the_steps : StepPathResult :=
  {| STEPPATH_COMPLETE := 0; STEPPATH_INPROGRESS := 1; STEPPATH_NOTEXIST_LAST := 2; STEPPATH_NOTEXIST := 3; steppath_distinct := the_steps_distinct |}.
#[local] Existing Instance the_steps.

(** The device directory is mounted on dev, and a disk on dev/sda: /dev/sda/a/f is a file of the disk. *)
Definition dev_root : VNode := MkVNode (VNodeId 1 0) DevRootOps.
Definition sda : VNode := MkVNode (VNodeId 1 1) BlockdevOps.
Definition disk_root : VNode := MkVNode (VNodeId 9 1) FatRootOps.
Definition disk_a : VNode := MkVNode (VNodeId 10 1) FatOps.
Definition disk_f : VNode := MkVNode (VNodeId 11 1) FatOps.
Definition the_dev : VNode := MkVNode (VNodeId TMPFS_DEV 0) TmpDirOps.
Definition no_mount : MountPoint := MkMountPoint (MkVNode (VNodeId 0 0) NoOps) (MkVNode (VNodeId 0 0) NoOps).
Definition the_mounts : list MountPoint := [MkMountPoint the_dev dev_root; MkMountPoint sda disk_root; no_mount].

Definition the_dir (v : VNode) : option (list (dirent * VNode)) :=
  if bool_decide (v = vfs_get_root) then Some tmpfs_entries
  else if bool_decide (v = dev_root) then Some [(Dirent 1 [115; 100; 97], sda)]
  else if bool_decide (v = disk_root) then Some [(Dirent 12 [98], disk_f); (Dirent 10 [97], disk_a)]
  else if bool_decide (v = disk_a) then Some [(Dirent 11 [102], disk_f)] else None.
Definition the_mode (v : VNode) : Z := if bool_decide (v = disk_f) then S_IFREG else if bool_decide (v = sda) then S_IFBLK else S_IFDIR.

(** The state counts the directory entries that were read. *)
Definition the_read_dirents (v : VNode) (i n : Z) : io nat (list (dirent * VNode)) :=
  λ reads, l ← or_undef (the_dir v); Ok (take (Z.to_nat n) (drop (Z.to_nat i) l), Datatypes.S reads).
Definition the_stat_file (v : VNode) : io nat stat := mret (Stat 0 (the_mode v) 0 0 0).
Definition the_create_inode (v : VNode) (m : Z) (name : list Z) : io nat Z := lift Halt.
Definition the_ftruncate (v : VNode) (n : Z) : io nat () := mret ().
Fixpoint the_segment_len (s : list Z) : Z :=
  match s with [] => 0 | c :: s => if c =? 47 then 0 else 1 + the_segment_len s end.

Lemma the_read_law v l i w : the_dir v = Some l → True → ∃ w', the_read_dirents v (Z.of_nat i) 1 w = Ok (take 1 (drop i l), w') ∧ True.
Proof. intros E _. exists (Datatypes.S w). unfold the_read_dirents. rewrite E. cbn [or_undef mbind outcome_bind]. by rewrite Nat2Z.id. Qed.

Lemma the_stat_law v m w : Some (the_mode v) = Some m → True → ∃ st w', the_stat_file v w = Ok (st, w') ∧ st_mode st = m ∧ True.
Proof. intros [= <-] _. by exists (Stat 0 (the_mode v) 0 0 0), w. Qed.

Lemma the_segment_law s rest : 47 ∉ s → the_segment_len (s ++ 47 :: rest) = Z.of_nat (length s).
Proof.
  induction s as [|c s IH]; [done|]. intros [Hc Hs]%not_elem_of_cons. cbn [app the_segment_len length].
  destruct (Z.eqb_spec c 47); [done|]. rewrite IH by done. lia.
Qed.

Lemma the_segment_end_law s : 47 ∉ s → the_segment_len s = Z.of_nat (length s).
Proof.
  induction s as [|c s IH]; [done|]. intros [Hc Hs]%not_elem_of_cons. cbn [the_segment_len length].
  destruct (Z.eqb_spec c 47); [done|]. rewrite IH by done. lia.
Qed.

Lemma the_small_dirs v l : the_dir v = Some l → (length l < 10)%nat.
Proof. unfold the_dir. repeat case_bool_decide; intros [= <-]; cbn; lia. Qed.

Abbreviation the_vfs_get := (vfs_get the_stat_file the_read_dirents the_create_inode the_ftruncate the_segment_len 10 the_mounts).

(** /dev/sda is the device, not the root of the disk that is mounted on it. *)
Example device_opens : the_vfs_get [47] [47; 100; 101; 118; 47; 115; 100; 97] 0 0%nat = Ok (sda, 2%nat).
Proof. reflexivity. Qed.

(** "dev//dev": the second slash starts again. *)
Example double_slash : the_vfs_get [47] [100; 101; 118; 47; 47; 100; 101; 118] O_DIRECTORY 0%nat = Ok (the_dev, 2%nat).
Proof. reflexivity. Qed.

Example nothing_there : the_vfs_get [47] [120] 0 0%nat = Halt.
Proof. reflexivity. Qed.

Lemma to_sda : walks the_mounts the_dir vfs_get_root [[100; 101; 118]; [115; 100; 97]] sda 3.
Proof.
  apply (walks_step _ _ _ vfs_get_root 0 _ the_dev _ _ 2); [by constructor|done|done|].
  eapply (walks_last _ _ _ dev_root 1); [by eapply settles_mount; [|constructor]|done].
Qed.

Lemma to_file : walks the_mounts the_dir sda [[97]; [102]] disk_f 3.
Proof.
  apply (walks_step _ _ _ disk_root 1 _ disk_a _ _ 1); [by eapply settles_mount; [|constructor]|done|done|].
  by apply (walks_last _ _ _ disk_a 0); [constructor|].
Qed.

Lemma to_dev : walks the_mounts the_dir vfs_get_root [[100; 101; 118]] the_dev 1.
Proof. by apply (walks_last _ _ _ vfs_get_root 0); [constructor|]. Qed.


Lemma relative_is_absolute_witness :
  (∃ w1, the_vfs_get [47; 100; 101; 118; 47; 115; 100; 97] [97; 47; 102] 0 0%nat = Ok (disk_f, w1)) ∧
  (∃ w2, the_vfs_get [47] [47; 100; 101; 118; 47; 115; 100; 97; 47; 97; 47; 102] 0 0%nat = Ok (disk_f, w2)).
Proof.
  apply (relative_is_absolute the_stat_file the_read_dirents the_create_inode the_ftruncate the_segment_len 10 the_mounts the_dir (λ v, Some (the_mode v)) (λ _, True)
    the_read_law the_stat_law the_segment_law the_segment_end_law the_small_dirs [[100; 101; 118]; [115; 100; 97]] [[97]; [102]] 0 sda disk_f S_IFREG 3 3);
    [done|done|repeat constructor; set_solver|repeat constructor; set_solver|done|apply to_sda|apply to_file|lia|done|done].
Defined.
