(* ===== verification/VfsTree.v ===== *)
(** * The file system of the kernel: paths, the FAT16 driver and the disks together

    A node's operations are the functions of its table; here they are the functions of fs.c, fs_dev.c and fs_fat.c, which act on one state:
    the mounted volumes and the block devices.  As main.c does, a FAT16 volume is mounted over the root. *)
From S2P Require Import Prelude Bytes Vfs BlockDev FatVolume FatChain FatFile FatName FatSpec FatDir FatExamples Syscalls Unistd Pipes Path PathSpec.
#[local] Open Scope list_scope.

Section tree.
Context {D : Type} `{!BlockDriver D} {spr : StepPathResult} (fuel : nat).
Abbreviation disks := (fat_state (dev_state D)).

(** Where a table has no function: to call the null pointer is undefined in C; [directory_lookup], in Rust, panics on a missing [read_dirents]. *)
Definition node_stat_file (v : VNode) : io disks stat :=
  match ops v with
  | TmpRootOps | TmpDirOps => lift (tmpfs_stat_file (id v))
  | BlockdevOps => λ st, s ← blockdev_stat (id v) (dev st); Ok (s, st)
  | FatOps | FatRootOps => FatFile.stat_file (id v)
  | DevRootOps => lift (devroot_stat (id v))
  | NoOps => lift Undef
  end.
Definition node_read_dirents (v : VNode) (index count : Z) : io disks (list (dirent * VNode)) :=
  match ops v with
  | TmpRootOps => mret (tmpfs_read_dirents index count)
  | DevRootOps => λ st, '(l, _) ← devroot_read_dirents (id v) index count (dev st); Ok (l, st)
  | FatOps | FatRootOps => '(_, l) ← FatFile.read_dirents fuel (id v) index count; mret l
  | TmpDirOps | BlockdevOps | NoOps => lift Halt
  end.
Definition node_create_inode (v : VNode) (mode : Z) (name : list Z) : io disks Z :=
  match ops v with FatOps | FatRootOps => FatFile.create_inode fuel (id v) mode name | _ => lift Undef end.
Definition node_ftruncate (v : VNode) (len : Z) : io disks () :=
  match ops v with FatOps => FatFile.ftruncate (id v) len | _ => lift Undef end.

Context (path_segment_len : list Z → Z).

(** ** What the kernel does with it when it starts: the state is the table of mounts, the volumes and the disks *)
Abbreviation kernel_fs := (list MountPoint * disks)%type.

Definition vfs_get_in (cwd_path path : list Z) (open_flags : Z) : io kernel_fs VNode := λ '(mounts, st),
  '(v, st) ← Path.vfs_get node_stat_file node_read_dirents node_create_inode node_ftruncate path_segment_len fuel mounts cwd_path path open_flags st;
  Ok (v, (mounts, st)).
Definition vfs_add_mount_in (mount_against filesystem_root : VNode) : io kernel_fs () := λ '(mounts, st),
  mounts ← vfs_add_mount mounts mount_against filesystem_root; Ok ((), (mounts, st)).

Definition devfs_init : io kernel_fs () :=
  v ← vfs_get_in [47] [47; 100; 101; 118] O_DIRECTORY;
  vfs_add_mount_in v (MkVNode (VNodeId DEV_ROOT_DIR_INODE_NUM 0) DevRootOps).

(** syscall_handlers.c; the working directory and the path are the bytes of the strings. *)
Definition syscall_stat (cwd path : list Z) : io kernel_fs stat := λ s,
  '(file, (mounts, st)) ← vfs_get_in cwd path 0 s;
  '(result, st) ← node_stat_file file st; Ok (result, (mounts, st)).

(** [mount_fat16]: FatFile.v has the function up to the node it mounts. *)
Definition mount_fat16_at (block_device : VNode) (mount_name : list Z) : io kernel_fs () :=
  mount_vnode ← (λ '(mounts, st), '(v, st) ← mount_fat16 block_device st; Ok (v, (mounts, st)));
  v ← vfs_get_in [47] mount_name O_DIRECTORY;
  vfs_add_mount_in v mount_vnode.

(** [mount_fat16(vfs_get("/", "/dev/blkAp1", 0), "/")], with the name of the device as an argument. *)
Definition mount_root (device_path : list Z) : io kernel_fs () :=
  device ← vfs_get_in [47] device_path 0;
  mount_fat16_at device [47].

(** ** A volume at the root *)
Context (vol : Fat16Volume) (size : Z) (Hlay : layout_ok vol size) (mid : Z) (f : Z → Z).
Context (mounts : list MountPoint).
Hypothesis segment_law : ∀ s rest, 47 ∉ s → path_segment_len (s ++ 47 :: rest) = Z.of_nat (length s).
Hypothesis segment_end_law : ∀ s, 47 ∉ s → path_segment_len s = Z.of_nat (length s).
Abbreviation open_path := (Path.vfs_get node_stat_file node_read_dirents node_create_inode node_ftruncate path_segment_len fuel mounts).

(** [v] is a directory of the volume and its records list [l]. *)
Definition fat_directory (v : VNode) (l : list (dirent * VNode)) : Prop :=
  (ops v = FatOps ∨ ops v = FatRootOps) ∧ mount_id (id v) = mid ∧ ∃ cluster P rs post,
    names_directory vol f (inode (id v)) cluster ∧ holds vol f cluster P rs post ∧ l = dir_dirents mid cluster 0 rs ∧ (2 * length rs < fuel)%nat.

Lemma node_read_law v l i (st : disks) : fat_directory v l → mounted vol size st mid f →
  ∃ st', node_read_dirents v (Z.of_nat i) 1 st = Ok (take 1 (drop i l), st') ∧ mounted vol size st' mid f.
Proof.
  intros (Hops & <- & cluster & P & rs & post & Hn & Hh & -> & Hf) Hm.
  destruct (wp_total_1 _ _ (wp_read_dirents vol size Hlay st (id v) f cluster P rs post (Z.of_nat i) 1 fuel Hm Hn Hh ltac:(lia) ltac:(lia) Hf))
    as ([[k o] st'] & E & _ & -> & Hm' & _). exists st'. split; [|done].
  unfold page in E. rewrite Nat2Z.id in E. unfold node_read_dirents. by destruct Hops as [-> | ->]; rewrite (io_bind_Ok _ _ _ _ _ E).
Qed.

Lemma node_stat_law v P L e (st : disks) : ops v = FatOps → mount_id (id v) = mid → file_at vol f (inode (id v)) P L e → mounted vol size st mid f →
  ∃ s st', node_stat_file v st = Ok (s, st') ∧ st_mode s = S_IFREG ∧ mounted vol size st' mid f.
Proof.
  intros Ho <- Hfile Hm. destruct (wp_total_1 _ _ (stat_file_spec vol size Hlay st (id v) f P L e Hm Hfile)) as ([s st'] & E & -> & Hm' & _).
  exists (Stat (inode (id v)) S_IFREG 0 0 (file_size_bytes e)), st'. unfold node_stat_file. rewrite Ho. by split_and!.
Qed.

End tree.

(** ** Examples: /a.txt on the disk of FatExamples.v *)
Import BlockDevExamples.
#[local] Existing Instance the_steps.
Definition fat_root : VNode := MkVNode (VNodeId I_AM_ROOT_DIR 0) FatRootOps.
Definition a_txt_node : VNode := MkVNode (VNodeId 0 0) FatOps.
Definition boot_mounts : list MountPoint := [MkMountPoint vfs_get_root fat_root].
Definition boot_dir (v : VNode) : option (list (dirent * VNode)) :=
  if decide (v = fat_root) then Some (dir_dirents 0 PARENT_IS_ROOT_DIR 0 root_records) else None.

Lemma boot_dir_law v l : boot_dir v = Some l → fat_directory 10 fat_vol 0 fat_image v l.
Proof.
  unfold boot_dir. case_decide as E; [|done]. intros [= <-]. subst v. split; [by right|]. split; [done|].
  exists PARENT_IS_ROOT_DIR, [], root_records, (replicate 416 0). split; [done|]. split; [exact root_holds|]. split; [done|]. cbn. lia.
Qed.

Lemma boot_walk : walks boot_mounts boot_dir vfs_get_root [a_txt] a_txt_node 2.
Proof. apply (walks_last _ _ _ fat_root 1); [by eapply settles_mount; [|constructor]|done]. Qed.


(** The same disk with the header of its volume in its first sector, from the start of the kernel on: /dev is mounted, then the disk over the root. *)
Definition fat_header : list Z :=
  [0; 0; 0; 0; 0; 0; 0; 0; 0; 0; 0; 0; 2; 1; 1; 0; 1; 16; 0; 0; 2; 0; 1; 0] ++ replicate 14 0 ++ [0x29] ++ replicate 471 0 ++ [0x55; 0xAA].
Definition boot_world : dev_state (gmap Z (list Z)) :=
  DevState 1 [MkDevice (<[0 := fat_header]> fat_disk) (MkCache [] 0 false) 1 (replicate 9 (Partition 0 0))].
Definition no_volume : Fat16Volume := MkVolume (MkVNode (VNodeId 0 0) NoOps) 0 0 0 0 0 0.
Definition boot_state : list MountPoint * fat_state (dev_state (gmap Z (list Z))) :=
  (replicate 4 no_mount, FatState (replicate 10 no_volume) 0 boot_world).

Definition boot (s : list MountPoint * fat_state (dev_state (gmap Z (list Z)))) : outcome (VNode * list MountPoint) :=
  '(_, s) ← devfs_init 10 the_segment_len s;
  '(_, s) ← mount_root 10 the_segment_len [47; 100; 101; 118; 47; 98; 108; 107; 65] s;
  '(v, s) ← vfs_get_in 10 the_segment_len [47] (47 :: a_txt) 0 s;
  Ok (v, s.1).

Example boot_opens_file : boot boot_state = Ok (a_txt_node,
  [MkMountPoint the_dev (MkVNode (VNodeId DEV_ROOT_DIR_INODE_NUM 0) DevRootOps); MkMountPoint vfs_get_root fat_root; no_mount; no_mount]).
Proof. vm_compute. reflexivity. Qed.
